(* ===== verification/_CoqProject ===== *)
-Q . S2P
Prelude.v
GoStrings.v
GoNet.v
GoUrl.v
Destination.v
Spelling.v
Cidr.v
Float64.v
Config.v
Taint.v
Escalation.v
Airlock.v
Adaptive.v
Sessions.v
Activity.v
KillSwitch.v
Deferred.v
DoW.v
Chains.v
Receipt.v
ReceiptChain.v
Endorsed.v
RecorderEntry.v
Recorder.v
Limits.v
Replay.v
Fragments.v
SigV4.v
Scanner.v
ScannerClose.v
Dial.v
Sni.v
Tracker.v
Frames.v
ToolSchema.v
ToolBaseline.v
ToolScan.v
ResetAuthority.v
Listener.v
GraphQL.v
ReqPolicy.v
