(* ===== verification/Prelude.v ===== *)
(** * Pipelock: a verification library

    Pipelock is a firewall that stands between AI agents and the network: an
    HTTP proxy, an MCP proxy and the policy, quarantine and evidence machinery
    behind them. This library models the part of it that decides and records:
    given a request, a session and the state of the process, may the request go
    out and to which address, may the action go through, who may release it,
    and what can be proved about it afterwards. The regular expressions that
    scan content and the transports around the modelled decisions are left out.

    ** The program's parts and their files

    Foundations.
    - Prelude.v (this file): Go errors, 64-bit integers, time, and the monad of
      operations that may fail, with its triples.
    - GoStrings.v, GoNet.v, GoUrl.v, Float64.v: what the modelled code calls of
      [strings], [strconv], [encoding/hex], [net], [net/netip] and [net/url], and
      its [float64] arithmetic.
    - Config.v: the sections of the configuration ([internal/config/schema.go])
      that the components read.

    Where a request may go.
    - Destination.v ([internal/destination]): address literals in every notation,
      the SSRF floor that no configuration opens, exact grants and their sets,
      domain patterns. Spelling.v: a literal remains the same address under the
      normalisations that the callers apply. Cidr.v: the ranges that the scanner
      always blocks.
    - Limits.v, Fragments.v ([internal/scanner]): the sliding-window rate limiter
      and data budget, and the buffer that joins outbound fragments.
    - SigV4.v ([internal/scanner/sigv4.go]): the carve-out for presigned URLs.
    - Scanner.v ([internal/scanner/scanner.go], [core.go], [dnsresolver.go],
      [dns_error.go]): the checks of one URL in their order, with the limits, the
      resolver and the exemptions. ScannerClose.v: leases, closing and tear-down
      of a scanner that a reload replaces.
    - Dial.v ([internal/proxy/proxy.go], [ssrf_dial_block.go],
      [internal/mcp/upstream_dial.go]): the guard at the moment of dialling, which
      judges the addresses again and holds them against what the scan saw.
    - Sni.v ([internal/proxy/sni.go] and the gate of [handleConnect] in
      [forward.go]): the server name in the ClientHello of a tunnel.
    - GraphQL.v ([internal/reqpolicy/graphql.go]): from the text of a document to the
      operations it makes and the fields they execute. ReqPolicy.v (the rest of
      [internal/reqpolicy], [internal/proxy/requestpolicy.go],
      [requestpolicy_operations.go]): the operator's rules over routes, operations and
      batches, and the gate that applies them to a forwarded request.

    The session of a client.
    - Taint.v ([internal/session/risk.go], [internal/decide/cross_agent.go]): what
      a session has been exposed to and the policy matrix over it; the recorder of
      the exposure is the class [RiskRecorder] with its laws [RiskRecorderLaws].
    - Adaptive.v ([internal/proxy/session.go]): threat scores in binary64, the
      lanes of a session and of its destinations, their levels and recovery.
    - Escalation.v ([internal/decide/escalation.go]): the upgrade of an action by
      the level, with the defaults and checks of the configuration it relies on.
    - Airlock.v ([internal/proxy/airlock.go]): the quarantine tiers, their timed
      recovery, the teardown of connections, the frozen tool inventories.
    - Sessions.v ([internal/proxy/session.go]): the manager of the sessions, with
      eviction, cleanup, sweeps and the operator's actions. A Go pointer to a
      session is an index into a store, so that evicted sessions that are still
      held are modelled.
    - Activity.v ([recordSessionActivityWithUserAgent] of
      [internal/proxy/proxy.go]): what one request does to all of these together.
    - Replay.v ([internal/envelope]): the times of signed envelopes and the cache
      against their replay.

    Tool calls.
    - DoW.v ([internal/proxy/dow.go]): budgets against runaway agents.
    - Chains.v ([internal/mcp/chains]): classification of tool calls and detection
      of dangerous sequences.
    - Deferred.v ([internal/deferred/manager.go]): actions held for a decision,
      their resolution, the cascade to their descendants, the journal and the
      recovery from it.
    - Tracker.v ([internal/mcp/request_tracker.go] and the check of
      [ForwardScanned] in [internal/mcp/proxy.go]): responses match requests.
    - Frames.v ([internal/wsutil/fragment.go],
      [internal/mcp/transport/wsclient.go]): messages from WebSocket frames.
    - ToolSchema.v ([internal/mcp/tools]): the walkers of an input schema, for its
      texts, its parameters and the arguments mirrored into HTTP headers.
    - ToolBaseline.v ([tools.go], [header_bindings.go], [evaluateSessionBinding]):
      the approved definitions of a server's tools, the inventory that a session was
      shown and the reservations that fill it, the decision on a call.
    - ToolScan.v ([ScanTools], [drift_cues.go]): findings of a tools/list response,
      cues that a changed definition introduces, and what becomes the baseline.
    - ResetAuthority.v ([internal/mcp/reset_authority.go]): signed resets of that
      baseline or of a session, spent on an epoch; the epoch is the class
      [ResetEpoch] with its laws [ResetEpochLaws] and two implementations.
    - Listener.v ([internal/mcp/mcp_http_listener_state.go]): the clients of an MCP
      listener, with a heap of shared states, eviction, revocation and commits.
    - KillSwitch.v ([internal/killswitch/killswitch.go]): the process-wide
      deny-all controller and its exemptions.

    Evidence.
    - RecorderEntry.v, Recorder.v ([internal/recorder]): the entries of the log,
      their hashes and the verifier; the writer with its rotation, checkpoints,
      redaction and resumption.
    - Receipt.v ([internal/receipt]): action records and receipts, validation,
      signatures, the session genesis and endorsements. ReceiptChain.v and
      Endorsed.v ([chain.go]): the verifier of chains, with and without endorsed
      rotations, and the transcript root.

    A request to the proxy passes the kill switch, the scanner and, when it is
    dialled, the dial guard; a CONNECT tunnel also passes the check of its server
    name, and a forwarded request the rules of the request policy. Its outcome is recorded on the session of the client (Activity.v), whose
    level and airlock bear on the next requests. A tool call meets the budgets, the
    chain detector and the taint matrix; its action goes through the escalation
    level, and one that comes out as a deferral is held by the manager. The tools it
    may name are those of the client's inventory (Listener.v holds one for each), which
    a scanned tools/list response fills once it was written. What was
    decided is written to the log and as a receipt, which the verifiers read.

    ** How the code is represented

    Operations are functions from a state to a result and a new state; in
    Recorder.v they are written in the monad of this file and in Scanner.v in one
    of its own, as the code threads state and errors through many calls there. A
    method that holds its object's mutex for the whole body is one atomic step;
    where a method gives up the mutex in the middle its critical sections are
    functions of their own, the method is their composition, and a step relation
    interleaves them: [Deferred.dstep], [DoW.call_step], [Recorder.rstep],
    [ScannerClose.step], [Tracker.session_step], [ToolBaseline.inventory_step],
    [ResetAuthority.reset_step], [Listener.listener_step]. [Airlock.airlock_step],
    [DoW.dow_step], [Sessions.sm_run] and the histories of Adaptive.v, Limits.v,
    Fragments.v, Replay.v and Scanner.v are those of components whose methods are
    atomic. Theorems over all interleavings are about the states reachable in these
    relations.

    A Go map is a [gmap], a slice a [list], a pointer that may be nil an [option],
    an error a [result]. Where the code compares an enumeration as the integer or
    string that comes from elsewhere (tiers, levels, classes, actions), the model
    does the same and nothing assumes a value to be a named one; enumerations
    whose values only the package itself makes are inductive types. An [int] is a
    [Z], with the wrap-around written where the code can leave the 64-bit range:
    durations built from configured minutes in Airlock.v, sequence numbers in
    ReceiptChain.v and Recorder.v. A [time.Time] is a number of nanoseconds, and
    each clock reading is an argument; so is the order in which a map is visited.
    An index out of range is the [None] of the functions that index.

    What a component takes from elsewhere is an argument of its section, often a
    class of operations: [KillSwitch.NetLib] and the file system's answers,
    [Deferred.DeferEnv] (clock, random identifiers, success or failure of a journal
    write), [RecorderEnv] (the outcome of each system call), [Chains.ChainLib]
    (globs and regular expressions), [Receipt.CryptoLib] (SHA-256, Ed25519),
    [Receipt.JSONLib] and [EntryLib] (encoders), the URL parser and the
    public-suffix list of Scanner.v, the resolver and dialer of Dial.v, the opcode
    test of Frames.v, the JSON codec and the patterns of ToolScan.v, the parsers of JSON
    and MIME bodies of ReqPolicy.v. Each witness instantiates them with concrete functions. No
    property of cryptography is assumed globally: the theorems that need one say
    which two inputs must not collide.

    ** Recursion, bounds and fuel

    The cascade of [Deferred.Resolve] calls [Resolve] again on every child and,
    when a journal write fails, from inside a resolution. [Resolve_fuel] is indexed
    by a depth; each level removes at least one hold, and two levels are spent per
    hold, so [enoughFuel], twice the number of holds plus one, always gives a
    result ([Resolve_terminates]). The loops of Sni.v are defined by well-founded
    recursion on the length of the data; [peekLoop] runs for as many rounds as
    bytes were asked for, since each adds one ([peekLoop_spec]). The parser of IPv6
    groups has one round per group of an address; a walker of a schema counts down
    from the depth at which the code stops; the loop that pins a scanner
    makes the three attempts of the code; the scans in GoStrings.v run for the
    length of the string. The loops of the GraphQL parser have a round for each token
    that is left and its selection sets count down from the depth at which the code
    stops; each level of the walk over fragments has counted an item, so the budget of
    items bounds the levels ([walk_total]), and the error that stands for running
    out is never the result ([fields_exact]). Nested batches count down to the depth at which
    the code refuses them.

    ** What is proved

    Where a request may go. An address is the same address in every spelling
    ([NormalizeHost_literal], [spellings_agree]); destinations print and parse back
    ([destination_roundtrip]); grants open exact destinations and never the floor
    ([grants_exact], [floor_any_spelling]). The scanner never allows the floor
    ([floor_never_allowed]), justifies every internal address
    ([internal_justified]), touches the resolver and the limits only after the
    content of the URL has passed ([effects_after_content]), refuses what it cannot
    resolve ([lookup_failure]) and holds sites to their rate
    ([site_rate_bounded], on top of [rate_limit_exact] and [data_budget_exact]);
    the carve-out hides one access key and nothing else ([scrub_exact]); joined
    fragments give their secret away ([split_secret_found], [fragments_bounded]);
    a scanner in use is not torn down ([no_teardown_in_use]). What is dialled was
    just judged ([dial_justified]) and a grant does not follow a name to new
    addresses ([granted_dial_pinned]). The ClientHello parser accepts a grammar
    ([extractSNI_spec]) that contains what clients encode
    ([client_hello_roundtrip]); a spliced tunnel begins with the name that was
    asked for ([gated_tunnel_names_target]), however the bytes arrive
    ([verdict_of_bytes]). The policy sees every operation and field of a GraphQL
    document ([fields_exact]) and paths without detours ([path_canonical]); what it lets
    through executes nothing that a rule denies ([forwarded_is_harmless]), in a batch
    neither ([batch_hides_nothing]).

    The session of a client. Exposure accumulates ([observe_history],
    [ObserveCrossAgentContamination_idempotent]) and decisions are monotone in it
    ([EvaluateWithOptions_monotone]); escalation only tightens an action
    ([UpgradeAction_never_relaxes]) and wears off in time ([escalation_recovers]).
    The airlock keeps its invariant ([airlock_reachable_inv]), tears down what was
    registered ([registered_connection_torn_down]), recovers one tier at a time
    ([TryDeescalate_spec]), classifies in an antitone way
    ([ClassifyAction_antitone], [Freeze_first_wins]). A quarantined session survives
    the manager ([quarantine_survives], [eviction_exact]); a request releases no
    quarantine ([activity_refines]), changes an airlock only when a level rises
    ([airlock_edge_triggered]) and not at all by neutral results
    ([neutral_request_inert], [activity_verdict]). A signature is accepted once
    ([signature_accepted_once]).

    Tool calls. A budget lasts for its window ([budget_not_refilled],
    [reapExpired_is_full_scan], [retry_storm_refused],
    [concurrent_limit_respected]); the chain detector reports the most severe match
    of the greedy occurrences in bounded memory ([matchPatterns_best],
    [subsequenceMatch_spec], [Record_bounded]). Held actions stay consistent
    ([manager_reachable_inv]), are delivered exactly once
    ([delivered_exactly_once]), in time ([Resolve_terminates]) and without orphans
    ([Resolve_cascade_closed]); affirmative resolvers respect the rule
    ([affirmative_gates]); an allow is journalled first ([allow_is_journalled]), so
    that recovery after a crash returns what was held and nothing that was allowed
    ([crash_recovery], [restart_recovery_complete]). The tracker is a queue of
    requests ([tracker_is_a_queue]) each of which is answered once
    ([one_answer_per_request]); reading messages is exact ([read_message_exact]).
    The arguments that a schema mirrors into headers are exactly those it declares
    ([header_bindings_exact]); a session knows the tools that it was shown
    ([inventory_is_what_was_forwarded]); the baseline descends from definitions
    without findings through changes without cues ([baseline_was_approved]), and a
    list that passes is in it ([clean_list_approved]). A reset is spent once
    ([reset_spent_once]) and what is minted is accepted ([minted_is_accepted]).
    A removed client commits nothing ([revoked_commits_nothing]); flooding does not
    remove a principal ([live_principal_kept]).
    The kill switch is the disjunction of its sources ([computeDecision_or],
    [source_stays_active]), bypassed only through the exemptions
    ([IsActiveHTTP_exemptions], [IsSessionActionPath_shape]).

    Evidence. A log that verifies is determined by its last hash
    ([head_hash_determines_log]); the writer's log verifies in every interleaving
    but after the steps that the findings below describe ([recorder_log_verifies]),
    and holds redacted details only ([written_detail_redacted]). A receipt chain
    that verifies is linked and signed by trusted keys ([valid_chain_sound]),
    determined by its root ([root_determines_chain]), its runs bracketed
    ([session_brackets]), its rotations authorised
    ([endorsed_rotations_authorised]), its genesis bound
    ([session_genesis_binds]).

    Where the code behaves otherwise than it means to or than its comments say, an
    [Example] exhibits it: [release_forgets_connections], [deescalation_overflow],
    [caller_supplied_parent], [reused_id_refuses_journal],
    [retry_limit_not_enforced], [greedy_misses], [classify_examples],
    [IsSessionActionPath_extra_slashes], [defaults_leave_elevated_ask_nil],
    [unwritten_checkpoint_breaks_log], [overtaken_write_forks_log],
    [final_checkpoint_skipped], [recorder_writes_unreadable],
    [replay_after_window], [replay_from_the_future], [trailing_dots],
    [scoped_quarantine_evicted], [latch_does_not_stop_refresh],
    [budget_block_is_a_threat], [resized_reader_loses_bytes],
    [reserved_opcode_accepted], [description_list_unseen],
    [concurrent_list_refused], [invalid_definition_keeps_contract],
    [warned_definition_is_promoted], [recorder_orphaned], [hidden_query],
    [shadow_rule_loses_body], [discriminator_lost_in_batch],
    [nested_batch_skips_rules], [relative_path_kept].

    ** What is not modelled

    Logging, metrics and event callbacks, which do not influence decisions; the
    patterns and entropy statistics of the scanner, its response and body scanning;
    the classifiers of URLs and MIME types in [risk.go]; the read-only views and
    the behavioural baseline of sessions; the signing side of receipts and
    envelopes; the readers, expiry and escrow of the recorder, and torn writes;
    loading and most of the validation of the configuration; the relays of the
    proxy after a tunnel or a socket is open. Packages that are only I/O, rendering
    or regular expressions are not modelled at all. Candidates for extension are
    JSON canonicalisation ([internal/jcs]) and the duplicate-key scan
    ([internal/jsonscan]) and the contract runtime ([internal/contract]). *)

From Stdlib Require Export ZArith Lia Ascii String.
From stdpp Require Export base tactics option list gmap strings pretty numbers relations sorting.

(** ** Go errors: a value or an error *)

Inductive result (A E : Type) : Type :=
| Ok (a : A)
| Err (e : E).
Arguments Ok {A E} a.
Arguments Err {A E} e.

#[export] Instance result_eq_dec {A E} `{EqDecision A, EqDecision E} : EqDecision (result A E).
Proof. solve_decision. Defined.

Declare Scope go_scope.
Delimit Scope go_scope with go.

(** [x <-? e ; k]: the [if err != nil { return err }] idiom. *)
Notation "x <-? e ; k" := (match e with Ok x => k | Err err => Err err end)
  (at level 100, e at next level, k at level 200, right associativity) : go_scope.
Notation "'check' e ; k" := (match e with Ok _ => k | Err err => Err err end)
  (at level 100, e at next level, k at level 200, right associativity) : go_scope.

Definition is_ok {A E} (r : result A E) : bool :=
  match r with Ok _ => true | Err _ => false end.

Lemma is_ok_true {A E} (r : result A E) : is_ok r = true <-> exists a, r = Ok a.
Proof. destruct r; naive_solver. Qed.

Lemma Ok_inj {A E} (a b : A) : @Ok A E a = Ok b -> a = b.
Proof. by intros [= ->]. Qed.

Lemma bind_Ok {A B E} (e : result A E) (k : A -> result B E) b :
  match e with Ok x => k x | Err err => Err err end = Ok b <-> exists x, e = Ok x /\ k x = Ok b.
Proof. destruct e; naive_solver. Qed.

(** [case_go]: destruct the innermost scrutinee of a [match] or [if] in the goal
    or in a hypothesis and discard the impossible branches. *)
Ltac case_go :=
  repeat (case_match; simplify_eq/=; try done).

(** [decide_lia]: case analysis of the decisions in sight, linear arithmetic
    closing the impossible branches. *)
Ltac decide_lia :=
  repeat match goal with
  | |- context [decide ?P] => destruct (decide P); try lia
  | H : context [decide ?P] |- _ => destruct (decide P); try lia
  | |- context [bool_decide ?P] => destruct (bool_decide_reflect P); try lia
  | H : context [bool_decide ?P] |- _ => destruct (bool_decide_reflect P); try lia
  end.

Lemma existsb_false {A} (f : A -> bool) l : existsb f l = false <-> Forall (fun x => f x = false) l.
Proof. induction l as [|x l IH]; [by split|]. cbn. by rewrite orb_false_iff, Forall_cons, IH. Qed.

Lemma filter_all {A} (P : A -> Prop) `{forall x, Decision (P x)} (l : list A) : Forall P l -> filter P l = l.
Proof. induction 1 as [|x l Hx _ IH]; [done|]. by rewrite filter_cons, decide_True, IH. Qed.

Lemma sublist_filter_mono {A} (P : A -> Prop) `{forall x, Decision (P x)} (l k : list A) : l `sublist_of` k -> filter P l `sublist_of` filter P k.
Proof.
  induction 1 as [|x l k H' IH|x l k H' IH]; [done|..]; rewrite !filter_cons; destruct (decide (P x)); [by apply sublist_skip|done|by apply sublist_cons|done].
Qed.

Lemma sublist_fmap_mono {A B} (f : A -> B) (l k : list A) : l `sublist_of` k -> f <$> l `sublist_of` f <$> k.
Proof. induction 1; cbn; [done|by apply sublist_skip|by apply sublist_cons]. Qed.

(** ** Machine integers

    A Go [int], [int64] or [time.Duration] is a [Z] kept in the signed 64-bit
    range, a [uint64] a [Z] kept in the unsigned one; the wrap-around is written
    where the code's arithmetic can leave the range. *)

Section integers.
Local Open Scope Z_scope.

Definition int64_min : Z := - 2 ^ 63.
Definition int64_max : Z := 2 ^ 63 - 1.
Definition in_int64 (z : Z) : Prop := int64_min <= z <= int64_max.
Definition in_uint64 (z : Z) : Prop := 0 <= z < 2 ^ 64.

Definition wrap64 (z : Z) : Z := (z + 2 ^ 63) mod 2 ^ 64 - 2 ^ 63.
Definition wrapu64 (z : Z) : Z := z mod 2 ^ 64.

Lemma wrap64_id z : in_int64 z -> wrap64 z = z.
Proof.
  unfold in_int64, int64_min, int64_max, wrap64. intros H.
  rewrite Z.mod_small; lia.
Qed.

Lemma wrap64_in z : in_int64 (wrap64 z).
Proof.
  unfold in_int64, int64_min, int64_max, wrap64.
  pose proof (Z.mod_pos_bound (z + 2 ^ 63) (2 ^ 64)). lia.
Qed.

Lemma wrapu64_id z : in_uint64 z -> wrapu64 z = z.
Proof. unfold in_uint64, wrapu64. intros. apply Z.mod_small. lia. Qed.

Lemma wrapu64_in z : in_uint64 (wrapu64 z).
Proof. unfold in_uint64, wrapu64. apply Z.mod_pos_bound. lia. Qed.

Lemma wrapu64_succ z : wrapu64 (wrapu64 z + 1) = wrapu64 (z + 1).
Proof. unfold wrapu64. apply Zplus_mod_idemp_l. Qed.
End integers.

Create HintDb go.
#[export] Hint Resolve wrap64_in wrapu64_in : go.

(** ** Time

    A [time.Time] is a number of nanoseconds since Go's zero time (so [0] is the
    value for which [IsZero] holds); a [time.Duration] is a signed 64-bit number
    of nanoseconds. [Sub] saturates, as the Go method does. *)

Module Time.

Local Open Scope Z_scope.
Definition zero : Z := 0.
Definition second : Z := 1000000000.
Definition minute : Z := 60 * second.
Definition is_zero (t : Z) : bool := bool_decide (t = zero).
Definition add (t d : Z) : Z := t + d.
Definition sub (t u : Z) : Z := Z.max int64_min (Z.min int64_max (t - u)).
Definition seconds (n : Z) : Z := wrap64 (n * second).
Definition minutes (n : Z) : Z := wrap64 (n * minute).

Lemma sub_small t u : in_int64 (t - u) -> sub t u = t - u.
Proof. unfold sub, in_int64. lia. Qed.

Lemma sub_lt t u d : int64_min < d <= int64_max -> (sub t u < d <-> t - u < d).
Proof. unfold sub. lia. Qed.
End Time.

(** ** Operations on a state

    [op S A]: a method of an object with state [S] that returns an [A] and an
    error; the state it leaves is kept in both cases, as a Go method's is. *)

Definition op (S A : Type) : Type := S -> result A string * S.

Module Op.

Definition ret {S A} (a : A) : op S A := fun s => (Ok a, s).
Definition fail {S A} (msg : string) : op S A := fun s => (Err msg, s).
Definition get {S} : op S S := fun s => (Ok s, s).
Definition modify {S} (f : S -> S) : op S unit := fun s => (Ok tt, f s).
Definition bind {S A B} (m : op S A) (k : A -> op S B) : op S B :=
  fun s => match m s with
           | (Ok a, s') => k a s'
           | (Err e, s') => (Err e, s')
           end.

(** [wrap msg m]: [fmt.Errorf("msg: %w", err)]. *)
Definition wrap {S A} (msg : string) (m : op S A) : op S A :=
  fun s => match m s with
           | (Ok a, s') => (Ok a, s')
           | (Err e, s') => (Err (msg +:+ ": " +:+ e), s')
           end.
End Op.

Declare Scope op_scope.
Delimit Scope op_scope with op.
Notation "x <- m ;; k" := (Op.bind m (fun x => k))
  (at level 100, m at next level, k at level 200, right associativity) : op_scope.
Notation "m ;; k" := (Op.bind m (fun _ => k))
  (at level 100, k at level 200, right associativity) : op_scope.

(** [triple P m Q E]: from a state in [P] the operation ends in [Q] with its
    value, or in [E] with an error. *)
Definition triple {S A} (P : S -> Prop) (m : op S A) (Q : A -> S -> Prop) (E : S -> Prop) : Prop :=
  forall s, P s -> match m s with (Ok a, s') => Q a s' | (Err _, s') => E s' end.

Section triples.
Context {S : Type}.
Implicit Types (P E : S -> Prop).

Lemma triple_ret {A} (a : A) P Q E : (forall s, P s -> Q a s) -> triple P (Op.ret a) Q E.
Proof. intros H s Hs. by apply H. Qed.

Lemma triple_fail {A} msg P (Q : A -> S -> Prop) E : (forall s, P s -> E s) -> triple P (Op.fail msg) Q E.
Proof. intros H s Hs. by apply H. Qed.

Lemma triple_bind {A B} (m : op S A) (k : A -> op S B) P R Q E :
  triple P m R E -> (forall a, triple (R a) (k a) Q E) -> triple P (Op.bind m k) Q E.
Proof.
  intros Hm Hk s Hs. specialize (Hm s Hs). unfold Op.bind. destruct (m s) as [[a|e] s']; [|done].
  by apply Hk.
Qed.

Lemma triple_modify (f : S -> S) P (Q : unit -> S -> Prop) E :
  (forall s, P s -> Q tt (f s)) -> triple P (Op.modify f) Q E.
Proof. intros H s Hs. by apply H. Qed.

Lemma triple_wrap {A} msg (m : op S A) P Q E : triple P m Q E -> triple P (Op.wrap msg m) Q E.
Proof. intros Hm s Hs. specialize (Hm s Hs). unfold Op.wrap. by destruct (m s) as [[a|e] s']. Qed.

Lemma triple_conseq {A} (m : op S A) (P P' : S -> Prop) (Q Q' : A -> S -> Prop) (E E' : S -> Prop) :
  triple P' m Q' E' -> (forall s, P s -> P' s) -> (forall a s, Q' a s -> Q a s) -> (forall s, E' s -> E s) ->
  triple P m Q E.
Proof.
  intros Hm HP HQ HE s Hs. specialize (Hm s (HP s Hs)). destruct (m s) as [[a|e] s']; auto.
Qed.

(** Reading the state: the rest may be proved for the state that was read. *)
Lemma triple_get {B} (k : S -> op S B) P Q E :
  (forall s0, P s0 -> triple (fun s => s = s0) (k s0) Q E) -> triple P (Op.bind Op.get k) Q E.
Proof. intros H s Hs. by apply (H s Hs). Qed.
End triples.
