(* ===== verification/GoStrings.v ===== *)
(** * Go strings and hexadecimal

    The functions of the packages [strings], [strconv] and [encoding/hex] that
    the modelled code calls, on byte strings: a Go string is a [string], each
    [ascii] one byte. *)

From stdpp Require Import pretty.
From S2P Require Import Prelude.

(** ** [encoding/hex] *)
Module Hex.
  Local Open Scope N_scope.
  Local Open Scope char_scope.

Definition digit (n : N) : ascii :=
  if decide (n < 10)%N then ascii_of_N (48 + n) else ascii_of_N (87 + n).

Definition value (c : ascii) : option N :=
  let n := N_of_ascii c in
  if decide (48 <= n <= 57) then Some (n - 48)
  else if decide (97 <= n <= 102) then Some (n - 87)
  else if decide (65 <= n <= 70) then Some (n - 55)
  else None.

(** [hex.EncodeToString]. *)
Fixpoint EncodeToString (s : string) : string :=
  match s with
  | EmptyString => EmptyString
  | String c s' =>
      String (digit (N_of_ascii c / 16)) (String (digit (N_of_ascii c mod 16)) (EncodeToString s'))
  end.

(** [hex.DecodeString]: an odd length or a byte that is no hex digit is an error. *)
Fixpoint DecodeString (s : string) : option string :=
  match s with
  | EmptyString => Some EmptyString
  | String a (String b s') =>
      match value a, value b, DecodeString s' with
      | Some x, Some y, Some t => Some (String (ascii_of_N (16 * x + y)) t)
      | _, _, _ => None
      end
  | String _ EmptyString => None
  end.

Lemma N_of_ascii_lt c : (N_of_ascii c < 256)%N.
Proof. apply N_ascii_bounded. Qed.

Lemma value_digit_nat n : (n < 16)%nat -> value (digit (N.of_nat n)) = Some (N.of_nat n).
Proof. intros Hn. do 16 (destruct n as [|n]; [reflexivity|]). lia. Qed.

Lemma value_digit n : n < 16 -> value (digit n) = Some n.
Proof.
  intros Hn. rewrite <- (N2Nat.id n). apply value_digit_nat. lia.
Qed.

Lemma split_byte c : 16 * (N_of_ascii c / 16) + N_of_ascii c mod 16 = N_of_ascii c.
Proof. symmetry. apply N.div_mod. lia. Qed.

(** Decoding what was encoded gives the bytes back. *)
Lemma Decode_Encode s : DecodeString (EncodeToString s) = Some s.
Proof.
  induction s as [|c s IH]; [done|]. simpl.
  pose proof (N_of_ascii_lt c).
  rewrite !value_digit, IH, split_byte, ascii_N_embedding; [done|..].
  - apply N.mod_lt; lia.
  - apply N.Div0.div_lt_upper_bound; lia.
Qed.

Lemma EncodeToString_inj s t : EncodeToString s = EncodeToString t -> s = t.
Proof. intros H. apply (f_equal DecodeString) in H. rewrite !Decode_Encode in H. congruence. Qed.

(** A byte that can occur in an encoding: [0-9a-f]. *)
Definition is_digit (c : ascii) : bool :=
  let n := N_of_ascii c in bool_decide (48 <= n <= 57 \/ 97 <= n <= 102).

Lemma is_digit_digit n : n < 16 -> is_digit (digit n) = true.
Proof.
  intros Hn. rewrite <- (N2Nat.id n).
  assert (Hm : (N.to_nat n < 16)%nat) by lia. revert Hm. generalize (N.to_nat n). clear.
  intros n Hn. do 16 (destruct n as [|n]; [reflexivity|]). lia.
Qed.

(** The first byte of an encoding is a hexadecimal digit. *)
Lemma EncodeToString_head s c t : EncodeToString s = String c t -> is_digit c = true.
Proof.
  destruct s as [|a s]; [done|]. simpl. intros [= <- _].
  apply is_digit_digit. pose proof (N_of_ascii_lt a).
  apply N.Div0.div_lt_upper_bound; lia.
Qed.
End Hex.

(** ** [strings] *)
Module Strings.

Lemma app_assoc (x y z : string) : (x +:+ y) +:+ z = x +:+ (y +:+ z).
Proof.
  induction x as [|a x IH]; [done|].
  change (String a ((x +:+ y) +:+ z) = String a (x +:+ (y +:+ z))). by rewrite IH.
Qed.

Lemma app_empty (x : string) : x +:+ "" = x.
Proof. induction x as [|a x IH]; [done|]. change (String a (x +:+ "") = String a x). by rewrite IH. Qed.

Lemma app_empty_l (x : string) : "" +:+ x = x.
Proof. done. Qed.

(** [strings.HasPrefix]. *)
Fixpoint HasPrefix (s p : string) : bool :=
  match p, s with
  | EmptyString, _ => true
  | String a p', String b s' => if decide (a = b) then HasPrefix s' p' else false
  | String _ _, EmptyString => false
  end.

(** [strings.CutPrefix]: what follows the prefix, when there is one. *)
Fixpoint CutPrefix (s p : string) : option string :=
  match p, s with
  | EmptyString, _ => Some s
  | String a p', String b s' => if decide (a = b) then CutPrefix s' p' else None
  | String _ _, EmptyString => None
  end.

Lemma HasPrefix_CutPrefix s p : HasPrefix s p = true <-> is_Some (CutPrefix s p).
Proof.
  revert s. induction p as [|a p IH]; intros s; simpl.
  - destruct s; (split; [eauto|done]).
  - destruct s as [|b s]; [by split; [|intros []]|].
    simpl. case_decide; [apply IH|]. by split; [|intros []].
Qed.

Lemma HasPrefix_app p s : HasPrefix (p +:+ s) p = true.
Proof. induction p as [|a p IH]; simpl; [by destruct s|]. by rewrite decide_True. Qed.

(** [strings.TrimSpace]: the white space of Unicode, in UTF-8. The encodings
    other than the six ASCII bytes are listed whole, so a byte of them standing
    alone is kept. *)
Definition ascii_space (c : ascii) : bool :=
  let n := N_of_ascii c in bool_decide (9 <= n <= 13 \/ n = 32)%N.

Definition multibyte_spaces : list (list N) :=
  [[194; 133]; [194; 160]; [225; 154; 128]; [226; 128; 128]; [226; 128; 129];
   [226; 128; 130]; [226; 128; 131]; [226; 128; 132]; [226; 128; 133]; [226; 128; 134];
   [226; 128; 135]; [226; 128; 136]; [226; 128; 137]; [226; 128; 138]; [226; 128; 168];
   [226; 128; 169]; [226; 128; 175]; [226; 129; 159]; [227; 128; 128]]%N.

Definition strip (w : list N) (l : list ascii) : option (list ascii) :=
  if decide (N_of_ascii <$> take (length w) l = w) then Some (drop (length w) l) else None.

Definition strip_one (ws : list (list N)) (l : list ascii) : option (list ascii) :=
  match l with
  | [] => None
  | c :: l' => if ascii_space c then Some l' else head (omap (fun w => strip w l) ws)
  end.

Fixpoint trim_left (fuel : nat) (ws : list (list N)) (l : list ascii) : list ascii :=
  match fuel with
  | O => l
  | S fuel => match strip_one ws l with
              | Some l' => trim_left fuel ws l'
              | None => l
              end
  end.

Definition TrimSpace (s : string) : string :=
  let l := list_ascii_of_string s in
  let l1 := trim_left (length l) multibyte_spaces l in
  let l2 := trim_left (length l1) (reverse <$> multibyte_spaces) (reverse l1) in
  string_of_list_ascii (reverse l2).

(** [strings.Trim(s, cut)] for a one-byte cut set. *)
Fixpoint drop_byte (c : ascii) (l : list ascii) : list ascii :=
  match l with
  | [] => []
  | a :: l' => if decide (a = c) then drop_byte c l' else l
  end.

Definition Trim (s : string) (c : ascii) : string :=
  string_of_list_ascii (reverse (drop_byte c (reverse (drop_byte c (list_ascii_of_string s))))).

(** [strings.Split(s, sep)] for a one-byte separator: the pieces between the
    separators, at least one. *)
Fixpoint Split (s : string) (c : ascii) : list string :=
  match s with
  | EmptyString => [EmptyString]
  | String a s' =>
      if decide (a = c) then EmptyString :: Split s' c
      else match Split s' c with
           | [] => [String a EmptyString]
           | x :: xs => String a x :: xs
           end
  end.

(** [strings.Contains(s, c)] and [strings.ContainsRune(s, c)] for an ASCII [c]. *)
Fixpoint ContainsByte (s : string) (c : ascii) : bool :=
  match s with
  | EmptyString => false
  | String a s' => if decide (a = c) then true else ContainsByte s' c
  end.

Lemma Split_nonempty s c : Split s c <> [].
Proof. destruct s as [|a s]; simpl; [done|]. case_decide; [done|]. by case_match. Qed.

(** The pieces put together again with the separator between them. *)
Fixpoint Join (l : list string) (c : ascii) : string :=
  match l with
  | [] => EmptyString
  | [x] => x
  | x :: xs => x +:+ String c (Join xs c)
  end.

Lemma Join_Split s c : Join (Split s c) c = s.
Proof.
  induction s as [|a s IH]; [done|]. simpl.
  pose proof (Split_nonempty s c). case_decide as Hc.
  - subst a. destruct (Split s c) as [|x xs]; [done|]. by rewrite <- IH.
  - destruct (Split s c) as [|x [|y xs]]; [done|..]; rewrite <- IH; done.
Qed.

(** No piece contains the separator. *)
Lemma Split_pieces s c x : x ∈ Split s c -> ContainsByte x c = false.
Proof.
  revert x. induction s as [|a s IH]; intros x; simpl; [set_solver|].
  case_decide as Hc; [set_solver|].
  destruct (Split s c) as [|y ys] eqn:E; [set_unfold; intros [-> |[]]; simpl; by case_decide|].
  set_unfold. intros [-> |Hx]; [|by apply IH; right].
  simpl. case_decide; [done|]. apply IH. by left.
Qed.

Lemma ContainsByte_app x y c : ContainsByte (x +:+ y) c = ContainsByte x c || ContainsByte y c.
Proof. induction x as [|a x IH]; simpl; [done|]. by case_decide. Qed.

Lemma Split_free x c : ContainsByte x c = false -> Split x c = [x].
Proof.
  induction x as [|a x IH]; simpl; [done|]. destruct (decide (a = c)); [done|]. intros Hx. by rewrite (IH Hx).
Qed.

Lemma Split_app x s c : ContainsByte x c = false -> Split (x +:+ String c s) c = x :: Split s c.
Proof.
  induction x as [|a x IH]; simpl; [by rewrite decide_True|]. destruct (decide (a = c)); [done|]. intros Hx. by rewrite (IH Hx).
Qed.

(** Splitting what was joined gives the pieces back, so joining is injective on
    pieces without the separator. *)
Lemma Split_Join l c : l <> [] -> Forall (fun x => ContainsByte x c = false) l -> Split (Join l c) c = l.
Proof.
  intros Hne Hl. induction Hl as [|x l Hx Hl IH]; [done|]. destruct l as [|y l]; [by apply Split_free|].
  change (Join (x :: y :: l) c) with (x +:+ String c (Join (y :: l) c)). by rewrite Split_app, IH by done.
Qed.

(** [strings.ToLower]: the ASCII letters when the string is ASCII (the
    function's fast path); what Unicode says of other strings is the argument. *)
Definition ascii_lower (c : ascii) : ascii :=
  let n := N_of_ascii c in
  if decide (65 <= n <= 90)%N then ascii_of_N (n + 32) else c.

Definition is_ascii (s : string) : bool :=
  forallb (fun c => bool_decide (N_of_ascii c < 128)%N) (list_ascii_of_string s).

Definition ToLower (unicode_lower : string -> string) (s : string) : string :=
  if is_ascii s then string_of_list_ascii (ascii_lower <$> list_ascii_of_string s)
  else unicode_lower s.

(** [strings.TrimSuffix(s, c)] for a one-byte suffix. *)
Fixpoint TrimSuffix (s : string) (c : ascii) : string :=
  match s with
  | EmptyString => EmptyString
  | String a EmptyString => if decide (a = c) then EmptyString else s
  | String a s' => String a (TrimSuffix s' c)
  end.

(** [strings.Contains(s, sub)]. *)
Fixpoint Contains (s sub : string) : bool :=
  HasPrefix s sub || match s with EmptyString => false | String _ s' => Contains s' sub end.

(** What stands before and after the first, or the last, occurrence of a byte:
    [strings.Cut] and the idiom of [strings.LastIndexByte]. *)
Fixpoint Cut (s : string) (c : ascii) : option (string * string) :=
  match s with
  | EmptyString => None
  | String a s =>
      if decide (a = c) then Some ("", s)
      else match Cut s c with Some (x, y) => Some (String a x, y) | None => None end
  end.

Fixpoint cutLast (s : string) (c : ascii) : option (string * string) :=
  match s with
  | EmptyString => None
  | String a s =>
      match cutLast s c with
      | Some (x, y) => Some (String a x, y)
      | None => if decide (a = c) then Some ("", s) else None
      end
  end.

(** [strings.HasSuffix]. *)
Definition HasSuffix (s suffix : string) : bool :=
  bool_decide (String.length suffix <= String.length s)%nat &&
  bool_decide (String.substring (String.length s - String.length suffix) (String.length suffix) s = suffix).

(** [strings.ReplaceAll(s, cc, c)]: each pair of the byte becomes one. *)
Fixpoint ReplacePairs (s : string) (c : ascii) : string :=
  match s with
  | String a ((String b s'') as s') =>
      if decide (a = c /\ b = c) then String c (ReplacePairs s'' c) else String a (ReplacePairs s' c)
  | _ => s
  end.

(** [strings.FieldsFunc(s, f)] for a test of single ASCII bytes: the nonempty
    pieces between the bytes that pass it. *)
Fixpoint fields_aux (f : ascii -> bool) (s : string) : string * list string :=
  match s with
  | EmptyString => (EmptyString, [])
  | String a s' =>
      let '(piece, rest) := fields_aux f s' in
      if f a then (EmptyString, if decide (piece = EmptyString) then rest else piece :: rest)
      else (String a piece, rest)
  end.

Definition FieldsFunc (s : string) (f : ascii -> bool) : list string :=
  let '(piece, rest) := fields_aux f s in
  if decide (piece = EmptyString) then rest else piece :: rest.

(** ** Bytes of strings *)

Notation bytes_of := list_ascii_of_string.

Section bytes.
Local Open Scope N_scope.

Lemma bytes_app x y : bytes_of (x +:+ y) = bytes_of x ++ bytes_of y.
Proof. induction x as [|a x IH]; [done|]. change (a :: bytes_of (x +:+ y) = a :: bytes_of x ++ bytes_of y). by rewrite IH. Qed.

Lemma ContainsByte_false s c : ContainsByte s c = false <-> Forall (fun a => a <> c) (bytes_of s).
Proof.
  induction s as [|a s IH]; [by split|]. cbn [ContainsByte list_ascii_of_string]. rewrite Forall_cons, <- IH.
  destruct (decide (a = c)); naive_solver.
Qed.

Lemma Join_bytes (P : ascii -> Prop) l c :
  P c -> Forall (fun x => Forall P (bytes_of x)) l -> Forall P (bytes_of (Join l c)).
Proof.
  intros Hc H. induction H as [|x l Hx H IH]; [done|]. destruct l as [|y l]; [done|].
  change (Join (x :: y :: l) c) with (x +:+ String c (Join (y :: l) c)). rewrite bytes_app. apply Forall_app. split; [done|].
  by constructor.
Qed.

Lemma pretty_N_go_bytes (P : ascii -> Prop) x s :
  (forall n, P (pretty_N_char n)) -> Forall P (bytes_of s) -> Forall P (bytes_of (pretty_N_go x s)).
Proof.
  intros HP. revert s. induction (N.lt_wf_0 x) as [x _ IH]; intros s Hs.
  destruct (decide (0 < x)) as [Hx|Hx]; [|assert (x = 0) as -> by lia; by rewrite pretty_N_go_0].
  rewrite pretty_N_go_step by done. apply IH; [by apply N.div_lt|by constructor].
Qed.

Lemma pretty_N_bytes (P : ascii -> Prop) (n : N) : (forall n, P (pretty_N_char n)) -> Forall P (bytes_of (pretty n)).
Proof.
  intros HP. unfold pretty, pretty_N. case_decide as Hn; [|by apply pretty_N_go_bytes]. constructor; [apply (HP 0)|done].
Qed.

Lemma pretty_Z_bytes (P : ascii -> Prop) (z : Z) :
  (forall n, P (pretty_N_char n)) -> (z < 0 -> P "-"%char)%Z -> Forall P (bytes_of (pretty z)).
Proof.
  intros HP Hm. destruct z as [|p|p]; [constructor; [apply (HP 0)|done]|apply (pretty_N_bytes P (N.pos p) HP)|].
  change (Forall P ("-"%char :: bytes_of (pretty (N.pos p)))). constructor; [by apply Hm|by apply pretty_N_bytes].
Qed.

(** White space is what [TrimSpace] trims: printable bytes stay. *)
Definition printable (c : ascii) : Prop := 32 < N_of_ascii c < 127.

Lemma strip_one_printable ws l :
  Forall (fun w => match w with n :: _ => 127 <= n | [] => False end) ws -> Forall printable l -> strip_one ws l = None.
Proof.
  intros Hws Hl. destruct Hl as [|c l Hc Hl]; [done|]. cbn [strip_one]. unfold ascii_space, printable in *. rewrite bool_decide_eq_false_2 by lia.
  induction Hws as [|w ws Hw Hws IH]; [done|]. destruct w as [|n w]; [done|]. cbn [omap list_omap]. unfold strip at 1.
  rewrite decide_False; [done|]. cbn. intros [= E _]. lia.
Qed.

Lemma trim_left_printable fuel ws l :
  Forall (fun w => match w with n :: _ => 127 <= n | [] => False end) ws -> Forall printable l -> trim_left fuel ws l = l.
Proof. intros Hws Hl. destruct fuel; [done|]. cbn. by rewrite strip_one_printable. Qed.

Lemma multibyte_spaces_high : Forall (fun w : list N => match w with n :: _ => 127 <= n | [] => False end) multibyte_spaces.
Proof. repeat constructor; vm_compute; done. Qed.

Lemma TrimSpace_printable s : Forall printable (bytes_of s) -> TrimSpace s = s.
Proof.
  intros H. assert (Forall (fun w : list N => match w with n :: _ => 127 <= n | [] => False end) (reverse <$> multibyte_spaces)) as H2
    by (repeat constructor; vm_compute; done).
  pose proof multibyte_spaces_high as H1.
  unfold TrimSpace. rewrite (trim_left_printable _ _ (bytes_of s)) by done.
  rewrite trim_left_printable by (done || by apply Forall_reverse). by rewrite reverse_involutive, string_of_list_ascii_of_string.
Qed.

Lemma TrimSuffix_app x y c : y <> "" -> TrimSuffix (x +:+ y) c = x +:+ TrimSuffix y c.
Proof.
  intros Hy. induction x as [|a x IH]; [done|]. change (String a x +:+ y) with (String a (x +:+ y)).
  change (String a x +:+ TrimSuffix y c) with (String a (x +:+ TrimSuffix y c)). rewrite <- IH.
  destruct (x +:+ y) as [|b z] eqn:E; [|done]. destruct x; [by destruct y|done].
Qed.

Lemma TrimSuffix_free s c : ContainsByte s c = false -> TrimSuffix s c = s.
Proof.
  induction s as [|a s IH]; [done|]. cbn [ContainsByte TrimSuffix]. destruct (decide (a = c)); [done|]. intros H.
  rewrite IH by done. by destruct s.
Qed.

Lemma ToLower_id f s : Forall (fun c => N_of_ascii c < 128 /\ ~ (65 <= N_of_ascii c <= 90)) (bytes_of s) -> ToLower f s = s.
Proof.
  intros H. unfold ToLower. assert (is_ascii s = true) as ->.
  { unfold is_ascii. apply forallb_forall. intros c Hc. rewrite Forall_forall in H. apply list_elem_of_In in Hc.
    apply bool_decide_eq_true_2. by apply H. }
  transitivity (string_of_list_ascii (bytes_of s)); [|apply string_of_list_ascii_of_string]. f_equal.
  induction H as [|c l [_ Hc] H IH]; [done|]. rewrite fmap_cons, IH. f_equal. unfold ascii_lower. by rewrite decide_False.
Qed.

End bytes.

Example trim_space_1 : TrimSpace "	 ab c " = "ab c".
Proof. vm_compute. reflexivity. Qed.
Example trim_1 : Trim "/api/v1/" "/" = "api/v1".
Proof. vm_compute. reflexivity. Qed.
Example split_1 : Split "a//b" "/" = ["a"; ""; "b"].
Proof. vm_compute. reflexivity. Qed.
Example fields_1 : FieldsFunc (ReplacePairs "mcp__fs_read.file-" "_") (fun c => ContainsByte "_-." c) = ["mcp"; "fs"; "read"; "file"].
Proof. vm_compute. reflexivity. Qed.
End Strings.
