(* ===== verification/GoNet.v ===== *)
(** * Go's IP addresses: parsing, printing, classes

    What the modelled code uses of the packages [net] and [net/netip]:
    [net.ParseIP], [IP.String], [IP.To4] and the class tests. An [IP] is its
    bytes, four or sixteen of them, as the Go slice is; a nil [IP] is [None]. *)

From stdpp Require Import pretty.
From S2P Require Import Prelude GoStrings.
Local Open Scope Z_scope.

Module Net.

Definition IP : Type := list Z.

Definition byte (b : Z) : Prop := 0 <= b < 256.

Definition zeros (n : nat) : list Z := replicate n 0.
Definition v4InV6Prefix : list Z := zeros 10 ++ [255; 255].

Definition IPv4 (a b c d : Z) : IP := v4InV6Prefix ++ [a; b; c; d].

Definition To4 (ip : IP) : option IP :=
  if decide (length ip = 4%nat) then Some ip
  else if decide (length ip = 16%nat /\ take 12 ip = v4InV6Prefix) then Some (drop 12 ip)
  else None.

(** [ip.Equal]: the same address in either form. *)
Definition canonical (ip : IP) : IP := default ip (To4 ip).
Definition Equal (x y : IP) : bool := bool_decide (canonical x = canonical y).

(** ** Classes *)

Definition IsUnspecified (ip : IP) : bool := Equal ip (IPv4 0 0 0 0) || Equal ip (zeros 16).

Definition at_ (ip : IP) (i : nat) : Z := default 0 (ip !! i).

Definition IsMulticast (ip : IP) : bool :=
  match To4 ip with
  | Some ip4 => bool_decide (Z.land (at_ ip4 0) 240 = 224)
  | None => bool_decide (length ip = 16%nat /\ at_ ip 0 = 255)
  end.

Definition IsInterfaceLocalMulticast (ip : IP) : bool :=
  bool_decide (length ip = 16%nat /\ at_ ip 0 = 255 /\ Z.land (at_ ip 1) 15 = 1).

Definition IsLinkLocalMulticast (ip : IP) : bool :=
  match To4 ip with
  | Some ip4 => bool_decide (at_ ip4 0 = 224 /\ at_ ip4 1 = 0 /\ at_ ip4 2 = 0)
  | None => bool_decide (length ip = 16%nat /\ at_ ip 0 = 255 /\ Z.land (at_ ip 1) 15 = 2)
  end.

Definition IsLinkLocalUnicast (ip : IP) : bool :=
  match To4 ip with
  | Some ip4 => bool_decide (at_ ip4 0 = 169 /\ at_ ip4 1 = 254)
  | None => bool_decide (length ip = 16%nat /\ at_ ip 0 = 254 /\ Z.land (at_ ip 1) 192 = 128)
  end.

Definition IsLoopback (ip : IP) : bool :=
  match To4 ip with
  | Some ip4 => bool_decide (at_ ip4 0 = 127)
  | None => Equal ip (zeros 15 ++ [1])
  end.

(** ** Numbers *)

Definition digit_value (c : ascii) : option Z :=
  let n := Z.of_N (N_of_ascii c) in
  if decide (48 <= n <= 57) then Some (n - 48)
  else if decide (97 <= n <= 102) then Some (n - 87)
  else if decide (65 <= n <= 70) then Some (n - 55)
  else None.

(** The number that digits of a base spell. *)
Fixpoint digits (base : Z) (s : string) (acc : Z) : option Z :=
  match s with
  | EmptyString => Some acc
  | String c s =>
      match digit_value c with
      | Some d => if decide (d < base) then digits base s (acc * base + d) else None
      | None => None
      end
  end.

(** [strconv.ParseUint(s, base, bits)] for an explicit base. *)
Definition ParseUint (s : string) (base bits : Z) : option Z :=
  if decide (s = "") then None
  else match digits base s 0 with
       | Some n => if decide (n < 2 ^ bits) then Some n else None
       | None => None
       end.

(** ** Parsing *)

(** One field of a dotted address: digits without a leading zero, at most 255. *)
Definition parseOctet (field : string) : option Z :=
  match field with
  | String "0" (String _ _) => None
  | _ => match ParseUint field 10 64 with
         | Some n => if decide (n <= 255) then Some n else None
         | None => None
         end
  end.

Definition parseIPv4Fields (s : string) : option (list Z) :=
  match Strings.Split s "." with
  | [_; _; _; _] as fields => mapM parseOctet fields
  | _ => None
  end.

(** The hexadecimal digits at the head of the string: their value, how many they
    are, and the rest; [None] when there are more than four. *)
Fixpoint hexPrefix (s : string) (acc : Z) (off : nat) : option (Z * nat * string) :=
  match s with
  | EmptyString => Some (acc, off, s)
  | String c s' =>
      match digit_value c with
      | Some d => if decide (3 < off)%nat then None else hexPrefix s' (acc * 16 + d) (S off)
      | None => Some (acc, off, s)
      end
  end.

Definition group (g : Z) : list Z := [g / 256; g mod 256].

(** The loop of [parseIPv6]; [fuel] is the number of groups that still fit. *)
Fixpoint parseGroups (fuel : nat) (bs : list Z) (ellipsis : option nat) (s : string) : option (list Z * option nat * string) :=
  match fuel with
  | O => Some (bs, ellipsis, s)
  | S fuel =>
      '(acc, off, rest) ← hexPrefix s 0 0;
      if decide (off = 0%nat) then None
      else
        match rest with
        | EmptyString => Some (bs ++ group acc, ellipsis, "")
        | String "." _ =>
            if decide (ellipsis = None /\ length bs <> 12%nat) then None
            else if decide (16 < length bs + 4)%nat then None
            else ip4 ← parseIPv4Fields s; Some (bs ++ ip4, ellipsis, "")
        | String ":" EmptyString => None
        | String ":" (String ":" s') =>
            match ellipsis with
            | Some _ => None
            | None =>
                let bs := bs ++ group acc in
                if decide (s' = "") then Some (bs, Some (length bs), "")
                else parseGroups fuel bs (Some (length bs)) s'
            end
        | String ":" s' => parseGroups fuel (bs ++ group acc) ellipsis s'
        | _ => None
        end
  end.

(** The end of [parseIPv6]: the ellipsis stands for the missing zeros. *)
Definition expand (r : list Z * option nat * string) : option (list Z) :=
  match r with
  | (bs, ellipsis, s) =>
      if decide (s <> "") then None
      else if decide (length bs < 16)%nat then
        match ellipsis with
        | None => None
        | Some e => Some (take e bs ++ zeros (16 - length bs) ++ drop e bs)
        end
      else match ellipsis with Some _ => None | None => Some bs end
  end.

Definition parseIPv6 (s : string) : option (list Z) :=
  match s with
  | String ":" (String ":" EmptyString) => Some (zeros 16)
  | String ":" (String ":" s') => r ← parseGroups 8 [] (Some 0%nat) s'; expand r
  | _ => r ← parseGroups 8 [] None s; expand r
  end.

(** The first of the bytes that tell the families apart. *)
Fixpoint family (s : string) : option ascii :=
  match s with
  | EmptyString => None
  | String c s => if decide (c = "." \/ c = ":" \/ c = "%")%char then Some c else family s
  end.

(** [net.ParseIP]: sixteen bytes; an address with a zone is not one. *)
Definition ParseIP (s : string) : option IP :=
  match family s with
  | Some "."%char => ip4 ← parseIPv4Fields s; Some (v4InV6Prefix ++ ip4)
  | Some ":"%char => if Strings.ContainsByte s "%" then None else parseIPv6 s
  | _ => None
  end.

(** ** Printing *)

Definition hex_digit (d : Z) : ascii := ascii_of_N (Z.to_N (if decide (d < 10) then d + 48 else d + 87)).

(** A group without leading zeros. *)
Definition hexGroup (g : Z) : string :=
  let d i := String (hex_digit (g / 16 ^ i mod 16)) in
  if decide (4096 <= g) then d 3 (d 2 (d 1 (d 0 "")))
  else if decide (256 <= g) then d 2 (d 1 (d 0 ""))
  else if decide (16 <= g) then d 1 (d 0 "")
  else d 0 "".

Fixpoint groups (bs : list Z) : list Z :=
  match bs with
  | a :: b :: bs => a * 256 + b :: groups bs
  | _ => []
  end.

(** How many zeros the list starts with. *)
Fixpoint zeroRun (gs : list Z) : nat :=
  match gs with
  | g :: gs => if decide (g = 0) then S (zeroRun gs) else O
  | [] => O
  end.

(** The first of the longest runs of at least two zeros: where it starts and
    ends. *)
Fixpoint longestRun (i : nat) (gs : list Z) (best : nat * nat) : nat * nat :=
  match gs with
  | [] => best
  | g :: gs' =>
      let l := zeroRun gs in
      longestRun (S i) gs' (if decide (2 <= l /\ best.2 - best.1 < l)%nat then (i, (i + l)%nat) else best)
  end.

Definition string6 (gs : list Z) : string :=
  let '(st, en) := longestRun 0 gs (0, 0)%nat in
  if decide (en <= st)%nat then Strings.Join (hexGroup <$> gs) ":"
  else Strings.Join (hexGroup <$> take st gs) ":" +:+ "::" +:+ Strings.Join (hexGroup <$> drop en gs) ":".

Definition string4 (bs : list Z) : string := Strings.Join ((pretty : Z -> string) <$> bs) ".".

(** [IP.String], for the lengths that an address has. *)
Definition IP_String (ip : IP) : string :=
  match To4 ip with
  | Some ip4 => string4 ip4
  | None => string6 (groups ip)
  end.

Example parse_print :
  IP_String <$> ParseIP "fd00:0EC2:0:0:0::254" = Some "fd00:ec2::254" /\
  IP_String <$> ParseIP "::ffff:169.254.169.254" = Some "169.254.169.254" /\
  IP_String <$> ParseIP "1:0:0:2:0:0:0:3" = Some "1:0:0:2::3" /\
  IP_String <$> ParseIP "::" = Some "::" /\
  IP_String <$> ParseIP "1::" = Some "1::" /\
  ParseIP "1:2:3:4:5:6:7::8" = None /\ ParseIP "01.2.3.4" = None /\ ParseIP "fe80::1%eth0" = None /\
  IP_String <$> ParseIP "1:2:3:4:5:6:7::" = Some "1:2:3:4:5:6:7:0".
Proof. by vm_compute. Qed.

(** ** Printed addresses parse *)

(** A test of all numbers of [n] bits. *)
Fixpoint all_bits (n : nat) (acc : Z) (f : Z -> bool) : bool :=
  match n with
  | O => f acc
  | S n => all_bits n (2 * acc) f && all_bits n (2 * acc + 1) f
  end.

Lemma all_bits_spec n acc f :
  all_bits n acc f = true -> forall z, acc * 2 ^ Z.of_nat n <= z < (acc + 1) * 2 ^ Z.of_nat n -> f z = true.
Proof.
  revert acc. induction n as [|n IH]; intros acc H z Hz.
  - replace z with acc by lia. done.
  - cbn [all_bits] in H. apply andb_true_iff in H as [H1 H2]. rewrite Nat2Z.inj_succ, Z.pow_succ_r in Hz by lia.
    destruct (decide (z < (2 * acc + 1) * 2 ^ Z.of_nat n)); [apply (IH _ H1)|apply (IH _ H2)]; lia.
Qed.

(** A digit of a group. *)
Definition hex (c : ascii) : Prop := is_Some (digit_value c).

Definition all_hex (s : string) : Prop := Forall hex (list_ascii_of_string s).

Definition starts_hex (s : string) : Prop := match s with String c _ => hex c | EmptyString => False end.

Definition group_ok (g : Z) : Prop := 0 <= g < 65536.

#[local] Instance hex_dec c : Decision (hex c).
Proof. unfold hex. apply _. Defined.

Definition octet_test (b : Z) : bool :=
  bool_decide (parseOctet (pretty b) = Some b /\ Strings.ContainsByte (pretty b) "." = false /\
               Forall hex (list_ascii_of_string (pretty b))).

Lemma octets_pass : all_bits 8 0 octet_test = true.
Proof. by vm_compute. Qed.

Lemma parseOctet_pretty b :
  byte b -> parseOctet (pretty b) = Some b /\ Strings.ContainsByte (pretty b) "." = false /\ all_hex (pretty b).
Proof. intros Hb. by apply (all_bits_spec _ _ _ octets_pass), bool_decide_eq_true in Hb. Qed.

Lemma parse_string4 bs : length bs = 4%nat -> Forall byte bs -> parseIPv4Fields (string4 bs) = Some bs.
Proof.
  intros Hlen Hbs. destruct bs as [|a [|b [|c [|d [|]]]]]; try done. decompose_Forall_hyps.
  unfold parseIPv4Fields, string4. rewrite Strings.Split_Join.
  - cbn [fmap list_fmap mapM]. by rewrite !(fun x H => proj1 (parseOctet_pretty x H)).
  - done.
  - repeat constructor; by apply parseOctet_pretty.
Qed.

Lemma hex_digits_pass : all_bits 4 0 (fun d => bool_decide (digit_value (hex_digit d) = Some d)) = true.
Proof. by vm_compute. Qed.

Lemma hex_digit_value n : digit_value (hex_digit (n mod 16)) = Some (n mod 16).
Proof.
  apply (bool_decide_eq_true_1 (digit_value (hex_digit (n mod 16)) = Some (n mod 16))).
  apply (all_bits_spec _ _ _ hex_digits_pass). pose proof (Z.mod_pos_bound n 16 ltac:(lia)). lia.
Qed.

(** The digits of a group, without their leading zeros. *)
Lemma group_digits g :
  group_ok g -> let d i := g / 16 ^ i mod 16 in
  g = ((d 3 * 16 + d 2) * 16 + d 1) * 16 + d 0 /\ (g < 4096 -> d 3 = 0) /\ (g < 256 -> d 2 = 0) /\ (g < 16 -> d 1 = 0).
Proof.
  unfold group_ok. intros Hg. cbv beta zeta.
  replace (16 ^ 3) with 4096 by done. replace (16 ^ 2) with 256 by done. replace (16 ^ 1) with 16 by done. replace (16 ^ 0) with 1 by done.
  Z.to_euclidean_division_equations. lia.
Qed.

Lemma hexGroup_spec g :
  group_ok g -> (exists n, hexPrefix (hexGroup g) 0 0 = Some (g, S n, "")) /\ hexGroup g <> "" /\ all_hex (hexGroup g).
Proof.
  intros Hg. pose proof (group_digits g Hg) as H. cbv beta zeta in H. destruct H as (Hd & H3 & H2 & H1). unfold hexGroup, all_hex.
  repeat (destruct (decide _); [|]); (split_and!; [eexists|done|repeat constructor; unfold hex; rewrite hex_digit_value; eauto]);
    cbn [hexPrefix]; rewrite !hex_digit_value; cbn; do 3 f_equal; lia.
Qed.

Lemma hexPrefix_app s acc off a o rest :
  hexPrefix s acc off = Some (a, o, "") -> ~ starts_hex rest -> hexPrefix (s +:+ rest) acc off = Some (a, o, rest).
Proof.
  revert acc off. induction s as [|c s IH]; intros acc off; cbn.
  - intros [= -> ->] Hr. destruct rest as [|c rest]; [done|]. unfold starts_hex, hex in Hr.
    change (EmptyString +:+ String c rest) with (String c rest). cbn [hexPrefix].
    destruct (digit_value c); [destruct Hr; eauto|done].
  - destruct (digit_value c) eqn:E; [|done]. destruct (decide (3 < off)%nat) eqn:E'; [done|]. intros H Hr.
    change (String c s +:+ rest) with (String c (s +:+ rest)). cbn [hexPrefix]. rewrite E, E'. by apply IH.
Qed.

Lemma family_hex s t : all_hex s -> family (s +:+ t) = family t.
Proof.
  unfold all_hex. induction s as [|c s IH]; [done|]. cbn [list_ascii_of_string]. intros H. apply Forall_cons in H as [[d Hc] H].
  change (String c s +:+ t) with (String c (s +:+ t)). cbn [family].
  destruct (decide _) as [[->|[->| ->]]|]; [done|done|done|auto].
Qed.

Lemma ContainsByte_hex s : all_hex s -> Strings.ContainsByte s "%" = false.
Proof.
  unfold all_hex. induction s as [|c s IH]; [done|]. cbn. intros H. apply Forall_cons in H as [[d Hc] H].
  destruct (decide _) as [->|]; [done|auto].
Qed.

Definition joined (gs : list Z) : string := Strings.Join (hexGroup <$> gs) ":".
Definition flat (gs : list Z) : list Z := gs ≫= group.

Lemma joined_cons g h gs : joined (g :: h :: gs) = hexGroup g +:+ String ":" (joined (h :: gs)).
Proof. done. Qed.

Lemma starts_hex_app s t : s <> "" -> all_hex s -> starts_hex (s +:+ t).
Proof. destruct s as [|c s]; [done|]. intros _ H. by apply Forall_cons in H as [H _]. Qed.

Lemma joined_starts gs t : gs <> [] -> Forall group_ok gs -> starts_hex (joined gs +:+ t).
Proof.
  intros Hne H. destruct H as [|g gs Hg H]; [done|]. destruct (hexGroup_spec g Hg) as (_ & H1 & H2).
  destruct gs as [|h gs]; [by apply starts_hex_app|]. rewrite joined_cons, Strings.app_assoc. by apply starts_hex_app.
Qed.

(** One group followed by a colon and more. *)
Lemma parse_group fuel bs ell g t :
  group_ok g -> starts_hex t ->
  parseGroups (S fuel) bs ell (hexGroup g +:+ String ":" t) = parseGroups fuel (bs ++ group g) ell t.
Proof.
  intros Hg Ht. destruct (hexGroup_spec g Hg) as ([n Hn] & _ & _). cbn [parseGroups].
  rewrite (hexPrefix_app _ _ _ _ _ (String ":" t) Hn) by (intros [d H]; done). cbn.
  destruct t as [|c t]; [done|]. destruct Ht as [d Hd]. by destruct c as [[] [] [] [] [] [] [] []].
Qed.

(** Groups up to the end of the string. *)
Lemma parse_joined gs fuel bs ell :
  gs <> [] -> Forall group_ok gs -> (length gs <= fuel)%nat ->
  parseGroups fuel bs ell (joined gs) = Some (bs ++ flat gs, ell, "").
Proof.
  intros Hne H. revert fuel bs. induction H as [|g gs Hg H IH]; intros fuel bs Hf; [done|]. destruct fuel as [|fuel]; [cbn in Hf; lia|].
  destruct gs as [|h gs].
  - destruct (hexGroup_spec g Hg) as ([n Hn] & _ & _). unfold joined, flat. cbn [fmap list_fmap Strings.Join parseGroups mbind list_bind].
    rewrite Hn. cbn. done.
  - rewrite joined_cons, parse_group by (done || (rewrite <- Strings.app_empty; by apply joined_starts)).
    rewrite IH by (done || (cbn in *; lia)). unfold flat. cbn. by rewrite <- List.app_assoc.
Qed.

(** Groups up to an ellipsis. *)
Lemma parse_joined_ellipsis gs fuel bs t :
  gs <> [] -> Forall group_ok gs -> (length gs <= fuel)%nat ->
  parseGroups fuel bs None (joined gs +:+ "::" +:+ t) =
  (let bs := bs ++ flat gs in
   if decide (t = "") then Some (bs, Some (length bs), "") else parseGroups (fuel - length gs) bs (Some (length bs)) t).
Proof.
  intros Hne H. revert fuel bs. induction H as [|g gs Hg H IH]; intros fuel bs Hf; [done|]. destruct fuel as [|fuel]; [cbn in Hf; lia|].
  destruct gs as [|h gs].
  - destruct (hexGroup_spec g Hg) as ([n Hn] & _ & _). unfold joined, flat. cbn [fmap list_fmap Strings.Join parseGroups].
    rewrite (hexPrefix_app _ _ _ _ _ ("::" +:+ t) Hn) by (intros [d Hd]; done). cbn. by rewrite Nat.sub_0_r.
  - rewrite joined_cons, Strings.app_assoc. change (String ":" (joined (h :: gs)) +:+ ("::" +:+ t)) with (String ":" (joined (h :: gs) +:+ ("::" +:+ t))).
    rewrite parse_group by (done || by apply joined_starts). rewrite IH by (done || (cbn in *; lia)).
    unfold flat. cbn. by rewrite <- !List.app_assoc.
Qed.

(** ** The longest run of zeros *)

(** No run, or a run of at least two zeros of the list. *)
Definition run_ok (full : list Z) (r : nat * nat) : Prop :=
  (r.2 <= r.1)%nat \/ ((r.1 + 2 <= r.2 <= length full)%nat /\ forall k, (r.1 <= k < r.2)%nat -> full !! k = Some 0).

Lemma zeroRun_spec gs : (zeroRun gs <= length gs)%nat /\ forall k, (k < zeroRun gs)%nat -> gs !! k = Some 0.
Proof.
  induction gs as [|g gs [IH1 IH2]]; cbn; [split; [done|lia]|]. destruct (decide (g = 0)) as [->|]; [|split; lia].
  split; [lia|]. intros [|k] Hk; [done|]. apply IH2. lia.
Qed.

Lemma longestRun_ok full i best :
  run_ok full best -> (i <= length full)%nat -> run_ok full (longestRun i (drop i full) best).
Proof.
  remember (length full - i)%nat as n eqn:Hn. revert i best Hn. induction n as [|n IH]; intros i best Hn Hb Hi.
  - rewrite drop_ge by lia. done.
  - destruct (drop i full) as [|g gs] eqn:E; [apply (f_equal length) in E; rewrite length_drop in E; cbn in E; lia|].
    assert (gs = drop (S i) full) as Hgs
      by (change gs with (drop 1 (g :: gs)); rewrite <- E, drop_drop; f_equal; lia).
    cbn [longestRun]. rewrite Hgs at 1. rewrite Hgs. apply IH; [lia| |lia].
    destruct (decide _) as [[H2 H3]|]; [|done]. right. cbn [fst snd]. pose proof (zeroRun_spec (g :: gs)) as [L Z].
    rewrite Hgs, <- E in *.
    assert (length (drop i full) = (length full - i)%nat) by apply length_drop. split; [lia|].
    intros k Hk. specialize (Z (k - i)%nat ltac:(lia)). rewrite lookup_drop in Z. by replace (i + (k - i))%nat with k in Z by lia.
Qed.

Lemma flat_app gs hs : flat (gs ++ hs) = flat gs ++ flat hs.
Proof. apply bind_app. Qed.

Lemma length_flat gs : length (flat gs) = (2 * length gs)%nat.
Proof. unfold flat. induction gs as [|g gs IH]; [done|]. cbn in *. lia. Qed.

Lemma flat_zeros gs : (forall k, (k < length gs)%nat -> gs !! k = Some 0) -> flat gs = zeros (2 * length gs).
Proof.
  induction gs as [|g gs IH]; [done|]. intros H. pose proof (H 0%nat ltac:(cbn; lia)) as [= ->].
  change (flat (0 :: gs)) with ([0; 0] ++ flat gs). rewrite IH by (intros k Hk; apply (H (S k)); cbn; lia).
  replace (2 * length (0%Z :: gs))%nat with (S (S (2 * length gs))) by (cbn; lia). done.
Qed.

(** The three parts of the groups around a run. *)
Lemma flat_run gs st en :
  length gs = 8%nat -> run_ok gs (st, en) -> (st < en)%nat ->
  (st + 2 <= en <= 8)%nat /\
  flat gs = flat (take st gs) ++ zeros (16 - (length (flat (take st gs)) + length (flat (drop en gs)))) ++ flat (drop en gs).
Proof.
  intros Hlen [H|[H Hz]] Hlt; cbn [fst snd] in *; [lia|]. split; [lia|].
  rewrite <- (take_drop st gs) at 1. rewrite <- (take_drop (en - st) (drop st gs)), drop_drop, !flat_app.
  replace (st + (en - st))%nat with en by lia. f_equal. f_equal.
  rewrite !length_flat, length_take, length_drop. rewrite flat_zeros; [|intros k Hk].
  - f_equal. rewrite length_take, length_drop. lia.
  - rewrite length_take, length_drop in Hk. rewrite lookup_take_lt, lookup_drop by lia. apply Hz. lia.
Qed.

(** Reading the groups after an ellipsis. *)
Lemma parse_tail gs fuel bs e :
  Forall group_ok gs -> (length gs <= fuel)%nat -> gs <> [] ->
  parseGroups fuel bs (Some e) (joined gs) = Some (bs ++ flat gs, Some e, "").
Proof. intros. by apply parse_joined. Qed.

Lemma joined_nonempty gs : gs <> [] -> Forall group_ok gs -> joined gs <> "".
Proof. intros H1 H2 E. pose proof (joined_starts gs "" H1 H2) as H. by rewrite E in H. Qed.

Lemma expand_run (a b : list Z) :
  (length a + length b < 16)%nat ->
  expand (a ++ b, Some (length a), "") = Some (a ++ zeros (16 - (length a + length b)) ++ b).
Proof.
  intros H. cbn [expand]. rewrite decide_False by (intros X; by apply X). rewrite decide_True by (rewrite length_app; lia).
  by rewrite take_app_length, drop_app_length, length_app.
Qed.

(** What [parseIPv6] does with a string that starts with a digit. *)
Lemma parseIPv6_hex s : starts_hex s -> parseIPv6 s = (r ← parseGroups 8 [] None s; expand r).
Proof. destruct s as [|c s]; [done|]. intros [d H]. by destruct c as [[] [] [] [] [] [] [] []]. Qed.

Lemma parse_string6 gs : length gs = 8%nat -> Forall group_ok gs -> parseIPv6 (string6 gs) = Some (flat gs).
Proof.
  intros Hlen Hgs. unfold string6. pose proof (longestRun_ok gs 0 (0, 0)%nat ltac:(left; cbn; lia) ltac:(lia)) as Hrun.
  rewrite drop_0 in Hrun. destruct (longestRun 0 gs (0, 0)%nat) as [st en]. destruct (decide (en <= st)%nat) as [Hle|Hlt].
  - fold (joined gs). assert (gs <> []) as Hne by (by intros ->). rewrite parseIPv6_hex by (rewrite <- Strings.app_empty; by apply joined_starts).
    rewrite parse_joined by (done || lia). cbn [mbind option_bind app]. cbn [expand].
    rewrite decide_False by (intros X; by apply X). rewrite decide_False; [done|]. rewrite length_flat. lia.
  - destruct (flat_run gs st en Hlen Hrun ltac:(lia)) as [Hb ->]. fold (joined (take st gs)) (joined (drop en gs)).
    assert (Forall group_ok (take st gs) /\ Forall group_ok (drop en gs)) as [G1 G2] by (split; [by apply Forall_take|by apply Forall_drop]).
    assert (length (take st gs) = st /\ length (drop en gs) = 8 - en)%nat as [L1 L2] by (rewrite length_take, length_drop; lia).
    revert G1 G2 L1 L2. generalize (take st gs) (drop en gs). intros a b G1 G2 L1 L2.
    assert (b = [] \/ (b <> [] /\ joined b <> "")) as Hb' by (destruct b; [by left|right; split; [done|by apply joined_nonempty]]).
    destruct a as [|x a].
    + change (joined [] +:+ ("::" +:+ joined b)) with (String ":" (String ":" (joined b))).
      destruct Hb' as [->|[Hbn Hj]]; [done|]. cbn [parseIPv6]. destruct (joined b) as [|c s] eqn:E; [done|]. rewrite <- E.
      rewrite parse_tail by (done || lia). cbn [mbind option_bind]. apply (expand_run [] (flat b)).
      rewrite length_flat. cbn. lia.
    + rewrite parseIPv6_hex by (by apply joined_starts). rewrite parse_joined_ellipsis by (done || lia). cbv zeta.
      destruct Hb' as [->|[Hbn Hj]].
      * cbn [joined fmap list_fmap Strings.Join]. rewrite decide_True by done. cbn [mbind option_bind].
        rewrite app_nil_l. pose proof (expand_run (flat (x :: a)) []) as He. rewrite app_nil_r in He. apply He.
        rewrite length_flat. cbn in *. lia.
      * rewrite decide_False by done. rewrite parse_tail by (done || lia). cbn [mbind option_bind].
        rewrite app_nil_l. rewrite expand_run; [done|]. rewrite !length_flat. lia.
Qed.

(** ** The round trip *)

Lemma groups_spec n bs :
  length bs = (2 * n)%nat -> Forall byte bs -> length (groups bs) = n /\ Forall group_ok (groups bs) /\ flat (groups bs) = bs.
Proof.
  revert bs. induction n as [|n IH]; intros bs Hlen Hbs.
  - destruct bs; [|done]. by split_and!; [|constructor|].
  - destruct bs as [|a [|b bs]]; [done|cbn in Hlen; lia|]. apply Forall_cons in Hbs as [Ha Hbs]. apply Forall_cons in Hbs as [Hb Hbs].
    destruct (IH bs ltac:(cbn in Hlen; lia) Hbs) as (H1 & H2 & H3). unfold byte, group_ok in *. cbn [groups]. split_and!.
    + cbn. by rewrite H1.
    + constructor; [lia|done].
    + unfold flat in *. cbn [mbind list_bind]. rewrite H3. unfold group. rewrite Z.div_add_l, Z.div_small, Z.add_0_r by lia.
      rewrite Z.add_comm, Z.mod_add, Z.mod_small by lia. done.
Qed.

Lemma ContainsByte_joined gs : Forall group_ok gs -> Strings.ContainsByte (joined gs) "%" = false.
Proof.
  induction 1 as [|g gs Hg H IH]; [done|]. destruct (hexGroup_spec g Hg) as (_ & _ & Hh). apply ContainsByte_hex in Hh.
  destruct gs as [|h gs]; [done|]. by rewrite joined_cons, Strings.ContainsByte_app, Hh.
Qed.

Lemma family_joined gs t : Forall group_ok gs -> family t = Some ":"%char -> family (joined gs +:+ t) = Some ":"%char.
Proof.
  intros H Ht. destruct H as [|g gs Hg H]; [done|]. destruct (hexGroup_spec g Hg) as (_ & _ & Hh).
  destruct gs as [|h gs]; [by rewrite <- Ht; apply family_hex|]. rewrite joined_cons, Strings.app_assoc. by rewrite family_hex.
Qed.

(** What [ParseIP] needs to know of a printed IPv6 address. *)
Lemma string6_shape gs :
  length gs = 8%nat -> Forall group_ok gs ->
  family (string6 gs) = Some ":"%char /\ Strings.ContainsByte (string6 gs) "%" = false.
Proof.
  intros Hlen H. unfold string6. destruct (longestRun _ _ _) as [st en]. destruct (decide _).
  - split; [|by apply ContainsByte_joined]. destruct gs as [|g [|h gs]]; [done|done|]. fold (joined (g :: h :: gs)).
    rewrite joined_cons. apply Forall_cons in H as [Hg _]. destruct (hexGroup_spec g Hg) as (_ & _ & Hh). by rewrite family_hex.
  - split; [apply family_joined; [by apply Forall_take|done]|].
    rewrite !Strings.ContainsByte_app. fold (joined (take st gs)) (joined (drop en gs)).
    rewrite !ContainsByte_joined by (by apply Forall_take || by apply Forall_drop). done.
Qed.

Lemma string4_family bs : length bs = 4%nat -> Forall byte bs -> family (string4 bs) = Some "."%char.
Proof.
  intros Hlen H. destruct bs as [|a [|b bs]]; [done|done|]. apply Forall_cons in H as [Ha _].
  destruct (parseOctet_pretty a Ha) as (_ & _ & Hh). unfold string4. cbn [fmap list_fmap Strings.Join]. by rewrite family_hex.
Qed.

(** An address in its canonical form: four bytes, or sixteen that are not an IPv4
    address. *)
Definition ip_ok (ip : IP) : Prop :=
  Forall byte ip /\ (length ip = 4%nat \/ (length ip = 16%nat /\ take 12 ip <> v4InV6Prefix)).

(** Printing and parsing an address gives it back, in its sixteen-byte form. *)
Lemma ParseIP_String ip :
  ip_ok ip -> ParseIP (IP_String ip) = Some (if decide (length ip = 4%nat) then v4InV6Prefix ++ ip else ip).
Proof.
  intros [Hb Hip]. unfold IP_String, To4, ParseIP. destruct (decide (length ip = 4%nat)) as [H4|H4].
  - rewrite string4_family by done. by rewrite parse_string4.
  - destruct Hip as [?|[H16 Hm]]; [done|]. rewrite decide_False by tauto.
    destruct (groups_spec 8 ip) as (G1 & G2 & G3); [done|done|]. destruct (string6_shape (groups ip) G1 G2) as [-> ->].
    by rewrite parse_string6, G3.
Qed.

Lemma canonical_ParseIP_String ip : ip_ok ip -> canonical <$> ParseIP (IP_String ip) = Some ip.
Proof.
  intros H. rewrite ParseIP_String by done. destruct H as [Hb Hip]. cbn. f_equal. unfold canonical, To4.
  destruct (decide (length ip = 4%nat)) as [H4|H4].
  - by destruct ip as [|a [|b [|c [|d [|]]]]].
  - destruct Hip as [?|[H16 Hm]]; [done|]. rewrite decide_False by done. by rewrite decide_False by tauto.
Qed.

(** ** The bytes of a printed address *)

(** Digits, the letters [a] to [f], the dot and the colon. *)
Definition addr_char (c : ascii) : Prop :=
  let n := N_of_ascii c in (48 <= n <= 57 \/ 97 <= n <= 102 \/ n = 46 \/ n = 58)%N.

Lemma pretty_N_char_addr n : addr_char (pretty_N_char n) /\ pretty_N_char n <> ":"%char /\ pretty_N_char n <> "."%char.
Proof. unfold pretty_N_char, addr_char. repeat case_match; split_and!; try done; cbn; lia. Qed.

#[local] Instance addr_char_dec c : Decision (addr_char c).
Proof. unfold addr_char. apply _. Defined.

Definition hex_char_test (d : Z) : bool := bool_decide (addr_char (hex_digit d) /\ hex_digit d <> "."%char).

Lemma hex_digit_chars_pass : all_bits 4 0 hex_char_test = true.
Proof. by vm_compute. Qed.

Lemma hexGroup_chars g : Forall (fun c => addr_char c /\ c <> "."%char) (Strings.bytes_of (hexGroup g)).
Proof.
  assert (forall n, addr_char (hex_digit (n mod 16)) /\ hex_digit (n mod 16) <> "."%char) as H.
  { intros n. pose proof (Z.mod_pos_bound n 16 eq_refl) as Hn.
    pose proof (all_bits_spec _ _ _ hex_digit_chars_pass (n mod 16) Hn) as H. by apply bool_decide_eq_true in H. }
  unfold hexGroup. repeat (destruct (decide _); [|]); cbn [Strings.bytes_of list_ascii_of_string]; rewrite !Forall_cons; auto using Forall_nil_2.
Qed.

Lemma joined_chars gs : Forall (fun c => addr_char c /\ c <> "."%char) (Strings.bytes_of (joined gs)).
Proof.
  apply Strings.Join_bytes; [split; [right; right; right; done|done]|]. apply Forall_fmap, Forall_forall.
  intros g _. apply hexGroup_chars.
Qed.

Lemma string6_chars gs : Forall (fun c => addr_char c /\ c <> "."%char) (Strings.bytes_of (string6 gs)).
Proof.
  unfold string6. destruct (longestRun _ _ _) as [st en]. destruct (decide _); [apply joined_chars|].
  rewrite !Strings.bytes_app, !Forall_app. split_and!; [apply joined_chars| |apply joined_chars].
  repeat apply Forall_cons_2; try apply Forall_nil_2; (split; [right; right; right; done|done]).
Qed.

Lemma octet_bytes (P : ascii -> Prop) b : (forall n, P (pretty_N_char n)) -> 0 <= b -> Forall P (Strings.bytes_of (pretty b)).
Proof. intros HP Hb. apply Strings.pretty_Z_bytes; [done|lia]. Qed.

Lemma string4_chars bs : Forall byte bs -> Forall addr_char (Strings.bytes_of (string4 bs)).
Proof.
  intros H. apply Strings.Join_bytes; [right; right; left; done|]. apply Forall_fmap. eapply Forall_impl; [exact H|].
  intros b Hb. apply octet_bytes; [apply pretty_N_char_addr|unfold byte in Hb; lia].
Qed.

Lemma string4_end bs : length bs = 4%nat -> Forall byte bs -> Strings.TrimSuffix (string4 bs) "." = string4 bs /\ string4 bs <> "".
Proof.
  intros Hlen H. destruct bs as [|a [|b [|c [|d [|]]]]]; try done. rewrite !Forall_cons in H. destruct H as (_ & _ & _ & Hd & _).
  destruct (parseOctet_pretty d Hd) as (Hp & Hf & _).
  assert (pretty d <> "") as Hne by (by intros E; rewrite E in Hp).
  unfold string4. cbn [fmap list_fmap Strings.Join].
  assert (forall x y, Strings.TrimSuffix y "." = y -> y <> "" ->
    Strings.TrimSuffix (x +:+ String "." y) "." = x +:+ String "." y /\ x +:+ String "." y <> "") as Hstep.
  { intros x y Hy Hn. rewrite Strings.TrimSuffix_app by done. split; [|by destruct x]. f_equal.
    change (String "." y) with ("." +:+ y). by rewrite Strings.TrimSuffix_app, Hy. }
  apply Hstep; apply Hstep; apply Hstep; (by apply Strings.TrimSuffix_free) || done.
Qed.

Lemma IP_String_shape ip :
  ip_ok ip -> Forall addr_char (Strings.bytes_of (IP_String ip)) /\
    Strings.TrimSuffix (IP_String ip) "." = IP_String ip /\ IP_String ip <> "".
Proof.
  intros [Hb Hip]. unfold IP_String, To4. destruct (decide (length ip = 4%nat)) as [H4|H4].
  - split; [by apply string4_chars|by apply string4_end].
  - destruct Hip as [?|[H16 Hm]]; [done|]. rewrite decide_False by tauto.
    destruct (groups_spec 8 ip) as (G1 & G2 & _); [done|done|]. pose proof (string6_chars (groups ip)) as Hc.
    destruct (string6_shape _ G1 G2) as [Hf _]. split_and!.
    + eapply Forall_impl; [exact Hc|]. by intros c [? _].
    + apply Strings.TrimSuffix_free, Strings.ContainsByte_false. eapply Forall_impl; [exact Hc|]. by intros c [_ ?].
    + intros E. by rewrite E in Hf.
Qed.

(** Only a sixteen-byte address prints with a colon. *)
Lemma addr_char_printable c : addr_char c -> Strings.printable c.
Proof. unfold addr_char, Strings.printable. lia. Qed.

(** ** What [ParseIP] returns *)

Lemma digits_nonneg base s acc n : 0 <= base -> 0 <= acc -> digits base s acc = Some n -> 0 <= n.
Proof.
  intros Hb. revert acc. induction s as [|c s IH]; intros acc Ha; cbn; [by intros [= <-]|].
  destruct (digit_value c) as [d|] eqn:E; [|done]. destruct (decide (d < base)); [|done]. apply IH.
  unfold digit_value in E. repeat (destruct (decide _); [injection E as <-; lia|]). done.
Qed.

Lemma ParseUint_bound s base bits n : 0 <= base -> ParseUint s base bits = Some n -> 0 <= n < 2 ^ bits.
Proof.
  unfold ParseUint. intros Hb. destruct (decide (s = "")); [done|]. destruct (digits base s 0) as [m|] eqn:E; [|done].
  destruct (decide (m < 2 ^ bits)); [|done]. intros [= <-]. split; [by eapply digits_nonneg in E|done].
Qed.

Lemma parseOctet_byte field n : parseOctet field = Some n -> byte n.
Proof.
  unfold parseOctet, byte. intros H.
  assert (match ParseUint field 10 64 with Some n => if decide (n <= 255) then Some n else None | None => None end = Some n) as H'.
  { revert H. repeat case_match; done. }
  destruct (ParseUint field 10 64) as [m|] eqn:E; [|done]. destruct (decide (m <= 255)); [|done]. injection H' as ->.
  apply ParseUint_bound in E; lia.
Qed.

Lemma parseIPv4Fields_ok s bs : parseIPv4Fields s = Some bs -> length bs = 4%nat /\ Forall byte bs.
Proof.
  unfold parseIPv4Fields. destruct (Strings.Split s ".") as [|a [|b [|c [|d [|]]]]]; try done. intros H%mapM_Some.
  pose proof (Forall2_length _ _ _ H). split; [done|]. clear -H. induction H as [|f n fs ns Hf H IH]; constructor; [|done].
  by eapply parseOctet_byte.
Qed.

Lemma digit_value_range c d : digit_value c = Some d -> 0 <= d < 16.
Proof. unfold digit_value. repeat (destruct (decide _); [intros [= <-]; lia|]). done. Qed.

Lemma hexPrefix_range s acc off a o rest :
  hexPrefix s acc off = Some (a, o, rest) -> 0 <= acc < 16 ^ Z.of_nat off -> (off <= 4)%nat ->
  0 <= a < 16 ^ Z.of_nat o /\ (o <= 4)%nat.
Proof.
  revert acc off. induction s as [|c s IH]; intros acc off; cbn [hexPrefix]; [by intros [= <- <- <-]|].
  destruct (digit_value c) as [d|] eqn:E; [|by intros [= <- <- <-]]. destruct (decide (3 < off)%nat); [done|].
  intros H Ha Ho. apply digit_value_range in E. apply (IH _ _ H); [|lia]. rewrite Nat2Z.inj_succ, Z.pow_succ_r by lia. lia.
Qed.

Lemma group_bytes a o : 0 <= a < 16 ^ Z.of_nat o -> (o <= 4)%nat -> Forall byte (group a).
Proof.
  intros Ha Ho. assert (16 ^ Z.of_nat o <= 16 ^ 4) by (apply Z.pow_le_mono_r; lia). change (16 ^ 4) with 65536 in *.
  unfold group, byte. repeat apply Forall_cons_2; [| |apply Forall_nil_2].
  - pose proof (Z.div_lt_upper_bound a 256 256). pose proof (Z.div_pos a 256). lia.
  - apply Z.mod_pos_bound. lia.
Qed.

Lemma parseGroups_ok fuel bs ell s r e rest :
  parseGroups fuel bs ell s = Some (r, e, rest) -> (length bs + 2 * fuel <= 16)%nat -> Forall byte bs ->
  (length r <= 16)%nat /\ Forall byte r.
Proof.
  revert bs ell s. induction fuel as [|fuel IH]; intros bs ell s; cbn [parseGroups]; [intros [= <- <- <-]; split; [lia|done]|].
  destruct (hexPrefix s 0 0) as [[[a o] t]|] eqn:E; [|done]. cbn [mbind option_bind].
  apply hexPrefix_range in E as [Ha Ho]; [|cbn; lia|lia]. pose proof (group_bytes a o Ha Ho) as Hg.
  destruct (decide (o = 0%nat)); [done|]. intros H Hl Hb.
  assert (Forall byte (bs ++ group a)) as Hbg by (by apply Forall_app).
  assert (length (bs ++ group a) = length bs + 2)%nat as Hlg by (by rewrite length_app).
  destruct t as [|c t]; [injection H as <- <- <-; split; [lia|done]|].
  destruct (decide (c = "."%char)) as [->|Hdot].
  { destruct (decide (ell = None /\ _)); [done|]. destruct (decide (16 < _)%nat); [done|].
    destruct (parseIPv4Fields s) as [ip4|] eqn:E4; [|done]. injection H as <- <- <-. apply parseIPv4Fields_ok in E4 as [H4 Hb4].
    rewrite length_app, Forall_app. split; [lia|done]. }
  destruct (decide (c = ":"%char)) as [->|Hcol]; [|by destruct c as [[] [] [] [] [] [] [] []]].
  destruct t as [|c t]; [done|]. destruct (decide (c = ":"%char)) as [->|Hcol'].
  - destruct ell; [done|]. destruct (decide (t = "")); [injection H as <- <- <-; split; [lia|done]|].
    apply (IH _ _ _ H); [lia|done].
  - assert (parseGroups fuel (bs ++ group a) ell (String c t) = Some (r, e, rest)) as H'
      by (by destruct c as [[] [] [] [] [] [] [] []]).
    apply (IH _ _ _ H'); [lia|done].
Qed.

Lemma zeros_bytes n : Forall byte (zeros n).
Proof. apply Forall_replicate. by unfold byte. Qed.

Lemma expand_ok bs e rest ip : expand (bs, e, rest) = Some ip -> (length bs <= 16)%nat -> Forall byte bs -> length ip = 16%nat /\ Forall byte ip.
Proof.
  cbn. destruct (decide (rest <> "")); [done|]. destruct (decide (length bs < 16)%nat) as [Hlt|].
  - destruct e as [e|]; [|done]. intros [= <-] Hl Hb. unfold zeros at 1. rewrite !length_app, length_replicate, length_take, length_drop, !Forall_app.
    split_and!; [lia|by apply Forall_take|apply zeros_bytes|by apply Forall_drop].
  - destruct e; [done|]. intros [= <-] Hl Hb. split; [lia|done].
Qed.

Lemma parseGroups_expand ell s ip :
  (r ← parseGroups 8 [] ell s; expand r) = Some ip -> length ip = 16%nat /\ Forall byte ip.
Proof.
  destruct (parseGroups 8 [] ell s) as [[[bs e] rest]|] eqn:E; [|done]. cbn [mbind option_bind]. intros H.
  apply parseGroups_ok in E as [Hl Hb]; [|cbn; lia|apply Forall_nil_2]. by eapply expand_ok.
Qed.

Lemma parseIPv6_ok s ip : parseIPv6 s = Some ip -> length ip = 16%nat /\ Forall byte ip.
Proof.
  assert ((r ← parseGroups 8 [] None s; expand r) = Some ip \/
          (exists s', (r ← parseGroups 8 [] (Some 0%nat) s'; expand r) = Some ip) \/ ip = zeros 16 ->
          length ip = 16%nat /\ Forall byte ip) as Hall.
  { intros [H|[[s' H]| ->]]; [by eapply parseGroups_expand|by eapply parseGroups_expand|split; [done|apply zeros_bytes]]. }
  intros H. apply Hall. unfold parseIPv6 in H.
  destruct s as [|c [|c' s]]; [by left|left; by destruct c as [[] [] [] [] [] [] [] []]|].
  destruct (decide (c = ":"%char)) as [->|]; [|left; by destruct c as [[] [] [] [] [] [] [] []]].
  destruct (decide (c' = ":"%char)) as [->|]; [|left; by destruct c' as [[] [] [] [] [] [] [] []]].
  destruct s as [|c'' s]; [right; right; congruence|right; left; by eexists].
Qed.

Lemma ParseIP_ok s ip : ParseIP s = Some ip -> length ip = 16%nat /\ Forall byte ip.
Proof.
  unfold ParseIP. intros H. assert ((exists ip4, parseIPv4Fields s = Some ip4 /\ ip = v4InV6Prefix ++ ip4) \/ parseIPv6 s = Some ip) as [(ip4 & H4 & ->)|H6].
  { destruct (family s) as [c|]; [|done]. destruct (decide (c = "."%char)) as [->|].
    - destruct (parseIPv4Fields s) as [ip4|]; [|done]. injection H as <-. left. eauto.
    - destruct (decide (c = ":"%char)) as [->|]; [|by destruct c as [[] [] [] [] [] [] [] []]].
      right. by destruct (Strings.ContainsByte s "%"). }
  - apply parseIPv4Fields_ok in H4 as [Hl Hb]. rewrite length_app, Hl, Forall_app. split_and!; [done| |done].
    apply Forall_app. split; [apply zeros_bytes|]. repeat apply Forall_cons_2; [done|done|apply Forall_nil_2].
  - by apply parseIPv6_ok in H6.
Qed.

Lemma canonical_ok ip : length ip = 16%nat -> Forall byte ip -> ip_ok (canonical ip).
Proof.
  intros Hl Hb. unfold canonical, To4, ip_ok. rewrite decide_False by (rewrite Hl; lia).
  destruct (decide _) as [[_ E]|E]; cbn.
  - split; [by apply Forall_drop|]. left. rewrite length_drop. lia.
  - split; [done|]. right. split; [done|]. intros E'. by apply E.
Qed.
End Net.
