(* ===== verification/GoUrl.v ===== *)
(** * Go's [net/url]: the parts of a URL, and query escaping

    What the modelled code uses of the package once a URL has been parsed: the
    fields, [Hostname], [Port], and the escaping of query components with its
    round trip. Parsing the URL itself is an argument of the definitions that
    need it. *)

From S2P Require Import Prelude GoStrings.
Local Open Scope Z_scope.

Module Url.

Record URL := {
  u_Scheme : string;
  u_Opaque : string;
  u_User : string;
  u_Host : string;
  u_Path : string;
  u_RawPath : string;
  u_RawQuery : string;
  u_Fragment : string;
}.

#[export] Instance URL_eq_dec : EqDecision URL.
Proof. solve_decision. Defined.

Definition with_Host (h : string) (u : URL) : URL :=
  {| u_Scheme := u_Scheme u; u_Opaque := u_Opaque u; u_User := u_User u; u_Host := h; u_Path := u_Path u;
     u_RawPath := u_RawPath u; u_RawQuery := u_RawQuery u; u_Fragment := u_Fragment u |}.

Definition with_RawQuery (q : string) (u : URL) : URL :=
  {| u_Scheme := u_Scheme u; u_Opaque := u_Opaque u; u_User := u_User u; u_Host := u_Host u; u_Path := u_Path u;
     u_RawPath := u_RawPath u; u_RawQuery := q; u_Fragment := u_Fragment u |}.

(** ** [splitHostPort] *)

Definition ascii_digit (c : ascii) : bool := bool_decide (48 <= Z.of_N (N_of_ascii c) <= 57).

Definition unbracket (host : string) : string :=
  match host with
  | String "[" rest =>
      match reverse (list_ascii_of_string rest) with
      | "]"%char :: l => string_of_list_ascii (reverse l)
      | _ => host
      end
  | _ => host
  end.

Definition splitHostPort (hostPort : string) : string * string :=
  let '(host, port) :=
    match Strings.cutLast hostPort ":" with
    | Some (host, port) => if forallb ascii_digit (list_ascii_of_string port) then (host, port) else (hostPort, "")
    | None => (hostPort, "")
    end in
  (unbracket host, port).

Definition Hostname (u : URL) : string := (splitHostPort (u_Host u)).1.
Definition Port (u : URL) : string := (splitHostPort (u_Host u)).2.

Example hosts :
  splitHostPort "example.com:8080" = ("example.com", "8080") /\ splitHostPort "[::1]:80" = ("::1", "80") /\
  splitHostPort "[fe80::1%eth0]" = ("fe80::1%eth0", "") /\ splitHostPort "0x7f000001:" = ("0x7f000001", "") /\
  splitHostPort "example.com:http" = ("example.com:http", "").
Proof. by vm_compute. Qed.

(** ** Query components *)

Definition hex_value (c : ascii) : option Z :=
  let n := Z.of_N (N_of_ascii c) in
  if decide (48 <= n <= 57) then Some (n - 48)
  else if decide (97 <= n <= 102) then Some (n - 87)
  else if decide (65 <= n <= 70) then Some (n - 55)
  else None.

Definition byte_of (n : Z) : ascii := ascii_of_N (Z.to_N n).

(** [url.QueryUnescape]: [None] on a malformed escape. *)
Fixpoint QueryUnescape (s : string) : option string :=
  match s with
  | EmptyString => Some EmptyString
  | String "%" (String a (String b s)) =>
      match hex_value a, hex_value b with
      | Some x, Some y => String (byte_of (16 * x + y)) <$> QueryUnescape s
      | _, _ => None
      end
  | String "%" _ => None
  | String "+" s => String " " <$> QueryUnescape s
  | String c s => String c <$> QueryUnescape s
  end.

(** The bytes that [url.QueryEscape] leaves as they are. *)
Definition unreserved (c : ascii) : bool :=
  let n := Z.of_N (N_of_ascii c) in
  bool_decide (48 <= n <= 57 \/ 65 <= n <= 90 \/ 97 <= n <= 122) || bool_decide (c ∈ ["-"; "_"; "."; "~"]%char).

Definition upper_hex (n : Z) : ascii := byte_of (if decide (n < 10) then n + 48 else n + 55).

Fixpoint QueryEscape (s : string) : string :=
  match s with
  | EmptyString => EmptyString
  | String c s =>
      if unreserved c then String c (QueryEscape s)
      else if decide (c = " "%char) then String "+" (QueryEscape s)
      else
        let n := Z.of_N (N_of_ascii c) in
        String "%" (String (upper_hex (n / 16)) (String (upper_hex (n mod 16)) (QueryEscape s)))
  end.

(** One byte escaped and read back, whatever follows. *)
Definition escape_test (c : ascii) : bool :=
  match QueryEscape (String c "") with
  | String a EmptyString => (bool_decide (a = c) && negb (bool_decide (c = "%"%char)) && negb (bool_decide (c = "+"%char))) ||
                            (bool_decide (a = "+"%char) && bool_decide (c = " "%char))
  | String "%" (String a (String b EmptyString)) =>
      match hex_value a, hex_value b with
      | Some x, Some y => bool_decide (byte_of (16 * x + y) = c)
      | _, _ => false
      end
  | _ => false
  end.

Lemma escape_test_pass c : escape_test c = true.
Proof. destruct c as [[] [] [] [] [] [] [] []]; vm_compute; reflexivity. Qed.

Lemma QueryUnescape_plain c s : c <> "%"%char -> c <> "+"%char -> QueryUnescape (String c s) = String c <$> QueryUnescape s.
Proof. intros. destruct c as [[] [] [] [] [] [] [] []]; done. Qed.

Lemma QueryUnescape_Escape s : QueryUnescape (QueryEscape s) = Some s.
Proof.
  induction s as [|c s IH]; [done|]. pose proof (escape_test_pass c) as H. unfold escape_test in H. cbn [QueryEscape] in *.
  destruct (unreserved c).
  - destruct (decide (c = "%"%char)) as [->|]; [done|]. destruct (decide (c = "+"%char)) as [->|]; [done|].
    by rewrite QueryUnescape_plain, IH.
  - destruct (decide (c = " "%char)) as [->|]; [cbn; by rewrite IH|]. cbn [QueryUnescape].
    destruct (hex_value (upper_hex (_ / _))); [|done]. destruct (hex_value (upper_hex _)); [|done]. apply bool_decide_eq_true in H. by rewrite IH, H.
Qed.
End Url.
