(* ===== verification/Destination.v ===== *)
(** * Network destinations: address literals, the SSRF floor and exact grants

    The package [internal/destination]. A destination is a network, a host and a
    port; the floor is the set of addresses that no configuration may open; a
    grant authorises one exact destination. The errors are the sentinels that the
    callers match on. *)

From stdpp Require Import pretty.
From S2P Require Import Prelude GoStrings GoNet.
Local Open Scope Z_scope.
Local Open Scope go_scope.

(** ** Address literals (ip.go, normalize.go) *)

Definition NormalizeIP (ip : option Net.IP) : option Net.IP := Net.canonical <$> ip.

(** What precedes the first zone separator. *)
Definition stripIPv6Zone (host : string) : string := default "" (head (Strings.Split host "%")).

(** The base of a component and its digits. *)
Definition componentBase (part : string) : Z * string :=
  match part with
  | String "0" (String "x" rest) | String "0" (String "X" rest) => (16, rest)
  | String "0" (String c rest) => (8, String c rest)
  | _ => (10, part)
  end.

(** [parseInetAtonComponent], for the widths below 64 that the code uses. *)
Definition parseInetAtonComponent (part : string) (bits : Z) : option Z :=
  if decide (part = "") then None
  else
    let '(base, digits) := componentBase part in
    if decide (digits = "") then None
    else
      match Net.ParseUint digits base 64 with
      | Some value => if decide (bits < 64 /\ value >= 2 ^ bits) then None else Some value
      | None => None
      end.

(** [net.IPv4] of the bytes of a number. *)
Definition ipOf (packed : Z) : Net.IP :=
  Net.IPv4 (Z.land (Z.shiftr packed 24) 255) (Z.land (Z.shiftr packed 16) 255)
    (Z.land (Z.shiftr packed 8) 255) (Z.land packed 255).

(** Whether a component uses a notation other than plain decimal. *)
Definition nonStandard (part : string) : bool :=
  match part with
  | String "0" (String _ _) => true
  | _ => false
  end.

Definition parseDottedInetAton (host : string) : option Net.IP :=
  match Strings.Split host "." with
  | [a; b] =>
      v0 ← parseInetAtonComponent a 8; v1 ← parseInetAtonComponent b 24;
      Some (ipOf (Z.lor (Z.shiftl v0 24) v1))
  | [a; b; c] =>
      v0 ← parseInetAtonComponent a 8; v1 ← parseInetAtonComponent b 8; v2 ← parseInetAtonComponent c 16;
      Some (ipOf (Z.lor (Z.shiftl v0 24) (Z.lor (Z.shiftl v1 16) v2)))
  | [a; b; c; d] as parts =>
      o0 ← parseInetAtonComponent a 8; o1 ← parseInetAtonComponent b 8;
      o2 ← parseInetAtonComponent c 8; o3 ← parseInetAtonComponent d 8;
      if existsb nonStandard parts then Some (Net.IPv4 o0 o1 o2 o3) else None
  | _ => None
  end.

Definition parseAlternativeIP (host : string) : option Net.IP :=
  if decide (host = "") then None
  else if Strings.ContainsByte host "." then parseDottedInetAton host
  else ipOf <$> parseInetAtonComponent host 32.

Definition ParseIPLiteral (host : string) : option Net.IP :=
  let host := Strings.TrimSuffix (stripIPv6Zone (Strings.TrimSpace host)) "." in
  NormalizeIP (match Net.ParseIP host with Some ip => Some ip | None => parseAlternativeIP host end).

(** ** The floor (floor.go) *)

Definition metadataIPv4s : list string := ["169.254.169.254"; "168.63.129.16"; "100.100.100.200"].
Definition metadataIPv6 : list string := ["fd00:ec2::254"].

Definition IsCloudMetadataIP (ip : Net.IP) : bool :=
  match Net.To4 ip with
  | Some v4 => bool_decide (Net.IP_String v4 ∈ metadataIPv4s)
  | None => bool_decide (Net.IP_String ip ∈ metadataIPv6)
  end.

Definition IsNonOverridableSSRFTarget (ip : option Net.IP) : bool :=
  match NormalizeIP ip with
  | None => false
  | Some ip =>
      IsCloudMetadataIP ip || Net.IsLinkLocalUnicast ip || Net.IsLinkLocalMulticast ip ||
      Net.IsInterfaceLocalMulticast ip || Net.IsMulticast ip || Net.IsUnspecified ip
  end.

(** ** Destinations (types.go, normalize.go) *)

Inductive DestError := ErrEmptyHost | ErrInvalidPort | ErrInvalidNetwork | ErrInvalidHost | ErrGrantFloorViolation
  | ErrSplitHostPort.

#[export] Instance DestError_eq_dec : EqDecision DestError.
Proof. solve_decision. Defined.

Definition NetworkTCP : string := "tcp".
Definition NetworkUDP : string := "udp".
Definition Valid (n : string) : bool := bool_decide (n = NetworkTCP \/ n = NetworkUDP).

Record Destination := { d_Network : string; d_Host : string; d_Port : Z }.

#[export] Instance Destination_eq_dec : EqDecision Destination.
Proof. solve_decision. Defined.

(** Control characters, DEL and white space, the multi-byte spaces included. *)
Definition unsafeByte (c : ascii) : bool :=
  let n := N_of_ascii c in bool_decide (n < 32 \/ n = 127)%N || Strings.ascii_space c.

Fixpoint containsBytes (w : list N) (l : list ascii) : bool :=
  bool_decide (is_Some (Strings.strip w l)) || match l with [] => false | _ :: l => containsBytes w l end.

Definition hasUnsafeHostChars (host : string) : bool :=
  let l := list_ascii_of_string host in
  existsb unsafeByte l || existsb (fun w => containsBytes w l) Strings.multibyte_spaces.

Definition rejectMalformedZone (raw : string) : bool :=
  Strings.ContainsByte raw "%" && bool_decide (Net.ParseIP (stripIPv6Zone raw) = None).

(** [ParsePort]. *)
Definition ParsePort (port : string) : result Z DestError :=
  match Net.ParseUint (Strings.TrimSpace port) 10 32 with
  | Some n => if decide (n = 0 \/ 65535 < n) then Err ErrInvalidPort else Ok n
  | None => Err ErrInvalidPort
  end.

(** [net.SplitHostPort]: the host and the port around the last colon. *)
Definition SplitHostPort (hostport : string) : option (string * string) :=
  '(before, port) ← Strings.cutLast hostport ":";
  '(host, rest) ←
    match hostport with
    | String "[" inner =>
        (* the first closing bracket must be right before the last colon *)
        match Strings.Split before "]" with
        | [String _ host; ""] => Some (host, "")
        | _ => None
        end
    | _ => if Strings.ContainsByte before ":" then None else Some (before, before)
    end;
  if Strings.ContainsByte host "[" || Strings.ContainsByte rest "]" || Strings.ContainsByte port "[" ||
     Strings.ContainsByte port "]"
  then None else Some (host, port).

Definition authority (d : Destination) : string :=
  (if Strings.ContainsByte (d_Host d) ":" then "[" +:+ d_Host d +:+ "]" else d_Host d) +:+ ":" +:+ pretty (d_Port d).

Definition Destination_String (d : Destination) : string := d_Network d +:+ "://" +:+ authority d.

Definition Destination_Equal (d other : Destination) : bool :=
  bool_decide (d_Network d = d_Network other) && bool_decide (d_Host d = d_Host other) && bool_decide (d_Port d = d_Port other).

Definition Destination_IP (d : Destination) : option Net.IP := ParseIPLiteral (d_Host d).
Definition IsLiteralIP (d : Destination) : bool := bool_decide (is_Some (ParseIPLiteral (d_Host d))).

(** ** Decisions and grants (grant.go, match.go) *)

Inductive Scope := ScopeNone | ScopeExact | ScopePortless.
Inductive Effect := EffectNoMatch | EffectAllow | EffectDeny.
Inductive Source := SourceNone | SourceImmutableFloor | SourceTrustedDomain | SourceIPAllowlist | SourceBlocklist
  | SourceStrictAllowlist | SourceGuardGrant.

Record Decision_ := { dc_Effect : Effect; dc_Scope : Scope; dc_Source : Source; dc_Rule : string }.

Definition Decision_zero : Decision_ :=
  {| dc_Effect := EffectNoMatch; dc_Scope := ScopeNone; dc_Source := SourceNone; dc_Rule := "" |}.

(** A grant holds its destination; a set is keyed by the printed destination. *)
Record Grant := { g_dest : Destination }.
Notation GrantSet := (gmap string Grant).

#[export] Instance Grant_eq_dec : EqDecision Grant.
Proof. solve_decision. Defined.

(** [unicode_lower] is [strings.ToLower] on strings that are not ASCII. *)
Section destination.
Context (unicode_lower : string -> string).

Definition NormalizeHost (host : string) : string :=
  Strings.ToLower unicode_lower (stripIPv6Zone (Strings.TrimSuffix (Strings.TrimSpace host) ".")).

Definition New (network host : string) (port : Z) : result Destination DestError :=
  if negb (Valid network) then Err ErrInvalidNetwork
  else if rejectMalformedZone (Strings.TrimSpace host) then Err ErrEmptyHost
  else
    let host := NormalizeHost host in
    if decide (host = "") then Err ErrEmptyHost
    else if hasUnsafeHostChars host then Err ErrInvalidHost
    else if decide (port = 0) then Err ErrInvalidPort
    else Ok {| d_Network := network;
               d_Host := match ParseIPLiteral host with Some ip => Net.IP_String ip | None => host end;
               d_Port := port |}.

Definition ParseHostPort (network hostPort : string) : result Destination DestError :=
  match SplitHostPort (Strings.TrimSpace hostPort) with
  | None => Err ErrSplitHostPort
  | Some (host, port) => parsedPort <-? ParsePort port; New network host parsedPort
  end.

(** ** Granting and deciding *)

Definition isFloorHost (host : string) : bool :=
  match ParseIPLiteral host with
  | Some ip => IsNonOverridableSSRFTarget (Some ip)
  | None => false
  end.

Definition NewGrant (network host : string) (port : Z) : result Grant DestError :=
  dest <-? New network host port;
  if isFloorHost (d_Host dest) then Err ErrGrantFloorViolation else Ok {| g_dest := dest |}.

Fixpoint addGrants (gs : list Grant) (m : gmap string Grant) : result (gmap string Grant) DestError :=
  match gs with
  | [] => Ok m
  | g :: gs =>
      validated <-? NewGrant (d_Network (g_dest g)) (d_Host (g_dest g)) (d_Port (g_dest g));
      addGrants gs (<[Destination_String (g_dest validated) := validated]> m)
  end.

Definition NewGrantSet (gs : list Grant) : result GrantSet DestError := addGrants gs ∅.

Definition GrantSet_Len (gs : GrantSet) : Z := Z.of_nat (size gs).

Definition Evaluate (gs : GrantSet) (d : Destination) : Decision_ :=
  if isFloorHost (d_Host d)
  then {| dc_Effect := EffectDeny; dc_Scope := ScopeExact; dc_Source := SourceImmutableFloor;
          dc_Rule := "non-overridable SSRF target" |}
  else
    match gs !! Destination_String d with
    | Some g => {| dc_Effect := EffectAllow; dc_Scope := ScopeExact; dc_Source := SourceGuardGrant;
                   dc_Rule := Destination_String (g_dest g) |}
    | None => Decision_zero
    end.

Definition Contains (gs : GrantSet) (d : Destination) : bool :=
  match dc_Effect (Evaluate gs d) with EffectAllow => true | _ => false end.

(** ** Domain patterns (domain.go) *)

Definition MatchDomain (hostname pattern : string) : bool :=
  let hostname := Strings.ToLower unicode_lower (Strings.TrimSuffix hostname ".") in
  let pattern := Strings.ToLower unicode_lower (Strings.TrimSuffix pattern ".") in
  match Net.ParseIP hostname with
  | Some _ => bool_decide (hostname = pattern)
  | None =>
      match pattern with
      | String "*" (String "." base) => bool_decide (hostname = base) || Strings.HasSuffix hostname (String "." base)
      | _ => bool_decide (hostname = pattern)
      end
  end.

Definition MatchesDomainList (hostname : string) (patterns : list string) : bool := existsb (MatchDomain hostname) patterns.
End destination.

(** ** Resolved addresses (resolved.go) *)

Record ResolvedAddr := { ra_IP : Net.IP; ra_Display : string }.

Definition ParseResolved (ips : list string) : list ResolvedAddr :=
  omap (fun raw => match Net.ParseIP (stripIPv6Zone raw) with
                   | Some ip => Some {| ra_IP := Net.canonical ip; ra_Display := raw |}
                   | None => None end) ips.

Definition FirstFloorHit (addrs : list ResolvedAddr) : option ResolvedAddr :=
  list_find (fun a => IsNonOverridableSSRFTarget (Some (ra_IP a)) = true) addrs ≫= fun ia => Some ia.2.

(** A CIDR is its membership test; the list may hold nil. *)
Definition FirstInternalHit (addrs : list ResolvedAddr) (cidrs : list (option (Net.IP -> bool))) (allowlisted : option (Net.IP -> bool))
    : option ResolvedAddr :=
  let hit a := existsb (fun cidr => match cidr with
                                    | Some contains => contains (ra_IP a) &&
                                        negb match allowlisted with Some allowed => allowed (ra_IP a) | None => false end
                                    | None => false end) cidrs in
  list_find (fun a => hit a = true) addrs ≫= fun ia => Some ia.2.

(** The spellings of one address. *)
Example spellings :
  let metadata := Some [169; 254; 169; 254] in
  ParseIPLiteral "169.254.169.254" = metadata /\ ParseIPLiteral "2852039166" = metadata /\
  ParseIPLiteral "0xA9FEA9FE" = metadata /\ ParseIPLiteral "025177524776" = metadata /\
  ParseIPLiteral "169.16689662" = metadata /\ ParseIPLiteral "0251.254.43518." = metadata /\
  ParseIPLiteral " 0xa9.254.0xa9.0376 " = metadata /\ ParseIPLiteral "::ffff:a9fe:a9fe" = metadata /\
  ParseIPLiteral "256.1.1.1" = None /\ ParseIPLiteral "example.com" = None.
Proof. by vm_compute. Qed.

(** ** Address literals are canonical *)

Lemma byte_land z : Net.byte (Z.land z 255).
Proof. unfold Net.byte. replace (Z.land z 255) with (z mod 2 ^ 8) by (symmetry; apply (Z.land_ones z 8); lia). apply Z.mod_pos_bound. lia. Qed.

Lemma component_bound part bits v : 0 <= bits < 64 -> parseInetAtonComponent part bits = Some v -> 0 <= v < 2 ^ bits.
Proof.
  unfold parseInetAtonComponent. intros Hbits. destruct (decide (part = "")); [done|].
  assert (0 <= (componentBase part).1) as Hbase by (unfold componentBase; repeat case_match; cbn; lia).
  destruct (componentBase part) as [base ds]. destruct (decide (ds = "")); [done|].
  destruct (Net.ParseUint ds base 64) as [m|] eqn:E; [|done]. apply Net.ParseUint_bound in E; [|done].
  destruct (decide _); [done|]. intros [= <-]. lia.
Qed.

Lemma IPv4_ok a b c d :
  Net.byte a -> Net.byte b -> Net.byte c -> Net.byte d -> length (Net.IPv4 a b c d) = 16%nat /\ Forall Net.byte (Net.IPv4 a b c d).
Proof.
  intros. split; [done|]. apply Forall_app. split; [|by repeat apply Forall_cons_2; try apply Forall_nil_2].
  apply Forall_app. split; [apply Net.zeros_bytes|by repeat apply Forall_cons_2; try apply Forall_nil_2].
Qed.

Lemma ipOf_ok z : length (ipOf z) = 16%nat /\ Forall Net.byte (ipOf z).
Proof. apply IPv4_ok; apply byte_land. Qed.

Lemma parseAlternativeIP_ok host ip : parseAlternativeIP host = Some ip -> length ip = 16%nat /\ Forall Net.byte ip.
Proof.
  unfold parseAlternativeIP, parseDottedInetAton. destruct (decide (host = "")); [done|]. destruct (Strings.ContainsByte host ".").
  - destruct (Strings.Split host ".") as [|a [|b [|c [|d [|]]]]]; try done; intros H.
    + apply bind_Some in H as (? & _ & H). apply bind_Some in H as (? & _ & [= <-]). apply ipOf_ok.
    + apply bind_Some in H as (? & _ & H). apply bind_Some in H as (? & _ & H). apply bind_Some in H as (? & _ & [= <-]). apply ipOf_ok.
    + apply bind_Some in H as (? & Ha & H). apply bind_Some in H as (? & Hb & H).
      apply bind_Some in H as (? & Hc & H). apply bind_Some in H as (? & Hd & H). destruct (existsb _ _); [|done].
      injection H as <-. apply IPv4_ok; eapply (component_bound _ 8); (done || lia).
  - destruct (parseInetAtonComponent host 32); [|done]. intros [= <-]. apply ipOf_ok.
Qed.

Lemma ParseIPLiteral_ok host ip : ParseIPLiteral host = Some ip -> Net.ip_ok ip.
Proof.
  unfold ParseIPLiteral, NormalizeIP. cbv zeta. set (h := Strings.TrimSuffix _ _). intros (ip' & H & ->)%fmap_Some_1.
  assert (length ip' = 16%nat /\ Forall Net.byte ip') as [Hl Hb]; [|by apply Net.canonical_ok].
  destruct (Net.ParseIP h) as [ip2|] eqn:E; [injection H as <-; by apply Net.ParseIP_ok in E|by apply parseAlternativeIP_ok in H].
Qed.

(** ** Hosts in their normal form *)

(** A byte that normalising a host leaves alone and that an authority can hold:
    printable ASCII other than a capital letter, a bracket or the zone separator. *)
Definition name_char (c : ascii) : Prop :=
  Strings.printable c /\ ~ (65 <= N_of_ascii c <= 90)%N /\ c <> "["%char /\ c <> "]"%char /\ c <> "%"%char.

(** A host of such bytes, not empty and without a trailing dot. *)
Definition host_ok (h : string) : Prop := Forall name_char (Strings.bytes_of h) /\ Strings.TrimSuffix h "." = h /\ h <> "".

Lemma host_printable h : Forall name_char (Strings.bytes_of h) -> Forall Strings.printable (Strings.bytes_of h).
Proof. intros H. eapply Forall_impl; [exact H|]. by intros c (? & _). Qed.

Lemma addr_char_name c : Net.addr_char c -> name_char c.
Proof.
  intros H. split_and!; [by apply Net.addr_char_printable| | | |]; unfold Net.addr_char in H; [lia|..]; intros ->; cbn in H; lia.
Qed.

Lemma IP_String_host_ok ip : Net.ip_ok ip -> host_ok (Net.IP_String ip).
Proof.
  intros H. apply Net.IP_String_shape in H as (Hc & ? & ?). split_and!; [|done|done].
  eapply Forall_impl; [exact Hc|]. apply addr_char_name.
Qed.

Lemma stripIPv6Zone_id h : Forall name_char (Strings.bytes_of h) -> stripIPv6Zone h = h.
Proof.
  intros H. unfold stripIPv6Zone. rewrite Strings.Split_free; [done|]. apply Strings.ContainsByte_false.
  eapply Forall_impl; [exact H|]. by intros c (_ & _ & _ & _ & ?).
Qed.

(** What [ParseIPLiteral] does with a host in its normal form. *)
Lemma ParseIPLiteral_normal h :
  host_ok h -> ParseIPLiteral h = NormalizeIP (match Net.ParseIP h with Some ip => Some ip | None => parseAlternativeIP h end).
Proof.
  intros (Hc & Ht & _). unfold ParseIPLiteral. rewrite Strings.TrimSpace_printable by by apply host_printable.
  by rewrite stripIPv6Zone_id, Ht.
Qed.

(** A printed address is a literal of that address. *)
Lemma ParseIPLiteral_String ip : Net.ip_ok ip -> ParseIPLiteral (Net.IP_String ip) = Some ip.
Proof.
  intros H. rewrite ParseIPLiteral_normal by by apply IP_String_host_ok. pose proof (Net.canonical_ParseIP_String ip H) as E.
  destruct (Net.ParseIP (Net.IP_String ip)); [done|discriminate E].
Qed.

Lemma containsBytes_printable w l :
  match w with n :: _ => (127 <= n)%N | [] => False end -> Forall Strings.printable l -> containsBytes w l = false.
Proof.
  intros Hw. destruct w as [|n w]; [done|]. induction 1 as [|c l Hc H IH]; [done|]. cbn [containsBytes]. rewrite IH, orb_false_r.
  apply bool_decide_eq_false_2. intros [x Hx]. unfold Strings.strip in Hx. destruct (decide _) as [E|]; [|done].
  cbn in E. injection E as E _. unfold Strings.printable in Hc. lia.
Qed.

Lemma hasUnsafe_printable h : Forall Strings.printable (Strings.bytes_of h) -> hasUnsafeHostChars h = false.
Proof.
  intros H. unfold hasUnsafeHostChars. apply orb_false_iff. rewrite !existsb_false. split.
  - eapply Forall_impl; [exact H|]. intros c Hc. unfold Strings.printable in Hc. unfold unsafeByte, Strings.ascii_space.
    rewrite !bool_decide_eq_false_2 by lia. done.
  - pose proof Strings.multibyte_spaces_high as Hw. eapply Forall_impl; [exact Hw|]. intros w Hn. by apply containsBytes_printable.
Qed.

Section normal.
Context (unicode_lower : string -> string).

Lemma NormalizeHost_id h : host_ok h -> NormalizeHost unicode_lower h = h.
Proof.
  intros (Hc & Ht & _). unfold NormalizeHost. rewrite Strings.TrimSpace_printable by by apply host_printable.
  rewrite Ht, stripIPv6Zone_id by done. apply Strings.ToLower_id. eapply Forall_impl; [exact Hc|].
  intros c (Hp & ? & _). unfold Strings.printable in Hp. split; [lia|done].
Qed.

Lemma New_Ok network host port d :
  New unicode_lower network host port = Ok d ->
  Valid network = true /\ port <> 0 /\ d_Network d = network /\ d_Port d = port /\
  d_Host d = (match ParseIPLiteral (NormalizeHost unicode_lower host) with
              | Some ip => Net.IP_String ip
              | None => NormalizeHost unicode_lower host end).
Proof.
  unfold New. destruct (Valid network); [|done]. cbn [negb]. destruct (rejectMalformedZone _); [done|]. cbv zeta.
  destruct (decide (_ = "")); [done|]. destruct (hasUnsafeHostChars _); [done|]. destruct (decide (port = 0)); [done|].
  intros <-%Ok_inj. split_and!; [reflexivity|assumption|reflexivity..].
Qed.

(** Printing a literal's address again changes nothing. *)
Lemma literal_host host :
  let h := match ParseIPLiteral host with Some ip => Net.IP_String ip | None => host end in
  ParseIPLiteral h = ParseIPLiteral host /\ match ParseIPLiteral h with Some ip => Net.IP_String ip | None => h end = h.
Proof.
  cbv zeta. destruct (ParseIPLiteral host) as [ip|] eqn:E; [|by rewrite E]. by rewrite ParseIPLiteral_String by by eapply ParseIPLiteral_ok.
Qed.

(** A host in its normal form is accepted as it is. *)
Lemma New_normal network h port :
  Valid network = true -> host_ok h -> port <> 0 ->
  New unicode_lower network h port =
    Ok {| d_Network := network; d_Host := match ParseIPLiteral h with Some ip => Net.IP_String ip | None => h end; d_Port := port |}.
Proof.
  intros Hv Hh Hp. unfold New. rewrite Hv. cbn [negb]. pose proof Hh as (Hc & _ & Hne). unfold rejectMalformedZone.
  rewrite Strings.TrimSpace_printable by by apply host_printable.
  assert (Strings.ContainsByte h "%" = false) as ->.
  { apply Strings.ContainsByte_false. eapply Forall_impl; [exact Hc|]. by intros c (_ & _ & _ & _ & ?). }
  cbn [andb]. rewrite NormalizeHost_id by done. rewrite decide_False by done.
  rewrite hasUnsafe_printable by by apply host_printable. by rewrite decide_False by done.
Qed.

(** The host of a destination is in its normal form when it is an address. *)
Lemma New_literal_host_ok network host port d :
  New unicode_lower network host port = Ok d -> IsLiteralIP d = true -> host_ok (d_Host d).
Proof.
  intros H%New_Ok Hl. destruct H as (_ & _ & _ & _ & E). unfold IsLiteralIP in Hl. apply bool_decide_eq_true in Hl.
  rewrite E in Hl |- *. set (h := NormalizeHost unicode_lower host) in *. pose proof (literal_host h) as [E1 _]. cbv zeta in E1.
  rewrite E1 in Hl. destruct Hl as [ip Hip]. rewrite Hip. by apply IP_String_host_ok, (ParseIPLiteral_ok h).
Qed.

Lemma New_again network host port d :
  New unicode_lower network host port = Ok d -> host_ok (d_Host d) -> New unicode_lower network (d_Host d) port = Ok d.
Proof.
  intros H Hh. pose proof (New_Ok _ _ _ _ H) as (Hv & Hp & H1 & H2 & H3). rewrite New_normal by done.
  assert (match ParseIPLiteral (d_Host d) with Some ip => Net.IP_String ip | None => d_Host d end = d_Host d) as ->
    by (rewrite H3; apply literal_host).
  by destruct d; cbn in *; subst.
Qed.
End normal.

(** ** Printed ports *)

Lemma digit_of_char n : Net.digit_value (pretty_N_char (n mod 10)) = Some (Z.of_N n mod 10).
Proof.
  change 10 with (Z.of_N 10). rewrite <- (N2Z.inj_mod n 10). pose proof (N.mod_lt n 10 ltac:(done)) as H. generalize dependent (n mod 10)%N. intros m Hm.
  assert (m = 0 \/ m = 1 \/ m = 2 \/ m = 3 \/ m = 4 \/ m = 5 \/ m = 6 \/ m = 7 \/ m = 8 \/ m = 9)%N as Hcases by lia.
  by decompose [or] Hcases; subst.
Qed.

Lemma digits_pretty_go x s : Net.digits 10 (pretty_N_go x s) 0 = Net.digits 10 s (Z.of_N x).
Proof.
  revert s. induction (N.lt_wf_0 x) as [x _ IH]; intros s.
  destruct (decide (0 < x)%N) as [Hx|Hx]; [|assert (x = 0)%N as -> by lia; by rewrite pretty_N_go_0].
  rewrite pretty_N_go_step, IH by (done || by apply N.div_lt). cbn [Net.digits]. rewrite digit_of_char.
  pose proof (Z.mod_pos_bound (Z.of_N x) 10 ltac:(lia)). rewrite decide_True by lia. f_equal.
  rewrite N2Z.inj_div. change (Z.of_N 10) with 10. pose proof (Z.div_mod (Z.of_N x) 10). lia.
Qed.

Lemma port_chars p : 0 <= p -> Forall (fun c => name_char c /\ c <> ":"%char /\ c <> "."%char) (Strings.bytes_of (pretty p)).
Proof.
  intros Hp. apply Strings.pretty_Z_bytes; [|lia]. intros n. pose proof (Net.pretty_N_char_addr n) as (? & ? & ?).
  split_and!; [by apply addr_char_name|done|done].
Qed.

Lemma ParsePort_pretty p : 0 < p <= 65535 -> ParsePort (pretty p) = Ok p.
Proof.
  intros Hp. unfold ParsePort. rewrite Strings.TrimSpace_printable.
  2: { apply host_printable. eapply Forall_impl; [apply port_chars; lia|]. by intros c [? _]. }
  assert (pretty p = pretty_N_go (Z.to_N p) "") as E by (destruct p; [lia|done|lia]).
  unfold Net.ParseUint. rewrite E, digits_pretty_go. cbn [Net.digits]. rewrite Z2N.id by lia.
  rewrite decide_False, decide_True, decide_False; [done|lia|lia|].
  intros E'. pose proof (digits_pretty_go (Z.to_N p) "") as Hd. rewrite E' in Hd. cbn in Hd. injection Hd as Hd. lia.
Qed.

(** ** Authorities *)

Lemma cutLast_app x y c : Strings.ContainsByte y c = false -> Strings.cutLast (x +:+ String c y) c = Some (x, y).
Proof.
  intros Hy. assert (forall z, Strings.ContainsByte z c = false -> Strings.cutLast z c = None) as Hnone.
  { intros z. induction z as [|a z IH]; [done|]. cbn [Strings.ContainsByte Strings.cutLast]. destruct (decide (a = c)); [done|].
    intros H. by rewrite IH. }
  induction x as [|a x IH].
  - change ("" +:+ String c y) with (String c y). cbn [Strings.cutLast]. rewrite (Hnone y Hy). by rewrite decide_True.
  - change (String a x +:+ String c y) with (String a (x +:+ String c y)). cbn [Strings.cutLast]. by rewrite IH.
Qed.

(** The host as an authority spells it. *)
Definition bracketed (h : string) : string := if Strings.ContainsByte h ":" then "[" +:+ h +:+ "]" else h.

Lemma authority_parts d : authority d = bracketed (d_Host d) +:+ String ":" (pretty (d_Port d)).
Proof. unfold authority, bracketed. by destruct (Strings.ContainsByte _ _). Qed.

Lemma port_free p c : 0 <= p -> (name_char c -> c = ":"%char \/ c = "."%char) -> Strings.ContainsByte (pretty p) c = false.
Proof.
  intros Hp Hc. apply Strings.ContainsByte_false. eapply Forall_impl; [by apply port_chars|]. intros a (Ha & H1 & H2) ->.
  by destruct (Hc Ha).
Qed.

Lemma host_free h c : host_ok h -> ~ name_char c -> Strings.ContainsByte h c = false.
Proof. intros (H & _) Hc. apply Strings.ContainsByte_false. eapply Forall_impl; [exact H|]. by intros a Ha ->. Qed.

Lemma bracket_not_name : ~ name_char "["%char /\ ~ name_char "]"%char.
Proof. split; intros (_ & _ & H1 & H2 & _); [by apply H1|by apply H2]. Qed.

Lemma SplitHostPort_authority d :
  host_ok (d_Host d) -> 0 <= d_Port d -> SplitHostPort (authority d) = Some (d_Host d, pretty (d_Port d)).
Proof.
  intros Hh Hp. destruct bracket_not_name as [Nl Nr].
  pose proof (host_free _ _ Hh Nl) as Hl. pose proof (host_free _ _ Hh Nr) as Hr.
  assert (Strings.ContainsByte (pretty (d_Port d)) "[" = false /\ Strings.ContainsByte (pretty (d_Port d)) "]" = false) as [Pl Pr]
    by (split; apply port_free; (done || tauto)).
  unfold SplitHostPort. rewrite authority_parts, cutLast_app by (apply port_free; [done|by left]).
  cbn [mbind option_bind]. unfold bracketed. destruct (Strings.ContainsByte (d_Host d) ":") eqn:Ec.
  - change ("[" +:+ d_Host d +:+ "]") with (String "[" (d_Host d) +:+ String "]" "").
    rewrite Strings.Split_app; [|cbn [Strings.ContainsByte]; by rewrite decide_False].
    change ((String "[" (d_Host d) +:+ "]") +:+ String ":" (pretty (d_Port d)))
      with (String "[" ((d_Host d +:+ "]") +:+ String ":" (pretty (d_Port d)))).
    cbn [mbind option_bind Strings.Split]. by rewrite Hl, Pl, Pr.
  - assert (match d_Host d +:+ String ":" (pretty (d_Port d)) with String "[" _ => False | _ => True end) as Hfirst.
    { destruct (d_Host d) as [|c h] eqn:E; [done|]. cbn [Strings.ContainsByte] in Hl. change (String c h +:+ ?x) with (String c (h +:+ x)).
      destruct (decide (c = "["%char)); [done|]. by destruct c as [[] [] [] [] [] [] [] []]. }
    destruct (d_Host d +:+ String ":" (pretty (d_Port d))) as [|c t]; [by rewrite Ec; cbn [mbind option_bind]; rewrite Hl, Hr, Pl, Pr|].
    destruct c as [[] [] [] [] [] [] [] []]; (done || by rewrite Ec; cbn [mbind option_bind]; rewrite Hl, Hr, Pl, Pr).
Qed.

Lemma authority_printable d : host_ok (d_Host d) -> 0 <= d_Port d -> Strings.TrimSpace (authority d) = authority d.
Proof.
  intros (Hh & _) Hp. apply Strings.TrimSpace_printable. rewrite authority_parts, Strings.bytes_app, Forall_app. split.
  - unfold bracketed. destruct (Strings.ContainsByte _ _); [|by apply host_printable].
    rewrite !Strings.bytes_app, !Forall_app. split_and!; [|by apply host_printable|]; (apply Forall_cons_2; [done|apply Forall_nil_2]).
  - change (Strings.bytes_of (String ":" (pretty (d_Port d)))) with (":"%char :: Strings.bytes_of (pretty (d_Port d))).
    apply Forall_cons_2; [done|]. apply host_printable. eapply Forall_impl; [by apply port_chars|]. by intros c [? _].
Qed.

(** ** Equal strings are equal destinations *)

Lemma pretty_port_inj (p q : Z) : (pretty p : string) = pretty q -> p = q.
Proof. apply pretty_Z_inj. Qed.

Lemma bracketed_inj x y : bracketed x = bracketed y -> x = y.
Proof.
  unfold bracketed. intros H.
  destruct (Strings.ContainsByte x ":") eqn:Ex, (Strings.ContainsByte y ":") eqn:Ey; [| | |done].
  - change ("[" +:+ x +:+ "]") with (String "[" (x +:+ "]")) in H. change ("[" +:+ y +:+ "]") with (String "[" (y +:+ "]")) in H.
    injection H as H. apply (f_equal Strings.bytes_of) in H. rewrite !Strings.bytes_app in H.
    apply app_inv_tail in H. apply (f_equal string_of_list_ascii) in H. by rewrite !string_of_list_ascii_of_string in H.
  - rewrite <- H, !Strings.ContainsByte_app, Ex in Ey. done.
  - rewrite H, !Strings.ContainsByte_app, Ey in Ex. done.
Qed.

Lemma Destination_String_inj d d' :
  Valid (d_Network d) = true -> Valid (d_Network d') = true -> 0 <= d_Port d -> 0 <= d_Port d' ->
  Destination_String d = Destination_String d' -> d = d'.
Proof.
  intros Hn Hn' Hp Hp' H. apply bool_decide_eq_true in Hn, Hn'.
  assert (d_Network d = d_Network d' /\ authority d = authority d') as [En Ea].
  { unfold Destination_String in H.
    destruct Hn as [E|E], Hn' as [E'|E']; rewrite E, E' in H |- *; try discriminate H; (split; [done|]).
    - by injection H.
    - by injection H. }
  rewrite !authority_parts in Ea.
  assert (Strings.cutLast (bracketed (d_Host d) +:+ String ":" (pretty (d_Port d))) ":" =
          Strings.cutLast (bracketed (d_Host d') +:+ String ":" (pretty (d_Port d'))) ":") as Ec by by rewrite Ea.
  rewrite !cutLast_app in Ec by (apply port_free; [done|by left]). injection Ec as Eh Eport.
  apply bracketed_inj in Eh. apply pretty_port_inj in Eport. destruct d, d'; cbn in *; by subst.
Qed.

Section properties.
Context (unicode_lower : string -> string).

(** A destination survives printing and parsing. Whatever spelling of the host
    was given, the authority of the resulting destination ([host:port], an IPv6
    address in brackets) parses back to the same destination, and the stored host
    is a fixed point of the normalisation. The host is an address (the printed
    canonical form of any literal the parser understands: hexadecimal, octal,
    packed, IPv4-mapped), or a name of printable characters without capitals,
    brackets, zone separators or a trailing dot. *)
Theorem destination_roundtrip network host port d :
  New unicode_lower network host port = Ok d ->
  0 < port <= 65535 ->
  IsLiteralIP d = true \/ host_ok (d_Host d) ->
  ParseHostPort unicode_lower network (authority d) = Ok d /\ New unicode_lower network (d_Host d) port = Ok d.
Proof.
  intros H Hport Hh. assert (host_ok (d_Host d)) as Hok by (destruct Hh; [by eapply New_literal_host_ok|done]).
  pose proof (New_again _ _ _ _ _ H Hok) as Hagain. split; [|done]. apply New_Ok in H as (_ & _ & _ & Ep & _).
  unfold ParseHostPort. rewrite authority_printable, SplitHostPort_authority by (done || lia).
  by rewrite Ep, ParsePort_pretty.
Qed.

(** ** Grants *)

Lemma floor_of_literal host : isFloorHost (match ParseIPLiteral host with Some ip => Net.IP_String ip | None => host end) = isFloorHost host.
Proof. unfold isFloorHost. destruct (literal_host host) as [E _]. cbv zeta in E. by rewrite E. Qed.

(** The floor holds for every spelling of an address. When the host a caller
    names is, in any notation, an address, [NewGrant] depends on the address
    alone: it refuses with the floor error exactly when the address is on the
    floor, and the destination of a floor address is denied by every grant set. *)
Theorem floor_any_spelling network host port d ip :
  New unicode_lower network host port = Ok d ->
  ParseIPLiteral (NormalizeHost unicode_lower host) = Some ip ->
  NewGrant unicode_lower network host port =
    (if IsNonOverridableSSRFTarget (Some ip) then Err ErrGrantFloorViolation else Ok {| g_dest := d |}) /\
  (IsNonOverridableSSRFTarget (Some ip) = true -> forall gs,
     Evaluate gs d = {| dc_Effect := EffectDeny; dc_Scope := ScopeExact; dc_Source := SourceImmutableFloor;
                        dc_Rule := "non-overridable SSRF target" |}).
Proof.
  intros H Hip. assert (isFloorHost (d_Host d) = IsNonOverridableSSRFTarget (Some ip)) as E.
  { apply New_Ok in H as (_ & _ & _ & _ & ->). rewrite floor_of_literal. unfold isFloorHost. by rewrite Hip. }
  unfold NewGrant, Evaluate. rewrite H, E. split; [done|]. by intros ->.
Qed.

(** Two spellings of one address are one destination, and only they are: for
    destinations made by [New] whose hosts are addresses, equality of the records
    (and so of the map keys) is equality of network, port and address. *)
Theorem spellings_agree n1 h1 p1 d1 n2 h2 p2 d2 :
  New unicode_lower n1 h1 p1 = Ok d1 -> New unicode_lower n2 h2 p2 = Ok d2 -> IsLiteralIP d1 = true ->
  d1 = d2 <-> n1 = n2 /\ p1 = p2 /\
    ParseIPLiteral (NormalizeHost unicode_lower h1) = ParseIPLiteral (NormalizeHost unicode_lower h2).
Proof.
  intros H1 H2 Hl. apply New_Ok in H1 as (_ & _ & En1 & Ep1 & Eh1). apply New_Ok in H2 as (_ & _ & En2 & Ep2 & Eh2).
  unfold IsLiteralIP in Hl. apply bool_decide_eq_true in Hl.
  pose proof (literal_host (NormalizeHost unicode_lower h1)) as [L1 _]. pose proof (literal_host (NormalizeHost unicode_lower h2)) as [L2 _].
  cbv zeta in L1, L2. rewrite <- Eh1 in L1. rewrite <- Eh2 in L2. split.
  - intros <-. by rewrite <- En1, <- En2, <- Ep1, <- Ep2, <- L1, <- L2.
  - intros (En & Ep & E). rewrite L1 in Hl. destruct Hl as [ip Hip]. rewrite Hip in Eh1. rewrite <- E, Hip in Eh2.
    destruct d1, d2; cbn in *; congruence.
Qed.

(** What a list of grants authorises: its elements, validated once more. *)
Definition revalidate (g : Grant) : result Grant DestError :=
  NewGrant unicode_lower (d_Network (g_dest g)) (d_Host (g_dest g)) (d_Port (g_dest g)).

Lemma NewGrant_Ok network host port g :
  NewGrant unicode_lower network host port = Ok g ->
  New unicode_lower network host port = Ok (g_dest g) /\ isFloorHost (d_Host (g_dest g)) = false.
Proof.
  unfold NewGrant. destruct (New _ _ _ _) as [dest|]; [|done]. destruct (isFloorHost (d_Host dest)) eqn:E; [done|]. by intros <-%Ok_inj.
Qed.

Lemma addGrants_lookup gs (m set : gmap string Grant) d :
  addGrants unicode_lower gs m = Ok set -> Forall (fun g => 0 <= d_Port (g_dest g)) gs ->
  Valid (d_Network d) = true -> 0 <= d_Port d ->
  set !! Destination_String d =
    if decide (Exists (fun g => revalidate g = Ok {| g_dest := d |}) gs) then Some {| g_dest := d |} else m !! Destination_String d.
Proof.
  revert m. induction gs as [|g gs IH]; intros m H Hp Hv Hd.
  - apply Ok_inj in H as <-. rewrite decide_False; [done|]. intros HE. inversion HE.
  - cbn [addGrants] in H. fold (revalidate g) in H. destruct (revalidate g) as [v|] eqn:Ev; [|done].
    apply Forall_cons in Hp as [Hg Hp]. rewrite (IH _ H Hp Hv Hd).
    pose proof (NewGrant_Ok _ _ _ _ Ev) as [Hnew _]. apply New_Ok in Hnew as (Vv & _ & En & Epv & _). rewrite <- En in Vv.
    destruct (decide (Exists _ gs)) as [Hin|Hout]; [by rewrite decide_True by by right|].
    destruct (decide (Destination_String (g_dest v) = Destination_String d)) as [Es|Hs].
    + rewrite Es, lookup_insert_eq. apply Destination_String_inj in Es; [|done..|lia|done].
      assert (v = {| g_dest := d |}) as -> by (destruct v; cbn in *; by subst). by rewrite decide_True by by left.
    + rewrite lookup_insert_ne by done. rewrite decide_False; [done|]. intros [Hg'|]%Exists_cons; [|done].
      rewrite Ev in Hg'. apply Ok_inj in Hg' as ->. by apply Hs.
Qed.

(** C39: a set of grants authorises exactly its grants. For a set built from a list,
    a destination is allowed just in case some element of the list validates to
    that very destination (network, host and port), and the rule reported is its
    print; an address on the floor is denied whatever the list holds. *)
Theorem grants_exact gs set d :
  NewGrantSet unicode_lower gs = Ok set -> Forall (fun g => 0 <= d_Port (g_dest g)) gs ->
  Valid (d_Network d) = true -> 0 <= d_Port d ->
  (Contains set d = true <-> exists g, g ∈ gs /\ revalidate g = Ok {| g_dest := d |}) /\
  (Contains set d = true -> dc_Rule (Evaluate set d) = Destination_String d) /\
  (isFloorHost (d_Host d) = true -> dc_Effect (Evaluate set d) = EffectDeny /\ Contains set d = false).
Proof.
  intros H Hp Hv Hd. pose proof (addGrants_lookup _ _ _ _ H Hp Hv Hd) as E. rewrite lookup_empty in E. unfold Contains, Evaluate. rewrite E.
  destruct (isFloorHost (d_Host d)) eqn:Ef.
  - split_and!; [|done|done]. split; [done|]. intros (g & _ & Hg). apply NewGrant_Ok in Hg as [_ Hf]. cbn in Hf. congruence.
  - destruct (decide _) as [Hin|Hout].
    + split_and!; [|done|done]. split; [intros _; by apply Exists_exists|done].
    + split_and!; [|done|done]. split; [done|]. intros Hex. destruct Hout. by apply Exists_exists.
Qed.

(** The first grant that does not validate is the error of the whole list. *)
Lemma NewGrantSet_error gs e :
  NewGrantSet unicode_lower gs = Err e <->
  exists before g after, gs = before ++ g :: after /\ Forall (fun g => is_ok (revalidate g) = true) before /\ revalidate g = Err e.
Proof.
  unfold NewGrantSet. generalize (∅ : GrantSet) as m. induction gs as [|g gs IH]; intros m.
  - split; [done|]. by intros ([|] & ? & ? & ? & _).
  - cbn [addGrants]. fold (revalidate g). destruct (revalidate g) as [v|e'] eqn:Ev.
    + rewrite IH. split; intros (before & g' & after & E & Hb & He).
      * exists (g :: before), g', after. rewrite E, Forall_cons, Ev. done.
      * destruct before as [|b before]; injection E as <- E; [congruence|]. apply Forall_cons in Hb as [_ Hb]. by exists before, g', after.
    + split.
      * intros [= ->]. by exists [], g, gs.
      * intros (before & g' & after & E & Hb & He). destruct before as [|b before]; injection E as <- E; [congruence|].
        apply Forall_cons in Hb as [Hb _]. by rewrite Ev in Hb.
Qed.
End properties.

(** ** Examples *)

(** A destination given as an octal literal with a trailing dot. *)
Lemma destination_roundtrip_witness :
  let d := {| d_Network := "tcp"; d_Host := "169.254.169.254"; d_Port := 8080 |} in
  New id "tcp" " 0251.254.43518. " 8080 = Ok d /\ authority d = "169.254.169.254:8080" /\
  ParseHostPort id "tcp" (authority d) = Ok d /\ New id "tcp" (d_Host d) 8080 = Ok d.
Proof.
  intros d. split; [by vm_compute|]. split; [by vm_compute|].
  apply (destination_roundtrip id "tcp" " 0251.254.43518. " 8080 d); [by vm_compute|lia|left; by vm_compute].
Defined.

Lemma floor_any_spelling_witness :
  let d := {| d_Network := "tcp"; d_Host := "fd00:ec2::254"; d_Port := 80 |} in
  NewGrant id "tcp" "FD00:0EC2:0::254%eth0" 80 = Err ErrGrantFloorViolation /\
  dc_Effect (Evaluate ∅ d) = EffectDeny.
Proof.
  intros d. destruct (floor_any_spelling id "tcp" "FD00:0EC2:0::254%eth0" 80 d [253; 0; 14; 194; 0; 0; 0; 0; 0; 0; 0; 0; 0; 0; 2; 84])
    as [H1 H2]; [by vm_compute|by vm_compute|]. split; [rewrite H1; by vm_compute|rewrite H2; by vm_compute].
Defined.

Lemma spellings_agree_witness :
  let d := {| d_Network := "udp"; d_Host := "10.0.0.1"; d_Port := 53 |} in
  d = d <-> "udp" = "udp" /\ 53 = 53 /\ ParseIPLiteral (NormalizeHost id "0xA000001") = ParseIPLiteral (NormalizeHost id "::ffff:10.0.0.1").
Proof.
  intros d. apply (spellings_agree id "udp" "0xA000001" 53 d "udp" "::ffff:10.0.0.1" 53 d); by vm_compute.
Defined.

Lemma grants_exact_witness :
  let d := {| d_Network := "tcp"; d_Host := "kube.internal"; d_Port := 6443 |} in
  let set := {[ "tcp://kube.internal:6443" := {| g_dest := d |} ]} in
  Contains set d = true <-> exists g, g ∈ [{| g_dest := d |}] /\ revalidate id g = Ok {| g_dest := d |}.
Proof.
  intros d set. assert (NewGrantSet id [{| g_dest := d |}] = Ok set) as H by (vm_compute; reflexivity).
  assert (Forall (fun g => 0 <= d_Port (g_dest g)) [{| g_dest := d |}]) as Hp by (apply Forall_cons_2; [cbn; lia|apply Forall_nil_2]).
  exact (proj1 (grants_exact id _ set d H Hp eq_refl ltac:(done))).
Defined.

(** [New] drops one trailing dot, although the documentation of [Destination]
    excludes any: a name with two keeps one, normalising it again gives another
    name, and a set of grants therefore authorises another destination than the
    grant it was given. *)
Example trailing_dots :
  let dots := {| d_Network := "tcp"; d_Host := "example.com."; d_Port := 443 |} in
  let bare := {| d_Network := "tcp"; d_Host := "example.com"; d_Port := 443 |} in
  New id "tcp" "example.com.." 443 = Ok dots /\ New id "tcp" (d_Host dots) 443 = Ok bare /\
  match NewGrant id "tcp" "example.com.." 443 with
  | Ok g => match NewGrantSet id [g] with
            | Ok set => Contains set dots = false /\ Contains set bare = true
            | Err _ => False end
  | Err _ => False
  end.
Proof. by vm_compute. Qed.
