(* ===== verification/Spelling.v ===== *)
(** * One address, whatever its spelling

    The host of a request is read twice: [NormalizeHost] folds it to the form a
    destination stores, and [ParseIPLiteral] decides whether it is an address. The
    two trim, strip the zone and drop the root dot in different orders, and only
    one of them folds the case. This file proves that the order does not matter to
    an address: a host that is a literal is still that literal after it has been
    normalised. *)

From S2P Require Import Prelude GoStrings GoNet Destination.
Local Open Scope Z_scope.

(** ** Folding the case of ASCII *)

Definition lower (s : string) : string := string_of_list_ascii (Strings.ascii_lower <$> Strings.bytes_of s).

Lemma lower_cons c s : lower (String c s) = String (Strings.ascii_lower c) (lower s).
Proof. reflexivity. Qed.

Lemma lower_nil : lower "" = "".
Proof. reflexivity. Qed.

Lemma lower_empty s : lower s = "" <-> s = "".
Proof. by destruct s. Qed.

Lemma ToLower_ascii u s : Forall (fun c => N_of_ascii c < 128)%N (Strings.bytes_of s) -> Strings.ToLower u s = lower s.
Proof.
  intros H. unfold Strings.ToLower. assert (Strings.is_ascii s = true) as ->; [|done].
  apply forallb_forall. intros c Hc%list_elem_of_In. apply bool_decide_eq_true. by eapply Forall_forall in H.
Qed.

(** Folding keeps the bytes that the parsers look at. *)
Definition lower_test (c : ascii) : bool :=
  bool_decide (Net.digit_value (Strings.ascii_lower c) = Net.digit_value c) &&
  forallb (fun d => eqb (bool_decide (Strings.ascii_lower c = d)) (bool_decide (c = d))) ["."; ":"; "%"; "0"]%char &&
  eqb (bool_decide (Strings.ascii_lower c = "x"%char)) (bool_decide (c = "x"%char) || bool_decide (c = "X"%char)) &&
  negb (bool_decide (Strings.ascii_lower c = "X"%char)).

Lemma lower_test_pass c : lower_test c = true.
Proof. destruct c as [[] [] [] [] [] [] [] []]; vm_compute; reflexivity. Qed.

Lemma lower_digit c : Net.digit_value (Strings.ascii_lower c) = Net.digit_value c.
Proof. pose proof (lower_test_pass c) as H. unfold lower_test in H. rewrite !andb_true_iff, bool_decide_eq_true in H. tauto. Qed.

Lemma lower_mark c d : d ∈ ["."; ":"; "%"; "0"]%char -> Strings.ascii_lower c = d <-> c = d.
Proof.
  intros Hd. pose proof (lower_test_pass c) as H. unfold lower_test in H. rewrite !andb_true_iff in H. destruct H as [[[_ H] _] _].
  rewrite forallb_forall in H. specialize (H d). rewrite <- list_elem_of_In in H. specialize (H Hd). apply eqb_prop in H.
  destruct (bool_decide_reflect (Strings.ascii_lower c = d)), (bool_decide_reflect (c = d)); done || tauto.
Qed.

Lemma lower_x c : Strings.ascii_lower c = "x"%char <-> c = "x"%char \/ c = "X"%char.
Proof.
  pose proof (lower_test_pass c) as H. unfold lower_test in H. rewrite !andb_true_iff in H. destruct H as [[_ H] _].
  apply eqb_prop in H. destruct (bool_decide_reflect (Strings.ascii_lower c = "x"%char)), (bool_decide_reflect (c = "x"%char)),
    (bool_decide_reflect (c = "X"%char)); (discriminate H || tauto).
Qed.

Lemma lower_not_X c : Strings.ascii_lower c <> "X"%char.
Proof.
  pose proof (lower_test_pass c) as H. unfold lower_test in H. rewrite andb_true_iff in H. destruct H as [_ H].
  by apply negb_true_iff, bool_decide_eq_false in H.
Qed.

Ltac marks := repeat (apply list_elem_of_here || apply list_elem_of_further).

(** [byte_cases c]: is [c] one of the bytes the parsers match on? *)
Ltac is_byte c b := destruct (decide (c = b)) as [->|?].

Lemma lower_decide (A : Type) c d (x y : A) :
  d ∈ ["."; ":"; "%"; "0"]%char ->
  (if decide (Strings.ascii_lower c = d) then x else y) = (if decide (c = d) then x else y).
Proof. intros Hd. pose proof (lower_mark c d Hd). destruct (decide (c = d)), (decide (Strings.ascii_lower c = d)); tauto. Qed.

Lemma digits_lower base s acc : Net.digits base (lower s) acc = Net.digits base s acc.
Proof.
  revert acc. induction s as [|c s IH]; intros acc; [done|]. rewrite lower_cons. cbn [Net.digits]. rewrite lower_digit.
  destruct (Net.digit_value c); [|done]. case_decide; [apply IH|done].
Qed.

Lemma ParseUint_lower s base bits : Net.ParseUint (lower s) base bits = Net.ParseUint s base bits.
Proof.
  unfold Net.ParseUint. rewrite digits_lower. pose proof (lower_empty s). destruct (decide (s = "")), (decide (lower s = "")); tauto.
Qed.

Lemma Split_lower s d : d ∈ ["."; ":"; "%"; "0"]%char -> Strings.Split (lower s) d = lower <$> Strings.Split s d.
Proof.
  intros Hd. induction s as [|c s IH]; [done|]. rewrite lower_cons. cbn [Strings.Split]. rewrite lower_decide, IH by done.
  case_decide; [done|]. by destruct (Strings.Split s d).
Qed.

Lemma ContainsByte_lower s d : d ∈ ["."; ":"; "%"; "0"]%char -> Strings.ContainsByte (lower s) d = Strings.ContainsByte s d.
Proof. intros Hd. induction s as [|c s IH]; [done|]. rewrite lower_cons. cbn [Strings.ContainsByte]. by rewrite lower_decide, IH. Qed.

Lemma TrimSuffix_lower s d : d ∈ ["."; ":"; "%"; "0"]%char -> Strings.TrimSuffix (lower s) d = lower (Strings.TrimSuffix s d).
Proof.
  intros Hd. induction s as [|c [|c' s] IH]; [done| |].
  - cbn. rewrite lower_decide by done. by case_decide.
  - change (Strings.TrimSuffix (String c (String c' s)) d) with (String c (Strings.TrimSuffix (String c' s) d)).
    rewrite (lower_cons c (Strings.TrimSuffix _ _)), <- IH. done.
Qed.

(** ** The parsers do not see the case *)

Lemma parseOctet_nonzero c f :
  c <> "0"%char ->
  Net.parseOctet (String c f) =
    match Net.ParseUint (String c f) 10 64 with Some n => if decide (n <= 255) then Some n else None | None => None end.
Proof. intros Hc. unfold Net.parseOctet. by destruct c as [[] [] [] [] [] [] [] []]. Qed.

Lemma parseOctet_lower f : Net.parseOctet (lower f) = Net.parseOctet f.
Proof.
  pose proof (ParseUint_lower f 10 64) as E. destruct f as [|c f]; [done|]. rewrite lower_cons in *.
  destruct (decide (c = "0"%char)) as [->|Hc].
  - change (Strings.ascii_lower "0") with "0"%char in *. destruct f; [done|]. by rewrite lower_cons.
  - assert (Strings.ascii_lower c <> "0"%char) as Hl by (rewrite lower_mark; [done|marks]).
    by rewrite (parseOctet_nonzero _ _ Hc), (parseOctet_nonzero _ _ Hl), E.
Qed.

Lemma mapM_lower (l : list string) : mapM Net.parseOctet (lower <$> l) = mapM Net.parseOctet l.
Proof. induction l as [|f l IH]; [done|]. cbn. by rewrite parseOctet_lower, IH. Qed.

Lemma parseIPv4Fields_lower s : Net.parseIPv4Fields (lower s) = Net.parseIPv4Fields s.
Proof.
  unfold Net.parseIPv4Fields. rewrite Split_lower by marks. pose proof (mapM_lower (Strings.Split s ".")) as E.
  by destruct (Strings.Split s ".") as [|? [|? [|? [|? [|]]]]].
Qed.

Lemma hexPrefix_lower s acc off :
  Net.hexPrefix (lower s) acc off = (fun '(a, o, r) => (a, o, lower r)) <$> Net.hexPrefix s acc off.
Proof.
  revert acc off. induction s as [|c s IH]; intros acc off; [done|]. rewrite lower_cons. cbn [Net.hexPrefix].
  rewrite lower_digit. destruct (Net.digit_value c); [|done]. case_decide; [done|apply IH].
Qed.

(** The loop of the IPv6 parser, with its patterns as decisions. *)
Lemma parseGroups_S fuel bs ell s :
  Net.parseGroups (S fuel) bs ell s =
    match Net.hexPrefix s 0 0 with
    | None => None
    | Some (acc, off, rest) =>
        if decide (off = 0%nat) then None
        else
          match rest with
          | EmptyString => Some (bs ++ Net.group acc, ell, "")
          | String c t =>
              if decide (c = "."%char) then
                if decide (ell = None /\ length bs <> 12%nat) then None
                else if decide (16 < length bs + 4)%nat then None
                else ip4 ← Net.parseIPv4Fields s; Some (bs ++ ip4, ell, "")
              else if decide (c = ":"%char) then
                match t with
                | EmptyString => None
                | String c' s' =>
                    if decide (c' = ":"%char) then
                      match ell with
                      | Some _ => None
                      | None =>
                          if decide (s' = "") then Some (bs ++ Net.group acc, Some (length (bs ++ Net.group acc)), "")
                          else Net.parseGroups fuel (bs ++ Net.group acc) (Some (length (bs ++ Net.group acc))) s'
                      end
                    else Net.parseGroups fuel (bs ++ Net.group acc) ell t
                end
              else None
          end
    end.
Proof.
  cbn [Net.parseGroups]. destruct (Net.hexPrefix s 0 0) as [[[a o] r]|]; [|done]. cbn [mbind option_bind].
  destruct (decide (o = 0%nat)); [done|]. destruct r as [|c t]; [done|].
  destruct (decide (c = "."%char)) as [->|]; [done|].
  destruct (decide (c = ":"%char)) as [->|]; [|by destruct c as [[] [] [] [] [] [] [] []]].
  destruct t as [|c' s']; [done|].
  destruct (decide (c' = ":"%char)) as [->|]; [done|by destruct c' as [[] [] [] [] [] [] [] []]].
Qed.

Lemma parseGroups_lower fuel bs ell s :
  Net.parseGroups fuel bs ell (lower s) = (fun '(r, e, rest) => (r, e, lower rest)) <$> Net.parseGroups fuel bs ell s.
Proof.
  revert bs ell s. induction fuel as [|fuel IH]; intros bs ell s; [done|]. rewrite !parseGroups_S, hexPrefix_lower, parseIPv4Fields_lower.
  destruct (Net.hexPrefix s 0 0) as [[[a o] r]|]; [|done]. cbn [fmap option_fmap option_map].
  destruct (decide (o = 0%nat)); [done|]. destruct r as [|c t]; [done|]. rewrite lower_cons, !lower_decide by marks.
  destruct (decide (c = "."%char)).
  { destruct (decide (ell = None /\ _)); [done|]. destruct (decide (16 < _)%nat); [done|]. by destruct (Net.parseIPv4Fields s). }
  destruct (decide (c = ":"%char)); [|done]. destruct t as [|c' s']; [done|]. rewrite lower_cons, lower_decide by marks.
  destruct (decide (c' = ":"%char)); [|by rewrite <- lower_cons, IH].
  destruct ell; [done|]. pose proof (lower_empty s') as Ee.
  destruct (decide (s' = "")), (decide (lower s' = "")); (done || tauto || apply IH).
Qed.

Lemma expand_lower r e rest : Net.expand (r, e, lower rest) = Net.expand (r, e, rest).
Proof. cbn. pose proof (lower_empty rest). destruct (decide (rest <> "")), (decide (lower rest <> "")); tauto. Qed.

Lemma groups_lower ell s :
  (r ← Net.parseGroups 8 [] ell (lower s); Net.expand r) = (r ← Net.parseGroups 8 [] ell s; Net.expand r).
Proof.
  rewrite parseGroups_lower. destruct (Net.parseGroups 8 [] ell s) as [[[r e] rest]|]; [|done]. apply expand_lower.
Qed.

(** The same for the beginning of the address. *)
Lemma parseIPv6_view s :
  Net.parseIPv6 s =
    match s with
    | String c (String c' t) =>
        if decide (c = ":"%char /\ c' = ":"%char) then
          match t with EmptyString => Some (Net.zeros 16) | _ => r ← Net.parseGroups 8 [] (Some 0%nat) t; Net.expand r end
        else r ← Net.parseGroups 8 [] None s; Net.expand r
    | _ => r ← Net.parseGroups 8 [] None s; Net.expand r
    end.
Proof.
  unfold Net.parseIPv6. destruct s as [|c [|c' t]]; [done|by destruct c as [[] [] [] [] [] [] [] []]|].
  destruct (decide (c = ":"%char /\ c' = ":"%char)) as [[-> ->]|Hn]; [by destruct t|].
  destruct (decide (c = ":"%char)) as [->|]; [|by destruct c as [[] [] [] [] [] [] [] []]].
  destruct (decide (c' = ":"%char)) as [->|]; [tauto|by destruct c' as [[] [] [] [] [] [] [] []]].
Qed.

Lemma parseIPv6_lower s : Net.parseIPv6 (lower s) = Net.parseIPv6 s.
Proof.
  rewrite !parseIPv6_view. pose proof (groups_lower None s) as E. destruct s as [|c [|c' t]]; [done|exact E|]. rewrite !lower_cons in *.
  assert (Strings.ascii_lower c = ":"%char /\ Strings.ascii_lower c' = ":"%char <-> c = ":"%char /\ c' = ":"%char) as Ec
    by (rewrite !lower_mark by marks; done).
  destruct (decide (c = ":"%char /\ c' = ":"%char)), (decide (Strings.ascii_lower c = ":"%char /\ _)); [|tauto|tauto|exact E].
  destruct t as [|c'' t]; [done|]. exact (groups_lower (Some 0%nat) (String c'' t)).
Qed.

Lemma family_lower s : Net.family (lower s) = Net.family s.
Proof.
  induction s as [|c s IH]; [done|]. rewrite lower_cons. cbn [Net.family]. rewrite IH.
  pose proof (lower_mark c "."%char ltac:(marks)). pose proof (lower_mark c ":"%char ltac:(marks)). pose proof (lower_mark c "%"%char ltac:(marks)).
  destruct (decide (c = "." \/ c = ":" \/ c = "%")%char) as [Hc|Hc].
  - rewrite decide_True by tauto. by destruct Hc as [-> |[-> | ->]].
  - by rewrite decide_False by tauto.
Qed.

Lemma ParseIP_lower s : Net.ParseIP (lower s) = Net.ParseIP s.
Proof. unfold Net.ParseIP. by rewrite family_lower, parseIPv4Fields_lower, parseIPv6_lower, ContainsByte_lower by marks. Qed.

(** The notation of a component, with the patterns as decisions. *)
Lemma componentBase_view part :
  componentBase part =
    match part with
    | String c0 (String c rest) =>
        if decide (c0 = "0"%char) then if decide (c = "x"%char \/ c = "X"%char) then (16, rest) else (8, String c rest) else (10, part)
    | _ => (10, part)
    end.
Proof.
  unfold componentBase. destruct part as [|c0 [|c rest]]; [done|by destruct c0 as [[] [] [] [] [] [] [] []]|].
  destruct (decide (c0 = "0"%char)) as [->|]; [|by destruct c0 as [[] [] [] [] [] [] [] []]].
  destruct (decide (c = "x" \/ c = "X")%char) as [[-> | ->]|Hn]; [done|done|].
  destruct c as [[] [] [] [] [] [] [] []]; (done || tauto).
Qed.

Lemma component_lower part bits : parseInetAtonComponent (lower part) bits = parseInetAtonComponent part bits.
Proof.
  unfold parseInetAtonComponent. rewrite !componentBase_view. pose proof (lower_empty part).
  destruct (decide (part = "")), (decide (lower part = "")); [done|tauto|tauto|].
  assert (forall ds base, (if decide (lower ds = "") then None
      else match Net.ParseUint (lower ds) base 64 with
           | Some value => if decide (bits < 64 /\ value >= 2 ^ bits) then None else Some value
           | None => None end) =
      (if decide (ds = "") then None
      else match Net.ParseUint ds base 64 with
           | Some value => if decide (bits < 64 /\ value >= 2 ^ bits) then None else Some value
           | None => None end)) as E.
  { intros ds base. rewrite ParseUint_lower. pose proof (lower_empty ds). destruct (decide (ds = "")), (decide (lower ds = "")); tauto. }
  destruct part as [|c0 [|c rest]]; [done|exact (E (String c0 "") 10)|]. rewrite !lower_cons, lower_decide by marks.
  destruct (decide (c0 = "0"%char)); [|exact (E (String c0 (String c rest)) 10)].
  pose proof (lower_x c) as Hx. pose proof (lower_not_X c) as HX.
  destruct (decide (c = "x" \/ c = "X")%char), (decide (Strings.ascii_lower c = "x" \/ Strings.ascii_lower c = "X")%char);
    [apply E|tauto|tauto|exact (E (String c rest) 8)].
Qed.

Lemma nonStandard_lower part : nonStandard (lower part) = nonStandard part.
Proof.
  assert (forall p, nonStandard p = match p with String c (String _ _) => bool_decide (c = "0"%char) | _ => false end) as V.
  { intros [|c [|c' p]]; [done|by destruct c as [[] [] [] [] [] [] [] []]|]. by destruct c as [[] [] [] [] [] [] [] []]. }
  rewrite !V. destruct part as [|c [|c' p]]; [done|done|]. rewrite !lower_cons. pose proof (lower_mark c "0"%char ltac:(marks)).
  destruct (bool_decide_reflect (c = "0"%char)); [by rewrite bool_decide_eq_true_2 by tauto|by rewrite bool_decide_eq_false_2 by tauto].
Qed.

Lemma parseAlternativeIP_lower s : parseAlternativeIP (lower s) = parseAlternativeIP s.
Proof.
  unfold parseAlternativeIP. pose proof (lower_empty s). destruct (decide (s = "")), (decide (lower s = "")); [done|tauto|tauto|].
  rewrite ContainsByte_lower, component_lower by marks. destruct (Strings.ContainsByte s "."); [|done].
  unfold parseDottedInetAton. rewrite Split_lower by marks.
  destruct (Strings.Split s ".") as [|a [|b [|c [|d [|]]]]]; try done; cbn [fmap list_fmap existsb]; by rewrite !component_lower, ?nonStandard_lower.
Qed.

(** A host without spaces, zone and root dot, as [ParseIPLiteral] reads it. *)
Definition literal (q : string) : option Net.IP :=
  NormalizeIP (match Net.ParseIP q with Some ip => Some ip | None => parseAlternativeIP q end).

Lemma literal_lower q : literal (lower q) = literal q.
Proof. unfold literal. by rewrite ParseIP_lower, parseAlternativeIP_lower. Qed.

(** ** What a literal is made of *)

Definition lit_char (c : ascii) : Prop := is_Some (Net.digit_value c) \/ c ∈ ["x"; "X"; ":"; "."]%char.

(** Such bytes, the last not being a dot. *)
Definition shaped (s : string) : Prop := Forall lit_char (Strings.bytes_of s) /\ Strings.TrimSuffix s "." = s.

(** A nonempty piece between dots. *)
Definition piece (s : string) : Prop :=
  s <> "" /\ Forall (fun c => lit_char c /\ c <> "."%char) (Strings.bytes_of s).

Lemma digit_value_dot c d : Net.digit_value c = Some d -> lit_char c /\ c <> "."%char.
Proof. intros E. split; [left; by rewrite E|]. by intros ->. Qed.

Lemma piece_shaped s : piece s -> shaped s.
Proof.
  intros [_ H]. split; [eapply Forall_impl; [exact H|]; by intros c [? _]|].
  apply Strings.TrimSuffix_free, Strings.ContainsByte_false. eapply Forall_impl; [exact H|]. by intros c [_ ?].
Qed.

Lemma shaped_app x y : Forall lit_char (Strings.bytes_of x) -> y <> "" -> shaped y -> shaped (x +:+ y).
Proof.
  intros Hx Hy [Hc Ht]. split; [by rewrite Strings.bytes_app, Forall_app|]. by rewrite Strings.TrimSuffix_app, Ht.
Qed.

Lemma shaped_Join l : Forall piece l -> shaped (Strings.Join l ".") /\ (l <> [] -> Strings.Join l "." <> "").
Proof.
  induction 1 as [|x l Hx Hl [IH IHn]]; [split; [split; [apply Forall_nil_2|done]|done]|]. destruct l as [|y l].
  - split; [by apply piece_shaped|by intros _; apply Hx].
  - change (Strings.Join (x :: y :: l) ".") with (x +:+ ("." +:+ Strings.Join (y :: l) ".")).
    split; [|intros _; destruct Hx as [Hx _]; by destruct x].
    apply shaped_app; [eapply Forall_impl; [apply Hx|]; by intros c [? _]|done|].
    apply shaped_app; [|by apply IHn|done]. apply Forall_cons_2; [right; marks|apply Forall_nil_2].
Qed.

Lemma shaped_Split s : Forall piece (Strings.Split s ".") -> shaped s.
Proof. intros H. rewrite <- (Strings.Join_Split s "."). by apply shaped_Join. Qed.

Lemma digits_chars base s acc n :
  Net.digits base s acc = Some n -> Forall (fun c => lit_char c /\ c <> "."%char) (Strings.bytes_of s).
Proof.
  revert acc. induction s as [|c s IH]; intros acc H; [apply Forall_nil_2|]. cbn [Net.digits] in H.
  destruct (Net.digit_value c) as [d|] eqn:E; [|done]. destruct (decide (d < base)); [|done].
  apply Forall_cons_2; [by eapply digit_value_dot|by eapply IH].
Qed.

Lemma ParseUint_piece s base bits n : Net.ParseUint s base bits = Some n -> piece s.
Proof.
  unfold Net.ParseUint. destruct (decide (s = "")); [done|]. destruct (Net.digits base s 0) eqn:E; [|done].
  intros _. split; [done|by eapply digits_chars].
Qed.

Lemma parseOctet_piece f n : Net.parseOctet f = Some n -> piece f.
Proof.
  intros H. unfold Net.parseOctet in H.
  assert (is_Some (Net.ParseUint f 10 64)) as [m Hm]; [|by eapply ParseUint_piece].
  destruct (Net.ParseUint f 10 64); [done|]. exfalso. revert H. repeat case_match; done.
Qed.

Lemma component_piece part bits v : parseInetAtonComponent part bits = Some v -> piece part.
Proof.
  unfold parseInetAtonComponent. destruct (decide (part = "")) as [|Hne]; [done|]. rewrite componentBase_view.
  assert (forall c, c ∈ ["0"; "x"; "X"]%char -> lit_char c /\ c <> "."%char) as Hlit.
  { intros c Hc. split; [|set_solver]. unfold lit_char. set_unfold in Hc. destruct Hc as [-> |[-> |[-> |[]]]]; [by left|right; marks..]. }
  assert (forall ds base, (if decide (ds = "") then None
      else match Net.ParseUint ds base 64 with
           | Some value => if decide (bits < 64 /\ value >= 2 ^ bits) then None else Some value
           | None => None end) = Some v -> piece ds) as E.
  { intros ds base. destruct (decide (ds = "")); [done|]. destruct (Net.ParseUint ds base 64) eqn:E; [|done]. intros _. by eapply ParseUint_piece. }
  destruct part as [|c0 [|c rest]]; [done|by apply (E _ 10)|].
  destruct (decide (c0 = "0"%char)) as [->|]; [|by apply (E _ 10)].
  destruct (decide (c = "x" \/ c = "X")%char) as [Hc|]; intros [_ H]%E; (split; [done|]).
  - apply Forall_cons_2; [apply Hlit; marks|]. apply Forall_cons_2; [apply Hlit; set_solver|done].
  - apply Forall_cons_2; [apply Hlit; marks|done].
Qed.

Lemma parseIPv4Fields_shaped s bs : Net.parseIPv4Fields s = Some bs -> shaped s.
Proof.
  unfold Net.parseIPv4Fields. intros H. apply shaped_Split. destruct (Strings.Split s ".") as [|a [|b [|c [|d [|]]]]]; try done.
  apply mapM_Some in H. clear -H. induction H as [|f n fs ns Hf H IH]; [apply Forall_nil_2|].
  apply Forall_cons_2; [by eapply parseOctet_piece|done].
Qed.

Lemma parseAlternativeIP_shaped s ip : parseAlternativeIP s = Some ip -> shaped s.
Proof.
  unfold parseAlternativeIP, parseDottedInetAton. destruct (decide (s = "")); [done|]. destruct (Strings.ContainsByte s ".").
  - intros H. apply shaped_Split. destruct (Strings.Split s ".") as [|a [|b [|c [|d [|]]]]]; try done;
      repeat (apply bind_Some in H as (? & ?%component_piece & H)); repeat apply Forall_cons_2; (done || apply Forall_nil_2).
  - intros (v & E & _)%fmap_Some_1. apply piece_shaped. by eapply component_piece.
Qed.

Lemma hexPrefix_split s acc off a o r :
  Net.hexPrefix s acc off = Some (a, o, r) ->
  exists pre, s = pre +:+ r /\ Forall (fun c => lit_char c /\ c <> "."%char) (Strings.bytes_of pre).
Proof.
  revert acc off. induction s as [|c s IH]; intros acc off H; cbn [Net.hexPrefix] in H.
  - injection H as <- <- <-. exists "". split; [done|apply Forall_nil_2].
  - destruct (Net.digit_value c) as [d|] eqn:E; [|injection H as <- <- <-; exists ""; split; [done|apply Forall_nil_2]].
    destruct (decide (3 < off)%nat); [done|]. apply IH in H as (pre & -> & Hp). exists (String c pre).
    split; [done|]. apply Forall_cons_2; [by eapply digit_value_dot|done].
Qed.

Lemma shaped_colon t : shaped t -> shaped (String ":" t).
Proof.
  intros H. destruct t as [|c t]; [split; [apply Forall_cons_2; [right; marks|apply Forall_nil_2]|done]|].
  change (String ":" (String c t)) with (":" +:+ String c t). apply shaped_app; [|done|done].
  apply Forall_cons_2; [right; marks|apply Forall_nil_2].
Qed.

Lemma parseGroups_shaped fuel bs ell s r e :
  Net.parseGroups fuel bs ell s = Some (r, e, "") -> shaped s.
Proof.
  revert bs ell s. induction fuel as [|fuel IH]; intros bs ell s; [by intros [= _ _ ->]|]. rewrite parseGroups_S.
  destruct (Net.hexPrefix s 0 0) as [[[a o] t]|] eqn:E; [|done]. apply hexPrefix_split in E as (pre & -> & Hp).
  destruct (decide (o = 0%nat)); [done|]. assert (Forall lit_char (Strings.bytes_of pre)) as Hc
    by (eapply Forall_impl; [exact Hp|]; by intros c [? _]).
  destruct t as [|c t]; [intros _; rewrite Strings.app_empty; destruct pre; [split; [apply Forall_nil_2|done]|by apply piece_shaped]|].
  destruct (decide (c = "."%char)).
  { destruct (decide (ell = None /\ _)); [done|]. destruct (decide (16 < _)%nat); [done|].
    destruct (Net.parseIPv4Fields _) as [ip4|] eqn:E4; [|done]. intros _. by eapply parseIPv4Fields_shaped. }
  destruct (decide (c = ":"%char)) as [->|]; [|done]. intros H. apply shaped_app; [done|done|]. apply shaped_colon.
  destruct t as [|c' s']; [done|]. destruct (decide (c' = ":"%char)) as [->|]; [|by apply IH in H].
  destruct ell; [done|]. apply shaped_colon. destruct (decide (s' = "")) as [->|]; [split; [apply Forall_nil_2|done]|by apply IH in H].
Qed.

Lemma groups_shaped ell s ip : (r ← Net.parseGroups 8 [] ell s; Net.expand r) = Some ip -> shaped s.
Proof.
  destruct (Net.parseGroups 8 [] ell s) as [[[r e] rest]|] eqn:E; [|done]. cbn [mbind option_bind Net.expand].
  destruct (decide (rest <> "")) as [|Hr]; [done|]. intros _. assert (rest = "") as -> by (by destruct rest; [|destruct Hr]).
  by eapply parseGroups_shaped.
Qed.

Lemma ParseIP_shaped s ip : Net.ParseIP s = Some ip -> shaped s.
Proof.
  unfold Net.ParseIP. intros H.
  assert (is_Some (Net.parseIPv4Fields s) \/ is_Some (Net.parseIPv6 s)) as [[x Hx]|[x Hx]].
  { destruct (Net.parseIPv4Fields s); [by left|]. right. destruct (Net.parseIPv6 s); [done|]. exfalso. revert H. repeat case_match; done. }
  - by eapply parseIPv4Fields_shaped.
  - rewrite parseIPv6_view in Hx. destruct s as [|c [|c' t]]; [by eapply groups_shaped..|].
    destruct (decide (c = ":"%char /\ c' = ":"%char)) as [[-> ->]|]; [|by eapply groups_shaped].
    do 2 apply shaped_colon. destruct t; [split; [apply Forall_nil_2|done]|by eapply groups_shaped].
Qed.

Lemma literal_shaped q ip : literal q = Some ip -> shaped q.
Proof.
  unfold literal, NormalizeIP. intros (x & H & _)%fmap_Some_1. destruct (Net.ParseIP q) eqn:E; [by eapply ParseIP_shaped|].
  by eapply parseAlternativeIP_shaped.
Qed.

(** ** Trimming, in either order *)

Lemma lit_char_lower c : lit_char c -> lit_char (Strings.ascii_lower c).
Proof.
  intros [H|H]; [left; by rewrite lower_digit|right]. set_unfold in H. destruct H as [-> |[-> |[-> |[-> |[]]]]]; vm_compute; marks.
Qed.

Lemma lit_char_name c : lit_char c -> Strings.printable c /\ (N_of_ascii c < 128)%N /\ c <> "%"%char.
Proof.
  intros H. split; [|split].
  - unfold Strings.printable. destruct H as [[d H]|H].
    + unfold Net.digit_value in H. repeat (destruct (decide _); [lia|]). done.
    + set_unfold in H. destruct H as [-> |[-> |[-> |[-> |[]]]]]; vm_compute; done.
  - destruct H as [[d H]|H].
    + unfold Net.digit_value in H. repeat (destruct (decide _); [lia|]). done.
    + set_unfold in H. destruct H as [-> |[-> |[-> |[-> |[]]]]]; vm_compute; done.
  - intros ->. destruct H as [[d H]|H]; [done|]. set_solver.
Qed.

Lemma bytes_lower s : Strings.bytes_of (lower s) = Strings.ascii_lower <$> Strings.bytes_of s.
Proof. unfold lower. by rewrite list_ascii_of_string_of_list_ascii. Qed.

(** Case folding of what is left of a literal, with or without its root dot. *)
Lemma ParseIPLiteral_lower p ip :
  Forall lit_char (Strings.bytes_of p) -> literal (Strings.TrimSuffix p ".") = Some ip -> ParseIPLiteral (lower p) = Some ip.
Proof.
  intros Hp H. assert (Forall lit_char (Strings.bytes_of (lower p))) as Hl.
  { rewrite bytes_lower. apply Forall_fmap. eapply Forall_impl; [exact Hp|]. intros c. apply lit_char_lower. }
  unfold ParseIPLiteral. rewrite Strings.TrimSpace_printable.
  2:{ eapply Forall_impl; [exact Hl|]. intros c. apply lit_char_name. }
  unfold stripIPv6Zone. rewrite Strings.Split_free.
  2:{ apply Strings.ContainsByte_false. eapply Forall_impl; [exact Hl|]. intros c. apply lit_char_name. }
  change (default "" (head [lower p])) with (lower p). cbv zeta. rewrite TrimSuffix_lower by marks. fold (literal (lower (Strings.TrimSuffix p "."))). by rewrite literal_lower.
Qed.

Lemma zone_split t : stripIPv6Zone t = t \/ exists z, t = stripIPv6Zone t +:+ String "%" z.
Proof.
  unfold stripIPv6Zone. induction t as [|c t IH]; [by left|]. cbn [Strings.Split].
  destruct (decide (c = "%"%char)) as [->|]; [right; by exists t|]. pose proof (Strings.Split_nonempty t "%").
  destruct (Strings.Split t "%") as [|x xs]; [done|]. cbn in *. destruct IH as [-> |[z Hz]]; [by left|right; exists z].
  change (String c x +:+ String "%" z) with (String c (x +:+ String "%" z)). by rewrite <- Hz.
Qed.

Lemma TrimSuffix_cases s c : Strings.TrimSuffix s c = s \/ s = Strings.TrimSuffix s c +:+ String c "".
Proof.
  induction s as [|a [|b s] IH]; [by left| |].
  - cbn. destruct (decide (a = c)) as [->|]; [by right|by left].
  - change (Strings.TrimSuffix (String a (String b s)) c) with (String a (Strings.TrimSuffix (String b s) c)).
    destruct IH as [-> |IH]; [by left|right].
    change (String a (Strings.TrimSuffix (String b s) c) +:+ String c "") with (String a (Strings.TrimSuffix (String b s) c +:+ String c "")).
    by rewrite <- IH.
Qed.

(** A zone ends in something else than the root dot, or its dot is not the host's. *)
Lemma zone_then_dot t :
  Forall lit_char (Strings.bytes_of (stripIPv6Zone t)) ->
  shaped (Strings.TrimSuffix (stripIPv6Zone t) ".") ->
  Strings.TrimSuffix (stripIPv6Zone (Strings.TrimSuffix t ".")) "." = Strings.TrimSuffix (stripIPv6Zone t) "." /\
  Forall lit_char (Strings.bytes_of (stripIPv6Zone (Strings.TrimSuffix t "."))).
Proof.
  intros Hp [Hq Hd]. set (p := stripIPv6Zone t) in *. set (q := Strings.TrimSuffix p ".") in *.
  assert (forall s, Forall lit_char (Strings.bytes_of s) -> Strings.ContainsByte s "%" = false) as Hfree.
  { intros s Hs. apply Strings.ContainsByte_false. eapply Forall_impl; [exact Hs|]. intros c. apply lit_char_name. }
  destruct (zone_split t) as [E|[z E]]; fold p in E.
  - rewrite <- E. fold q. unfold stripIPv6Zone. rewrite Strings.Split_free by by apply Hfree.
    change (default "" (head [q])) with q. by rewrite Hd.
  - assert (stripIPv6Zone (Strings.TrimSuffix t ".") = p) as ->; [|done]. rewrite E, Strings.TrimSuffix_app by done.
    assert (exists z', Strings.TrimSuffix (String "%" z) "." = String "%" z') as [z' ->].
    { destruct z as [|c z]; [by exists ""|]. by exists (Strings.TrimSuffix (String c z) "."). }
    unfold stripIPv6Zone. rewrite Strings.Split_app by by apply Hfree. done.
Qed.

(** A literal stays the same literal when its host is normalised. *)
Lemma NormalizeHost_literal u h ip : ParseIPLiteral h = Some ip -> ParseIPLiteral (NormalizeHost u h) = Some ip.
Proof.
  unfold ParseIPLiteral at 1. cbv zeta. fold (literal (Strings.TrimSuffix (stripIPv6Zone (Strings.TrimSpace h)) ".")).
  set (t := Strings.TrimSpace h). intros H. pose proof (literal_shaped _ _ H) as Hs. pose proof Hs as [Hq _].
  assert (Forall lit_char (Strings.bytes_of (stripIPv6Zone t))) as Hp.
  { destruct (TrimSuffix_cases (stripIPv6Zone t) ".") as [E|E]; [by rewrite <- E|].
    rewrite E, Strings.bytes_app, Forall_app. split; [done|]. apply Forall_cons_2; [right; marks|apply Forall_nil_2]. }
  destruct (zone_then_dot t Hp Hs) as [E Hp']. unfold NormalizeHost. fold t. rewrite ToLower_ascii.
  - apply ParseIPLiteral_lower; [done|]. by rewrite E.
  - eapply Forall_impl; [exact Hp'|]. intros c. apply lit_char_name.
Qed.
