(* ===== verification/Cidr.v ===== *)
(** * Address ranges

    What the scanner uses of [net.IPNet] and [net.ParseCIDR], and the ranges that
    it always blocks ([coreInternalCIDRDefs] of [internal/scanner/core.go]). The
    lemma [floor_in_core] connects the two notions of a forbidden address: what is
    on the SSRF floor is in one of these ranges. *)

From S2P Require Import Prelude GoStrings GoNet Destination.
Local Open Scope Z_scope.

Module Cidr.

(** ** [net.IPNet] *)

Record IPNet := { n_IP : Net.IP; n_Mask : list Z }.

#[export] Instance IPNet_eq_dec : EqDecision IPNet.
Proof. solve_decision. Defined.

(** [networkNumberAndMask]: both empty when the lengths do not fit. *)
Definition networkNumberAndMask (n : IPNet) : list Z * list Z :=
  let ip := Net.canonical (n_IP n) in
  let m := n_Mask n in
  if decide (length ip = 4%nat) then
    if decide (length m = 4%nat) then (ip, m)
    else if decide (length m = 16%nat) then (ip, drop 12 m) else ([], [])
  else if decide (length ip = 16%nat /\ length m = 16%nat) then (ip, m) else ([], []).

Definition Contains (n : IPNet) (ip : Net.IP) : bool :=
  let '(nn, m) := networkNumberAndMask n in
  let ip := Net.canonical ip in
  bool_decide (length ip = length nn) &&
  forallb (fun '(a, (b, k)) => bool_decide (Z.land a k = Z.land b k)) (zip nn (zip ip m)).

(** [net.CIDRMask]: [ones] bits, then zeros, in [bytes] bytes. *)
Fixpoint CIDRMask (ones : Z) (bytes : nat) : list Z :=
  match bytes with
  | O => []
  | S bytes => Z.land (Z.lnot (Z.shiftr 255 (Z.max 0 (Z.min 8 ones)))) 255 :: CIDRMask (ones - 8) bytes
  end.

Definition Mask (ip : Net.IP) (m : list Z) : Net.IP := zip_with Z.land ip m.

(** [net.ParseCIDR], the network it returns. *)
Definition ParseCIDR (s : string) : option IPNet :=
  match Strings.Split s "/" with
  | [addr; mask] =>
      let size := match Net.family addr with Some "."%char => 4%nat | _ => 16%nat end in
      ip ← Net.ParseIP addr;
      n ← Net.ParseUint mask 10 24;
      if decide (8 * Z.of_nat size < n) then None
      else
        let m := CIDRMask n size in
        (* the address has sixteen bytes; a four-byte mask is for its last four *)
        Some {| n_IP := Mask (if decide (size = 4%nat) then drop 12 ip else ip) m; n_Mask := m |}
  | _ => None
  end.

Example parsed :
  ParseCIDR "172.16.0.0/12" = Some {| n_IP := [172; 16; 0; 0]; n_Mask := [255; 240; 0; 0] |} /\
  ParseCIDR "fc00::/7" = Some {| n_IP := 252 :: Net.zeros 15; n_Mask := 254 :: Net.zeros 15 |} /\
  ParseCIDR "10.1.2.3/33" = None /\ ParseCIDR "10.0.0.0" = None /\ ParseCIDR "fe80::1%eth0/64" = None /\
  (Contains {| n_IP := [172; 16; 0; 0]; n_Mask := [255; 240; 0; 0] |} [172; 31; 255; 255] = true) /\
  (Contains {| n_IP := [172; 16; 0; 0]; n_Mask := [255; 240; 0; 0] |} [172; 32; 0; 0] = false) /\
  (Contains {| n_IP := [172; 16; 0; 0]; n_Mask := [255; 240; 0; 0] |} (Net.IPv4 172 16 0 1) = true).
Proof. by vm_compute. Qed.

(** ** The ranges that are always blocked *)

Definition coreInternalCIDRDefs : list string :=
  ["0.0.0.0/8"; "127.0.0.0/8"; "10.0.0.0/8"; "172.16.0.0/12"; "192.168.0.0/16"; "169.254.0.0/16"; "168.63.129.16/32";
   "100.64.0.0/10"; "224.0.0.0/4"; "::/128"; "::1/128"; "fc00::/7"; "fe80::/10"; "ff00::/8"].

(** The compiled ranges; a definition that did not parse would stop the process,
    and none does. *)
Definition coreCIDRs : list IPNet := omap ParseCIDR coreInternalCIDRDefs.

Lemma coreCIDRs_all : mapM ParseCIDR coreInternalCIDRDefs = Some coreCIDRs.
Proof. vm_compute. reflexivity. Qed.

(** ** The floor lies in them *)

Definition in_core (ip : Net.IP) : bool := existsb (fun cidr => Contains cidr ip) coreCIDRs.

Lemma in_core_by ip s n : ParseCIDR s = Some n -> s ∈ coreInternalCIDRDefs -> Contains n ip = true -> in_core ip = true.
Proof.
  intros Hn Hs Hc. apply existsb_exists. exists n. split; [|done]. apply list_elem_of_In. unfold coreCIDRs.
  apply list_elem_of_omap. by exists s.
Qed.

(** The tests of a range against an address given byte by byte. *)
Lemma contains_view nn m ip :
  networkNumberAndMask {| n_IP := nn; n_Mask := m |} = (nn, m) ->
  Net.canonical ip = ip -> length ip = length nn ->
  Forall (fun '(a, (b, k)) => Z.land a k = Z.land b k) (zip nn (zip ip m)) -> Contains {| n_IP := nn; n_Mask := m |} ip = true.
Proof.
  intros Hn Hi Hl H. unfold Contains. rewrite Hn, Hi, bool_decide_eq_true_2 by done. cbn [andb].
  apply forallb_forall. intros [a [b k]] Hin%list_elem_of_In. apply bool_decide_eq_true.
  rewrite Forall_forall in H. exact (H _ Hin).
Qed.

Ltac bytewise := repeat first [apply Forall_nil_2 | apply Forall_cons_2; [rewrite ?Z.land_0_r; (done || lia)|]].

Lemma canonical_id ip : Net.ip_ok ip -> Net.canonical ip = ip.
Proof.
  intros [_ H]. unfold Net.canonical, Net.To4. destruct (decide (length ip = 4%nat)); [done|].
  destruct H as [?|[? ?]]; [done|]. by rewrite decide_False by tauto.
Qed.

Lemma IP_String_inj ip ip' : Net.ip_ok ip -> Net.ip_ok ip' -> Net.IP_String ip = Net.IP_String ip' -> ip = ip'.
Proof.
  intros H H' E. pose proof (Net.canonical_ParseIP_String ip H) as P. rewrite E, (Net.canonical_ParseIP_String ip' H') in P. by injection P.
Qed.

(** An address by a printed one. *)
Lemma printed_is ip s ip' : Net.ip_ok ip -> Net.IP_String ip = s -> Net.canonical <$> Net.ParseIP s = Some ip' -> ip = ip'.
Proof. intros H <- P. rewrite (Net.canonical_ParseIP_String ip H) in P. by injection P. Qed.

Ltac in_range s :=
  eapply (in_core_by _ s _ eq_refl);
    [unfold coreInternalCIDRDefs; repeat (apply list_elem_of_here || apply list_elem_of_further)|
     apply contains_view; [reflexivity|assumption|reflexivity|cbn [zip zip_with]; bytewise]].

Lemma four_bytes (ip : Net.IP) : length ip = 4%nat -> exists a b c d, ip = [a; b; c; d].
Proof. destruct ip as [|a [|b [|c [|d [|]]]]]; try done. by exists a, b, c, d. Qed.

Lemma floor4_in_core ip : Net.ip_ok ip -> length ip = 4%nat -> IsNonOverridableSSRFTarget (Some ip) = true -> in_core ip = true.
Proof.
  intros Hok Hl. unfold IsNonOverridableSSRFTarget, NormalizeIP. cbn [fmap option_fmap option_map].
  pose proof (canonical_id ip Hok) as Hc. rewrite Hc.
  unfold IsCloudMetadataIP, Net.IsLinkLocalUnicast, Net.IsLinkLocalMulticast, Net.IsInterfaceLocalMulticast, Net.IsMulticast,
    Net.IsUnspecified, Net.Equal. rewrite Hc. assert (Net.To4 ip = Some ip) as -> by (unfold Net.To4; by rewrite decide_True).
  destruct (four_bytes ip Hl) as (a & b & c & d & ->). cbn [Net.at_ lookup list_lookup from_option id].
  rewrite !orb_true_iff, !bool_decide_eq_true. intros [[[[[Hm|Hm]|Hm]|Hm]|Hm]|Hm].
  - set_unfold in Hm. destruct Hm as [Hm|[Hm|[Hm|[]]]]; (eapply printed_is in Hm; [|done|reflexivity]; injection Hm as -> -> -> ->).
    + in_range "169.254.0.0/16".
    + in_range "168.63.129.16/32".
    + in_range "100.64.0.0/10".
  - destruct Hm as [-> ->]. in_range "169.254.0.0/16".
  - destruct Hm as (-> & -> & ->). in_range "224.0.0.0/4".
  - by destruct Hm as [? _].
  - in_range "224.0.0.0/4".
  - destruct Hm as [Hm|Hm]; [|by vm_compute in Hm]. vm_compute in Hm. injection Hm as -> -> -> ->. in_range "0.0.0.0/8".
Qed.

Lemma sixteen_bytes (ip : Net.IP) :
  length ip = 16%nat ->
  exists b0 b1 b2 b3 b4 b5 b6 b7 b8 b9 b10 b11 b12 b13 b14 b15, ip = [b0; b1; b2; b3; b4; b5; b6; b7; b8; b9; b10; b11; b12; b13; b14; b15].
Proof.
  destruct ip as [|b0 [|b1 [|b2 [|b3 [|b4 [|b5 [|b6 [|b7 [|b8 [|b9 [|b10 [|b11 [|b12 [|b13 [|b14 [|b15 [|]]]]]]]]]]]]]]]]]; try done.
  by exists b0, b1, b2, b3, b4, b5, b6, b7, b8, b9, b10, b11, b12, b13, b14, b15.
Qed.

Lemma floor6_in_core ip : Net.ip_ok ip -> length ip = 16%nat -> IsNonOverridableSSRFTarget (Some ip) = true -> in_core ip = true.
Proof.
  intros Hok Hl. unfold IsNonOverridableSSRFTarget, NormalizeIP. cbn [fmap option_fmap option_map].
  pose proof (canonical_id ip Hok) as Hc. rewrite Hc.
  unfold IsCloudMetadataIP, Net.IsLinkLocalUnicast, Net.IsLinkLocalMulticast, Net.IsInterfaceLocalMulticast, Net.IsMulticast,
    Net.IsUnspecified, Net.Equal. rewrite Hc.
  assert (Net.To4 ip = None) as ->.
  { unfold Net.To4. destruct Hok as [_ [?|[_ ?]]]; [lia|]. rewrite decide_False by lia. by rewrite decide_False by tauto. }
  rewrite Hl. destruct (sixteen_bytes ip Hl) as (b0 & b1 & b2 & b3 & b4 & b5 & b6 & b7 & b8 & b9 & b10 & b11 & b12 & b13 & b14 & b15 & ->).
  cbn [Net.at_ lookup list_lookup from_option id].
  rewrite !orb_true_iff, !bool_decide_eq_true. intros [[[[[Hm|(_ & -> & Hm)]|(_ & -> & _)]|(_ & -> & _)]|(_ & ->)]|[Hm|Hm]].
  - set_unfold in Hm. destruct Hm as [Hm|[]]. eapply printed_is in Hm; [|done|reflexivity]. injection Hm as -> -> -> -> -> -> -> -> -> -> -> -> -> -> -> ->.
    in_range "fc00::/7".
  - in_range "fe80::/10".
  - in_range "ff00::/8".
  - in_range "ff00::/8".
  - in_range "ff00::/8".
  - by vm_compute in Hm.
  - injection Hm as -> -> -> -> -> -> -> -> -> -> -> -> -> -> -> ->. in_range "::/128".
Qed.

(** Every address of the floor is in a range that is always blocked. *)
Lemma floor_in_core ip : Net.ip_ok ip -> IsNonOverridableSSRFTarget (Some ip) = true -> in_core ip = true.
Proof. intros Hok. destruct (proj2 Hok) as [?|[? _]]; [by apply floor4_in_core|by apply floor6_in_core]. Qed.
End Cidr.
