(* ===== verification/Float64.v ===== *)
(** * Go's [float64]

    IEEE 754 binary64 with rounding to nearest even, by the executable
    specification [SpecFloat] of the Standard Library: a Go expression on
    [float64] operands is the operation of the same name on [float64]s here,
    rounded once. The untyped constants of the source are the quotients of two
    small integers, correctly rounded. *)

From Stdlib Require Export SpecFloat.
From S2P Require Import Prelude.
Local Open Scope Z_scope.

Module F64.

Definition prec : Z := 53.
Definition emax : Z := 1024.

Definition t : Type := spec_float.

Definition of_Z (z : Z) : t := binary_normalize prec emax z 0 false.
Definition add (x y : t) : t := SFadd prec emax x y.
Definition sub (x y : t) : t := SFsub prec emax x y.
Definition mul (x y : t) : t := SFmul prec emax x y.
Definition div (x y : t) : t := SFdiv prec emax x y.

(** The constant [a / b]. *)
Definition ratio (a b : Z) : t := div (of_Z a) (of_Z b).

Definition zero : t := of_Z 0.

(** Go's comparisons are false on NaN; [==] identifies the two zeros. *)
Definition eqb (x y : t) : bool := SFeqb x y.
Definition ltb (x y : t) : bool := SFltb x y.
Definition leb (x y : t) : bool := SFleb x y.

End F64.

#[export] Instance spec_float_eq_dec : EqDecision spec_float.
Proof. solve_decision. Defined.
