(* ===== verification/Config.v ===== *)
(** * Configuration: the constants and sections the modelled components read

    [internal/config/schema.go]. *)

From S2P Require Import Prelude Float64.
Local Open Scope Z_scope.

(** ** Action constants *)
Definition ActionBlock : string := "block".
Definition ActionRedirect : string := "redirect".
Definition ActionWarn : string := "warn".
Definition ActionAsk : string := "ask".
Definition ActionStrip : string := "strip".
Definition ActionForward : string := "forward".
Definition ActionAllow : string := "allow".
Definition ActionDefer : string := "defer".
Definition ActionStepUp : string := "step_up".
Definition ActionRedact : string := "redact".

(** ** Airlock tiers *)
Definition AirlockTierNone : string := "none".
Definition AirlockTierSoft : string := "soft".
Definition AirlockTierHard : string := "hard".
Definition AirlockTierDrain : string := "drain".

Record AirlockTimers := {
  SoftMinutes : Z;
  HardMinutes : Z;
  DrainMinutes : Z;
  DrainTimeoutSeconds : Z;
}.

(** ** Deferral resolution policy *)
Record DeferAllowOn := {
  PolicyPermits : bool;
  Approval : bool;
  ToolInventoryBaseline : bool;
}.

Record DeferStepUpOn := { ApprovalRequestsHuman : bool }.

Record DeferResolutionPolicy := {
  ResolverProfile : string;
  AllowOn : DeferAllowOn;
  StepUpOn : DeferStepUpOn;
}.

(** [DeferResolutionPolicy.HasAffirmativeSignal]; a nil policy is [None]. *)
Definition HasAffirmativeSignal (p : option DeferResolutionPolicy) : bool :=
  match p with
  | None => false
  | Some p => Approval (AllowOn p) || ToolInventoryBaseline (AllowOn p) || ApprovalRequestsHuman (StepUpOn p)
  end.

(** ** Escalation actions: a nil pointer is [None] *)
Record EscalationActions := {
  UpgradeWarn : option string;
  UpgradeAsk : option string;
  BlockAll : option bool;
}.

Record EscalationLevels := {
  Elevated : EscalationActions;
  High : EscalationActions;
  Critical : EscalationActions;
}.

Record AdaptiveEnforcement := {
  ae_Enabled : bool;
  ae_EscalationThreshold : F64.t;
  ae_DecayPerCleanRequest : F64.t;
  ae_LevelDurationSeconds : Z;
  ae_DeescalationCheckSeconds : Z;
  ae_CleanRequestsToDeescalate : Z;
  ae_SeverityWeightedSignals : bool;
  ae_CooperativeToolDownweight : bool;
  ae_Levels : EscalationLevels;
  ae_ExemptDomains : list string;
}.

#[export] Instance EscalationActions_eq_dec : EqDecision EscalationActions.
Proof. solve_decision. Defined.
#[export] Instance EscalationLevels_eq_dec : EqDecision EscalationLevels.
Proof. solve_decision. Defined.

(** ** Session profiling *)
Record SessionProfiling := {
  sp_Enabled : bool;
  sp_AnomalyAction : string;
  sp_DomainBurst : Z;
  sp_WindowMinutes : Z;
  sp_VolumeSpikeRatio : F64.t;
  sp_MaxSessions : Z;
  sp_SessionTTLMinutes : Z;
  sp_CleanupIntervalSeconds : Z;
}.

(** ** Airlock triggers *)
Record AirlockTriggers := {
  OnElevated : string;
  OnHigh : string;
  OnCritical : string;
}.

Record AirlockConfig := {
  al_Enabled : bool;
  al_Triggers : AirlockTriggers;
  al_Timers : AirlockTimers;
}.

(** ** Tool chain detection: a nil [max_gap] is [None] *)
Definition DefaultMaxGap : Z := 3.

Record ChainPattern := {
  cp_Name : string;
  cp_Sequence : list string;
  cp_Severity : string;
  cp_Action : string;
}.

Record ToolChainDetection := {
  tcd_Enabled : bool;
  tcd_Action : string;
  tcd_WindowSize : Z;
  tcd_WindowSeconds : Z;
  tcd_MaxGap : option Z;
  tcd_ToolCategories : gmap string (list string);
  tcd_PatternOverrides : gmap string string;
  tcd_CustomPatterns : list ChainPattern;
  tcd_SensitivityLabels : gmap string (list string);
}.

(** ** URL scanning *)
Definition ModeStrict : string := "strict".

Record Monitoring := {
  mo_MaxURLLength : Z;
  mo_MaxReqPerMinute : Z;
  mo_MaxDataPerMinute : Z;
  mo_Blocklist : list string;
}.

(** The parts of [Config] that the URL scanner reads; the entries of the map of host
    overrides are in the order in which they are ranged over. *)
Record ScanConfig := {
  sc_Mode : string;
  sc_APIAllowlist : list string;
  sc_Monitoring : Monitoring;
  sc_Internal : list string;
  sc_TrustedDomains : list string;
  sc_IPAllowlist : list string;
  sc_HostOverrides : list (string * list string);
}.

(** ** Forward proxy: nil pointers are [None] *)
Record ForwardProxy := { fp_SNIVerification : option bool; fp_SNIRequireTLS : option bool }.

Definition SNIVerificationEnabled (f : ForwardProxy) : bool := default true (fp_SNIVerification f).
Definition SNIRequireTLSEnabled (f : ForwardProxy) : bool := default false (fp_SNIRequireTLS f).
