(* ===== verification/Taint.v ===== *)
(** * Taint: the session risk state and the taint policy matrix

    [internal/session/risk.go], [internal/session/cross_agent.go] and
    [internal/decide/cross_agent.go]. The Go enumerations are unsigned bytes
    compared by value, so they are integers here, with the constants of the
    source; nothing below assumes a value to be one of the named ones. *)

From S2P Require Import Prelude.
Local Open Scope Z_scope.

(** ** The enumerations *)

Definition TaintLevel : Type := Z.
Definition TaintTrusted : TaintLevel := 0.
Definition TaintInternalGenerated : TaintLevel := 1.
Definition TaintAllowlistedReference : TaintLevel := 2.
Definition TaintExternalLowRisk : TaintLevel := 3.
Definition TaintExternalUntrusted : TaintLevel := 4.
Definition TaintExternalHostile : TaintLevel := 5.

Definition ActionClass : Type := Z.
Definition ActionClassRead : ActionClass := 0.
Definition ActionClassBrowse : ActionClass := 1.
Definition ActionClassSummarize : ActionClass := 2.
Definition ActionClassWrite : ActionClass := 3.
Definition ActionClassExec : ActionClass := 4.
Definition ActionClassSecret : ActionClass := 5.
Definition ActionClassPublish : ActionClass := 6.
Definition ActionClassNetwork : ActionClass := 7.

Definition ActionSensitivity : Type := Z.
Definition SensitivityNormal : ActionSensitivity := 0.
Definition SensitivityElevated : ActionSensitivity := 1.
Definition SensitivityProtected : ActionSensitivity := 2.

Definition AuthorityKind : Type := Z.
Definition AuthorityUnknown : AuthorityKind := 0.
Definition AuthorityExternal : AuthorityKind := 1.
Definition AuthorityPolicy : AuthorityKind := 2.
Definition AuthorityUserBroad : AuthorityKind := 3.
Definition AuthorityUserExact : AuthorityKind := 4.
Definition AuthorityOperatorOverride : AuthorityKind := 5.

Definition PolicyDecision : Type := Z.
Definition PolicyAllow : PolicyDecision := 0.
Definition PolicyWarn : PolicyDecision := 1.
Definition PolicyAsk : PolicyDecision := 2.
Definition PolicyBlock : PolicyDecision := 3.

Definition taintUnknownLabel : string := "unknown".
Definition taintProfileStrict : string := "strict".
Definition taintProfilePermissive : string := "permissive".
Definition defaultTaintSourceLimit : Z := 10.

(** [TaintLevel.String] and its siblings: the stable wire labels. *)
Definition TaintLevel_String (t : TaintLevel) : string :=
  if decide (t = TaintTrusted) then "trusted"
  else if decide (t = TaintInternalGenerated) then "internal_generated"
  else if decide (t = TaintAllowlistedReference) then "allowlisted_reference"
  else if decide (t = TaintExternalLowRisk) then "external_low_risk"
  else if decide (t = TaintExternalUntrusted) then "external_untrusted"
  else if decide (t = TaintExternalHostile) then "external_hostile"
  else taintUnknownLabel.

Definition ActionClass_String (a : ActionClass) : string :=
  if decide (a = ActionClassRead) then "read"
  else if decide (a = ActionClassBrowse) then "browse"
  else if decide (a = ActionClassSummarize) then "summarize"
  else if decide (a = ActionClassWrite) then "write"
  else if decide (a = ActionClassExec) then "exec"
  else if decide (a = ActionClassSecret) then "secret"
  else if decide (a = ActionClassPublish) then "publish"
  else if decide (a = ActionClassNetwork) then "network"
  else taintUnknownLabel.

Definition ActionSensitivity_String (s : ActionSensitivity) : string :=
  if decide (s = SensitivityNormal) then "normal"
  else if decide (s = SensitivityElevated) then "elevated"
  else if decide (s = SensitivityProtected) then "protected"
  else taintUnknownLabel.

Definition AuthorityKind_String (a : AuthorityKind) : string :=
  if decide (a = AuthorityUnknown) then "unknown"
  else if decide (a = AuthorityExternal) then "external"
  else if decide (a = AuthorityPolicy) then "policy"
  else if decide (a = AuthorityUserBroad) then "user_broad"
  else if decide (a = AuthorityUserExact) then "user_exact"
  else if decide (a = AuthorityOperatorOverride) then "operator_override"
  else taintUnknownLabel.

Definition PolicyDecision_String (d : PolicyDecision) : string :=
  if decide (d = PolicyAllow) then "allow"
  else if decide (d = PolicyWarn) then "warn"
  else if decide (d = PolicyAsk) then "ask"
  else if decide (d = PolicyBlock) then "block"
  else taintUnknownLabel.

(** ** Data *)

Record TaintSourceRef := {
  tsr_URL : string;
  tsr_Kind : string;
  tsr_Level : TaintLevel;
  tsr_Timestamp : Z;
  tsr_ReceiptID : string;
  tsr_MatchReason : string;
}.

Record SessionRisk := {
  sr_Level : TaintLevel;
  sr_Contaminated : bool;
  sr_LastExternalAt : Z;
  sr_LastExternalURL : string;
  sr_LastExternalKind : string;
  sr_PromptHit : bool;
  sr_MediaSeen : bool;
  sr_ApprovedUntil : Z;
  sr_Sources : list TaintSourceRef;
}.

Record RiskObservation := {
  obs_Source : TaintSourceRef;
  obs_MediaSeen : bool;
  obs_PromptHit : bool;
  obs_MaxSources : Z;
  obs_ApprovedUntil : Z;
}.

Record PolicyDecisionResult := { pdr_Decision : PolicyDecision; pdr_Reason : string }.
Record PolicyEvaluateOptions := { FailSafeClassification : bool; ClassificationConfident : bool }.

(** The zero [SessionRisk] of a fresh session. *)
Definition SessionRisk_zero : SessionRisk :=
  {| sr_Level := TaintTrusted; sr_Contaminated := false; sr_LastExternalAt := Time.zero;
     sr_LastExternalURL := ""; sr_LastExternalKind := ""; sr_PromptHit := false;
     sr_MediaSeen := false; sr_ApprovedUntil := Time.zero; sr_Sources := [] |}.

(** ** Observing *)

Definition maxTaintLevel (a b : TaintLevel) : TaintLevel := if decide (b > a) then b else a.

(** The slice of the newest [limit] sources; [limit] is positive where the code calls it. *)
Definition appendBoundedSource (sources : list TaintSourceRef) (source : TaintSourceRef)
    (limit : Z) : list TaintSourceRef :=
  let sources := sources ++ [source] in
  if decide (Z.of_nat (length sources) <= limit) then sources
  else drop (Z.to_nat (Z.of_nat (length sources) - limit)) sources.

(** The source as [Observe] records it: stamped when it has no time, raised to
    hostile by a prompt hit, which also gives it a default reason. *)
Definition effectiveSource (now : Z) (o : RiskObservation) : TaintSourceRef :=
  let s := obs_Source o in
  let ts := if Time.is_zero (tsr_Timestamp s) then now else tsr_Timestamp s in
  let level := if obs_PromptHit o then maxTaintLevel (tsr_Level s) TaintExternalHostile
               else tsr_Level s in
  let reason := if obs_PromptHit o
                then if decide (tsr_MatchReason s = "") then "prompt_injection_pattern"
                     else tsr_MatchReason s
                else tsr_MatchReason s in
  {| tsr_URL := tsr_URL s; tsr_Kind := tsr_Kind s; tsr_Level := level;
     tsr_Timestamp := ts; tsr_ReceiptID := tsr_ReceiptID s; tsr_MatchReason := reason |}.

Definition sourceLimit (o : RiskObservation) : Z :=
  if decide (obs_MaxSources o <= 0) then defaultTaintSourceLimit else obs_MaxSources o.

Definition recordsSource (s : TaintSourceRef) : bool :=
  bool_decide (tsr_URL s <> "" \/ tsr_Kind s <> "" \/ tsr_Level s <> TaintTrusted).

(** [SessionRisk.Observe]. *)
Definition Observe (now : Z) (o : RiskObservation) (sr : SessionRisk) : SessionRisk :=
  let source := effectiveSource now o in
  let external := decide (tsr_Level source >= TaintAllowlistedReference) in
  {| sr_Level := maxTaintLevel (sr_Level sr) (tsr_Level source);
     sr_Contaminated :=
       if decide (tsr_Level source >= TaintExternalUntrusted) then true else sr_Contaminated sr;
     sr_LastExternalAt := if external then tsr_Timestamp source else sr_LastExternalAt sr;
     sr_LastExternalURL := if external then tsr_URL source else sr_LastExternalURL sr;
     sr_LastExternalKind := if external then tsr_Kind source else sr_LastExternalKind sr;
     sr_PromptHit := sr_PromptHit sr || obs_PromptHit o;
     sr_MediaSeen := sr_MediaSeen sr || obs_MediaSeen o;
     sr_ApprovedUntil :=
       if negb (Time.is_zero (obs_ApprovedUntil o)) && bool_decide (obs_ApprovedUntil o > sr_ApprovedUntil sr)
       then obs_ApprovedUntil o else sr_ApprovedUntil sr;
     sr_Sources :=
       if recordsSource source then appendBoundedSource (sr_Sources sr) source (sourceLimit o)
       else sr_Sources sr |}.

(** ** The policy matrix *)

Definition profileMode (profile : string) : string :=
  if decide (profile = taintProfileStrict) then taintProfileStrict
  else if decide (profile = taintProfilePermissive) then taintProfilePermissive
  else "balanced".

Definition isAlwaysAllowedAction (action : ActionClass) : bool :=
  bool_decide (action = ActionClassRead \/ action = ActionClassBrowse \/ action = ActionClassSummarize).

Definition isSensitiveAction (action : ActionClass) (sensitivity : ActionSensitivity) : bool :=
  if decide (sensitivity >= SensitivityElevated) then true
  else bool_decide (action = ActionClassWrite \/ action = ActionClassExec \/
                    action = ActionClassSecret \/ action = ActionClassPublish).

Definition allow (reason : string) := {| pdr_Decision := PolicyAllow; pdr_Reason := reason |}.
Definition ask (reason : string) := {| pdr_Decision := PolicyAsk; pdr_Reason := reason |}.
Definition block (reason : string) := {| pdr_Decision := PolicyBlock; pdr_Reason := reason |}.

(** The final [switch action] of [EvaluateWithOptions]; [None] is falling out of it. *)
Definition untrustedSwitch (mode : string) (action : ActionClass)
    (sensitivity : ActionSensitivity) (authority : AuthorityKind) : option PolicyDecisionResult :=
  if decide (action = ActionClassWrite) then
    if decide (sensitivity >= SensitivityProtected /\ authority < AuthorityUserExact)
    then Some (ask "protected_write_after_untrusted_external_exposure")
    else if decide (mode = taintProfileStrict /\ sensitivity >= SensitivityElevated /\ authority < AuthorityUserExact)
    then Some (ask "elevated_write_after_untrusted_external_exposure") else None
  else if decide (action = ActionClassExec) then
    if decide (authority < AuthorityOperatorOverride)
    then Some (ask "mutating_exec_after_untrusted_external_exposure") else None
  else if decide (action = ActionClassSecret) then
    if decide (authority < AuthorityUserExact)
    then Some (ask "secret_use_after_untrusted_external_exposure") else None
  else if decide (action = ActionClassPublish) then
    if decide (authority < AuthorityUserExact)
    then Some (ask "external_publish_after_untrusted_external_exposure") else None
  else if decide (action = ActionClassNetwork) then
    if decide (mode = taintProfileStrict /\ sensitivity >= SensitivityElevated /\ authority < AuthorityUserExact)
    then Some (ask "mutating_network_after_untrusted_external_exposure") else None
  else None.

(** [PolicyMatrix.EvaluateWithOptions], the matrix given by its profile. *)
Definition EvaluateWithOptions (profile : string) (taint : TaintLevel) (action : ActionClass)
    (sensitivity : ActionSensitivity) (authority : AuthorityKind)
    (opts : PolicyEvaluateOptions) : PolicyDecisionResult :=
  if isAlwaysAllowedAction action && (negb (FailSafeClassification opts) || ClassificationConfident opts)
  then allow "taint_safe_read_only_action"
  else if decide (taint < TaintExternalUntrusted)
  then allow "trusted_or_allowlisted_context"
  else if decide (profileMode profile = taintProfilePermissive)
  then allow "taint_permissive_observe_only"
  else if bool_decide (taint >= TaintExternalHostile) && isSensitiveAction action sensitivity
  then block "sensitive_action_after_hostile_external_exposure"
  else if FailSafeClassification opts && negb (ClassificationConfident opts) &&
          bool_decide (sensitivity >= SensitivityProtected) && isAlwaysAllowedAction action
  then ask "fail_safe_low_confidence_read_after_untrusted_exposure"
  else default (allow "no_taint_escalation_required")
         (untrustedSwitch (profileMode profile) action sensitivity authority).

Definition Evaluate (profile : string) (taint : TaintLevel) (action : ActionClass)
    (sensitivity : ActionSensitivity) (authority : AuthorityKind) : PolicyDecisionResult :=
  EvaluateWithOptions profile taint action sensitivity authority
    {| FailSafeClassification := false; ClassificationConfident := true |}.

(** ** Propagation across agent boundaries *)

Definition CrossAgentBoundary : Type := string.
Definition CrossAgentBoundaryA2ARequest : CrossAgentBoundary := "a2a_request".
Definition CrossAgentBoundaryMCPToolCall : CrossAgentBoundary := "mcp_tool_call".
Definition TaintSourceKindCrossAgent : string := "cross_agent".
Definition crossAgentMatchReasonPrefix : string := "cross_agent".

Definition crossAgentMatchReason (boundary : CrossAgentBoundary) : string :=
  if decide (boundary = "") then crossAgentMatchReasonPrefix
  else crossAgentMatchReasonPrefix +:+ "_" +:+ boundary.

Definition ClassifyCrossAgentObservation (current : SessionRisk)
    (boundary : CrossAgentBoundary) : RiskObservation :=
  let level := if decide (sr_Level current < TaintExternalUntrusted)
               then TaintExternalUntrusted else sr_Level current in
  {| obs_Source :=
       {| tsr_URL := sr_LastExternalURL current; tsr_Kind := TaintSourceKindCrossAgent;
          tsr_Level := level; tsr_Timestamp := Time.zero; tsr_ReceiptID := "";
          tsr_MatchReason := crossAgentMatchReason boundary |};
     obs_MediaSeen := false; obs_PromptHit := false; obs_MaxSources := 0;
     obs_ApprovedUntil := Time.zero |}.

(** What [session.RiskState] promises its callers: a recorder either has
    readable risk state (the type assertion [rec.(session.RiskState)] succeeds)
    or it has not, and observing is folding [Observe] into the snapshot. *)
Class RiskRecorder (R : Type) := {
  hasRiskState : R -> bool;
  RiskSnapshot : R -> SessionRisk;
  ObserveRisk : Z -> RiskObservation -> R -> R;
}.

Class RiskRecorderLaws (R : Type) `{!RiskRecorder R} := {
  RiskSnapshot_ObserveRisk now o r :
    hasRiskState r = true ->
    RiskSnapshot (ObserveRisk now o r) = Observe now o (RiskSnapshot r);
  hasRiskState_ObserveRisk now o (r : R) : hasRiskState (ObserveRisk now o r) = hasRiskState r;
}.

(** The fields of [config.TaintConfig] this code reads. *)
Record TaintConfig := { tc_Enabled : bool; tc_RecentSources : Z }.

Record CrossAgentResult := {
  car_Contaminated : bool;
  car_SourceRecorded : bool;
  car_Indeterminate : bool;
  car_ShouldEscalate : bool;
}.

Definition CrossAgentResult_zero : CrossAgentResult :=
  {| car_Contaminated := false; car_SourceRecorded := false;
     car_Indeterminate := false; car_ShouldEscalate := false |}.

Definition crossAgentSourceIsDuplicate (sources : list TaintSourceRef)
    (candidate : TaintSourceRef) : bool :=
  match last sources with
  | None => false
  | Some l => bool_decide (tsr_Kind l = TaintSourceKindCrossAgent /\
                           tsr_MatchReason l = tsr_MatchReason candidate)
  end.

Definition with_MaxSources (n : Z) (o : RiskObservation) : RiskObservation :=
  {| obs_Source := obs_Source o; obs_MediaSeen := obs_MediaSeen o;
     obs_PromptHit := obs_PromptHit o; obs_MaxSources := n;
     obs_ApprovedUntil := obs_ApprovedUntil o |}.

(** [ObserveCrossAgentContamination]: a nil recorder or config is [None]; the
    result comes with the recorder after the call. *)
Definition ObserveCrossAgentContamination `{RiskRecorder R} (now : Z) (rec : option R)
    (taintCfg : option TaintConfig) (boundary : CrossAgentBoundary)
    : CrossAgentResult * option R :=
  match taintCfg, rec with
  | Some cfg, Some r =>
      if negb (tc_Enabled cfg) then (CrossAgentResult_zero, rec)
      else if negb (hasRiskState r) then
        ({| car_Contaminated := true; car_SourceRecorded := false;
            car_Indeterminate := true; car_ShouldEscalate := true |}, rec)
      else
        let snap := RiskSnapshot r in
        if negb (sr_Contaminated snap) then (CrossAgentResult_zero, rec)
        else
          let escalate := sr_PromptHit snap || bool_decide (sr_Level snap >= TaintExternalHostile) in
          let obs := ClassifyCrossAgentObservation snap boundary in
          let result recorded :=
            {| car_Contaminated := true; car_SourceRecorded := recorded;
               car_Indeterminate := false; car_ShouldEscalate := escalate |} in
          if crossAgentSourceIsDuplicate (sr_Sources snap) (obs_Source obs)
          then (result false, rec)
          else (result true,
                Some (ObserveRisk now (with_MaxSources (tc_RecentSources cfg) obs) r))
  | _, _ => (CrossAgentResult_zero, rec)
  end.

(** A recorder whose whole state is its risk state. *)
#[export] Instance SessionRisk_recorder : RiskRecorder SessionRisk := {
  hasRiskState _ := true;
  RiskSnapshot sr := sr;
  ObserveRisk := Observe;
}.

#[export] Instance SessionRisk_recorder_laws : RiskRecorderLaws SessionRisk.
Proof. by split. Qed.

(** ** Lemmas *)

Lemma maxTaintLevel_max a b : maxTaintLevel a b = Z.max a b.
Proof. unfold maxTaintLevel. case_decide; lia. Qed.

Lemma appendBoundedSource_length l s n :
  0 < n -> Z.of_nat (length (appendBoundedSource l s n)) <= n.
Proof.
  intros Hn. unfold appendBoundedSource. case_decide; [done|].
  rewrite length_drop. lia.
Qed.

Lemma appendBoundedSource_last l s n : 0 < n -> last (appendBoundedSource l s n) = Some s.
Proof.
  intros Hn. unfold appendBoundedSource. case_decide; [apply last_snoc|].
  rewrite drop_app_le; [apply last_snoc|].
  revert H. rewrite length_app. simpl. lia.
Qed.

Lemma sourceLimit_pos o : 0 < sourceLimit o.
Proof. unfold sourceLimit, defaultTaintSourceLimit. case_decide; lia. Qed.

#[export] Hint Resolve sourceLimit_pos : core.

Lemma Observe_level now o sr :
  sr_Level (Observe now o sr) = Z.max (sr_Level sr) (tsr_Level (effectiveSource now o)).
Proof. simpl. apply maxTaintLevel_max. Qed.

Lemma effectiveSource_prompt now o :
  obs_PromptHit o = true -> TaintExternalHostile <= tsr_Level (effectiveSource now o).
Proof. intros H. simpl. rewrite H, maxTaintLevel_max. lia. Qed.

(** What holds of every risk state a session reaches. *)
Record risk_inv (sr : SessionRisk) : Prop := {
  ri_level : 0 <= sr_Level sr;
  ri_contaminated : sr_Contaminated sr = true <-> TaintExternalUntrusted <= sr_Level sr;
  ri_prompt : sr_PromptHit sr = true -> TaintExternalHostile <= sr_Level sr;
}.

Lemma risk_inv_zero : risk_inv SessionRisk_zero.
Proof. by split. Qed.

Lemma Observe_risk_inv now o sr : risk_inv sr -> risk_inv (Observe now o sr).
Proof.
  intros [Hl Hc Hp]. split; rewrite Observe_level.
  - lia.
  - unfold Observe. cbn [sr_Contaminated].
    unfold TaintExternalUntrusted in *. case_decide; [split; [lia|done]|].
    rewrite Hc. lia.
  - unfold Observe. cbn [sr_PromptHit]. intros [H|H]%orb_true_iff; [specialize (Hp H); lia|].
    pose proof (effectiveSource_prompt now o H). lia.
Qed.

#[export] Hint Resolve risk_inv_zero Observe_risk_inv : core.

(** A session's history: the observations folded in order, each at its time. *)
Definition observeAll (os : list (Z * RiskObservation)) (sr : SessionRisk) : SessionRisk :=
  foldl (fun sr p => Observe p.1 p.2 sr) sr os.

Lemma observeAll_inv os sr : risk_inv sr -> risk_inv (observeAll os sr).
Proof. revert sr. induction os as [|p os IH]; simpl; auto. Qed.

Lemma observeAll_level os sr :
  sr_Level (observeAll os sr) =
  foldr (fun p m => Z.max (tsr_Level (effectiveSource p.1 p.2)) m) (sr_Level sr) os.
Proof.
  revert sr. induction os as [|p os IH]; intros sr; [done|].
  cbn [foldr]. change (observeAll (p :: os) sr) with (observeAll os (Observe p.1 p.2 sr)).
  rewrite IH, Observe_level. generalize (tsr_Level (effectiveSource p.1 p.2)). clear IH.
  intros z. induction os as [|q os IH]; cbn [foldr]; [|rewrite IH]; lia.
Qed.

Lemma observeAll_sources n os sr :
  (0 < n)%Z -> Z.of_nat (length (sr_Sources sr)) <= n ->
  Forall (fun p : Z * RiskObservation => sourceLimit p.2 <= n) os ->
  Z.of_nat (length (sr_Sources (observeAll os sr))) <= n.
Proof.
  intros Hn Hsr Hos. revert sr Hsr. induction Hos as [|p os Hp Hos IH]; intros sr Hsr; [done|].
  apply (IH (Observe p.1 p.2 sr)). unfold Observe. cbn [sr_Sources]. case_match; [|done].
  etrans; [by apply appendBoundedSource_length|done].
Qed.

(** ** The properties *)

(** The risk state of a session is the join of everything it observed: its
    level is the maximum of the observed levels (a prompt-injection hit counting
    as hostile), it is contaminated exactly when that maximum reaches
    [external_untrusted], and the list of remembered sources stays within the
    largest limit used. In particular no observation ever lowers the level or
    clears the contamination of a session. *)
Theorem observe_history n os :
  (0 < n)%Z ->
  Forall (fun p : Z * RiskObservation => sourceLimit p.2 <= n) os ->
  let sr := observeAll os SessionRisk_zero in
  sr_Level sr = foldr (fun p m => Z.max (tsr_Level (effectiveSource p.1 p.2)) m) 0 os /\
  (sr_Contaminated sr = true <-> TaintExternalUntrusted <= sr_Level sr) /\
  (sr_PromptHit sr = true -> TaintExternalHostile <= sr_Level sr) /\
  Z.of_nat (length (sr_Sources sr)) <= n.
Proof.
  intros Hn Hos sr. destruct (observeAll_inv os SessionRisk_zero risk_inv_zero) as [_ Hc Hp].
  split_and!; [apply observeAll_level|exact Hc|exact Hp|].
  apply observeAll_sources; simpl; [done|lia|done].
Qed.

Definition w_obs (level : TaintLevel) (hit : bool) : RiskObservation :=
  {| obs_Source := {| tsr_URL := "https://a.example/"; tsr_Kind := "fetch"; tsr_Level := level;
                      tsr_Timestamp := 5; tsr_ReceiptID := ""; tsr_MatchReason := "" |};
     obs_MediaSeen := false; obs_PromptHit := hit; obs_MaxSources := 2; obs_ApprovedUntil := 0 |}.

Lemma observe_history_witness :
  let sr := observeAll [(1, w_obs 3 false); (2, w_obs 1 true); (3, w_obs 2 false)] SessionRisk_zero in
  sr_Level sr = 5 /\ Z.of_nat (length (sr_Sources sr)) <= 2.
Proof.
  intros sr. destruct (observe_history 2 [(1, w_obs 3 false); (2, w_obs 1 true); (3, w_obs 2 false)])
    as (Hl & _ & _ & Hn); [lia|repeat constructor; vm_compute; discriminate|].
  exact (conj Hl Hn).
Defined.

(** Profiles in the order of their strictness. *)
Definition profileRank (profile : string) : Z :=
  if decide (profile = taintProfilePermissive) then 0
  else if decide (profile = taintProfileStrict) then 2 else 1.

(** A boolean rank used for the classifier confidence. *)
Definition careRank (o : PolicyEvaluateOptions) : Z :=
  if FailSafeClassification o && negb (ClassificationConfident o) then 1 else 0.

(** The decision as a number, by the strictness of the profile ([0] permissive,
    [2] strict) and whether the classification is a low-confidence one. *)
Definition decisionRank (mode taint : Z) (action : ActionClass) (sens auth care : Z) : Z :=
  if decide (taint < 4 \/ mode = 0 \/ (0 <= action <= 2 /\ care = 0)) then 0
  else if decide (5 <= taint /\ (1 <= sens \/ 3 <= action <= 6)) then 3
  else if decide (care = 1 /\ 2 <= sens /\ 0 <= action <= 2) then 2
  else if decide ((action = 3 /\ auth < 4 /\ (2 <= sens \/ mode = 2 /\ 1 <= sens)) \/
                  (action = 4 /\ auth < 5) \/
                  ((action = 5 \/ action = 6) /\ auth < 4) \/
                  (action = 7 /\ mode = 2 /\ 1 <= sens /\ auth < 4)) then 2
  else 0.

Lemma decisionRank_mono mode mode' taint taint' action sens sens' auth auth' care care' :
  0 <= mode -> 0 <= care <= 1 -> 0 <= care' <= 1 ->
  mode <= mode' <= 2 -> taint <= taint' -> sens <= sens' -> auth' <= auth -> care <= care' ->
  decisionRank mode taint action sens auth care <= decisionRank mode' taint' action sens' auth' care'.
Proof.
  intros. assert (0 <= decisionRank mode' taint' action sens' auth' care').
  { unfold decisionRank. by repeat case_decide. }
  unfold decisionRank at 1.
  case_decide as C1; [done|].
  case_decide as C2.
  { unfold decisionRank. rewrite decide_False by lia. by rewrite decide_True by lia. }
  case_decide as C3.
  { unfold decisionRank. rewrite decide_False by lia. case_decide; [done|].
    by rewrite decide_True by lia. }
  case_decide as C4; [|done].
  unfold decisionRank. rewrite decide_False by lia. do 2 (case_decide; [done|]).
  by rewrite decide_True by lia.
Qed.

Create HintDb taint.
#[export] Hint Unfold ActionClassRead ActionClassBrowse ActionClassSummarize ActionClassWrite
  ActionClassExec ActionClassSecret ActionClassPublish ActionClassNetwork
  SensitivityElevated SensitivityProtected AuthorityUserExact AuthorityOperatorOverride
  TaintExternalUntrusted TaintExternalHostile PolicyAllow PolicyAsk PolicyBlock : taint.

Lemma isAlwaysAllowedAction_spec a : isAlwaysAllowedAction a = bool_decide (0 <= a <= 2).
Proof. unfold isAlwaysAllowedAction. autounfold with taint. apply bool_decide_ext. lia. Qed.

Lemma isSensitiveAction_spec a s : isSensitiveAction a s = bool_decide (1 <= s \/ 3 <= a <= 6).
Proof.
  unfold isSensitiveAction. autounfold with taint. case_decide.
  - symmetry. apply bool_decide_eq_true. lia.
  - apply bool_decide_ext. lia.
Qed.

Lemma profileMode_rank p :
  (profileMode p = taintProfileStrict <-> profileRank p = 2) /\
  (profileMode p = taintProfilePermissive <-> profileRank p = 0) /\ 0 <= profileRank p <= 2.
Proof.
  unfold profileMode, profileRank, taintProfileStrict, taintProfilePermissive.
  repeat case_decide; subst; split_and!; try split; try done; lia.
Qed.

Lemma careRank_range o : 0 <= careRank o <= 1.
Proof. unfold careRank. case_match; lia. Qed.

Lemma careRank_0 o :
  negb (FailSafeClassification o) || ClassificationConfident o = bool_decide (careRank o = 0).
Proof. by destruct o as [[] []]. Qed.

Lemma careRank_1 o :
  FailSafeClassification o && negb (ClassificationConfident o) = bool_decide (careRank o = 1).
Proof. by destruct o as [[] []]. Qed.

Lemma untrustedSwitch_rank profile action sens auth r :
  pdr_Decision (default (allow r) (untrustedSwitch (profileMode profile) action sens auth)) =
  if decide ((action = 3 /\ auth < 4 /\ (2 <= sens \/ profileRank profile = 2 /\ 1 <= sens)) \/
             (action = 4 /\ auth < 5) \/
             ((action = 5 \/ action = 6) /\ auth < 4) \/
             (action = 7 /\ profileRank profile = 2 /\ 1 <= sens /\ auth < 4)) then 2 else 0.
Proof.
  destruct (profileMode_rank profile) as (Hs & _ & _).
  unfold untrustedSwitch. autounfold with taint.
  rewrite !(decide_ext (profileMode profile = taintProfileStrict /\ sens >= 1 /\ auth < 4)
             (profileRank profile = 2 /\ sens >= 1 /\ auth < 4)) by (rewrite Hs; tauto).
  clear Hs. repeat case_decide; simpl; done || lia.
Qed.

Lemma decision_rank profile taint action sens auth o :
  pdr_Decision (EvaluateWithOptions profile taint action sens auth o) =
  decisionRank (profileRank profile) taint action sens auth (careRank o).
Proof.
  destruct (profileMode_rank profile) as (_ & Hp & Hr). pose proof (careRank_range o) as Hcare.
  unfold EvaluateWithOptions.
  rewrite isAlwaysAllowedAction_spec, isSensitiveAction_spec, careRank_0, careRank_1.
  autounfold with taint. rewrite <- !bool_decide_and. unfold decisionRank.
  case_bool_decide; [by rewrite decide_True by lia|].
  case_decide; [by rewrite decide_True by lia|].
  case_decide; [by rewrite decide_True by tauto|].
  rewrite Hp in *. rewrite (decide_False (P := _ < 4 \/ _)) by lia.
  case_bool_decide; [by rewrite decide_True by lia|]. rewrite decide_False by lia.
  case_bool_decide; [by rewrite decide_True by lia|]. rewrite decide_False by lia.
  apply untrustedSwitch_rank.
Qed.

(** The policy matrix is monotone: for one action, more taint, a more
    sensitive target, weaker authority, a stricter profile or a less certain
    classification never yields a more permissive decision. *)
Theorem EvaluateWithOptions_monotone profile profile' taint taint' action sens sens' auth auth' o o' :
  profileRank profile <= profileRank profile' ->
  taint <= taint' -> sens <= sens' -> auth' <= auth -> careRank o <= careRank o' ->
  pdr_Decision (EvaluateWithOptions profile taint action sens auth o)
  <= pdr_Decision (EvaluateWithOptions profile' taint' action sens' auth' o').
Proof.
  intros. rewrite !decision_rank.
  destruct (profileMode_rank profile) as (_ & _ & ?), (profileMode_rank profile') as (_ & _ & ?).
  apply decisionRank_mono; auto using careRank_range; lia.
Qed.

Lemma EvaluateWithOptions_monotone_witness :
  pdr_Decision (EvaluateWithOptions "balanced" TaintExternalUntrusted ActionClassExec
                  SensitivityNormal AuthorityUserExact
                  {| FailSafeClassification := false; ClassificationConfident := true |})
  <= pdr_Decision (EvaluateWithOptions "strict" TaintExternalHostile ActionClassExec
                  SensitivityElevated AuthorityExternal
                  {| FailSafeClassification := true; ClassificationConfident := false |}).
Proof. apply EvaluateWithOptions_monotone; vm_compute; discriminate. Defined.

(** ** Cross-agent propagation, against the interface *)

Section cross_agent.
  Context `{!RiskRecorder R, !RiskRecorderLaws R}.

Lemma classify_effective now n sr boundary :
  let src := effectiveSource now (with_MaxSources n (ClassifyCrossAgentObservation sr boundary)) in
  tsr_Level src = Z.max (sr_Level sr) TaintExternalUntrusted /\
  tsr_Kind src = TaintSourceKindCrossAgent /\
  tsr_MatchReason src = crossAgentMatchReason boundary.
Proof. simpl. autounfold with taint. split_and!; [case_decide; lia|done|done]. Qed.

Lemma Observe_cross_agent_last now n sr boundary :
  exists src, last (sr_Sources (Observe now (with_MaxSources n
      (ClassifyCrossAgentObservation sr boundary)) sr)) = Some src /\
    tsr_Kind src = TaintSourceKindCrossAgent /\ tsr_MatchReason src = crossAgentMatchReason boundary.
Proof.
  destruct (classify_effective now n sr boundary) as (_ & Hk & Hm).
  eexists. split; [|exact (conj Hk Hm)].
  unfold Observe. cbn [sr_Sources]. unfold recordsSource.
  rewrite bool_decide_eq_true_2; [by apply appendBoundedSource_last|].
  right. left. by rewrite Hk.
Qed.

(** At an agent boundary, for a recorder whose risk state is readable and
    reachable: a clean session is left alone; a contaminated one is reported as
    such, keeps its level, its contamination and its prompt hit, and a second
    call for the same boundary records nothing more, so a chatty agent cannot
    flood the bounded list of sources. *)
Theorem ObserveCrossAgentContamination_idempotent now now' cfg (r : R) boundary :
  tc_Enabled cfg = true -> hasRiskState r = true -> risk_inv (RiskSnapshot r) ->
  exists r' res,
    ObserveCrossAgentContamination now (Some r) (Some cfg) boundary = (res, Some r') /\
    car_Contaminated res = sr_Contaminated (RiskSnapshot r) /\
    car_Indeterminate res = false /\
    sr_Level (RiskSnapshot r') = sr_Level (RiskSnapshot r) /\
    sr_Contaminated (RiskSnapshot r') = sr_Contaminated (RiskSnapshot r) /\
    sr_PromptHit (RiskSnapshot r') = sr_PromptHit (RiskSnapshot r) /\
    risk_inv (RiskSnapshot r') /\
    exists res', ObserveCrossAgentContamination now' (Some r') (Some cfg) boundary = (res', Some r') /\
      car_SourceRecorded res' = false.
Proof.
  intros Hen Hrs Hinv. unfold ObserveCrossAgentContamination.
  rewrite Hen, Hrs. cbn [negb].
  destruct (sr_Contaminated (RiskSnapshot r)) eqn:Hc; cbn [negb].
  - case_match eqn:Hd.
    + do 2 eexists. split_and!; try done. rewrite Hrs, Hc, Hd. by eexists.
    + do 2 eexists. split; [done|]. rewrite hasRiskState_ObserveRisk, Hrs, RiskSnapshot_ObserveRisk by done.
      destruct (classify_effective now (tc_RecentSources cfg) (RiskSnapshot r) boundary) as (Hl & _).
      destruct (Observe_cross_agent_last now (tc_RecentSources cfg) (RiskSnapshot r) boundary)
        as (src & Hlast & Hk & Hm).
      destruct Hinv as [Hi1 Hi2 Hi3]. pose proof (proj1 Hi2 Hc) as Hge.
      set (sr' := Observe _ _ _) in *.
      assert (Hlvl : sr_Level sr' = sr_Level (RiskSnapshot r)).
      { subst sr'. rewrite Observe_level, Hl. lia. }
      assert (Hcont : sr_Contaminated sr' = true).
      { subst sr'. unfold Observe. cbn [sr_Contaminated]. rewrite Hc. by case_decide. }
      split_and!; try done.
      * subst sr'. unfold Observe. cbn [sr_PromptHit]. apply orb_false_r.
      * subst sr'. by apply Observe_risk_inv.
      * rewrite Hcont. cbn [negb]. unfold crossAgentSourceIsDuplicate at 1. rewrite Hlast.
        rewrite bool_decide_eq_true_2 by done. by eexists.
  - do 2 eexists. split; [done|]. rewrite Hrs, Hc. split_and!; try done. by eexists.
Qed.
End cross_agent.

Lemma ObserveCrossAgentContamination_idempotent_witness :
  exists (r' : SessionRisk) res,
    ObserveCrossAgentContamination 7 (Some (Observe 1 (w_obs 5 false) SessionRisk_zero))
      (Some {| tc_Enabled := true; tc_RecentSources := 1 |}) CrossAgentBoundaryMCPToolCall
    = (res, Some r') /\ car_Contaminated res = true.
Proof.
  destruct (ObserveCrossAgentContamination_idempotent 7 8 {| tc_Enabled := true; tc_RecentSources := 1 |}
    (Observe 1 (w_obs 5 false) SessionRisk_zero) CrossAgentBoundaryMCPToolCall)
    as (r' & res & H & Hc & _); [done|done|by apply Observe_risk_inv|].
  exists r', res. split; [exact H|]. rewrite Hc. reflexivity.
Defined.
