(* ===== verification/Escalation.v ===== *)
(** * Escalation: upgrading an action by the session's escalation level

    [internal/decide/escalation.go], with the part of the configuration that
    makes its guarantee hold: the defaults of [internal/config/normalize.go] and
    the checks of [internal/config/validate.go]. *)

From S2P Require Import Prelude Float64 Config.
Local Open Scope Z_scope.

(** ** [UpgradeAction] *)

Definition levelActions (level : Z) (cfg : AdaptiveEnforcement) : EscalationActions :=
  if decide (level = 1) then Elevated (ae_Levels cfg)
  else if decide (level = 2) then High (ae_Levels cfg)
  else Critical (ae_Levels cfg).

(** [UpgradeAction]; a nil configuration is [None]. *)
Definition UpgradeAction (baseAction : string) (level : Z) (cfg : option AdaptiveEnforcement) : string :=
  match cfg with
  | None => baseAction
  | Some cfg =>
      if negb (ae_Enabled cfg) then baseAction
      else if decide (level <= 0) then baseAction
      else
        let acts := levelActions level cfg in
        if decide (BlockAll acts = Some true) then ActionBlock
        else if decide (baseAction = ActionWarn) then
          if decide (UpgradeWarn acts = Some ActionBlock) then ActionBlock else baseAction
        else if decide (baseAction = ActionAsk) then
          if decide (UpgradeAsk acts = Some ActionBlock) then ActionBlock else baseAction
        else baseAction
  end.

(** ** Defaults and validation *)

(** The level defaults of [Config.ApplyDefaults]: only nil fields are filled. *)
Definition applyLevelDefaults (l : EscalationLevels) : EscalationLevels :=
  let fill {A} (o : option A) (a : A) := match o with None => Some a | _ => o end in
  {| Elevated := {| UpgradeWarn := fill (UpgradeWarn (Elevated l)) ActionBlock;
                    UpgradeAsk := UpgradeAsk (Elevated l);
                    BlockAll := BlockAll (Elevated l) |};
     High := {| UpgradeWarn := fill (UpgradeWarn (High l)) ActionBlock;
                UpgradeAsk := fill (UpgradeAsk (High l)) ActionBlock;
                BlockAll := BlockAll (High l) |};
     Critical := {| UpgradeWarn := fill (UpgradeWarn (Critical l)) ActionBlock;
                    UpgradeAsk := fill (UpgradeAsk (Critical l)) ActionBlock;
                    BlockAll := fill (BlockAll (Critical l)) true |} |}.

(** The rest of the defaults of [Config.ApplyDefaults] for adaptive enforcement
    and session profiling. *)
Definition positiveOr {A} (nonpositive : A -> bool) (a default : A) : A := if nonpositive a then default else a.

Definition applyAdaptiveDefaults (c : AdaptiveEnforcement) : AdaptiveEnforcement :=
  if negb (ae_Enabled c) then c
  else
    let floats := positiveOr (fun x => F64.leb x F64.zero) in
    let ints := positiveOr (fun n => bool_decide (n <= 0)) in
    {| ae_Enabled := true;
       ae_EscalationThreshold := floats (ae_EscalationThreshold c) (F64.of_Z 5);
       ae_DecayPerCleanRequest := floats (ae_DecayPerCleanRequest c) (F64.ratio 1 2);
       ae_LevelDurationSeconds := ints (ae_LevelDurationSeconds c) 300;
       ae_DeescalationCheckSeconds := ints (ae_DeescalationCheckSeconds c) 30;
       ae_CleanRequestsToDeescalate := ae_CleanRequestsToDeescalate c;
       ae_SeverityWeightedSignals := ae_SeverityWeightedSignals c;
       ae_CooperativeToolDownweight := ae_CooperativeToolDownweight c;
       ae_Levels := applyLevelDefaults (ae_Levels c);
       ae_ExemptDomains := ae_ExemptDomains c |}.

Definition applySessionDefaults (c : SessionProfiling) : SessionProfiling :=
  let ints := positiveOr (fun n => bool_decide (n <= 0)) in
  let on {A} (a b : A) := if sp_Enabled c then a else b in
  {| sp_Enabled := sp_Enabled c;
     sp_AnomalyAction := on (if decide (sp_AnomalyAction c = "") then ActionWarn else sp_AnomalyAction c) (sp_AnomalyAction c);
     sp_DomainBurst := on (ints (sp_DomainBurst c) 5) (sp_DomainBurst c);
     sp_WindowMinutes := on (ints (sp_WindowMinutes c) 5) (sp_WindowMinutes c);
     sp_VolumeSpikeRatio := on (positiveOr (fun x => F64.leb x F64.zero) (sp_VolumeSpikeRatio c) (F64.of_Z 3)) (sp_VolumeSpikeRatio c);
     sp_MaxSessions := ints (sp_MaxSessions c) 1000;
     sp_SessionTTLMinutes := ints (sp_SessionTTLMinutes c) 30;
     sp_CleanupIntervalSeconds := ints (sp_CleanupIntervalSeconds c) 60 |}.

(** The errors of the checks, in the order of the source. *)
Inductive EscalationError :=
| ErrUpgradeWarnValue (level : string) (v : string)
| ErrUpgradeAskValue (level : string) (v : string)
| ErrWeakerWarn (hi lo : string)
| ErrWeakerAsk (hi lo : string)
| ErrWeakerBlockAll (hi lo : string)
| ErrRequiresSessionProfiling
| ErrSetting (field : string).

Definition upgradeActionStrength (v : option string) : Z :=
  match v with
  | None => 0
  | Some s => if decide (s = ActionBlock) then 2 else 1
  end.

Definition validateEscalationActions (level : string) (a : EscalationActions)
    : result unit EscalationError :=
  match UpgradeWarn a, UpgradeAsk a with
  | Some w, _ =>
      if decide (w <> "" /\ w <> ActionBlock) then Err (ErrUpgradeWarnValue level w)
      else match UpgradeAsk a with
           | Some k => if decide (k <> "" /\ k <> ActionBlock) then Err (ErrUpgradeAskValue level k) else Ok tt
           | None => Ok tt
           end
  | None, Some k => if decide (k <> "" /\ k <> ActionBlock) then Err (ErrUpgradeAskValue level k) else Ok tt
  | None, None => Ok tt
  end.

(** One of the two comparisons of [validateEscalationMonotonic]. *)
Definition validateNotWeaker (hiName loName : string) (hi lo : EscalationActions)
    : result unit EscalationError :=
  let loBlockAll := bool_decide (BlockAll lo = Some true) in
  if negb loBlockAll && bool_decide (upgradeActionStrength (UpgradeWarn hi) < upgradeActionStrength (UpgradeWarn lo))
  then Err (ErrWeakerWarn hiName loName)
  else if negb loBlockAll && bool_decide (upgradeActionStrength (UpgradeAsk hi) < upgradeActionStrength (UpgradeAsk lo))
  then Err (ErrWeakerAsk hiName loName)
  else if loBlockAll && bool_decide (BlockAll hi <> Some true)
  then Err (ErrWeakerBlockAll hiName loName)
  else Ok tt.

Section validation.
  Local Open Scope go_scope.

Definition validateEscalationMonotonic (levels : EscalationLevels) : result unit EscalationError :=
  check (validateNotWeaker "high" "elevated" (High levels) (Elevated levels));
  validateNotWeaker "critical" "high" (Critical levels) (High levels).

(** The level checks of [validateAdaptiveEnforcement]. *)
Definition validateEscalationLevels (levels : EscalationLevels) : result unit EscalationError :=
  check (validateEscalationActions "elevated" (Elevated levels));
  check (validateEscalationActions "high" (High levels));
  check (validateEscalationActions "critical" (Critical levels));
  validateEscalationMonotonic levels.

(** One check of a setting. *)
Definition require (b : bool) (field : string) : result unit EscalationError :=
  if b then Ok tt else Err (ErrSetting field).

Definition validateSessionProfiling (c : SessionProfiling) : result unit EscalationError :=
  check (if sp_Enabled c then
           check (require (bool_decide (sp_AnomalyAction c = ActionWarn \/ sp_AnomalyAction c = ActionBlock)) "anomaly_action");
           check (require (bool_decide (0 < sp_DomainBurst c)) "domain_burst");
           check (require (bool_decide (0 < sp_WindowMinutes c)) "window_minutes");
           require (negb (F64.leb (sp_VolumeSpikeRatio c) F64.zero)) "volume_spike_ratio"
         else Ok tt);
  check (require (bool_decide (0 < sp_MaxSessions c)) "max_sessions");
  check (require (bool_decide (0 < sp_SessionTTLMinutes c)) "session_ttl_minutes");
  require (bool_decide (0 < sp_CleanupIntervalSeconds c)) "cleanup_interval_seconds".

(** The part of [validateAdaptiveEnforcement] that can return an error; the
    other argument is [SessionProfiling.Enabled]. *)
Definition validateAdaptiveEnforcement (profiling : bool) (c : AdaptiveEnforcement) : result unit EscalationError :=
  if negb (ae_Enabled c) then Ok tt
  else if negb profiling then Err ErrRequiresSessionProfiling
  else
    check (require (negb (F64.leb (ae_EscalationThreshold c) F64.zero)) "escalation_threshold");
    check (require (negb (F64.leb (ae_DecayPerCleanRequest c) F64.zero)) "decay_per_clean_request");
    check (require (bool_decide (0 < ae_LevelDurationSeconds c)) "level_duration_seconds");
    check (require (bool_decide (0 < ae_DeescalationCheckSeconds c)) "deescalation_check_seconds");
    check (require (bool_decide (0 <= ae_CleanRequestsToDeescalate c)) "clean_requests_to_deescalate");
    validateEscalationLevels (ae_Levels c).
End validation.

(** ** Lemmas *)

(** [upgrades a acts]: the level's actions turn [a] into a block. *)
Definition upgrades (a : string) (acts : EscalationActions) : Prop :=
  BlockAll acts = Some true \/
  (a = ActionWarn /\ UpgradeWarn acts = Some ActionBlock) \/
  (a = ActionAsk /\ UpgradeAsk acts = Some ActionBlock).

Lemma UpgradeAction_spec a level cfg :
  UpgradeAction a level (Some cfg) = ActionBlock <->
  a = ActionBlock \/ (ae_Enabled cfg = true /\ 0 < level /\ upgrades a (levelActions level cfg)).
Proof.
  unfold UpgradeAction, upgrades. destruct (ae_Enabled cfg); cbn [negb]; [|naive_solver].
  repeat case_decide; subst; try naive_solver lia; unfold ActionBlock, ActionWarn, ActionAsk in *;
    split; try done; try (intros; naive_solver lia).
Qed.

Lemma strength_block v : upgradeActionStrength v >= 2 <-> v = Some ActionBlock.
Proof. destruct v; simpl; [case_decide; subst; split; try done; try lia; naive_solver|split; [lia|done]]. Qed.

Lemma validateNotWeaker_upgrades hn ln hi lo a :
  is_ok (validateNotWeaker hn ln hi lo) = true -> upgrades a lo -> upgrades a hi.
Proof.
  unfold validateNotWeaker, upgrades.
  intros Hok. repeat (case_bool_decide; cbn [negb andb] in Hok; try done).
  all: try (intros; left; destruct (decide (BlockAll hi = Some true)); tauto).
  intros [?|[[-> Hw]|[-> Hw]]]; [done|right; left|right; right]; split; try done;
    apply strength_block; apply strength_block in Hw; lia.
Qed.

Lemma levelActions_mono cfg a l l' :
  is_ok (validateEscalationMonotonic (ae_Levels cfg)) = true ->
  0 < l <= l' -> upgrades a (levelActions l cfg) -> upgrades a (levelActions l' cfg).
Proof.
  unfold validateEscalationMonotonic. intros Hok Hl.
  case_match eqn:E1; [|done].
  assert (H1 : is_ok (validateNotWeaker "high" "elevated" (High (ae_Levels cfg)) (Elevated (ae_Levels cfg))) = true)
    by (apply is_ok_true; eauto).
  pose proof (validateNotWeaker_upgrades _ _ _ _ a H1).
  pose proof (validateNotWeaker_upgrades _ _ _ _ a Hok).
  unfold levelActions. repeat case_decide; try lia; auto.
Qed.

Lemma validateEscalationLevels_monotonic levels :
  is_ok (validateEscalationLevels levels) = true ->
  is_ok (validateEscalationMonotonic levels) = true.
Proof. unfold validateEscalationLevels. by repeat case_match. Qed.

(** With a configuration the validator accepts, escalation never relaxes
    enforcement: the upgraded action is the base action or a block, and an
    action blocked at one level is blocked at every higher level. *)
Theorem UpgradeAction_never_relaxes cfg a l l' :
  (ae_Enabled cfg = true -> is_ok (validateEscalationLevels (ae_Levels cfg)) = true) ->
  l <= l' ->
  (UpgradeAction a l (Some cfg) = a \/ UpgradeAction a l (Some cfg) = ActionBlock) /\
  (UpgradeAction a l (Some cfg) = ActionBlock -> UpgradeAction a l' (Some cfg) = ActionBlock).
Proof.
  intros Hok Hl. split.
  - unfold UpgradeAction. repeat case_match; auto.
  - rewrite !UpgradeAction_spec. intros [?|(Hen & Hpos & Hup)]; [by left|right].
    split_and!; [done|lia|]. eapply levelActions_mono; [|split; [done|exact Hl]|done].
    auto using validateEscalationLevels_monotonic.
Qed.

Lemma positiveOr_ok {A} (f : A -> bool) a d : f d = false -> f (positiveOr f a d) = false.
Proof. intros Hd. unfold positiveOr. by destruct (f a) eqn:E. Qed.

(** What the defaults leave in the numeric settings is accepted. *)
Lemma default_settings_valid c :
  0 <= ae_CleanRequestsToDeescalate c ->
  is_ok (validateEscalationLevels (applyLevelDefaults (ae_Levels c))) = true ->
  is_ok (validateAdaptiveEnforcement true (applyAdaptiveDefaults c)) = true.
Proof.
  intros Hc Hl. unfold validateAdaptiveEnforcement, applyAdaptiveDefaults. destruct (ae_Enabled c) eqn:E; cbn [negb]; [|by rewrite E].
  cbn [ae_Enabled ae_EscalationThreshold ae_DecayPerCleanRequest ae_LevelDurationSeconds ae_DeescalationCheckSeconds
       ae_CleanRequestsToDeescalate ae_Levels negb].
  rewrite (positiveOr_ok (fun x => F64.leb x F64.zero) (ae_EscalationThreshold c)) by reflexivity.
  rewrite (positiveOr_ok (fun x => F64.leb x F64.zero) (ae_DecayPerCleanRequest c)) by reflexivity.
  unfold require, positiveOr. cbn [negb]. by repeat (case_bool_decide; try lia).
Qed.

(** The configuration of an operator who enables adaptive enforcement. *)
Definition defaultAdaptive (levels : EscalationLevels) : AdaptiveEnforcement :=
  applyAdaptiveDefaults
    {| ae_Enabled := true; ae_EscalationThreshold := F64.zero; ae_DecayPerCleanRequest := F64.zero;
       ae_LevelDurationSeconds := 0; ae_DeescalationCheckSeconds := 0; ae_CleanRequestsToDeescalate := 0;
       ae_SeverityWeightedSignals := false; ae_CooperativeToolDownweight := false;
       ae_Levels := levels; ae_ExemptDomains := [] |}.

Definition defaultLevels : EscalationLevels :=
  let nil := {| UpgradeWarn := None; UpgradeAsk := None; BlockAll := None |} in
  applyLevelDefaults {| Elevated := nil; High := nil; Critical := nil |}.

Lemma UpgradeAction_never_relaxes_witness :
  let cfg := defaultAdaptive defaultLevels in
  UpgradeAction ActionWarn 1 (Some cfg) = ActionBlock /\
  UpgradeAction ActionWarn 3 (Some cfg) = ActionBlock.
Proof.
  intros cfg. destruct (UpgradeAction_never_relaxes cfg ActionWarn 1 3) as [_ H];
    [intros _; vm_compute; reflexivity|lia|].
  split; [vm_compute; reflexivity|apply H; vm_compute; reflexivity].
Defined.

(** The validator is needed: levels it rejects can relax enforcement. *)
Example unvalidated_levels_relax :
  let act b := {| UpgradeWarn := None; UpgradeAsk := None; BlockAll := Some b |} in
  let cfg := defaultAdaptive {| Elevated := act true; High := act false; Critical := act true |} in
  is_ok (validateEscalationLevels (ae_Levels cfg)) = false /\
  UpgradeAction ActionForward 1 (Some cfg) = ActionBlock /\
  UpgradeAction ActionForward 2 (Some cfg) = ActionForward.
Proof. vm_compute. done. Qed.

(** The defaults leave [elevated.upgrade_ask] nil, so a nil does reach the
    strength comparison. *)
Example defaults_leave_elevated_ask_nil : UpgradeAsk (Elevated defaultLevels) = None.
Proof. reflexivity. Qed.
