(* ===== verification/Airlock.v ===== *)
(** * Airlock: the per-session quarantine tiers

    [internal/proxy/airlock.go]. Each method holds the state's mutex for its
    whole body, so each is one step on the state. A cancel function is the
    identifier of its connection; calling it appends the identifier to the log
    [as_cancelled]. *)

From S2P Require Import Prelude Config.
Local Open Scope Z_scope.

(** ** Tiers *)

Definition TransportFetch : string := "fetch".
Definition TransportForward : string := "forward".
Definition TransportConnect : string := "connect".
Definition TransportWS : string := "websocket".
Definition TransportWSFrame : string := "websocket_frame".
Definition TransportMCP : string := "mcp".
Definition TransportScanAPI : string := "scan_api".
Definition TransportReverse : string := "reverse".

Definition airlockSourceAdminAPI : string := "admin_api".
Definition airlockSourceTimers : string := "airlock_timers".
Definition airlockTriggerManual : string := "manual".
Definition airlockTriggerTimer : string := "timer".

(** The map [AirlockTierOrder]; [None] is a missing key. *)
Definition AirlockTierOrder (tier : string) : option Z :=
  if decide (tier = AirlockTierNone) then Some 0
  else if decide (tier = AirlockTierSoft) then Some 1
  else if decide (tier = AirlockTierHard) then Some 2
  else if decide (tier = AirlockTierDrain) then Some 3
  else None.

(** ** State *)

Record AirlockState := {
  as_tier : string;
  as_enteredAt : Z;
  as_trigger : string;
  as_source : string;
  as_cancelFuncs : list nat;
  as_inFlightCount : Z;
  as_cancelled : list nat;
}.

Definition NewAirlockState : AirlockState :=
  {| as_tier := AirlockTierNone; as_enteredAt := Time.zero; as_trigger := ""; as_source := "";
     as_cancelFuncs := []; as_inFlightCount := 0; as_cancelled := [] |}.

Definition with_cancels (funcs : list nat) (cancelled : list nat) (a : AirlockState) : AirlockState :=
  {| as_tier := as_tier a; as_enteredAt := as_enteredAt a; as_trigger := as_trigger a;
     as_source := as_source a; as_cancelFuncs := funcs;
     as_inFlightCount := as_inFlightCount a; as_cancelled := cancelled |}.

Definition with_inFlight (n : Z) (a : AirlockState) : AirlockState :=
  {| as_tier := as_tier a; as_enteredAt := as_enteredAt a; as_trigger := as_trigger a;
     as_source := as_source a; as_cancelFuncs := as_cancelFuncs a;
     as_inFlightCount := n; as_cancelled := as_cancelled a |}.

(** [a.tier = tier] followed by [setEntryMetadataLocked]: entering the none
    tier clears the metadata. *)
Definition enterTier (now : Z) (tier trigger source : string) (a : AirlockState) : AirlockState :=
  let none := decide (tier = AirlockTierNone) in
  {| as_tier := tier;
     as_enteredAt := if none then Time.zero else now;
     as_trigger := if none then "" else trigger;
     as_source := if none then "" else source;
     as_cancelFuncs := as_cancelFuncs a;
     as_inFlightCount := as_inFlightCount a;
     as_cancelled := as_cancelled a |}.

Definition callCancelFuncsLocked (a : AirlockState) : AirlockState :=
  with_cancels [] (as_cancelled a ++ as_cancelFuncs a) a.

(** ** Operations

    A transition returns [(changed, from, to)] with the state. *)
Definition transition : Type := bool * string * string.

Definition unchanged (a : AirlockState) : transition * AirlockState :=
  ((false, as_tier a, as_tier a), a).

Definition SetTierWithProvenance (now : Z) (newTier trigger source : string)
    (a : AirlockState) : transition * AirlockState :=
  match AirlockTierOrder (as_tier a), AirlockTierOrder newTier with
  | Some oldOrder, Some newOrder =>
      if decide (newOrder <= oldOrder) then unchanged a
      else
        let a' := enterTier now newTier trigger source a in
        let a' := if decide (newTier = AirlockTierHard) then callCancelFuncsLocked a' else a' in
        let a' := if decide (newTier = AirlockTierDrain) then callCancelFuncsLocked a' else a' in
        ((true, as_tier a, newTier), a')
  | _, _ => unchanged a
  end.

Definition SetTier (now : Z) (newTier : string) (a : AirlockState) : transition * AirlockState :=
  SetTierWithProvenance now newTier "" "" a.

(** The [switch a.tier] of [TryDeescalate]: how long the tier lasts and what
    follows it; [None] when the tier has no timer. The durations are 64-bit. *)
Definition deescalation (timers : AirlockTimers) (tier : string) : option (Z * string) :=
  if decide (tier = AirlockTierSoft) then
    if decide (SoftMinutes timers <= 0) then None
    else Some (Time.minutes (SoftMinutes timers), AirlockTierNone)
  else if decide (tier = AirlockTierHard) then
    if decide (HardMinutes timers <= 0) then None
    else Some (Time.minutes (HardMinutes timers), AirlockTierSoft)
  else if decide (tier = AirlockTierDrain) then
    if decide (DrainMinutes timers <= 0 /\ DrainTimeoutSeconds timers <= 0) then None
    else
      let duration := Time.minutes (DrainMinutes timers) in
      let drainTimeout := Time.seconds (DrainTimeoutSeconds timers) in
      let duration :=
        if decide (DrainTimeoutSeconds timers > 0) then
          if decide (duration <= 0 \/ drainTimeout < duration) then drainTimeout else duration
        else duration in
      Some (duration, AirlockTierHard)
  else None.

Definition TryDeescalate (now : Z) (timers : AirlockTimers)
    (a : AirlockState) : transition * AirlockState :=
  match deescalation timers (as_tier a) with
  | None => unchanged a
  | Some (duration, nextTier) =>
      if decide (Time.sub now (as_enteredAt a) < duration) then unchanged a
      else ((true, as_tier a, nextTier),
            enterTier now nextTier airlockTriggerTimer airlockSourceTimers a)
  end.

Definition RegisterCancel (conn : nat) (a : AirlockState) : AirlockState :=
  if decide (as_tier a = AirlockTierHard \/ as_tier a = AirlockTierDrain)
  then with_cancels (as_cancelFuncs a) (as_cancelled a ++ [conn]) a
  else with_cancels (as_cancelFuncs a ++ [conn]) (as_cancelled a) a.

Definition HalfClose (a : AirlockState) : AirlockState := callCancelFuncsLocked a.
Definition FullClose (a : AirlockState) : AirlockState := callCancelFuncsLocked a.

(** The counter is an [atomic.Int64]: it wraps. *)
Definition IncrementInFlight (a : AirlockState) : AirlockState :=
  with_inFlight (wrap64 (as_inFlightCount a + 1)) a.
Definition DecrementInFlight (a : AirlockState) : AirlockState :=
  with_inFlight (wrap64 (as_inFlightCount a - 1)) a.
Definition InFlight (a : AirlockState) : Z := as_inFlightCount a.

Definition ForceSetTierWithProvenance (now : Z) (newTier trigger source : string)
    (a : AirlockState) : transition * AirlockState :=
  match AirlockTierOrder newTier with
  | None => unchanged a
  | Some _ =>
      if decide (as_tier a = newTier) then unchanged a
      else
        let a' := enterTier now newTier trigger source a in
        let a' := if decide (newTier = AirlockTierHard \/ newTier = AirlockTierDrain)
                  then callCancelFuncsLocked a' else a' in
        let a' := if decide (newTier = AirlockTierNone)
                  then with_cancels [] (as_cancelled a') a' else a' in
        ((true, as_tier a, newTier), a')
  end.

Definition ForceSetTier (now : Z) (newTier : string) (a : AirlockState) : transition * AirlockState :=
  ForceSetTierWithProvenance now newTier airlockTriggerManual airlockSourceAdminAPI a.

(** ** Classification *)

Definition readOnlyMethods (method : string) : bool :=
  bool_decide (method = "GET" \/ method = "HEAD" \/ method = "OPTIONS").

Definition classifyHard (method transport : string) (isTLSIntercepted : bool) : bool * string :=
  if decide (transport = TransportFetch) then (true, "")
  else if decide (transport = TransportScanAPI) then (true, "")
  else if decide (transport = TransportForward) then
    if readOnlyMethods method then (true, "")
    else (false, "airlock: hard tier blocks write methods on forward proxy")
  else if decide (transport = TransportConnect) then
    if negb isTLSIntercepted
    then (false, "airlock: hard tier blocks CONNECT without TLS interception (unclassifiable)")
    else if readOnlyMethods method then (true, "")
    else (false, "airlock: hard tier blocks write methods on CONNECT tunnel")
  else if decide (transport = TransportWS) then
    if decide (method = "GET") then (true, "")
    else (false, "airlock: hard tier blocks client-to-server WebSocket writes")
  else if decide (transport = TransportMCP) then (true, "")
  else (false, "airlock: hard tier blocks unknown transport").

Definition ClassifyAction (tier method transport : string) (isTLSIntercepted : bool) : bool * string :=
  if decide (tier = AirlockTierNone \/ tier = AirlockTierSoft) then (true, "")
  else if decide (tier = AirlockTierHard) then classifyHard method transport isTLSIntercepted
  else if decide (tier = AirlockTierDrain) then (false, "airlock: drain tier blocks all traffic")
  else (false, "airlock: unknown tier").

(** ** Frozen tool inventories *)

Record frozenEntry := { fe_tools : gset string; fe_created : Z }.
Definition FrozenToolRegistry : Type := gmap string frozenEntry.

Definition NewFrozenToolRegistry : FrozenToolRegistry := ∅.

Definition Freeze (now : Z) (stableKey : string) (tools : list string)
    (r : FrozenToolRegistry) : FrozenToolRegistry :=
  match (r : gmap string frozenEntry) !! stableKey with
  | Some _ => r
  | None => <[stableKey := {| fe_tools := list_to_set tools; fe_created := now |}]> (r : gmap string frozenEntry)
  end.

Definition IsFrozen (stableKey : string) (r : FrozenToolRegistry) : bool :=
  bool_decide (is_Some ((r : gmap string frozenEntry) !! stableKey)).

Definition IsToolAllowed (stableKey toolName : string) (r : FrozenToolRegistry) : bool :=
  match (r : gmap string frozenEntry) !! stableKey with
  | None => true
  | Some entry => bool_decide (toolName ∈ fe_tools entry)
  end.

Definition Unfreeze (stableKey : string) (r : FrozenToolRegistry) : FrozenToolRegistry :=
  delete stableKey (r : gmap string frozenEntry).

(** [ToolNames]: a sorted snapshot; a nil slice is [None]. *)
Definition ToolNames (stableKey : string) (r : FrozenToolRegistry) : option (list string) :=
  (fun entry => merge_sort String.le (elements (fe_tools entry))) <$>
  ((r : gmap string frozenEntry) !! stableKey).

(** ** Steps *)

Inductive airlock_op :=
| OpSetTier (now : Z) (newTier trigger source : string)
| OpTryDeescalate (now : Z) (timers : AirlockTimers)
| OpForceSetTier (now : Z) (newTier trigger source : string)
| OpRegisterCancel (conn : nat)
| OpHalfClose
| OpFullClose
| OpIncrement
| OpDecrement.

Definition apply_op (op : airlock_op) (a : AirlockState) : AirlockState :=
  match op with
  | OpSetTier now t g s => (SetTierWithProvenance now t g s a).2
  | OpTryDeescalate now timers => (TryDeescalate now timers a).2
  | OpForceSetTier now t g s => (ForceSetTierWithProvenance now t g s a).2
  | OpRegisterCancel c => RegisterCancel c a
  | OpHalfClose => HalfClose a
  | OpFullClose => FullClose a
  | OpIncrement => IncrementInFlight a
  | OpDecrement => DecrementInFlight a
  end.

Inductive airlock_step : relation AirlockState :=
| airlock_step_op op a : airlock_step a (apply_op op a).

(** ** The invariant *)

Definition closedTier (tier : string) : Prop := tier = AirlockTierHard \/ tier = AirlockTierDrain.

Record airlock_inv (a : AirlockState) : Prop := {
  ai_tier : is_Some (AirlockTierOrder (as_tier a));
  ai_none : as_tier a = AirlockTierNone ->
            as_enteredAt a = Time.zero /\ as_trigger a = "" /\ as_source a = "";
  ai_closed : closedTier (as_tier a) -> as_cancelFuncs a = [];
}.

Lemma AirlockTierOrder_inv tier o :
  AirlockTierOrder tier = Some o ->
  (tier = AirlockTierNone /\ o = 0) \/ (tier = AirlockTierSoft /\ o = 1) \/
  (tier = AirlockTierHard /\ o = 2) \/ (tier = AirlockTierDrain /\ o = 3).
Proof. unfold AirlockTierOrder. repeat case_decide; naive_solver. Qed.

Lemma airlock_inv_new : airlock_inv NewAirlockState.
Proof. split; cbn; [by eexists|done|done]. Qed.

(** Entering a tier, with or without closing the connections. *)
Lemma airlock_inv_enter now tier g s a :
  is_Some (AirlockTierOrder tier) -> (closedTier tier -> as_cancelFuncs a = []) ->
  airlock_inv (enterTier now tier g s a).
Proof.
  intros Ht Hc. split; cbn; [done| |done]. intros ->. by rewrite decide_True.
Qed.

Lemma airlock_inv_call a : is_Some (AirlockTierOrder (as_tier a)) ->
  (as_tier a = AirlockTierNone -> as_enteredAt a = Time.zero /\ as_trigger a = "" /\ as_source a = "") ->
  airlock_inv (callCancelFuncsLocked a).
Proof. by split. Qed.

Lemma airlock_inv_enter_call now tier g s a :
  is_Some (AirlockTierOrder tier) -> airlock_inv (callCancelFuncsLocked (enterTier now tier g s a)).
Proof. intros Ht. apply airlock_inv_call; [done|]. cbn. intros ->. by rewrite decide_True. Qed.

Create HintDb airlock.
#[export] Hint Resolve airlock_inv_new airlock_inv_enter airlock_inv_enter_call : airlock.

Lemma deescalation_next timers tier d next :
  deescalation timers tier = Some (d, next) ->
  exists o, AirlockTierOrder tier = Some (o + 1) /\ AirlockTierOrder next = Some o.
Proof.
  unfold deescalation. intros H. repeat case_decide; simplify_eq;
    [exists 0|exists 1|exists 2..]; done.
Qed.

Lemma apply_op_inv op a : airlock_inv a -> airlock_inv (apply_op op a).
Proof.
  intros Hinv. pose proof Hinv as [Ht Hn Hc]. destruct op as [now t g s|now timers|now t g s|c| | | |]; simpl.
  - unfold SetTierWithProvenance. case_match; [|done]. case_match eqn:Ho; [|done].
    assert (is_Some (AirlockTierOrder t)) by (rewrite Ho; eauto).
    repeat case_decide; cbn [snd unchanged]; subst; try done; try (by auto with airlock).
    apply airlock_inv_enter; [done|]. intros []; done.
  - unfold TryDeescalate. case_match eqn:Hd; [|done]. destruct p as [d next].
    case_decide; [done|]. destruct (deescalation_next _ _ _ _ Hd) as (o & Ho & Hnext).
    apply airlock_inv_enter; [rewrite Hnext; eauto|].
    intros Hcl. apply Hc. apply AirlockTierOrder_inv in Ho, Hnext.
    destruct Hcl as [-> | ->]; [right|]; naive_solver lia.
  - unfold ForceSetTierWithProvenance. case_match eqn:Ho; [|done].
    assert (is_Some (AirlockTierOrder t)) by (rewrite Ho; eauto).
    case_decide; [done|]. destruct (decide (t = AirlockTierHard \/ t = AirlockTierDrain)) as [Hcl|Hcl],
      (decide (t = AirlockTierNone)) as [Hnone|Hnone]; cbn [snd].
    + subst t. by destruct Hcl.
    + auto with airlock.
    + subst t. split; cbn; [done|done|by intros []].
    + apply airlock_inv_enter; [done|]. by intros ?%Hcl.
  - unfold RegisterCancel. case_decide; split; cbn; auto. intros ?; by destruct H.
  - by apply airlock_inv_call.
  - by apply airlock_inv_call.
  - by split.
  - by split.
Qed.

(** In every state the airlock can reach, by any sequence of automatic,
    timed and administrative transitions, the tier is a known one, the entry
    metadata is that of no quarantine when the tier is none, and no cancel
    function is left registered while the tier is hard or drain. *)
Theorem airlock_reachable_inv a : rtc airlock_step NewAirlockState a -> airlock_inv a.
Proof.
  assert (H : forall b c, rtc airlock_step b c -> airlock_inv b -> airlock_inv c).
  { induction 1 as [|b c d [op ?] _ IH]; auto using apply_op_inv. }
  intros Hr. eauto using airlock_inv_new.
Qed.

Definition w_run : AirlockState :=
  apply_op (OpSetTier 10 AirlockTierHard "on_high" "airlock_triggers")
    (apply_op (OpRegisterCancel 7) NewAirlockState).

Lemma airlock_reachable_inv_witness : as_cancelled w_run = [7%nat] /\ airlock_inv w_run.
Proof.
  split; [vm_compute; reflexivity|]. apply airlock_reachable_inv.
  eapply rtc_l; [apply (airlock_step_op (OpRegisterCancel 7))|].
  eapply rtc_l; [apply (airlock_step_op (OpSetTier 10 AirlockTierHard "on_high" "airlock_triggers"))|].
  apply rtc_refl.
Defined.

(** *** Teardown of registered connections *)

(** The operations other than the release to the none tier by an operator. *)
Definition releases (op : airlock_op) : bool :=
  match op with OpForceSetTier _ t _ _ => bool_decide (t = AirlockTierNone) | _ => false end.

Definition tracked (conn : nat) (a : AirlockState) : Prop :=
  conn ∈ as_cancelFuncs a \/ conn ∈ as_cancelled a.

Lemma tracked_enter conn now t g s a : tracked conn (enterTier now t g s a) <-> tracked conn a.
Proof. done. Qed.

Lemma tracked_call conn a : tracked conn (callCancelFuncsLocked a) <-> tracked conn a.
Proof. unfold tracked. cbn. rewrite elem_of_app. set_solver. Qed.

Lemma RegisterCancel_tracked conn a : tracked conn (RegisterCancel conn a).
Proof. unfold RegisterCancel, tracked. case_decide; cbn; set_solver. Qed.

Lemma apply_op_tracked conn op a :
  releases op = false -> tracked conn a -> tracked conn (apply_op op a).
Proof.
  intros Hr Ht. destruct op as [now t g s|now timers|now t g s|c| | | |]; simpl in *; try done.
  - unfold SetTierWithProvenance. repeat (case_match; try done); simpl; rewrite ?tracked_call; done.
  - unfold TryDeescalate. by repeat (case_match; try done).
  - apply bool_decide_eq_false in Hr. unfold ForceSetTierWithProvenance.
    repeat (case_match; try done); simpl; rewrite ?tracked_call; done.
  - unfold RegisterCancel, tracked in *. case_decide; cbn; set_solver.
  - by apply tracked_call.
  - by apply tracked_call.
Qed.

(** C21: A connection registered for teardown is torn down: once registered, after
    any operations among which no operator release to the none tier, if the
    tier is hard or drain then the connection's cancel function was called. *)
Theorem registered_connection_torn_down a conn ops :
  rtc airlock_step NewAirlockState a ->
  forallb (fun op => negb (releases op)) ops = true ->
  let a' := foldl (fun a op => apply_op op a) (RegisterCancel conn a) ops in
  closedTier (as_tier a') -> conn ∈ as_cancelled a'.
Proof.
  intros Hr Hops a' Hcl. apply airlock_reachable_inv in Hr.
  assert (Hinv : airlock_inv a' /\ tracked conn a').
  { subst a'. clear Hcl. revert Hops.
    assert (airlock_inv (RegisterCancel conn a) /\ tracked conn (RegisterCancel conn a)) as Hb
      by (split; [by apply (apply_op_inv (OpRegisterCancel conn))|apply RegisterCancel_tracked]).
    revert Hb. generalize (RegisterCancel conn a). induction ops as [|op ops IH]; intros b [Hb Ht]; [done|].
    simpl. intros [Hop Hops]%andb_true_iff. apply negb_true_iff in Hop.
    apply IH; [|done]. split; auto using apply_op_inv, apply_op_tracked. }
  destruct Hinv as [[_ _ Hc] [Hin|Hin]]; [|done]. rewrite Hc in Hin by done. set_solver.
Qed.

Lemma registered_connection_torn_down_witness :
  7%nat ∈ as_cancelled
    (foldl (fun a op => apply_op op a) (RegisterCancel 7 NewAirlockState)
       [OpSetTier 10 AirlockTierSoft "" ""; OpRegisterCancel 8; OpSetTier 20 AirlockTierDrain "" ""]).
Proof.
  apply registered_connection_torn_down; [apply rtc_refl|reflexivity|right; vm_compute; reflexivity].
Defined.

(** The restriction is needed: a release forgets the connections that are still
    open, and a later escalation does not close them. *)
Example release_forgets_connections :
  let a := foldl (fun a op => apply_op op a) NewAirlockState
    [OpSetTier 10 AirlockTierSoft "" ""; OpRegisterCancel 7;
     OpForceSetTier 20 AirlockTierNone airlockTriggerManual airlockSourceAdminAPI;
     OpSetTier 30 AirlockTierHard "" ""] in
  as_tier a = AirlockTierHard /\ as_cancelled a = [].
Proof. vm_compute. done. Qed.

(** *** Timed recovery *)

(** How long each tier lasts, as the configuration documents it: the shorter of
    the two drain settings, no limit when a setting is zero. Minutes and seconds
    are unbounded here. *)
Definition tierDuration (timers : AirlockTimers) (tier : string) : option Z :=
  let mins n := n * Time.minute in
  let secs n := n * Time.second in
  if decide (tier = AirlockTierSoft) then
    if decide (0 < SoftMinutes timers) then Some (mins (SoftMinutes timers)) else None
  else if decide (tier = AirlockTierHard) then
    if decide (0 < HardMinutes timers) then Some (mins (HardMinutes timers)) else None
  else if decide (tier = AirlockTierDrain) then
    match decide (0 < DrainMinutes timers), decide (0 < DrainTimeoutSeconds timers) with
    | left _, left _ => Some (Z.min (mins (DrainMinutes timers)) (secs (DrainTimeoutSeconds timers)))
    | left _, right _ => Some (mins (DrainMinutes timers))
    | right _, left _ => Some (secs (DrainTimeoutSeconds timers))
    | right _, right _ => None
    end
  else None.

(** The settings whose duration fits in 64 bits: up to 292 years. *)
Definition timersFit (timers : AirlockTimers) : Prop :=
  0 <= SoftMinutes timers <= 153722867 /\ 0 <= HardMinutes timers <= 153722867 /\
  0 <= DrainMinutes timers <= 153722867 /\ 0 <= DrainTimeoutSeconds timers <= 9223372036.

Lemma minutes_fit n : 0 <= n <= 153722867 -> Time.minutes n = n * Time.minute.
Proof.
  intros. unfold Time.minutes. apply wrap64_id.
  unfold in_int64, int64_min, int64_max, Time.minute, Time.second. lia.
Qed.

Lemma seconds_fit n : 0 <= n <= 9223372036 -> Time.seconds n = n * Time.second.
Proof.
  intros. unfold Time.seconds. apply wrap64_id.
  unfold in_int64, int64_min, int64_max, Time.second. lia.
Qed.

Lemma deescalation_duration timers tier :
  timersFit timers -> fst <$> deescalation timers tier = tierDuration timers tier.
Proof.
  intros (Hs & Hh & Hd & Ht). unfold deescalation, tierDuration.
  rewrite !minutes_fit, seconds_fit by done. unfold Time.minute, Time.second.
  repeat case_decide; simpl; try done; try lia; f_equal; lia.
Qed.

Lemma tierDuration_range timers tier d :
  timersFit timers -> tierDuration timers tier = Some d -> int64_min < d <= int64_max.
Proof.
  intros (Hs & Hh & Hd & Ht). unfold tierDuration, Time.minute, Time.second, int64_min, int64_max.
  intros H. repeat case_decide; simplify_eq; lia.
Qed.

(** Automatic recovery drops exactly one tier, and exactly when the session
    has spent the configured time in its tier: the soft and hard minutes, the
    shorter of the drain settings; a zero setting disables the recovery. The
    settings are assumed to fit in Go's 64-bit durations. *)
Theorem TryDeescalate_spec now timers a :
  airlock_inv a -> timersFit timers ->
  let '((changed, from, to), a') := TryDeescalate now timers a in
  from = as_tier a /\ to = as_tier a' /\
  (changed = true <-> exists d, tierDuration timers (as_tier a) = Some d /\ d <= now - as_enteredAt a) /\
  (changed = false -> a' = a) /\
  (changed = true -> exists o, AirlockTierOrder from = Some (o + 1) /\ AirlockTierOrder to = Some o).
Proof.
  intros Hinv Hfit. unfold TryDeescalate.
  pose proof (deescalation_duration timers (as_tier a) Hfit) as Hdur.
  destruct (deescalation timers (as_tier a)) as [[d next]|] eqn:Hd; simpl in Hdur.
  - pose proof (tierDuration_range _ _ _ Hfit (eq_sym Hdur)) as Hrange.
    rewrite <- Hdur. pose proof (Time.sub_lt now (as_enteredAt a) d Hrange) as Hlt.
    case_decide as Hc; simpl.
    + split_and!; try done. split; [done|]. intros (d' & [= <-] & Hle). lia.
    + split_and!; try done; [split; [|done]|].
      * intros _. exists d. split; [done|]. lia.
      * intros _. by eapply deescalation_next.
  - simpl. rewrite <- Hdur. split_and!; try done. split; [done|]. by intros (d' & ? & _).
Qed.

Definition w_timers : AirlockTimers :=
  {| SoftMinutes := 5; HardMinutes := 10; DrainMinutes := 2; DrainTimeoutSeconds := 30 |}.

Lemma TryDeescalate_spec_witness :
  let a := w_run in
  let '((changed, from, to), a') := TryDeescalate (10 + 600 * Time.second) w_timers a in
  changed = true /\ from = AirlockTierHard /\ to = AirlockTierSoft.
Proof.
  intros a. pose proof (TryDeescalate_spec (10 + 600 * Time.second) w_timers w_run) as H.
  destruct (TryDeescalate _ _ _) as [[[c f] t] a'] eqn:E.
  destruct H as (Hf & Ht & Hc & _);
    [apply apply_op_inv, apply_op_inv, airlock_inv_new|repeat split; vm_compute; discriminate|].
  vm_compute in E. injection E as <- <- <- <-. done.
Defined.

(** Beyond that bound the duration wraps to a negative number and recovery is
    immediate, although the setting passes validation. *)
Example deescalation_overflow :
  let timers := {| SoftMinutes := 5; HardMinutes := 200000000; DrainMinutes := 0; DrainTimeoutSeconds := 0 |} in
  (TryDeescalate 11 timers w_run).1 = (true, AirlockTierHard, AirlockTierSoft).
Proof. vm_compute. reflexivity. Qed.

(** *** Classification *)

(** Action classification is fail-closed and antitone in the tier: what a
    tier allows every less restrictive tier allows, the drain tier and unknown
    tiers allow nothing, and the hard tier allows only the known transports,
    with a read-only method on forward, intercepted CONNECT and WebSocket. *)
Theorem ClassifyAction_antitone tier tier' o o' method transport tls :
  AirlockTierOrder tier = Some o -> AirlockTierOrder tier' = Some o' -> o <= o' ->
  (ClassifyAction tier' method transport tls).1 = true ->
  (ClassifyAction tier method transport tls).1 = true /\
  tier' <> AirlockTierDrain /\
  (tier' = AirlockTierHard ->
     transport ∈ [TransportFetch; TransportScanAPI; TransportMCP] \/
     (transport ∈ [TransportForward; TransportConnect; TransportWS] /\ readOnlyMethods method = true)).
Proof.
  intros Ho Ho' Hle Hall. apply AirlockTierOrder_inv in Ho, Ho'.
  assert (Hnd : tier' <> AirlockTierDrain) by (intros ->; vm_compute in Hall; done).
  split_and!; [|done|].
  - destruct Ho' as [[-> ->]|[[-> ->]|[[-> ->]|[-> ->]]]]; [..|done];
      destruct Ho as [[-> ->]|[[-> ->]|[[-> ->]|[-> ->]]]]; try done; lia.
  - intros ->. change ((classifyHard method transport tls).1 = true) in Hall.
    unfold classifyHard in Hall. repeat case_decide; subst; try (left; by repeat constructor).
    all: right; split; [by repeat constructor|].
    all: try (destruct tls; cbn [negb] in Hall; [|done]).
    all: try (by destruct (readOnlyMethods method)). all: try done.
Qed.

Lemma ClassifyAction_antitone_witness :
  (ClassifyAction AirlockTierSoft "GET" TransportForward false).1 = true.
Proof.
  apply (ClassifyAction_antitone AirlockTierSoft AirlockTierHard 1 2 "GET" TransportForward false);
    [reflexivity|reflexivity|lia|reflexivity].
Defined.

Lemma ClassifyAction_unknown_tier tier method transport tls :
  AirlockTierOrder tier = None -> (ClassifyAction tier method transport tls).1 = false.
Proof. unfold AirlockTierOrder, ClassifyAction. repeat case_decide; naive_solver. Qed.

(** *** Frozen inventories *)

(** The first freeze of a key wins until it is unfrozen: whatever is frozen
    or unfrozen for other keys, and however often the key is frozen again, a
    tool is allowed exactly when it was in the first inventory. *)
Theorem Freeze_first_wins now now' key tools tools' key' r :
  (r : gmap string frozenEntry) !! key = None -> key <> key' ->
  let r1 := Freeze now key tools r in
  let r2 := Unfreeze key' (Freeze now' key' tools' (Freeze now' key tools' r1)) in
  (forall tool, IsToolAllowed key tool r1 = bool_decide (tool ∈ tools)) /\
  (forall tool, IsToolAllowed key tool r2 = bool_decide (tool ∈ tools)) /\
  (forall tool, IsToolAllowed key tool (Unfreeze key r2) = true).
Proof.
  intros Hn Hne r1 r2.
  assert (H1 : (r1 : gmap string frozenEntry) !! key =
               Some {| fe_tools := list_to_set tools; fe_created := now |}).
  { subst r1. unfold Freeze. rewrite Hn. apply lookup_insert_eq. }
  assert (H2 : (r2 : gmap string frozenEntry) !! key = (r1 : gmap string frozenEntry) !! key).
  { subst r2. unfold Unfreeze. rewrite lookup_delete_ne by done.
    assert (Hf : Freeze now' key tools' r1 = r1) by (unfold Freeze at 1; by rewrite H1).
    rewrite Hf. unfold Freeze at 1. case_match; [done|]. by rewrite lookup_insert_ne. }
  unfold IsToolAllowed. rewrite H2, H1. cbn [fe_tools].
  split_and!; [intros tool; apply bool_decide_ext; set_solver..|].
  intros tool. unfold Unfreeze. by rewrite lookup_delete_eq.
Qed.

Lemma Freeze_first_wins_witness :
  IsToolAllowed "k" "rm" (Freeze 1 "k" ["ls"] NewFrozenToolRegistry) = bool_decide ("rm" ∈ ["ls"]).
Proof. apply (Freeze_first_wins 1 2 "k" ["ls"] ["rm"] "j"); [reflexivity|discriminate]. Defined.

