(* ===== verification/Adaptive.v ===== *)
(** * Adaptive enforcement: the threat score of a session and its recovery

    [SessionState] of [internal/proxy/session.go] with the signals of
    [internal/session/session.go]. A session has one adaptive lane of its own and
    one per destination scope, each with an airlock; signals raise the level of a
    lane, clean requests and timers lower it. A method holds the session's mutex
    for its whole body, so it is one step; its clock readings are arguments. *)

From stdpp Require Import pretty.
From S2P Require Import Prelude GoStrings Float64 Config Taint Escalation Airlock.
Local Open Scope Z_scope.

(** ** Signals *)

Definition SignalType : Type := Z.
Definition SignalBlock : SignalType := 0.
Definition SignalNearMiss : SignalType := 1.
Definition SignalBlockLowSeverity : SignalType := 2.
Definition SignalBlockMediumSeverity : SignalType := 3.
Definition SignalDomainAnomaly : SignalType := 4.
Definition SignalEntropyBudget : SignalType := 5.
Definition SignalFragmentDLP : SignalType := 6.
Definition SignalStrip : SignalType := 7.
Definition SignalShieldRewrite : SignalType := 8.
Definition SignalIPDomainAnomaly : SignalType := 9.
Definition SignalDomainAnomalyCooperative : SignalType := 10.
Definition SignalIPDomainAnomalyCooperative : SignalType := 11.
Definition SignalCrossAgentContamination : SignalType := 12.

(** The map [SignalPoints]; a missing key gives zero. *)
Definition SignalPoints (sig : SignalType) : F64.t :=
  match sig with
  | 0 => F64.of_Z 3 | 1 => F64.of_Z 1 | 2 => F64.of_Z 1 | 3 => F64.of_Z 2 | 4 => F64.of_Z 2 | 5 => F64.of_Z 2
  | 6 => F64.of_Z 3 | 7 => F64.of_Z 2 | 8 => F64.ratio 1 4 | 9 => F64.of_Z 3 | 10 => F64.ratio 2 5
  | 11 => F64.ratio 3 5 | 12 => F64.of_Z 2
  | _ => F64.zero
  end.

Definition escalationLabels : list string := ["normal"; "elevated"; "high"; "critical"].

Definition EscalationLabel (level : Z) : string :=
  if decide (level < 0) then "normal"
  else if decide (Z.of_nat (length escalationLabels) <= level) then "critical"
  else default "" (escalationLabels !! Z.to_nat level).

Definition signalForSessionAnomaly (anomalyType : string) (cooperative : bool) : option SignalType :=
  if decide (anomalyType = "domain_burst") then
    Some (if cooperative then SignalDomainAnomalyCooperative else SignalDomainAnomaly)
  else if decide (anomalyType = "ip_domain_burst") then
    Some (if cooperative then SignalIPDomainAnomalyCooperative else SignalIPDomainAnomaly)
  else None.

(** ** Lanes

    The fields that [SessionState] and [adaptiveScopeState] have in common and that
    the code passes around as a group of pointers. *)

Record lane := {
  ln_threatScore : F64.t;
  ln_escalationLevel : Z;
  ln_currentThreshold : F64.t;
  ln_lastEscalation : Z;
  ln_cleanRequests : Z;
  ln_atBlockAll : bool;
}.

Definition lane_zero : lane :=
  {| ln_threatScore := F64.zero; ln_escalationLevel := 0; ln_currentThreshold := F64.zero;
     ln_lastEscalation := Time.zero; ln_cleanRequests := 0; ln_atBlockAll := false |}.

Definition with_score (x : F64.t) (l : lane) : lane :=
  {| ln_threatScore := x; ln_escalationLevel := ln_escalationLevel l; ln_currentThreshold := ln_currentThreshold l;
     ln_lastEscalation := ln_lastEscalation l; ln_cleanRequests := ln_cleanRequests l; ln_atBlockAll := ln_atBlockAll l |}.
Definition with_clean (n : Z) (l : lane) : lane :=
  {| ln_threatScore := ln_threatScore l; ln_escalationLevel := ln_escalationLevel l; ln_currentThreshold := ln_currentThreshold l;
     ln_lastEscalation := ln_lastEscalation l; ln_cleanRequests := n; ln_atBlockAll := ln_atBlockAll l |}.
Definition with_blockAll (b : bool) (l : lane) : lane :=
  {| ln_threatScore := ln_threatScore l; ln_escalationLevel := ln_escalationLevel l; ln_currentThreshold := ln_currentThreshold l;
     ln_lastEscalation := ln_lastEscalation l; ln_cleanRequests := ln_cleanRequests l; ln_atBlockAll := b |}.

(** A signal: whether the threshold was crossed, and from which level to which. *)
Definition escalation : Type := bool * string * string.

Definition recordAdaptiveSignalFields (sig : SignalType) (initialThreshold : F64.t) (now : Z) (l : lane)
    : escalation * lane :=
  let score := F64.add (ln_threatScore l) (SignalPoints sig) in
  let threshold := if F64.eqb (ln_currentThreshold l) F64.zero && F64.ltb F64.zero initialThreshold
                   then initialThreshold else ln_currentThreshold l in
  if F64.leb threshold F64.zero || F64.ltb score threshold then
    ((false, "", ""),
     {| ln_threatScore := score; ln_escalationLevel := ln_escalationLevel l; ln_currentThreshold := threshold;
        ln_lastEscalation := ln_lastEscalation l; ln_cleanRequests := 0; ln_atBlockAll := ln_atBlockAll l |})
  else
    ((true, EscalationLabel (ln_escalationLevel l), EscalationLabel (ln_escalationLevel l + 1)),
     {| ln_threatScore := score; ln_escalationLevel := ln_escalationLevel l + 1;
        ln_currentThreshold := F64.mul threshold (F64.of_Z 2);
        ln_lastEscalation := now; ln_cleanRequests := 0; ln_atBlockAll := ln_atBlockAll l |}).

Definition decayAdaptiveScore (decayRate : F64.t) (l : lane) : lane :=
  let score := F64.sub (ln_threatScore l) decayRate in
  with_score (if F64.ltb score F64.zero then F64.zero else score) l.

(** A recovery: [(changed, from, to)]. *)
Definition recovery : Type := bool * Z * Z.
Definition unrecovered : recovery := (false, 0, 0).

(** The callback [blockAllCheck] may be nil. *)
Definition deescalateAdaptiveFields (blockAllCheck : option (Z -> bool)) (now : Z) (l : lane) : recovery * lane :=
  if decide (ln_escalationLevel l <= 0) then (unrecovered, l)
  else
    let level := ln_escalationLevel l - 1 in
    let threshold := if F64.ltb F64.zero (ln_currentThreshold l)
                     then F64.div (ln_currentThreshold l) (F64.of_Z 2) else ln_currentThreshold l in
    ((true, ln_escalationLevel l, level),
     {| ln_threatScore := F64.div threshold (F64.of_Z 2); ln_escalationLevel := level; ln_currentThreshold := threshold;
        ln_lastEscalation := now; ln_cleanRequests := 0;
        ln_atBlockAll := match blockAllCheck with Some blocked => blocked level | None => false end |}).

Definition defaultMaxLevelDuration : Z := 5 * Time.minute.
Definition defaultDeescalationCheckInterval : Z := 30 * Time.second.

Definition adaptiveLevelDuration (cfg : option AdaptiveEnforcement) : Z :=
  match cfg with
  | Some c => if decide (ae_LevelDurationSeconds c <= 0) then defaultMaxLevelDuration
              else Time.seconds (ae_LevelDurationSeconds c)
  | None => defaultMaxLevelDuration
  end.

Definition adaptiveDeescalationCheckInterval (cfg : option AdaptiveEnforcement) : Z :=
  match cfg with
  | Some c => if decide (ae_DeescalationCheckSeconds c <= 0) then defaultDeescalationCheckInterval
              else Time.seconds (ae_DeescalationCheckSeconds c)
  | None => defaultDeescalationCheckInterval
  end.

Definition adaptiveBlockAllCheck (cfg : option AdaptiveEnforcement) (level : Z) : bool :=
  bool_decide (UpgradeAction "" level cfg = ActionBlock).

(** The duration that the timed recovery uses. *)
Definition levelDurationOr (levelDuration : Z) : Z :=
  if decide (levelDuration <= 0) then defaultMaxLevelDuration else levelDuration.

Definition adaptiveAutoRecoverAtLocked (level lastEscalation levelDuration : Z) : Z :=
  if decide (level <= 0) then Time.zero
  else if Time.is_zero lastEscalation then Time.zero
  else Time.add lastEscalation (levelDurationOr levelDuration).

(** The timed recovery of one lane: the test at [now1], the change at [now2]. *)
Definition autoRecover (levelDuration : Z) (blockAllCheck : option (Z -> bool)) (now1 now2 : Z) (l : lane) : recovery * lane :=
  if decide (ln_escalationLevel l <= 0) then (unrecovered, l)
  else if Time.is_zero (ln_lastEscalation l) then (unrecovered, l)
  else if decide (Time.sub now1 (ln_lastEscalation l) <= levelDurationOr levelDuration) then (unrecovered, l)
  else deescalateAdaptiveFields blockAllCheck now2 l.

(** ** Session state *)

Record domainEntry := { de_domain : string; de_at : Z }.

Record Anomaly := { an_Type : string; an_Detail : string; an_Score : F64.t }.

Record SessionEvent := {
  ev_At : Z; ev_Kind : string; ev_Type : string; ev_Target : string; ev_Detail : string;
  ev_Severity : string; ev_Score : F64.t;
}.

Record TaskContext := {
  tc_CurrentTaskID : string; tc_CurrentTaskLabel : string; tc_StartedAt : Z; tc_LastBoundaryAt : Z;
}.

Record TrustOverride := {
  to_Scope : string; to_TaskID : string; to_SourceMatch : string; to_ActionMatch : string;
  to_ExpiresAt : Z; to_GrantedBy : string; to_Reason : string;
}.

Record adaptiveScopeState := { sc_lane : lane; sc_airlock : AirlockState }.

Record SessionState := {
  ss_key : string;
  ss_kind : string;
  ss_created : Z;
  ss_lastActivity : Z;
  ss_domainWindows : list domainEntry;
  ss_lastBurstAt : Z;
  ss_lane : lane;
  ss_globalSignalsAuthoritative : bool;
  ss_scopes : gmap string adaptiveScopeState;
  ss_requestCount : Z;
  ss_bytesTotal : Z;
  ss_toolCalls : Z;
  ss_uniqueTools : gset string;
  ss_airlock : AirlockState;
  ss_risk : SessionRisk;
  ss_task : TaskContext;
  ss_runtimeOverrides : list TrustOverride;
  ss_recentEvents : list SessionEvent;
}.

Definition sessionKindIdentity : string := "identity".
Definition sessionKindInvocation : string := "invocation".
Definition airlockSourceTriggers : string := "airlock_triggers".
Definition maxRecentEvents : Z := 20.
Definition maxAdaptiveScopes : Z := 1024.

(** Updates of single fields. *)

Definition with_lane (x : lane) (s : SessionState) : SessionState :=
  {| ss_key := ss_key s; ss_kind := ss_kind s; ss_created := ss_created s;
     ss_lastActivity := ss_lastActivity s; ss_domainWindows := ss_domainWindows s;
     ss_lastBurstAt := ss_lastBurstAt s; ss_lane := x;
     ss_globalSignalsAuthoritative := ss_globalSignalsAuthoritative s; ss_scopes := ss_scopes s;
     ss_requestCount := ss_requestCount s; ss_bytesTotal := ss_bytesTotal s; ss_toolCalls := ss_toolCalls s;
     ss_uniqueTools := ss_uniqueTools s; ss_airlock := ss_airlock s; ss_risk := ss_risk s;
     ss_task := ss_task s; ss_runtimeOverrides := ss_runtimeOverrides s; ss_recentEvents := ss_recentEvents s |}.

Definition with_scopes (x : gmap string adaptiveScopeState) (s : SessionState) : SessionState :=
  {| ss_key := ss_key s; ss_kind := ss_kind s; ss_created := ss_created s;
     ss_lastActivity := ss_lastActivity s; ss_domainWindows := ss_domainWindows s;
     ss_lastBurstAt := ss_lastBurstAt s; ss_lane := ss_lane s;
     ss_globalSignalsAuthoritative := ss_globalSignalsAuthoritative s; ss_scopes := x;
     ss_requestCount := ss_requestCount s; ss_bytesTotal := ss_bytesTotal s; ss_toolCalls := ss_toolCalls s;
     ss_uniqueTools := ss_uniqueTools s; ss_airlock := ss_airlock s; ss_risk := ss_risk s;
     ss_task := ss_task s; ss_runtimeOverrides := ss_runtimeOverrides s; ss_recentEvents := ss_recentEvents s |}.

Definition with_airlock (x : AirlockState) (s : SessionState) : SessionState :=
  {| ss_key := ss_key s; ss_kind := ss_kind s; ss_created := ss_created s;
     ss_lastActivity := ss_lastActivity s; ss_domainWindows := ss_domainWindows s;
     ss_lastBurstAt := ss_lastBurstAt s; ss_lane := ss_lane s;
     ss_globalSignalsAuthoritative := ss_globalSignalsAuthoritative s; ss_scopes := ss_scopes s;
     ss_requestCount := ss_requestCount s; ss_bytesTotal := ss_bytesTotal s; ss_toolCalls := ss_toolCalls s;
     ss_uniqueTools := ss_uniqueTools s; ss_airlock := x; ss_risk := ss_risk s; ss_task := ss_task s;
     ss_runtimeOverrides := ss_runtimeOverrides s; ss_recentEvents := ss_recentEvents s |}.

Definition with_authoritative (x : bool) (s : SessionState) : SessionState :=
  {| ss_key := ss_key s; ss_kind := ss_kind s; ss_created := ss_created s;
     ss_lastActivity := ss_lastActivity s; ss_domainWindows := ss_domainWindows s;
     ss_lastBurstAt := ss_lastBurstAt s; ss_lane := ss_lane s; ss_globalSignalsAuthoritative := x;
     ss_scopes := ss_scopes s; ss_requestCount := ss_requestCount s; ss_bytesTotal := ss_bytesTotal s;
     ss_toolCalls := ss_toolCalls s; ss_uniqueTools := ss_uniqueTools s; ss_airlock := ss_airlock s;
     ss_risk := ss_risk s; ss_task := ss_task s; ss_runtimeOverrides := ss_runtimeOverrides s;
     ss_recentEvents := ss_recentEvents s |}.

Definition with_activity (x : Z) (s : SessionState) : SessionState :=
  {| ss_key := ss_key s; ss_kind := ss_kind s; ss_created := ss_created s; ss_lastActivity := x;
     ss_domainWindows := ss_domainWindows s; ss_lastBurstAt := ss_lastBurstAt s; ss_lane := ss_lane s;
     ss_globalSignalsAuthoritative := ss_globalSignalsAuthoritative s; ss_scopes := ss_scopes s;
     ss_requestCount := ss_requestCount s; ss_bytesTotal := ss_bytesTotal s; ss_toolCalls := ss_toolCalls s;
     ss_uniqueTools := ss_uniqueTools s; ss_airlock := ss_airlock s; ss_risk := ss_risk s;
     ss_task := ss_task s; ss_runtimeOverrides := ss_runtimeOverrides s; ss_recentEvents := ss_recentEvents s |}.

Definition with_risk (x : SessionRisk) (s : SessionState) : SessionState :=
  {| ss_key := ss_key s; ss_kind := ss_kind s; ss_created := ss_created s;
     ss_lastActivity := ss_lastActivity s; ss_domainWindows := ss_domainWindows s;
     ss_lastBurstAt := ss_lastBurstAt s; ss_lane := ss_lane s;
     ss_globalSignalsAuthoritative := ss_globalSignalsAuthoritative s; ss_scopes := ss_scopes s;
     ss_requestCount := ss_requestCount s; ss_bytesTotal := ss_bytesTotal s; ss_toolCalls := ss_toolCalls s;
     ss_uniqueTools := ss_uniqueTools s; ss_airlock := ss_airlock s; ss_risk := x; ss_task := ss_task s;
     ss_runtimeOverrides := ss_runtimeOverrides s; ss_recentEvents := ss_recentEvents s |}.

Definition with_task (x : TaskContext) (s : SessionState) : SessionState :=
  {| ss_key := ss_key s; ss_kind := ss_kind s; ss_created := ss_created s;
     ss_lastActivity := ss_lastActivity s; ss_domainWindows := ss_domainWindows s;
     ss_lastBurstAt := ss_lastBurstAt s; ss_lane := ss_lane s;
     ss_globalSignalsAuthoritative := ss_globalSignalsAuthoritative s; ss_scopes := ss_scopes s;
     ss_requestCount := ss_requestCount s; ss_bytesTotal := ss_bytesTotal s; ss_toolCalls := ss_toolCalls s;
     ss_uniqueTools := ss_uniqueTools s; ss_airlock := ss_airlock s; ss_risk := ss_risk s; ss_task := x;
     ss_runtimeOverrides := ss_runtimeOverrides s; ss_recentEvents := ss_recentEvents s |}.

Definition with_overrides (x : list TrustOverride) (s : SessionState) : SessionState :=
  {| ss_key := ss_key s; ss_kind := ss_kind s; ss_created := ss_created s;
     ss_lastActivity := ss_lastActivity s; ss_domainWindows := ss_domainWindows s;
     ss_lastBurstAt := ss_lastBurstAt s; ss_lane := ss_lane s;
     ss_globalSignalsAuthoritative := ss_globalSignalsAuthoritative s; ss_scopes := ss_scopes s;
     ss_requestCount := ss_requestCount s; ss_bytesTotal := ss_bytesTotal s; ss_toolCalls := ss_toolCalls s;
     ss_uniqueTools := ss_uniqueTools s; ss_airlock := ss_airlock s; ss_risk := ss_risk s;
     ss_task := ss_task s; ss_runtimeOverrides := x; ss_recentEvents := ss_recentEvents s |}.

Definition with_events (x : list SessionEvent) (s : SessionState) : SessionState :=
  {| ss_key := ss_key s; ss_kind := ss_kind s; ss_created := ss_created s;
     ss_lastActivity := ss_lastActivity s; ss_domainWindows := ss_domainWindows s;
     ss_lastBurstAt := ss_lastBurstAt s; ss_lane := ss_lane s;
     ss_globalSignalsAuthoritative := ss_globalSignalsAuthoritative s; ss_scopes := ss_scopes s;
     ss_requestCount := ss_requestCount s; ss_bytesTotal := ss_bytesTotal s; ss_toolCalls := ss_toolCalls s;
     ss_uniqueTools := ss_uniqueTools s; ss_airlock := ss_airlock s; ss_risk := ss_risk s;
     ss_task := ss_task s; ss_runtimeOverrides := ss_runtimeOverrides s; ss_recentEvents := x |}.

(** ** Domain windows *)

Definition countUniqueDomains (entries : list domainEntry) : Z :=
  Z.of_nat (size (list_to_set (de_domain <$> entries) : gset string)).

(** The entries after the cutoff, with the domain if it is not among them. *)
Definition pruneDomainWindow (entries : list domainEntry) (domain : string) (windowCutoff now : Z)
    : list domainEntry * Z :=
  let pruned := filter (fun de => windowCutoff < de_at de) entries in
  let pruned := if decide (domain ∈ de_domain <$> pruned) then pruned
                else pruned ++ [{| de_domain := domain; de_at := now |}] in
  (pruned, countUniqueDomains pruned).

(** [RecordRequest]. The windows are pruned, the anomaly is reported whenever
    the burst threshold is reached, and scored once per window. *)
Definition RecordRequest (domain : string) (cfg : SessionProfiling) (now : Z) (s : SessionState)
    : list Anomaly * SessionState :=
  let windowDur := Time.minutes (sp_WindowMinutes cfg) in
  let windows := (pruneDomainWindow (ss_domainWindows s) domain (now - windowDur) now).1 in
  let uniqueDomains := countUniqueDomains windows in
  let burst := bool_decide (sp_DomainBurst cfg <= uniqueDomains) in
  let scored := Time.is_zero (ss_lastBurstAt s) || bool_decide (windowDur <= Time.sub now (ss_lastBurstAt s)) in
  ((if burst then
      [{| an_Type := "domain_burst";
          an_Detail := pretty uniqueDomains +:+ " new domains in " +:+ pretty (sp_WindowMinutes cfg) +:+
                       "m window (threshold: " +:+ pretty (sp_DomainBurst cfg) +:+ ")";
          an_Score := if scored then F64.of_Z 2 else F64.zero |}]
    else []),
  {| ss_key := ss_key s; ss_kind := ss_kind s; ss_created := ss_created s;
     ss_lastActivity := if ln_atBlockAll (ss_lane s) then ss_lastActivity s else now;
     ss_domainWindows := windows; ss_lastBurstAt := if burst && scored then now else ss_lastBurstAt s;
     ss_lane := ss_lane s; ss_globalSignalsAuthoritative := ss_globalSignalsAuthoritative s;
     ss_scopes := ss_scopes s; ss_requestCount := ss_requestCount s + 1; ss_bytesTotal := ss_bytesTotal s;
     ss_toolCalls := ss_toolCalls s; ss_uniqueTools := ss_uniqueTools s; ss_airlock := ss_airlock s;
     ss_risk := ss_risk s; ss_task := ss_task s; ss_runtimeOverrides := ss_runtimeOverrides s;
     ss_recentEvents := ss_recentEvents s |}).

(** ** Events, counters, taint and tasks *)

(** [RecordEvent]: at the cap the oldest entry is shifted out first. *)
Definition RecordEvent (evt : SessionEvent) (now : Z) (s : SessionState) : SessionState :=
  let evt := if Time.is_zero (ev_At evt)
             then {| ev_At := now; ev_Kind := ev_Kind evt; ev_Type := ev_Type evt; ev_Target := ev_Target evt;
                     ev_Detail := ev_Detail evt; ev_Severity := ev_Severity evt; ev_Score := ev_Score evt |}
             else evt in
  let events := ss_recentEvents s in
  let events := if decide (maxRecentEvents <= Z.of_nat (length events))
                then take (Z.to_nat (maxRecentEvents - 1)) (drop 1 events) else events in
  with_events (events ++ [evt]) s.

Definition RecentEvents (s : SessionState) : list SessionEvent := ss_recentEvents s.

Definition RecordAdaptiveRecoveryEvent (scope reason : string) (from to now : Z) (s : SessionState) : SessionState :=
  RecordEvent {| ev_At := Time.zero; ev_Kind := "adaptive_deescalate"; ev_Type := reason; ev_Target := scope;
                 ev_Detail := EscalationLabel from +:+ "->" +:+ EscalationLabel to; ev_Severity := "info";
                 ev_Score := F64.zero |} now s.

Definition RecordBytes (n : Z) (s : SessionState) : SessionState :=
  {| ss_key := ss_key s; ss_kind := ss_kind s; ss_created := ss_created s;
     ss_lastActivity := ss_lastActivity s; ss_domainWindows := ss_domainWindows s;
     ss_lastBurstAt := ss_lastBurstAt s; ss_lane := ss_lane s;
     ss_globalSignalsAuthoritative := ss_globalSignalsAuthoritative s; ss_scopes := ss_scopes s;
     ss_requestCount := ss_requestCount s; ss_bytesTotal := wrap64 (ss_bytesTotal s + n);
     ss_toolCalls := ss_toolCalls s; ss_uniqueTools := ss_uniqueTools s; ss_airlock := ss_airlock s;
     ss_risk := ss_risk s; ss_task := ss_task s; ss_runtimeOverrides := ss_runtimeOverrides s;
     ss_recentEvents := ss_recentEvents s |}.

Definition RecordToolCall (toolName : string) (s : SessionState) : SessionState :=
  {| ss_key := ss_key s; ss_kind := ss_kind s; ss_created := ss_created s;
     ss_lastActivity := ss_lastActivity s; ss_domainWindows := ss_domainWindows s;
     ss_lastBurstAt := ss_lastBurstAt s; ss_lane := ss_lane s;
     ss_globalSignalsAuthoritative := ss_globalSignalsAuthoritative s; ss_scopes := ss_scopes s;
     ss_requestCount := ss_requestCount s; ss_bytesTotal := ss_bytesTotal s;
     ss_toolCalls := ss_toolCalls s + 1; ss_uniqueTools := {[toolName]} ∪ ss_uniqueTools s;
     ss_airlock := ss_airlock s; ss_risk := ss_risk s; ss_task := ss_task s;
     ss_runtimeOverrides := ss_runtimeOverrides s; ss_recentEvents := ss_recentEvents s |}.

Definition RiskSnapshot (s : SessionState) : SessionRisk := ss_risk s.

Definition ObserveRisk (observation : RiskObservation) (now : Z) (s : SessionState) : SessionState :=
  with_risk (Observe now observation (ss_risk s)) s.

(** The identifiers of tasks are generated: they are arguments. *)
Definition newTaskContext (taskID label : string) (now : Z) : TaskContext :=
  {| tc_CurrentTaskID := taskID; tc_CurrentTaskLabel := label; tc_StartedAt := now; tc_LastBoundaryAt := now |}.

(** The guard that a session without a task gets one. *)
Definition ensureTask (taskID : string) (now : Z) (s : SessionState) : SessionState :=
  if decide (tc_CurrentTaskID (ss_task s) = "") then with_task (newTaskContext taskID "" now) s else s.

Definition TaskSnapshot (taskID : string) (now : Z) (s : SessionState) : TaskContext * SessionState :=
  let s := ensureTask taskID now s in (ss_task s, s).

Definition RuntimeTrustOverrides (s : SessionState) : list TrustOverride := ss_runtimeOverrides s.

(** The overrides that a task boundary clears. *)
Definition boundTo (taskID : string) (o : TrustOverride) : Prop := to_TaskID o <> "" /\ to_TaskID o = taskID.

#[export] Instance boundTo_dec taskID o : Decision (boundTo taskID o).
Proof. unfold boundTo. apply _. Defined.

(** [BeginNewTask]: the previous and the new task, and how many overrides were
    cleared. *)
Definition BeginNewTask (taskID1 taskID2 label : string) (now : Z) (s : SessionState)
    : (TaskContext * TaskContext * Z) * SessionState :=
  let s := ensureTask taskID1 now s in
  let prev := ss_task s in
  let cleared := filter (boundTo (tc_CurrentTaskID prev)) (ss_runtimeOverrides s) in
  let kept := filter (fun o => ~ boundTo (tc_CurrentTaskID prev) o) (ss_runtimeOverrides s) in
  let task := newTaskContext taskID2 label now in
  ((prev, task, Z.of_nat (length cleared)),
   with_activity now (with_overrides kept (with_risk SessionRisk_zero (with_task task s)))).

Definition AddRuntimeTrustOverride (override : TrustOverride) (taskID : string) (now1 now2 : Z) (s : SessionState)
    : TrustOverride * SessionState :=
  let s := ensureTask taskID now1 s in
  let override :=
    if decide (to_Scope override = "task" /\ to_TaskID override = "")
    then {| to_Scope := to_Scope override; to_TaskID := tc_CurrentTaskID (ss_task s);
            to_SourceMatch := to_SourceMatch override; to_ActionMatch := to_ActionMatch override;
            to_ExpiresAt := to_ExpiresAt override; to_GrantedBy := to_GrantedBy override;
            to_Reason := to_Reason override |}
    else override in
  (override, with_activity now2 (with_overrides (ss_runtimeOverrides s ++ [override]) s)).

(** ** Metrics of the behavioural baseline *)

Record BaselineMetrics := {
  bm_ToolCalls : Z; bm_UniqueTools : Z; bm_ToolIdentities : list string; bm_Domains : Z; bm_Requests : Z;
  bm_BytesTotal : Z; bm_DurationSec : F64.t;
}.

Definition sortedToolIdentities (tools : gset string) : list string := merge_sort String.le (elements tools).

(** [Duration.Seconds]. *)
Definition Seconds (d : Z) : F64.t :=
  F64.add (F64.of_Z (Z.quot d Time.second)) (F64.div (F64.of_Z (Z.rem d Time.second)) (F64.of_Z 1000000000)).

Definition metricsOf (toolCalls uniqueTools : Z) (identities : list string) (s : SessionState) : BaselineMetrics :=
  {| bm_ToolCalls := toolCalls; bm_UniqueTools := uniqueTools; bm_ToolIdentities := identities;
     bm_Domains := countUniqueDomains (ss_domainWindows s); bm_Requests := ss_requestCount s;
     bm_BytesTotal := ss_bytesTotal s; bm_DurationSec := Seconds (Time.sub (ss_lastActivity s) (ss_created s)) |}.

Definition BaselineMetrics_of (s : SessionState) : BaselineMetrics :=
  metricsOf (ss_toolCalls s) (Z.of_nat (size (ss_uniqueTools s))) (sortedToolIdentities (ss_uniqueTools s)) s.

Definition ProvisionalToolCallMetrics (toolName : string) (s : SessionState) : BaselineMetrics :=
  let unique := Z.of_nat (size (ss_uniqueTools s)) in
  let identities := sortedToolIdentities (ss_uniqueTools s) in
  metricsOf (ss_toolCalls s + 1) (if decide (toolName ∈ ss_uniqueTools s) then unique else unique + 1)
    (if decide (toolName <> "" /\ toolName ∉ identities) then merge_sort String.le (identities ++ [toolName]) else identities) s.

(** ** A fresh session *)

Definition newSession (key kind taskID : string) (now : Z) : SessionState :=
  {| ss_key := key; ss_kind := kind; ss_created := now; ss_lastActivity := now; ss_domainWindows := [];
     ss_lastBurstAt := Time.zero; ss_lane := lane_zero; ss_globalSignalsAuthoritative := false; ss_scopes := ∅;
     ss_requestCount := 0; ss_bytesTotal := 0; ss_toolCalls := 0; ss_uniqueTools := ∅;
     ss_airlock := NewAirlockState; ss_risk := SessionRisk_zero; ss_task := newTaskContext taskID "" now;
     ss_runtimeOverrides := []; ss_recentEvents := [] |}.

(** ** Reset

    The scoped airlocks call their cancel functions and go; the third result
    lists these connections. The session airlock is released. *)
Definition resetWhileLocked (now : Z) (s : SessionState) : (F64.t * Z * list nat) * SessionState :=
  let scoped := concat ((fun kv : string * adaptiveScopeState => as_cancelFuncs (sc_airlock kv.2)) <$> map_to_list (ss_scopes s)) in
  let airlock := callCancelFuncsLocked (enterTier now AirlockTierNone "" "" (ss_airlock s)) in
  ((ln_threatScore (ss_lane s), ln_escalationLevel (ss_lane s), scoped),
  {| ss_key := ss_key s; ss_kind := ss_kind s; ss_created := ss_created s; ss_lastActivity := now;
     ss_domainWindows := []; ss_lastBurstAt := Time.zero;
     ss_lane := {| ln_threatScore := F64.zero; ln_escalationLevel := 0; ln_currentThreshold := F64.zero;
       ln_lastEscalation := Time.zero; ln_cleanRequests := ln_cleanRequests (ss_lane s); ln_atBlockAll := false |};
     ss_globalSignalsAuthoritative := false; ss_scopes := ∅; ss_requestCount := 0; ss_bytesTotal := 0;
     ss_toolCalls := 0; ss_uniqueTools := ∅; ss_airlock := with_cancels [] (as_cancelled airlock) airlock;
     ss_risk := ss_risk s; ss_task := ss_task s; ss_runtimeOverrides := ss_runtimeOverrides s;
     ss_recentEvents := [] |}).

Definition Reset (now : Z) (s : SessionState) : (F64.t * Z * list nat) * SessionState := resetWhileLocked now s.

(** ** Signals, clean requests and recovery

    [unicode_lower] is [strings.ToLower] on strings that are not ASCII. *)
Section session.
Context (unicode_lower : string -> string).

Definition normalizeAdaptiveScope (scope : string) : string :=
  Strings.ToLower unicode_lower (Strings.TrimSpace scope).

Definition adaptiveScopeForHost (host : string) : string :=
  let host := normalizeAdaptiveScope host in
  if decide (host = "") then "" else "destination:" +:+ host.

Definition newScope : adaptiveScopeState := {| sc_lane := lane_zero; sc_airlock := NewAirlockState |}.

(** [None] when the scope is empty or the cap of scopes is reached. *)
Definition getOrCreateScopeLocked (scope : string) (s : SessionState) : option adaptiveScopeState * SessionState :=
  let scope := normalizeAdaptiveScope scope in
  if decide (scope = "") then (None, s)
  else
    match ss_scopes s !! scope with
    | Some st => (Some st, s)
    | None =>
        if decide (maxAdaptiveScopes <= Z.of_nat (size (ss_scopes s))) then (None, s)
        else (Some newScope, with_scopes (<[scope := newScope]> (ss_scopes s)) s)
    end.

(** Writing through the pointer that [getOrCreateScopeLocked] returned. *)
Definition setScope (scope : string) (st : adaptiveScopeState) (s : SessionState) : SessionState :=
  with_scopes (<[normalizeAdaptiveScope scope := st]> (ss_scopes s)) s.

Definition with_scopeLane (l : lane) (st : adaptiveScopeState) : adaptiveScopeState :=
  {| sc_lane := l; sc_airlock := sc_airlock st |}.

(** A method of the airlock that [AirlockForScope] returns, called at once. *)
Definition AirlockForScope {A} (f : AirlockState -> A * AirlockState) (scope : string) (s : SessionState) : A * SessionState :=
  let onSession := let '(a, al) := f (ss_airlock s) in (a, with_airlock al s) in
  let scope := normalizeAdaptiveScope scope in
  if decide (scope = "") then onSession
  else
    match getOrCreateScopeLocked scope s with
    | (None, _) => onSession
    | (Some st, s) =>
        let '(a, al) := f (sc_airlock st) in
        (a, setScope scope {| sc_lane := sc_lane st; sc_airlock := al |} s)
    end.

Definition AirlockTier (s : SessionState) : string := as_tier (ss_airlock s).

Definition EscalateAirlock (tier trigger : string) (now : Z) (s : SessionState) : transition * SessionState :=
  let '(r, al) := SetTierWithProvenance now tier trigger airlockSourceTriggers (ss_airlock s) in (r, with_airlock al s).

Definition IsResettable (s : SessionState) : bool := bool_decide (ss_kind s = sessionKindIdentity).

Definition RecordSignal (sig : SignalType) (threshold : F64.t) (now : Z) (s : SessionState) : escalation * SessionState :=
  let '(r, l) := recordAdaptiveSignalFields sig threshold now (ss_lane s) in
  (r, with_authoritative true (with_lane l s)).

(** A scoped signal is mirrored into the lane of the session; past the cap of
    scopes it counts there only. *)
Definition RecordScopedSignal (scope : string) (sig : SignalType) (threshold : F64.t) (now1 now2 : Z) (s : SessionState)
    : escalation * SessionState :=
  let scope := normalizeAdaptiveScope scope in
  if decide (scope = "") then RecordSignal sig threshold now1 s
  else
    match getOrCreateScopeLocked scope s with
    | (None, s) =>
        let '(r, l) := recordAdaptiveSignalFields sig threshold now1 (ss_lane s) in
        (r, with_lane l (with_authoritative true s))
    | (Some st, s) =>
        let '(r, l) := recordAdaptiveSignalFields sig threshold now1 (sc_lane st) in
        let '(_, g) := recordAdaptiveSignalFields sig threshold now2 (ss_lane s) in
        (r, with_lane g (setScope scope (with_scopeLane l st) s))
    end.

Definition RecordClean (decayRate : F64.t) (s : SessionState) : SessionState :=
  with_lane (decayAdaptiveScore decayRate (ss_lane s)) s.

(** The clean-request recovery of a lane after its decay; the first component
    tells whether the lane dropped a level. *)
Definition cleanRecovery (cleanToDrop : Z) (blockAllCheck : option (Z -> bool)) (now : Z) (l : lane) : recovery * lane :=
  if decide (cleanToDrop <= 0 \/ ln_escalationLevel l <= 0) then (unrecovered, l)
  else
    let l := with_clean (ln_cleanRequests l + 1) l in
    if decide (ln_cleanRequests l < cleanToDrop) then (unrecovered, l)
    else deescalateAdaptiveFields blockAllCheck now l.

Definition RecordCleanWithRecovery (decayRate : F64.t) (cleanToDrop : Z) (blockAllCheck : option (Z -> bool)) (now : Z)
    (s : SessionState) : recovery * SessionState :=
  let '(r, l) := cleanRecovery cleanToDrop blockAllCheck now (decayAdaptiveScore decayRate (ss_lane s)) in
  (r, with_lane l s).

(** The lane of a scope that exists, changed by [f]. *)
Definition onScopeLane (scope : string) (f : lane -> lane) (s : SessionState) : SessionState :=
  with_scopes (alter (fun st => with_scopeLane (f (sc_lane st)) st) scope (ss_scopes s)) s.

Definition RecordScopedClean (scope : string) (decayRate : F64.t) (s : SessionState) : SessionState :=
  let scope := normalizeAdaptiveScope scope in
  if decide (scope = "") then RecordClean decayRate s
  else RecordClean decayRate (onScopeLane scope (decayAdaptiveScore decayRate) s).

(** When the scope drops a level the method returns before it decays the lane of
    the session. *)
Definition RecordScopedCleanWithRecovery (scope : string) (decayRate : F64.t) (cleanToDrop : Z)
    (blockAllCheck : option (Z -> bool)) (now : Z) (s : SessionState) : recovery * SessionState :=
  let scope := normalizeAdaptiveScope scope in
  if decide (scope = "") then RecordCleanWithRecovery decayRate cleanToDrop blockAllCheck now s
  else
    match ss_scopes s !! scope with
    | Some st =>
        let '(r, l) := cleanRecovery cleanToDrop blockAllCheck now (decayAdaptiveScore decayRate (sc_lane st)) in
        let s := with_scopes (<[scope := with_scopeLane l st]> (ss_scopes s)) s in
        if r.1.1 then (r, s) else (unrecovered, RecordClean decayRate s)
    | None => (unrecovered, RecordClean decayRate s)
    end.

Definition SetBlockAll (blocked : bool) (s : SessionState) : SessionState := with_lane (with_blockAll blocked (ss_lane s)) s.

Definition SetScopedBlockAll (scope : string) (blocked : bool) (s : SessionState) : SessionState :=
  let scope := normalizeAdaptiveScope scope in
  if decide (scope = "") then SetBlockAll blocked s
  else
    match getOrCreateScopeLocked scope s with
    | (None, s) => SetBlockAll blocked s
    | (Some st, s) => setScope scope (with_scopeLane (with_blockAll blocked (sc_lane st)) st) s
    end.

Definition BlockAll (s : SessionState) : bool := ln_atBlockAll (ss_lane s).
Definition EscalationLevel (s : SessionState) : Z := ln_escalationLevel (ss_lane s).
Definition IsEscalated (s : SessionState) : bool := bool_decide (0 < EscalationLevel s).
Definition ThreatScore (s : SessionState) : F64.t := ln_threatScore (ss_lane s).

Definition ScopedEscalationLevel (scope : string) (s : SessionState) : Z :=
  let scope := normalizeAdaptiveScope scope in
  if decide (scope = "") then EscalationLevel s
  else match ss_scopes s !! scope with Some st => ln_escalationLevel (sc_lane st) | None => 0 end.

Definition EffectiveEscalationLevel (scope : string) (s : SessionState) : Z :=
  let level := match ss_scopes s !! normalizeAdaptiveScope scope with
               | Some st => ln_escalationLevel (sc_lane st) | None => 0 end in
  if decide (ss_globalSignalsAuthoritative s = true /\ level < EscalationLevel s) then EscalationLevel s else level.

Definition ScopedThreatScore (scope : string) (s : SessionState) : F64.t :=
  let scope := normalizeAdaptiveScope scope in
  if decide (scope = "") then ThreatScore s
  else match ss_scopes s !! scope with Some st => ln_threatScore (sc_lane st) | None => F64.zero end.

Definition AdaptiveAutoRecoverAt (levelDuration : Z) (s : SessionState) : Z :=
  adaptiveAutoRecoverAtLocked (EscalationLevel s) (ln_lastEscalation (ss_lane s)) levelDuration.

Definition ScopedAdaptiveAutoRecoverAt (scope : string) (levelDuration : Z) (s : SessionState) : Z :=
  let scope := normalizeAdaptiveScope scope in
  if decide (scope = "") then AdaptiveAutoRecoverAt levelDuration s
  else
    let globalETA := if ss_globalSignalsAuthoritative s then AdaptiveAutoRecoverAt levelDuration s else Time.zero in
    match ss_scopes s !! scope with
    | Some st =>
        if decide (ss_globalSignalsAuthoritative s = true /\ ln_escalationLevel (sc_lane st) < EscalationLevel s) then globalETA
        else adaptiveAutoRecoverAtLocked (ln_escalationLevel (sc_lane st)) (ln_lastEscalation (sc_lane st)) levelDuration
    | None => globalETA
    end.

Definition TryAutoRecover (levelDuration : Z) (blockAllCheck : option (Z -> bool)) (now1 now2 : Z) (s : SessionState)
    : recovery * SessionState :=
  let '(r, l) := autoRecover levelDuration blockAllCheck now1 now2 (ss_lane s) in (r, with_lane l s).

(** The transitions of the scopes that changed; their order is that of a map. *)
Definition TryAutoRecoverScopes (levelDuration : Z) (blockAllCheck : option (Z -> bool)) (now : Z) (s : SessionState)
    : gmap string (Z * Z) * SessionState :=
  (omap (fun st => match (autoRecover levelDuration blockAllCheck now now (sc_lane st)).1 with
                   | (true, from, to) => Some (from, to) | _ => None end) (ss_scopes s),
   with_scopes ((fun st => with_scopeLane (autoRecover levelDuration blockAllCheck now now (sc_lane st)).2 st) <$> ss_scopes s) s).

(** [nows] are the clock readings of the scopes. *)
Definition TryDeescalateScopedAirlocks (timers : AirlockTimers) (nows : string -> Z) (s : SessionState)
    : gmap string (string * string) * SessionState :=
  (map_imap (fun scope st => match (TryDeescalate (nows scope) timers (sc_airlock st)).1 with
                             | (true, from, to) => Some (from, to) | _ => None end) (ss_scopes s),
   with_scopes (map_imap (fun scope st => Some {| sc_lane := sc_lane st;
                                                  sc_airlock := (TryDeescalate (nows scope) timers (sc_airlock st)).2 |})
                  (ss_scopes s)) s).

(** [recomputeScopedBlockAll], of [UpdateConfig]. *)
Definition recomputeScopedBlockAll (cfg : option AdaptiveEnforcement) (s : SessionState) : SessionState :=
  let blocked level := match cfg with
                       | Some c => ae_Enabled c && bool_decide (UpgradeAction "" level (Some c) = ActionBlock)
                       | None => false end in
  with_scopes ((fun st => with_scopeLane (with_blockAll (blocked (ln_escalationLevel (sc_lane st))) (sc_lane st)) st)
               <$> ss_scopes s) s.

(** ** Histories of a session

    The methods that change a session; those of an airlock carry their own clock
    reading, the others read the clock at most twice. *)
Inductive session_op :=
| OpRequest (domain : string) (cfg : SessionProfiling)
| OpSignal (sig : SignalType) (threshold : F64.t)
| OpScopedSignal (scope : string) (sig : SignalType) (threshold : F64.t)
| OpClean (decayRate : F64.t)
| OpCleanWithRecovery (decayRate : F64.t) (cleanToDrop : Z) (blockAllCheck : option (Z -> bool))
| OpScopedClean (scope : string) (decayRate : F64.t)
| OpScopedCleanWithRecovery (scope : string) (decayRate : F64.t) (cleanToDrop : Z) (blockAllCheck : option (Z -> bool))
| OpSetBlockAll (blocked : bool)
| OpSetScopedBlockAll (scope : string) (blocked : bool)
| OpAutoRecover (levelDuration : Z) (blockAllCheck : option (Z -> bool))
| OpAutoRecoverScopes (levelDuration : Z) (blockAllCheck : option (Z -> bool))
| OpScopedAirlocks (timers : AirlockTimers) (nows : string -> Z)
| OpAirlock (op : airlock_op)
| OpAirlockForScope (scope : string) (op : airlock_op)
| OpRecompute (cfg : option AdaptiveEnforcement)
| OpEvent (evt : SessionEvent)
| OpBytes (n : Z)
| OpToolCall (toolName : string)
| OpObserveRisk (observation : RiskObservation)
| OpTaskSnapshot (taskID : string)
| OpBeginNewTask (taskID1 taskID2 label : string)
| OpOverride (override : TrustOverride) (taskID : string)
| OpReset.

Definition apply_session_op (op : session_op) (now1 now2 : Z) (s : SessionState) : SessionState :=
  match op with
  | OpRequest d cfg => (RecordRequest d cfg now2 s).2
  | OpSignal sig th => (RecordSignal sig th now2 s).2
  | OpScopedSignal sc sig th => (RecordScopedSignal sc sig th now1 now2 s).2
  | OpClean r => RecordClean r s
  | OpCleanWithRecovery r n b => (RecordCleanWithRecovery r n b now2 s).2
  | OpScopedClean sc r => RecordScopedClean sc r s
  | OpScopedCleanWithRecovery sc r n b => (RecordScopedCleanWithRecovery sc r n b now2 s).2
  | OpSetBlockAll b => SetBlockAll b s
  | OpSetScopedBlockAll sc b => SetScopedBlockAll sc b s
  | OpAutoRecover d b => (TryAutoRecover d b now1 now2 s).2
  | OpAutoRecoverScopes d b => (TryAutoRecoverScopes d b now2 s).2
  | OpScopedAirlocks timers nows => (TryDeescalateScopedAirlocks timers nows s).2
  | OpAirlock op => with_airlock (apply_op op (ss_airlock s)) s
  | OpAirlockForScope sc op => (AirlockForScope (fun a => (tt, apply_op op a)) sc s).2
  | OpRecompute cfg => recomputeScopedBlockAll cfg s
  | OpEvent evt => RecordEvent evt now2 s
  | OpBytes n => RecordBytes n s
  | OpToolCall name => RecordToolCall name s
  | OpObserveRisk o => ObserveRisk o now2 s
  | OpTaskSnapshot id => (TaskSnapshot id now2 s).2
  | OpBeginNewTask id1 id2 label => (BeginNewTask id1 id2 label now2 s).2
  | OpOverride o id => (AddRuntimeTrustOverride o id now1 now2 s).2
  | OpReset => (Reset now2 s).2
  end.

Definition is_signal (op : session_op) : bool :=
  match op with OpSignal _ _ | OpScopedSignal _ _ _ => true | _ => false end.

(** [session_run P t s t' s']: methods that satisfy [P], at times that do not
    decrease, lead from [s] at [t] to [s'] at [t']. *)
Inductive session_run (P : session_op -> Prop) : Z -> SessionState -> Z -> SessionState -> Prop :=
| run_nil t s : session_run P t s t s
| run_step t s t' s' op now1 now2 :
    session_run P t s t' s' -> P op -> t' <= now1 <= now2 ->
    session_run P t s now2 (apply_session_op op now1 now2 s').

Definition quiet (op : session_op) : Prop := is_signal op = false.

(** ** What a method does to the lanes *)

(** The lane of the session satisfies [G] and those of the scopes [P]. *)
Definition all_lanes (G P : lane -> Prop) (s : SessionState) : Prop :=
  G (ss_lane s) /\ map_Forall (fun _ st => P (sc_lane st)) (ss_scopes s).

(** A lane keeps its level and the time of its last change, drops, or, on a
    signal, rises by one. *)
Inductive lane_step (signal : bool) (now1 now2 : Z) (l l' : lane) : Prop :=
| lane_keep :
    ln_escalationLevel l' = ln_escalationLevel l -> ln_lastEscalation l' = ln_lastEscalation l ->
    lane_step signal now1 now2 l l'
| lane_drop :
    0 <= ln_escalationLevel l' <= Z.max 0 (ln_escalationLevel l - 1) ->
    (0 < ln_escalationLevel l' -> ln_lastEscalation l' = now2) ->
    lane_step signal now1 now2 l l'
| lane_rise :
    signal = true -> ln_escalationLevel l' = ln_escalationLevel l + 1 -> now1 <= ln_lastEscalation l' <= now2 ->
    lane_step signal now1 now2 l l'.

Lemma lane_step_refl b now1 now2 l : lane_step b now1 now2 l l.
Proof. by apply lane_keep. Qed.

Lemma lane_step_zero b now1 now2 l : lane_step b now1 now2 l lane_zero.
Proof. apply lane_drop; cbn; lia. Qed.

Lemma recordAdaptive_step sig th now now1 now2 l :
  now1 <= now <= now2 -> lane_step true now1 now2 l (recordAdaptiveSignalFields sig th now l).2.
Proof.
  intros Hn. unfold recordAdaptiveSignalFields. cbv zeta. destruct (F64.leb _ _ || F64.ltb _ _); [by apply lane_keep|].
  by apply lane_rise.
Qed.

Lemma deescalate_step b now1 now2 l blocked : lane_step b now1 now2 l (deescalateAdaptiveFields blocked now2 l).2.
Proof.
  unfold deescalateAdaptiveFields. destruct (decide (ln_escalationLevel l <= 0)); [apply lane_step_refl|].
  apply lane_drop; cbn; lia.
Qed.

Lemma autoRecover_step b d blocked now now1 now2 l : lane_step b now1 now2 l (autoRecover d blocked now now2 l).2.
Proof. unfold autoRecover. repeat (case_match; try apply lane_step_refl). apply deescalate_step. Qed.

(** The decay before a clean recovery does not matter. *)
Lemma cleanRecovery_step b r n blocked now1 now2 l :
  lane_step b now1 now2 l (cleanRecovery n blocked now2 (decayAdaptiveScore r l)).2.
Proof.
  unfold cleanRecovery, deescalateAdaptiveFields. destruct (decide (_ \/ _)); [by apply lane_keep|]. cbv zeta.
  destruct (decide (_ < n)); [by apply lane_keep|]. destruct (decide (_ <= 0)); [by apply lane_keep|]. apply lane_drop; cbn in *; lia.
Qed.

Lemma all_lanes_insert G P scope st s :
  all_lanes G P s -> P (sc_lane st) -> all_lanes G P (with_scopes (<[scope := st]> (ss_scopes s)) s).
Proof. intros [H1 H2] Hst. split; [done|]. by apply map_Forall_insert_2. Qed.

Lemma all_lanes_scope G P s scope st : all_lanes G P s -> ss_scopes s !! scope = Some st -> P (sc_lane st).
Proof. intros [_ H] Hst. by apply (H scope). Qed.

Lemma getOrCreate_lanes G P scope s :
  all_lanes G P s -> P lane_zero ->
  all_lanes G P (getOrCreateScopeLocked scope s).2 /\
  (forall st, (getOrCreateScopeLocked scope s).1 = Some st -> P (sc_lane st)).
Proof.
  intros H H0. unfold getOrCreateScopeLocked. destruct (decide (_ = "")); [done|].
  destruct (ss_scopes s !! _) as [st|] eqn:E.
  - split; [done|]. intros ? [= <-]. by eapply all_lanes_scope.
  - destruct (decide (_ <= _)); [done|]. split; [by apply all_lanes_insert|]. by intros ? [= <-].
Qed.

(** Every method takes the lanes by steps: what steps preserve, methods do. *)
Section lanes.
Context (G P : lane -> Prop) (b : bool) (now1 now2 : Z).
Hypothesis G_step : forall l l', G l -> lane_step b now1 now2 l l' -> G l'.
Hypothesis P_step : forall l l', P l -> lane_step b now1 now2 l l' -> P l'.
Hypothesis P_zero : P lane_zero.

Lemma all_lanes_global f s :
  (forall l, lane_step b now1 now2 l (f l)) -> all_lanes G P s -> all_lanes G P (with_lane (f (ss_lane s)) s).
Proof. intros Hf [H1 H2]. split; [by apply (G_step (ss_lane s))|done]. Qed.

Lemma all_lanes_setScope scope f st s :
  (forall l, lane_step b now1 now2 l (f l)) -> all_lanes G P s -> P (sc_lane st) ->
  all_lanes G P (setScope scope (with_scopeLane (f (sc_lane st)) st) s).
Proof. intros Hf H Hst. apply all_lanes_insert; [done|]. by apply (P_step (sc_lane st)). Qed.

Lemma all_lanes_fmap f s :
  (forall st, lane_step b now1 now2 (sc_lane st) (sc_lane (f st))) -> all_lanes G P s ->
  all_lanes G P (with_scopes (f <$> ss_scopes s) s).
Proof.
  intros Hf [H1 H2]. split; [done|]. intros scope st' (st & <- & Hst)%lookup_fmap_Some.
  by apply (P_step (sc_lane st)); [apply (H2 scope)|].
Qed.

Lemma RecordSignal_lanes sig th now s :
  b = true -> now1 <= now <= now2 -> all_lanes G P s -> all_lanes G P (RecordSignal sig th now s).2.
Proof.
  intros Hb Hn H. unfold RecordSignal.
  pose proof (all_lanes_global (fun l => (recordAdaptiveSignalFields sig th now l).2) s) as Hg. cbn beta in Hg.
  destruct (recordAdaptiveSignalFields sig th now (ss_lane s)) as [r l]. apply Hg; [|done].
  intros l'. rewrite Hb. by apply recordAdaptive_step.
Qed.

Lemma RecordScopedSignal_lanes scope sig th s :
  b = true -> now1 <= now2 -> all_lanes G P s -> all_lanes G P (RecordScopedSignal scope sig th now1 now2 s).2.
Proof.
  intros Hb Hn H. unfold RecordScopedSignal. destruct (decide (_ = "")); [apply RecordSignal_lanes; [done|lia|done]|].
  pose proof (getOrCreate_lanes G P (normalizeAdaptiveScope scope) s H P_zero) as [Hs Hst].
  destruct (getOrCreateScopeLocked _ s) as [[st|] s1]; cbn [fst snd] in *.
  - specialize (Hst st eq_refl).
    pose proof (all_lanes_setScope (normalizeAdaptiveScope scope) (fun l => (recordAdaptiveSignalFields sig th now1 l).2) st s1) as Hset. cbn beta in Hset.
    destruct (recordAdaptiveSignalFields sig th now1 (sc_lane st)) as [r l].
    assert (all_lanes G P (setScope (normalizeAdaptiveScope scope) (with_scopeLane l st) s1)) as H1
      by (apply Hset; [intros; rewrite Hb; apply recordAdaptive_step; lia|done|done]).
    pose proof (recordAdaptive_step sig th now2 now1 now2 (ss_lane s1)) as Hg.
    destruct (recordAdaptiveSignalFields sig th now2 (ss_lane s1)) as [r' g].
    split; [|apply H1]. apply (G_step (ss_lane s1)); [apply Hs|]. rewrite Hb. apply Hg. lia.
  - apply (RecordSignal_lanes sig th now1 s1); [done|lia|done].
Qed.

Lemma RecordCleanWithRecovery_lanes r n blocked s :
  all_lanes G P s -> all_lanes G P (RecordCleanWithRecovery r n blocked now2 s).2.
Proof.
  intros H. unfold RecordCleanWithRecovery.
  pose proof (all_lanes_global (fun l => (cleanRecovery n blocked now2 (decayAdaptiveScore r l)).2) s) as Hg. cbn beta in Hg.
  destruct (cleanRecovery _ _ _ _) as [x l]. apply Hg; [|done]. intros. apply cleanRecovery_step.
Qed.

Lemma RecordClean_lanes r s : all_lanes G P s -> all_lanes G P (RecordClean r s).
Proof. apply (all_lanes_global (decayAdaptiveScore r)). intros l. by apply lane_keep. Qed.

Lemma RecordScopedClean_lanes scope r s : all_lanes G P s -> all_lanes G P (RecordScopedClean scope r s).
Proof.
  intros H. unfold RecordScopedClean. destruct (decide (_ = "")); [by apply RecordClean_lanes|]. apply RecordClean_lanes.
  destruct H as [H1 H2]. split; [done|]. intros scope' st' Hst. cbn in Hst.
  rewrite lookup_alter_Some in Hst. destruct Hst as [(<- & st & Hst & ->)|[_ Hst]]; [|by apply (H2 scope')].
  apply (P_step (sc_lane st)); [by apply (H2 (normalizeAdaptiveScope scope))|by apply lane_keep].
Qed.

Lemma RecordScopedCleanWithRecovery_lanes scope r n blocked s :
  all_lanes G P s -> all_lanes G P (RecordScopedCleanWithRecovery scope r n blocked now2 s).2.
Proof.
  intros H. unfold RecordScopedCleanWithRecovery. destruct (decide (_ = "")); [by apply RecordCleanWithRecovery_lanes|].
  destruct (ss_scopes s !! _) as [st|] eqn:E; [|by apply RecordClean_lanes].
  pose proof (cleanRecovery_step b r n blocked now1 now2 (sc_lane st)) as Hc.
  destruct (cleanRecovery _ _ _ _) as [x l]. cbn [snd] in Hc.
  assert (all_lanes G P (with_scopes (<[normalizeAdaptiveScope scope := with_scopeLane l st]> (ss_scopes s)) s)) as H1
    by (apply all_lanes_insert; [done|]; apply (P_step (sc_lane st)); [by eapply all_lanes_scope|done]).
  destruct x.1.1; [done|]. by apply RecordClean_lanes.
Qed.

Lemma SetBlockAll_lanes blocked s : all_lanes G P s -> all_lanes G P (SetBlockAll blocked s).
Proof. apply (all_lanes_global (with_blockAll blocked)). intros l. by apply lane_keep. Qed.

Lemma SetScopedBlockAll_lanes scope blocked s : all_lanes G P s -> all_lanes G P (SetScopedBlockAll scope blocked s).
Proof.
  intros H. unfold SetScopedBlockAll. destruct (decide (_ = "")); [by apply SetBlockAll_lanes|].
  pose proof (getOrCreate_lanes G P (normalizeAdaptiveScope scope) s H P_zero) as [Hs Hst].
  destruct (getOrCreateScopeLocked _ s) as [[st|] s1]; cbn [fst snd] in *; [|by apply SetBlockAll_lanes].
  apply (all_lanes_setScope _ (with_blockAll blocked)); [intros; by apply lane_keep|done|by apply Hst].
Qed.

Lemma AirlockForScope_lanes {A} (f : AirlockState -> A * AirlockState) scope s :
  all_lanes G P s -> all_lanes G P (AirlockForScope f scope s).2.
Proof.
  intros H. unfold AirlockForScope. destruct (f (ss_airlock s)) as [a al]. destruct (decide (_ = "")); [done|].
  pose proof (getOrCreate_lanes G P (normalizeAdaptiveScope scope) s H P_zero) as [Hs Hst].
  destruct (getOrCreateScopeLocked _ s) as [[st|] s1]; cbn [fst snd] in *; [|done].
  destruct (f (sc_airlock st)) as [a' al']. apply all_lanes_insert; [done|]. exact (Hst st eq_refl).
Qed.

Lemma TryDeescalateScopedAirlocks_lanes timers nows s :
  all_lanes G P s -> all_lanes G P (TryDeescalateScopedAirlocks timers nows s).2.
Proof.
  intros [H1 H2]. split; [done|]. intros scope st' Hst. cbn in Hst. rewrite map_lookup_imap in Hst.
  apply bind_Some in Hst as (st & Hst & [= <-]). exact (H2 scope st Hst).
Qed.

Lemma TryAutoRecover_lanes d blocked s : all_lanes G P s -> all_lanes G P (TryAutoRecover d blocked now1 now2 s).2.
Proof.
  intros H. unfold TryAutoRecover.
  pose proof (all_lanes_global (fun l => (autoRecover d blocked now1 now2 l).2) s) as Hg. cbn beta in Hg.
  destruct (autoRecover _ _ _ _ _) as [x l]. apply Hg; [|done]. intros. apply autoRecover_step.
Qed.

Lemma Reset_lanes s : all_lanes G P s -> all_lanes G P (Reset now2 s).2.
Proof.
  intros [H _]. split; [|by apply map_Forall_empty]. apply (G_step (ss_lane s)); [done|]. apply lane_drop; cbn; lia.
Qed.

Lemma ensureTask_lanes id now s : all_lanes G P s -> all_lanes G P (ensureTask id now s).
Proof. unfold ensureTask. by destruct (decide _). Qed.
End lanes.

Lemma apply_lanes G P op now1 now2 s :
  now1 <= now2 ->
  (forall l l', G l -> lane_step (is_signal op) now1 now2 l l' -> G l') ->
  (forall l l', P l -> lane_step (is_signal op) now1 now2 l l' -> P l') -> P lane_zero ->
  all_lanes G P s -> all_lanes G P (apply_session_op op now1 now2 s).
Proof.
  intros Hn HG HP H0 H. destruct op; cbn [apply_session_op is_signal] in *; try done.
  - apply (RecordSignal_lanes G P true now1 now2); [done|done|lia|done].
  - by apply (RecordScopedSignal_lanes G P true now1 now2).
  - by apply (RecordClean_lanes G P false now1 now2).
  - by apply (RecordCleanWithRecovery_lanes G P false now1 now2).
  - by apply (RecordScopedClean_lanes G P false now1 now2).
  - by apply (RecordScopedCleanWithRecovery_lanes G P false now1 now2).
  - by apply (SetBlockAll_lanes G P false now1 now2).
  - by apply (SetScopedBlockAll_lanes G P false now1 now2).
  - by apply (TryAutoRecover_lanes G P false now1 now2).
  - apply (all_lanes_fmap G P false now1 now2 HP); [|done]. intros st. apply autoRecover_step.
  - by apply (TryDeescalateScopedAirlocks_lanes G P).
  - by apply (AirlockForScope_lanes G P).
  - apply (all_lanes_fmap G P false now1 now2 HP); [|done]. intros st. by apply lane_keep.
  - by apply (ensureTask_lanes G P).
  - by apply (ensureTask_lanes G P taskID1 now2).
  - by apply (ensureTask_lanes G P).
  - by apply (Reset_lanes G P false now1 now2).
Qed.

(** ** Recovery *)

(** Levels are not negative and a positive one was reached in the past. *)
Definition lane_ok (t : Z) (l : lane) : Prop :=
  0 <= ln_escalationLevel l /\ (0 < ln_escalationLevel l -> 0 < ln_lastEscalation l <= t).

Definition session_ok (t : Z) (s : SessionState) : Prop := all_lanes (lane_ok t) (lane_ok t) s.

Lemma lane_ok_zero t : lane_ok t lane_zero.
Proof. split; cbn; lia. Qed.

Lemma lane_step_ok b now1 now2 l l' :
  0 < now1 <= now2 -> lane_ok now2 l -> lane_step b now1 now2 l l' -> lane_ok now2 l'.
Proof. intros Hn [H1 H2] [E1 E2|E1 E2|_ E1 E2]; split; lia. Qed.

Lemma run_le P t s t' s' : session_run P t s t' s' -> t <= t'.
Proof. induction 1; lia. Qed.

Lemma session_ok_later t t' s : t <= t' -> session_ok t s -> session_ok t' s.
Proof.
  assert (forall l, t <= t' -> lane_ok t l -> lane_ok t' l) as Hl by (unfold lane_ok; lia).
  intros Ht [H1 H2]. split; [by apply Hl|]. eapply map_Forall_impl; [exact H2|]. intros. by apply Hl.
Qed.

Lemma apply_ok op t now1 now2 s :
  0 < t -> t <= now1 <= now2 -> session_ok t s -> session_ok now2 (apply_session_op op now1 now2 s).
Proof.
  intros Ht Hn H. apply apply_lanes; [lia| | |apply lane_ok_zero|eapply session_ok_later; [|exact H]; lia].
  all: intros l l'; apply lane_step_ok; lia.
Qed.

Lemma run_ok P t s t' s' : 0 < t -> session_run P t s t' s' -> session_ok t s -> session_ok t' s'.
Proof.
  intros Ht H H0. induction H as [|t s t' s' op now1 now2 H IH _ Hn]; [done|]. pose proof (run_le _ _ _ _ _ H).
  eapply (apply_ok _ t'); [lia|done|auto].
Qed.

Lemma newSession_ok key kind id now : session_ok now (newSession key kind id now).
Proof. split; [apply lane_ok_zero|apply map_Forall_empty]. Qed.

(** [due n t]: a level of at most [n], reached by [t] when it is [n]: the timed
    recovery of a round that started at [t] brings it below [n]. *)
Definition due (n t : Z) (l : lane) : Prop :=
  0 <= ln_escalationLevel l <= n /\
  (0 < ln_escalationLevel l -> 0 < ln_lastEscalation l) /\
  (ln_escalationLevel l = n -> ln_lastEscalation l <= t).
Definition at_most (n : Z) (l : lane) : Prop := ln_escalationLevel l <= n.

Lemma due_quiet n t now1 now2 l l' : 0 < now2 -> 0 < n -> due n t l -> lane_step false now1 now2 l l' -> due n t l'.
Proof. intros Ht Hn (H1 & H2 & H3) [E1 E2|E1 E2|? _ _]; [split_and!|split_and!|]; try lia; done. Qed.

Lemma at_most_quiet n now1 now2 l l' : 0 <= n -> at_most n l -> lane_step false now1 now2 l l' -> at_most n l'.
Proof. unfold at_most. intros Hn H [E1 E2|E1 E2|? _ _]; [lia|lia|done]. Qed.

(** What the steps without signals preserve. *)
Definition kept (Q : lane -> Prop) : Prop :=
  forall now1 now2 l l', 0 < now2 -> Q l -> lane_step false now1 now2 l l' -> Q l'.

Lemma run_quiet (G P : lane -> Prop) t s t' s' :
  0 < t -> kept G -> kept P -> P lane_zero -> session_run quiet t s t' s' -> all_lanes G P s -> all_lanes G P s'.
Proof.
  intros Ht HG HP Hz H H0. induction H as [|t s t' s' op now1 now2 H IH Hq Hn]; [done|]. pose proof (run_le _ _ _ _ _ H).
  apply apply_lanes; [lia| | |done|by apply IH]; rewrite Hq; intros l l'; [apply HG|apply HP]; lia.
Qed.

(** The recovery of a due lane. *)
Lemma autoRecover_due n t d blocked now1 now2 l :
  0 < n -> levelDurationOr d < Time.sub now1 t -> due n t l -> at_most (n - 1) (autoRecover d blocked now1 now2 l).2.
Proof.
  intros Hn Hd (H1 & H2 & H3). unfold at_most, autoRecover, deescalateAdaptiveFields.
  destruct (decide (ln_escalationLevel l <= 0)); [cbn; lia|]. unfold Time.is_zero, Time.zero.
  case_bool_decide as Hz; [lia|].
  destruct (decide (Time.sub now1 (ln_lastEscalation l) <= levelDurationOr d)) as [Hs|Hs]; [|cbn; lia].
  cbn. unfold Time.sub in *. destruct (decide (ln_escalationLevel l = n)); lia.
Qed.

(** [round d t s t' s']: no signals, and a sweep of the session and of its scopes
    more than the level duration after the start of the round. *)
Inductive round (d : Z) : Z -> SessionState -> Z -> SessionState -> Prop :=
| round_intro t s u s1 now1 now2 v s2 now t' s3 blocked blocked' :
    session_run quiet t s u s1 -> u <= now1 <= now2 -> levelDurationOr d < Time.sub now1 t ->
    session_run quiet now2 (TryAutoRecover d blocked now1 now2 s1).2 v s2 ->
    v <= now -> levelDurationOr d < Time.sub now t ->
    session_run quiet now (TryAutoRecoverScopes d blocked' now s2).2 t' s3 ->
    round d t s t' s3.

Inductive rounds (d : Z) : nat -> Z -> SessionState -> Z -> SessionState -> Prop :=
| rounds_nil t s : rounds d 0 t s t s
| rounds_step n t s t' s' t'' s'' : rounds d n t s t' s' -> round d t' s' t'' s'' -> rounds d (S n) t s t'' s''.

(** One round takes a level off every lane at the top level. *)
Lemma round_levels n d t s t' s' :
  0 < t -> 0 < n -> session_ok t s -> all_lanes (at_most n) (at_most n) s -> round d t s t' s' ->
  all_lanes (at_most (n - 1)) (at_most (n - 1)) s'.
Proof.
  intros Ht Hn [Hok1 Hok2] [Hm1 Hm2] H. destruct H as [t s u s1 now1 now2 v s2 now t' s3 bl bl' R1 L1 D1 R2 L2 D2 R3].
  pose proof (run_le _ _ _ _ _ R1). pose proof (run_le _ _ _ _ _ R2).
  assert (forall l, lane_ok t l -> at_most n l -> due n t l) as Hdue
    by (unfold lane_ok, at_most, due; intros l [H1 H2] H3; split_and!; lia).
  assert (kept (due n t)) as Kd by (intros ?; intros; by eapply due_quiet).
  assert (kept (at_most (n - 1))) as Km by (intros ?; intros; eapply at_most_quiet; [lia|done|done]).
  assert (due n t lane_zero /\ at_most (n - 1) lane_zero) as [Zd Zm] by (unfold due, at_most; cbn; lia).
  apply (run_quiet (due n t) (due n t)) in R1 as [G1 S1]; [|lia|done|done|done|].
  2: { split; [auto|]. intros k st Hk. apply Hdue; [by apply (Hok2 k)|by apply (Hm2 k)]. }
  apply (run_quiet (at_most (n - 1)) (due n t)) in R2 as [G2 S2]; [|lia|done|done|done|].
  2: { unfold TryAutoRecover. pose proof (autoRecover_due n t d bl now1 now2 (ss_lane s1) Hn D1 G1) as Hl.
       destruct (autoRecover _ _ _ _ _) as [x l]. by split. }
  apply (run_quiet (at_most (n - 1)) (at_most (n - 1))) in R3; [done|lia|done|done|done|].
  split; [done|]. intros k st' (st & <- & Hst)%lookup_fmap_Some. by apply (autoRecover_due n t); [| |apply (S2 k)].
Qed.

Lemma round_ok d t s t' s' : 0 < t -> session_ok t s -> round d t s t' s' -> session_ok t' s' /\ t <= t'.
Proof.
  intros Ht Hok H. destruct H as [t s u s1 now1 now2 v s2 now t' s3 bl bl' R1 L1 D1 R2 L2 D2 R3].
  pose proof (run_le _ _ _ _ _ R1). pose proof (run_le _ _ _ _ _ R2). pose proof (run_le _ _ _ _ _ R3). split; [|lia].
  eapply run_ok in R1; [|lia|done].
  eapply run_ok in R2; [|lia|by apply (apply_ok (OpAutoRecover d bl) u); [lia|lia|]].
  eapply run_ok in R3; [done|lia|by apply (apply_ok (OpAutoRecoverScopes d bl') v now now); [lia|lia|]].
Qed.

Lemma rounds_levels d n t s t' s' :
  0 < t -> session_ok t s -> rounds d n t s t' s' ->
  session_ok t' s' /\ t <= t' /\ forall k, 0 <= k -> all_lanes (at_most (k + Z.of_nat n)) (at_most (k + Z.of_nat n)) s ->
    all_lanes (at_most k) (at_most k) s'.
Proof.
  intros Ht Hok H. induction H as [t s|n t s t' s' t'' s'' H IH Hr].
  - split_and!; [done|done|]. intros k Hk. by rewrite Nat2Z.inj_0, Z.add_0_r.
  - destruct (IH Ht Hok) as (Hok' & Hle & Hl). destruct (round_ok d t' s' t'' s'') as [? ?]; [lia|done|done|].
    split_and!; [done|lia|]. intros k Hk Hs. replace k with (k + 1 - 1) by lia.
    eapply round_levels; [| |exact Hok'| |exact Hr]; [lia|lia|]. apply Hl; [lia|]. by rewrite <- Z.add_assoc, Z.add_1_l, <- Nat2Z.inj_succ.
Qed.

Lemma EffectiveEscalationLevel_le scope n s :
  0 <= n -> all_lanes (at_most n) (at_most n) s -> EffectiveEscalationLevel scope s <= n.
Proof.
  intros Hn [H1 H2]. unfold EffectiveEscalationLevel, EscalationLevel. unfold at_most in *. cbv zeta. case_decide; [done|].
  destruct (ss_scopes s !! _) as [st|] eqn:E; [by apply (H2 _ st E)|done].
Qed.

(** C37: escalation does not last. Whatever a session has been through since it was
    created, if no signals arrive during [n] rounds, each of which has a sweep of
    the session and of its scopes more than the level duration after its start,
    then every level has dropped by [n] or to zero, whatever clean requests,
    clean-request recoveries, airlock transitions and other traffic came in
    between. After as many rounds as the highest level, the escalation upgrades
    no action of any destination. *)
Theorem escalation_recovers key kind id t0 t s d n t' s' k :
  0 < t0 -> session_run (fun _ => True) t0 (newSession key kind id t0) t s ->
  rounds d n t s t' s' -> 0 <= k -> all_lanes (at_most (k + Z.of_nat n)) (at_most (k + Z.of_nat n)) s ->
  all_lanes (at_most k) (at_most k) s' /\
  (k = 0 -> forall scope base cfg, UpgradeAction base (EffectiveEscalationLevel scope s') cfg = base).
Proof.
  intros Ht0 H0 H Hk Hs. pose proof (run_le _ _ _ _ _ H0).
  destruct (rounds_levels d n t s t' s') as (_ & _ & Hl); [lia|eapply run_ok; [exact Ht0|exact H0|apply newSession_ok]|done|].
  specialize (Hl k Hk Hs). split; [done|]. intros -> scope base cfg.
  pose proof (EffectiveEscalationLevel_le scope 0 s' (Z.le_refl 0) Hl). unfold UpgradeAction. destruct cfg as [c|]; [|done].
  destruct (ae_Enabled c); [|done]. cbn [negb]. by rewrite decide_True by lia.
Qed.
End session.

(** ** A session that escalates and recovers *)

Definition demo_new : SessionState := newSession "agent|10.0.0.1" sessionKindIdentity "task-1" 1.

Definition demo_signal : session_op := OpScopedSignal "destination:example.com" SignalBlock (F64.of_Z 5).

(** Two blocked requests to one destination cross the threshold of five. *)
Definition demo_escalated : SessionState :=
  apply_session_op id demo_signal 3 3 (apply_session_op id demo_signal 2 2 demo_new).

Example demo_levels :
  EffectiveEscalationLevel id "destination:example.com" demo_escalated = 1 /\
  EffectiveEscalationLevel id "destination:example.org" demo_escalated = 0 /\
  EscalationLevel demo_escalated = 1.
Proof. by vm_compute. Qed.

#[export] Instance at_most_dec n l : Decision (at_most n l).
Proof. unfold at_most. apply _. Defined.

Definition demo_sweep : Z := 4 + 10 * Time.second.

Definition demo_recovered : SessionState :=
  (TryAutoRecoverScopes Time.second None (demo_sweep + 1)
     (TryAutoRecover Time.second None demo_sweep demo_sweep demo_escalated).2).2.

Lemma escalation_recovers_witness :
  EffectiveEscalationLevel id "destination:example.com" demo_escalated = 1 /\
  EffectiveEscalationLevel id "destination:example.com" demo_recovered = 0 /\
  UpgradeAction ActionWarn (EffectiveEscalationLevel id "destination:example.com" demo_recovered)
    (Some (defaultAdaptive defaultLevels)) = ActionWarn.
Proof.
  split; [by vm_compute|]. split; [by vm_compute|].
  destruct (escalation_recovers id "agent|10.0.0.1" sessionKindIdentity "task-1" 1 3 demo_escalated Time.second 1
              (demo_sweep + 1) demo_recovered 0) as [_ H]; [| | | | |by apply H].
  - done.
  - apply (run_step id _ 1 demo_new 2 _ demo_signal 3 3); [|done|done].
    apply (run_step id _ 1 demo_new 1 _ demo_signal 2 2); [|done|done]. apply run_nil.
  - apply (rounds_step id _ 0 3 demo_escalated 3 demo_escalated); [apply rounds_nil|].
    apply (round_intro id Time.second 3 demo_escalated 3 demo_escalated demo_sweep demo_sweep demo_sweep
             (TryAutoRecover Time.second None demo_sweep demo_sweep demo_escalated).2 (demo_sweep + 1) (demo_sweep + 1)
             demo_recovered None None); try apply run_nil; by vm_compute.
  - done.
  - split; [by vm_compute|]. apply (bool_decide_unpack _). by vm_compute.
Defined.
