(* ===== verification/Sessions.v ===== *)
(** * The session manager: sessions by key, eviction, cleanup and operator resets

    [SessionManager] of [internal/proxy/session.go]. The Go map holds pointers,
    and callers keep the pointer of a session that was evicted; here the map leads
    to the index of a session in a store that only grows. A method that holds the
    manager's mutex is one step. Clock readings, generated task identifiers and
    the order in which Go visits a map are arguments. *)

From stdpp Require Import pretty.
From S2P Require Import Prelude GoStrings Float64 Config Taint Escalation Airlock Adaptive.
Local Open Scope Z_scope.

(** ** Keys *)

Definition AnonymousAgent : string := "anonymous".

(** [identitykey.ForAgentAndClient]. *)
Definition sessionKeyFor (agent clientIP : string) : string :=
  if decide (agent = "" \/ agent = AnonymousAgent) then clientIP else agent +:+ "|" +:+ clientIP.

Definition invocationPrefixes : list string := ["mcp-stdio-"; "mcp-http-"; "mcp-ws-"].

Definition kindOf (key : string) : string :=
  if existsb (Strings.HasPrefix key) invocationPrefixes then sessionKindInvocation else sessionKindIdentity.

(** [(kind, agent, clientIP)]. A separator at the start does not count. *)
Definition classifySessionKey (key : string) : string * string * string :=
  if existsb (Strings.HasPrefix key) invocationPrefixes then (sessionKindInvocation, "", "")
  else match Strings.cutLast key "|" with
       | Some (EmptyString, _) | None => (sessionKindIdentity, "", key)
       | Some (agent, ip) => (sessionKindIdentity, agent, ip)
       end.

Definition baselineAgentKeyForSessionKey (key : string) : string :=
  let '(kind, agent, _) := classifySessionKey key in
  if decide (kind = sessionKindIdentity /\ agent <> "") then agent else key.

(** ** State *)

Record SessionManager := {
  sm_sessions : gmap string nat;
  sm_store : list SessionState;
  sm_ipDomains : gmap string (list domainEntry);
  sm_ipBurstCooldown : gmap string Z;
  sm_cfg : SessionProfiling;
  sm_adaptiveCfg : option AdaptiveEnforcement;
  sm_airlockCfg : option AirlockConfig;
}.

Definition NewSessionManager (cfg : SessionProfiling) (adaptiveCfg : option AdaptiveEnforcement)
    (airlockCfg : option AirlockConfig) : SessionManager :=
  {| sm_sessions := ∅; sm_store := []; sm_ipDomains := ∅; sm_ipBurstCooldown := ∅;
     sm_cfg := cfg; sm_adaptiveCfg := adaptiveCfg; sm_airlockCfg := airlockCfg |}.

Definition with_sessions (x : gmap string nat) (sm : SessionManager) : SessionManager :=
  {| sm_sessions := x; sm_store := sm_store sm; sm_ipDomains := sm_ipDomains sm;
     sm_ipBurstCooldown := sm_ipBurstCooldown sm; sm_cfg := sm_cfg sm;
     sm_adaptiveCfg := sm_adaptiveCfg sm; sm_airlockCfg := sm_airlockCfg sm |}.

Definition with_store (x : list SessionState) (sm : SessionManager) : SessionManager :=
  {| sm_sessions := sm_sessions sm; sm_store := x; sm_ipDomains := sm_ipDomains sm;
     sm_ipBurstCooldown := sm_ipBurstCooldown sm; sm_cfg := sm_cfg sm;
     sm_adaptiveCfg := sm_adaptiveCfg sm; sm_airlockCfg := sm_airlockCfg sm |}.

Definition with_ip (domains : gmap string (list domainEntry)) (cooldown : gmap string Z) (sm : SessionManager) : SessionManager :=
  {| sm_sessions := sm_sessions sm; sm_store := sm_store sm; sm_ipDomains := domains;
     sm_ipBurstCooldown := cooldown; sm_cfg := sm_cfg sm;
     sm_adaptiveCfg := sm_adaptiveCfg sm; sm_airlockCfg := sm_airlockCfg sm |}.

Definition with_config (cfg : SessionProfiling) (adaptiveCfg : option AdaptiveEnforcement)
    (airlockCfg : option AirlockConfig) (sm : SessionManager) : SessionManager :=
  {| sm_sessions := sm_sessions sm; sm_store := sm_store sm; sm_ipDomains := sm_ipDomains sm;
     sm_ipBurstCooldown := sm_ipBurstCooldown sm; sm_cfg := cfg;
     sm_adaptiveCfg := adaptiveCfg; sm_airlockCfg := airlockCfg |}.

(** A method of the session at a pointer. *)
Definition onSession {A} (p : nat) (f : SessionState -> A * SessionState) (sm : SessionManager) : option A * SessionManager :=
  match sm_store sm !! p with
  | Some s => let '(a, s') := f s in (Some a, with_store (<[p := s']> (sm_store sm)) sm)
  | None => (None, sm)
  end.

Definition update (p : nat) (f : SessionState -> SessionState) (sm : SessionManager) : SessionManager :=
  with_store (alter f p (sm_store sm)) sm.

(** The session under a key. *)
Definition sessionAt (key : string) (sm : SessionManager) : option (nat * SessionState) :=
  p ← sm_sessions sm !! key; s ← sm_store sm !! p; Some (p, s).

Definition SessionByKey (key : string) (sm : SessionManager) : option nat := sm_sessions sm !! key.
Definition SessionExists (key : string) (sm : SessionManager) : bool := bool_decide (is_Some (sm_sessions sm !! key)).
Definition Len (sm : SessionManager) : Z := Z.of_nat (size (sm_sessions sm)).

(** ** Eviction *)

(** The test that exempts a session from eviction: it reads the session-wide
    airlock only. *)
Definition quarantined (s : SessionState) : bool :=
  bool_decide (AirlockTier s <> AirlockTierNone /\ AirlockTier s <> "").

(** The loop of [evictOldest] over the keys in the order of the map. An empty
    [oldestKey] stands for "none yet". *)
Fixpoint oldestOf (order : list string) (sm : SessionManager) (oldestKey : string) (oldestTime : Z) (oldest : option nat)
    : string * option nat :=
  match order with
  | [] => (oldestKey, oldest)
  | key :: order =>
      match sessionAt key sm with
      | None => oldestOf order sm oldestKey oldestTime oldest
      | Some (p, s) =>
          if quarantined s then oldestOf order sm oldestKey oldestTime oldest
          else if decide (oldestKey = "" \/ ss_lastActivity s < oldestTime)
               then oldestOf order sm key (ss_lastActivity s) (Some p)
               else oldestOf order sm oldestKey oldestTime oldest
      end
  end.

Definition evictOldest (order : list string) (sm : SessionManager) : option nat * SessionManager :=
  let '(oldestKey, oldest) := oldestOf order sm "" Time.zero None in
  (oldest, if decide (oldestKey = "") then sm else with_sessions (delete oldestKey (sm_sessions sm)) sm).

(** The pointer of the session, and that of the session evicted for it, whose
    metrics the caller records. *)
Definition GetOrCreate (key : string) (order : list string) (taskID : string) (now : Z) (sm : SessionManager)
    : (nat * option nat) * SessionManager :=
  match sm_sessions sm !! key with
  | Some p => ((p, None), sm)
  | None =>
      let '(evicted, sm) := if decide (sp_MaxSessions (sm_cfg sm) <= Len sm) then evictOldest order sm else (None, sm) in
      let p := length (sm_store sm) in
      ((p, evicted),
       with_sessions (<[key := p]> (sm_sessions sm))
         (with_store (sm_store sm ++ [newSession key (kindOf key) taskID now]) sm))
  end.

Definition Delete (key : string) (sm : SessionManager) : SessionManager :=
  if decide (key = "") then sm else with_sessions (delete key (sm_sessions sm)) sm.

(** ** Domains by client address *)

Definition RecordIPDomain (clientIP domain : string) (cfg : SessionProfiling) (now : Z) (sm : SessionManager)
    : list Anomaly * SessionManager :=
  let windowDur := Time.minutes (sp_WindowMinutes cfg) in
  let '(pruned, uniqueDomains) := pruneDomainWindow (default [] (sm_ipDomains sm !! clientIP)) domain (now - windowDur) now in
  let domains := <[clientIP := pruned]> (sm_ipDomains sm) in
  if decide (sp_DomainBurst cfg <= uniqueDomains) then
    let lastBurst := default Time.zero (sm_ipBurstCooldown sm !! clientIP) in
    let scored := Time.is_zero lastBurst || bool_decide (windowDur <= Time.sub now lastBurst) in
    ([{| an_Type := "ip_domain_burst";
         an_Detail := pretty uniqueDomains +:+ " unique domains from IP in " +:+ pretty (sp_WindowMinutes cfg) +:+
                      "m window (threshold: " +:+ pretty (sp_DomainBurst cfg) +:+ ")";
         an_Score := if scored then F64.of_Z 3 else F64.zero |}],
     with_ip domains (if scored then <[clientIP := now]> (sm_ipBurstCooldown sm) else sm_ipBurstCooldown sm) sm)
  else ([], with_ip domains (sm_ipBurstCooldown sm) sm).

(** ** Configuration *)

Definition recomputeBlockAll (adaptiveCfg : option AdaptiveEnforcement) (s : SessionState) : SessionState :=
  match adaptiveCfg with
  | Some c =>
      if ae_Enabled c
      then recomputeScopedBlockAll (Some c) (SetBlockAll (bool_decide (UpgradeAction "" (EscalationLevel s) (Some c) = ActionBlock)) s)
      else recomputeScopedBlockAll None (SetBlockAll false s)
  | None => recomputeScopedBlockAll None (SetBlockAll false s)
  end.

(** The pointers in the map. *)
Definition pointers (sm : SessionManager) : list nat := (map_to_list (sm_sessions sm)).*2.

Definition updateAll (f : SessionState -> SessionState) (ps : list nat) (sm : SessionManager) : SessionManager :=
  foldr (fun p sm => update p f sm) sm ps.

Definition UpdateConfig (cfg : SessionProfiling) (adaptiveCfg : option AdaptiveEnforcement)
    (airlockCfg : option AirlockConfig) (sm : SessionManager) : SessionManager :=
  let sm := with_config cfg adaptiveCfg airlockCfg sm in
  updateAll (recomputeBlockAll adaptiveCfg) (pointers sm) sm.

(** ** Operator actions *)

Inductive AdminError := ErrInvocationReset | ErrTaskScopeOnly.

(** The burst state of a client address is shared by its identities. *)
Definition clearIP (ip : string) (sm : SessionManager) : SessionManager :=
  if decide (ip = "") then sm else with_ip (delete ip (sm_ipDomains sm)) (delete ip (sm_ipBurstCooldown sm)) sm.

(** The reset and the snapshot after it, which starts a task when there is none. *)
Definition resetAndSnapshot (taskID : string) (now : Z) (s : SessionState) : SessionState :=
  (TaskSnapshot taskID now (Reset now s).2).2.

Definition ResetSession (key taskID : string) (now : Z) (sm : SessionManager) : bool * SessionManager :=
  let ip := (classifySessionKey key).2 in
  match sessionAt key sm with
  | None => (false, sm)
  | Some (p, s) => (true, update p (resetAndSnapshot taskID now) (clearIP ip sm))
  end.

(** [found] and the error. *)
Definition ResetSessionIfResettable (key taskID : string) (now : Z) (sm : SessionManager) : (bool * option AdminError) * SessionManager :=
  let ip := (classifySessionKey key).2 in
  match sessionAt key sm with
  | None => ((false, None), sm)
  | Some (p, s) =>
      if decide (ss_kind s <> sessionKindIdentity) then ((true, Some ErrInvocationReset), sm)
      else ((true, None), update p (resetAndSnapshot taskID now) (clearIP ip sm))
  end.

(** The state before the reset is part of the answer. *)
Definition SnapshotAndResetIfResettable (key : string) (now : Z) (sm : SessionManager)
    : (option SessionState * bool * option AdminError) * SessionManager :=
  let ip := (classifySessionKey key).2 in
  match sessionAt key sm with
  | None => ((None, false, None), sm)
  | Some (p, s) =>
      if decide (ss_kind s <> sessionKindIdentity) then ((None, true, Some ErrInvocationReset), sm)
      else ((Some s, true, None), update p (fun s => (resetWhileLocked now s).2) (clearIP ip sm))
  end.

(** How many sessions were reset and skipped. The kind is that of the key. *)
Definition ResetAllIdentitySessions (now : Z) (sm : SessionManager) : (Z * Z) * SessionManager :=
  let identity := filter (fun kp => (classifySessionKey kp.1).1.1 = sessionKindIdentity) (map_to_list (sm_sessions sm)) in
  ((Z.of_nat (length identity), Len sm - Z.of_nat (length identity)),
   with_ip ∅ ∅ (updateAll (fun s => (resetWhileLocked now s).2) identity.*2 sm)).

(** [withMutableIdentitySession]: found, the error, and the result of the change. *)
Definition withMutableIdentitySession {A} (key : string) (mutate : SessionState -> A * SessionState) (sm : SessionManager)
    : (bool * option AdminError * option A) * SessionManager :=
  match sessionAt key sm with
  | None => ((false, None, None), sm)
  | Some (p, s) =>
      if IsResettable s then let '(a, sm) := onSession p mutate sm in ((true, None, a), sm)
      else ((true, Some ErrInvocationReset, None), sm)
  end.

Definition ManagerBeginNewTask (key label taskID1 taskID2 : string) (now : Z) (sm : SessionManager)
    : (bool * option AdminError * option (TaskContext * TaskContext * Z)) * SessionManager :=
  withMutableIdentitySession key (BeginNewTask taskID1 taskID2 label now) sm.

Definition ManagerAddRuntimeTrustOverride (key : string) (override : TrustOverride) (taskID : string) (now1 now2 : Z)
    (sm : SessionManager) : (bool * option AdminError * option TrustOverride) * SessionManager :=
  if decide (to_Scope override <> "task") then ((false, Some ErrTaskScopeOnly, None), sm)
  else withMutableIdentitySession key (AddRuntimeTrustOverride override taskID now1 now2) sm.

Definition plainEvent (kind target detail severity : string) : SessionEvent :=
  {| ev_At := Time.zero; ev_Kind := kind; ev_Type := ""; ev_Target := target; ev_Detail := detail;
     ev_Severity := severity; ev_Score := F64.zero |}.

Definition forceAirlock (tier : string) (now1 now2 : Z) (s : SessionState) : transition * SessionState :=
  let '((changed, from, to), al) := ForceSetTierWithProvenance now1 tier airlockTriggerManual airlockSourceAdminAPI (ss_airlock s) in
  let s := with_airlock al s in
  ((changed, from, to),
   if changed then RecordEvent (plainEvent "airlock_override" to (from +:+ "->" +:+ to) "warn") now2 s else s).

(** [None] when the key has no session. *)
Definition ForceSetAirlockTier (key tier : string) (now1 now2 : Z) (sm : SessionManager) : option transition * SessionManager :=
  match sessionAt key sm with
  | None => (None, sm)
  | Some (p, _) => onSession p (forceAirlock tier now1 now2) sm
  end.

(** ** Maintenance *)

(** Idle since before the cutoff and not exempt. *)
Definition expired (cutoff : Z) (sm : SessionManager) (p : nat) : bool :=
  match sm_store sm !! p with
  | Some s => bool_decide (ss_lastActivity s < cutoff) && negb (quarantined s)
  | None => false
  end.

Definition pruned (windowCutoff : Z) (es : list domainEntry) : list domainEntry := filter (fun de => windowCutoff < de_at de) es.

(** An address none of whose entries is left. *)
Definition emptied (windowCutoff : Z) (sm : SessionManager) (ip : string) : bool :=
  match sm_ipDomains sm !! ip with
  | Some es => match pruned windowCutoff es with [] => true | _ => false end
  | None => false
  end.

(** The pointers of the evicted sessions; [now1] and [now2] are the readings for
    the sessions and for the windows of the addresses. *)
Definition cleanup (now1 now2 : Z) (sm : SessionManager) : list nat * SessionManager :=
  let cutoff := now1 - Time.minutes (sp_SessionTTLMinutes (sm_cfg sm)) in
  let windowCutoff := now2 - Time.minutes (sp_WindowMinutes (sm_cfg sm)) in
  (filter (fun p => expired cutoff sm p = true) (pointers sm),
   with_ip (omap (fun es => match pruned windowCutoff es with [] => None | es' => Some es' end) (sm_ipDomains sm))
     (filter (fun kv => emptied windowCutoff sm kv.1 = false) (sm_ipBurstCooldown sm))
     (with_sessions (filter (fun kp => expired cutoff sm kp.2 = false) (sm_sessions sm)) sm)).

(** The clock readings of the sweep of one session. *)
Record sweep_clock := {
  sw_test : Z; sw_change : Z; sw_scopes : Z; sw_airlock : Z; sw_scopeAirlocks : string -> Z; sw_event : Z;
}.

Definition adaptiveRecoveryTimer : string := "time_based_recovery".

(** [emitAdaptiveRecovery], without the log and the metrics. *)
Definition emitAdaptiveRecovery (from to : Z) (scope reason : string) (now : Z) (s : SessionState) : SessionState :=
  RecordAdaptiveRecoveryEvent scope (if decide (reason = "") then adaptiveRecoveryTimer else reason) from to now s.

(** The part of [sweepDeescalation] for one session; [live] tells whether its key
    still has a session, when events are recorded. *)
Definition sweepSession (adaptiveCfg : AdaptiveEnforcement) (airlockCfg : option AirlockConfig) (live : SessionState -> bool)
    (t : sweep_clock) (s : SessionState) : SessionState :=
  let blockAllCheck := Some (adaptiveBlockAllCheck (Some adaptiveCfg)) in
  let levelDuration := adaptiveLevelDuration (Some adaptiveCfg) in
  let '((changed, from, to), s) := TryAutoRecover levelDuration blockAllCheck (sw_test t) (sw_change t) s in
  let s := if changed && live s then emitAdaptiveRecovery from to "" adaptiveRecoveryTimer (sw_event t) s else s in
  let '(recovered, s) := TryAutoRecoverScopes levelDuration blockAllCheck (sw_scopes t) s in
  let s := foldl (fun s st => if live s then emitAdaptiveRecovery st.2.1 st.2.2 st.1 adaptiveRecoveryTimer (sw_event t) s else s)
             s (map_to_list recovered) in
  match airlockCfg with
  | Some ac =>
      if al_Enabled ac then
        let '((changed, from, to), al) := TryDeescalate (sw_airlock t) (al_Timers ac) (ss_airlock s) in
        let s := with_airlock al s in
        let s := if changed then RecordEvent (plainEvent "airlock_deescalate" to (from +:+ "->" +:+ to) "info") (sw_event t) s else s in
        let '(released, s) := TryDeescalateScopedAirlocks (al_Timers ac) (sw_scopeAirlocks t) s in
        foldl (fun s st => RecordEvent (plainEvent "airlock_deescalate" st.1 (st.2.1 +:+ "->" +:+ st.2.2) "info") (sw_event t) s)
          s (map_to_list released)
      else s
  | None => s
  end.

Definition sweepDeescalation (t : nat -> sweep_clock) (sm : SessionManager) : SessionManager :=
  match sm_adaptiveCfg sm with
  | Some c =>
      if ae_Enabled c then
        foldl (fun sm' p => update p (sweepSession c (sm_airlockCfg sm) (fun s => SessionExists (ss_key s) sm) (t p)) sm')
          sm (pointers sm)
      else sm
  | None => sm
  end.

Lemma sessionAt_Some key sm p s : sessionAt key sm = Some (p, s) <-> sm_sessions sm !! key = Some p /\ sm_store sm !! p = Some s.
Proof.
  unfold sessionAt. destruct (sm_sessions sm !! key) as [q|]; [|naive_solver]. cbn.
  destruct (sm_store sm !! q) as [t|] eqn:E; cbn; naive_solver.
Qed.

(** ** Histories of a manager

    The operations that change it; a method of a session is called through a
    pointer that the caller holds, of a session that may have been evicted. *)

Section manager.
Context (unicode_lower : string -> string).

Inductive sm_op :=
| SmGetOrCreate (key : string) (order : list string) (taskID : string)
| SmDelete (key : string)
| SmRecordIPDomain (clientIP domain : string) (cfg : SessionProfiling)
| SmUpdateConfig (cfg : SessionProfiling) (adaptiveCfg : option AdaptiveEnforcement) (airlockCfg : option AirlockConfig)
| SmReset (key taskID : string)
| SmResetIfResettable (key taskID : string)
| SmSnapshotAndReset (key : string)
| SmResetAll
| SmBeginNewTask (key label taskID1 taskID2 : string)
| SmOverride (key : string) (override : TrustOverride) (taskID : string)
| SmForceAirlock (key tier : string)
| SmCleanup
| SmSweep (t : nat -> sweep_clock)
| SmSession (p : nat) (op : session_op).

Definition apply_sm_op (op : sm_op) (now1 now2 : Z) (sm : SessionManager) : SessionManager :=
  match op with
  | SmGetOrCreate key order taskID => (GetOrCreate key order taskID now2 sm).2
  | SmDelete key => Delete key sm
  | SmRecordIPDomain ip domain cfg => (RecordIPDomain ip domain cfg now2 sm).2
  | SmUpdateConfig cfg ac al => UpdateConfig cfg ac al sm
  | SmReset key taskID => (ResetSession key taskID now2 sm).2
  | SmResetIfResettable key taskID => (ResetSessionIfResettable key taskID now2 sm).2
  | SmSnapshotAndReset key => (SnapshotAndResetIfResettable key now2 sm).2
  | SmResetAll => (ResetAllIdentitySessions now2 sm).2
  | SmBeginNewTask key label id1 id2 => (ManagerBeginNewTask key label id1 id2 now2 sm).2
  | SmOverride key o id => (ManagerAddRuntimeTrustOverride key o id now1 now2 sm).2
  | SmForceAirlock key tier => (ForceSetAirlockTier key tier now1 now2 sm).2
  | SmCleanup => (cleanup now1 now2 sm).2
  | SmSweep t => sweepDeescalation t sm
  | SmSession p op => update p (apply_session_op unicode_lower op now1 now2) sm
  end.

(** [sm_run P sm sm']: operations that satisfy [P], at any times, lead from [sm]
    to [sm']. *)
Inductive sm_run (P : sm_op -> Prop) (sm : SessionManager) : SessionManager -> Prop :=
| sm_run_nil : sm_run P sm sm
| sm_run_step sm' op now1 now2 : sm_run P sm sm' -> P op -> sm_run P sm (apply_sm_op op now1 now2 sm').

Lemma sm_run_trans P sm1 sm2 sm3 : sm_run P sm1 sm2 -> sm_run P sm2 sm3 -> sm_run P sm1 sm3.
Proof. intros H1. induction 1; [done|by constructor]. Qed.

(** ** What the operations keep of a session *)

(** What identifies a session and quarantines it. *)
Definition wide (s : SessionState) : string * string * AirlockState := (ss_key s, ss_kind s, ss_airlock s).

Lemma ensureTask_wide id now s : wide (ensureTask id now s) = wide s.
Proof. unfold ensureTask. by destruct (decide _). Qed.

Lemma getOrCreate_wide scope s : wide (getOrCreateScopeLocked unicode_lower scope s).2 = wide s.
Proof.
  unfold getOrCreateScopeLocked. cbv zeta. destruct (decide _); [done|]. destruct (ss_scopes s !! _); [done|]. by destruct (decide _).
Qed.

(** Every method but those of the session's airlock and the reset keeps it. *)
Lemma apply_wide op now1 now2 s :
  let s' := apply_session_op unicode_lower op now1 now2 s in
  ss_key s' = ss_key s /\ ss_kind s' = ss_kind s /\
  (ss_airlock s' = ss_airlock s \/
   match op with
   | OpAirlock a | OpAirlockForScope _ a => ss_airlock s' = apply_op a (ss_airlock s)
   | OpReset => True
   | _ => False
   end).
Proof.
  cbv zeta. assert (forall s', wide s' = wide s -> ss_key s' = ss_key s /\ ss_kind s' = ss_kind s /\ (ss_airlock s' = ss_airlock s \/ False)) as W
    by (intros s' [= -> -> ->]; auto).
  assert (forall scope, wide (getOrCreateScopeLocked unicode_lower scope s).2 = wide s) as Hscope by (intros; apply getOrCreate_wide).
  assert (forall id now, wide (ensureTask id now s) = wide s) as Htask by (intros; apply ensureTask_wide).
  destruct op; cbn [apply_session_op]; try (apply W; done).
  - apply W. unfold RecordSignal. by destruct (recordAdaptiveSignalFields _ _ _ _).
  - apply W. unfold RecordScopedSignal, RecordSignal. cbv zeta. destruct (decide _); [by destruct (recordAdaptiveSignalFields _ _ _ _)|].
    specialize (Hscope (normalizeAdaptiveScope unicode_lower scope)).
    destruct (getOrCreateScopeLocked _ _ _) as [[st|] s2]; cbn in Hscope; rewrite <- Hscope; by repeat destruct (recordAdaptiveSignalFields _ _ _ _).
  - apply W. unfold RecordCleanWithRecovery. by destruct (cleanRecovery _ _ _ _).
  - apply W. unfold RecordScopedClean. cbv zeta. by destruct (decide _).
  - apply W. unfold RecordScopedCleanWithRecovery, RecordCleanWithRecovery. cbv zeta. destruct (decide _); [by destruct (cleanRecovery _ _ _ _)|].
    destruct (ss_scopes s !! _); [|done]. destruct (cleanRecovery _ _ _ _) as [r l]. by destruct r.1.1.
  - apply W. unfold SetScopedBlockAll. cbv zeta. destruct (decide _); [done|].
    specialize (Hscope (normalizeAdaptiveScope unicode_lower scope)).
    destruct (getOrCreateScopeLocked _ _ _) as [[st|] s2]; cbn in Hscope; by rewrite <- Hscope.
  - apply W. unfold TryAutoRecover. by destruct (autoRecover _ _ _ _ _).
  - split_and!; [done|done|by right].
  - unfold AirlockForScope. cbv zeta. destruct (decide _); [split_and!; [done|done|by right]|].
    specialize (Hscope (normalizeAdaptiveScope unicode_lower scope)).
    destruct (getOrCreateScopeLocked _ _ _) as [[st|] s2]; cbn in Hscope; [|split_and!; [done|done|by right]].
    injection Hscope as E1 E2 E3. split_and!; [exact E1|exact E2|left; exact E3].
  - apply W. unfold TaskSnapshot. apply Htask.
  - apply W. unfold BeginNewTask. cbn. apply Htask.
  - apply W. unfold AddRuntimeTrustOverride. cbn. apply Htask.
  - split_and!; [done|done|by right].
Qed.

(** ** The invariant

    Every key leads to a session of that key, whose kind is that of the key. *)
Definition sm_inv (sm : SessionManager) : Prop :=
  forall k p, sm_sessions sm !! k = Some p -> exists s, sm_store sm !! p = Some s /\ ss_key s = k /\ ss_kind s = kindOf k.

(** A change of sessions in place that keeps keys and kinds. *)
Definition keeps_id (f : SessionState -> SessionState) : Prop := forall s, ss_key (f s) = ss_key s /\ ss_kind (f s) = ss_kind s.

Lemma NewSessionManager_inv cfg ac al : sm_inv (NewSessionManager cfg ac al).
Proof. by intros k p H. Qed.

Lemma sessionAt_inv key sm p : sm_inv sm -> sm_sessions sm !! key = Some p -> exists s, sessionAt key sm = Some (p, s).
Proof. intros Hi H. destruct (Hi _ _ H) as (s & Hs & _). exists s. by apply sessionAt_Some. Qed.

(** Two keys never lead to one session. *)
Lemma sm_inv_inj sm k k' p : sm_inv sm -> sm_sessions sm !! k = Some p -> sm_sessions sm !! k' = Some p -> k = k'.
Proof. intros Hi H H'. destruct (Hi _ _ H) as (s & Hs & <- & _), (Hi _ _ H') as (s' & Hs' & <- & _). congruence. Qed.

Lemma update_lookup q f sm p : sm_store (update q f sm) !! p = (if decide (p = q) then f <$> sm_store sm !! p else sm_store sm !! p).
Proof. cbn. destruct (decide (p = q)) as [->|]; [by rewrite list_lookup_alter_eq|by rewrite list_lookup_alter_ne]. Qed.

Lemma update_inv q f sm : keeps_id f -> sm_inv sm -> sm_inv (update q f sm).
Proof.
  intros Hf Hi k p H. destruct (Hi k p H) as (s & Hs & Hk & Hkind). rewrite update_lookup, Hs.
  destruct (decide (p = q)); [|by exists s]. exists (f s). destruct (Hf s) as [-> ->]. done.
Qed.

Lemma updateAll_inv f ps sm : keeps_id f -> sm_inv sm -> sm_inv (updateAll f ps sm).
Proof. intros Hf Hi. unfold updateAll. induction ps; cbn; [done|by apply update_inv]. Qed.

Lemma updateAll_sessions f ps sm : sm_sessions (updateAll f ps sm) = sm_sessions sm.
Proof. unfold updateAll. by induction ps. Qed.

Lemma subset_inv m sm : m ⊆ sm_sessions sm -> sm_inv sm -> sm_inv (with_sessions m sm).
Proof. intros Hm Hi k p H. apply Hi. by eapply lookup_weaken. Qed.

Lemma prefix_inv l m sm : m ⊆ sm_sessions sm -> sm_store sm `prefix_of` l -> sm_inv sm -> sm_inv (with_sessions m (with_store l sm)).
Proof.
  intros Hm Hl Hi k p H. destruct (Hi k p) as (s & Hs & ?); [by eapply lookup_weaken|]. exists s. split; [by eapply prefix_lookup_Some|done].
Qed.

(** [evictOldest] only takes a key away, and no quarantined one. *)
Lemma oldestOf_spec order sm : forall key0 t0 old0,
  let r := oldestOf order sm key0 t0 old0 in
  r = (key0, old0) \/ exists p s, sessionAt r.1 sm = Some (p, s) /\ r.2 = Some p /\ quarantined s = false /\ r.1 ∈ order.
Proof.
  cbv zeta. induction order as [|key order IH]; intros key0 t0 old0; cbn [oldestOf]; [by left|].
  assert (forall k t o, (oldestOf order sm k t o = (k, o) -> (k, o) = (key0, old0) \/
      exists p s, sessionAt k sm = Some (p, s) /\ o = Some p /\ quarantined s = false /\ k ∈ key :: order) ->
      oldestOf order sm k t o = (key0, old0) \/ exists p s, sessionAt (oldestOf order sm k t o).1 sm = Some (p, s) /\
        (oldestOf order sm k t o).2 = Some p /\ quarantined s = false /\ (oldestOf order sm k t o).1 ∈ key :: order) as Hnext.
  { intros k t o Hk. destruct (IH k t o) as [E|(p & s & H1 & H2 & H3 & H4)].
    - rewrite E. by apply Hk.
    - right. exists p, s. split_and!; [done..|by right]. }
  destruct (sessionAt key sm) as [[p s]|] eqn:Es; [|apply Hnext; by left].
  destruct (quarantined s) eqn:Eq; [apply Hnext; by left|]. destruct (decide _); [|apply Hnext; by left].
  apply Hnext. intros _. right. exists p, s. split_and!; [done..|by left].
Qed.

Lemma evictOldest_spec order sm :
  let r := evictOldest order sm in
  r.2 = sm \/ exists key p s, r.2 = with_sessions (delete key (sm_sessions sm)) sm /\ sessionAt key sm = Some (p, s) /\ quarantined s = false.
Proof.
  cbv zeta. unfold evictOldest. pose proof (oldestOf_spec order sm "" Time.zero None) as H. cbv zeta in H.
  destruct (oldestOf order sm "" Time.zero None) as [key old]. destruct (decide (key = "")) as [|Hne]; [by left|].
  destruct H as [[= ? ?]|(p & s & H1 & H2 & H3 & _)]; [done|]. right. by exists key, p, s.
Qed.

(** The manager that the new session is added to. *)
Lemma GetOrCreate_base key order taskID now sm :
  sm_sessions sm !! key = None ->
  exists sm1, (sm1 = sm \/ exists v p s, sm1 = with_sessions (delete v (sm_sessions sm)) sm /\ sessionAt v sm = Some (p, s) /\ quarantined s = false) /\
    (GetOrCreate key order taskID now sm).2 =
      with_sessions (<[key := length (sm_store sm)]> (sm_sessions sm1))
        (with_store (sm_store sm ++ [newSession key (kindOf key) taskID now]) sm1) /\
    (GetOrCreate key order taskID now sm).1.1 = length (sm_store sm) /\ sm_store sm1 = sm_store sm.
Proof.
  intros H. unfold GetOrCreate. rewrite H. destruct (decide _).
  - pose proof (evictOldest_spec order sm) as E. cbv zeta in E. destruct (evictOldest order sm) as [ev sm1]. cbn in E. exists sm1.
    destruct E as [->|(v & p & s & -> & ? & ?)]; split_and!; try done; [by left|right; by exists v, p, s].
  - exists sm. split_and!; try done. by left.
Qed.

Lemma GetOrCreate_inv key order taskID now sm : sm_inv sm -> sm_inv (GetOrCreate key order taskID now sm).2.
Proof.
  intros Hi. destruct (sm_sessions sm !! key) as [p|] eqn:E; [unfold GetOrCreate; by rewrite E|].
  destruct (GetOrCreate_base key order taskID now sm E) as (sm1 & Hsm1 & -> & _ & Est).
  assert (sm_sessions sm1 ⊆ sm_sessions sm) as Hsub.
  { destruct Hsm1 as [->|(v & p & s & -> & _)]; [done|]. apply delete_subseteq. }
  intros k p. cbn. rewrite lookup_insert_Some. intros [[<- <-]|[Hk H]].
  - eexists. split; [by apply list_lookup_middle|done].
  - destruct (Hi k p) as (s & Hs & ?); [by eapply lookup_weaken|]. exists s. split; [by apply lookup_app_l_Some|done].
Qed.

(** ** The operations in place *)

Lemma onSession_update {A} p (f : SessionState -> A * SessionState) sm :
  (onSession p f sm).2 = update p (fun s => (f s).2) sm.
Proof.
  unfold onSession, update. destruct (sm_store sm !! p) as [s|] eqn:E.
  - destruct (f s) as [a s'] eqn:Ef. cbn. f_equal. apply list_eq. intros i.
    destruct (decide (i = p)) as [->|Hi].
    + rewrite list_lookup_insert_eq by (by eapply lookup_lt_Some). by rewrite list_lookup_alter_eq, E; cbn; rewrite Ef.
    + by rewrite list_lookup_insert_ne, list_lookup_alter_ne.
  - cbn. destruct sm; unfold with_store; cbn in *. f_equal. symmetry. apply list_eq. intros i.
    destruct (decide (i = p)) as [->|Hi]; [by rewrite list_lookup_alter_eq, E|by rewrite list_lookup_alter_ne].
Qed.

Lemma updateAll_lookup f ps sm p s :
  sm_store sm !! p = Some s ->
  exists n, sm_store (updateAll f ps sm) !! p = Some (Nat.iter n f s) /\ (n = 0%nat \/ p ∈ ps).
Proof.
  intros H. unfold updateAll. induction ps as [|q ps (n & IH & Hn)]; cbn [foldr]; [by exists 0%nat; split; [|left]|].
  rewrite update_lookup, IH. destruct (decide (p = q)) as [->|].
  - exists (S n). split; [done|right; by left].
  - exists n. split; [done|]. destruct Hn; [by left|right; by right].
Qed.

Lemma iter_keeps {B} (g : SessionState -> B) f n s : (forall s, g (f s) = g s) -> g (Nat.iter n f s) = g s.
Proof. intros H. induction n as [|n IH]; cbn; [done|by rewrite H]. Qed.

Lemma wide_eq s s' : wide s' = wide s -> ss_key s' = ss_key s /\ ss_kind s' = ss_kind s /\ ss_airlock s' = ss_airlock s.
Proof. by intros [= -> -> ->]. Qed.

Definition id_of (s : SessionState) : string * string := (ss_key s, ss_kind s).

Lemma foldl_keeps {A B} (g : SessionState -> B) (f : SessionState -> A -> SessionState) l s :
  (forall s a, g (f s a) = g s) -> g (foldl f s l) = g s.
Proof. intros H. revert s. induction l as [|a l IH]; intros s; cbn; [done|]. by rewrite IH, H. Qed.

Lemma recomputeBlockAll_wide ac s : wide (recomputeBlockAll ac s) = wide s.
Proof. unfold recomputeBlockAll. destruct ac as [c|]; [|done]. by destruct (ae_Enabled c). Qed.

Lemma resetAndSnapshot_id id now s : id_of (resetAndSnapshot id now s) = id_of s.
Proof. unfold resetAndSnapshot, TaskSnapshot, ensureTask. cbn. by destruct (decide _). Qed.

Lemma forceAirlock_id tier now1 now2 s : id_of (forceAirlock tier now1 now2 s).2 = id_of s.
Proof. unfold forceAirlock. destruct (ForceSetTierWithProvenance _ _ _ _ _) as [[[[] ?] ?] al]; done. Qed.

Lemma sweepSession_id ac al live t s : id_of (sweepSession ac al live t s) = id_of s.
Proof.
  unfold sweepSession. cbv zeta.
  unfold TryAutoRecover at 1. destruct (autoRecover _ _ _ _ _) as [[[changed from] to] l]. set (s1 := with_lane l s). 
  assert (id_of s1 = id_of s) as <- by done. clearbody s1. clear s. set (s2 := if changed && live s1 then _ else _).
  assert (id_of s2 = id_of s1) as <- by (unfold s2; by destruct (changed && live s1)). clearbody s2. clear s1 l changed from to.
  unfold TryAutoRecoverScopes. set (s3 := with_scopes _ s2). assert (id_of s3 = id_of s2) as <- by done. clearbody s3.
  set (s4 := foldl _ s3 _). assert (id_of s4 = id_of s3) as <- by (apply foldl_keeps; intros s a; by destruct (live s)).
  clearbody s4. clear s3. destruct al as [al|]; [|done]. destruct (al_Enabled al); [|done].
  destruct (TryDeescalate _ _ _) as [[[[] ?] ?] a]; unfold TryDeescalateScopedAirlocks; by rewrite foldl_keeps.
Qed.

(** How an operation may change the airlock of the session at [p]. *)
Definition touches (op : sm_op) (sm : SessionManager) (p : nat) (s s' : SessionState) : Prop :=
  match op with
  | SmSession q o =>
      q = p /\ match o with
                | OpAirlock a | OpAirlockForScope _ a => ss_airlock s' = apply_op a (ss_airlock s)
                | OpReset => True
                | _ => False
                end
  | SmReset k _ | SmForceAirlock k _ => sm_sessions sm !! k = Some p
  | SmResetIfResettable k _ | SmSnapshotAndReset k => sm_sessions sm !! k = Some p /\ ss_kind s = sessionKindIdentity
  | SmResetAll => exists k, sm_sessions sm !! k = Some p /\ kindOf k = sessionKindIdentity
  | SmSweep _ => True
  | _ => False
  end.

Lemma classify_kind k : (classifySessionKey k).1.1 = kindOf k.
Proof. unfold classifySessionKey, kindOf. destruct (existsb _ _); [done|]. destruct (Strings.cutLast k "|") as [[[] ?]|]; done. Qed.

Lemma clearIP_store ip sm : sm_store (clearIP ip sm) = sm_store sm /\ sm_sessions (clearIP ip sm) = sm_sessions sm.
Proof. unfold clearIP. by destruct (decide _). Qed.

(** A session in the store stays there: it keeps its key and kind, and its airlock
    unless the operation touches it. *)
Definition goes (op : sm_op) (sm sm' : SessionManager) (p : nat) (s : SessionState) : Prop :=
  exists s', sm_store sm' !! p = Some s' /\ id_of s' = id_of s /\ (ss_airlock s' = ss_airlock s \/ touches op sm p s s').

Lemma goes_same op sm sm' p s : sm_store sm !! p = Some s -> sm_store sm' = sm_store sm -> goes op sm sm' p s.
Proof. intros H E. exists s. rewrite E. split_and!; [done|done|by left]. Qed.

Lemma goes_update op sm sm0 q f p s :
  sm_store sm !! p = Some s -> sm_store sm0 = sm_store sm ->
  (p = q -> id_of (f s) = id_of s /\ (ss_airlock (f s) = ss_airlock s \/ touches op sm p s (f s))) ->
  goes op sm (update q f sm0) p s.
Proof.
  intros H E Hf. unfold goes. rewrite update_lookup, E, H. destruct (decide (p = q)) as [->|]; [|exists s; split_and!; [done|done|by left]].
  exists (f s). destruct (Hf eq_refl). done.
Qed.

Lemma goes_wide op sm q f p s :
  sm_store sm !! p = Some s -> (wide (f s) = wide s) -> goes op sm (update q f sm) p s.
Proof. intros H Hf. apply goes_update; [done|done|]. apply wide_eq in Hf as (E1 & E2 & E3). intros _. unfold id_of. rewrite E1, E2. by split; [|left]. Qed.

Lemma withMutable_goes {A} op key (f : SessionState -> A * SessionState) sm p s :
  sm_store sm !! p = Some s -> (wide (f s).2 = wide s) -> goes op sm (withMutableIdentitySession key f sm).2 p s.
Proof.
  intros H Hf. unfold withMutableIdentitySession. destruct (sessionAt key sm) as [[q t]|]; [|by apply goes_same].
  destruct (IsResettable t); [|by apply goes_same]. pose proof (onSession_update q f sm) as E. destruct (onSession q f sm) as [r sm'].
  cbn in *. rewrite E. by apply (goes_wide op sm q (fun s => (f s).2)).
Qed.

Lemma step_session op now1 now2 sm p s :
  sm_store sm !! p = Some s -> goes op sm (apply_sm_op op now1 now2 sm) p s.
Proof.
  intros H. destruct op as [key order id|key|ip domain cfg|cfg ac al|key id|key id|key| |key label id1 id2|key o id|key tier| |t|q o]; cbn [apply_sm_op].
  - destruct (sm_sessions sm !! key) as [q|] eqn:E; [unfold GetOrCreate; rewrite E; by apply goes_same|].
    destruct (GetOrCreate_base key order id now2 sm E) as (sm1 & _ & -> & _ & _). exists s. cbn. split_and!; [by apply lookup_app_l_Some|done|by left].
  - apply goes_same; [done|]. unfold Delete. by destruct (decide _).
  - apply goes_same; [done|]. unfold RecordIPDomain. destruct (pruneDomainWindow _ _ _ _). by destruct (decide _).
  - destruct (updateAll_lookup (recomputeBlockAll ac) (pointers (with_config cfg ac al sm)) (with_config cfg ac al sm) p s H) as (n & Hn & _).
    exists (Nat.iter n (recomputeBlockAll ac) s). split; [exact Hn|].
    pose proof (iter_keeps wide (recomputeBlockAll ac) n s (recomputeBlockAll_wide ac)) as Hw. apply wide_eq in Hw as (E1 & E2 & E3).
    unfold id_of. rewrite E1, E2. by split; [|left].
  - unfold ResetSession. destruct (sessionAt key sm) as [[q t]|] eqn:E; [|by apply goes_same]. apply sessionAt_Some in E as [E1 E2].
    apply goes_update; [done|apply clearIP_store|]. intros ->. split; [apply resetAndSnapshot_id|right; exact E1].
  - unfold ResetSessionIfResettable. destruct (sessionAt key sm) as [[q t]|] eqn:E; [|by apply goes_same]. apply sessionAt_Some in E as [E1 E2].
    destruct (decide _) as [|Hk%dec_stable]; [by apply goes_same|]. apply goes_update; [done|apply clearIP_store|].
    intros ->. split; [apply resetAndSnapshot_id|right]. split; [exact E1|]. congruence.
  - unfold SnapshotAndResetIfResettable. destruct (sessionAt key sm) as [[q t]|] eqn:E; [|by apply goes_same]. apply sessionAt_Some in E as [E1 E2].
    destruct (decide _) as [|Hk%dec_stable]; [by apply goes_same|]. apply goes_update; [done|apply clearIP_store|].
    intros ->. split; [done|right]. split; [exact E1|]. congruence.
  - unfold ResetAllIdentitySessions. set (l := filter _ _).
    destruct (updateAll_lookup (fun s => (resetWhileLocked now2 s).2) l.*2 sm p s H) as (n & Hn & Hp).
    exists (Nat.iter n (fun s => (resetWhileLocked now2 s).2) s). split; [exact Hn|]. split; [by apply (iter_keeps id_of)|].
    destruct Hp as [->|Hp]; [by left|right]. apply list_elem_of_fmap in Hp as ([k q] & -> & Hl). unfold l in Hl.
    apply list_elem_of_filter in Hl as [Hkind Hl]. apply elem_of_map_to_list in Hl. exists k. split; [done|]. by rewrite <- classify_kind.
  - apply withMutable_goes; [done|]. unfold BeginNewTask. cbn. apply ensureTask_wide.
  - unfold ManagerAddRuntimeTrustOverride. destruct (decide _); [by apply goes_same|]. apply withMutable_goes; [done|].
    unfold AddRuntimeTrustOverride. cbn. apply ensureTask_wide.
  - unfold ForceSetAirlockTier. destruct (sessionAt key sm) as [[q t]|] eqn:E; [|by apply goes_same]. apply sessionAt_Some in E as [E1 E2].
    rewrite onSession_update. apply goes_update; [done|done|]. intros ->. split; [apply forceAirlock_id|right; exact E1].
  - by apply goes_same.
  - unfold sweepDeescalation. destruct (sm_adaptiveCfg sm) as [c|]; [|by apply goes_same]. destruct (ae_Enabled c); [|by apply goes_same].
    assert (forall ps sm', (exists s', sm_store sm' !! p = Some s' /\ id_of s' = id_of s) ->
      exists s', sm_store (foldl (fun sm' q => update q (sweepSession c (sm_airlockCfg sm) (fun s => SessionExists (ss_key s) sm) (t q)) sm') sm' ps) !! p
        = Some s' /\ id_of s' = id_of s) as Hfold.
    { intros ps. induction ps as [|q ps IH]; intros sm' (s' & H1 & H2); cbn [foldl]; [by exists s'|]. apply IH.
      rewrite update_lookup, H1. destruct (decide (p = q)); [|by exists s'].
      eexists. split; [done|]. by rewrite sweepSession_id. }
    destruct (Hfold (pointers sm) sm) as (s' & H1 & H2); [by exists s|]. exists s'. split_and!; [exact H1|exact H2|by right].
  - apply goes_update; [done|done|]. intros ->. pose proof (apply_wide o now1 now2 s) as (E1 & E2 & E3).
    unfold id_of. rewrite E1, E2. split; [done|]. destruct E3 as [E3|E3]; [by left|right]. by split.
Qed.

(** The keys: only [GetOrCreate] adds one, and only [Delete], the cleanup and an
    eviction take one away. *)
Definition changes_keys (op : sm_op) : bool :=
  match op with SmGetOrCreate _ _ _ | SmDelete _ | SmCleanup => true | _ => false end.

Lemma withMutable_sessions {A} key (f : SessionState -> A * SessionState) sm :
  sm_sessions (withMutableIdentitySession key f sm).2 = sm_sessions sm.
Proof.
  unfold withMutableIdentitySession. destruct (sessionAt key sm) as [[q t]|]; [|done]. destruct (IsResettable t); [|done].
  pose proof (onSession_update q f sm) as E. destruct (onSession _ _ _). cbn in *. by rewrite E.
Qed.

Lemma step_same_keys op now1 now2 sm : changes_keys op = false -> sm_sessions (apply_sm_op op now1 now2 sm) = sm_sessions sm.
Proof.
  destruct op as [| |ip domain cfg|cfg ac al|key id|key id|key| |key label id1 id2|key o id|key tier| |t|q o]; cbn [apply_sm_op changes_keys]; try done; intros _.
  - unfold RecordIPDomain. destruct (pruneDomainWindow _ _ _ _). by destruct (decide _).
  - unfold UpdateConfig. by rewrite updateAll_sessions.
  - unfold ResetSession. destruct (sessionAt key sm) as [[q t]|]; [|done]. apply clearIP_store.
  - unfold ResetSessionIfResettable. destruct (sessionAt key sm) as [[q t]|]; [|done]. destruct (decide _); [done|]. apply clearIP_store.
  - unfold SnapshotAndResetIfResettable. destruct (sessionAt key sm) as [[q t]|]; [|done]. destruct (decide _); [done|]. apply clearIP_store.
  - unfold ResetAllIdentitySessions. cbn. by rewrite updateAll_sessions.
  - apply withMutable_sessions.
  - unfold ManagerAddRuntimeTrustOverride. destruct (decide _); [done|]. apply withMutable_sessions.
  - unfold ForceSetAirlockTier. destruct (sessionAt key sm) as [[q t]|]; [|done]. by rewrite onSession_update.
  - unfold sweepDeescalation. destruct (sm_adaptiveCfg sm); [|done]. destruct (ae_Enabled _); [|done].
    assert (forall ps f sm', sm_sessions (foldl (fun sm' q => update q (f q) sm') sm' ps) = sm_sessions sm') as Hfold.
    { intros ps f. induction ps as [|q ps IH]; intros sm'; cbn [foldl]; [done|]. by rewrite IH. }
    apply (Hfold _ (fun q => sweepSession _ _ _ (t q))).
Qed.

Lemma Delete_sessions key sm : sm_sessions (Delete key sm) ⊆ sm_sessions sm.
Proof. unfold Delete. destruct (decide _); [done|apply delete_subseteq]. Qed.

Lemma cleanup_sessions now1 now2 sm : sm_sessions (cleanup now1 now2 sm).2 ⊆ sm_sessions sm.
Proof. apply map_filter_subseteq. Qed.

Lemma step_keys op now1 now2 sm k p s :
  sm_sessions sm !! k = Some p -> sm_store sm !! p = Some s ->
  op <> SmDelete k -> quarantined s = true -> sm_sessions (apply_sm_op op now1 now2 sm) !! k = Some p.
Proof.
  intros Hk Hs Hd Hq. destruct (changes_keys op) eqn:E; [|by rewrite step_same_keys].
  destruct op as [key order id|key| | | | | | | | | | | |]; try done; cbn [apply_sm_op].
  - destruct (sm_sessions sm !! key) as [q|] eqn:Ekey; [unfold GetOrCreate; by rewrite Ekey|].
    destruct (GetOrCreate_base key order id now2 sm Ekey) as (sm1 & Hsm1 & -> & _ & _). cbn.
    rewrite lookup_insert_ne by congruence. destruct Hsm1 as [->|(v & q & u & -> & Hv & Hqv)]; [done|]. cbn.
    rewrite lookup_delete_ne; [done|]. intros ->. apply sessionAt_Some in Hv as [Hv1 Hv2]. congruence.
  - unfold Delete. destruct (decide (key = "")); [done|]. cbn. by rewrite lookup_delete_ne by congruence.
  - cbn. apply map_lookup_filter_Some. split; [done|]. cbn. unfold expired. rewrite Hs, Hq. by rewrite andb_false_r.
Qed.

Lemma step_inv op now1 now2 sm : sm_inv sm -> sm_inv (apply_sm_op op now1 now2 sm).
Proof.
  intros Hi. assert ((exists key order id, op = SmGetOrCreate key order id) \/ sm_sessions (apply_sm_op op now1 now2 sm) ⊆ sm_sessions sm)
    as [(key & order & id & ->)|Hsub]; [|by apply GetOrCreate_inv|].
  { destruct (changes_keys op) eqn:E; [|right; by rewrite step_same_keys].
    destruct op; try done; [left; eauto|right; apply Delete_sessions|right; apply cleanup_sessions]. }
  intros k p Hk. destruct (Hi k p) as (s & Hs & H1 & H2); [by eapply lookup_weaken|].
  destruct (step_session op now1 now2 sm p s Hs) as (s' & Hs' & Hid & _). exists s'. split; [done|]. injection Hid as -> ->. done.
Qed.

Lemma run_inv P sm sm' : sm_run P sm sm' -> sm_inv sm -> sm_inv sm'.
Proof. induction 1; [done|]. intros. apply step_inv. auto. Qed.

(** ** Quarantine *)

(** The same tier or a later one. *)
Definition tier_le (t t' : string) : Prop :=
  t' = t \/ exists o o', AirlockTierOrder t = Some o /\ AirlockTierOrder t' = Some o' /\ o < o'.

Lemma tier_le_trans t1 t2 t3 : tier_le t1 t2 -> tier_le t2 t3 -> tier_le t1 t3.
Proof.
  intros [->|(o1 & o2 & H1 & H2 & Ho)] [->|(o2' & o3 & H2' & H3 & Ho')]; [by left|by right; exists o2', o3|by right; exists o1, o2|].
  right. exists o1, o3. split_and!; [done|done|]. rewrite H2 in H2'. injection H2' as <-. lia.
Qed.

Lemma tier_order_nonneg t o : AirlockTierOrder t = Some o -> 0 <= o.
Proof. unfold AirlockTierOrder. repeat (destruct (decide _); [intros [= <-]; lia|]). done. Qed.

Lemma quarantined_le s s' : quarantined s = true -> tier_le (AirlockTier s) (AirlockTier s') -> quarantined s' = true.
Proof.
  unfold quarantined. rewrite !bool_decide_eq_true. intros [Hn He] [->|(o & o' & Ho & Ho' & Hlt)]; [done|].
  apply tier_order_nonneg in Ho. split; intros E; rewrite E in Ho'.
  - injection Ho' as <-. lia.
  - discriminate Ho'.
Qed.

(** The airlock methods that can lower the tier. *)
Definition airlock_lowers (a : airlock_op) : bool :=
  match a with OpTryDeescalate _ _ | OpForceSetTier _ _ _ _ => true | _ => false end.

Definition lowers (op : session_op) : bool :=
  match op with
  | OpAirlock a | OpAirlockForScope _ a => airlock_lowers a
  | OpReset => true
  | _ => false
  end.

Lemma apply_op_raises a al : airlock_lowers a = false -> tier_le (as_tier al) (as_tier (apply_op a al)).
Proof.
  destruct a as [now t g src| | |conn| | | |]; try done; intros _; cbn [apply_op]; try by left.
  - unfold SetTierWithProvenance. destruct (AirlockTierOrder (as_tier al)) as [o|] eqn:Eo; [|by left].
    destruct (AirlockTierOrder t) as [o'|] eqn:Eo'; [|by left]. destruct (decide (o' <= o)); [by left|].
    right. exists o, o'. split_and!; [done| |lia]. by destruct (decide (t = AirlockTierHard)), (decide (t = AirlockTierDrain)).
  - left. unfold RegisterCancel. by destruct (decide _).
Qed.

(** The operations that do not release the session at [p] under [k]: they do not
    delete or reset it, do not set its tier by hand, and do not run the timers. *)
Definition holds (k : string) (p : nat) (op : sm_op) : Prop :=
  match op with
  | SmDelete k' | SmReset k' _ | SmForceAirlock k' _ => k' <> k
  | SmResetIfResettable k' _ | SmSnapshotAndReset k' => k' <> k \/ kindOf k <> sessionKindIdentity
  | SmResetAll => kindOf k <> sessionKindIdentity
  | SmSweep _ => False
  | SmSession q o => q = p -> lowers o = false
  | _ => True
  end.

Lemma step_holds op now1 now2 sm k p s :
  sm_inv sm -> sm_sessions sm !! k = Some p -> sm_store sm !! p = Some s -> holds k p op ->
  exists s', sm_store (apply_sm_op op now1 now2 sm) !! p = Some s' /\ tier_le (AirlockTier s) (AirlockTier s').
Proof.
  intros Hi Hk Hs Hh. destruct (step_session op now1 now2 sm p s Hs) as (s' & Hs' & _ & Ha). exists s'. split; [done|].
  unfold AirlockTier. destruct Ha as [->|Ht]; [by left|].
  assert (forall k', sm_sessions sm !! k' = Some p -> k' = k) as Hinj by (intros k' H'; by eapply sm_inv_inj).
  assert (ss_kind s = kindOf k) as Hkind by (destruct (Hi _ _ Hk) as (s0 & H0 & _ & H2); congruence).
  destruct op as [| | | |key id|key id|key| | | |key tier| | |q o]; cbn [touches holds] in *; try done.
  - by apply Hinj in Ht.
  - destruct Ht as [Ht%Hinj Hkey]. destruct Hh; congruence.
  - destruct Ht as [Ht%Hinj Hkey]. destruct Hh; congruence.
  - destruct Ht as (k' & Ht%Hinj & Hkey). congruence.
  - by apply Hinj in Ht.
  - destruct Ht as [-> Ht]. specialize (Hh eq_refl). destruct o; try done; cbn in Hh; rewrite Ht; by apply apply_op_raises.
Qed.


End manager.

(** ** Which session is evicted *)

(** Every session of these keys that may be evicted was active at [t] or later. *)
Definition none_older (sm : SessionManager) (order : list string) (t : Z) : Prop :=
  forall k p s, k ∈ order -> sessionAt k sm = Some (p, s) -> quarantined s = false -> t <= ss_lastActivity s.

Lemma none_older_cons sm k order t :
  none_older sm (k :: order) t <->
  (forall p s, sessionAt k sm = Some (p, s) -> quarantined s = false -> t <= ss_lastActivity s) /\ none_older sm order t.
Proof.
  split.
  - intros H. split; [intros p s; apply H; by left|]. intros k' p s Hk. apply H. by right.
  - intros [H1 H2] k' p s [->|Hk]%elem_of_cons; [apply H1|by apply H2].
Qed.

Lemma oldestOf_min order sm : forall key0 t0 old0, "" ∉ order ->
  let r := oldestOf order sm key0 t0 old0 in
  (r = (key0, old0) /\ if decide (key0 = "") then forall k p s, k ∈ order -> sessionAt k sm = Some (p, s) -> quarantined s = true
                       else none_older sm order t0) \/
  exists p s, sessionAt r.1 sm = Some (p, s) /\ r.2 = Some p /\ quarantined s = false /\ r.1 ∈ order /\
    (key0 <> "" -> ss_lastActivity s < t0) /\ none_older sm order (ss_lastActivity s).
Proof.
  cbv zeta. induction order as [|key order IH]; intros key0 t0 old0 Hne; cbn [oldestOf].
  { left. split; [done|]. destruct (decide _); intros ??? Hk; by apply not_elem_of_nil in Hk. }
  apply not_elem_of_cons in Hne as [Hkey Hne].
  assert ((forall p s, sessionAt key sm = Some (p, s) -> quarantined s = true) \/
          exists p s, sessionAt key sm = Some (p, s) /\ quarantined s = false) as [Hq|(p & s & Es & Eq)].
  { destruct (sessionAt key sm) as [[p s]|]; [|by left]. destruct (quarantined s) eqn:E; [left; congruence|right; eauto]. }
  - assert (oldestOf (key :: order) sm key0 t0 old0 = oldestOf order sm key0 t0 old0) as E.
    { cbn [oldestOf]. destruct (sessionAt key sm) as [[p s]|]; [|done]. by rewrite (Hq p s eq_refl). }
    cbn [oldestOf] in E. rewrite E. destruct (IH key0 t0 old0 Hne) as [[H1 H2]|(p & s & H1 & H2 & H3 & H4 & H5 & H6)].
    + left. split; [done|]. destruct (decide (key0 = "")).
      * intros k p s [->|Hk]%elem_of_cons; [apply Hq|by apply H2].
      * apply none_older_cons. split; [|done]. intros p s Hs Hf. specialize (Hq p s Hs). congruence.
    + right. exists p, s. split_and!; [done..|by right|done|]. apply none_older_cons. split; [|done].
      intros p' s' Hs Hf. specialize (Hq p' s' Hs). congruence.
  - rewrite Es, Eq. destruct (decide (key0 = "" \/ ss_lastActivity s < t0)) as [Hnew|Hold].
    + destruct (IH key (ss_lastActivity s) (Some p) Hne) as [[H1 H2]|(p' & s' & H1 & H2 & H3 & H4 & H5 & H6)]; right.
      * rewrite decide_False in H2 by congruence. rewrite H1. exists p, s. split_and!; [done..|by left|tauto|].
        apply none_older_cons. split; [|done]. intros p' s' Hs _. rewrite Es in Hs. injection Hs as <- <-. lia.
      * specialize (H5 ltac:(congruence)). exists p', s'. split_and!; [done..|by right|intros ?; destruct Hnew; [done|lia]|].
        apply none_older_cons. split; [|done]. intros p2 s2 Hs _. rewrite Es in Hs. injection Hs as <- <-. lia.
    + destruct (IH key0 t0 old0 Hne) as [[H1 H2]|(p' & s' & H1 & H2 & H3 & H4 & H5 & H6)].
      * left. split; [done|]. rewrite decide_False in H2 |- * by tauto. apply none_older_cons. split; [|done].
        intros p' s' Hs _. rewrite Es in Hs. injection Hs as <- <-. lia.
      * right. exists p', s'. split_and!; [done..|by right|done|]. specialize (H5 ltac:(tauto)). apply none_older_cons. split; [|done].
        intros p2 s2 Hs _. rewrite Es in Hs. injection Hs as <- <-. lia.
Qed.

(** A new session costs at most one other, the right one. For a key without a
    session [GetOrCreate] adds a fresh session and, only when the map is full,
    takes away the least recently active of the sessions that are not quarantined,
    in whatever order Go visits the map; when all are quarantined none is taken,
    and the map grows past its bound. *)
Theorem eviction_exact key order id now sm :
  sm_sessions sm !! key = None -> sm_sessions sm !! "" = None -> order ≡ₚ (map_to_list (sm_sessions sm)).*1 ->
  let p := length (sm_store sm) in
  let '((q, evicted), sm') := GetOrCreate key order id now sm in
  q = p /\ sm_store sm' = sm_store sm ++ [newSession key (kindOf key) id now] /\
  match evicted with
  | None =>
      sm_sessions sm' = <[key := p]> (sm_sessions sm) /\
      (Len sm < sp_MaxSessions (sm_cfg sm) \/ forall k r s, sessionAt k sm = Some (r, s) -> quarantined s = true)
  | Some r => exists k s,
      sm_sessions sm' = <[key := p]> (delete k (sm_sessions sm)) /\ sessionAt k sm = Some (r, s) /\ quarantined s = false /\
      sp_MaxSessions (sm_cfg sm) <= Len sm /\
      forall k' r' s', sessionAt k' sm = Some (r', s') -> quarantined s' = false -> ss_lastActivity s <= ss_lastActivity s'
  end.
Proof.
  intros Hkey Hempty Horder. cbv zeta.
  assert (forall k r s, sessionAt k sm = Some (r, s) -> k ∈ order) as Hin.
  { intros k r s [H _]%sessionAt_Some. rewrite Horder. apply list_elem_of_fmap. exists (k, r). split; [done|]. by apply elem_of_map_to_list. }
  assert ("" ∉ order) as Hne.
  { rewrite Horder. intros ([k r] & E & H)%list_elem_of_fmap. cbn in E. subst k. apply elem_of_map_to_list in H. congruence. }
  unfold GetOrCreate. rewrite Hkey. destruct (decide _) as [Hfull|Hroom]; [|split_and!; [done..|left; lia]].
  unfold evictOldest. pose proof (oldestOf_min order sm "" Time.zero None Hne) as H. cbv zeta in H.
  destruct (oldestOf order sm "" Time.zero None) as [k old].
  destruct H as [[[= -> ->] Hall]|(r & s & H1 & H2 & H3 & H4 & _ & H6)]; cbn in *.
  - split_and!; [done..|right]. intros k r s Hs. eapply Hall; [by eapply Hin|done].
  - subst old. rewrite decide_False by (intros ->; done). split_and!; [done..|]. exists k, s. split_and!; [done..|].
    intros k' r' s' Hs Hq. eapply H6; [by eapply Hin|done|done].
Qed.

(** ** Examples *)

Definition demo_cfg (max : Z) : SessionProfiling :=
  {| sp_Enabled := true; sp_AnomalyAction := "warn"; sp_DomainBurst := 5; sp_WindowMinutes := 5; sp_VolumeSpikeRatio := F64.of_Z 3;
     sp_MaxSessions := max; sp_SessionTTLMinutes := 30; sp_CleanupIntervalSeconds := 60 |}.

Definition demo_empty (max : Z) : SessionManager := NewSessionManager (demo_cfg max) None None.

(** A session, created and put in quarantine as a whole. *)
Definition demo_quarantined : SessionManager :=
  apply_sm_op id (SmForceAirlock "bot|10.0.0.1" "hard") 2 3
    (apply_sm_op id (SmGetOrCreate "bot|10.0.0.1" [] "task-1") 1 1 (demo_empty 1)).

Definition demo_session : SessionState :=
  match sm_store demo_quarantined !! 0%nat with Some s => s | None => newSession "" "" "" 0 end.

Lemma demo_quarantined_inv : sm_inv demo_quarantined.
Proof. apply step_inv, step_inv, NewSessionManager_inv. Qed.


(** The same map: the new session is added although the bound is one. *)
Lemma eviction_exact_witness :
  sp_MaxSessions (sm_cfg demo_quarantined) = 1 /\
  Len (GetOrCreate "10.0.0.2" ["bot|10.0.0.1"] "task-2" 4 demo_quarantined).2 = 2 /\
  (let '((q, evicted), sm') := GetOrCreate "10.0.0.2" ["bot|10.0.0.1"] "task-2" 4 demo_quarantined in
   q = 1%nat /\ sm_store sm' = sm_store demo_quarantined ++ [newSession "10.0.0.2" "identity" "task-2" 4]).
Proof.
  split; [by vm_compute|split; [by vm_compute|]].
  pose proof (eviction_exact "10.0.0.2" ["bot|10.0.0.1"] "task-2" 4 demo_quarantined eq_refl eq_refl ltac:(by vm_compute)) as H.
  cbv zeta in H. destruct (GetOrCreate _ _ _ _ _) as [[q evicted] sm']. destruct H as (H1 & H2 & _). split; [exact H1|exact H2].
Defined.

(** Quarantine of a destination only: the eviction and the cleanup look at the
    session-wide airlock, so a session whose destination is quarantined is taken
    away, and the client that comes back has a session without quarantine. *)
Definition demo_scoped : SessionManager :=
  apply_sm_op id (SmSession 0 (OpAirlockForScope "destination:example.com" (OpSetTier 2 "hard" "on_high" "airlock_triggers"))) 2 2
    (apply_sm_op id (SmGetOrCreate "bot|10.0.0.1" [] "task-1") 1 1 (demo_empty 1)).

Definition scopeTier (scope : string) (s : SessionState) : option string := (fun st => as_tier (sc_airlock st)) <$> ss_scopes s !! scope.

Example scoped_quarantine_evicted :
  let evicted := apply_sm_op id (SmGetOrCreate "10.0.0.2" ["bot|10.0.0.1"] "task-2") 3 3 demo_scoped in
  let back := apply_sm_op id (SmGetOrCreate "bot|10.0.0.1" ["10.0.0.2"] "task-3") 4 4 evicted in
  (sessionAt "bot|10.0.0.1" demo_scoped ≫= fun ps => scopeTier "destination:example.com" ps.2) = Some "hard" /\
  sm_sessions evicted !! "bot|10.0.0.1" = None /\
  (prod_map id (scopeTier "destination:example.com") <$> sessionAt "bot|10.0.0.1" back) = Some (2%nat, None).
Proof. by vm_compute. Qed.

Example keys_classified :
  classifySessionKey (sessionKeyFor "bot" "10.0.0.1") = ("identity", "bot", "10.0.0.1") /\
  classifySessionKey (sessionKeyFor "anonymous" "10.0.0.1") = ("identity", "", "10.0.0.1") /\
  classifySessionKey "mcp-http-42" = ("invocation", "", "") /\ classifySessionKey "|10.0.0.1" = ("identity", "", "|10.0.0.1").
Proof. by vm_compute. Qed.
