(* ===== verification/Activity.v ===== *)
(** * One request: recording its activity on the session of its client

    [recordSessionActivityWithUserAgent] of [internal/proxy/proxy.go], which every
    transport of the proxy calls, with the helpers it uses. It puts the session
    manager, the adaptive lanes, the escalation policy, the airlock and the domain
    patterns together. Logs and metrics are left out; the behavioural baseline,
    whose manager is not modelled, is an argument. *)

From S2P Require Import Prelude GoStrings Float64 Config Taint Escalation Airlock Adaptive Destination Sessions.
Local Open Scope Z_scope.

(** ** Scanner results *)

Definition ClassThreat : Z := 0.
Definition ClassProtective : Z := 1.
Definition ClassConfigMismatch : Z := 2.
Definition ClassInfrastructureError : Z := 3.
Definition ClassStructuralExemption : Z := 4.

Record ScanResult := { r_Allowed : bool; r_Reason : string; r_Scanner : string; r_Score : F64.t; r_Class : Z }.

Definition IsConfigMismatch (r : ScanResult) : bool := bool_decide (r_Class r = ClassConfigMismatch).

Definition IsAdaptiveNeutral (r : ScanResult) : bool :=
  bool_decide (r_Class r = ClassProtective) || bool_decide (r_Class r = ClassInfrastructureError) ||
  bool_decide (r_Class r = ClassStructuralExemption).

Definition ScannerEntropy : string := "entropy".
Definition ScannerSubdomainEntropy : string := "subdomain_entropy".

Definition adaptiveBlockSignal (result : ScanResult) (adaptiveCfg : AdaptiveEnforcement) : SignalType :=
  if negb (ae_SeverityWeightedSignals adaptiveCfg) then SignalBlock
  else if bool_decide (r_Scanner result = ScannerEntropy \/ r_Scanner result = ScannerSubdomainEntropy)
  then SignalBlockLowSeverity else SignalBlock.

(** ** Cooperative tools

    The expression [(?i)^(?:yt-dlp|...)/]: Go folds the long s (the bytes 197 and
    191) onto [s]. *)

Fixpoint foldPrefix (p s : string) : bool :=
  match p with
  | EmptyString => true
  | String c p =>
      match s with
      | EmptyString => false
      | String a s1 =>
          (bool_decide (Strings.ascii_lower a = c) && foldPrefix p s1) ||
          match s1 with
          | String b s2 => bool_decide (c = "s"%char /\ N_of_ascii a = 197%N /\ N_of_ascii b = 191%N) && foldPrefix p s2
          | EmptyString => false
          end
      end
  end.

Definition isCooperativeToolBurstUserAgent (userAgent : string) : bool :=
  existsb (fun tool => foldPrefix (tool +:+ "/") (Strings.TrimSpace userAgent))
    ["yt-dlp"; "python-requests"; "pip"; "npm"; "pnpm"; "apt"; "dnf"; "curl"; "git"].

(** ** The request *)

Record ProxyConfig := {
  pc_SessionProfiling : SessionProfiling;
  pc_AdaptiveEnforcement : AdaptiveEnforcement;
  pc_Airlock : AirlockConfig;
  pc_Enforce : option bool;
}.

Definition EnforceEnabled (cfg : ProxyConfig) : bool := default true (pc_Enforce cfg).

Record sessionActivityOptions := {
  o_ClientIP : string; o_Agent : string; o_Hostname : string; o_Scope : string; o_UserAgent : string;
  o_Result : ScanResult; o_Config : ProxyConfig; o_DeferClean : bool;
}.

Record SessionResult := { sr_Blocked : bool; sr_Detail : string; sr_Level : Z; sr_AutoRecoverAt : Z; sr_RecoverHint : string }.

Definition SessionResult_zero : SessionResult :=
  {| sr_Blocked := false; sr_Detail := ""; sr_Level := 0; sr_AutoRecoverAt := Time.zero; sr_RecoverHint := "" |}.

(** What the check of the behavioural baseline found. *)
Record BaselineResult := { br_Action : string; br_Detail : string }.

Definition adaptiveRecoverHint : string :=
  "wait for auto-recovery or inspect/reset the identity session with the session operator commands".

Definition airlockTriggerOnElevated : string := "on_elevated".
Definition airlockTriggerOnHigh : string := "on_high".
Definition airlockTriggerOnCritical : string := "on_critical".

Section activity.
Context (unicode_lower : string -> string).

(** The baseline check: the agent's key and the metrics of the session. *)
Context (checkBaseline : string -> BaselineMetrics -> option BaselineResult).

(** The clock: the reading of each call site of the request. *)
Context (clk : nat -> Z).

Definition isAdaptiveExempt (hostname : string) (exemptDomains : list string) : bool :=
  MatchesDomainList unicode_lower hostname exemptDomains.

Definition trySessionRecovery (adaptiveCfg : AdaptiveEnforcement) (s : SessionState) : SessionState :=
  if negb (ae_Enabled adaptiveCfg) then s
  else
    let '((changed, from, to), s) := TryAutoRecover (adaptiveLevelDuration (Some adaptiveCfg))
                                       (Some (adaptiveBlockAllCheck (Some adaptiveCfg))) (clk 0) (clk 1) s in
    if changed then emitAdaptiveRecovery from to "" adaptiveRecoveryTimer (clk 2) s else s.

(** [recordScopedAdaptiveSignal]: whether a threshold was crossed. *)
Definition recordScopedAdaptiveSignal (scope : string) (sig : SignalType) (threshold : F64.t) (now1 now2 : Z) (s : SessionState)
    : bool * SessionState :=
  let scope := normalizeAdaptiveScope unicode_lower scope in
  let '((escalated, _, _), s) :=
    if decide (scope = "") then RecordSignal sig threshold now2 s
    else RecordScopedSignal unicode_lower scope sig threshold now1 now2 s in
  (escalated, s).

(** A signal, and on an escalation the latch of the scope. *)
Definition signalAndLatch (scope : string) (sig : SignalType) (cfg : AdaptiveEnforcement) (now1 now2 : Z) (s : SessionState)
    : bool * SessionState :=
  let '(escalated, s) := recordScopedAdaptiveSignal scope sig (ae_EscalationThreshold cfg) now1 now2 s in
  (escalated,
   if escalated
   then SetScopedBlockAll unicode_lower scope
          (bool_decide (UpgradeAction "" (EffectiveEscalationLevel unicode_lower scope s) (Some cfg) = ActionBlock)) s
   else s).

(** [recordCleanForAdaptiveScope] for a request that is not eligible for the
    recovery by clean requests. *)
Definition recordCleanForAdaptiveScope (scope : string) (cfg : AdaptiveEnforcement) (s : SessionState) : SessionState :=
  if negb (ae_Enabled cfg) then s
  else RecordScopedClean unicode_lower (normalizeAdaptiveScope unicode_lower scope) (ae_DecayPerCleanRequest cfg) s.

(** The signal of the scanner's result. *)
Definition resultSignal (scope : string) (result : ScanResult) (cfg : AdaptiveEnforcement) (deferClean : bool) (s : SessionState)
    : bool * SessionState :=
  if negb (ae_Enabled cfg) then (false, s)
  else if IsAdaptiveNeutral result then (false, s)
  else if IsConfigMismatch result then signalAndLatch scope SignalNearMiss cfg (clk 5) (clk 6) s
  else if negb (r_Allowed result) then signalAndLatch scope (adaptiveBlockSignal result cfg) cfg (clk 5) (clk 6) s
  else if F64.ltb F64.zero (r_Score result) then signalAndLatch scope SignalNearMiss cfg (clk 5) (clk 6) s
  else if negb deferClean then (false, recordCleanForAdaptiveScope scope cfg s)
  else (false, s).

(** The signals of the anomalies that carry a score. *)
Fixpoint anomalySignals (scope : string) (cooperative : bool) (cfg : AdaptiveEnforcement) (anomalies : list Anomaly)
    (i : nat) (escalated : bool) (s : SessionState) : bool * SessionState :=
  match anomalies with
  | [] => (escalated, s)
  | a :: anomalies =>
      match signalForSessionAnomaly (an_Type a) cooperative with
      | Some sig =>
          if F64.leb (an_Score a) F64.zero then anomalySignals scope cooperative cfg anomalies (S (S i)) escalated s
          else
            let '(e, s) := signalAndLatch scope sig cfg (clk i) (clk (S i)) s in
            anomalySignals scope cooperative cfg anomalies (S (S i)) (escalated || e) s
      | None => anomalySignals scope cooperative cfg anomalies (S (S i)) escalated s
      end
  end.

(** The tier that a level triggers, and the name of the trigger. *)
Definition airlockTarget (level : Z) (triggers : AirlockTriggers) : string * string :=
  let label := EscalationLabel level in
  if decide (label = "elevated") then (OnElevated triggers, airlockTriggerOnElevated)
  else if decide (label = "high") then (OnHigh triggers, airlockTriggerOnHigh)
  else if decide (label = "critical") then (OnCritical triggers, airlockTriggerOnCritical)
  else ("", "").

(** The airlock of the scope, on an escalation. *)
Definition triggerAirlock (scope : string) (level : Z) (cfg : AirlockConfig) (escalated : bool) (s : SessionState) : SessionState :=
  if al_Enabled cfg && escalated then
    let '(targetTier, trigger) := airlockTarget level (al_Triggers cfg) in
    if decide (targetTier <> "" /\ targetTier <> AirlockTierNone) then
      let '((changed, from, to), s) :=
        AirlockForScope unicode_lower (SetTierWithProvenance (clk 3) targetTier trigger airlockSourceTriggers) scope s in
      if changed
      then RecordEvent {| ev_At := Time.zero; ev_Kind := "airlock_enter"; ev_Type := ""; ev_Target := scope;
                          ev_Detail := from +:+ "->" +:+ to; ev_Severity := "warn";
                          ev_Score := ScopedThreatScore unicode_lower scope s |} (clk 4) s
      else s
    else s
  else s.

Definition anomalyEvent (kind_type hostname detail : string) (score : F64.t) : SessionEvent :=
  {| ev_At := Time.zero; ev_Kind := "anomaly"; ev_Type := kind_type; ev_Target := hostname; ev_Detail := detail;
     ev_Severity := "warn"; ev_Score := score |}.

(** The events of the anomalies; in block mode the first one ends the request:
    the result is its detail. *)
Fixpoint anomalyEvents (hostname : string) (block : bool) (anomalies : list Anomaly) (s : SessionState) : option string * SessionState :=
  match anomalies with
  | [] => (None, s)
  | a :: anomalies =>
      let s := RecordEvent (anomalyEvent (an_Type a) hostname (an_Detail a) (an_Score a)) (clk 4) s in
      if block then (Some ("session anomaly: " +:+ an_Detail a), s) else anomalyEvents hostname block anomalies s
  end.

(** The scope of the request. *)
Definition activityScope (o : sessionActivityOptions) : string :=
  let scope := normalizeAdaptiveScope unicode_lower (o_Scope o) in
  if decide (scope = "") then adaptiveScopeForHost unicode_lower (o_Hostname o) else scope.

(** The level of the session for the scope, with the estimate and the hint. *)
Definition levelResult (scope : string) (cfg : AdaptiveEnforcement) (blocked : bool) (detail : string) (s : SessionState) : SessionResult :=
  let level := EffectiveEscalationLevel unicode_lower scope s in
  {| sr_Blocked := blocked; sr_Detail := detail; sr_Level := level;
     sr_AutoRecoverAt := ScopedAdaptiveAutoRecoverAt unicode_lower scope (adaptiveLevelDuration (Some cfg)) s;
     sr_RecoverHint := if decide (0 < level) then adaptiveRecoverHint else "" |}.

Definition with_verdict (blocked : bool) (detail : string) (r : SessionResult) : SessionResult :=
  {| sr_Blocked := blocked; sr_Detail := detail; sr_Level := sr_Level r; sr_AutoRecoverAt := sr_AutoRecoverAt r;
     sr_RecoverHint := sr_RecoverHint r |}.

(** The part after the baseline: signals, airlock, events and the verdict. *)
Definition adaptivePart (o : sessionActivityOptions) (anomalies : list Anomaly) (s : SessionState) : SessionResult * SessionState :=
  let cfg := pc_AdaptiveEnforcement (o_Config o) in
  let scope := activityScope o in
  let result := o_Result o in
  let '(escalated, s) := resultSignal scope result cfg (o_DeferClean o) s in
  let '(escalated, s) :=
    if ae_Enabled cfg && negb (IsAdaptiveNeutral result) && negb (isAdaptiveExempt (o_Hostname o) (ae_ExemptDomains cfg))
    then anomalySignals scope (ae_CooperativeToolDownweight cfg && isCooperativeToolBurstUserAgent (o_UserAgent o)) cfg anomalies
           10 escalated s
    else (escalated, s) in
  let r := levelResult scope cfg false "" s in
  let s := triggerAirlock scope (sr_Level r) (pc_Airlock (o_Config o)) escalated s in
  let block := bool_decide (sp_AnomalyAction (pc_SessionProfiling (o_Config o)) = ActionBlock) && EnforceEnabled (o_Config o) in
  match anomalyEvents (o_Hostname o) block anomalies s with
  | (Some detail, s) => (with_verdict true detail r, s)
  | (None, s) =>
      (r, if r_Allowed result then s
          else RecordEvent {| ev_At := Time.zero; ev_Kind := "block"; ev_Type := ""; ev_Target := o_Hostname o;
                              ev_Detail := r_Reason result; ev_Severity := "critical"; ev_Score := r_Score result |} (clk 4) s)
  end.

(** Everything that happens to the session; [ipAnomalies] are those of the address. *)
Definition sessionPart (key : string) (o : sessionActivityOptions) (ipAnomalies : list Anomaly) (s : SessionState)
    : SessionResult * SessionState :=
  let cfg := pc_AdaptiveEnforcement (o_Config o) in
  let s := trySessionRecovery cfg s in
  let '(anomalies, s) := RecordRequest (o_Hostname o) (pc_SessionProfiling (o_Config o)) (clk 7) s in
  let anomalies := anomalies ++ ipAnomalies in
  match checkBaseline (baselineAgentKeyForSessionKey key) (BaselineMetrics_of s) with
  | Some b =>
      let r := levelResult (activityScope o) cfg true (br_Detail b) s in
      let s := RecordEvent (anomalyEvent "baseline_deviation" (o_Hostname o) (br_Detail b) (F64.of_Z 3)) (clk 4) s in
      if decide (br_Action b = ActionWarn) then adaptivePart o anomalies s else (r, s)
  | None => adaptivePart o anomalies s
  end.

(** The whole; [None] is a proxy without a session manager. The domains of the
    address are the manager's, so recording them before the session's own part
    changes nothing. *)
Definition recordSessionActivityWithUserAgent (o : sessionActivityOptions) (order : list string) (taskID : string)
    (sm : option SessionManager) : SessionResult * option SessionManager :=
  match sm with
  | None => (SessionResult_zero, None)
  | Some sm =>
      let sp := pc_SessionProfiling (o_Config o) in
      if negb (sp_Enabled sp) then (SessionResult_zero, Some sm)
      else
        let key := sessionKeyFor (o_Agent o) (o_ClientIP o) in
        let '((p, _), sm) := GetOrCreate key order taskID (clk 8) sm in
        let '(ipAnomalies, sm) := RecordIPDomain (o_ClientIP o) (o_Hostname o) sp (clk 9) sm in
        let '(r, sm) := onSession p (sessionPart key o ipAnomalies) sm in
        (default SessionResult_zero r, Some sm)
  end.
End activity.

(** ** Levels and airlocks of all lanes *)

(** The level and the airlock of a scope; a scope without a lane has those of a
    new one. *)
Definition levelAt (scope : string) (s : SessionState) : Z := match ss_scopes s !! scope with Some st => ln_escalationLevel (sc_lane st) | None => 0 end.
Definition airlockAt (scope : string) (s : SessionState) : AirlockState :=
  match ss_scopes s !! scope with Some st => sc_airlock st | None => NewAirlockState end.

Definition same_airlocks (s s' : SessionState) : Prop :=
  ss_airlock s' = ss_airlock s /\ forall scope, airlockAt scope s' = airlockAt scope s.

Definition not_lower (s s' : SessionState) : Prop :=
  EscalationLevel s <= EscalationLevel s' /\ forall scope, levelAt scope s <= levelAt scope s'.

(** A lane of [s'] is on a higher level than in [s]. *)
Definition raised (s s' : SessionState) : Prop :=
  EscalationLevel s < EscalationLevel s' \/ exists scope, levelAt scope s < levelAt scope s'.

#[export] Instance same_airlocks_preorder : PreOrder same_airlocks.
Proof. split; [done|]. intros x y z [H1 H2] [H3 H4]. split; [congruence|]. intros k. by rewrite H4. Qed.

#[export] Instance not_lower_preorder : PreOrder not_lower.
Proof.
  split; [done|]. intros x y z [H1 H2] [H3 H4]. split; [lia|]. intros k. specialize (H2 k). specialize (H4 k). lia.
Qed.

Lemma raised_l x y z : raised x y -> not_lower y z -> raised x z.
Proof. intros [H|[k H]] [H3 H4]; [left; lia|right; exists k; specialize (H4 k); lia]. Qed.

Lemma raised_r x y z : not_lower x y -> raised y z -> raised x z.
Proof. intros [H1 H2] [H|[k H]]; [left; lia|right; exists k; specialize (H2 k); lia]. Qed.

(** A signalling step: airlocks stay, no level drops, and one rises if the step
    reports an escalation. *)
Definition signalled (e : bool) (s s' : SessionState) : Prop :=
  same_airlocks s s' /\ not_lower s s' /\ (e = true -> raised s s').

Lemma signalled_refl s : signalled false s s.
Proof. by split_and!. Qed.

Lemma signalled_trans e1 e2 x y z : signalled e1 x y -> signalled e2 y z -> signalled (e1 || e2) x z.
Proof.
  intros (A1 & N1 & R1) (A2 & N2 & R2). split_and!; [by etrans|by etrans|]. intros [E|E]%orb_true_iff.
  - eapply raised_l; [by apply R1|done].
  - eapply raised_r; [done|by apply R2].
Qed.

(** Lanes and airlocks. *)
Definition inner (s : SessionState) : lane * gmap string adaptiveScopeState * AirlockState := (ss_lane s, ss_scopes s, ss_airlock s).

Lemma inner_signalled s s' : inner s' = inner s -> signalled false s s'.
Proof.
  intros [= H1 H2 H3]. split_and!; [|unfold not_lower, EscalationLevel, levelAt; rewrite H1, H2; done|done].
  unfold same_airlocks, airlockAt. by rewrite H2, H3.
Qed.

Lemma recordAdaptive_level sig th now l :
  let '((e, _, _), l') := recordAdaptiveSignalFields sig th now l in
  ln_escalationLevel l' = ln_escalationLevel l + (if e then 1 else 0).
Proof. unfold recordAdaptiveSignalFields. cbv zeta. destruct (F64.leb _ _ || F64.ltb _ _); cbn; lia. Qed.

Section lanes.
Context (unicode_lower : string -> string).

(** Writing a lane back under the scope it came from. *)
Lemma signalled_setLane e s scope st l :
  ss_scopes s !! scope = Some st -> ln_escalationLevel l = ln_escalationLevel (sc_lane st) + (if e : bool then 1 else 0) ->
  signalled e s (with_scopes (<[scope := with_scopeLane l st]> (ss_scopes s)) s).
Proof.
  intros Hst Hl. split_and!.
  - split; [done|]. intros k. unfold airlockAt. cbn. destruct (decide (k = scope)) as [->|]; [by rewrite lookup_insert_eq, Hst|by rewrite lookup_insert_ne].
  - split; [done|]. intros k. unfold levelAt. cbn. destruct (decide (k = scope)) as [->|]; [|by rewrite lookup_insert_ne].
    rewrite lookup_insert_eq, Hst. cbn. destruct e; lia.
  - intros ->. right. exists scope. unfold levelAt. cbn. rewrite lookup_insert_eq, Hst. cbn. lia.
Qed.

Lemma signalled_lane (e : bool) s l :
  ln_escalationLevel l = ln_escalationLevel (ss_lane s) + (if e then 1 else 0) -> signalled e s (with_lane l s).
Proof.
  intros Hl. split_and!; [done| |].
  - split; [|done]. unfold EscalationLevel. cbn. destruct e; lia.
  - intros ->. left. unfold EscalationLevel. cbn. lia.
Qed.

Lemma getOrCreate_signalled scope s :
  signalled false s (getOrCreateScopeLocked unicode_lower scope s).2 /\
  match (getOrCreateScopeLocked unicode_lower scope s).1 with
  | Some st => ss_scopes (getOrCreateScopeLocked unicode_lower scope s).2 !! normalizeAdaptiveScope unicode_lower scope = Some st
  | None => True
  end.
Proof.
  unfold getOrCreateScopeLocked. cbv zeta. set (k := normalizeAdaptiveScope unicode_lower scope).
  destruct (decide (k = "")); [by split; [apply signalled_refl|]|]. destruct (ss_scopes s !! k) as [st|] eqn:E; [by split; [apply signalled_refl|]|].
  destruct (decide _); [by split; [apply signalled_refl|]|]. cbn. split; [|by rewrite lookup_insert_eq]. split_and!; [| |done].
  - split; [done|]. intros k'. unfold airlockAt. cbn. destruct (decide (k' = k)) as [->|]; [by rewrite lookup_insert_eq, E|by rewrite lookup_insert_ne].
  - split; [done|]. intros k'. unfold levelAt. cbn. destruct (decide (k' = k)) as [->|]; [by rewrite lookup_insert_eq, E|by rewrite lookup_insert_ne].
Qed.

Lemma RecordSignal_signalled sig th now s :
  let '((e, _, _), s') := RecordSignal sig th now s in signalled e s s'.
Proof.
  unfold RecordSignal. pose proof (recordAdaptive_level sig th now (ss_lane s)) as H.
  destruct (recordAdaptiveSignalFields _ _ _ _) as [[[e ?] ?] l]. exact (signalled_lane e s l H).
Qed.

Lemma signalled_weaken e s s' : signalled e s s' -> signalled false s s'.
Proof. intros (? & ? & _). by split_and!. Qed.

Lemma RecordScopedSignal_signalled scope sig th now1 now2 s :
  let '((e, _, _), s') := RecordScopedSignal unicode_lower scope sig th now1 now2 s in signalled e s s'.
Proof.
  unfold RecordScopedSignal. cbv zeta. set (k := normalizeAdaptiveScope unicode_lower scope).
  destruct (decide (k = "")); [apply RecordSignal_signalled|]. pose proof (getOrCreate_signalled k s) as [Hs Hst].
  destruct (getOrCreateScopeLocked unicode_lower k s) as [[st|] s1]; cbn in Hs, Hst.
  - pose proof (recordAdaptive_level sig th now1 (sc_lane st)) as H1. destruct (recordAdaptiveSignalFields sig th now1 (sc_lane st)) as [[[e ?] ?] l].
    pose proof (recordAdaptive_level sig th now2 (ss_lane s1)) as H2. destruct (recordAdaptiveSignalFields sig th now2 (ss_lane s1)) as [[[e2 ?] ?] g].
    pose proof (signalled_setLane e s1 _ st l Hst H1) as A.
    pose proof (signalled_lane e2 (setScope unicode_lower k (with_scopeLane l st) s1) g H2) as B.
    pose proof (signalled_trans _ _ _ _ _ Hs (signalled_trans _ _ _ _ _ A (signalled_weaken _ _ _ B))) as C. by rewrite orb_false_r in C.
  - pose proof (recordAdaptive_level sig th now1 (ss_lane s1)) as H. destruct (recordAdaptiveSignalFields _ _ _ _) as [[[e ?] ?] l].
    exact (signalled_trans _ _ _ _ _ Hs (signalled_lane e s1 l H)).
Qed.

Lemma SetScopedBlockAll_signalled scope b s : signalled false s (SetScopedBlockAll unicode_lower scope b s).
Proof.
  assert (forall s, signalled false s (SetBlockAll b s)) as Hall by (intros s0; apply (signalled_lane false); cbn; lia).
  unfold SetScopedBlockAll. cbv zeta. set (k := normalizeAdaptiveScope unicode_lower scope). destruct (decide (k = "")); [apply Hall|].
  pose proof (getOrCreate_signalled k s) as [Hs Hst]. destruct (getOrCreateScopeLocked unicode_lower k s) as [[st|] s1]; cbn in Hs, Hst.
  - apply (signalled_trans false false s s1); [done|]. apply (signalled_setLane false); [done|cbn; lia].
  - by apply (signalled_trans false false s s1).
Qed.

Lemma RecordScopedClean_signalled scope r s : signalled false s (RecordScopedClean unicode_lower scope r s).
Proof.
  assert (forall s, signalled false s (RecordClean r s)) as Hclean by (intros s0; apply (signalled_lane false); cbn; lia).
  unfold RecordScopedClean. cbv zeta. set (k := normalizeAdaptiveScope unicode_lower scope). destruct (decide (k = "")); [apply Hclean|].
  apply (signalled_trans false false s (onScopeLane k (decayAdaptiveScore r) s)); [|apply Hclean]. unfold onScopeLane.
  destruct (ss_scopes s !! k) as [st|] eqn:E.
  - rewrite alter_alt, E. apply (signalled_setLane false); [done|cbn; lia].
  - rewrite alter_alt, E. by apply inner_signalled.
Qed.

Lemma signalAndLatch_signalled scope sig cfg now1 now2 s :
  signalled (signalAndLatch unicode_lower scope sig cfg now1 now2 s).1 s (signalAndLatch unicode_lower scope sig cfg now1 now2 s).2.
Proof.
  unfold signalAndLatch, recordScopedAdaptiveSignal. cbv zeta. set (k := normalizeAdaptiveScope unicode_lower scope).
  assert (let '((e, _, _), s') := (if decide (k = "") then RecordSignal sig (ae_EscalationThreshold cfg) now2 s
    else RecordScopedSignal unicode_lower k sig (ae_EscalationThreshold cfg) now1 now2 s) in signalled e s s') as H
    by (destruct (decide _); [apply RecordSignal_signalled|apply RecordScopedSignal_signalled]).
  destruct (if decide (k = "") then _ else _) as [[[e ?] ?] s1]. cbn. destruct e; [|done].
  apply (signalled_trans true false s s1); [done|]. apply SetScopedBlockAll_signalled.
Qed.
End lanes.

(** ** The parts of the request *)

Definition tiers_le (s s' : SessionState) : Prop :=
  tier_le (as_tier (ss_airlock s)) (as_tier (ss_airlock s')) /\
  forall scope, tier_le (as_tier (airlockAt scope s)) (as_tier (airlockAt scope s')).

#[export] Instance tiers_le_preorder : PreOrder tiers_le.
Proof.
  split; [split; [by left|by intros; left]|]. intros x y z [H1 H2] [H3 H4]. split; [by eapply tier_le_trans|]. intros k. by eapply tier_le_trans.
Qed.

Lemma same_airlocks_tiers s s' : same_airlocks s s' -> tiers_le s s'.
Proof. unfold tiers_le. intros [-> H]. split; [by left|]. intros k. rewrite H. by left. Qed.

Lemma inner_effective f scope s s' :
  inner s' = inner s -> ss_globalSignalsAuthoritative s' = ss_globalSignalsAuthoritative s ->
  EffectiveEscalationLevel f scope s' = EffectiveEscalationLevel f scope s.
Proof. intros [= H1 H2 _] H3. unfold EffectiveEscalationLevel, EscalationLevel. by rewrite H1, H2, H3. Qed.

Lemma RecordEvent_inner e now s :
  inner (RecordEvent e now s) = inner s /\ ss_globalSignalsAuthoritative (RecordEvent e now s) = ss_globalSignalsAuthoritative s.
Proof. done. Qed.

Section parts.
Context (unicode_lower : string -> string) (checkBaseline : string -> BaselineMetrics -> option BaselineResult) (clk : nat -> Z).

Lemma trySessionRecovery_airlocks cfg s : same_airlocks s (trySessionRecovery clk cfg s).
Proof.
  unfold trySessionRecovery. destruct (negb _); [done|]. unfold TryAutoRecover. destruct (autoRecover _ _ _ _ _) as [[[c from] to] l].
  by destruct c.
Qed.

Lemma resultSignal_signalled scope r cfg d s :
  signalled (resultSignal unicode_lower clk scope r cfg d s).1 s (resultSignal unicode_lower clk scope r cfg d s).2.
Proof.
  unfold resultSignal, recordCleanForAdaptiveScope. destruct (negb (ae_Enabled cfg)); [apply signalled_refl|]. destruct (IsAdaptiveNeutral r); [apply signalled_refl|].
  destruct (IsConfigMismatch r); [apply signalAndLatch_signalled|]. destruct (negb (r_Allowed r)); [apply signalAndLatch_signalled|].
  destruct (F64.ltb _ _); [apply signalAndLatch_signalled|]. destruct (negb d); [apply RecordScopedClean_signalled|apply signalled_refl].
Qed.

Lemma anomalySignals_signalled scope c cfg l i e s0 s :
  signalled e s0 s ->
  signalled (anomalySignals unicode_lower clk scope c cfg l i e s).1 s0 (anomalySignals unicode_lower clk scope c cfg l i e s).2.
Proof.
  revert i e s. induction l as [|a l IH]; intros i e s H; cbn [anomalySignals]; [done|].
  destruct (signalForSessionAnomaly _ _) as [sig|]; [|by apply IH]. destruct (F64.leb _ _); [by apply IH|].
  pose proof (signalAndLatch_signalled unicode_lower scope sig cfg (clk i) (clk (S i)) s) as Hs.
  destruct (signalAndLatch _ _ _ _ _ _ _) as [e' s']. cbn in Hs. apply IH. by eapply signalled_trans.
Qed.

Lemma anomalyEvents_inner h b l s :
  inner (anomalyEvents clk h b l s).2 = inner s /\
  ss_globalSignalsAuthoritative (anomalyEvents clk h b l s).2 = ss_globalSignalsAuthoritative s /\
  ((anomalyEvents clk h b l s).1 <> None <-> l <> [] /\ b = true).
Proof.
  revert s. induction l as [|a l IH]; intros s; cbn [anomalyEvents]; [by split_and!; [..|split; [done|intros [? _]]]|]. destruct b; [by split_and!|].
  destruct (IH (RecordEvent (anomalyEvent (an_Type a) h (an_Detail a) (an_Score a)) (clk 4) s)) as (H1 & H2 & H3).
  split_and!; [by rewrite H1|by rewrite H2|]. rewrite H3. split; intros [_ ?]; done.
Qed.

(** A method that raises an airlock. *)
Lemma AirlockForScope_raise {B} (f : AirlockState -> B * AirlockState) scope s :
  (forall a, tier_le (as_tier a) (as_tier (f a).2)) ->
  let s' := (AirlockForScope unicode_lower f scope s).2 in
  tiers_le s s' /\ not_lower s s' /\ ss_globalSignalsAuthoritative s' = ss_globalSignalsAuthoritative s /\
  forall k, EffectiveEscalationLevel unicode_lower k s' = EffectiveEscalationLevel unicode_lower k s.
Proof.
  intros Hf. cbv zeta.
  assert (forall s, let s' := (let '(a, al) := f (ss_airlock s) in (a, with_airlock al s)).2 in
    tiers_le s s' /\ not_lower s s' /\ ss_globalSignalsAuthoritative s' = ss_globalSignalsAuthoritative s /\
    forall k, EffectiveEscalationLevel unicode_lower k s' = EffectiveEscalationLevel unicode_lower k s) as Hsess.
  { intros s0. cbv zeta. specialize (Hf (ss_airlock s0)). destruct (f (ss_airlock s0)) as [x al]. split_and!; [split; [exact Hf|by left]|done..]. }
  unfold AirlockForScope. cbv zeta. set (k := normalizeAdaptiveScope unicode_lower scope). destruct (decide (k = "")); [apply Hsess|].
  pose proof (getOrCreate_signalled unicode_lower k s) as [(A & N & _) Hst].
  assert (ss_globalSignalsAuthoritative (getOrCreateScopeLocked unicode_lower k s).2 = ss_globalSignalsAuthoritative s /\
    forall x, EffectiveEscalationLevel unicode_lower x (getOrCreateScopeLocked unicode_lower k s).2 = EffectiveEscalationLevel unicode_lower x s) as [G E].
  { unfold getOrCreateScopeLocked. cbv zeta. destruct (decide _); [split; reflexivity|].
    destruct (ss_scopes s !! _) eqn:El; [split; reflexivity|]. destruct (decide _); [split; reflexivity|].
    split; [done|]. intros x. unfold EffectiveEscalationLevel, EscalationLevel. cbn.
    destruct (decide (normalizeAdaptiveScope unicode_lower x = normalizeAdaptiveScope unicode_lower k)) as [->|]; [by rewrite lookup_insert_eq, El|by rewrite lookup_insert_ne]. }
  destruct (getOrCreateScopeLocked unicode_lower k s) as [[st|] s1]; cbn in A, N, Hst, G, E; [|apply Hsess].
  specialize (Hf (sc_airlock st)). destruct (f (sc_airlock st)) as [x al]. cbn in Hf |- *. set (k' := normalizeAdaptiveScope unicode_lower k) in *.
  split_and!.
  - etrans; [by apply same_airlocks_tiers|]. split; [by left|]. intros j. unfold airlockAt. cbn.
    destruct (decide (j = k')) as [->|]; [by rewrite lookup_insert_eq, Hst|rewrite lookup_insert_ne by done; by left].
  - etrans; [exact N|]. split; [done|]. intros j. unfold levelAt. cbn.
    destruct (decide (j = k')) as [->|]; [by rewrite lookup_insert_eq, Hst|by rewrite lookup_insert_ne].
  - done.
  - intros j. rewrite <- E. unfold EffectiveEscalationLevel, EscalationLevel. cbn.
    destruct (decide (normalizeAdaptiveScope unicode_lower j = k')) as [->|]; [by rewrite lookup_insert_eq, Hst|by rewrite lookup_insert_ne].
Qed.

Lemma triggerAirlock_spec scope level cfg e s :
  let s' := triggerAirlock unicode_lower clk scope level cfg e s in
  tiers_le s s' /\ not_lower s s' /\ (e = false -> s' = s) /\ EffectiveEscalationLevel unicode_lower scope s' = EffectiveEscalationLevel unicode_lower scope s.
Proof.
  cbv zeta. unfold triggerAirlock. destruct e; [|rewrite andb_false_r; by split_and!]. destruct (al_Enabled cfg); cbn [andb]; [|by split_and!].
  destruct (airlockTarget level (al_Triggers cfg)) as [t g]. destruct (decide _); [|by split_and!].
  pose proof (AirlockForScope_raise (SetTierWithProvenance (clk 3) t g airlockSourceTriggers) scope s) as H. cbv zeta in H.
  destruct H as (H1 & H2 & _ & H4); [intros al; apply (apply_op_raises (OpSetTier (clk 3) t g airlockSourceTriggers)); done|].
  destruct (AirlockForScope _ _ _ _) as [[[c from] to] s1]. cbn in *. specialize (H4 scope).
  by destruct c; split_and!.
Qed.

Notation run_session key o ip s := (sessionPart unicode_lower checkBaseline clk key o ip s).
Notation run_adaptive o l s := (adaptivePart unicode_lower clk o l s).

(** What the adaptive part leaves. *)
Lemma adaptivePart_spec o l s :
  let s' := (run_adaptive o l s).2 in
  not_lower s s' /\ tiers_le s s' /\ (~ raised s s' -> same_airlocks s s') /\
  (ae_Enabled (pc_AdaptiveEnforcement (o_Config o)) = false \/ IsAdaptiveNeutral (o_Result o) = true -> inner s' = inner s) /\
  sr_Level (run_adaptive o l s).1 = EffectiveEscalationLevel unicode_lower (activityScope unicode_lower o) s' /\
  (sr_Blocked (run_adaptive o l s).1 = true <->
     l <> [] /\ sp_AnomalyAction (pc_SessionProfiling (o_Config o)) = ActionBlock /\ EnforceEnabled (o_Config o) = true).
Proof.
  cbv zeta. unfold adaptivePart. cbv zeta. set (cfg := pc_AdaptiveEnforcement (o_Config o)). set (scope := activityScope unicode_lower o).
  pose proof (resultSignal_signalled scope (o_Result o) cfg (o_DeferClean o) s) as H1.
  assert (ae_Enabled cfg = false \/ IsAdaptiveNeutral (o_Result o) = true ->
    resultSignal unicode_lower clk scope (o_Result o) cfg (o_DeferClean o) s = (false, s)) as N1.
  { unfold resultSignal. intros [->|E]; [done|]. destruct (negb _); [done|]. by rewrite E. }
  destruct (resultSignal _ _ _ _ _ _ _) as [e1 s1]. cbn in H1.
  set (c := (_ && isCooperativeToolBurstUserAgent _)). set (b := ae_Enabled cfg && _ && _).
  pose proof (anomalySignals_signalled scope c cfg l 10 e1 s s1 H1) as H2.
  assert (ae_Enabled cfg = false \/ IsAdaptiveNeutral (o_Result o) = true -> b = false) as N2.
  { intros [E|E]; unfold b; rewrite E; [done|by rewrite andb_false_r]. }
  assert (exists e2 s2, (if b then anomalySignals unicode_lower clk scope c cfg l 10 e1 s1 else (e1, s1)) = (e2, s2) /\ signalled e2 s s2 /\
    (ae_Enabled cfg = false \/ IsAdaptiveNeutral (o_Result o) = true -> e2 = false /\ s2 = s)) as (e2 & s2 & -> & H3 & N3).
  { destruct b; [|exists e1, s1; split_and!; [done|done|]; intros H; by injection (N1 H) as -> ->].
    destruct (anomalySignals _ _ _ _ _ _ _ _ _) as [e2 s2]. exists e2, s2. split_and!; [done|done|]. intros H. by specialize (N2 H). }
  clear H1 H2 N1 N2. set (r := levelResult unicode_lower scope cfg false "" s2).
  pose proof (triggerAirlock_spec scope (sr_Level r) (pc_Airlock (o_Config o)) e2 s2) as (T1 & T2 & T3 & T4).
  set (s3 := triggerAirlock _ _ _ _ _ _ _) in *. set (blk := bool_decide _ && EnforceEnabled _).
  pose proof (anomalyEvents_inner (o_Hostname o) blk l s3) as (I1 & I2 & I3).
  assert (blk = true <-> sp_AnomalyAction (pc_SessionProfiling (o_Config o)) = ActionBlock /\ EnforceEnabled (o_Config o) = true) as Hblk
    by (unfold blk; by rewrite andb_true_iff, bool_decide_eq_true).
  assert (forall s4, inner s4 = inner s3 -> ss_globalSignalsAuthoritative s4 = ss_globalSignalsAuthoritative s3 ->
    not_lower s s4 /\ tiers_le s s4 /\ (~ raised s s4 -> same_airlocks s s4) /\
    (ae_Enabled cfg = false \/ IsAdaptiveNeutral (o_Result o) = true -> inner s4 = inner s) /\
    sr_Level r = EffectiveEscalationLevel unicode_lower scope s4) as Hfin.
  { intros s4 E4 G4. destruct H3 as (A3 & L3 & R3). destruct (inner_signalled s3 s4 E4) as (A4 & L4 & _). split_and!.
    - etrans; [exact L3|]. by etrans.
    - etrans; [by apply same_airlocks_tiers|]. etrans; [exact T1|by apply same_airlocks_tiers].
    - intros Hr. destruct e2; [|etrans; [exact A3|by rewrite T3 in A4]]. destruct Hr. eapply raised_l; [by apply R3|]. by etrans.
    - intros H. destruct (N3 H) as [-> ->]. by rewrite E4, T3.
    - rewrite (inner_effective _ _ _ _ E4 G4), T4. done. }
  destruct (anomalyEvents clk (o_Hostname o) blk l s3) as [[d|] s4]; cbn in I1, I2, I3.
  - destruct (Hfin s4 I1 I2) as (F1 & F2 & F3 & F4 & F5). split_and!; try done. cbn. rewrite <- Hblk. by split; [intros _; apply I3|].
  - set (s5 := if r_Allowed (o_Result o) then s4 else _). 
    destruct (Hfin s5) as (F1 & F2 & F3 & F4 & F5); [unfold s5; by destruct (r_Allowed _)|unfold s5; by destruct (r_Allowed _)|].
    split_and!; try done. cbn. rewrite <- Hblk, <- I3. done.
Qed.

(** What the whole leaves, compared with the state after the timed recovery. *)
Lemma sessionPart_spec key o ip s :
  let s0 := trySessionRecovery clk (pc_AdaptiveEnforcement (o_Config o)) s in
  let s' := (run_session key o ip s).2 in
  not_lower s0 s' /\ tiers_le s0 s' /\ (~ raised s0 s' -> same_airlocks s0 s') /\
  (ae_Enabled (pc_AdaptiveEnforcement (o_Config o)) = false \/ IsAdaptiveNeutral (o_Result o) = true -> inner s' = inner s0) /\
  sr_Level (run_session key o ip s).1 = EffectiveEscalationLevel unicode_lower (activityScope unicode_lower o) s'.
Proof.
  cbv zeta. unfold sessionPart. cbv zeta. set (s0 := trySessionRecovery _ _ s).
  destruct (RecordRequest (o_Hostname o) (pc_SessionProfiling (o_Config o)) (clk 7) s0) as [l s1] eqn:E.
  assert (inner s1 = inner s0) as I1 by (unfold RecordRequest in E; by injection E as _ <-). clear E.
  assert (forall s2, inner s2 = inner s0 ->
    let s' := (run_adaptive o (l ++ ip) s2).2 in
    not_lower s0 s' /\ tiers_le s0 s' /\ (~ raised s0 s' -> same_airlocks s0 s') /\
    (ae_Enabled (pc_AdaptiveEnforcement (o_Config o)) = false \/ IsAdaptiveNeutral (o_Result o) = true -> inner s' = inner s0) /\
    sr_Level (run_adaptive o (l ++ ip) s2).1 = EffectiveEscalationLevel unicode_lower (activityScope unicode_lower o) s') as Hgo.
  { intros s2 I2. cbv zeta. destruct (adaptivePart_spec o (l ++ ip) s2) as (H1 & H2 & H3 & H4 & H5 & _).
    destruct (inner_signalled s0 s2 I2) as (A & N & _). split_and!.
    - by etrans.
    - etrans; [by apply same_airlocks_tiers|done].
    - intros Hr. etrans; [exact A|]. apply H3. intros Hr'. apply Hr. by eapply raised_r.
    - intros H. by rewrite H4.
    - exact H5. }
  destruct (checkBaseline _ _) as [b|]; [|by apply Hgo]. destruct (decide _); [by apply Hgo|]. cbn.
  set (s2 := RecordEvent _ _ s1). assert (inner s2 = inner s0) as I2 by done. destruct (inner_signalled s0 s2 I2) as (A & N & _).
  split_and!; [exact N|by apply same_airlocks_tiers|done|done|]. done.
Qed.

(** The airlock is edge-triggered and only tightens. Recording a request never
    lowers a tier, of the session or of a destination, nor (after the timed
    recovery) a level; and it leaves every airlock as it was unless some lane of
    the session rises to a higher level: sitting on a level that has a trigger
    re-arms nothing. *)
Theorem airlock_edge_triggered key o ip s :
  let s0 := trySessionRecovery clk (pc_AdaptiveEnforcement (o_Config o)) s in
  let s' := (sessionPart unicode_lower checkBaseline clk key o ip s).2 in
  not_lower s0 s' /\ tiers_le s s' /\ (~ raised s0 s' -> same_airlocks s s').
Proof.
  cbv zeta. destruct (sessionPart_spec key o ip s) as (H1 & H2 & H3 & _).
  pose proof (trySessionRecovery_airlocks (pc_AdaptiveEnforcement (o_Config o)) s) as A. split_and!; [done| |].
  - etrans; [by apply same_airlocks_tiers|done].
  - intros Hr. etrans; [exact A|by apply H3].
Qed.

(** Neutral results are inert. A result that says nothing of the threat (rate
    limits, resolver failures, validated tokens), or any result while adaptive
    enforcement is off, leaves every score, level, threshold, latch and airlock of
    the session as the timed recovery left it. *)
Theorem neutral_request_inert key o ip s :
  ae_Enabled (pc_AdaptiveEnforcement (o_Config o)) = false \/ IsAdaptiveNeutral (o_Result o) = true ->
  let s0 := trySessionRecovery clk (pc_AdaptiveEnforcement (o_Config o)) s in
  let s' := (sessionPart unicode_lower checkBaseline clk key o ip s).2 in
  ss_lane s' = ss_lane s0 /\ ss_scopes s' = ss_scopes s0 /\ ss_airlock s' = ss_airlock s.
Proof.
  intros H. cbv zeta. destruct (sessionPart_spec key o ip s) as (_ & _ & _ & H4 & _). cbv zeta in H4. specialize (H4 H).
  injection H4 as -> -> ->. split_and!; [done|done|]. apply (trySessionRecovery_airlocks (pc_AdaptiveEnforcement (o_Config o)) s).
Qed.

(** The verdict of a request. It is blocked exactly when the behavioural
    baseline objects with an action other than a warning, or when an anomaly was
    reported, anomalies block and enforcement is on; and the level it returns is
    the effective level of the session it leaves. *)
Theorem activity_verdict key o ip s :
  let s0 := trySessionRecovery clk (pc_AdaptiveEnforcement (o_Config o)) s in
  let '(anomalies, s1) := RecordRequest (o_Hostname o) (pc_SessionProfiling (o_Config o)) (clk 7) s0 in
  let baseline := checkBaseline (baselineAgentKeyForSessionKey key) (BaselineMetrics_of s1) in
  let '(r, s') := sessionPart unicode_lower checkBaseline clk key o ip s in
  (sr_Blocked r = true <->
     (exists b, baseline = Some b /\ br_Action b <> ActionWarn) \/
     ((forall b, baseline = Some b -> br_Action b = ActionWarn) /\ anomalies ++ ip <> [] /\
      sp_AnomalyAction (pc_SessionProfiling (o_Config o)) = ActionBlock /\ EnforceEnabled (o_Config o) = true)) /\
  sr_Level r = EffectiveEscalationLevel unicode_lower (activityScope unicode_lower o) s'.
Proof.
  cbv zeta. pose proof (sessionPart_spec key o ip s) as (_ & _ & _ & _ & H5).
  unfold sessionPart in *. cbv zeta in *. set (s0 := trySessionRecovery _ _ s) in *.
  destruct (RecordRequest _ _ _ s0) as [l s1].
  assert (forall s2, sr_Blocked (run_adaptive o (l ++ ip) s2).1 = true <-> l ++ ip <> [] /\
    sp_AnomalyAction (pc_SessionProfiling (o_Config o)) = ActionBlock /\ EnforceEnabled (o_Config o) = true) as Hb
    by (intros s2; apply (adaptivePart_spec o (l ++ ip) s2)).
  destruct (checkBaseline _ _) as [b|].
  - destruct (decide (br_Action b = ActionWarn)) as [Ew|Ew].
    + set (s2 := RecordEvent _ _ s1) in *. specialize (Hb s2). destruct (run_adaptive o (l ++ ip) s2) as [r s']. split; [|exact H5].
      rewrite Hb. split; [intros H; right; split; [by intros b' [= <-]|exact H]|]. intros [(b' & [= <-] & ?)|[_ H]]; done.
    + cbn in *. split; [|exact H5]. split; [intros _; left; by exists b|done].
  - specialize (Hb s1). destruct (run_adaptive o (l ++ ip) s1) as [r s']. split; [|exact H5].
    rewrite Hb. split; [intros H; right; split; [done|exact H]|]. intros [(b' & [=] & ?)|[_ H]]; done.
Qed.
End parts.

(** ** A request as a sequence of operations *)

Section calls.
Context (unicode_lower : string -> string) (checkBaseline : string -> BaselineMetrics -> option BaselineResult) (clk : nat -> Z).

(** One method of the session, none that lowers an airlock. *)
Definition call (s s' : SessionState) : Prop :=
  exists op now1 now2, lowers op = false /\ s' = apply_session_op unicode_lower op now1 now2 s.

Lemma call_op op now1 now2 s : lowers op = false -> rtc call s (apply_session_op unicode_lower op now1 now2 s).
Proof. intros H. apply rtc_once. by exists op, now1, now2. Qed.

Lemma event_calls e now s : rtc call s (RecordEvent e now s).
Proof. by apply (call_op (OpEvent e) now now). Qed.

Lemma trySessionRecovery_calls cfg s : rtc call s (trySessionRecovery clk cfg s).
Proof.
  unfold trySessionRecovery. destruct (negb _); [done|].
  pose proof (call_op (OpAutoRecover (adaptiveLevelDuration (Some cfg)) (Some (adaptiveBlockAllCheck (Some cfg)))) (clk 0) (clk 1) s eq_refl) as H.
  cbn [apply_session_op] in H. destruct (TryAutoRecover _ _ _ _ _) as [[[c from] to] s1]. cbn in H.
  destruct c; [|done]. etrans; [exact H|apply event_calls].
Qed.

Lemma signalAndLatch_calls scope sig cfg now1 now2 s : rtc call s (signalAndLatch unicode_lower scope sig cfg now1 now2 s).2.
Proof.
  unfold signalAndLatch, recordScopedAdaptiveSignal. cbv zeta. set (k := normalizeAdaptiveScope unicode_lower scope).
  assert (rtc call s (if decide (k = "") then RecordSignal sig (ae_EscalationThreshold cfg) now2 s
    else RecordScopedSignal unicode_lower k sig (ae_EscalationThreshold cfg) now1 now2 s).2) as H.
  { destruct (decide _); [by apply (call_op (OpSignal sig (ae_EscalationThreshold cfg)) now1 now2)|].
    by apply (call_op (OpScopedSignal k sig (ae_EscalationThreshold cfg)) now1 now2). }
  destruct (if decide (k = "") then _ else _) as [[[e ?] ?] s1]. cbn in *. destruct e; [|done]. etrans; [exact H|].
  by apply (call_op (OpSetScopedBlockAll scope _) now1 now2).
Qed.

Lemma resultSignal_calls scope r cfg d s : rtc call s (resultSignal unicode_lower clk scope r cfg d s).2.
Proof.
  unfold resultSignal, recordCleanForAdaptiveScope. destruct (negb (ae_Enabled cfg)); [done|]. destruct (IsAdaptiveNeutral r); [done|].
  destruct (IsConfigMismatch r); [apply signalAndLatch_calls|]. destruct (negb (r_Allowed r)); [apply signalAndLatch_calls|].
  destruct (F64.ltb _ _); [apply signalAndLatch_calls|]. destruct (negb d); [|done].
  by apply (call_op (OpScopedClean _ _) 0 0).
Qed.

Lemma anomalySignals_calls scope c cfg l i e s : rtc call s (anomalySignals unicode_lower clk scope c cfg l i e s).2.
Proof.
  revert i e s. induction l as [|a l IH]; intros i e s; cbn [anomalySignals]; [done|].
  destruct (signalForSessionAnomaly _ _) as [sig|]; [|by apply IH]. destruct (F64.leb _ _); [by apply IH|].
  pose proof (signalAndLatch_calls scope sig cfg (clk i) (clk (S i)) s) as H. destruct (signalAndLatch _ _ _ _ _ _ _) as [e' s']. cbn in H.
  etrans; [exact H|apply IH].
Qed.

Lemma AirlockForScope_unit {B} (f : AirlockState -> B * AirlockState) scope s :
  (AirlockForScope unicode_lower f scope s).2 = (AirlockForScope unicode_lower (fun a => (tt, (f a).2)) scope s).2.
Proof.
  unfold AirlockForScope. cbv zeta. destruct (decide _); [by destruct (f _)|]. destruct (getOrCreateScopeLocked _ _ _) as [[st|] s1]; by destruct (f _).
Qed.

Lemma triggerAirlock_calls scope level cfg e s : rtc call s (triggerAirlock unicode_lower clk scope level cfg e s).
Proof.
  unfold triggerAirlock. destruct (_ && _); [|done]. destruct (airlockTarget _ _) as [t g]. destruct (decide _); [|done].
  pose proof (call_op (OpAirlockForScope scope (OpSetTier (clk 3) t g airlockSourceTriggers)) 0 0 s eq_refl) as H.
  cbn [apply_session_op apply_op] in H. rewrite <- (AirlockForScope_unit (SetTierWithProvenance (clk 3) t g airlockSourceTriggers)) in H.
  destruct (AirlockForScope _ _ _ _) as [[[c from] to] s1]. cbn in H. destruct c; [|done]. etrans; [exact H|apply event_calls].
Qed.

Lemma anomalyEvents_calls h b l s : rtc call s (anomalyEvents clk h b l s).2.
Proof.
  revert s. induction l as [|a l IH]; intros s; cbn [anomalyEvents]; [done|].
  destruct b; [apply event_calls|]. etrans; [apply event_calls|apply IH].
Qed.

Lemma adaptivePart_calls o l s : rtc call s (adaptivePart unicode_lower clk o l s).2.
Proof.
  unfold adaptivePart. cbv zeta. set (cfg := pc_AdaptiveEnforcement (o_Config o)). set (scope := activityScope unicode_lower o).
  pose proof (resultSignal_calls scope (o_Result o) cfg (o_DeferClean o) s) as H1. destruct (resultSignal _ _ _ _ _ _ _) as [e1 s1].
  set (c := (_ && isCooperativeToolBurstUserAgent _)). set (b := ae_Enabled cfg && _ && _).
  assert (rtc call s1 (if b then anomalySignals unicode_lower clk scope c cfg l 10 e1 s1 else (e1, s1)).2) as H2
    by (destruct b; [apply anomalySignals_calls|done]).
  destruct (if b then _ else _) as [e2 s2]. cbn in H1, H2. set (r := levelResult _ _ _ _ _ s2).
  pose proof (triggerAirlock_calls scope (sr_Level r) (pc_Airlock (o_Config o)) e2 s2) as H3. set (s3 := triggerAirlock _ _ _ _ _ _ _) in *.
  set (blk := bool_decide _ && EnforceEnabled _). pose proof (anomalyEvents_calls (o_Hostname o) blk l s3) as H4.
  assert (rtc call s (anomalyEvents clk (o_Hostname o) blk l s3).2) as H by (etrans; [exact H1|]; etrans; [exact H2|]; by etrans).
  destruct (anomalyEvents _ _ _ _ _) as [[d|] s4]; cbn in H |- *; [exact H|]. destruct (r_Allowed _); [exact H|]. etrans; [exact H|apply event_calls].
Qed.

Lemma sessionPart_calls key o ip s : rtc call s (sessionPart unicode_lower checkBaseline clk key o ip s).2.
Proof.
  unfold sessionPart. cbv zeta. etrans; [apply (trySessionRecovery_calls (pc_AdaptiveEnforcement (o_Config o)))|]. set (s0 := trySessionRecovery _ _ s).
  pose proof (call_op (OpRequest (o_Hostname o) (pc_SessionProfiling (o_Config o))) (clk 7) (clk 7) s0 eq_refl) as H. cbn [apply_session_op] in H.
  destruct (RecordRequest _ _ _ s0) as [l s1]. etrans; [exact H|]. cbn [snd].
  destruct (checkBaseline _ _) as [b|]; [|apply adaptivePart_calls]. destruct (decide _); [|apply event_calls].
  etrans; [apply event_calls|apply adaptivePart_calls].
Qed.

(** Calls of one session as operations of the manager. *)
Lemma with_store_id sm : with_store (sm_store sm) sm = sm.
Proof. by destruct sm. Qed.

Lemma alter_insert_store (f : SessionState -> SessionState) (p : nat) x (l : list SessionState) : alter f p (<[p := x]> l) = <[p := f x]> l.
Proof.
  apply list_eq. intros i. destruct (decide (i = p)) as [->|].
  - rewrite list_lookup_alter_eq. destruct (decide (p < length l)%nat) as [Hp|Hp].
    + by rewrite !list_lookup_insert_eq.
    + rewrite !list_insert_ge by lia. by rewrite lookup_ge_None_2 by lia.
  - by rewrite list_lookup_alter_ne, !list_lookup_insert_ne.
Qed.

Lemma calls_run P p s s' sm :
  (forall op, lowers op = false -> P (SmSession p op)) -> sm_store sm !! p = Some s -> rtc call s s' ->
  sm_run unicode_lower P sm (with_store (<[p := s']> (sm_store sm)) sm).
Proof.
  intros HP Hs. revert s'. refine (rtc_ind_r (fun s' => sm_run unicode_lower P sm (with_store (<[p := s']> (sm_store sm)) sm)) s _ _).
  - rewrite list_insert_id, with_store_id by done. apply sm_run_nil.
  - intros s1 s2 _ (op & now1 & now2 & Hop & ->) IH.
    pose proof (sm_run_step unicode_lower P sm _ (SmSession p op) now1 now2 IH (HP op Hop)) as H.
    cbn [apply_sm_op] in H. unfold update in H. cbn in H. rewrite alter_insert_store in H. exact H.
Qed.

(** A request is a sequence of the manager's operations, none of which releases
    anything: recording the activity of any client, whatever the scanner or the
    baseline found, is a history in which no session is deleted or reset and no
    airlock is lowered; so the theorems about such histories (quarantine survives
    them) hold of traffic. *)
Theorem activity_refines o order taskID sm k p :
  exists sm', (recordSessionActivityWithUserAgent unicode_lower checkBaseline clk o order taskID (Some sm)).2 = Some sm' /\
    sm_run unicode_lower (holds k p) sm sm'.
Proof.
  unfold recordSessionActivityWithUserAgent. destruct (negb _); [by eexists; split; [|apply sm_run_nil]|]. cbv zeta.
  set (key := sessionKeyFor _ _).
  pose proof (sm_run_step unicode_lower (holds k p) sm sm (SmGetOrCreate key order taskID) 0 (clk 8) (sm_run_nil _ _ _) I) as H1. cbn [apply_sm_op] in H1.
  destruct (GetOrCreate key order taskID (clk 8) sm) as [[q ev] sm1]. cbn [snd] in H1.
  pose proof (sm_run_step unicode_lower (holds k p) sm sm1 (SmRecordIPDomain (o_ClientIP o) (o_Hostname o) (pc_SessionProfiling (o_Config o)))
    0 (clk 9) H1 I) as H2. cbn [apply_sm_op] in H2.
  destruct (RecordIPDomain _ _ _ _ sm1) as [ip sm2]. cbn [snd] in H2.
  unfold onSession. destruct (sm_store sm2 !! q) as [s|] eqn:Es; [|by eexists; split; [|exact H2]].
  pose proof (sessionPart_calls key o ip s) as Hc. destruct (sessionPart _ _ _ _ _ _ s) as [r s']. eexists. split; [done|].
  eapply sm_run_trans; [exact H2|]. apply (calls_run _ q s s' sm2); [|done|exact Hc]. by intros op Hop _.
Qed.
End calls.

(** ** Examples *)

Definition demo_adaptive : AdaptiveEnforcement :=
  let blocking := {| UpgradeWarn := Some ActionBlock; UpgradeAsk := Some ActionBlock; Config.BlockAll := Some true |} in
  {| ae_Enabled := true; ae_EscalationThreshold := F64.of_Z 3; ae_DecayPerCleanRequest := F64.of_Z 1; ae_LevelDurationSeconds := 300;
     ae_DeescalationCheckSeconds := 30; ae_CleanRequestsToDeescalate := 0; ae_SeverityWeightedSignals := false;
     ae_CooperativeToolDownweight := false; ae_Levels := {| Elevated := blocking; High := blocking; Critical := blocking |};
     ae_ExemptDomains := [] |}.

Definition demo_config : ProxyConfig :=
  {| pc_SessionProfiling := demo_cfg 10; pc_AdaptiveEnforcement := demo_adaptive;
     pc_Airlock := {| al_Enabled := true; al_Triggers := {| OnElevated := "soft"; OnHigh := "hard"; OnCritical := "drain" |};
                      al_Timers := {| SoftMinutes := 5; HardMinutes := 5; DrainMinutes := 5; DrainTimeoutSeconds := 30 |} |};
     pc_Enforce := None |}.

Definition demo_result (allowed : bool) (class : Z) : ScanResult :=
  {| r_Allowed := allowed; r_Reason := "dlp"; r_Scanner := "dlp"; r_Score := F64.zero; r_Class := class |}.

Definition demo_request (allowed : bool) (class : Z) : sessionActivityOptions :=
  {| o_ClientIP := "10.0.0.1"; o_Agent := "bot"; o_Hostname := "example.com"; o_Scope := ""; o_UserAgent := "curl/8.0";
     o_Result := demo_result allowed class; o_Config := demo_config; o_DeferClean := false |}.

Definition no_baseline (agent : string) (m : BaselineMetrics) : option BaselineResult := None.

(** A session, and the same after a blocked request. *)
Definition demo_fresh : SessionState := newSession "bot|10.0.0.1" "identity" "task-1" 1.
Definition demo_clock (base : Z) (i : nat) : Z := base + Z.of_nat i.

Definition demo_blocked : SessionState :=
  (sessionPart id no_baseline (demo_clock 100) "bot|10.0.0.1" (demo_request false ClassThreat) [] demo_fresh).2.

(** The block escalates the destination and quarantines it softly. *)
Example blocked_request :
  levelAt "destination:example.com" demo_blocked = 1 /\ as_tier (airlockAt "destination:example.com" demo_blocked) = "soft" /\
  ln_atBlockAll <$> (sc_lane <$> ss_scopes demo_blocked !! "destination:example.com") = Some true /\ BlockAll demo_blocked = false.
Proof. by vm_compute. Qed.

(** The latch that is to stop the refresh of the activity time is set on the
    destination, but [RecordRequest] reads that of the session: the next request
    of a blocked client refreshes the time. *)
Example latch_does_not_stop_refresh :
  let s := (sessionPart id no_baseline (demo_clock 1000) "bot|10.0.0.1" (demo_request false ClassProtective) [] demo_blocked).2 in
  EffectiveEscalationLevel id "destination:example.com" demo_blocked = 1 /\
  UpgradeAction "" 1 (Some demo_adaptive) = ActionBlock /\
  ss_lastActivity demo_blocked = 107 /\ ss_lastActivity s = 1007.
Proof. by vm_compute. Qed.

(** A neutral request after the block changes nothing. *)
Lemma neutral_request_inert_witness :
  let s' := (sessionPart id no_baseline (demo_clock 1000) "bot|10.0.0.1" (demo_request false ClassProtective) [] demo_blocked).2 in
  ss_scopes s' = ss_scopes demo_blocked /\ ss_airlock s' = ss_airlock demo_blocked.
Proof.
  intros s'. pose proof (neutral_request_inert id no_baseline (demo_clock 1000) "bot|10.0.0.1" (demo_request false ClassProtective) []
    demo_blocked (or_intror eq_refl)) as H. cbv zeta in H. destruct H as (_ & H2 & H3). split; [|exact H3].
  fold s' in H2. rewrite H2. vm_compute. reflexivity.
Defined.

Lemma not_raised_same s s' : inner s' = inner s -> ~ raised s s'.
Proof. intros [= H1 H2 _]. unfold raised, EscalationLevel, levelAt. rewrite H1, H2. intros [?|[? ?]]; lia. Qed.

Lemma airlock_edge_triggered_witness :
  let s' := (sessionPart id no_baseline (demo_clock 1000) "bot|10.0.0.1" (demo_request true ClassInfrastructureError) [] demo_blocked).2 in
  same_airlocks demo_blocked s'.
Proof.
  intros s'. pose proof (airlock_edge_triggered id no_baseline (demo_clock 1000) "bot|10.0.0.1"
    (demo_request true ClassInfrastructureError) [] demo_blocked) as H.
  cbv zeta in H. destruct H as (_ & _ & H). apply H. apply not_raised_same. vm_compute. reflexivity.
Defined.

Example cooperative_agents :
  isCooperativeToolBurstUserAgent " CURL/8.0" = true /\ isCooperativeToolBurstUserAgent "curlish/1" = false /\
  isCooperativeToolBurstUserAgent "python-reque" = false /\ isCooperativeToolBurstUserAgent "Python-Requests/2.31" = true.
Proof. by vm_compute. Qed.
