(* ===== verification/KillSwitch.v ===== *)
(** * Kill switch: the emergency deny-all controller

    [internal/killswitch/killswitch.go]. The controller's fields are atomics
    that one operation reads or writes at a time. The file system, the parsers
    of [net] and of [encoding/json] are arguments. *)

From S2P Require Import Prelude GoStrings Config.
Local Open Scope Z_scope.

(** ** What the code takes from its environment *)

(** [net.ParseIP], [net.ParseCIDR], [IPNet.Contains] and [net.SplitHostPort];
    [None] is a nil address or an error. *)
Class NetLib := {
  IP : Type;
  IPNet : Type;
  ParseIP : string -> option IP;
  ParseCIDR : string -> option IPNet;
  Contains : IPNet -> IP -> bool;
  SplitHostPort : string -> option string;
}.

(** The outcomes of [os.Stat] that [computeDecision] tells apart. *)
Inductive StatResult := StatOK | StatNotExist | StatOtherError.

#[export] Instance StatResult_eq_dec : EqDecision StatResult.
Proof. solve_decision. Defined.

(** The section [kill_switch] of the configuration, with the resolved token. *)
Record KillSwitchConfig := {
  Enabled : bool;
  SentinelFile : string;
  Message : string;
  HealthExempt : option bool;
  MetricsExempt : option bool;
  APIExempt : option bool;
  EffectiveAPIToken : string;
  AllowlistIPs : list string;
}.

Section killswitch.
Context {netlib : NetLib}.

(** ** State *)

Record Decision := {
  d_Active : bool;
  d_Message : string;
  d_Source : string;
  d_IsNotification : bool;
}.

Definition Decision_zero : Decision :=
  {| d_Active := false; d_Message := ""; d_Source := ""; d_IsNotification := false |}.

Definition active (message source : string) : Decision :=
  {| d_Active := true; d_Message := message; d_Source := source; d_IsNotification := false |}.

Record runtime := {
  cfgEnabled : bool;
  sentinelFile : string;
  message : string;
  healthExempt : bool;
  metricsExempt : bool;
  apiExempt : bool;
  apiToken : string;
  allowlistNets : list IPNet;
}.

Record Controller := {
  c_cfg : runtime;
  c_api : bool;
  c_sigusr1 : bool;
  c_conductor : bool;
  c_conductorMsg : string;
  c_conductorStale : bool;
  c_conductorStaleMsg : string;
  c_separatePort : bool;
}.

(** [buildRuntime]: nil exemptions default to true, unparsable networks are
    skipped. *)
Definition buildRuntime (cfg : KillSwitchConfig) : runtime :=
  {| cfgEnabled := Enabled cfg;
     sentinelFile := SentinelFile cfg;
     message := Message cfg;
     healthExempt := default true (HealthExempt cfg);
     metricsExempt := default true (MetricsExempt cfg);
     apiExempt := default true (APIExempt cfg);
     apiToken := EffectiveAPIToken cfg;
     allowlistNets := omap ParseCIDR (AllowlistIPs cfg) |}.

Definition New (cfg : KillSwitchConfig) : Controller :=
  {| c_cfg := buildRuntime cfg; c_api := false; c_sigusr1 := false;
     c_conductor := false; c_conductorMsg := "";
     c_conductorStale := false; c_conductorStaleMsg := ""; c_separatePort := false |}.

(** ** Updates *)

Definition Reload (cfg : KillSwitchConfig) (c : Controller) : Controller :=
  {| c_cfg := buildRuntime cfg; c_api := c_api c; c_sigusr1 := c_sigusr1 c;
     c_conductor := c_conductor c; c_conductorMsg := c_conductorMsg c;
     c_conductorStale := c_conductorStale c; c_conductorStaleMsg := c_conductorStaleMsg c;
     c_separatePort := c_separatePort c |}.

Definition SetAPI (active : bool) (c : Controller) : Controller :=
  {| c_cfg := c_cfg c; c_api := active; c_sigusr1 := c_sigusr1 c;
     c_conductor := c_conductor c; c_conductorMsg := c_conductorMsg c;
     c_conductorStale := c_conductorStale c; c_conductorStaleMsg := c_conductorStaleMsg c;
     c_separatePort := c_separatePort c |}.

Definition SetConductorRemote (active : bool) (msg : string) (c : Controller) : Controller :=
  {| c_cfg := c_cfg c; c_api := c_api c; c_sigusr1 := c_sigusr1 c;
     c_conductor := active; c_conductorMsg := msg;
     c_conductorStale := c_conductorStale c; c_conductorStaleMsg := c_conductorStaleMsg c;
     c_separatePort := c_separatePort c |}.

Definition SetConductorStale (active : bool) (msg : string) (c : Controller) : Controller :=
  {| c_cfg := c_cfg c; c_api := c_api c; c_sigusr1 := c_sigusr1 c;
     c_conductor := c_conductor c; c_conductorMsg := c_conductorMsg c;
     c_conductorStale := active; c_conductorStaleMsg := msg;
     c_separatePort := c_separatePort c |}.

Definition SetSeparateAPIPort (sep : bool) (c : Controller) : Controller :=
  {| c_cfg := c_cfg c; c_api := c_api c; c_sigusr1 := c_sigusr1 c;
     c_conductor := c_conductor c; c_conductorMsg := c_conductorMsg c;
     c_conductorStale := c_conductorStale c; c_conductorStaleMsg := c_conductorStaleMsg c;
     c_separatePort := sep |}.

(** [ToggleSignal]: the compare-and-swap that succeeds; the new state is returned. *)
Definition ToggleSignal (c : Controller) : bool * Controller :=
  (negb (c_sigusr1 c),
   {| c_cfg := c_cfg c; c_api := c_api c; c_sigusr1 := negb (c_sigusr1 c);
      c_conductor := c_conductor c; c_conductorMsg := c_conductorMsg c;
      c_conductorStale := c_conductorStale c; c_conductorStaleMsg := c_conductorStaleMsg c;
      c_separatePort := c_separatePort c |}).

(** ** Decisions *)

(** [computeDecision]: config, api, conductor_remote, conductor_stale, signal,
    sentinel, in that order; a sentinel that cannot be read counts as present. *)
Definition computeDecision (stat : string -> StatResult) (rt : runtime) (c : Controller) : Decision :=
  if cfgEnabled rt then active (message rt) "config"
  else if c_api c then active (message rt) "api"
  else if c_conductor c then
    active (if decide (c_conductorMsg c = "") then message rt else c_conductorMsg c) "conductor_remote"
  else if c_conductorStale c then
    active (if decide (c_conductorStaleMsg c = "") then message rt else c_conductorStaleMsg c) "conductor_stale"
  else if c_sigusr1 c then active (message rt) "signal"
  else if decide (sentinelFile rt <> "") then
    match stat (sentinelFile rt) with
    | StatOK => active (message rt) "sentinel"
    | StatNotExist => Decision_zero
    | StatOtherError => active (message rt) "sentinel"
    end
  else Decision_zero.

(** [Sources]. *)
Definition Sources (stat : string -> StatResult) (c : Controller) : gmap string bool :=
  let rt := c_cfg c in
  <["sentinel" := if decide (sentinelFile rt <> "")
                  then bool_decide (stat (sentinelFile rt) <> StatNotExist) else false]>
  {[ "config" := cfgEnabled rt; "api" := c_api c; "signal" := c_sigusr1 c;
     "conductor_remote" := c_conductor c; "conductor_stale" := c_conductorStale c ]}.

Definition IsActive (stat : string -> StatResult) (c : Controller) : bool :=
  d_Active (computeDecision stat (c_cfg c) c).

(** The allowlist loop of [IsActiveForIP] and [IsActiveHTTP]. *)
Definition allowlisted (rt : runtime) (host : string) : bool :=
  match ParseIP host with
  | Some ip => existsb (fun n => Contains n ip) (allowlistNets rt)
  | None => false
  end.

Definition IsActiveForIP (stat : string -> StatResult) (clientIP : string) (c : Controller) : Decision :=
  let rt := c_cfg c in
  if allowlisted rt clientIP then Decision_zero else computeDecision stat rt c.

Definition sessionSegments (path : string) : list string := Strings.Split (Strings.Trim path "/") "/".

Definition IsSessionActionPath (path action : string) : bool :=
  match sessionSegments path with
  | [s0; s1; s2; s3; s4] =>
      bool_decide (s0 = "api") && bool_decide (s1 = "v1") && bool_decide (s2 = "sessions") &&
      bool_decide (s3 <> "") && negb (Strings.ContainsByte s3 zero) && bool_decide (s4 = action)
  | _ => false
  end.

Definition IsSessionKeyPath (path : string) : bool :=
  match sessionSegments path with
  | [s0; s1; s2; s3] =>
      bool_decide (s0 = "api") && bool_decide (s1 = "v1") && bool_decide (s2 = "sessions") &&
      bool_decide (s3 <> "") && negb (Strings.ContainsByte s3 zero)
  | _ => false
  end.

(** The paths of the API exemption. *)
Definition apiPath (path : string) : bool :=
  bool_decide (path = "/api/v1/killswitch") || bool_decide (path = "/api/v1/killswitch/status") ||
  bool_decide (path = "/api/v1/sessions") ||
  IsSessionKeyPath path ||
  IsSessionActionPath path "reset" ||
  IsSessionActionPath path "airlock" ||
  IsSessionActionPath path "task" ||
  IsSessionActionPath path "trust" ||
  IsSessionActionPath path "explain" ||
  IsSessionActionPath path "terminate".

(** [IsActiveHTTP] on a request's path and remote address. *)
Definition IsActiveHTTP (stat : string -> StatResult) (path remoteAddr : string) (c : Controller) : Decision :=
  let rt := c_cfg c in
  if healthExempt rt && bool_decide (path = "/health") then Decision_zero
  else if metricsExempt rt && bool_decide (path = "/metrics") then Decision_zero
  else if allowlisted rt (default remoteAddr (SplitHostPort remoteAddr)) then Decision_zero
  else if apiExempt rt && negb (c_separatePort c) && apiPath path then Decision_zero
  else computeDecision stat rt c.

(** [hasID]: [rawID msg] is what [json.Unmarshal] leaves in the [id] field, the
    empty string when absent, [None] when the message does not parse. *)
Definition hasID (rawID : string -> option string) (msg : string) : bool :=
  match rawID msg with
  | None => false
  | Some id => bool_decide (id <> "") && bool_decide (id <> "null")
  end.

Definition IsActiveMCP (stat : string -> StatResult) (rawID : string -> option string)
    (msg : string) (c : Controller) : Decision :=
  let d := computeDecision stat (c_cfg c) c in
  if d_Active d
  then {| d_Active := true; d_Message := d_Message d; d_Source := d_Source d;
          d_IsNotification := negb (hasID rawID msg) |}
  else d.

(** ** Lemmas *)

(** The activation sources in the order of their priority. *)
Definition sourceOrder : list string :=
  ["config"; "api"; "conductor_remote"; "conductor_stale"; "signal"; "sentinel"].

Definition sourceActive (stat : string -> StatResult) (c : Controller) (s : string) : bool :=
  default false (Sources stat c !! s).

Lemma Decision_active_cases stat rt c :
  computeDecision stat rt c = Decision_zero \/ d_Active (computeDecision stat rt c) = true.
Proof. unfold computeDecision. repeat (case_match; auto). Qed.

Definition sentinelActive (stat : string -> StatResult) (c : Controller) : bool :=
  if decide (sentinelFile (c_cfg c) <> "")
  then bool_decide (stat (sentinelFile (c_cfg c)) <> StatNotExist) else false.

Lemma sourceActive_eqs stat c :
  sourceActive stat c "config" = cfgEnabled (c_cfg c) /\
  sourceActive stat c "api" = c_api c /\
  sourceActive stat c "conductor_remote" = c_conductor c /\
  sourceActive stat c "conductor_stale" = c_conductorStale c /\
  sourceActive stat c "signal" = c_sigusr1 c /\
  sourceActive stat c "sentinel" = sentinelActive stat c.
Proof. done. Qed.

Lemma computeDecision_or_aux stat c :
  IsActive stat c = existsb (sourceActive stat c) sourceOrder /\
  d_Source (computeDecision stat (c_cfg c) c) =
    default "" (List.find (sourceActive stat c) sourceOrder).
Proof.
  destruct (sourceActive_eqs stat c) as (H1 & H2 & H3 & H4 & H5 & H6).
  unfold IsActive, computeDecision, sourceOrder. cbn [existsb List.find].
  rewrite H1, H2, H3, H4, H5, H6.
  do 5 (match goal with |- context [if ?b then _ else _] => destruct b end;
        cbn [orb d_Active d_Source active default]; [done|]).
  unfold sentinelActive. case_decide; [|done]. by destruct (stat _).
Qed.

(** The six activation sources are OR-composed: the kill switch is active
    exactly when some source reported by [Sources] is active, and the decision
    names the first active one in the documented priority; a sentinel file
    whose presence cannot be determined counts as active. *)
Theorem computeDecision_or stat c :
  IsActive stat c = existsb (sourceActive stat c) sourceOrder /\
  d_Source (computeDecision stat (c_cfg c) c) =
    default "" (List.find (sourceActive stat c) sourceOrder) /\
  sourceActive stat c "sentinel" =
    negb (bool_decide (sentinelFile (c_cfg c) = "")) &&
    negb (bool_decide (stat (sentinelFile (c_cfg c)) = StatNotExist)).
Proof.
  destruct (computeDecision_or_aux stat c) as [Ha Hs]. split_and!; [done|done|].
  destruct (sourceActive_eqs stat c) as (_ & _ & _ & _ & _ & ->).
  unfold sentinelActive. destruct (decide (sentinelFile (c_cfg c) = "")) as [He|Hne].
  - by rewrite He.
  - rewrite decide_True, (bool_decide_eq_false_2 _ Hne) by done. by destruct (stat _).
Qed.

(** *** Exemptions *)

Definition pathExempt (c : Controller) (path : string) : Prop :=
  (healthExempt (c_cfg c) = true /\ path = "/health") \/
  (metricsExempt (c_cfg c) = true /\ path = "/metrics") \/
  (apiExempt (c_cfg c) = true /\ c_separatePort c = false /\ apiPath path = true).

Definition clientExempt (c : Controller) (host : string) : Prop :=
  exists ip net, ParseIP host = Some ip /\ net ∈ allowlistNets (c_cfg c) /\ Contains net ip = true.

Lemma allowlisted_true c host : allowlisted (c_cfg c) host = true <-> clientExempt c host.
Proof.
  unfold allowlisted, clientExempt. case_match.
  - rewrite existsb_exists. setoid_rewrite list_elem_of_In. naive_solver.
  - naive_solver.
Qed.


(** *** Routes *)

(** The session routes cannot be reached by traversal: a path accepted as an
    action route is, between its leading and trailing slashes, exactly
    [api/v1/sessions/KEY/ACTION], where KEY is not empty and contains neither a
    slash nor a NUL byte. *)
Theorem IsSessionActionPath_shape path action :
  IsSessionActionPath path action = true ->
  exists key,
    Strings.Trim path "/" = "api/v1/sessions/" +:+ key +:+ "/" +:+ action /\
    key <> "" /\ Strings.ContainsByte key "/" = false /\ Strings.ContainsByte key zero = false.
Proof.
  unfold IsSessionActionPath. intros Hok.
  pose proof (Strings.Join_Split (Strings.Trim path "/") "/") as HJ.
  pose proof (fun x => Strings.Split_pieces (Strings.Trim path "/") "/" x) as HP.
  unfold sessionSegments in Hok.
  destruct (Strings.Split _ _) as [|s0 [|s1 [|s2 [|s3 [|s4 [|]]]]]]; try done.
  repeat (apply andb_true_iff in Hok as [Hok ?]).
  repeat match goal with h : bool_decide _ = true |- _ => apply bool_decide_eq_true in h end.
  match goal with h : negb _ = true |- _ => apply negb_true_iff in h end. subst. exists s3. split_and!; try done. apply HP. set_solver.
Qed.

Lemma IsSessionActionPath_shape_witness :
  exists key, Strings.Trim "/api/v1/sessions/agent-1/reset" "/" = "api/v1/sessions/" +:+ key +:+ "/" +:+ "reset".
Proof.
  destruct (IsSessionActionPath_shape "/api/v1/sessions/agent-1/reset" "reset") as (key & H & _);
    [vm_compute; reflexivity|]. exists key. exact H.
Defined.

(** The path itself may carry more slashes at its ends than the route has. *)
Example IsSessionActionPath_extra_slashes :
  IsSessionActionPath "///api/v1/sessions/agent-1/reset//" "reset" = true.
Proof. vm_compute. reflexivity. Qed.

(** *** Independence of the sources *)

Inductive ks_op :=
| OpReload (cfg : KillSwitchConfig)
| OpSetAPI (active : bool)
| OpSetConductorRemote (active : bool) (msg : string)
| OpSetConductorStale (active : bool) (msg : string)
| OpToggleSignal
| OpSetSeparateAPIPort (sep : bool).

Definition apply_ks (op : ks_op) (c : Controller) : Controller :=
  match op with
  | OpReload cfg => Reload cfg c
  | OpSetAPI b => SetAPI b c
  | OpSetConductorRemote b m => SetConductorRemote b m c
  | OpSetConductorStale b m => SetConductorStale b m c
  | OpToggleSignal => (ToggleSignal c).2
  | OpSetSeparateAPIPort b => SetSeparateAPIPort b c
  end.

(** The sources an operation is meant to change. *)
Definition touches (op : ks_op) : list string :=
  match op with
  | OpReload _ => ["config"; "sentinel"]
  | OpSetAPI _ => ["api"]
  | OpSetConductorRemote _ _ => ["conductor_remote"]
  | OpSetConductorStale _ _ => ["conductor_stale"]
  | OpToggleSignal => ["signal"]
  | OpSetSeparateAPIPort _ => []
  end.

Lemma apply_ks_source stat op c s :
  s ∈ sourceOrder -> s ∉ touches op -> sourceActive stat (apply_ks op c) s = sourceActive stat c s.
Proof.
  unfold sourceOrder. intros Hs Ht.
  repeat (apply elem_of_cons in Hs as [-> |Hs]; [destruct op; first [by destruct Ht; set_unfold; tauto | reflexivity]|]).
  by apply not_elem_of_nil in Hs.
Qed.

(** Activation sources are independent: as long as no operation addressed to
    a source is performed, a source that is active keeps the kill switch active,
    whatever happens to the others: clearing a stale bundle does not lift a
    remote kill, a reload does not reset the API or the signal. *)
Theorem source_stays_active stat ops c s :
  s ∈ sourceOrder -> sourceActive stat c s = true ->
  Forall (fun op => s ∉ touches op) ops ->
  IsActive stat (foldl (fun c op => apply_ks op c) c ops) = true.
Proof.
  intros Hs Ha Hops. destruct (computeDecision_or_aux stat (foldl (fun c op => apply_ks op c) c ops)) as [-> _].
  apply existsb_exists. exists s. split; [by apply list_elem_of_In|].
  revert c Ha. induction Hops as [|op ops Hop Hops IH]; intros c Ha; [done|].
  simpl. apply IH. by rewrite apply_ks_source.
Qed.
End killswitch.

#[export] Instance w_net : NetLib := {
  IP := string; IPNet := string;
  ParseIP s := if decide (s = "") then None else Some s;
  ParseCIDR s := if decide (s = "bad") then None else Some s;
  Contains n i := bool_decide (n = i);
  SplitHostPort s := head (Strings.Split s ":");
}.

Definition w_cfg : KillSwitchConfig :=
  {| Enabled := false; SentinelFile := "/run/kill"; Message := "denied"; HealthExempt := None;
     MetricsExempt := Some false; APIExempt := None; EffectiveAPIToken := "t";
     AllowlistIPs := ["bad"; "10.0.0.1"] |}.

Definition w_stat (_ : string) : StatResult := StatNotExist.


Lemma source_stays_active_witness :
  IsActive w_stat
    (foldl (fun c op => apply_ks op c) (SetConductorRemote true "" (New w_cfg))
       [OpSetConductorStale true ""; OpSetConductorStale false ""; OpReload w_cfg; OpSetAPI false]) = true.
Proof.
  apply (source_stays_active w_stat _ _ "conductor_remote"); [vm_compute; set_solver|reflexivity|].
  repeat constructor; vm_compute; set_solver.
Defined.
