(* ===== verification/Deferred.v ===== *)
(** * Deferred: actions held until somebody decides

    [internal/deferred/manager.go]. The critical sections of the manager's mutex
    are the functions [holdPublish], [holdArm] and [resolveBegin]; the exported
    operations are compositions of them with the journal writes, the cascade
    and the callbacks, which run outside the mutex. *)

From S2P Require Import Prelude Config.
Local Open Scope Z_scope.

(** ** Constants *)

Definition StateHeld : string := "deferred_held".
Definition StateResolving : string := "resolving".
Definition StateResolvedAllow : string := "resolved_allow".
Definition StateResolvedBlock : string := "resolved_block".
Definition StateResolvedStepUp : string := "resolved_step_up".
Definition StateAdmissionRejected : string := "admission_rejected".
Definition SourceContext : string := "context".
Definition SourceTimeout : string := "timeout".
Definition SourceCancel : string := "cancel".
Definition SourceRestartRecovery : string := "restart_recovery".
Definition SourceKillSwitch : string := "kill_switch".
Definition SourceCapacity : string := "capacity".
Definition SourceCascade : string := "cascade".
Definition SourceCascadeLimit : string := "cascade_limit".
Definition SourceDuplicateDeferID : string := "duplicate_defer_id".
Definition SourcePolicyReload : string := "policy_reload".
Definition SourceApproval : string := "approval".
Definition SourceOperator : string := "operator".
Definition SourceToolInventory : string := "tool_inventory".
Definition LinkageSessionPendingAncestor : string := "session_pending_ancestor".
Definition DefaultTimeoutSeconds : Z := 2.
Definition DefaultMaxPending : Z := 64.
Definition DefaultMaxPendingSession : Z := 8.
Definition DefaultMaxPendingBytes : Z := 1024 * 1024.
Definition DefaultMaxCascadeDepth : Z := DefaultMaxPendingSession.

(** ** Data *)

Record DeferConfig := {
  dc_Enabled : bool;
  dc_Timeout : Z;
  dc_MaxPending : Z;
  dc_MaxPendingPerSession : Z;
  dc_MaxPendingBytes : Z;
  dc_MaxCascadeDepth : Z;
  dc_JournalPath : string;
}.

Record ResolutionPolicy := {
  rp_Timeout : Z;
  rp_MaxPending : Z;
  rp_MaxPendingPerSession : Z;
  rp_MaxPendingBytes : Z;
  rp_MaxCascadeDepth : Z;
}.

Record AuthoritySnapshot := {
  au_Principal : string;
  au_Actor : string;
  au_SessionID : string;
  au_SessionIDOriginal : string;
}.

(** [ha_Resolve] and [ha_timer] tell whether the callback and the timer are non-nil. *)
Record HeldAction := {
  ha_DeferID : string;
  ha_ActionID : string;
  ha_Target : string;
  ha_Reason : string;
  ha_Surface : string;
  ha_Method : string;
  ha_SizeBytes : Z;
  ha_Policy : ResolutionPolicy;
  ha_RulePolicy : DeferResolutionPolicy;
  ha_Authority : AuthoritySnapshot;
  ha_ParentDeferID : string;
  ha_CascadeDepth : Z;
  ha_Linkage : string;
  ha_Deadline : Z;
  ha_Payload : string;
  ha_ArgDigest : string;
  ha_Resolve : bool;
  ha_timer : bool;
  ha_state : string;
  ha_createdAt : Z;
}.

Record Resolution := {
  re_DeferID : string;
  re_ParentActionID : string;
  re_FinalDecision : string;
  re_ResolutionSource : string;
  re_Authority : AuthoritySnapshot;
  re_ParentDeferID : string;
  re_CascadeDepth : Z;
  re_Linkage : string;
  re_Policy : ResolutionPolicy;
  re_Target : string;
  re_Method : string;
  re_Reason : string;
}.

Record journalEntry := {
  je_DeferID : string;
  je_ActionID : string;
  je_State : string;
  je_Source : string;
  je_Target : string;
  je_Surface : string;
  je_Method : string;
  je_Reason : string;
  je_Authority : AuthoritySnapshot;
  je_Policy : ResolutionPolicy;
  je_RulePolicy : DeferResolutionPolicy;
  je_ParentDeferID : string;
  je_CascadeDepth : Z;
  je_Linkage : string;
  je_Deadline : Z;
  je_Timestamp : Z;
  je_SizeBytes : Z;
}.

(** The manager, with what it does to the world: the journal file, the number
    of attempts to append to it, and the resolutions delivered to callbacks. *)
Record Manager := {
  m_cfg : DeferConfig;
  m_holds : gmap string HeldAction;
  m_sessionHolds : gmap string (list string);
  m_totalBytes : Z;
  m_journal : list journalEntry;
  m_attempts : nat;
  m_delivered : list Resolution;
}.

(** Errors. *)
Inductive DeferError :=
| ErrDisabled
| ErrDeferIDRequired
| ErrResolveRequired
| ErrDuplicate (id : string)
| ErrCapacity
| CascadeLimitError (depth limit : Z) (parent : string)
| ErrJournalHold
| ErrNotFound.

Definition HoldFailureSource (e : DeferError) : string :=
  match e with CascadeLimitError _ _ _ => SourceCascadeLimit | _ => SourceCapacity end.

(** What happens around the manager: which appends to the journal fail, the
    clock read at each append, and the order in which a [range] over a map
    yields its keys, which Go leaves open. *)
Class DeferEnv := {
  journalFails : nat -> bool;
  clock : nat -> Z;
  rangeOrder : nat -> gset string -> list string;
  rangeOrder_perm n s : rangeOrder n s ≡ₚ elements s;
}.

(** ** Field updates *)

Definition with_lineage (parent : string) (depth : Z) (linkage : string) (h : HeldAction) : HeldAction :=
  {| ha_DeferID := ha_DeferID h; ha_ActionID := ha_ActionID h; ha_Target := ha_Target h;
     ha_Reason := ha_Reason h; ha_Surface := ha_Surface h; ha_Method := ha_Method h;
     ha_SizeBytes := ha_SizeBytes h; ha_Policy := ha_Policy h; ha_RulePolicy := ha_RulePolicy h;
     ha_Authority := ha_Authority h; ha_ParentDeferID := parent; ha_CascadeDepth := depth;
     ha_Linkage := linkage; ha_Deadline := ha_Deadline h; ha_Payload := ha_Payload h;
     ha_ArgDigest := ha_ArgDigest h; ha_Resolve := ha_Resolve h; ha_timer := ha_timer h;
     ha_state := ha_state h; ha_createdAt := ha_createdAt h |}.

(** The stamps [Hold] puts on an admitted action. *)
Definition stamp (size : Z) (policy : ResolutionPolicy) (deadline now : Z) (h : HeldAction) : HeldAction :=
  {| ha_DeferID := ha_DeferID h; ha_ActionID := ha_ActionID h; ha_Target := ha_Target h;
     ha_Reason := ha_Reason h; ha_Surface := ha_Surface h; ha_Method := ha_Method h;
     ha_SizeBytes := size; ha_Policy := policy; ha_RulePolicy := ha_RulePolicy h;
     ha_Authority := ha_Authority h; ha_ParentDeferID := ha_ParentDeferID h;
     ha_CascadeDepth := ha_CascadeDepth h; ha_Linkage := ha_Linkage h;
     ha_Deadline := deadline; ha_Payload := ha_Payload h;
     ha_ArgDigest := ha_ArgDigest h; ha_Resolve := ha_Resolve h; ha_timer := ha_timer h;
     ha_state := StateHeld; ha_createdAt := now |}.

(** Assigning the callback, the timer and the state of a held action. *)
Definition with_control (resolve timer : bool) (state : string) (h : HeldAction) : HeldAction :=
  {| ha_DeferID := ha_DeferID h; ha_ActionID := ha_ActionID h; ha_Target := ha_Target h;
     ha_Reason := ha_Reason h; ha_Surface := ha_Surface h; ha_Method := ha_Method h;
     ha_SizeBytes := ha_SizeBytes h; ha_Policy := ha_Policy h; ha_RulePolicy := ha_RulePolicy h;
     ha_Authority := ha_Authority h; ha_ParentDeferID := ha_ParentDeferID h;
     ha_CascadeDepth := ha_CascadeDepth h; ha_Linkage := ha_Linkage h;
     ha_Deadline := ha_Deadline h; ha_Payload := ha_Payload h;
     ha_ArgDigest := ha_ArgDigest h; ha_Resolve := resolve; ha_timer := timer;
     ha_state := state; ha_createdAt := ha_createdAt h |}.

Definition with_holds (holds : gmap string HeldAction) (sessionHolds : gmap string (list string))
    (totalBytes : Z) (m : Manager) : Manager :=
  {| m_cfg := m_cfg m; m_holds := holds; m_sessionHolds := sessionHolds;
     m_totalBytes := totalBytes; m_journal := m_journal m; m_attempts := m_attempts m;
     m_delivered := m_delivered m |}.

Definition with_journal (journal : list journalEntry) (attempts : nat) (m : Manager) : Manager :=
  {| m_cfg := m_cfg m; m_holds := m_holds m; m_sessionHolds := m_sessionHolds m;
     m_totalBytes := m_totalBytes m; m_journal := journal; m_attempts := attempts;
     m_delivered := m_delivered m |}.

Definition deliver (r : Resolution) (m : Manager) : Manager :=
  {| m_cfg := m_cfg m; m_holds := m_holds m; m_sessionHolds := m_sessionHolds m;
     m_totalBytes := m_totalBytes m; m_journal := m_journal m; m_attempts := m_attempts m;
     m_delivered := m_delivered m ++ [r] |}.

(** ** Construction *)

Definition orDefault (v d : Z) : Z := if decide (v <= 0) then d else v.

Definition NewManager (cfg : DeferConfig) : Manager :=
  {| m_cfg := {| dc_Enabled := dc_Enabled cfg;
                 dc_Timeout := orDefault (dc_Timeout cfg) (Time.seconds DefaultTimeoutSeconds);
                 dc_MaxPending := orDefault (dc_MaxPending cfg) DefaultMaxPending;
                 dc_MaxPendingPerSession := orDefault (dc_MaxPendingPerSession cfg) DefaultMaxPendingSession;
                 dc_MaxPendingBytes := orDefault (dc_MaxPendingBytes cfg) DefaultMaxPendingBytes;
                 dc_MaxCascadeDepth := orDefault (dc_MaxCascadeDepth cfg) DefaultMaxCascadeDepth;
                 dc_JournalPath := dc_JournalPath cfg |};
     m_holds := ∅; m_sessionHolds := ∅; m_totalBytes := 0;
     m_journal := []; m_attempts := 0; m_delivered := [] |}.

Definition Policy (m : Manager) : ResolutionPolicy :=
  {| rp_Timeout := dc_Timeout (m_cfg m); rp_MaxPending := dc_MaxPending (m_cfg m);
     rp_MaxPendingPerSession := dc_MaxPendingPerSession (m_cfg m);
     rp_MaxPendingBytes := dc_MaxPendingBytes (m_cfg m);
     rp_MaxCascadeDepth := dc_MaxCascadeDepth (m_cfg m) |}.

Definition session (h : HeldAction) : string := au_SessionID (ha_Authority h).

(** The ids of a session: a missing key is the nil slice. *)
Definition sessionIDs (m : Manager) (s : string) : list string := default [] (m_sessionHolds m !! s).

Section manager.
Context {env : DeferEnv}.

(** ** The journal *)

Definition journalEntryFromHeld (held : HeldAction) (state source : string) (now : Z) : journalEntry :=
  {| je_DeferID := ha_DeferID held; je_ActionID := ha_ActionID held; je_State := state;
     je_Source := source; je_Target := ha_Target held; je_Surface := ha_Surface held;
     je_Method := ha_Method held; je_Reason := ha_Reason held; je_Authority := ha_Authority held;
     je_Policy := ha_Policy held; je_RulePolicy := ha_RulePolicy held;
     je_ParentDeferID := ha_ParentDeferID held; je_CascadeDepth := ha_CascadeDepth held;
     je_Linkage := ha_Linkage held; je_Deadline := ha_Deadline held; je_Timestamp := now;
     je_SizeBytes := ha_SizeBytes held |}.

(** [appendJournal] of the entry for [held]; [false] is an error. *)
Definition appendJournal (held : HeldAction) (state source : string) (m : Manager) : bool * Manager :=
  if decide (dc_JournalPath (m_cfg m) = "") then (true, m)
  else
    let n := m_attempts m in
    if journalFails n then (false, with_journal (m_journal m) (S n) m)
    else (true, with_journal (m_journal m ++ [journalEntryFromHeld held state source (clock n)]) (S n) m).

(** [journalRejectedHold]; the warning on failure is not modelled. *)
Definition journalRejectedHold (action : HeldAction) (source : string) (m : Manager) : Manager :=
  let action := if decide (source = SourceCascadeLimit) then action else with_lineage "" 0 "" action in
  (appendJournal action StateAdmissionRejected source m).2.

(** ** Holding *)

(** The lineage of a new hold: the newest pending hold of the same session, if
    the session has an identity. *)
Definition deriveLineage (m : Manager) (action : HeldAction) : HeldAction :=
  match (if decide (session action = "") then None
         else last (sessionIDs m (session action)) ≫= fun id => m_holds m !! id) with
  | Some parent => with_lineage (ha_DeferID parent) (ha_CascadeDepth parent + 1) LinkageSessionPendingAncestor action
  | None => with_lineage (ha_ParentDeferID action) 1 LinkageSessionPendingAncestor action
  end.

Definition overCapacity (m : Manager) (action : HeldAction) : Prop :=
  Z.of_nat (size (m_holds m)) >= dc_MaxPending (m_cfg m) \/
  Z.of_nat (length (sessionIDs m (session action))) >= dc_MaxPendingPerSession (m_cfg m) \/
  ha_SizeBytes action > dc_MaxPendingBytes (m_cfg m) \/
  m_totalBytes m > dc_MaxPendingBytes (m_cfg m) - ha_SizeBytes action.

#[export] Instance overCapacity_dec m action : Decision (overCapacity m action).
Proof. unfold overCapacity. apply _. Defined.

Definition publish (action : HeldAction) (m : Manager) : Manager :=
  with_holds (<[ha_DeferID action := action]> (m_holds m))
    (<[session action := sessionIDs m (session action) ++ [ha_DeferID action]]> (m_sessionHolds m))
    (m_totalBytes m + ha_SizeBytes action) m.

(** The first critical section of [Hold], with the rejections journalled after
    it: admission, lineage, journal entry, publication. *)
Definition holdPublish (action : HeldAction) (m : Manager) : result unit DeferError * Manager :=
  match m_holds m !! ha_DeferID action with
  | Some _ => (Err (ErrDuplicate (ha_DeferID action)),
               journalRejectedHold action SourceDuplicateDeferID m)
  | None =>
      if decide (overCapacity m action)
      then (Err ErrCapacity, journalRejectedHold action SourceCapacity m)
      else
        let action := deriveLineage m action in
        if decide (ha_CascadeDepth action > dc_MaxCascadeDepth (m_cfg m))
        then (Err (CascadeLimitError (ha_CascadeDepth action) (dc_MaxCascadeDepth (m_cfg m))
                     (ha_ParentDeferID action)),
              journalRejectedHold action SourceCascadeLimit m)
        else
          let '(ok, m) := appendJournal action StateHeld "" m in
          if negb ok then (Err ErrJournalHold, m)
          else (Ok tt, publish action m)
  end.

(** The second critical section: arming the timer of a hold that is still there. *)
Definition holdArm (id : string) (m : Manager) : Manager :=
  match m_holds m !! id with
  | Some live =>
      if decide (ha_state live = StateHeld)
      then with_holds (<[id := with_control (ha_Resolve live) true (ha_state live) live]> (m_holds m))
             (m_sessionHolds m) (m_totalBytes m) m
      else m
  | None => m
  end.

(** [Hold]. *)
Definition Hold (now : Z) (action : HeldAction) (m : Manager) : result unit DeferError * Manager :=
  if negb (dc_Enabled (m_cfg m)) then (Err ErrDisabled, m)
  else if decide (ha_DeferID action = "") then (Err ErrDeferIDRequired, m)
  else if negb (ha_Resolve action) then (Err ErrResolveRequired, m)
  else
    let action := stamp (Z.max 0 (ha_SizeBytes action)) (Policy m)
                    (Time.add now (dc_Timeout (m_cfg m))) now action in
    match holdPublish action m with
    | (Ok _, m) => (Ok tt, holdArm (ha_DeferID action) m)
    | (Err e, m) => (Err e, m)
    end.

(** ** Resolving *)

Definition removeSessionHoldLocked (sessionID deferID : string) (m : Manager) : gmap string (list string) :=
  let ids := sessionIDs m sessionID in
  let ids := match list_find (.= deferID) ids with
             | Some (i, _) => take i ids ++ drop (S i) ids
             | None => ids
             end in
  if decide (length ids = 0%nat) then delete sessionID (m_sessionHolds m)
  else <[sessionID := ids]> (m_sessionHolds m).

(** The critical section of [Resolve]: it takes the hold out of the maps. *)
Definition resolveBegin (deferID : string) (m : Manager) : option (HeldAction * Manager) :=
  match m_holds m !! deferID with
  | Some held =>
      if decide (ha_state held = StateHeld) then
        Some (with_control (ha_Resolve held) (ha_timer held) StateResolving held,
              with_holds (delete deferID (m_holds m))
                (removeSessionHoldLocked (session held) deferID m)
                (m_totalBytes m - ha_SizeBytes held) m)
      else None
  | None => None
  end.

Definition resolvedState (finalDecision : string) : string :=
  if decide (finalDecision = "allow") then StateResolvedAllow
  else if decide (finalDecision = "ask") then StateResolvedStepUp
  else StateResolvedBlock.

(** The record handed to the callback. *)
Definition resolution (held : HeldAction) (finalDecision source : string) : Resolution :=
  {| re_DeferID := ha_DeferID held; re_ParentActionID := ha_ActionID held;
     re_FinalDecision := finalDecision; re_ResolutionSource := source;
     re_Authority := ha_Authority held; re_ParentDeferID := ha_ParentDeferID held;
     re_CascadeDepth := ha_CascadeDepth held; re_Linkage := ha_Linkage held;
     re_Policy := ha_Policy held; re_Target := ha_Target held; re_Method := ha_Method held;
     re_Reason := ha_Reason held |}.

Definition isChild (frontier : list string) (m : Manager) (id : string) : bool :=
  match m_holds m !! id with
  | Some held => bool_decide (ha_ParentDeferID held ∈ frontier)
  | None => false
  end.

(** The ids whose parent is in [frontier], in the order of a [range]. *)
Definition childrenOf (frontier : list string) (m : Manager) : list string :=
  filter (isChild frontier m) (rangeOrder (m_attempts m) (dom (m_holds m))).

(** The defaults of [Resolve]'s arguments. *)
Definition orBlock (fd : string) : string := if decide (fd = "") then "block" else fd.
Definition orContext (src : string) : string := if decide (src = "") then SourceContext else src.

(** [Resolve] and [cascadeBlockDescendants] call each other; [None] is running
    out of fuel, which [Resolve_terminates] excludes. *)
Fixpoint Resolve_fuel (n : nat) (deferID finalDecision source : string) (m : Manager)
    : option (result unit DeferError * Manager) :=
  match n with
  | O => None
  | S n =>
      let finalDecision := orBlock finalDecision in
      let source := orContext source in
      match resolveBegin deferID m with
      | None => Some (Err ErrNotFound, m)
      | Some (held, m) =>
          let '(ok, m) := appendJournal held (resolvedState finalDecision) source m in
          let '(finalDecision, source, m) :=
            if ok then (finalDecision, source, m)
            else ("block", SourceCancel,
                  (appendJournal held (resolvedState "block") SourceCancel m).2) in
          m ← (if decide (finalDecision <> ActionAllow /\ source <> SourceCascade)
               then cascadeBlockDescendants_fuel n [ha_DeferID held] m else Some m);
          Some (Ok tt, deliver (resolution held finalDecision source) m)
      end
  end
with cascadeBlockDescendants_fuel (n : nat) (frontier : list string) (m : Manager) : option Manager :=
  match n with
  | O => None
  | S n =>
      match frontier, childrenOf frontier m with
      | [], _ | _, [] => Some m
      | _, children =>
          m ← foldl (fun acc id => m ← acc; p ← Resolve_fuel n id ActionBlock SourceCascade m; Some p.2)
                (Some m) children;
          cascadeBlockDescendants_fuel n children m
      end
  end.

(** The fuel that is always enough: two calls per pending hold, and one. *)
Definition enoughFuel (m : Manager) : nat := 2 * size (m_holds m) + 1.

Definition Resolve (deferID finalDecision source : string) (m : Manager) : result unit DeferError * Manager :=
  default (Err ErrNotFound, m) (Resolve_fuel (enoughFuel m) deferID finalDecision source m).

Definition ResolveAll (finalDecision source : string) (m : Manager) : Manager :=
  foldl (fun m id => (Resolve id finalDecision source m).2) m
    (rangeOrder (m_attempts m) (dom (m_holds m))).

(** ** Snapshots and the callers of [Resolve] *)

Definition snapshotOf (held : HeldAction) : HeldAction := with_control false false (ha_state held) held.

Definition snapshotOne (deferID : string) (m : Manager) : result HeldAction DeferError :=
  match m_holds m !! deferID with
  | Some held => if decide (ha_state held = StateHeld) then Ok (snapshotOf held) else Err ErrNotFound
  | None => Err ErrNotFound
  end.

Definition Snapshot (m : Manager) : list HeldAction :=
  omap (fun id => snapshotOf <$> m_holds m !! id) (rangeOrder (m_attempts m) (dom (m_holds m))).

Definition Held (deferID : string) (m : Manager) : option HeldAction :=
  match snapshotOne deferID m with Ok held => Some held | Err _ => None end.

Definition ResolveToolInventory (sessionID finalDecision : string) (m : Manager) : Manager :=
  foldl (fun m held =>
    if decide (session held = sessionID /\ ToolInventoryBaseline (AllowOn (ha_RulePolicy held)) = true)
    then (Resolve (ha_DeferID held) finalDecision SourceToolInventory m).2 else m)
    m (Snapshot m).

Definition approvalDecision (rp : DeferResolutionPolicy) (finalDecision : string) : string :=
  if decide (finalDecision = ActionAllow)
  then if Approval (AllowOn rp) then ActionAllow else ActionBlock
  else if decide (finalDecision = ActionAsk \/ finalDecision = ActionStepUp)
  then if ApprovalRequestsHuman (StepUpOn rp) then ActionAsk else ActionBlock
  else ActionBlock.

Definition ResolveApprovalResult (deferID finalDecision source : string) (m : Manager)
    : result string DeferError * Manager :=
  match snapshotOne deferID m with
  | Err e => (Err e, m)
  | Ok held =>
      let decision := approvalDecision (ha_RulePolicy held) finalDecision in
      match Resolve deferID decision source m with
      | (Err e, m) => (Err e, m)
      | (Ok _, m) => (Ok decision, m)
      end
  end.

Definition ResolveApproval (deferID finalDecision : string) (m : Manager) : result unit DeferError * Manager :=
  match ResolveApprovalResult deferID finalDecision SourceApproval m with
  | (Err e, m) => (Err e, m)
  | (Ok _, m) => (Ok tt, m)
  end.

(** [evaluate] is the caller's: a decision, or [None] for an error. *)
Definition ResolvePolicyReload (evaluate : HeldAction -> option string) (m : Manager) : Manager :=
  foldl (fun m held =>
    let resolve decision := (Resolve (ha_DeferID held) decision SourcePolicyReload m).2 in
    match evaluate held with
    | None => resolve ActionBlock
    | Some decision =>
        if decide (decision = ActionAllow)
        then if PolicyPermits (AllowOn (ha_RulePolicy held)) then resolve ActionAllow else m
        else if decide (decision = ActionBlock) then resolve ActionBlock
        else if decide (decision = ActionDefer) then m
        else resolve ActionBlock
    end) m (Snapshot m).

(** ** Restart recovery *)

Definition RecordRestartRecovery (held : HeldAction) (m : Manager) : bool * Manager :=
  appendJournal held StateResolvedBlock SourceRestartRecovery m.

Inductive JournalError :=
| HeldAfterTerminal (id : string)
| UnknownState (state id : string).

Definition is_terminal (state : string) : Prop :=
  state = StateResolvedAllow \/ state = StateResolvedBlock \/ state = StateResolvedStepUp.

#[export] Instance is_terminal_dec state : Decision (is_terminal state).
Proof. unfold is_terminal. apply _. Defined.

(** One entry of the scan: the pending entries and the ids with a terminal state. *)
Definition scanEntry (st : gmap string journalEntry * gset string) (entry : journalEntry)
    : result (gmap string journalEntry * gset string) JournalError :=
  let '(pending, terminal) := st in
  let id := je_DeferID entry in
  if decide (je_State entry = StateHeld) then
    if decide (id ∈ terminal) then Err (HeldAfterTerminal id)
    else Ok (<[id := entry]> pending, terminal)
  else if decide (is_terminal (je_State entry)) then Ok (delete id pending, {[id]} ∪ terminal)
  else if decide (je_State entry = StateAdmissionRejected) then Ok (pending, terminal)
  else Err (UnknownState (je_State entry) id).

Fixpoint scanJournal (st : gmap string journalEntry * gset string) (entries : list journalEntry)
    : result (gmap string journalEntry * gset string) JournalError :=
  match entries with
  | [] => Ok st
  | entry :: entries => (st <-? scanEntry st entry; scanJournal st entries)%go
  end.

Definition heldOfEntry (e : journalEntry) : HeldAction :=
  {| ha_DeferID := je_DeferID e; ha_ActionID := je_ActionID e; ha_Target := je_Target e;
     ha_Reason := je_Reason e; ha_Surface := je_Surface e; ha_Method := je_Method e;
     ha_SizeBytes := je_SizeBytes e; ha_Policy := je_Policy e; ha_RulePolicy := je_RulePolicy e;
     ha_Authority := je_Authority e; ha_ParentDeferID := je_ParentDeferID e;
     ha_CascadeDepth := je_CascadeDepth e; ha_Linkage := je_Linkage e; ha_Deadline := je_Deadline e;
     ha_Payload := ""; ha_ArgDigest := ""; ha_Resolve := false; ha_timer := false;
     ha_state := ""; ha_createdAt := Time.zero |}.

(** [PendingJournal] on the parsed lines of the file. *)
Definition PendingJournal (entries : list journalEntry) : result (list HeldAction) JournalError :=
  (st <-? scanJournal (∅, ∅) entries;
   Ok (omap (fun id => heldOfEntry <$> st.1 !! id) (rangeOrder 0 (dom st.1))))%go.

(** ** What resolving removes *)

Lemma appendJournal_frame held state source m :
  let m' := (appendJournal held state source m).2 in
  m_cfg m' = m_cfg m /\ m_holds m' = m_holds m /\ m_sessionHolds m' = m_sessionHolds m /\
  m_totalBytes m' = m_totalBytes m /\ m_delivered m' = m_delivered m.
Proof. unfold appendJournal. repeat case_match; done. Qed.

Lemma appendJournal_holds held state source m ok m' :
  appendJournal held state source m = (ok, m') -> m_holds m' = m_holds m.
Proof. intros H. pose proof (appendJournal_frame held state source m) as Hf. rewrite H in Hf. apply Hf. Qed.

Lemma resolveBegin_Some id m held m' :
  resolveBegin id m = Some (held, m') ->
  exists h, m_holds m !! id = Some h /\ ha_state h = StateHeld /\
    held = with_control (ha_Resolve h) (ha_timer h) StateResolving h /\
    m' = with_holds (delete id (m_holds m)) (removeSessionHoldLocked (session h) id m)
           (m_totalBytes m - ha_SizeBytes h) m.
Proof. unfold resolveBegin. intros. case_go. naive_solver. Qed.

Lemma elem_of_childrenOf id frontier m :
  id ∈ childrenOf frontier m <->
  exists h, m_holds m !! id = Some h /\ ha_ParentDeferID h ∈ frontier.
Proof.
  unfold childrenOf, isChild. rewrite list_elem_of_filter, rangeOrder_perm, elem_of_elements, elem_of_dom.
  split.
  - intros [Hc [h Hh]]. rewrite Hh in Hc. exists h. split; [done|]. by apply bool_decide_unpack in Hc.
  - intros (h & Hh & Hp). rewrite Hh. split; [by apply bool_decide_pack|done].
Qed.

(** [m'] has no hold that [m] has not. *)
Definition shrinks (m m' : Manager) : Prop := m_holds m' ⊆ m_holds m.

Instance shrinks_preorder : PreOrder shrinks.
Proof. split; [intros m; by apply map_subseteq_po|intros m1 m2 m3 H1 H2; unfold shrinks; by transitivity (m_holds m2)]. Qed.

Definition removed (m m' : Manager) (id : string) : Prop :=
  is_Some (m_holds m !! id) /\ m_holds m' !! id = None.

(** Every hold left in [m'] has a parent that did not go away between [m] and
    [m'], the ids in [except] apart. *)
Definition orphan_free (except : list string) (m m' : Manager) : Prop :=
  forall id h, m_holds m' !! id = Some h ->
    removed m m' (ha_ParentDeferID h) -> ha_ParentDeferID h ∈ except.

(** What a call of [Resolve] or of the cascade does to the set of holds. *)
Definition fold_resolve (n : nat) (ids : list string) (m : Manager) : option Manager :=
  foldl (fun acc id => m ← acc; p ← Resolve_fuel n id ActionBlock SourceCascade m; Some p.2) (Some m) ids.

Lemma fold_resolve_None n ids :
  foldl (fun acc id => m ← acc; p ← Resolve_fuel n id ActionBlock SourceCascade m; Some p.2) None ids = None.
Proof. induction ids; done. Qed.

Lemma fold_resolve_cons n id ids m m' :
  fold_resolve n (id :: ids) m = Some m' <->
  exists r m1, Resolve_fuel n id ActionBlock SourceCascade m = Some (r, m1) /\ fold_resolve n ids m1 = Some m'.
Proof.
  unfold fold_resolve; cbn. destruct (Resolve_fuel n id _ _ m) as [[r m1]|] eqn:E; cbn.
  - naive_solver.
  - rewrite fold_resolve_None. naive_solver.
Qed.

Lemma childrenOf_nil m : childrenOf [] m = [].
Proof.
  destruct (childrenOf [] m) as [|c cs] eqn:E; [done|].
  assert (c ∈ childrenOf [] m) as Hc by (rewrite E; left).
  apply elem_of_childrenOf in Hc as (h & _ & Hh). by apply not_elem_of_nil in Hh.
Qed.

Lemma cascade_unfold n frontier m :
  cascadeBlockDescendants_fuel (S n) frontier m =
  if decide (childrenOf frontier m = []) then Some m
  else m1 ← fold_resolve n (childrenOf frontier m) m;
       cascadeBlockDescendants_fuel n (childrenOf frontier m) m1.
Proof.
  cbn [cascadeBlockDescendants_fuel]. destruct frontier as [|p ps]; [by rewrite childrenOf_nil|].
  by destruct (childrenOf (p :: ps) m).
Qed.

(** The induction scheme of the two functions: a property of the calls that
    holds of the base cases and is kept by the composition of the calls. *)
Lemma Resolve_inv n id fd src m r m' :
  Resolve_fuel (S n) id fd src m = Some (r, m') ->
  let fd := orBlock fd in
  let src := orContext src in
  (resolveBegin id m = None /\ r = Err ErrNotFound /\ m' = m) \/
  (exists held m1 ok m2 fd' src' m3 m4,
     r = Ok tt /\
     resolveBegin id m = Some (held, m1) /\
     appendJournal held (resolvedState fd) src m1 = (ok, m2) /\
     (fd', src', m3) = (if ok then (fd, src, m2)
                        else ("block", SourceCancel,
                              (appendJournal held (resolvedState "block") SourceCancel m2).2)) /\
     (if decide (fd' <> ActionAllow /\ src' <> SourceCascade)
      then cascadeBlockDescendants_fuel n [ha_DeferID held] m3 else Some m3) = Some m4 /\
     m' = deliver (resolution held fd' src') m4).
Proof.
  cbn [Resolve_fuel]. cbv zeta.
  set (fd1 := orBlock fd). set (src1 := orContext src).
  destruct (resolveBegin id m) as [[held m1]|] eqn:EB; [|naive_solver].
  destruct (appendJournal held (resolvedState fd1) src1 m1) as [ok m2] eqn:EJ.
  destruct (if ok then (fd1, src1, m2) else _) as [[fd' src'] m3] eqn:EF.
  intros H. right.
  destruct (if decide (fd' <> ActionAllow /\ src' <> SourceCascade)
      then cascadeBlockDescendants_fuel n [ha_DeferID held] m3 else Some m3) as [m4|] eqn:EC;
    cbn in H; simplify_eq.
  eexists held, m1, ok, m2, fd', src', m3, m4.
  split_and!; eauto.
Qed.

(** Every hold in the map is in the state [held], under its own id. *)
Definition holds_wf (m : Manager) : Prop :=
  forall id h, m_holds m !! id = Some h -> ha_state h = StateHeld /\ ha_DeferID h = id.

Lemma holds_wf_shrinks m m' : shrinks m m' -> holds_wf m -> holds_wf m'.
Proof. intros Hs Hw id h Hh. apply Hw. by eapply lookup_weaken. Qed.

Lemma resolveBegin_wf m id :
  holds_wf m ->
  match m_holds m !! id with
  | Some h => exists held m', resolveBegin id m = Some (held, m') /\ ha_DeferID held = id /\
                m_holds m' = delete id (m_holds m)
  | None => resolveBegin id m = None
  end.
Proof.
  intros Hw. unfold resolveBegin. destruct (m_holds m !! id) as [h|] eqn:E; [|done].
  destruct (Hw _ _ E) as [Hs Hi]. rewrite decide_True by done. eauto.
Qed.

Lemma Resolve_found n id fd src m r m' :
  holds_wf m ->
  Resolve_fuel (S n) id fd src m = Some (r, m') ->
  (m_holds m !! id = None /\ r = Err ErrNotFound /\ m' = m) \/
  (is_Some (m_holds m !! id) /\ r = Ok tt /\
   exists held fd' src' m3 m4,
     ha_DeferID held = id /\
     m_holds m3 = delete id (m_holds m) /\
     ((fd', src') = (orBlock fd, orContext src) \/ (fd', src') = (ActionBlock, SourceCancel)) /\
     (if decide (fd' <> ActionAllow /\ src' <> SourceCascade)
      then cascadeBlockDescendants_fuel n [id] m3 else Some m3) = Some m4 /\
     m' = deliver (resolution held fd' src') m4).
Proof.
  intros Hw HR. pose proof (resolveBegin_wf m id Hw) as HB.
  apply Resolve_inv in HR. cbv zeta in HR.
  destruct HR as [(H1 & H2 & H3)|(held & m1 & ok & m2 & fd' & src' & m3 & m4 & -> & H2 & H3 & H4 & H5 & H6)].
  - left. destruct (m_holds m !! id); [|done]. naive_solver.
  - right. destruct (m_holds m !! id) as [h|]; [|congruence].
    destruct HB as (held' & m1' & HB1 & HB2 & HB3). rewrite H2 in HB1. injection HB1 as <- <-.
    split_and!; [by eexists|done|]. exists held, fd', src', m3, m4. rewrite HB2 in H5.
    apply appendJournal_holds in H3.
    assert (m_holds m3 = m_holds m2) as Hm3.
    { destruct ok; injection H4 as -> -> ->; [done|].
      apply (appendJournal_frame held (resolvedState "block") SourceCancel m2). }
    split_and!; [done|congruence| |done|done].
    destruct ok; injection H4 as -> -> ->; [by left|by right].
Qed.

(** Both functions only remove holds. *)
Lemma resolve_shrinks n :
  (forall id fd src m r m', holds_wf m -> Resolve_fuel n id fd src m = Some (r, m') -> shrinks m m') /\
  (forall frontier m m', holds_wf m -> cascadeBlockDescendants_fuel n frontier m = Some m' -> shrinks m m').
Proof.
  induction n as [|n [IHR IHC]]; [done|].
  assert (forall ids m m', holds_wf m -> fold_resolve n ids m = Some m' -> shrinks m m') as IHF.
  { intros ids. induction ids as [|id ids IH]; intros m m' Hw HF; [by injection HF as ->; reflexivity|].
    apply fold_resolve_cons in HF as (r & m1 & H1 & H2). apply IHR in H1; [|done].
    etransitivity; [exact H1|]. eapply IH; [|done]. by eapply holds_wf_shrinks. }
  split.
  - intros id fd src m r m' Hw HR. apply Resolve_found in HR; [|done].
    destruct HR as [(_ & _ & ->)|(_ & _ & held & fd' & src' & m3 & m4 & _ & H3 & _ & HC & ->)];
      [reflexivity|].
    assert (shrinks m m3) as Hs by (unfold shrinks; rewrite H3; apply delete_subseteq).
    unfold shrinks. cbn [m_holds deliver].
    case_decide; [|by simplify_eq]. etransitivity; [|exact Hs].
    eapply IHC; [|done]. by eapply holds_wf_shrinks.
  - intros frontier m m' Hw. rewrite cascade_unfold. case_decide; [intros [= ->]; reflexivity|].
    destruct (fold_resolve n _ m) as [m1|] eqn:EF; cbn; [|done]. intros HC.
    pose proof (IHF _ _ _ Hw EF) as H1. etransitivity; [exact H1|].
    eapply IHC; [|done]. by eapply holds_wf_shrinks.
Qed.

(** A resolved id is no longer held. *)
Lemma Resolve_removes n id fd src m r m' :
  holds_wf m -> Resolve_fuel n id fd src m = Some (r, m') -> m_holds m' !! id = None.
Proof.
  intros Hw HR. destruct n; [done|]. apply Resolve_found in HR; [|done].
  destruct HR as [(H & _ & ->)|(_ & _ & held & fd' & src' & m3 & m4 & _ & H3 & _ & HC & ->)]; [done|].
  assert (shrinks m m3) as Hs by (unfold shrinks; rewrite H3; apply delete_subseteq).
  cbn [m_holds deliver]. assert (m_holds m4 ⊆ m_holds m3) as H43.
  { case_decide; [|by simplify_eq]. eapply (resolve_shrinks n); [|done]. by eapply holds_wf_shrinks. }
  eapply lookup_weaken_None; [|exact H43]. rewrite H3. apply lookup_delete_eq.
Qed.

Lemma fold_resolve_removes n ids m m' :
  holds_wf m -> fold_resolve n ids m = Some m' ->
  shrinks m m' /\ forall id, id ∈ ids -> m_holds m' !! id = None.
Proof.
  revert m. induction ids as [|id ids IH]; intros m Hw HF.
  - injection HF as ->. split; [reflexivity|]. set_solver.
  - apply fold_resolve_cons in HF as (r & m1 & H1 & H2).
    pose proof (proj1 (resolve_shrinks n) _ _ _ _ _ _ Hw H1) as Hs.
    assert (holds_wf m1) as Hw1 by (by eapply holds_wf_shrinks).
    destruct (IH m1 Hw1 H2) as [Hs2 Hids]. split; [by etransitivity|].
    intros id' [->|Hin]%elem_of_cons; [|by apply Hids].
    eapply lookup_weaken_None; [|exact Hs2]. by eapply (Resolve_removes _ _ _ _ m).
Qed.

(** ** Termination *)

Lemma holds_wf_delete m m3 id : holds_wf m -> m_holds m3 = delete id (m_holds m) -> holds_wf m3.
Proof.
  intros Hw H3. eapply (holds_wf_shrinks m); [|done]. unfold shrinks. rewrite H3. apply delete_subseteq.
Qed.

Lemma fuel_enough n :
  (forall id fd src m, holds_wf m -> (1 <= n)%nat -> (2 * size (m_holds m) <= n)%nat ->
     is_Some (Resolve_fuel n id fd src m)) /\
  (forall frontier m, holds_wf m -> (2 * size (m_holds m) + 1 <= n)%nat ->
     is_Some (cascadeBlockDescendants_fuel n frontier m)).
Proof.
  induction n as [|n [IHR IHC]]; [split; intros; lia|]. split.
  - intros id fd src m Hw _ Hn. cbn [Resolve_fuel].
    pose proof (resolveBegin_wf m id Hw) as HB.
    destruct (m_holds m !! id) as [h|] eqn:Eh; [|by rewrite HB].
    destruct HB as (held & m1 & -> & Hid & Hm1).
    destruct (appendJournal held _ _ m1) as [ok m2] eqn:EJ.
    apply appendJournal_holds in EJ.
    match goal with |- context [if ok then ?a else ?b] => destruct (if ok then a else b) as [[fd' src'] m3] eqn:EF end.
    assert (m_holds m3 = delete id (m_holds m)) as H3.
    { destruct ok; injection EF as <- <- <-; [congruence|].
      rewrite <- Hm1, <- EJ. apply (appendJournal_frame held (resolvedState "block") SourceCancel m2). }
    destruct (decide (fd' <> ActionAllow /\ src' <> SourceCascade)); [|eexists; reflexivity]. rewrite Hid.
    destruct (IHC [id] m3) as [m4 ->]; [by eapply holds_wf_delete| |eexists; reflexivity].
    rewrite H3. pose proof (map_size_delete_Some id (m_holds m)) as Hsz. rewrite Hsz by done.
    assert (size (m_holds m) <> 0%nat) by (intros Hz; apply map_size_empty_inv in Hz; by rewrite Hz in Eh). lia.
  - intros frontier m Hw Hn. rewrite cascade_unfold. case_decide as Hc; [by eexists|].
    assert (forall ids m, holds_wf m -> (2 * size (m_holds m) <= n)%nat -> (1 <= n)%nat -> is_Some (fold_resolve n ids m)) as IHF.
    { clear -IHR. intros ids. induction ids as [|id ids IH]; intros m Hw Hn H1; [by eexists|].
      destruct (IHR id ActionBlock SourceCascade m) as [[r m1] Hr]; [done..|].
      pose proof (proj1 (resolve_shrinks n) _ _ _ _ _ _ Hw Hr) as Hs.
      destruct (IH m1) as [m' Hm']; [by eapply holds_wf_shrinks| |done|].
      - apply map_subseteq_size in Hs. lia.
      - exists m'. apply fold_resolve_cons. eauto. }
    destruct (childrenOf frontier m) as [|c cs] eqn:Ecs; [done|].
    assert (c ∈ childrenOf frontier m) as Hcin by (rewrite Ecs; left).
    apply elem_of_childrenOf in Hcin as (h & Hh & _).
    assert (size (m_holds m) <> 0%nat) by (intros Hz; apply map_size_empty_inv in Hz; by rewrite Hz in Hh).
    destruct (IHF (c :: cs) m) as [m1 Hm1]; [done|lia..|]. rewrite Hm1. cbn.
    destruct (fold_resolve_removes _ _ _ _ Hw Hm1) as [Hs Hrem].
    apply IHC; [by eapply holds_wf_shrinks|].
    assert (m_holds m1 ⊂ m_holds m) as Hlt.
    { split; [done|]. intros Hsub. pose proof (lookup_weaken _ _ _ _ Hh Hsub) as Hc1.
      rewrite Hrem in Hc1 by left. done. }
    apply map_subset_size in Hlt. lia.
Qed.


(** ** The cascade reaches every descendant *)

Lemma orphan_free_trans e1 e2 m m1 m' :
  shrinks m1 m' -> orphan_free e1 m m1 -> orphan_free e2 m1 m' -> orphan_free (e1 ++ e2) m m'.
Proof.
  intros Hs H1 H2 id h Hh [Hin Hout]. apply elem_of_app.
  destruct (m_holds m1 !! ha_ParentDeferID h) eqn:E.
  - right. eapply H2; [done|]. split; [by eexists|done].
  - left. eapply H1; [by eapply lookup_weaken|]. by split.
Qed.

Lemma removed_irrefl m id : ~ removed m m id.
Proof. intros [[? H1] H2]. congruence. Qed.

Lemma orphan_free_refl m : orphan_free [] m m.
Proof. by intros id h _ ?%removed_irrefl. Qed.

Lemma orphan_free_deliver e m m' r : orphan_free e m m' -> orphan_free e m (deliver r m').
Proof. done. Qed.

Lemma resolve_orphans n :
  (forall id fd src m r m', holds_wf m -> Resolve_fuel n id fd src m = Some (r, m') ->
     orphan_free [id] m m' /\
     (orBlock fd <> ActionAllow -> orContext src <> SourceCascade -> orphan_free [] m m')) /\
  (forall frontier m m', holds_wf m -> cascadeBlockDescendants_fuel n frontier m = Some m' ->
     orphan_free [] m m' /\ forall id h, m_holds m' !! id = Some h -> ha_ParentDeferID h ∉ frontier).
Proof.
  induction n as [|n [IHR IHC]]; [done|]. split.
  - intros id fd src m r m' Hw HR. apply Resolve_found in HR; [|done].
    destruct HR as [(_ & _ & ->)|(_ & _ & held & fd' & src' & m3 & m4 & _ & H3 & Hfs & HC & ->)].
    { split; [|intros _ _; apply orphan_free_refl].
      intros i h Hh Hrm. by apply removed_irrefl in Hrm. }
    assert (orphan_free [id] m m3) as H03.
    { intros i h Hh [Hin Hout]. rewrite H3 in Hout. apply lookup_delete_None in Hout as [->|Hout]; [left|].
      destruct Hin. congruence. }
    destruct (decide (fd' <> ActionAllow /\ src' <> SourceCascade)) as [Hd|Hd].
    + destruct (IHC [id] m3 m4) as [HC1 HC2]; [by eapply holds_wf_delete|done|].
      assert (orphan_free [] m m4) as H04.
      { intros i h Hh Hrm.
        assert (shrinks m3 m4) as Hs by (eapply (resolve_shrinks n); [by eapply holds_wf_delete|done]).
        pose proof (orphan_free_trans [id] [] m m3 m4 Hs H03 HC1 i h Hh Hrm) as Hi.
        by destruct (HC2 i h Hh). }
      split; [|done]. intros i h Hh Hrm. by destruct (not_elem_of_nil _ (H04 i h Hh Hrm)).
    + injection HC as <-. split; [done|]. intros Hfd Hsrc. destruct Hd.
      destruct Hfs as [[= -> ->]|[= -> ->]]; done.
  - intros frontier m m' Hw. rewrite cascade_unfold. case_decide as Hc.
    { intros [= ->]. split; [apply orphan_free_refl|]. intros i h Hh Hp.
      assert (i ∈ childrenOf frontier m') as Hin by (apply elem_of_childrenOf; eauto).
      rewrite Hc in Hin. by apply not_elem_of_nil in Hin. }
    assert (forall ids m m', holds_wf m -> fold_resolve n ids m = Some m' -> orphan_free ids m m') as IHF.
    { clear -IHR. intros ids. induction ids as [|id ids IH]; intros m m' Hw HF.
      - injection HF as ->. apply orphan_free_refl.
      - apply fold_resolve_cons in HF as (r & m1 & H1 & H2).
        pose proof (proj1 (resolve_shrinks n) _ _ _ _ _ _ Hw H1) as Hs.
        assert (holds_wf m1) as Hw1 by (by eapply holds_wf_shrinks).
        apply (orphan_free_trans [id] ids m m1 m'); [by eapply fold_resolve_removes|by eapply IHR|by apply IH]. }
    destruct (fold_resolve n _ m) as [m1|] eqn:EF; cbn; [|done]. intros HC.
    destruct (fold_resolve_removes _ _ _ _ Hw EF) as [Hs Hrem].
    assert (holds_wf m1) as Hw1 by (by eapply holds_wf_shrinks).
    destruct (IHC _ _ _ Hw1 HC) as [HC1 HC2].
    pose proof (proj2 (resolve_shrinks n) _ _ _ Hw1 HC) as Hs'. split.
    + intros i h Hh Hrm. pose proof (orphan_free_trans _ [] m m1 m' Hs' (IHF _ _ _ Hw EF) HC1 i h Hh Hrm) as Hi.
      rewrite app_nil_r in Hi. by destruct (HC2 i h Hh).
    + intros i h Hh Hp.
      assert (m_holds m1 !! i = Some h) as H1 by (by eapply lookup_weaken).
      rewrite Hrem in H1; [done|]. apply elem_of_childrenOf. exists h. split; [|done]. by eapply lookup_weaken.
Qed.

(** C4: blocking a hold blocks its whole subtree: after [Resolve] with a decision
    other than allow (and not itself called by a cascade), no hold that remains
    has a parent among the holds that went away. This holds even when journal
    writes fail on the way, which turns inner resolutions into new cascades. *)
Theorem Resolve_cascade_closed id fd src m id' h :
  holds_wf m ->
  orBlock fd <> ActionAllow -> orContext src <> SourceCascade ->
  let m' := (Resolve id fd src m).2 in
  m_holds m' !! id' = Some h ->
  is_Some (m_holds m !! ha_ParentDeferID h) -> is_Some (m_holds m' !! ha_ParentDeferID h).
Proof.
  intros Hw Hfd Hsrc m' Hh Hp.
  destruct (proj1 (fuel_enough (enoughFuel m)) id fd src m) as [[r m1] HR];
    [done|unfold enoughFuel; lia..|].
  assert (m' = m1) as -> by (unfold m', Resolve; by rewrite HR).
  destruct (proj1 (resolve_orphans _) _ _ _ _ _ _ Hw HR) as [_ HO]. specialize (HO Hfd Hsrc).
  destruct (m_holds m1 !! ha_ParentDeferID h) eqn:E; [by eexists|].
  assert (ha_ParentDeferID h ∈ []) as []%not_elem_of_nil. eapply HO; [done|]. by split.
Qed.

(** ** Interleavings

    The exported operations as they run concurrently: each step is one critical
    section, one journal append or one callback. An action taken out of the map
    by [resolveBegin] is in flight until its callback has run. *)

Inductive phase := Begun | Retry | Journalled.

Record inflight := {
  fl_held : HeldAction;
  fl_decision : string;
  fl_source : string;
  fl_phase : phase;
}.

(** What identifies an action: its id, the receipt it belongs to, its target and
    the identity it was submitted under. *)
Definition claim : Type := string * string * string * AuthoritySnapshot.

Definition claimOf (h : HeldAction) : claim := (ha_DeferID h, ha_ActionID h, ha_Target h, ha_Authority h).
Definition deliveredClaim (r : Resolution) : claim :=
  (re_DeferID r, re_ParentActionID r, re_Target r, re_Authority r).
Definition claimID (c : claim) : string := c.1.1.1.

(** [cc_admitted] is the log of the actions that were published. *)
Record Concurrent := {
  cc_m : Manager;
  cc_inflight : list inflight;
  cc_admitted : list claim;
}.

Definition initial (cfg : DeferConfig) : Concurrent :=
  {| cc_m := NewManager cfg; cc_inflight := []; cc_admitted := [] |}.

(** The journal write of a resolution and, when it fails, the second one. *)
Definition journalStep (f : inflight) (m : Manager) : inflight * Manager :=
  let '(ok, m') := appendJournal (fl_held f) (resolvedState (fl_decision f)) (fl_source f) m in
  let goto decision source ph :=
    {| fl_held := fl_held f; fl_decision := decision; fl_source := source; fl_phase := ph |} in
  match fl_phase f with
  | Begun => if ok then (goto (fl_decision f) (fl_source f) Journalled, m')
             else (goto "block" SourceCancel Retry, m')
  | Retry => (goto (fl_decision f) (fl_source f) Journalled, m')
  | Journalled => (f, m)
  end.

Inductive dstep : Concurrent -> Concurrent -> Prop :=
| step_hold size policy deadline now action m fs ad r m' :
    0 <= size -> ha_DeferID action <> "" -> ha_Resolve action = true ->
    holdPublish (stamp size policy deadline now action) m = (r, m') ->
    dstep {| cc_m := m; cc_inflight := fs; cc_admitted := ad |}
          {| cc_m := m'; cc_inflight := fs;
             cc_admitted := if is_ok r then ad ++ [claimOf action] else ad |}
| step_rejected action source m fs ad :
    dstep {| cc_m := m; cc_inflight := fs; cc_admitted := ad |}
          {| cc_m := journalRejectedHold action source m; cc_inflight := fs; cc_admitted := ad |}
| step_arm id m fs ad :
    dstep {| cc_m := m; cc_inflight := fs; cc_admitted := ad |}
          {| cc_m := holdArm id m; cc_inflight := fs; cc_admitted := ad |}
| step_begin id fd src held m fs ad m' :
    resolveBegin id m = Some (held, m') ->
    dstep {| cc_m := m; cc_inflight := fs; cc_admitted := ad |}
          {| cc_m := m';
             cc_inflight := {| fl_held := held; fl_decision := fd; fl_source := src; fl_phase := Begun |} :: fs;
             cc_admitted := ad |}
| step_journal f f' m fs1 fs2 ad m' :
    journalStep f m = (f', m') ->
    dstep {| cc_m := m; cc_inflight := fs1 ++ f :: fs2; cc_admitted := ad |}
          {| cc_m := m'; cc_inflight := fs1 ++ f' :: fs2; cc_admitted := ad |}
| step_deliver f m fs1 fs2 ad :
    fl_phase f = Journalled ->
    dstep {| cc_m := m; cc_inflight := fs1 ++ f :: fs2; cc_admitted := ad |}
          {| cc_m := deliver (resolution (fl_held f) (fl_decision f) (fl_source f)) m;
             cc_inflight := fs1 ++ fs2; cc_admitted := ad |}.

Definition reachable (cfg : DeferConfig) : Concurrent -> Prop := rtc dstep (initial cfg).

(** [Resolve], called with other resolutions in flight, is a run of these steps. *)
Lemma resolve_refines n :
  (forall id fd src m r m' fs ad, Resolve_fuel n id fd src m = Some (r, m') ->
     rtc dstep {| cc_m := m; cc_inflight := fs; cc_admitted := ad |}
               {| cc_m := m'; cc_inflight := fs; cc_admitted := ad |}) /\
  (forall frontier m m' fs ad, cascadeBlockDescendants_fuel n frontier m = Some m' ->
     rtc dstep {| cc_m := m; cc_inflight := fs; cc_admitted := ad |}
               {| cc_m := m'; cc_inflight := fs; cc_admitted := ad |}).
Proof.
  induction n as [|n [IHR IHC]]; [done|]. split.
  - intros id fd src m r m' fs ad HR. apply Resolve_inv in HR. cbv zeta in HR.
    destruct HR as [(_ & _ & ->)|(held & m1 & ok & m2 & fd' & src' & m3 & m4 & -> & H2 & H3 & H4 & H5 & ->)];
      [done|].
    eapply rtc_l; [by apply (step_begin id (orBlock fd) (orContext src))|].
    set (f := Build_inflight held (orBlock fd) (orContext src) Begun).
    transitivity {| cc_m := m3; cc_inflight := Build_inflight held fd' src' Journalled :: fs; cc_admitted := ad |}.
    { destruct ok; injection H4 as -> -> ->.
      - apply rtc_once, (step_journal f _ _ [] fs). unfold journalStep. cbn [fl_held fl_decision fl_source fl_phase f].
        by rewrite H3.
      - eapply rtc_l; [apply (step_journal f (Build_inflight held "block" SourceCancel Retry) _ [] fs _ m2)|].
        + unfold journalStep. cbn [fl_held fl_decision fl_source fl_phase f]. by rewrite H3.
        + apply rtc_once, (step_journal (Build_inflight held "block" SourceCancel Retry) _ _ [] fs).
          unfold journalStep. cbn [fl_held fl_decision fl_source fl_phase].
          by destruct (appendJournal held _ _ m2). }
    eapply rtc_r; [|apply (step_deliver (Build_inflight held fd' src' Journalled) m4 [] fs ad); done].
    destruct (decide (fd' <> ActionAllow /\ src' <> SourceCascade)); [|by simplify_eq]. by eapply IHC.
  - intros frontier m m' fs ad. rewrite cascade_unfold. case_decide; [by intros [= ->]|].
    assert (forall ids m m', fold_resolve n ids m = Some m' ->
       rtc dstep {| cc_m := m; cc_inflight := fs; cc_admitted := ad |}
                 {| cc_m := m'; cc_inflight := fs; cc_admitted := ad |}) as IHF.
    { clear -IHR. intros ids. induction ids as [|id ids IH]; intros m m' HF.
      - by injection HF as ->.
      - apply fold_resolve_cons in HF as (r & m1 & H1 & H2).
        etransitivity; [by eapply IHR|by apply IH]. }
    destruct (fold_resolve n _ m) as [m1|] eqn:EF; cbn; [|done]. intros HC.
    etransitivity; [by eapply IHF|by eapply IHC].
Qed.

(** ** The invariant of the maps *)

Definition totalSize (holds : gmap string HeldAction) : Z :=
  map_fold (fun _ h acc => ha_SizeBytes h + acc) 0 holds.

Record manager_inv (m : Manager) : Prop := {
  inv_hold id h : m_holds m !! id = Some h ->
    ha_state h = StateHeld /\ ha_DeferID h = id /\ id <> "" /\ 0 <= ha_SizeBytes h /\
    ha_Resolve h = true /\ ha_CascadeDepth h <= dc_MaxCascadeDepth (m_cfg m);
  inv_session_nodup s : NoDup (sessionIDs m s);
  inv_session_nil s : m_sessionHolds m !! s <> Some [];
  inv_session s id : id ∈ sessionIDs m s <-> exists h, m_holds m !! id = Some h /\ session h = s;
  inv_total : m_totalBytes m = totalSize (m_holds m);
  inv_bytes : 0 <= m_totalBytes m <= dc_MaxPendingBytes (m_cfg m);
  inv_pending : Z.of_nat (size (m_holds m)) <= dc_MaxPending (m_cfg m);
  inv_pending_session s : Z.of_nat (length (sessionIDs m s)) <= dc_MaxPendingPerSession (m_cfg m);
}.

Lemma manager_inv_wf m : manager_inv m -> holds_wf m.
Proof. intros Hi id h Hh. destruct (inv_hold _ Hi _ _ Hh). naive_solver. Qed.

Lemma manager_inv_ext m m' :
  m_cfg m' = m_cfg m -> m_holds m' = m_holds m -> m_sessionHolds m' = m_sessionHolds m ->
  m_totalBytes m' = m_totalBytes m -> manager_inv m -> manager_inv m'.
Proof.
  intros E1 E2 E3 E4 [H1 H2 H3 H4 H5 H6 H7 H8].
  split; unfold sessionIDs in *; rewrite ?E1, ?E2, ?E3, ?E4; auto.
Qed.

Lemma totalSize_insert holds id h :
  holds !! id = None -> totalSize (<[id := h]> holds) = ha_SizeBytes h + totalSize holds.
Proof. intros. unfold totalSize. rewrite map_fold_insert_L; [done|intros; lia|done]. Qed.

Lemma totalSize_delete holds id h :
  holds !! id = Some h -> totalSize holds = ha_SizeBytes h + totalSize (delete id holds).
Proof. intros. unfold totalSize. rewrite (map_fold_delete_L _ _ id h); [done|intros; lia|done]. Qed.

Lemma totalSize_nonneg holds : (forall id h, holds !! id = Some h -> 0 <= ha_SizeBytes h) -> 0 <= totalSize holds.
Proof.
  induction holds as [|id h holds Hid IH] using map_ind; intros Hp.
  - unfold totalSize. by rewrite map_fold_empty.
  - rewrite totalSize_insert by done.
    assert (0 <= ha_SizeBytes h) by (apply (Hp id), lookup_insert_eq).
    assert (0 <= totalSize holds); [|lia]. apply IH. intros i h' Hh. apply (Hp i).
    rewrite lookup_insert_ne; [done|]. congruence.
Qed.

Lemma NewManager_inv cfg : manager_inv (NewManager cfg).
Proof.
  assert (forall v d, 0 < d -> 0 < orDefault v d) as Ho by (intros; unfold orDefault; case_decide; lia).
  split; cbn [NewManager m_cfg m_holds m_sessionHolds m_totalBytes sessionIDs dc_MaxPending
    dc_MaxPendingPerSession dc_MaxPendingBytes].
  - intros id h. by rewrite lookup_empty.
  - intros s. unfold sessionIDs. cbn. rewrite lookup_empty. constructor.
  - intros s. by rewrite lookup_empty.
  - intros s id. unfold sessionIDs. cbn. rewrite lookup_empty. cbn. rewrite elem_of_nil.
    setoid_rewrite lookup_empty. naive_solver.
  - unfold totalSize. by rewrite map_fold_empty.
  - unfold DefaultMaxPendingBytes. specialize (Ho (dc_MaxPendingBytes cfg) (1024 * 1024)). lia.
  - rewrite map_size_empty. unfold DefaultMaxPending. specialize (Ho (dc_MaxPending cfg) 64). lia.
  - intros s. unfold sessionIDs. cbn. rewrite lookup_empty. cbn. unfold DefaultMaxPendingSession.
    specialize (Ho (dc_MaxPendingPerSession cfg) 8). lia.
Qed.

Lemma sessionIDs_publish action m s :
  sessionIDs (publish action m) s =
  if decide (session action = s) then sessionIDs m s ++ [ha_DeferID action] else sessionIDs m s.
Proof.
  unfold sessionIDs at 1. cbn [publish with_holds m_sessionHolds].
  rewrite lookup_insert. by case_decide; subst.
Qed.

Lemma publish_inv action m :
  manager_inv m -> m_holds m !! ha_DeferID action = None -> ~ overCapacity m action ->
  ha_state action = StateHeld -> ha_DeferID action <> "" -> 0 <= ha_SizeBytes action ->
  ha_Resolve action = true -> ha_CascadeDepth action <= dc_MaxCascadeDepth (m_cfg m) ->
  manager_inv (publish action m).
Proof.
  intros Hi Hnew Hcap Hst Hid Hsz Hres Hdep. unfold overCapacity in Hcap.
  pose proof Hi as [H1 H2 H3 H4 H5 H6 H7 H8].
  split; cbn [publish with_holds m_cfg m_holds m_totalBytes].
  - intros id h [(<- & <-)|(Hne & Hh)]%lookup_insert_Some; [done|by apply H1].
  - intros s. rewrite sessionIDs_publish. case_decide as Hs; [|apply H2].
    apply NoDup_app. split_and!; [apply H2| |apply NoDup_singleton].
    intros id Hin ->%list_elem_of_singleton. apply H4 in Hin as (h & Hh & _). congruence.
  - intros s. cbn [publish with_holds m_sessionHolds]. rewrite lookup_insert.
    case_decide; [|apply H3]. intros [= Hn]. by destruct (sessionIDs m (session action)).
  - intros s id. rewrite sessionIDs_publish. setoid_rewrite lookup_insert.
    destruct (decide (ha_DeferID action = id)) as [<-|Hne]; case_decide as Hs.
    + rewrite elem_of_app, list_elem_of_singleton. naive_solver.
    + rewrite H4, Hnew. naive_solver.
    + rewrite elem_of_app, list_elem_of_singleton, H4. naive_solver.
    + apply H4.
  - rewrite totalSize_insert by done. lia.
  - lia.
  - rewrite map_size_insert_None by done. lia.
  - intros s. rewrite sessionIDs_publish. case_decide as Hs; [|apply H8].
    rewrite length_app. cbn. subst. lia.
Qed.

(** The session list after a removal, in terms of the list before. *)
Lemma remove_ids (ids : list string) id :
  NoDup ids ->
  let ids' := match list_find (.= id) ids with
              | Some (i, _) => take i ids ++ drop (S i) ids
              | None => ids
              end in
  NoDup ids' /\ (length ids' <= length ids)%nat /\ forall x, x ∈ ids' <-> x ∈ ids /\ x <> id.
Proof.
  intros Hnd. destruct (list_find (.= id) ids) as [[i y]|] eqn:E; cbv zeta.
  - apply list_find_Some in E as (Hi & -> & _).
    assert (ids ≡ₚ id :: (take i ids ++ drop (S i) ids)) as Hp.
    { rewrite <- (take_drop_middle ids i id) at 1 by done. by rewrite Permutation_middle. }
    rewrite Hp in Hnd. apply NoDup_cons in Hnd as [Hni Hnd]. split_and!; [done| |].
    + apply Permutation_length in Hp. cbn in Hp. lia.
    + intros x. assert (x ∈ ids <-> x ∈ id :: (take i ids ++ drop (S i) ids)) as -> by (by rewrite <- Hp).
      rewrite elem_of_cons. split; [|naive_solver].
      intros Hx. split; [by right|]. by intros ->.
  - apply list_find_None in E. split_and!; [done|lia|]. intros x. split; [|naive_solver].
    intros Hx. split; [done|]. by eapply Forall_forall in E.
Qed.

Lemma sessionIDs_resolveBegin id held m m' s :
  manager_inv m -> resolveBegin id m = Some (held, m') ->
  NoDup (sessionIDs m' s) /\ m_sessionHolds m' !! s <> Some [] /\
  (length (sessionIDs m' s) <= length (sessionIDs m s))%nat /\
  forall x, x ∈ sessionIDs m' s <-> x ∈ sessionIDs m s /\ x <> id.
Proof.
  intros Hi (h & Hh & Hst & -> & ->)%resolveBegin_Some.
  unfold sessionIDs at 1 2 4. cbn [with_holds m_sessionHolds]. unfold removeSessionHoldLocked.
  destruct (remove_ids (sessionIDs m (session h)) id (inv_session_nodup _ Hi _)) as (H1 & H2 & H3).
  revert H1 H2 H3. set (ids' := match list_find _ _ with Some _ => _ | None => _ end). intros H1 H2 H3.
  destruct (decide (session h = s)) as [<-|Hne]; case_decide as Hl.
  - rewrite lookup_delete_eq. cbn. split_and!; [apply NoDup_nil_2|done|lia|].
    intros x. rewrite <- H3. apply nil_length_inv in Hl. by rewrite Hl.
  - rewrite lookup_insert_eq. cbn. split_and!; [done| |done|done]. by intros [= ->].
  - rewrite lookup_delete_ne by done. split_and!; [apply (inv_session_nodup _ Hi)|apply (inv_session_nil _ Hi)|done|].
    fold (sessionIDs m s). intros x. split; [|naive_solver]. intros Hx. split; [done|]. intros ->.
    apply (inv_session _ Hi) in Hx. naive_solver.
  - rewrite lookup_insert_ne by done. split_and!; [apply (inv_session_nodup _ Hi)|apply (inv_session_nil _ Hi)|done|].
    fold (sessionIDs m s). intros x. split; [|naive_solver]. intros Hx. split; [done|]. intros ->.
    apply (inv_session _ Hi) in Hx. naive_solver.
Qed.

Lemma resolveBegin_inv id held m m' :
  manager_inv m -> resolveBegin id m = Some (held, m') -> manager_inv m'.
Proof.
  intros Hi HB. pose proof (fun s => sessionIDs_resolveBegin id held m m' s Hi HB) as HS.
  apply resolveBegin_Some in HB as (h & Hh & Hst & -> & Hm').
  pose proof (totalSize_delete _ _ _ Hh) as Ht.
  assert (0 <= totalSize (delete id (m_holds m))) as Hpos.
  { apply totalSize_nonneg. intros i x [_ Hx]%lookup_delete_Some. apply (inv_hold _ Hi) in Hx. naive_solver. }
  pose proof (inv_total _ Hi). pose proof (inv_bytes _ Hi). pose proof (inv_pending _ Hi).
  assert (m_holds m' = delete id (m_holds m)) as E1 by (by rewrite Hm').
  assert (m_cfg m' = m_cfg m) as E2 by (by rewrite Hm').
  assert (m_totalBytes m' = m_totalBytes m - ha_SizeBytes h) as E3 by (by rewrite Hm').
  split; rewrite ?E1, ?E2, ?E3.
  - intros i x [_ Hx]%lookup_delete_Some. by apply (inv_hold _ Hi).
  - intros s. apply HS.
  - intros s. apply HS.
  - intros s i. destruct (HS s) as (_ & _ & _ & ->). rewrite (inv_session _ Hi).
    setoid_rewrite lookup_delete_Some. naive_solver.
  - lia.
  - pose proof (inv_hold _ Hi _ _ Hh). lia.
  - assert (size (delete id (m_holds m)) <= size (m_holds m))%nat; [|lia].
    apply map_subseteq_size, delete_subseteq.
  - intros s. destruct (HS s) as (_ & _ & Hl & _). pose proof (inv_pending_session _ Hi s). lia.
Qed.

Lemma holdArm_inv id m : manager_inv m -> manager_inv (holdArm id m).
Proof.
  intros Hi. unfold holdArm. destruct (m_holds m !! id) as [h|] eqn:Hh; [|done].
  case_decide as Hst; [|done]. pose proof Hi as [H1 H2 H3 H4 H5 H6 H7 H8].
  assert (forall i x, <[id := with_control (ha_Resolve h) true (ha_state h) h]> (m_holds m) !! i = Some x ->
    exists y, m_holds m !! i = Some y /\ ha_state x = ha_state y /\ ha_DeferID x = ha_DeferID y /\
      ha_SizeBytes x = ha_SizeBytes y /\ ha_Resolve x = ha_Resolve y /\ ha_CascadeDepth x = ha_CascadeDepth y /\
      session x = session y) as Hold'.
  { intros i x [(<- & <-)|(Hne & Hx)]%lookup_insert_Some; [by exists h|by exists x]. }
  split; try assumption; cbn [with_holds m_cfg m_holds m_totalBytes].
  - intros i x (y & Hy & -> & -> & -> & -> & -> & _)%Hold'. by apply H1.
  - intros s i. change (i ∈ sessionIDs m s <-> exists h0 : HeldAction, <[id := with_control (ha_Resolve h) true (ha_state h) h]> (m_holds m) !! i = Some h0 /\ session h0 = s).
    rewrite H4. setoid_rewrite lookup_insert. case_decide as Hd; [|done]. subst i.
    rewrite Hh. split; intros (x & Hx & <-); simplify_eq; eexists; (split; [done|]); done.
  - rewrite <- insert_delete_eq, totalSize_insert by apply lookup_delete_eq. cbn [ha_SizeBytes with_control].
    rewrite H5. by apply totalSize_delete.
  - rewrite map_size_insert_Some by done. done.
Qed.

Lemma overCapacity_deriveLineage m m0 action :
  m_cfg m = m_cfg m0 -> m_holds m = m_holds m0 -> m_sessionHolds m = m_sessionHolds m0 ->
  m_totalBytes m = m_totalBytes m0 ->
  overCapacity m (deriveLineage m0 action) <-> overCapacity m0 action.
Proof.
  intros E1 E2 E3 E4. unfold overCapacity, sessionIDs. rewrite E1, E2, E3, E4.
  unfold deriveLineage. by case_match.
Qed.

(** What a successful admission did. *)
Lemma holdPublish_Ok action m u m' :
  holdPublish action m = (Ok u, m') ->
  let action' := deriveLineage m action in
  exists m1, m_holds m !! ha_DeferID action = None /\ ~ overCapacity m action /\
    ha_CascadeDepth action' <= dc_MaxCascadeDepth (m_cfg m) /\
    appendJournal action' StateHeld "" m = (true, m1) /\ m' = publish action' m1.
Proof.
  unfold holdPublish. destruct (m_holds m !! ha_DeferID action) eqn:E; [done|].
  case_decide as Hc; [done|]. cbv zeta. case_decide as Hd; [done|].
  destruct (appendJournal _ StateHeld "" m) as [ok m1] eqn:EJ. destruct ok; cbn; [|done].
  intros [= _ <-]. exists m1. split_and!; [done..|lia|done|done].
Qed.

(** A failed one only wrote to the journal: an audit entry at most. *)
Lemma holdPublish_Err action m e m' :
  holdPublish action m = (Err e, m') ->
  m_cfg m' = m_cfg m /\ m_holds m' = m_holds m /\ m_sessionHolds m' = m_sessionHolds m /\
  m_totalBytes m' = m_totalBytes m /\ m_delivered m' = m_delivered m /\
  (m_journal m' = m_journal m \/
   exists entry, m_journal m' = m_journal m ++ [entry] /\ je_State entry = StateAdmissionRejected).
Proof.
  assert (forall a src m1, m1 = journalRejectedHold a src m ->
    m_cfg m1 = m_cfg m /\ m_holds m1 = m_holds m /\ m_sessionHolds m1 = m_sessionHolds m /\
    m_totalBytes m1 = m_totalBytes m /\ m_delivered m1 = m_delivered m /\
    (m_journal m1 = m_journal m \/
     exists entry, m_journal m1 = m_journal m ++ [entry] /\ je_State entry = StateAdmissionRejected)) as HJ.
  { intros a src m1 ->. unfold journalRejectedHold, appendJournal. cbv zeta.
    repeat case_match; cbn; split_and!; try done; try (by left); right; eexists; split; done. }
  unfold holdPublish. repeat case_match; intros [= <- <-]; try (by eapply HJ).
  all: unfold appendJournal in *; repeat case_match; simplify_eq/=; naive_solver.
Qed.

(** ** Reachable states *)

Definition heldClaims (m : Manager) : list claim := claimOf <$> (map_to_list (m_holds m)).*2.

Lemma heldClaims_insert m id h :
  m_holds m !! id = None ->
  claimOf <$> (map_to_list (<[id := h]> (m_holds m))).*2 ≡ₚ claimOf h :: heldClaims m.
Proof. intros Hid. unfold heldClaims. by rewrite map_to_list_insert. Qed.

Lemma heldClaims_delete m id h :
  m_holds m !! id = Some h ->
  heldClaims m ≡ₚ claimOf h :: (claimOf <$> (map_to_list (delete id (m_holds m))).*2).
Proof. intros Hid. unfold heldClaims. by rewrite <- (map_to_list_delete _ _ _ Hid). Qed.

Lemma heldClaims_arm m id : heldClaims (holdArm id m) ≡ₚ heldClaims m.
Proof.
  unfold holdArm. destruct (m_holds m !! id) as [h|] eqn:Hh; [|done]. case_decide; [|done].
  unfold heldClaims at 1. cbn [with_holds m_holds].
  rewrite <- insert_delete_eq, map_to_list_insert by apply lookup_delete_eq. cbn.
  by rewrite (heldClaims_delete _ _ _ Hh).
Qed.

Lemma journalStep_frame f m f' m' :
  journalStep f m = (f', m') ->
  m_cfg m' = m_cfg m /\ m_holds m' = m_holds m /\ m_sessionHolds m' = m_sessionHolds m /\
  m_totalBytes m' = m_totalBytes m /\ m_delivered m' = m_delivered m /\ fl_held f' = fl_held f.
Proof.
  unfold journalStep. pose proof (appendJournal_frame (fl_held f) (resolvedState (fl_decision f)) (fl_source f) m) as HF.
  destruct (appendJournal _ _ _ m) as [ok m1]. cbn in HF.
  repeat case_match; intros; simplify_eq; cbn; naive_solver.
Qed.

(** Every admitted action is in exactly one of the three places. *)
Definition conserved (c : Concurrent) : Prop :=
  cc_admitted c ≡ₚ heldClaims (cc_m c) ++ ((fun f => claimOf (fl_held f)) <$> cc_inflight c)
                   ++ (deliveredClaim <$> m_delivered (cc_m c)).

Lemma deriveLineage_fields m action :
  let a := deriveLineage m action in
  claimOf a = claimOf action /\ ha_state a = ha_state action /\ ha_SizeBytes a = ha_SizeBytes action /\
  ha_Resolve a = ha_Resolve action /\ session a = session action /\ ha_DeferID a = ha_DeferID action.
Proof. unfold deriveLineage. by case_match. Qed.

Lemma dstep_inv c c' :
  dstep c c' -> manager_inv (cc_m c) /\ conserved c -> manager_inv (cc_m c') /\ conserved c'.
Proof.
  unfold conserved. intros Hs [Hi Hc].
  destruct Hs as [sz policy deadline now action m fs ad r m' H0 H1 Hres H2|action source m fs ad|id m fs ad
    |id fd src held m fs ad m' H|f f' m fs1 fs2 ad m' H|f m fs1 fs2 ad H];
    cbn [cc_m cc_inflight cc_admitted] in *.
  - set (a := stamp sz policy deadline now action) in *. destruct r as [u|e]; cbn [is_ok].
    + apply holdPublish_Ok in H2 as (m1 & Hn & Hcap & Hd & HJ & ->).
      pose proof (appendJournal_frame (deriveLineage m a) StateHeld "" m) as HF. rewrite HJ in HF. cbn in HF.
      destruct HF as (F1 & F2 & F3 & F4 & F5).
      destruct (deriveLineage_fields m a) as (L1 & L2 & L3 & L4 & L5 & L6).
      rewrite <- L6, <- F2 in Hn. split.
      * apply publish_inv; rewrite ?L2, ?L3, ?L4, ?F1; try done.
        -- by apply (manager_inv_ext m).
        -- by rewrite overCapacity_deriveLineage.
        -- by rewrite L6.
      * unfold heldClaims at 1. cbn [publish with_holds m_holds m_delivered].
        rewrite heldClaims_insert by done. rewrite L1, F5. unfold heldClaims. rewrite F2.
        change (claimOf a) with (claimOf action). rewrite Hc. by rewrite Permutation_app_comm.
    + apply holdPublish_Err in H2 as (F1 & F2 & F3 & F4 & F5 & _).
      split; [by apply (manager_inv_ext m)|]. unfold heldClaims. by rewrite F2, F5.
  - unfold journalRejectedHold. cbv zeta.
    match goal with |- context [appendJournal ?h ?s ?src m] => pose proof (appendJournal_frame h s src m) as HF end.
    destruct HF as (F1 & F2 & F3 & F4 & F5).
    split; [by apply (manager_inv_ext m)|]. unfold heldClaims. by rewrite F2, F5.
  - split; [by apply holdArm_inv|]. rewrite heldClaims_arm.
    replace (m_delivered (holdArm id m)) with (m_delivered m); [done|]. unfold holdArm. by repeat case_match.
  - split; [by eapply resolveBegin_inv|]. apply resolveBegin_Some in H as (h & Hh & Hst & -> & ->).
    rewrite Hc, (heldClaims_delete _ _ _ Hh). cbn. by rewrite Permutation_middle.
  - apply journalStep_frame in H as (F1 & F2 & F3 & F4 & F5 & F6).
    split; [by apply (manager_inv_ext m)|]. rewrite Hc. unfold heldClaims. rewrite F2, F5, !fmap_app, !fmap_cons.
    cbn. by rewrite F6.
  - split; [by apply (manager_inv_ext m)|]. cbn [deliver m_delivered].
    rewrite Hc. unfold heldClaims. cbn [deliver m_holds]. rewrite !fmap_app. cbn.
    change (deliveredClaim (resolution (fl_held f) (fl_decision f) (fl_source f))) with (claimOf (fl_held f)).
    rewrite <- !app_assoc. do 2 apply Permutation_app_head. cbn.
    rewrite (app_assoc _ _ [_]). apply Permutation_cons_append.
Qed.

Lemma reachable_ind cfg (P : Concurrent -> Prop) :
  P (initial cfg) -> (forall c c', reachable cfg c -> dstep c c' -> P c -> P c') ->
  forall c, reachable cfg c -> P c.
Proof. intros H0 HS c. apply (rtc_ind_r (R := dstep)); [done|]. intros. by eapply HS. Qed.

Lemma reachable_run_inv cfg c : reachable cfg c -> manager_inv (cc_m c) /\ conserved c.
Proof.
  revert c. apply reachable_ind.
  - split; [apply NewManager_inv|]. unfold conserved, heldClaims. cbn. by rewrite map_to_list_empty.
  - intros x y _ Hs Hx. by eapply dstep_inv.
Qed.


(** C3: a resolution is delivered exactly once for each held action: in every
    reachable state the admitted actions are, with multiplicity, those still
    held, those in flight and those delivered, each with the receipt id, the
    target and the identity it was submitted under. *)
Theorem delivered_exactly_once cfg c : reachable cfg c ->
  cc_admitted c ≡ₚ heldClaims (cc_m c) ++ ((fun f => claimOf (fl_held f)) <$> cc_inflight c)
                   ++ (deliveredClaim <$> m_delivered (cc_m c)).
Proof. intros Hr. by apply reachable_run_inv in Hr as [_ ?]. Qed.

(** ** What the journal says of the decisions *)

(** The three outcomes of an append. *)
Lemma appendJournal_cases held state source m ok m' :
  appendJournal held state source m = (ok, m') ->
  (dc_JournalPath (m_cfg m) = "" /\ ok = true /\ m' = m) \/
  (dc_JournalPath (m_cfg m) <> "" /\ ok = false /\ m_journal m' = m_journal m) \/
  (dc_JournalPath (m_cfg m) <> "" /\ ok = true /\
   exists now, m_journal m' = m_journal m ++ [journalEntryFromHeld held state source now]).
Proof. unfold appendJournal. intros. repeat case_match; simplify_eq/=; naive_solver. Qed.

Definition journals_allow (journal : list journalEntry) (id : string) : Prop :=
  exists e, e ∈ journal /\ je_DeferID e = id /\ je_State e = StateResolvedAllow.

Lemma journals_allow_prefix j j' id : j `prefix_of` j' -> journals_allow j id -> journals_allow j' id.
Proof. intros [k ->] (e & He & Hr). exists e. split; [|done]. apply elem_of_app. by left. Qed.

Lemma journals_allow_last j held source now :
  journals_allow (j ++ [journalEntryFromHeld held (resolvedState ActionAllow) source now]) (ha_DeferID held).
Proof. eexists. split; [apply elem_of_app; right; left|]. done. Qed.

Record allow_inv (c : Concurrent) : Prop := {
  ai_path : dc_JournalPath (m_cfg (cc_m c)) <> "";
  ai_inflight f : f ∈ cc_inflight c ->
    match fl_phase f with
    | Begun => True
    | Retry => fl_decision f <> ActionAllow
    | Journalled => fl_decision f = ActionAllow -> journals_allow (m_journal (cc_m c)) (ha_DeferID (fl_held f))
    end;
  ai_delivered r : r ∈ m_delivered (cc_m c) -> re_FinalDecision r = ActionAllow ->
    journals_allow (m_journal (cc_m c)) (re_DeferID r);
}.

Lemma allow_inv_grow c c' :
  m_cfg (cc_m c') = m_cfg (cc_m c) -> m_journal (cc_m c) `prefix_of` m_journal (cc_m c') ->
  m_delivered (cc_m c') = m_delivered (cc_m c) ->
  (forall f, f ∈ cc_inflight c' -> f ∈ cc_inflight c \/ fl_phase f = Begun) ->
  allow_inv c -> allow_inv c'.
Proof.
  intros E1 E2 E3 E4 [H1 H2 H3]. split; rewrite ?E1, ?E3; [done| |].
  - intros f [Hf|Hf]%E4; [|by rewrite Hf]. specialize (H2 f Hf).
    destruct (fl_phase f); try done. intros Hd. by eapply journals_allow_prefix; [|apply H2].
  - intros r Hr Hd. by eapply journals_allow_prefix; [|apply H3].
Qed.

Lemma appendJournal_prefix held state source m :
  m_journal m `prefix_of` m_journal (appendJournal held state source m).2.
Proof.
  destruct (appendJournal held state source m) as [ok m'] eqn:E. cbn.
  apply appendJournal_cases in E as [(_ & _ & ->)|[(_ & _ & ->)|(_ & _ & now & ->)]]; [done|done|].
  by apply prefix_app_r.
Qed.

Lemma holdPublish_prefix action m :
  let m' := (holdPublish action m).2 in
  m_cfg m' = m_cfg m /\ m_delivered m' = m_delivered m /\ m_journal m `prefix_of` m_journal m'.
Proof.
  destruct (holdPublish action m) as [[u|e] m'] eqn:E; cbn.
  - apply holdPublish_Ok in E as (m1 & _ & _ & _ & EJ & ->).
    pose proof (appendJournal_frame (deriveLineage m action) StateHeld "" m) as HF.
    pose proof (appendJournal_prefix (deriveLineage m action) StateHeld "" m) as HP.
    rewrite EJ in HF, HP. cbn in *. naive_solver.
  - apply holdPublish_Err in E as (F1 & _ & _ & _ & F5 & [->|(entry & -> & _)]); [done|].
    split_and!; [done..|]. by apply prefix_app_r.
Qed.

Lemma allow_inv_step c c' : dstep c c' -> allow_inv c -> allow_inv c'.
Proof.
  intros Hs Ha.
  destruct Hs as [sz policy deadline now action m fs ad r m' H0 H1 Hres H2|action source m fs ad|id m fs ad
    |id fd src held m fs ad m' H|f f' m fs1 fs2 ad m' HJ|f m fs1 fs2 ad Hph].
  - pose proof (holdPublish_prefix (stamp sz policy deadline now action) m) as HP. rewrite H2 in HP.
    destruct HP as (E1 & E2 & E3). eapply allow_inv_grow; [..|exact Ha]; cbn; try done. by left.
  - unfold journalRejectedHold. eapply allow_inv_grow; [..|exact Ha]; cbn;
      [apply appendJournal_frame|apply appendJournal_prefix|apply appendJournal_frame|by left].
  - unfold holdArm. eapply allow_inv_grow; [..|exact Ha]; cbn; try (by left); by repeat case_match.
  - apply resolveBegin_Some in H as (h & _ & _ & -> & ->). eapply allow_inv_grow; [..|exact Ha]; cbn; try done.
    intros f [->|Hf]%elem_of_cons; [by right|by left].
  - destruct Ha as [H1 H2 H3]. cbn [cc_m cc_inflight] in *.
    assert (f ∈ fs1 ++ f :: fs2) as Hf by (apply elem_of_app; right; left).
    specialize (H2 f Hf) as Hfp. unfold journalStep in HJ.
    destruct (appendJournal _ _ _ m) as [ok m1] eqn:EJ.
    pose proof (appendJournal_prefix (fl_held f) (resolvedState (fl_decision f)) (fl_source f) m) as HP.
    pose proof (appendJournal_frame (fl_held f) (resolvedState (fl_decision f)) (fl_source f) m) as HF.
    rewrite EJ in HP, HF. cbn in HP, HF.
    assert (m_cfg m' = m_cfg m /\ m_journal m `prefix_of` m_journal m' /\ m_delivered m' = m_delivered m /\
      match fl_phase f' with
      | Begun => True
      | Retry => fl_decision f' <> ActionAllow
      | Journalled => fl_decision f' = ActionAllow -> journals_allow (m_journal m') (ha_DeferID (fl_held f'))
      end) as (E1 & E2 & E3 & E4).
    { destruct (fl_phase f) eqn:Eph; [destruct ok| |]; injection HJ as <- <-; cbn [fl_phase fl_decision fl_held];
        [| | |by rewrite Eph].
      - split_and!; try apply HF; [done|]. intros Hd. rewrite Hd in EJ.
        apply appendJournal_cases in EJ as [(? & _)|[(_ & ? & _)|(_ & _ & now & ->)]]; [done..|].
        apply journals_allow_last.
      - split_and!; by try apply HF.
      - split_and!; by try apply HF. }
    split; cbn [cc_m cc_inflight]; rewrite ?E1, ?E3; [done| |].
    + intros g Hg. rewrite elem_of_app, elem_of_cons in Hg. destruct Hg as [Hg|[->|Hg]]; [|done|].
      all: assert (g ∈ fs1 ++ f :: fs2) as Hg' by (rewrite elem_of_app, elem_of_cons; naive_solver).
      all: specialize (H2 g Hg'); destruct (fl_phase g); try done; intros Hd;
        by eapply journals_allow_prefix; [|apply H2].
    + intros r Hr Hd. by eapply journals_allow_prefix; [|apply H3].
  - destruct Ha as [H1 H2 H3]. cbn [cc_m cc_inflight] in *.
    split; cbn [cc_m cc_inflight deliver m_cfg m_journal m_delivered]; [done| |].
    + intros g Hg. apply H2. rewrite elem_of_app in *. rewrite elem_of_cons. naive_solver.
    + intros r [Hr|Hr%list_elem_of_singleton]%elem_of_app Hd; [by apply H3|]; subst r.
      specialize (H2 f). rewrite Hph in H2. apply H2; [|done]. apply elem_of_app. right. left.
Qed.

Lemma reachable_allow_inv cfg c :
  dc_JournalPath cfg <> "" -> reachable cfg c -> allow_inv c.
Proof.
  intros Hp. revert c. apply reachable_ind.
  - split; [done|..]; cbn; intros ? []%not_elem_of_nil.
  - intros c c' _. apply allow_inv_step.
Qed.

(** An allow is never delivered unless the journal says so first: with a
    journal configured, in every reachable state, each delivered resolution
    that allows its action has a [resolved_allow] entry under its id, whatever
    appends failed (a failed append turns the decision into a block). *)
Theorem allow_is_journalled cfg c r :
  dc_JournalPath cfg <> "" -> reachable cfg c ->
  r ∈ m_delivered (cc_m c) -> re_FinalDecision r = ActionAllow ->
  exists e, e ∈ m_journal (cc_m c) /\ je_DeferID e = re_DeferID r /\ je_State e = StateResolvedAllow.
Proof. intros Hp Hr. by apply (reachable_allow_inv cfg c Hp Hr). Qed.

(** ** Crash recovery *)

Lemma scanJournal_app st a b :
  scanJournal st (a ++ b) = match scanJournal st a with Ok st' => scanJournal st' b | Err e => Err e end.
Proof. revert st. induction a as [|x a IH]; intros st; cbn; [done|]. destruct (scanEntry st x); [apply IH|done]. Qed.

(** The scan never un-terminates an id. *)
Lemma scanJournal_terminal j pend term pend' term' :
  scanJournal (pend, term) j = Ok (pend', term') ->
  term ⊆ term' /\ forall e, e ∈ j -> is_terminal (je_State e) -> je_DeferID e ∈ term'.
Proof.
  revert pend term. induction j as [|x j IH]; intros pend term.
  - intros [= -> ->]. split; [done|]. by intros e ?%not_elem_of_nil.
  - cbn [scanJournal]. intros H. destruct (scanEntry (pend, term) x) as [[pend1 term1]|] eqn:E; [|done].
    apply IH in H as [H1 H2].
    assert (term ⊆ term1 /\ (is_terminal (je_State x) -> je_DeferID x ∈ term1)) as [Hs Ht].
    { unfold scanEntry in E. repeat case_decide; simplify_eq; split; try done; [|apply union_subseteq_r|intros _; by apply elem_of_union_l, elem_of_singleton_2].
      all: match goal with H : je_State _ = _ |- _ => rewrite H end; intros [?|[?|?]]; done. }
    split; [by etransitivity|].
    intros e [->|He]%elem_of_cons Hte; [by apply H1, Ht|by apply H2].
Qed.

(** What survives of a hold in the journal. *)
Definition recoveredOf (h : HeldAction) : HeldAction := heldOfEntry (journalEntryFromHeld h StateHeld "" 0).

Lemma recoveredOf_entry h state source now : heldOfEntry (journalEntryFromHeld h state source now) = recoveredOf h.
Proof. done. Qed.

(** The ids that are in flight or delivered. *)
Definition gone (c : Concurrent) : list string :=
  ((fun f => ha_DeferID (fl_held f)) <$> cc_inflight c) ++ (re_DeferID <$> m_delivered (cc_m c)).

Definition unique_ids (c : Concurrent) : Prop := NoDup (claimID <$> cc_admitted c).

Lemma conserved_ids c :
  conserved c -> claimID <$> cc_admitted c ≡ₚ (claimID <$> heldClaims (cc_m c)) ++ gone c.
Proof. unfold conserved. intros ->. unfold gone. rewrite !fmap_app, <- !list_fmap_compose. done. Qed.

Lemma held_claim m id h :
  manager_inv m -> m_holds m !! id = Some h -> id ∈ claimID <$> heldClaims m.
Proof.
  intros Hi Hh. apply list_elem_of_fmap. exists (claimOf h). split.
  - symmetry. apply (inv_hold _ Hi _ _ Hh).
  - unfold heldClaims. apply list_elem_of_fmap_2, list_elem_of_fmap. exists (id, h). split; [done|].
    by apply elem_of_map_to_list.
Qed.

Lemma held_not_gone c id h :
  manager_inv (cc_m c) -> conserved c -> unique_ids c ->
  m_holds (cc_m c) !! id = Some h -> id ∉ gone c.
Proof.
  intros Hi Hc Hu Hh Hg. unfold unique_ids in Hu. rewrite (conserved_ids c Hc) in Hu.
  apply NoDup_app in Hu as (_ & Hu & _). apply (Hu id); [|done]. by eapply held_claim.
Qed.

Record recovery_inv (c : Concurrent) (pend : gmap string journalEntry) (term : gset string) : Prop := {
  rv_scan : scanJournal (∅, ∅) (m_journal (cc_m c)) = Ok (pend, term);
  rv_held id h : m_holds (cc_m c) !! id = Some h ->
    exists e, pend !! id = Some e /\ heldOfEntry e = recoveredOf h;
  rv_gone id : id ∈ term -> id ∈ gone c;
  rv_disjoint id : id ∈ term -> pend !! id = None;
}.

Lemma recovery_inv_ext c c' pend term :
  m_journal (cc_m c') = m_journal (cc_m c) ->
  (forall id h, m_holds (cc_m c') !! id = Some h ->
     exists h', m_holds (cc_m c) !! id = Some h' /\ recoveredOf h = recoveredOf h') ->
  (forall id, id ∈ gone c -> id ∈ gone c') ->
  recovery_inv c pend term -> recovery_inv c' pend term.
Proof.
  intros E1 E2 E3 [H1 H2 H3 H4]. split; [by rewrite E1| |by auto|done].
  intros id h (h' & Hh & ->)%E2. by apply H2.
Qed.

(** An audit entry changes nothing for recovery. *)
Lemma recovery_inv_audit c c' pend term e :
  m_journal (cc_m c') = m_journal (cc_m c) \/
  (m_journal (cc_m c') = m_journal (cc_m c) ++ [e] /\ je_State e = StateAdmissionRejected) ->
  m_holds (cc_m c') = m_holds (cc_m c) -> gone c' = gone c ->
  recovery_inv c pend term -> recovery_inv c' pend term.
Proof.
  intros E1 E2 E3 [H1 H2 H3 H4]. split; rewrite ?E2, ?E3; try done.
  destruct E1 as [->|[-> He]]; [done|]. rewrite scanJournal_app, H1. cbn. rewrite He. done.
Qed.

(** A terminal entry for an id that is gone. *)
Lemma recovery_inv_terminal c c' pend term e :
  m_journal (cc_m c') = m_journal (cc_m c) ++ [e] -> is_terminal (je_State e) ->
  je_DeferID e ∈ gone c -> m_holds (cc_m c) !! je_DeferID e = None ->
  m_holds (cc_m c') = m_holds (cc_m c) -> (forall id, id ∈ gone c -> id ∈ gone c') ->
  recovery_inv c pend term ->
  recovery_inv c' (delete (je_DeferID e) pend) ({[je_DeferID e]} ∪ term).
Proof.
  intros E1 Ht Hg Hn E2 E3 [H1 H2 H3 H4]. split; rewrite ?E2.
  - rewrite E1, scanJournal_app, H1. cbn. rewrite decide_False; [by rewrite decide_True|].
    by destruct Ht as [->|[->| ->]].
  - intros id h Hh. rewrite lookup_delete_ne by congruence. by apply H2.
  - intros id [->%elem_of_singleton|Hid]%elem_of_union; apply E3; [done|by apply H3].
  - intros id [->%elem_of_singleton|Hid]%elem_of_union; [apply lookup_delete_eq|].
    apply lookup_delete_None. right. by apply H4.
Qed.

Lemma dstep_frame c c' :
  dstep c c' ->
  m_cfg (cc_m c') = m_cfg (cc_m c) /\ cc_admitted c `prefix_of` cc_admitted c' /\
  forall id, id ∈ gone c -> id ∈ gone c'.
Proof.
  unfold gone. intros Hs.
  destruct Hs as [sz policy deadline now action m fs ad r m' H0 H1 Hres H2|action source m fs ad|id m fs ad
    |id fd src held m fs ad m' H|f f' m fs1 fs2 ad m' H|f m fs1 fs2 ad H]; cbn [cc_m cc_inflight cc_admitted].
  - pose proof (holdPublish_prefix (stamp sz policy deadline now action) m) as HP. rewrite H2 in HP.
    destruct HP as (E1 & E2 & _). cbn in E1, E2. rewrite E1, E2.
    split_and!; [done| |done]. destruct (is_ok r); [by apply prefix_app_r|done].
  - unfold journalRejectedHold. cbv zeta.
    match goal with |- context [appendJournal ?h ?s ?src m] => pose proof (appendJournal_frame h s src m) as HF end.
    destruct HF as (F1 & _ & _ & _ & F5). by rewrite F1, F5.
  - unfold holdArm. by repeat case_match.
  - apply resolveBegin_Some in H as (h & _ & _ & -> & ->). split_and!; [done..|]. cbn. by right.
  - apply journalStep_frame in H as (F1 & F2 & F3 & F4 & F5 & F6). rewrite F1, F5, !fmap_app, !fmap_cons, F6. done.
  - split_and!; [done..|]. intros id. cbn [deliver m_delivered]. rewrite !fmap_app, fmap_cons.
    change (re_DeferID <$> [_]) with [ha_DeferID (fl_held f)].
    rewrite !elem_of_app, elem_of_cons, list_elem_of_singleton. naive_solver.
Qed.

Lemma gone_frame m m' fs ad :
  m_delivered m' = m_delivered m ->
  gone {| cc_m := m'; cc_inflight := fs; cc_admitted := ad |} =
  gone {| cc_m := m; cc_inflight := fs; cc_admitted := ad |}.
Proof. unfold gone. cbn. by intros ->. Qed.

Lemma recovery_admit m a m1 fs ad pend term :
  dc_JournalPath (m_cfg m) <> "" -> appendJournal a StateHeld "" m = (true, m1) ->
  ha_DeferID a ∉ gone {| cc_m := m; cc_inflight := fs; cc_admitted := ad |} ->
  recovery_inv {| cc_m := m; cc_inflight := fs; cc_admitted := ad |} pend term ->
  exists pend', recovery_inv {| cc_m := publish a m1; cc_inflight := fs; cc_admitted := ad ++ [claimOf a] |} pend' term.
Proof.
  intros Hp EJ Hng [V1 V2 V3 V4]. cbn [cc_m] in *.
  pose proof (appendJournal_frame a StateHeld "" m) as HF. rewrite EJ in HF. cbn in HF.
  destruct HF as (F1 & F2 & F3 & F4 & F5).
  apply appendJournal_cases in EJ as [(? & _)|[(_ & ? & _)|(_ & _ & now' & HJ)]]; [done..|].
  exists (<[ha_DeferID a := journalEntryFromHeld a StateHeld "" now']> pend).
  assert (ha_DeferID a ∉ term) as Hnt by (by intros ?%V3).
  split; cbn [cc_m publish with_holds m_journal m_holds].
  - rewrite HJ, scanJournal_app, V1. cbn [scanJournal]. unfold scanEntry. cbn [je_State je_DeferID journalEntryFromHeld].
    by rewrite decide_True, decide_False.
  - intros id h. rewrite F2. intros [(<- & <-)|(Hne & Hh)]%lookup_insert_Some.
    + eexists. by rewrite lookup_insert_eq.
    + rewrite lookup_insert_ne by done. by apply V2.
  - intros id Hid%V3. unfold gone in *. cbn in *. by rewrite F5.
  - intros id Hid. rewrite lookup_insert_ne by congruence. by apply V4.
Qed.

Lemma resolvedState_terminal fd : is_terminal (resolvedState fd).
Proof. unfold is_terminal, resolvedState. repeat case_decide; auto. Qed.

Lemma recovery_step c c' pend term :
  dc_JournalPath (m_cfg (cc_m c)) <> "" ->
  dstep c c' -> manager_inv (cc_m c) -> conserved c -> conserved c' -> unique_ids c -> unique_ids c' ->
  recovery_inv c pend term -> exists pend' term', recovery_inv c' pend' term'.
Proof.
  intros Hp Hs Hi Hc Hc' Hu Hu' Hv. pose proof Hs as (_ & _ & Hg)%dstep_frame.
  destruct Hs as [sz policy deadline now action m fs ad r m' H0 H1 Hres H2|action source m fs ad|id m fs ad
    |id fd src held m fs ad m' H|f f' m fs1 fs2 ad m' HJ|f m fs1 fs2 ad Hph]; cbn [cc_m] in *.
  - destruct r as [u|e]; cbn [is_ok] in *.
    + apply holdPublish_Ok in H2 as (m1 & _ & _ & _ & EJ & ->).
      set (a := deriveLineage m (stamp sz policy deadline now action)) in *.
      destruct (deriveLineage_fields m (stamp sz policy deadline now action)) as (L1 & _ & _ & _ & _ & L6).
      fold a in L1, L6. change (claimOf (stamp sz policy deadline now action)) with (claimOf action) in L1.
      rewrite <- L1 in *.
      edestruct (recovery_admit m a m1 fs ad pend term) as [pend' Hv']; [done|done| |done|by eauto].
      intros Hin. unfold unique_ids in Hu'. cbn [cc_admitted] in Hu'. rewrite fmap_app in Hu'.
      apply NoDup_app in Hu' as (_ & Hu' & _). apply (Hu' (ha_DeferID a)); [|by left].
      pose proof (conserved_ids _ Hc) as Hci. cbn [cc_admitted] in Hci. rewrite Hci. apply elem_of_app. by right.
    + apply holdPublish_Err in H2 as (_ & F2 & _ & _ & F5 & [HJ|(en & HJ & He)]); exists pend, term.
      * eapply recovery_inv_ext; [..|exact Hv]; [exact HJ| |exact Hg]; cbn; rewrite F2; eauto.
      * eapply recovery_inv_audit; [..|exact Hv]; [right; by split|done|by apply gone_frame].
  - exists pend, term. unfold journalRejectedHold. cbv zeta.
    match goal with |- context [appendJournal ?h ?s ?src m] =>
      pose proof (appendJournal_frame h s src m) as HF; destruct (appendJournal h s src m) as [ok m1] eqn:EJ end.
    destruct HF as (_ & F2 & _ & _ & F5). cbn in F2, F5 |- *.
    apply appendJournal_cases in EJ as [(? & _)|[(_ & _ & HJ)|(_ & _ & now' & HJ)]]; [done|..].
    + eapply recovery_inv_ext; [..|exact Hv]; [exact HJ| |by intros id; rewrite (gone_frame m m1)]; cbn; rewrite F2; eauto.
    + eapply recovery_inv_audit; [..|exact Hv]; [right; by split|done|by apply gone_frame].
  - exists pend, term. eapply recovery_inv_ext; [..|exact Hv]; cbn [cc_m].
    + unfold holdArm. by repeat case_match.
    + intros i x. unfold holdArm. repeat case_match; cbn [with_holds m_holds]; [|eauto..].
      intros [(<- & <-)|(_ & Hx)]%lookup_insert_Some; eauto.
    + unfold holdArm. by repeat case_match.
  - exists pend, term. apply resolveBegin_Some in H as (h & _ & _ & -> & ->).
    eapply recovery_inv_ext; [..|exact Hv]; [done| |exact Hg]. cbn [cc_m with_holds m_holds].
    intros i x [_ Hx]%lookup_delete_Some. eauto.
  - pose proof (journalStep_frame _ _ _ _ HJ) as (_ & F2 & _ & _ & F5 & F6).
    set (c := {| cc_m := m; cc_inflight := fs1 ++ f :: fs2; cc_admitted := ad |}) in *.
    assert (ha_DeferID (fl_held f) ∈ gone c) as Hgf.
    { unfold gone. cbn [cc_inflight c]. rewrite fmap_app, fmap_cons, !elem_of_app, elem_of_cons. naive_solver. }
    assert (m_holds m !! ha_DeferID (fl_held f) = None) as Hnh.
    { destruct (m_holds m !! ha_DeferID (fl_held f)) as [h|] eqn:Eh; [|done].
      by destruct (held_not_gone c _ _ Hi Hc Hu Eh). }
    assert (m_journal m' = m_journal m \/
      exists s src now', m_journal m' = m_journal m ++ [journalEntryFromHeld (fl_held f) (resolvedState s) src now'])
      as [EJ|(s & src & now' & EJ)].
    { unfold journalStep in HJ. destruct (appendJournal _ _ _ m) as [ok m1] eqn:EJ.
      apply appendJournal_cases in EJ as [(? & _)|[(_ & -> & EJ)|(_ & -> & now' & EJ)]]; [done|..];
        destruct (fl_phase f); simplify_eq; eauto 6. }
    + exists pend, term. eapply recovery_inv_ext; [..|exact Hv]; [exact EJ| |exact Hg]. cbn; rewrite F2; eauto.
    + eexists _, _. eapply (recovery_inv_terminal c); [exact EJ|apply resolvedState_terminal|done..].
  - exists pend, term. eapply (recovery_inv_ext {| cc_m := m; cc_inflight := fs1 ++ f :: fs2; cc_admitted := ad |}); [done| |exact Hg|exact Hv]. cbn. eauto.
Qed.

Lemma reachable_recovery cfg c :
  dc_JournalPath cfg <> "" -> reachable cfg c ->
  dc_JournalPath (m_cfg (cc_m c)) <> "" /\ (unique_ids c -> exists pend term, recovery_inv c pend term).
Proof.
  intros Hp. revert c. apply reachable_ind.
  - split; [done|]. intros _. exists ∅, ∅. split; [done|..]; cbn.
    + intros id h. by rewrite lookup_empty.
    + by intros id ?%not_elem_of_empty.
    + by intros id ?%not_elem_of_empty.
  - intros c c' Hr Hs [Hpc IH]. pose proof (dstep_frame _ _ Hs) as (E1 & [k E2] & _). rewrite E1. split; [done|].
    intros Hu'. assert (unique_ids c) as Hu.
    { unfold unique_ids in *. rewrite E2, fmap_app in Hu'. by apply NoDup_app in Hu' as [? _]. }
    destruct (IH Hu) as (pend & term & Hv). destruct (reachable_run_inv cfg c Hr) as [Hi Hc].
    destruct (dstep_inv _ _ Hs (conj Hi Hc)) as [Hi' Hc'].
    by eapply recovery_step.
Qed.

(** The scan keeps every pending entry under its own id. *)
Lemma scanJournal_keys j pend term pend' term' :
  (forall id e, pend !! id = Some e -> je_DeferID e = id) ->
  scanJournal (pend, term) j = Ok (pend', term') ->
  forall id e, pend' !! id = Some e -> je_DeferID e = id.
Proof.
  revert pend term. induction j as [|x j IH]; intros pend term Hk; [by intros [= -> ->]|].
  cbn [scanJournal]. destruct (scanEntry (pend, term) x) as [[pend1 term1]|] eqn:E; [|done].
  apply IH. unfold scanEntry in E. repeat case_decide; simplify_eq; try done.
  - by intros id e [(<- & <-)|(_ & ?)]%lookup_insert_Some; [|apply Hk].
  - intros id e [_ ?]%lookup_delete_Some. by apply Hk.
Qed.

Lemma PendingJournal_Ok j pend term out :
  scanJournal (∅, ∅) j = Ok (pend, term) -> PendingJournal j = Ok out ->
  forall h, h ∈ out <-> exists id e, pend !! id = Some e /\ h = heldOfEntry e.
Proof.
  unfold PendingJournal. intros -> [= <-] h. cbn. rewrite list_elem_of_omap. setoid_rewrite fmap_Some.
  split.
  - intros (id & _ & e & He & ->). eauto.
  - intros (id & e & He & ->). exists id. split; [|eauto].
    rewrite rangeOrder_perm, elem_of_elements, elem_of_dom. by eexists.
Qed.


(** *** Recording the recovery *)

Definition recoverAll (out : list HeldAction) (m : Manager) : Manager :=
  foldl (fun m held => (RecordRestartRecovery held m).2) m out.

Lemma scan_recovery_entries hs pend term :
  exists term', scanJournal (pend, term) ((fun hn => journalEntryFromHeld hn.1 StateResolvedBlock SourceRestartRecovery hn.2) <$> hs)
  = Ok (foldr (fun hn p => delete (ha_DeferID hn.1) p) pend (reverse hs), term').
Proof.
  revert pend term. induction hs as [|[h n] hs IH]; intros pend term; [by eexists|].
  cbn [fmap list_fmap scanJournal]. unfold scanEntry at 1.
  cbn [je_State je_DeferID journalEntryFromHeld]. rewrite decide_False by done.
  rewrite decide_True by (right; left; done).
  rewrite reverse_cons, foldr_snoc. cbn. apply IH.
Qed.

Lemma recoverAll_journal out m :
  (forall n, journalFails n = false) -> dc_JournalPath (m_cfg m) <> "" ->
  exists ns, length ns = length out /\
    m_journal (recoverAll out m) = m_journal m ++
      ((fun hn => journalEntryFromHeld hn.1 StateResolvedBlock SourceRestartRecovery hn.2) <$> zip out ns).
Proof.
  intros Hf. revert m. induction out as [|h out IH]; intros m Hp; [exists []; by rewrite app_nil_r|].
  cbn [recoverAll foldl]. unfold RecordRestartRecovery.
  destruct (appendJournal h StateResolvedBlock SourceRestartRecovery m) as [ok m1] eqn:EJ.
  pose proof (appendJournal_frame h StateResolvedBlock SourceRestartRecovery m) as HF. rewrite EJ in HF. cbn in HF.
  assert (exists now, m_journal m1 = m_journal m ++ [journalEntryFromHeld h StateResolvedBlock SourceRestartRecovery now]) as [now HJ].
  { unfold appendJournal in EJ. rewrite decide_False in EJ by done. rewrite Hf in EJ. injection EJ as _ <-. by eexists. }
  destruct (IH m1) as (ns & Hl & Hns); [by rewrite (proj1 HF)|].
  exists (now :: ns). split; [cbn; lia|]. unfold recoverAll, RecordRestartRecovery in Hns. cbn [snd]. rewrite Hns, HJ.
  by rewrite <- app_assoc.
Qed.

(** restart recovery is complete: after [RecordRestartRecovery] of each action
    [PendingJournal] returned, [PendingJournal] returns none, so a second restart
    blocks nothing twice. *)
Theorem restart_recovery_complete m out :
  (forall n, journalFails n = false) -> dc_JournalPath (m_cfg m) <> "" ->
  PendingJournal (m_journal m) = Ok out ->
  PendingJournal (m_journal (recoverAll out m)) = Ok [].
Proof.
  intros Hf Hp HP. destruct (recoverAll_journal out m Hf Hp) as (ns & Hl & ->).
  destruct (scanJournal (∅, ∅) (m_journal m)) as [[pend term]|e] eqn:ES.
  2: { unfold PendingJournal in HP. by rewrite ES in HP. }
  pose proof (PendingJournal_Ok _ _ _ _ ES HP) as Ho.
  unfold PendingJournal. rewrite scanJournal_app, ES.
  destruct (scan_recovery_entries (zip out ns) pend term) as [term' ->]. cbn [fst].
  match goal with |- context [dom ?p] => assert (p = ∅) as -> end.
  { apply map_empty. intros id. destruct (pend !! id) as [e|] eqn:He.
    - assert (ha_DeferID (heldOfEntry e) = id) as Hk.
      { eapply scanJournal_keys; [|exact ES|exact He]. intros ? ?. by rewrite lookup_empty. }
      assert (id ∈ ha_DeferID <$> (zip out ns).*1) as Hin.
      { rewrite fst_zip by lia. rewrite <- Hk. apply list_elem_of_fmap_2, Ho. eauto. }
      clear -Hin. revert Hin. rewrite <- (reverse_involutive (zip out ns)) at 1. generalize (reverse (zip out ns)).
      intros l Hin. assert (id ∈ ha_DeferID <$> l.*1) as Hl.
      { rewrite <- (reverse_Permutation l). done. }
      clear Hin. induction l as [|[h n] l IH]; [by apply not_elem_of_nil in Hl|]. cbn in *.
      apply elem_of_cons in Hl as [->|Hl]; [apply lookup_delete_eq|]. apply lookup_delete_None. auto.
    - generalize (reverse (zip out ns)). intros l. induction l as [|x l IH]; [done|]. cbn.
      apply lookup_delete_None. auto. }
  rewrite dom_empty_L. assert (rangeOrder 0 ∅ = []) as ->; [|done].
  apply Permutation_nil_r. by rewrite rangeOrder_perm.
Qed.

(** ** The gates of the affirmative resolvers *)

(** From [m] to [m'], holds only go away, and each newly delivered allow is for
    a hold of [m] that satisfies [P]. *)
Definition allows_only (P : HeldAction -> Prop) (m m' : Manager) : Prop :=
  shrinks m m' /\
  exists l, m_delivered m' = m_delivered m ++ l /\
    forall r, r ∈ l -> re_FinalDecision r = ActionAllow ->
      exists h, m_holds m !! re_DeferID r = Some h /\ P h.

#[local] Instance allows_only_preorder P : PreOrder (allows_only P).
Proof.
  split.
  - intros m. split; [done|]. exists []. rewrite app_nil_r. split; [done|]. by intros r ?%not_elem_of_nil.
  - intros m1 m2 m3 [S1 (l1 & E1 & H1)] [S2 (l2 & E2 & H2)]. split; [by etransitivity|].
    exists (l1 ++ l2). split; [by rewrite E2, E1, app_assoc|].
    intros r [Hr|Hr]%elem_of_app Hd; [by apply H1|].
    destruct (H2 r Hr Hd) as (h & Hh & HP). exists h. split; [by eapply lookup_weaken|done].
Qed.

Lemma allows_only_wf P m m' : allows_only P m m' -> holds_wf m -> holds_wf m'.
Proof. intros [Hs _]. by apply holds_wf_shrinks. Qed.

Lemma resolve_allows (P : HeldAction -> Prop) n :
  (forall id fd src m r m', holds_wf m -> Resolve_fuel n id fd src m = Some (r, m') ->
     (orBlock fd = ActionAllow -> forall h, m_holds m !! id = Some h -> P h) -> allows_only P m m') /\
  (forall frontier m m', holds_wf m -> cascadeBlockDescendants_fuel n frontier m = Some m' -> allows_only P m m').
Proof.
  induction n as [|n [IHR IHC]]; [done|]. split.
  - intros id fd src m r m' Hw HR HP.
    pose proof (proj1 (resolve_shrinks (S n)) _ _ _ _ _ _ Hw HR) as Hs. split; [done|].
    apply Resolve_inv in HR as HRi. cbv zeta in HRi.
    destruct HRi as [(_ & _ & ->)|(held & m1 & ok & m2 & fd' & src' & m3 & m4 & -> & H2 & H3 & H4 & H5 & ->)].
    { exists []. rewrite app_nil_r. split; [done|]. by intros r0 ?%not_elem_of_nil. }
    apply resolveBegin_Some in H2 as (h & Hh & Hst & -> & ->).
    assert (m_holds m3 = delete id (m_holds m) /\ m_delivered m3 = m_delivered m /\
            (fd' = ActionAllow -> orBlock fd = ActionAllow)) as (E1 & E2 & E3).
    { pose proof (appendJournal_frame (with_control (ha_Resolve h) (ha_timer h) StateResolving h)
        (resolvedState (orBlock fd)) (orContext src)
        (with_holds (delete id (m_holds m)) (removeSessionHoldLocked (session h) id m) (m_totalBytes m - ha_SizeBytes h) m)) as HF.
      rewrite H3 in HF. cbn in HF. destruct HF as (_ & F2 & _ & _ & F5).
      destruct ok; injection H4 as -> -> ->; [done|].
      pose proof (appendJournal_frame (with_control (ha_Resolve h) (ha_timer h) StateResolving h)
        (resolvedState "block") SourceCancel m2) as (_ & G2 & _ & _ & G5).
      cbn. rewrite G2, G5, F2, F5. done. }
    assert (allows_only P m3 m4) as [_ (l & El & Hl)].
    { destruct (decide (fd' <> ActionAllow /\ src' <> SourceCascade)); [|by simplify_eq]. eapply IHC; [by eapply holds_wf_delete|done]. }
    exists (l ++ [resolution (with_control (ha_Resolve h) (ha_timer h) StateResolving h) fd' src']).
    split; [cbn; by rewrite El, E2, app_assoc|].
    intros r [Hr|Hr%list_elem_of_singleton]%elem_of_app Hd.
    + destruct (Hl r Hr Hd) as (x & Hx & HPx). rewrite E1 in Hx. apply lookup_delete_Some in Hx as [_ Hx]. eauto.
    + subst r. cbn in *. destruct (Hw _ _ Hh) as [_ ->]. exists h. split; [done|]. apply HP; [by apply E3|done].
  - intros frontier m m' Hw. rewrite cascade_unfold. case_decide as Hc; [by intros [= ->]|].
    assert (forall ids m m', holds_wf m -> fold_resolve n ids m = Some m' -> allows_only P m m') as IHF.
    { clear -IHR. intros ids. induction ids as [|id ids IH]; intros m m' Hw HF; [by injection HF as ->|].
      apply fold_resolve_cons in HF as (r & m1 & H1 & H2).
      assert (allows_only P m m1) as H01 by (eapply IHR; done).
      etransitivity; [exact H01|]. apply IH; [by eapply allows_only_wf|done]. }
    destruct (fold_resolve n _ m) as [m1|] eqn:EF; cbn; [|done]. intros HC.
    assert (allows_only P m m1) as H01 by (by eapply IHF).
    etransitivity; [exact H01|]. eapply IHC; [by eapply allows_only_wf|done].
Qed.

Lemma Resolve_allows (P : HeldAction -> Prop) id fd src m :
  holds_wf m -> (orBlock fd = ActionAllow -> forall h, m_holds m !! id = Some h -> P h) ->
  allows_only P m (Resolve id fd src m).2.
Proof.
  intros Hw HP. destruct (proj1 (fuel_enough (enoughFuel m)) id fd src m) as [[r m'] HR];
    [done|unfold enoughFuel; lia..|].
  unfold Resolve. rewrite HR. cbn. eapply (proj1 (resolve_allows P _)); [exact Hw|exact HR|exact HP].
Qed.

(** A loop over snapshots whose body is gated is gated. *)
Lemma foldl_allows (P : HeldAction -> Prop) (body : Manager -> HeldAction -> Manager) (snaps : list HeldAction) m0 m :
  holds_wf m -> shrinks m0 m ->
  (forall m held, holds_wf m -> shrinks m0 m -> held ∈ snaps -> allows_only P m (body m held)) ->
  allows_only P m (foldl body m snaps).
Proof.
  revert m. induction snaps as [|held snaps IH]; intros m Hw Hs HB; [done|]. cbn.
  assert (allows_only P m (body m held)) as H1 by (apply HB; [done..|left]).
  etransitivity; [exact H1|]. apply IH; [by eapply allows_only_wf| |].
  - etransitivity; [exact Hs|apply H1].
  - intros m' h Hw' Hs' Hin. apply HB; [done..|by right].
Qed.

Lemma elem_of_Snapshot h m : h ∈ Snapshot m -> exists id x, m_holds m !! id = Some x /\ h = snapshotOf x.
Proof. unfold Snapshot. rewrite list_elem_of_omap. setoid_rewrite fmap_Some. naive_solver. Qed.

(** Resolving the id of a snapshot taken earlier. *)
Lemma Resolve_snapshot_allows (P : HeldAction -> Prop) m0 m held fd src :
  holds_wf m0 -> holds_wf m -> shrinks m0 m -> held ∈ Snapshot m0 ->
  (forall x, held = snapshotOf x -> orBlock fd = ActionAllow -> P x) ->
  allows_only P m (Resolve (ha_DeferID held) fd src m).2.
Proof.
  intros Hw0 Hw Hs (id & x & Hx & ->)%elem_of_Snapshot HP. apply Resolve_allows; [done|].
  intros Hfd h Hh. cbn in Hh. destruct (Hw0 _ _ Hx) as [_ Hid]. rewrite Hid in Hh.
  assert (h = x) as ->. { pose proof (lookup_weaken _ _ _ _ Hh Hs). congruence. }
  by apply HP.
Qed.

(** An affirmative resolver cannot open a hold whose rule does not name its
    signal: an approval allows only holds whose rule has [approval], a policy
    reload only those whose rule has [policy_permits] and that the new policy
    allows, and a tool inventory only those of its session whose rule has
    [tool_inventory_baseline]; each leaves every other newly delivered
    resolution, the cascade's included, short of an allow. *)
Theorem affirmative_gates m id fd src evaluate sess :
  holds_wf m ->
  allows_only (fun h => Approval (AllowOn (ha_RulePolicy h)) = true) m (ResolveApprovalResult id fd src m).2 /\
  allows_only (fun h => PolicyPermits (AllowOn (ha_RulePolicy h)) = true /\ evaluate (snapshotOf h) = Some ActionAllow)
    m (ResolvePolicyReload evaluate m) /\
  allows_only (fun h => ToolInventoryBaseline (AllowOn (ha_RulePolicy h)) = true /\ session h = sess)
    m (ResolveToolInventory sess fd m).
Proof.
  intros Hw. split_and!.
  - unfold ResolveApprovalResult, snapshotOne.
    destruct (m_holds m !! id) as [h|] eqn:Hh; [|done]. case_decide; [|done]. cbv zeta.
    pose proof (Resolve_allows (fun h => Approval (AllowOn (ha_RulePolicy h)) = true) id
      (approvalDecision (ha_RulePolicy (snapshotOf h)) fd) src m Hw) as HR.
    destruct (Resolve id _ src m) as [[u|e] m']; cbn in *; apply HR; intros Ha x Hx;
      rewrite Hh in Hx; injection Hx as <-; unfold approvalDecision in Ha; cbn in Ha;
      repeat case_match; done.
  - unfold ResolvePolicyReload. apply (foldl_allows _ _ _ m); [done..|].
    intros m1 held Hw1 Hs1 Hin. cbv zeta.
    destruct (evaluate held) as [d|] eqn:Ev; [|by apply (Resolve_snapshot_allows _ m)].
    destruct (decide (d = ActionAllow)) as [->|Hd].
    + destruct (PolicyPermits (AllowOn (ha_RulePolicy held))) eqn:EP; [|done].
      apply (Resolve_snapshot_allows _ m); [done..|]. by intros x -> _.
    + case_decide; [by apply (Resolve_snapshot_allows _ m)|]. case_decide; [done|]. by apply (Resolve_snapshot_allows _ m).
  - unfold ResolveToolInventory. apply (foldl_allows _ _ _ m); [done..|].
    intros m1 held Hw1 Hs1 Hin. case_decide as Hd; [|done].
    apply (Resolve_snapshot_allows _ m); [done..|]. intros x -> _. cbn in Hd. naive_solver.
Qed.
End manager.

(** ** A concrete run *)

#[local] Instance demo_env : DeferEnv :=
  {| journalFails _ := false; clock n := Z.of_nat n; rangeOrder _ s := elements s;
     rangeOrder_perm _ _ := reflexivity _ |}.

Definition demo_cfg : DeferConfig :=
  {| dc_Enabled := true; dc_Timeout := 0; dc_MaxPending := 0; dc_MaxPendingPerSession := 0;
     dc_MaxPendingBytes := 0; dc_MaxCascadeDepth := 0; dc_JournalPath := "/j" |}.

Definition demo_rule : DeferResolutionPolicy :=
  {| ResolverProfile := ""; AllowOn := {| PolicyPermits := false; Approval := true; ToolInventoryBaseline := false |};
     StepUpOn := {| ApprovalRequestsHuman := false |} |}.

Definition demo_action (id : string) : HeldAction :=
  {| ha_DeferID := id; ha_ActionID := "act-" +:+ id; ha_Target := "t"; ha_Reason := ""; ha_Surface := "mcp";
     ha_Method := "m"; ha_SizeBytes := 10; ha_Policy := Policy (NewManager demo_cfg);
     ha_RulePolicy := demo_rule;
     ha_Authority := {| au_Principal := "p"; au_Actor := "a"; au_SessionID := "s"; au_SessionIDOriginal := "s" |};
     ha_ParentDeferID := ""; ha_CascadeDepth := 0; ha_Linkage := ""; ha_Deadline := 0; ha_Payload := "";
     ha_ArgDigest := ""; ha_Resolve := true; ha_timer := false; ha_state := ""; ha_createdAt := 0 |}.

Definition demo_m1 : Manager := (holdPublish (stamp 10 (Policy (NewManager demo_cfg)) 0 0 (demo_action "a")) (NewManager demo_cfg)).2.
Definition demo_m2 : Manager := (holdPublish (stamp 10 (Policy demo_m1) 0 0 (demo_action "b")) demo_m1).2.
(** "b", a child of "a", has been allowed; "a" is still held. *)
Definition demo_m3 : Manager := (Resolve "b" "allow" SourceContext demo_m2).2.

Definition demo (m : Manager) : Concurrent :=
  {| cc_m := m; cc_inflight := []; cc_admitted := [claimOf (demo_action "a"); claimOf (demo_action "b")] |}.

Lemma demo_reachable : reachable demo_cfg (demo demo_m2) /\ reachable demo_cfg (demo demo_m3).
Proof.
  assert (reachable demo_cfg (demo demo_m2)) as H2.
  { unfold reachable. eapply rtc_l; [apply (step_hold 10 (Policy (NewManager demo_cfg)) 0 0 (demo_action "a")
      (NewManager demo_cfg) [] [] (Ok tt) demo_m1); [lia|done|done|vm_compute; reflexivity]|].
    eapply rtc_l; [apply (step_hold 10 (Policy demo_m1) 0 0 (demo_action "b") demo_m1 [] _ (Ok tt) demo_m2);
      [lia|done|done|vm_compute; reflexivity]|].
    apply rtc_refl. }
  split; [done|]. unfold reachable. etransitivity; [exact H2|].
  eapply (proj1 (resolve_refines (enoughFuel demo_m2)) "b" "allow" SourceContext demo_m2 (Ok tt)).
  vm_compute. reflexivity.
Qed.

Lemma demo_wf : holds_wf demo_m2.
Proof. apply manager_inv_wf. destruct (reachable_run_inv _ _ (proj1 demo_reachable)) as [Hi _]. exact Hi. Qed.


(** Blocking "a" of [demo_m3] leaves nothing; blocking "b" of [demo_m2] leaves "a". *)
Lemma Resolve_cascade_closed_witness :
  let m' := (Resolve "b" "block" SourceTimeout demo_m2).2 in
  (exists h, m_holds m' !! "a" = Some h /\
     (is_Some (m_holds demo_m2 !! ha_ParentDeferID h) -> is_Some (m_holds m' !! ha_ParentDeferID h))) /\
  size (m_holds (Resolve "a" "block" SourceTimeout demo_m2).2) = 0%nat.
Proof.
  cbv zeta. split; [|vm_compute; reflexivity].
  destruct (m_holds (Resolve "b" "block" SourceTimeout demo_m2).2 !! "a") as [h|] eqn:E.
  - exists h. split; [reflexivity|].
    apply (Resolve_cascade_closed "b" "block" SourceTimeout demo_m2 "a" h demo_wf);
      [vm_compute; discriminate|vm_compute; discriminate|exact E].
  - vm_compute in E. discriminate.
Defined.


Lemma delivered_exactly_once_witness :
  cc_admitted (demo demo_m3) ≡ₚ heldClaims demo_m3 ++ [] ++ (deliveredClaim <$> m_delivered demo_m3).
Proof. exact (delivered_exactly_once demo_cfg (demo demo_m3) (proj2 demo_reachable)). Defined.

Lemma allow_is_journalled_witness :
  exists e, e ∈ m_journal demo_m3 /\ je_DeferID e = "b" /\ je_State e = StateResolvedAllow.
Proof.
  destruct (m_delivered demo_m3) as [|r rs] eqn:E; [vm_compute in E; discriminate|].
  assert (re_DeferID r = "b" /\ re_FinalDecision r = ActionAllow) as [Hid Hfd].
  { vm_compute in E. injection E as <- _. split; vm_compute; reflexivity. }
  rewrite <- Hid. apply (allow_is_journalled demo_cfg (demo demo_m3) r);
    [discriminate|exact (proj2 demo_reachable)|cbn [demo cc_m]; rewrite E; left|exact Hfd].
Defined.


Lemma restart_recovery_complete_witness :
  exists out, PendingJournal (m_journal demo_m2) = Ok out /\ length out = 2%nat /\
    PendingJournal (m_journal (recoverAll out demo_m2)) = Ok [].
Proof.
  destruct (PendingJournal (m_journal demo_m2)) as [out|e] eqn:E; [|vm_compute in E; discriminate].
  exists out. split; [reflexivity|]. split.
  - vm_compute in E. injection E as <-. reflexivity.
  - apply restart_recovery_complete; [reflexivity|vm_compute; discriminate|exact E].
Defined.

Lemma affirmative_gates_witness :
  allows_only (fun h => Approval (AllowOn (ha_RulePolicy h)) = true) demo_m2
    (ResolveApprovalResult "b" "allow" SourceApproval demo_m2).2 /\
  (ResolveApprovalResult "b" "allow" SourceApproval demo_m2).1 = Ok "allow".
Proof.
  split; [|vm_compute; reflexivity].
  exact (proj1 (affirmative_gates demo_m2 "b" "allow" SourceApproval (fun _ => None) "" demo_wf)).
Defined.

(** A root hold keeps the [ParentDeferID] its caller supplied: [Hold] only
    overwrites it when the session already has a hold. A hold of another session
    whose caller names "a" as its parent is blocked by the cascade of "a". *)
Example caller_supplied_parent :
  let stranger := with_lineage "a" 0 ""
    {| ha_DeferID := "x"; ha_ActionID := "act-x"; ha_Target := "t"; ha_Reason := ""; ha_Surface := "mcp";
       ha_Method := "m"; ha_SizeBytes := 10; ha_Policy := Policy (NewManager demo_cfg); ha_RulePolicy := demo_rule;
       ha_Authority := {| au_Principal := "q"; au_Actor := "b"; au_SessionID := "other"; au_SessionIDOriginal := "other" |};
       ha_ParentDeferID := ""; ha_CascadeDepth := 0; ha_Linkage := ""; ha_Deadline := 0; ha_Payload := "";
       ha_ArgDigest := ""; ha_Resolve := true; ha_timer := false; ha_state := ""; ha_createdAt := 0 |} in
  let m := (Hold 0 stranger demo_m1).2 in
  (ha_ParentDeferID <$> m_holds m !! "x") = Some "a" /\
  re_DeferID <$> m_delivered (Resolve "a" "block" SourceContext m).2 = ["x"; "a"].
Proof. vm_compute. split; reflexivity. Qed.

(** An id may be held again after its resolution; the journal is then refused as
    a whole. *)
Example reused_id_refuses_journal :
  let m := (Hold 0 (demo_action "b") demo_m3).2 in
  PendingJournal (m_journal m) = Err (HeldAfterTerminal "b").
Proof. vm_compute. reflexivity. Qed.
