(* ===== verification/DoW.v ===== *)
(** * Denial of wallet: per-subject budgets on tool calls

    [internal/proxy/dow.go]. A [DoWTracker] counts the calls of one subject and
    looks for loops, runaway arguments and cycles in a sliding history; a
    [DoWSubjectManager] owns the trackers of the subjects of a listener and
    gives each a budget window. Clock readings are arguments, and so is SHA-256. *)

From S2P Require Import Prelude GoStrings.
Local Open Scope Z_scope.

(** ** Constants and data *)

Definition BudgetLoop : string := "loop_detected".
Definition BudgetRunaway : string := "runaway_expansion".
Definition BudgetCycle : string := "cycle_detected".
Definition BudgetConcurrent : string := "concurrent_limit".
Definition BudgetWallClock : string := "wall_clock".
Definition BudgetToolCalls : string := "tool_call_limit".
Definition BudgetSubjectCap : string := "subject_cap".
Definition defaultDoWSubjectKey : string := "_default".
Definition defaultDoWSubjectWindow : Z := 30 * Time.minute.
Definition defaultDoWSubjectMaxSubjects : Z := 10000.
Definition minRunawaySteps : nat := 3.
Definition minCycleLength : nat := 4.
Definition argsHashLen : nat := 16.

Record DoWConfig := {
  MaxToolCallsPerSession : Z;
  MaxConcurrentToolCalls : Z;
  MaxWallClockMinutes : Z;
  WindowMinutes : Z;
  MaxRetriesPerTool : Z;
  LoopDetectionWindow : Z;
}.

(** The message of a refusal, with what it is formatted from. *)
Inductive Reason :=
| NoReason
| SessionClosed
| TrackerClosed
| SubjectCapReached (have max : Z)
| ToolCallLimit (total max : Z)
| WallClockExceeded (elapsed limit : Z)
| LoopDetected (tool : string) (count limit : Z)
| RunawayExpansion (tool : string) (steps : Z)
| CycleDetected (a b : string)
| ConcurrentLimit (current limit : Z).

Record DoWResult := {
  Allowed : bool;
  res_Reason : Reason;
  BudgetType : string;
}.

Definition allowed : DoWResult := {| Allowed := true; res_Reason := NoReason; BudgetType := "" |}.
Definition refused (reason : Reason) (budget : string) : DoWResult :=
  {| Allowed := false; res_Reason := reason; BudgetType := budget |}.

Record toolCallEntry := {
  tc_name : string;
  tc_argsHash : string;
  tc_argsLen : Z;
  tc_at : Z;
}.

Record DoWTracker := {
  t_cfg : DoWConfig;
  t_start : Z;
  t_closed : bool;
  t_toolCalls : list toolCallEntry;
  t_totalToolCalls : Z;
  t_inflight : Z;
}.

Record dowSubjectEntry := {
  e_tracker : DoWTracker;
  e_windowStart : Z;
  e_expiresAt : Z;
}.

Record DoWSubjectManager := {
  s_cfg : DoWConfig;
  s_window : Z;
  s_idleTTL : Z;
  s_maxSubjects : Z;
  s_subjects : gmap string dowSubjectEntry;
  s_nextExpiry : Z;
}.

(** ** The tracker *)

Section tracker.
(** [crypto/sha256.Sum256], as a string of 32 bytes. *)
Context (Sum256 : string -> string).

Definition newDoWTracker (cfg : DoWConfig) (now : Z) : DoWTracker :=
  {| t_cfg := cfg; t_start := now; t_closed := false; t_toolCalls := [];
     t_totalToolCalls := 0; t_inflight := 0 |}.

Definition hashArgs (args : string) : string :=
  Hex.EncodeToString (String.substring 0 (argsHashLen / 2) (Sum256 args)).

Definition historyWindow (cfg : DoWConfig) : Z :=
  if decide (LoopDetectionWindow cfg > 0) then LoopDetectionWindow cfg
  else if decide (MaxRetriesPerTool cfg > 0) then wrap64 (MaxRetriesPerTool cfg + 1)
  else 0.

Definition sameCall (current tc : toolCallEntry) : bool :=
  bool_decide (tc_name tc = tc_name current) && bool_decide (tc_argsHash tc = tc_argsHash current).

Definition checkLoop (cfg : DoWConfig) (calls : list toolCallEntry) (current : toolCallEntry) : DoWResult :=
  let maxRetries := MaxRetriesPerTool cfg in
  if decide (maxRetries <= 0) then allowed
  else
    let count := Z.of_nat (length (List.filter (sameCall current) calls)) in
    if decide (count > maxRetries) then refused (LoopDetected (tc_name current) count maxRetries) BudgetLoop
    else allowed.

Fixpoint increasing (sizes : list Z) : bool :=
  match sizes with
  | a :: ((b :: _) as rest) => bool_decide (a < b) && increasing rest
  | _ => true
  end.

Definition checkRunaway (calls : list toolCallEntry) (current : toolCallEntry) : DoWResult :=
  let sizes := tc_argsLen <$> List.filter (fun tc => bool_decide (tc_name tc = tc_name current)) calls in
  if decide (length sizes < minRunawaySteps + 1)%nat then allowed
  else if increasing (drop (length sizes - minRunawaySteps - 1) sizes)
  then refused (RunawayExpansion (tc_name current) (Z.of_nat minRunawaySteps + 1)) BudgetRunaway
  else allowed.

Definition checkCycle (calls : list toolCallEntry) : DoWResult :=
  match tc_name <$> drop (length calls - minCycleLength) calls with
  | [a; b; c; d] =>
      if decide (a = b) then allowed
      else if decide (c = a /\ d = b) then refused (CycleDetected a b) BudgetCycle
      else allowed
  | _ => allowed
  end.

(** The history after a call: trimmed to the window, or dropped. *)
Definition trimHistory (cfg : DoWConfig) (calls : list toolCallEntry) : list toolCallEntry :=
  let window := historyWindow cfg in
  if decide (window <= 0) then []
  else if decide (Z.of_nat (length calls) > window)
  then drop (length calls - Z.to_nat window) calls
  else calls.

(** What [RecordToolCall] answers once the call is counted. *)
Definition verdict (cfg : DoWConfig) (start now total : Z) (calls : list toolCallEntry)
    (entry : toolCallEntry) : DoWResult :=
  if decide (MaxToolCallsPerSession cfg > 0 /\ total > MaxToolCallsPerSession cfg)
  then refused (ToolCallLimit total (MaxToolCallsPerSession cfg)) BudgetToolCalls
  else
    let elapsed := Time.sub now start in
    let limit := Time.minutes (MaxWallClockMinutes cfg) in
    if decide (MaxWallClockMinutes cfg > 0 /\ elapsed > limit)
    then refused (WallClockExceeded elapsed limit) BudgetWallClock
    else
      let loop := if decide (MaxRetriesPerTool cfg > 0) then checkLoop cfg calls entry else allowed in
      if negb (Allowed loop) then loop
      else if decide (LoopDetectionWindow cfg <= 0) then allowed
      else
        let runaway := checkRunaway calls entry in
        if negb (Allowed runaway) then runaway
        else checkCycle calls.

Definition RecordToolCall (now : Z) (toolName argsJSON : string) (t : DoWTracker) : DoWResult * DoWTracker :=
  if t_closed t then (refused SessionClosed BudgetWallClock, t)
  else
    let entry := {| tc_name := toolName; tc_argsHash := hashArgs argsJSON;
                    tc_argsLen := Z.of_nat (String.length argsJSON); tc_at := now |} in
    let total := t_totalToolCalls t + 1 in
    let calls := trimHistory (t_cfg t) (t_toolCalls t ++ [entry]) in
    (verdict (t_cfg t) (t_start t) now total calls entry,
     {| t_cfg := t_cfg t; t_start := t_start t; t_closed := t_closed t; t_toolCalls := calls;
        t_totalToolCalls := total; t_inflight := t_inflight t |}).

(** [UpdateConfig] of the tracker and [Close]. *)
Definition tracker_UpdateConfig (cfg : DoWConfig) (t : DoWTracker) : DoWTracker :=
  {| t_cfg := cfg; t_start := t_start t; t_closed := t_closed t; t_toolCalls := t_toolCalls t;
     t_totalToolCalls := t_totalToolCalls t; t_inflight := t_inflight t |}.

Definition Close (t : DoWTracker) : DoWTracker :=
  {| t_cfg := t_cfg t; t_start := t_start t; t_closed := true; t_toolCalls := t_toolCalls t;
     t_totalToolCalls := t_totalToolCalls t; t_inflight := t_inflight t |}.

(** ** Concurrent calls *)

Definition with_inflight (n : Z) (t : DoWTracker) : DoWTracker :=
  {| t_cfg := t_cfg t; t_start := t_start t; t_closed := t_closed t; t_toolCalls := t_toolCalls t;
     t_totalToolCalls := t_totalToolCalls t; t_inflight := n |}.

Definition concurrentLimit (cfg : DoWConfig) : Z :=
  let cfgLimit := if decide (MaxConcurrentToolCalls cfg <= 0) then 10 else MaxConcurrentToolCalls cfg in
  Z.min cfgLimit (2 ^ 30).

(** [AcquireConcurrent] in its two atomic parts: the increment under the lock,
    and the comparison, with the decrement that rolls it back, after it. *)
Definition acquireBegin (t : DoWTracker) : result (Z * Z) DoWResult * DoWTracker :=
  if t_closed t then (Err (refused TrackerClosed BudgetConcurrent), t)
  else
    let current := t_inflight t + 1 in
    (Ok (current, concurrentLimit (t_cfg t)), with_inflight current t).

Definition acquireEnd (current limit : Z) (t : DoWTracker) : DoWResult * DoWTracker :=
  if decide (current > limit)
  then (refused (ConcurrentLimit current limit) BudgetConcurrent, with_inflight (t_inflight t - 1) t)
  else (allowed, t).

Definition AcquireConcurrent (t : DoWTracker) : DoWResult * DoWTracker :=
  match acquireBegin t with
  | (Err r, t) => (r, t)
  | (Ok (current, limit), t) => acquireEnd current limit t
  end.

(** [ReleaseConcurrent]: the compare-and-swap loop that does not go below zero. *)
Definition ReleaseConcurrent (t : DoWTracker) : DoWTracker :=
  if decide (t_inflight t <= 0) then t else with_inflight (t_inflight t - 1) t.

(** ** The subjects *)

Definition normalizeDoWSubjectWindow (cfg : DoWConfig) (idleTTL : Z) : Z :=
  let window := Time.minutes (WindowMinutes cfg) in
  let window := if decide (window <= 0) then idleTTL else window in
  if decide (window <= 0) then defaultDoWSubjectWindow else window.

Definition NewDoWSubjectManager (cfg : DoWConfig) (idleTTL maxSubjects : Z) : DoWSubjectManager :=
  {| s_cfg := cfg; s_window := normalizeDoWSubjectWindow cfg idleTTL; s_idleTTL := idleTTL;
     s_maxSubjects := if decide (maxSubjects <= 0) then defaultDoWSubjectMaxSubjects else maxSubjects;
     s_subjects := ∅; s_nextExpiry := Time.zero |}.

Definition with_subjects (subjects : gmap string dowSubjectEntry) (nextExpiry : Z)
    (m : DoWSubjectManager) : DoWSubjectManager :=
  {| s_cfg := s_cfg m; s_window := s_window m; s_idleTTL := s_idleTTL m;
     s_maxSubjects := s_maxSubjects m; s_subjects := subjects; s_nextExpiry := nextExpiry |}.

(** The running minimum both scans keep: zero stands for none yet. *)
Definition earlier (earliest expiry : Z) : Z :=
  if decide (earliest = Time.zero \/ expiry < earliest) then expiry else earliest.

Definition earliestExpiry (subjects : gmap string dowSubjectEntry) : Z :=
  map_fold (fun _ e earliest => earlier earliest (e_expiresAt e)) Time.zero subjects.

Definition reapExpiredLocked (now : Z) (m : DoWSubjectManager) : DoWSubjectManager :=
  if decide (s_nextExpiry m <> Time.zero /\ now < s_nextExpiry m) then m
  else
    let live := filter (fun ke => now < e_expiresAt ke.2) (s_subjects m) in
    with_subjects live (earliestExpiry live) m.

(** [trackerFor]; [now'] is the clock reading of the new tracker's [start]. *)
Definition trackerFor (now now' : Z) (subjectKey : string) (m : DoWSubjectManager) : bool * DoWSubjectManager :=
  let m := reapExpiredLocked now m in
  match s_subjects m !! subjectKey with
  | Some _ => (true, m)
  | None =>
      if decide (Z.of_nat (size (s_subjects m)) >= s_maxSubjects m) then (false, m)
      else
        let expiry := Time.add now (s_window m) in
        let entry := {| e_tracker := newDoWTracker (s_cfg m) now'; e_windowStart := now; e_expiresAt := expiry |} in
        (true, with_subjects (<[subjectKey := entry]> (s_subjects m)) (earlier (s_nextExpiry m) expiry) m)
  end.

Definition with_tracker (t : DoWTracker) (e : dowSubjectEntry) : dowSubjectEntry :=
  {| e_tracker := t; e_windowStart := e_windowStart e; e_expiresAt := e_expiresAt e |}.

(** [Check]: [now], [now'] and [now''] are its successive clock readings. *)
Definition Check_ (now now' now'' : Z) (subjectKey toolName argsJSON : string)
    (m : DoWSubjectManager) : DoWResult * DoWSubjectManager :=
  let subjectKey := if decide (subjectKey = "") then defaultDoWSubjectKey else subjectKey in
  match trackerFor now now' subjectKey m with
  | (false, m) => (refused (SubjectCapReached (s_maxSubjects m) (s_maxSubjects m)) BudgetSubjectCap, m)
  | (true, m) =>
      match s_subjects m !! subjectKey with
      | None => (allowed, m)
      | Some e =>
          let '(r, t) := RecordToolCall now'' toolName argsJSON (e_tracker e) in
          (r, with_subjects (<[subjectKey := with_tracker t e]> (s_subjects m)) (s_nextExpiry m) m)
      end
  end.

Definition SubjectCount (now : Z) (m : DoWSubjectManager) : Z * DoWSubjectManager :=
  let m := reapExpiredLocked now m in (Z.of_nat (size (s_subjects m)), m).

(** The new expiry of a live subject when the window grows. *)
Definition extend (newWindow : Z) (e : dowSubjectEntry) : dowSubjectEntry :=
  let extendedExpiry := Time.add (e_windowStart e) newWindow in
  {| e_tracker := e_tracker e; e_windowStart := e_windowStart e;
     e_expiresAt := if decide (extendedExpiry > e_expiresAt e) then extendedExpiry else e_expiresAt e |}.

Definition UpdateConfig (now : Z) (cfg : DoWConfig) (m : DoWSubjectManager) : DoWSubjectManager :=
  let m := reapExpiredLocked now m in
  let newWindow := normalizeDoWSubjectWindow cfg (s_idleTTL m) in
  let extendLiveWindows := bool_decide (newWindow > s_window m) in
  let subjects :=
    (fun e => let e := if extendLiveWindows then extend newWindow e else e in
              with_tracker (tracker_UpdateConfig cfg (e_tracker e)) e) <$> s_subjects m in
  {| s_cfg := cfg; s_window := newWindow; s_idleTTL := s_idleTTL m; s_maxSubjects := s_maxSubjects m;
     s_subjects := subjects;
     s_nextExpiry := if extendLiveWindows then earliestExpiry subjects else s_nextExpiry m |}.

(** ** The reap shortcut *)

Record manager_inv (m : DoWSubjectManager) : Prop := {
  mi_window : 0 < s_window m;
  mi_nonneg : 0 <= s_nextExpiry m;
  mi_next k e : s_subjects m !! k = Some e -> 0 < s_nextExpiry m <= e_expiresAt e;
}.

Lemma normalizeDoWSubjectWindow_pos cfg idleTTL : 0 < normalizeDoWSubjectWindow cfg idleTTL.
Proof. unfold normalizeDoWSubjectWindow. repeat case_decide; try lia. done. Qed.

Lemma NewDoWSubjectManager_inv cfg idleTTL maxSubjects : manager_inv (NewDoWSubjectManager cfg idleTTL maxSubjects).
Proof.
  split; cbn; [apply normalizeDoWSubjectWindow_pos|done|]. intros k e. by rewrite lookup_empty.
Qed.

Lemma earlier_le a b : 0 < b -> (earlier a b <= b) /\ (a <> Time.zero -> earlier a b <= a) /\ (0 <= a -> 0 < earlier a b).
Proof. unfold earlier, Time.zero. intros. case_decide; lia. Qed.

Lemma earliestExpiry_le subjects :
  (forall k e, subjects !! k = Some e -> 0 < e_expiresAt e) ->
  0 <= earliestExpiry subjects /\
  forall k e, subjects !! k = Some e -> 0 < earliestExpiry subjects <= e_expiresAt e.
Proof.
  unfold earliestExpiry. intros Hp. revert Hp.
  apply (map_fold_weak_ind (fun acc subjects =>
    (forall k e, subjects !! k = Some e -> 0 < e_expiresAt e) ->
    0 <= acc /\ forall k e, subjects !! k = Some e -> 0 < acc <= e_expiresAt e)).
  - intros _. split; [done|]. intros k e. by rewrite lookup_empty.
  - intros k e subs acc Hk IH Hp.
    assert (0 < e_expiresAt e) as He by (apply (Hp k), lookup_insert_eq).
    destruct IH as [H0 IH].
    { intros k' e' Hk'. apply (Hp k'). rewrite lookup_insert_ne; [done|]. congruence. }
    destruct (earlier_le acc (e_expiresAt e) He) as (H1 & H2 & H3).
    split; [specialize (H3 H0); lia|].
    intros k' e' [(<- & <-)|(Hne & Hk')]%lookup_insert_Some; [specialize (H3 H0); lia|].
    specialize (IH _ _ Hk'). unfold Time.zero in *. specialize (H3 H0). lia.
Qed.

Lemma reap_inv now m : manager_inv m -> manager_inv (reapExpiredLocked now m).
Proof.
  intros Hm. destruct Hm as [H1 H0 H2]. unfold reapExpiredLocked. case_decide; [done|].
  split; [done|..]; cbn [with_subjects s_subjects s_nextExpiry]; apply earliestExpiry_le;
    intros k e [Hk _]%map_lookup_filter_Some; specialize (H2 _ _ Hk); lia.
Qed.

(** skipping the scan before the stamped earliest expiry never keeps an
    expired subject: under the manager's invariant, [reapExpiredLocked] leaves
    exactly the subjects a full scan would leave, and keeps the invariant. *)
Theorem reapExpired_is_full_scan now m :
  manager_inv m ->
  s_subjects (reapExpiredLocked now m) = filter (fun ke => now < e_expiresAt ke.2) (s_subjects m) /\
  manager_inv (reapExpiredLocked now m).
Proof.
  intros Hm. split; [|by apply reap_inv]. destruct Hm as [H1 H0 H2].
  unfold reapExpiredLocked. case_decide as Hd; [|done].
  symmetry. apply map_filter_id. intros k e Hk. cbn. specialize (H2 _ _ Hk). lia.
Qed.

(** ** Runs of operations *)

Inductive dow_op :=
| OpCheck (now now' now'' : Z) (subjectKey toolName argsJSON : string)
| OpSubjectCount (now : Z)
| OpUpdateConfig (now : Z) (cfg : DoWConfig).

Definition op_now (op : dow_op) : Z :=
  match op with OpCheck now _ _ _ _ _ => now | OpSubjectCount now => now | OpUpdateConfig now _ => now end.

Definition bucket (subjectKey : string) : string :=
  if decide (subjectKey = "") then defaultDoWSubjectKey else subjectKey.

(** One operation; the answer to a tool call comes with its bucket. *)
Definition dow_step (op : dow_op) (m : DoWSubjectManager) : option (string * DoWResult) * DoWSubjectManager :=
  match op with
  | OpCheck now now' now'' key tool args =>
      let '(r, m) := Check_ now now' now'' key tool args m in (Some (bucket key, r), m)
  | OpSubjectCount now => (None, (SubjectCount now m).2)
  | OpUpdateConfig now cfg => (None, UpdateConfig now cfg m)
  end.

Fixpoint dow_run (ops : list dow_op) (m : DoWSubjectManager) : list (option (string * DoWResult)) * DoWSubjectManager :=
  match ops with
  | [] => ([], m)
  | op :: ops =>
      let '(r, m) := dow_step op m in
      let '(rs, m) := dow_run ops m in (r :: rs, m)
  end.

Definition isAllowed (key : string) (r : option (string * DoWResult)) : bool :=
  match r with Some (k, r) => bool_decide (k = key) && Allowed r | None => false end.

Definition countAllowed (key : string) (rs : list (option (string * DoWResult))) : Z :=
  Z.of_nat (length (List.filter (isAllowed key) rs)).

Lemma reap_keeps now m k e :
  s_subjects m !! k = Some e -> now < e_expiresAt e -> s_subjects (reapExpiredLocked now m) !! k = Some e.
Proof.
  intros Hk Hn. unfold reapExpiredLocked. case_decide; [done|].
  cbn. by apply map_lookup_filter_Some.
Qed.

Lemma trackerFor_inv now now' key m :
  0 < now -> manager_inv m -> manager_inv (trackerFor now now' key m).2.
Proof.
  intros Hn Hm. apply (reap_inv now) in Hm as [H1 H0 H2]. unfold trackerFor.
  destruct (s_subjects (reapExpiredLocked now m) !! key) as [e|] eqn:Hk; [done|]. case_decide; [done|].
  set (m1 := reapExpiredLocked now m) in *. unfold Time.add.
  destruct (earlier_le (s_nextExpiry m1) (now + s_window m1)) as (L1 & L2 & L3); [lia|]. specialize (L3 H0).
  split; cbn [snd with_subjects s_window s_subjects s_nextExpiry]; [done|lia|].
  intros k e [(<- & <-)|(_ & He)]%lookup_insert_Some; [by split|].
  specialize (H2 _ _ He). unfold Time.zero in *. specialize (L2 ltac:(lia)). lia.
Qed.

Lemma with_tracker_inv m k t e :
  manager_inv m -> s_subjects m !! k = Some e ->
  manager_inv (with_subjects (<[k := with_tracker t e]> (s_subjects m)) (s_nextExpiry m) m).
Proof.
  intros [H1 H0 H2] Hk. split; cbn; [done|done|].
  intros k' e' [(<- & <-)|(_ & He)]%lookup_insert_Some; [exact (H2 k e Hk)|by apply (H2 k')].
Qed.

Lemma Check_inv now now' now'' key tool args m :
  0 < now -> manager_inv m -> manager_inv (Check_ now now' now'' key tool args m).2.
Proof.
  intros Hn Hm. unfold Check_. fold (bucket key).
  pose proof (trackerFor_inv now now' (bucket key) m Hn Hm) as Hi.
  destruct (trackerFor now now' (bucket key) m) as [[|] m1]; [|done]. cbn in Hi.
  destruct (s_subjects m1 !! bucket key) as [e|] eqn:He; [|done].
  destruct (RecordToolCall now'' tool args (e_tracker e)) as [r t]. by apply with_tracker_inv.
Qed.

Lemma UpdateConfig_inv now cfg m : manager_inv m -> manager_inv (UpdateConfig now cfg m).
Proof.
  intros Hm. apply (reap_inv now) in Hm as [H1 H0 H2]. unfold UpdateConfig.
  set (m1 := reapExpiredLocked now m) in *.
  pose proof (normalizeDoWSubjectWindow_pos cfg (s_idleTTL m1)) as Hw.
  case_bool_decide as Hx; split; cbn [s_window s_subjects s_nextExpiry]; try done.
  1, 2: apply earliestExpiry_le; intros k e (e0 & <- & He)%lookup_fmap_Some; specialize (H2 _ _ He);
    cbn; case_decide; lia.
  intros k e (e0 & <- & He)%lookup_fmap_Some. exact (H2 k e0 He).
Qed.

Lemma dow_step_inv op m : 0 < op_now op -> manager_inv m -> manager_inv (dow_step op m).2.
Proof.
  destruct op as [now now' now'' key tool args|now|now cfg]; cbn [op_now dow_step]; intros Hn Hm.
  - pose proof (Check_inv now now' now'' key tool args m Hn Hm) as Hi.
    by destruct (Check_ now now' now'' key tool args m).
  - by apply reap_inv.
  - by apply UpdateConfig_inv.
Qed.

(** ** The budget of a live subject *)

(** An operation while the subject's window runs; a reload keeps a limit of at most [M]. *)
Definition op_within (expiry M : Z) (op : dow_op) : Prop :=
  op_now op < expiry /\
  match op with OpUpdateConfig _ cfg => 0 < MaxToolCallsPerSession cfg <= M | _ => True end.

Lemma RecordToolCall_total now tool args t :
  let '(r, t') := RecordToolCall now tool args t in
  t_cfg t' = t_cfg t /\ t_totalToolCalls t <= t_totalToolCalls t' /\
  (Allowed r = true -> t_totalToolCalls t' = t_totalToolCalls t + 1 /\
     (0 < MaxToolCallsPerSession (t_cfg t) -> t_totalToolCalls t' <= MaxToolCallsPerSession (t_cfg t))).
Proof.
  unfold RecordToolCall. destruct (t_closed t); [cbn; split_and!; [done|lia|done]|].
  cbn [t_cfg t_totalToolCalls]. split_and!; [done|lia|]. intros Ha. split; [done|]. intros Hp.
  unfold verdict in Ha. case_decide; [done|]. lia.
Qed.

Lemma dow_step_live key e M op m :
  s_subjects m !! key = Some e -> 0 < MaxToolCallsPerSession (t_cfg (e_tracker e)) <= M ->
  op_within (e_expiresAt e) M op ->
  let '(r, m') := dow_step op m in
  exists e', s_subjects m' !! key = Some e' /\ e_expiresAt e <= e_expiresAt e' /\
    0 < MaxToolCallsPerSession (t_cfg (e_tracker e')) <= M /\
    t_totalToolCalls (e_tracker e) <= t_totalToolCalls (e_tracker e') /\
    (isAllowed key r = true ->
       t_totalToolCalls (e_tracker e') = t_totalToolCalls (e_tracker e) + 1 /\
       t_totalToolCalls (e_tracker e') <= M).
Proof.
  intros Hk HM [Hnow Hop]. pose proof (reap_keeps (op_now op) m key e Hk Hnow) as Hr.
  destruct op as [now now' now'' k tool args|now|now cfg]; cbn [op_now dow_step SubjectCount snd] in *.
  - unfold Check_. fold (bucket k). unfold trackerFor.
    destruct (s_subjects (reapExpiredLocked now m) !! bucket k) as [e1|] eqn:E1.
    + rewrite E1. pose proof (RecordToolCall_total now'' tool args (e_tracker e1)) as HT.
      destruct (RecordToolCall now'' tool args (e_tracker e1)) as [r t]. destruct HT as (T1 & T2 & T3).
      cbn [with_subjects s_subjects]. destruct (decide (bucket k = key)) as [<-|Hne].
      * rewrite Hr in E1. injection E1 as <-. exists (with_tracker t e). rewrite lookup_insert_eq.
        cbn. rewrite T1. split_and!; [done|lia|lia|lia|lia|]. rewrite bool_decide_true by done. cbn. intros Ha.
        destruct (T3 Ha) as [T4 T5]. specialize (T5 ltac:(lia)). lia.
      * exists e. rewrite lookup_insert_ne by done. split_and!; [done|lia|lia|lia|lia|]. cbn.
        by rewrite bool_decide_false.
    + assert (bucket k <> key) as Hne by congruence.
      case_decide; [exists e; split_and!; [done|lia|lia|lia|lia|]; cbn; by rewrite bool_decide_false|].
      cbn [with_subjects s_subjects]. rewrite lookup_insert_eq.
      match goal with |- context [RecordToolCall ?a ?b ?c ?d] => destruct (RecordToolCall a b c d) as [r t] end.
      exists e. cbn. rewrite insert_insert_eq, lookup_insert_ne by done.
      split_and!; [done|lia|lia|lia|lia|]. by rewrite bool_decide_false.
  - exists e. split_and!; [done|lia..|done].
  - unfold UpdateConfig. cbn [s_subjects]. rewrite lookup_fmap, Hr. cbn [fmap option_fmap option_map].
    eexists. split; [done|]. case_bool_decide; cbn; (split_and!; [|lia..|done]); [case_decide; lia|lia].
Qed.

(** A subject's budget is not refilled within its window: as long as no
    operation of a run happens at or after the expiry of the subject, whatever
    subjects are reaped, rejected or reconfigured meanwhile (to limits of at
    most [M]), the subject is allowed at most [M] calls, those it had already
    made included. *)
Theorem budget_not_refilled key e M ops m :
  s_subjects m !! key = Some e -> 0 < MaxToolCallsPerSession (t_cfg (e_tracker e)) <= M ->
  Forall (op_within (e_expiresAt e) M) ops ->
  countAllowed key (dow_run ops m).1 <= Z.max 0 (M - t_totalToolCalls (e_tracker e)).
Proof.
  revert m e. induction ops as [|op ops IH]; intros m e Hk HM Hops; [unfold countAllowed; cbn [dow_run fst List.filter length]; lia|].
  apply Forall_cons in Hops as [Hop Hops]. cbn [dow_run].
  pose proof (dow_step_live key e M op m Hk HM Hop) as HS.
  destruct (dow_step op m) as [r m1]. destruct HS as (e' & Hk' & He' & HM' & Ht & Ha).
  specialize (IH m1 e' Hk' HM'). destruct (dow_run ops m1) as [rs m2]. cbn [fst] in *.
  assert (countAllowed key rs <= Z.max 0 (M - t_totalToolCalls (e_tracker e'))) as IH1.
  { apply IH. eapply Forall_impl; [exact Hops|]. intros o [H1 H2]. split; [lia|done]. }
  clear IH. unfold countAllowed in *. cbn [List.filter].
  destruct (isAllowed key r) eqn:Er; [|lia]. specialize (Ha eq_refl). cbn [length]. lia.
Qed.

(** ** Loops *)

Definition callEntry (now : Z) (tool args : string) : toolCallEntry :=
  {| tc_name := tool; tc_argsHash := hashArgs args; tc_argsLen := Z.of_nat (String.length args); tc_at := now |}.

Lemma trimHistory_suffix cfg calls : exists k, trimHistory cfg calls = drop k calls.
Proof.
  unfold trimHistory. repeat case_decide; [|eauto|exists 0%nat; done].
  exists (length calls). by rewrite drop_all.
Qed.

Lemma trimHistory_length cfg calls : Z.of_nat (length (trimHistory cfg calls)) <= Z.max 0 (historyWindow cfg).
Proof. unfold trimHistory. repeat case_decide; cbn; try rewrite length_drop; lia. Qed.

Lemma trimHistory_keeps cfg calls n :
  (n <= length calls)%nat -> Z.of_nat n <= historyWindow cfg -> (n <= length (trimHistory cfg calls))%nat.
Proof. unfold trimHistory. intros. repeat case_decide; cbn; try rewrite length_drop; lia. Qed.

(** The last [n] calls of the history are the call [(tool, args)]. *)
Definition trailing (n : nat) (tool args : string) (calls : list toolCallEntry) : Prop :=
  exists pre post, calls = pre ++ post /\ (n <= length post)%nat /\
    Forall (fun tc => tc_name tc = tool /\ tc_argsHash tc = hashArgs args) post.

Lemma trailing_count n tool args calls now :
  trailing n tool args calls -> (n <= length (List.filter (sameCall (callEntry now tool args)) calls))%nat.
Proof.
  intros (pre & post & -> & Hn & HF). rewrite List.filter_app, length_app.
  assert (List.filter (sameCall (callEntry now tool args)) post = post) as ->; [|lia].
  clear Hn. induction HF as [|tc post [H1 H2] _ IH]; [done|]. cbn [List.filter].
  assert (sameCall (callEntry now tool args) tc = true) as ->; [|by rewrite IH].
  unfold sameCall. cbn. by rewrite H1, H2, !bool_decide_true.
Qed.

Lemma trailing_trim n tool args cfg calls :
  trailing n tool args calls -> Z.of_nat n <= historyWindow cfg -> trailing n tool args (trimHistory cfg calls).
Proof.
  intros (pre & post & -> & Hn & HF) Hw.
  pose proof (trimHistory_keeps cfg (pre ++ post) n ltac:(rewrite length_app; lia) Hw) as Hk.
  destruct (trimHistory_suffix cfg (pre ++ post)) as [k Ek]. rewrite Ek in *.
  rewrite drop_app in *. exists (drop k pre), (drop (k - length pre) post). split_and!; [done| |by apply Forall_drop].
  rewrite length_app, !length_drop in Hk. rewrite length_drop. lia.
Qed.

Fixpoint repeatCalls (n : nat) (nows : nat -> Z) (tool args : string) (t : DoWTracker) : DoWTracker :=
  match n with
  | O => t
  | S n => (RecordToolCall (nows n) tool args (repeatCalls n nows tool args t)).2
  end.

Lemma repeatCalls_frame n nows tool args t :
  t_cfg (repeatCalls n nows tool args t) = t_cfg t /\ t_closed (repeatCalls n nows tool args t) = t_closed t.
Proof.
  induction n as [|n IH]; [done|]. cbn [repeatCalls]. unfold RecordToolCall at 1 2.
  destruct (t_closed (repeatCalls n nows tool args t)) eqn:E; cbn; destruct IH as [-> IH]; split; congruence.
Qed.

Lemma repeatCalls_trailing n nows tool args t m :
  t_closed t = false -> (m <= n)%nat -> Z.of_nat m <= historyWindow (t_cfg t) ->
  trailing m tool args (t_toolCalls (repeatCalls n nows tool args t)).
Proof.
  intros Hc. revert m. induction n as [|n IH]; intros m Hm Hw.
  - assert (m = 0%nat) as -> by lia. exists (t_toolCalls t), []. by rewrite app_nil_r.
  - cbn [repeatCalls]. destruct (repeatCalls_frame n nows tool args t) as [F1 F2].
    unfold RecordToolCall. rewrite F2, Hc. cbn [snd t_toolCalls]. rewrite F1. apply trailing_trim; [|done].
    destruct m as [|m]; [eexists _, []; by rewrite app_nil_r|].
    destruct (IH m) as (pre & post & -> & Hl & HF); [lia..|].
    exists pre, (post ++ [callEntry (nows n) tool args]). rewrite <- app_assoc. split_and!; [done| |].
    + rewrite length_app. cbn. lia.
    + apply Forall_app. split; [done|]. by apply Forall_singleton.
Qed.

(** a retry storm is stopped: when the history window exceeds the retry limit
    (which it does whenever [loop_detection_window] is unset), the same call
    with the same arguments made more than [max_retries_per_tool] times in a row
    is refused from then on, in every state the tracker may start in. *)
Theorem retry_storm_refused t n nows tool args now :
  0 < MaxRetriesPerTool (t_cfg t) < historyWindow (t_cfg t) ->
  MaxRetriesPerTool (t_cfg t) <= Z.of_nat n ->
  Allowed (RecordToolCall now tool args (repeatCalls n nows tool args t)).1 = false.
Proof.
  intros [Hp Hw] Hn. destruct (t_closed t) eqn:Hc.
  { unfold RecordToolCall. destruct (repeatCalls_frame n nows tool args t) as [_ ->]. by rewrite Hc. }
  set (nows' := fun i => if decide (i = n) then now else nows i).
  assert (repeatCalls n nows' tool args t = repeatCalls n nows tool args t) as E.
  { assert (forall k, (k <= n)%nat -> repeatCalls k nows' tool args t = repeatCalls k nows tool args t) as Hk; [|by apply Hk].
    induction k as [|k IH]; [done|]. intros Hk. cbn [repeatCalls]. rewrite IH by lia. unfold nows'.
    by rewrite decide_False by lia. }
  pose proof (repeatCalls_trailing (S n) nows' tool args t (S (Z.to_nat (MaxRetriesPerTool (t_cfg t)))) Hc
    ltac:(lia) ltac:(lia)) as HT.
  cbn [repeatCalls] in HT. rewrite E in HT. unfold nows' in HT. rewrite decide_True in HT by done.
  destruct (repeatCalls_frame n nows tool args t) as [F1 F2].
  revert HT. unfold RecordToolCall. rewrite F2, Hc. cbn [fst snd t_toolCalls]. rewrite F1.
  fold (callEntry now tool args). intros HT%(trailing_count _ _ _ _ now).
  unfold verdict. case_decide; [done|]. case_decide; [done|].
  rewrite decide_True by lia. unfold checkLoop. rewrite decide_False by lia. rewrite decide_True by lia. done.
Qed.

(** ** Concurrency *)

(** The tracker with its callers: the acquisitions between their increment and
    their comparison, and the number of slots granted and not yet released. *)
Record CallState := {
  cs_t : DoWTracker;
  cs_pending : list (Z * Z);
  cs_granted : Z;
}.

Inductive call_step : CallState -> CallState -> Prop :=
| step_acquire_begin t ps g current limit t' :
    acquireBegin t = (Ok (current, limit), t') ->
    call_step {| cs_t := t; cs_pending := ps; cs_granted := g |}
              {| cs_t := t'; cs_pending := (current, limit) :: ps; cs_granted := g |}
| step_acquire_end t ps1 current limit ps2 g r t' :
    acquireEnd current limit t = (r, t') ->
    call_step {| cs_t := t; cs_pending := ps1 ++ (current, limit) :: ps2; cs_granted := g |}
              {| cs_t := t'; cs_pending := ps1 ++ ps2; cs_granted := if Allowed r then g + 1 else g |}
| step_release t ps g :
    0 < g ->
    call_step {| cs_t := t; cs_pending := ps; cs_granted := g |}
              {| cs_t := ReleaseConcurrent t; cs_pending := ps; cs_granted := g - 1 |}
| step_close t ps g :
    call_step {| cs_t := t; cs_pending := ps; cs_granted := g |}
              {| cs_t := Close t; cs_pending := ps; cs_granted := g |}.

Definition winners (ps : list (Z * Z)) : Z :=
  Z.of_nat (length (List.filter (fun p => bool_decide (p.1 <= p.2)) ps)).

Lemma winners_app ps1 ps2 : winners (ps1 ++ ps2) = winners ps1 + winners ps2.
Proof. unfold winners. rewrite List.filter_app, length_app. lia. Qed.

Lemma winners_cons p ps : winners (p :: ps) = (if decide (p.1 <= p.2) then 1 else 0) + winners ps.
Proof.
  unfold winners. cbn [List.filter]. case_bool_decide.
  - rewrite decide_True by done. cbn [length]. lia.
  - by rewrite decide_False by done.
Qed.

Lemma concurrentLimit_pos cfg : 0 < concurrentLimit cfg.
Proof.
  unfold concurrentLimit. destruct (decide (MaxConcurrentToolCalls cfg <= 0)); apply Z.min_glb_lt; lia.
Qed.

Record call_inv (cfg : DoWConfig) (s : CallState) : Prop := {
  ci_cfg : t_cfg (cs_t s) = cfg;
  ci_inflight : t_inflight (cs_t s) = cs_granted s + Z.of_nat (length (cs_pending s));
  ci_granted : 0 <= cs_granted s;
  ci_limit : cs_granted s + winners (cs_pending s) <= concurrentLimit cfg;
  ci_pending p : p ∈ cs_pending s -> p.2 = concurrentLimit cfg;
}.

Lemma call_step_inv cfg s s' : call_step s s' -> call_inv cfg s -> call_inv cfg s'.
Proof.
  intros Hs [H1 H2 H3 H4 H5]. destruct Hs as [t ps g current limit t' HA|t ps1 current limit ps2 g r t' HE|t ps g Hg|t ps g];
    cbn [cs_t cs_pending cs_granted] in *.
  - unfold acquireBegin in HA. case_match; [done|]. injection HA as <- <- <-. rewrite H1.
    assert (winners ps <= Z.of_nat (length ps)) as Hle.
    { unfold winners. clear. induction ps as [|p ps IH]; [done|]. cbn [List.filter].
      case_bool_decide; cbn [length] in *; lia. }
    split; cbn [cs_t cs_pending cs_granted with_inflight t_cfg t_inflight length]; [done|lia|done| |].
    + rewrite winners_cons. cbn [fst snd]. case_decide; lia.
    + intros p [->|Hp]%elem_of_cons; [done|by apply H5].
  - assert (limit = concurrentLimit cfg) as ->.
    { apply (H5 (current, limit)). apply elem_of_app. right. left. }
    rewrite winners_app, winners_cons in H4. rewrite length_app in H2. cbn [fst snd length] in *.
    assert (forall p, p ∈ ps1 ++ ps2 -> p.2 = concurrentLimit cfg) as H5'.
    { intros p Hp. apply H5. rewrite elem_of_app in *. rewrite elem_of_cons. naive_solver. }
    unfold acquireEnd in HE. destruct (decide (current > concurrentLimit cfg)); injection HE as <- <-; cbn [Allowed refused allowed].
    + split; cbn [cs_t cs_pending cs_granted with_inflight t_cfg t_inflight]; [done| |done| |done].
      * rewrite length_app. lia.
      * rewrite winners_app. case_decide; lia.
    + split; cbn [cs_t cs_pending cs_granted]; [done| |lia| |done].
      * rewrite length_app. lia.
      * rewrite winners_app. case_decide; lia.
  - unfold ReleaseConcurrent. rewrite decide_False by lia.
    split; cbn [cs_t cs_pending cs_granted with_inflight t_cfg t_inflight]; try done; lia.
  - split; try done.
Qed.

(** At most [max_concurrent_tool_calls] calls hold a slot at any moment, under
    every interleaving of acquisitions, roll-backs, releases and the close; and
    when no acquisition is half done, the counter is the number of slots held. *)
Theorem concurrent_limit_respected cfg now s :
  rtc call_step {| cs_t := newDoWTracker cfg now; cs_pending := []; cs_granted := 0 |} s ->
  0 <= cs_granted s <= concurrentLimit cfg /\
  (cs_pending s = [] -> t_inflight (cs_t s) = cs_granted s).
Proof.
  intros Hr. assert (call_inv cfg s) as [H1 H2 H3 H4 H5].
  { revert s Hr. apply (rtc_ind_r (R := call_step)).
    - pose proof (concurrentLimit_pos cfg). split; cbn [cs_t cs_pending cs_granted]; try done;
        [unfold winners; cbn [List.filter length]; lia|by intros p ?%not_elem_of_nil].
    - intros x y _ Hs Hx. by eapply call_step_inv. }
  split; [|intros Hp; rewrite Hp in H2; cbn in H2; lia].
  assert (0 <= winners (cs_pending s)) by (unfold winners; lia). lia.
Qed.
End tracker.

(** ** Concrete runs *)

Definition demo_cfg : DoWConfig :=
  {| MaxToolCallsPerSession := 3; MaxConcurrentToolCalls := 2; MaxWallClockMinutes := 0; WindowMinutes := 1;
     MaxRetriesPerTool := 2; LoopDetectionWindow := 0 |}.

(** A digest for the examples: the string itself, padded. *)
Definition demo_sum (s : string) : string := s +:+ "................................".

Definition demo_manager : DoWSubjectManager :=
  (Check_ demo_sum 1000 1000 1000 "alice" "ls" "{}" (NewDoWSubjectManager demo_cfg 0 0)).2.

Lemma demo_manager_inv : manager_inv demo_manager.
Proof. apply Check_inv; [lia|]. apply NewDoWSubjectManager_inv. Qed.

Lemma reapExpired_is_full_scan_witness :
  s_subjects (reapExpiredLocked (1000 + Time.minute) demo_manager) = ∅ /\
  manager_inv (reapExpiredLocked (1000 + Time.minute) demo_manager).
Proof.
  destruct (reapExpired_is_full_scan (1000 + Time.minute) demo_manager demo_manager_inv) as [H1 H2].
  split; [rewrite H1; vm_compute; reflexivity|exact H2].
Defined.

(** Three more calls within the minute: two are allowed. *)
Lemma budget_not_refilled_witness :
  let ops := [OpCheck 2000 2000 2000 "alice" "ls" "a"; OpUpdateConfig 3000 demo_cfg;
              OpCheck 4000 4000 4000 "alice" "cat" "b"; OpCheck 5000 5000 5000 "alice" "rm" "c"] in
  countAllowed "alice" (dow_run demo_sum ops demo_manager).1 <= 2 /\
  countAllowed "alice" (dow_run demo_sum ops demo_manager).1 = 2.
Proof.
  cbv zeta. split; [|vm_compute; reflexivity].
  assert (exists e, s_subjects demo_manager !! "alice" = Some e /\
    e_expiresAt e = 1000 + Time.minute /\ t_totalToolCalls (e_tracker e) = 1 /\
    MaxToolCallsPerSession (t_cfg (e_tracker e)) = 3) as (e & E & E1 & E2 & E3).
  { eexists. split; [vm_compute; reflexivity|]. vm_compute. auto. }
  pose proof (budget_not_refilled demo_sum "alice" e 3
    [OpCheck 2000 2000 2000 "alice" "ls" "a"; OpUpdateConfig 3000 demo_cfg;
     OpCheck 4000 4000 4000 "alice" "cat" "b"; OpCheck 5000 5000 5000 "alice" "rm" "c"] demo_manager E) as HB.
  rewrite E1, E2, E3 in HB. apply HB; [lia|].
  repeat (apply Forall_cons; split; [split; cbn [op_now demo_cfg MaxToolCallsPerSession]; [|try exact I];
    unfold Time.minute, Time.second; lia|]).
  apply Forall_nil. exact I.
Defined.

Lemma retry_storm_refused_witness :
  Allowed (RecordToolCall demo_sum 9 "ls" "{}" (repeatCalls demo_sum 2 Z.of_nat "ls" "{}" (newDoWTracker demo_cfg 0))).1 = false.
Proof. apply retry_storm_refused; [split; vm_compute; reflexivity|vm_compute; discriminate]. Defined.

Lemma concurrent_limit_respected_witness :
  exists s, cs_granted s = 1 /\ 0 <= cs_granted s <= 2.
Proof.
  exists {| cs_t := with_inflight 1 (newDoWTracker demo_cfg 0); cs_pending := []; cs_granted := 1 |}.
  split; [reflexivity|].
  refine (proj1 (concurrent_limit_respected demo_cfg 0 _ _)).
  eapply rtc_l; [apply step_acquire_begin; reflexivity|].
  eapply rtc_l; [apply (step_acquire_end _ [] 1 2 [] 0 allowed); reflexivity|]. apply rtc_refl.
Defined.

(** With a loop detection window no larger than the retry limit, the limit is
    never enforced: the history the loop check counts in cannot hold enough calls. *)
Definition blind_cfg : DoWConfig :=
  {| MaxToolCallsPerSession := 0; MaxConcurrentToolCalls := 0; MaxWallClockMinutes := 0; WindowMinutes := 0;
     MaxRetriesPerTool := 5; LoopDetectionWindow := 5 |}.

Lemma checkLoop_blind cfg calls now tool args (Sum256 : string -> string) :
  0 < LoopDetectionWindow cfg <= MaxRetriesPerTool cfg ->
  Allowed (checkLoop cfg (trimHistory cfg calls) (callEntry Sum256 now tool args)) = true.
Proof.
  intros Hw. unfold checkLoop. case_decide; [done|].
  assert (forall f (l : list toolCallEntry), (length (List.filter f l) <= length l)%nat) as Hf.
  { intros f l. induction l as [|x l IH]; cbn; [lia|]. case_match; cbn; lia. }
  specialize (Hf (sameCall (callEntry Sum256 now tool args)) (trimHistory cfg calls)).
  pose proof (trimHistory_length cfg calls) as Hl. unfold historyWindow in Hl. rewrite decide_True in Hl by lia.
  by rewrite decide_False by lia.
Qed.

Example retry_limit_not_enforced :
  Allowed (RecordToolCall demo_sum 9 "ls" "{}" (repeatCalls demo_sum 50 Z.of_nat "ls" "{}" (newDoWTracker blind_cfg 0))).1 = true.
Proof. vm_compute. reflexivity. Qed.
