(* ===== verification/Chains.v ===== *)
(** * Tool-call chains: classification and pattern matching

    [internal/mcp/chains/classify.go] and [matcher.go]. Clock readings are
    arguments. The class [ChainLib] holds what the code takes from
    [path/filepath], [regexp] and the Unicode tables; metrics are not modelled. *)

From S2P Require Import Prelude GoStrings Config.
Local Open Scope Z_scope.

(** [filepath.Match] with its error read as no match, the two compiled regular
    expressions, and the lower-casing of non-ASCII strings. *)
Class ChainLib := {
  filepath_Match : string -> string -> bool;
  persistArgPattern : string -> bool;
  persistWritePathPattern : string -> bool;
  unicode_lower : string -> string;
}.

(** ** Tables *)

Definition categoryUnknown : string := "unknown".
Definition categoryPersist : string := "persist".
Definition categoryPriority : list string := ["exec"; categoryPersist; "env"; "network"; "write"; "read"; "list"].
Definition toolNameDelimiters : string := "_-.".

Definition categoryKeywords : gmap string (list string) := list_to_map [
  ("read", ["read"; "get"; "view"; "cat"; "head"; "tail"; "open"; "load"; "retrieve"; "access"]);
  ("write", ["write"; "create"; "save"; "update"; "edit"; "modify"; "put"; "append"; "insert"]);
  ("exec", ["shell"; "bash"; "run"; "execute"; "cmd"; "spawn"; "eval"; "sh"; "zsh"; "powershell"]);
  ("network", ["fetch"; "curl"; "wget"; "http"; "request"; "send"; "post"; "upload"; "download"; "api"]);
  ("list", ["list"; "ls"; "dir"; "find"; "glob"; "search"; "scan"; "enumerate"; "walk"]);
  ("env", ["env"; "environ"; "getenv"; "secret"; "credential"; "config"; "token"; "key"; "password"]);
  (categoryPersist, ["crontab"; "cron"; "systemctl"; "systemd"; "launchd"; "launchctl"; "autostart"])].

Definition readIndicatorSegments : list string :=
  ["status"; "list"; "show"; "info"; "describe"; "get"; "view"; "check"; "inspect"; "cat"; "log"; "logs";
   "read"; "query"; "monitor"].

Definition SensitivityUntrustedSource : string := "untrusted_source".
Definition SensitivitySensitiveSource : string := "sensitive_source".
Definition SensitivityExternalSink : string := "external_sink".
Definition SensitivityNeutral : string := "neutral".

Definition sensitivityKeywords : gmap string (list string) := list_to_map [
  (SensitivityUntrustedSource,
    ["issue"; "issues"; "comment"; "comments"; "review"; "reviews"; "webpage"; "scrape"; "browse";
     "chat"; "chats"; "message"; "messages"; "messaging"; "dm"; "dms";
     "email"; "emails"; "inbox"; "ticket"; "tickets"; "feedback"; "public"; "external"; "rss"; "feed"; "feeds"]);
  (SensitivitySensitiveSource,
    ["secret"; "secrets"; "credential"; "credentials"; "token"; "tokens"; "password"; "passwords";
     "private"; "ssh"; "vault"; "env"; "environ"; "getenv";
     "profile"; "billing"; "payroll"; "salary"; "wage"; "phi"; "pii"; "patient"; "ssn"]);
  (SensitivityExternalSink,
    ["send"; "post"; "publish"; "upload"; "share"; "webhook"; "notify"; "alert"; "tweet"; "broadcast"; "announce"])].

Definition sensitivitySubstrings : gmap string (list string) := list_to_map [
  (SensitivityUntrustedSource, ["pull_request_review"; "issue_comment"; "pr_comment"]);
  (SensitivitySensitiveSource,
    ["private_repo"; "private_repos"; "private_repository"; "ssh_key"; "ssh_id_rsa"; "api_key";
     "chat_history"; "message_history"; "conversation_history"]);
  (SensitivityExternalSink,
    ["pull_request"; "create_pull"; "create_issue"; "create_comment"; "post_webhook"; "send_webhook";
     "share_link"; "public_url"])].

Definition sensitivityPriority : list string :=
  [SensitivityExternalSink; SensitivitySensitiveSource; SensitivityUntrustedSource].

(** A missing key of a Go map of slices is the empty slice. *)
Definition entries (m : gmap string (list string)) (k : string) : list string := default [] (m !! k).

(** ** Classification *)

Section classify.
Context {lib : ChainLib}.

Definition lower (s : string) : string := Strings.ToLower unicode_lower s.

Definition splitToolName (name : string) : list string :=
  Strings.FieldsFunc (Strings.ReplacePairs name "_") (fun c => Strings.ContainsByte toolNameDelimiters c).

(** The first label, in priority order, one of whose patterns passes the test. *)
Definition firstLabel (test : string -> bool) (priority : list string) (labels : gmap string (list string)) : option string :=
  List.find (fun label => existsb test (entries labels label)) priority.

Definition matchOverrideWithPriority (toolName : string) (priority : list string)
    (labels : gmap string (list string)) : string :=
  if decide (size labels = 0%nat) then ""
  else match firstLabel (fun pat => bool_decide (pat = toolName)) priority labels with
       | Some label => label
       | None =>
           match firstLabel (fun pat => filepath_Match pat toolName) priority labels with
           | Some label => label
           | None => ""
           end
       end.

Definition classifyByOverride (toolName : string) (categories : gmap string (list string)) : string :=
  matchOverrideWithPriority toolName categoryPriority categories.

Definition hasReadIndicator (segments : list string) : bool :=
  existsb (fun seg => bool_decide (lower seg ∈ readIndicatorSegments)) segments.

(** The loop of [matchByPriority]; the [break] on a persist match of a tool with
    a read indicator goes on with the next segment. *)
Definition matchByPriority (segments : list string) : string :=
  default categoryUnknown
    (List.find (fun category =>
       existsb (fun seg =>
         bool_decide (lower seg ∈ entries categoryKeywords category) &&
         negb (bool_decide (category = categoryPersist) && hasReadIndicator segments)) segments)
       categoryPriority).

Definition classifyTool (toolName : string) (cfg : ToolChainDetection) : string :=
  if decide (toolName = "") then categoryUnknown
  else
    let cat := classifyByOverride toolName (tcd_ToolCategories cfg) in
    if decide (cat <> "") then cat else matchByPriority (splitToolName toolName).

Definition reclassifyByArgs (category argHint : string) : string :=
  if decide (argHint = "") then category
  else if decide (category = "exec") then (if persistArgPattern argHint then categoryPersist else category)
  else if decide (category = "write") then (if persistWritePathPattern argHint then categoryPersist else category)
  else category.

Definition emptyConfig : ToolChainDetection :=
  {| tcd_Enabled := false; tcd_Action := ""; tcd_WindowSize := 0; tcd_WindowSeconds := 0; tcd_MaxGap := None;
     tcd_ToolCategories := ∅; tcd_PatternOverrides := ∅; tcd_CustomPatterns := []; tcd_SensitivityLabels := ∅ |}.

Definition ClassifyTool (toolName argHint : string) (cfg : option ToolChainDetection) : string :=
  reclassifyByArgs (classifyTool toolName (default emptyConfig cfg)) argHint.

Definition classifySensitivityByOverride (toolName : string) (labels : gmap string (list string)) : string :=
  matchOverrideWithPriority toolName sensitivityPriority labels.

Definition matchSensitivityByPriority (segments : list string) : string :=
  default SensitivityNeutral
    (List.find (fun label =>
       existsb (fun seg => bool_decide (lower seg ∈ entries sensitivityKeywords label)) segments)
       sensitivityPriority).

Definition ClassifySensitivity (toolName argHint : string) (cfg : option ToolChainDetection) : string :=
  if decide (toolName = "") then SensitivityNeutral
  else
    let cfg := default emptyConfig cfg in
    let lbl := classifySensitivityByOverride toolName (tcd_SensitivityLabels cfg) in
    if decide (lbl <> "") then lbl
    else
      let segments := splitToolName toolName in
      let lbl := matchSensitivityByPriority segments in
      if decide (lbl <> SensitivityNeutral) then lbl
      else
        let joined := lower (Strings.Join segments "_") in
        default SensitivityNeutral
          (List.find (fun label => existsb (Strings.Contains joined) (entries sensitivitySubstrings label))
             sensitivityPriority).

(** ** The matcher *)

Definition maxTrackedSessions : Z := 4096.
Definition maxSessionKeyBytes : nat := 256.

Record Verdict := {
  Matched : bool;
  PatternName : string;
  Severity : string;
  v_Action : string;
}.

Definition noMatch : Verdict := {| Matched := false; PatternName := ""; Severity := ""; v_Action := "" |}.

Record pattern := {
  p_name : string;
  p_sequence : list string;
  p_severity : string;
  p_action : string;
}.

Record toolCallRecord := {
  r_category : string;
  r_name : string;
  r_sensitivity : string;
  r_timestamp : Z;
}.

(** The session count is a counter of its own, next to the map. *)
Record Matcher := {
  m_cfg : ToolChainDetection;
  m_patterns : list pattern;
  m_sessions : gmap string (list toolCallRecord);
  m_sessionCount : Z;
}.

Definition builtin (name : string) (sequence : list string) (severity : string) : pattern :=
  {| p_name := name; p_sequence := sequence; p_severity := severity; p_action := "warn" |}.

Definition builtInPatterns : list pattern := [
  builtin "read-then-exec" ["read"; "exec"] "high";
  builtin "read-write-send" ["read"; "write"; "network"] "critical";
  builtin "env-then-network" ["env"; "network"] "critical";
  builtin "directory-scan" ["list"; "list"; "read"] "medium";
  builtin "write-execute" ["write"; "exec"] "high";
  builtin "write-chmod-execute" ["write"; "exec"; "exec"] "critical";
  builtin "read-sensitive-write" ["read"; "write"] "medium";
  builtin "shell-burst" ["exec"; "exec"; "exec"; "exec"] "high";
  builtin "write-persist" ["write"; "persist"] "critical";
  builtin "persist-callback" ["persist"; "network"] "critical"].

Definition lethalTrifectaName : string := "lethal-trifecta".
Definition lethalTrifectaSequence : list string :=
  [SensitivityUntrustedSource; SensitivitySensitiveSource; SensitivityExternalSink].

(** A missing key of the rank maps is zero. *)
Definition severityRank (s : string) : Z :=
  if decide (s = "medium") then 1 else if decide (s = "high") then 2 else if decide (s = "critical") then 3 else 0.
Definition actionRank (s : string) : Z :=
  if decide (s = "warn") then 1 else if decide (s = "block") then 2 else 0.

Definition with_action (action : string) (p : pattern) : pattern :=
  {| p_name := p_name p; p_sequence := p_sequence p; p_severity := p_severity p; p_action := action |}.

Definition override (cfg : ToolChainDetection) (p : pattern) : pattern :=
  match tcd_PatternOverrides cfg !! p_name p with
  | Some action => with_action action p
  | None => p
  end.

Definition compilePatterns (cfg : ToolChainDetection) : list pattern :=
  if negb (tcd_Enabled cfg) then []
  else (override cfg <$> builtInPatterns) ++
       ((fun cp =>
           override cfg {| p_name := cp_Name cp; p_sequence := cp_Sequence cp; p_severity := cp_Severity cp;
                           p_action := if decide (cp_Action cp = "") then tcd_Action cfg else cp_Action cp |})
          <$> tcd_CustomPatterns cfg).

Definition New (cfg : option ToolChainDetection) : Matcher :=
  let cfg := default emptyConfig cfg in
  {| m_cfg := cfg; m_patterns := compilePatterns cfg; m_sessions := ∅; m_sessionCount := 0 |}.

Definition Reconfigure (cfg : option ToolChainDetection) (m : Matcher) : Matcher :=
  let cfg := default emptyConfig cfg in
  {| m_cfg := cfg; m_patterns := compilePatterns cfg; m_sessions := m_sessions m; m_sessionCount := m_sessionCount m |}.

Inductive axis := axisCategory | axisSensitivity.

Definition recordField (a : axis) (r : toolCallRecord) : string :=
  match a with axisSensitivity => r_sensitivity r | axisCategory => r_category r end.

(** The loop of [matchFromPositionOnAxis] over the fields that follow the start:
    [sequence] are the steps left to match. *)
Fixpoint matchRest (fields sequence : list string) (gap maxGap : Z) : bool :=
  match sequence, fields with
  | [], _ => true
  | _, [] => false
  | step :: sequence', field :: fields' =>
      if decide (field = step) then matchRest fields' sequence' 0 maxGap
      else if decide (gap + 1 > maxGap) then false
      else matchRest fields' sequence (gap + 1) maxGap
  end.

(** The starting positions are tried in turn. *)
Fixpoint subsequenceFields (fields sequence : list string) (maxGap : Z) : bool :=
  match fields, sequence with
  | [], _ | _, [] => false
  | field :: fields', step :: sequence' =>
      (bool_decide (field = step) && matchRest fields' sequence' 0 maxGap)
      || subsequenceFields fields' sequence maxGap
  end.

Definition subsequenceMatchOnAxis (records : list toolCallRecord) (sequence : list string) (maxGap : Z) (a : axis) : bool :=
  subsequenceFields (recordField a <$> records) sequence maxGap.

Definition subsequenceMatch (records : list toolCallRecord) (sequence : list string) (maxGap : Z) : bool :=
  subsequenceMatchOnAxis records sequence maxGap axisCategory.

Definition sensitivitySubsequenceMatch (records : list toolCallRecord) (sequence : list string) (maxGap : Z) : bool :=
  subsequenceMatchOnAxis records sequence maxGap axisSensitivity.

Definition isBetterMatch (p : pattern) (best : Verdict) : bool :=
  let ps := severityRank (p_severity p) in
  let bs := severityRank (Severity best) in
  if decide (ps <> bs) then bool_decide (ps > bs)
  else bool_decide (actionRank (p_action p) > actionRank (v_Action best)).

Definition verdictOf (p : pattern) : Verdict :=
  {| Matched := true; PatternName := p_name p; Severity := p_severity p; v_Action := p_action p |}.

(** One candidate of [matchPatterns] against the best verdict so far. *)
Definition consider (best : Verdict) (p : pattern) : Verdict :=
  if negb (Matched best) || isBetterMatch p best then verdictOf p else best.

Definition trifectaPattern (cfg : ToolChainDetection) : pattern :=
  let action := if decide (tcd_Action cfg = "") then "warn" else tcd_Action cfg in
  {| p_name := lethalTrifectaName; p_sequence := lethalTrifectaSequence; p_severity := "critical";
     p_action := default action (tcd_PatternOverrides cfg !! lethalTrifectaName) |}.

Definition maxGapOf (cfg : ToolChainDetection) : Z := default DefaultMaxGap (tcd_MaxGap cfg).

Definition matchPatterns (records : list toolCallRecord) (cfg : ToolChainDetection) (patterns : list pattern) : Verdict :=
  let maxGap := maxGapOf cfg in
  let best := foldl (fun best p => if subsequenceMatch records (p_sequence p) maxGap then consider best p else best)
                noMatch patterns in
  if sensitivitySubsequenceMatch records lethalTrifectaSequence maxGap
  then consider best (trifectaPattern cfg) else best.

Definition cutoff (now : Z) (cfg : ToolChainDetection) : Z := Time.add now (Time.seconds (- tcd_WindowSeconds cfg)).

(** The records from the first one that is not before the cutoff. *)
Fixpoint dropExpired (cut : Z) (records : list toolCallRecord) : list toolCallRecord :=
  match records with
  | [] => []
  | r :: records' => if decide (r_timestamp r < cut) then dropExpired cut records' else records
  end.

(** [evict]; [None] is the panic of slicing with a negative window size. *)
Definition evict (records : list toolCallRecord) (now : Z) (cfg : ToolChainDetection) : option (list toolCallRecord) :=
  let records := dropExpired (cutoff now cfg) records in
  let len := Z.of_nat (length records) in
  if decide (len > tcd_WindowSize cfg) then
    let excess := len - tcd_WindowSize cfg in
    if decide (excess > len) then None else Some (drop (Z.to_nat excess) records)
  else Some records.

Definition with_sessions (sessions : gmap string (list toolCallRecord)) (count : Z) (m : Matcher) : Matcher :=
  {| m_cfg := m_cfg m; m_patterns := m_patterns m; m_sessions := sessions; m_sessionCount := count |}.

Definition ClearSession (sessionKey : string) (m : Matcher) : Matcher :=
  match m_sessions m !! sessionKey with
  | Some _ => with_sessions (delete sessionKey (m_sessions m)) (m_sessionCount m - 1) m
  | None => m
  end.

Definition expiredSession (cut : Z) (records : list toolCallRecord) : bool :=
  match last records with
  | Some r => bool_decide (r_timestamp r < cut)
  | None => false
  end.

Definition pruneExpiredSessionsWithConfig (now : Z) (cfg : ToolChainDetection) (m : Matcher) : Matcher :=
  let live := filter (fun kr => expiredSession (cutoff now cfg) kr.2 = false) (m_sessions m) in
  with_sessions live (m_sessionCount m - Z.of_nat (size (m_sessions m) - size live)) m.

Definition resourceLimitVerdict (pattern : string) : Verdict :=
  {| Matched := true; PatternName := pattern; Severity := "critical"; v_Action := "block" |}.

(** [sessions.LoadOrStore] with the accounting of a new session: [None] is the
    capacity refusal. *)
Definition openSession (now : Z) (sessionKey : string) (cfg : ToolChainDetection) (m : Matcher) : option (list toolCallRecord) * Matcher :=
  match m_sessions m !! sessionKey with
  | Some records => (Some records, m)
  | None =>
      let count := m_sessionCount m + 1 in
      let m := with_sessions (<[sessionKey := []]> (m_sessions m)) count m in
      let m := if decide (count mod 256 = 0 \/ count > maxTrackedSessions)
               then pruneExpiredSessionsWithConfig now cfg m else m in
      if decide (m_sessionCount m > maxTrackedSessions) then (None, ClearSession sessionKey m)
      else (Some [], m)
  end.

(** [Record]; [argHint] is absent or one string, [now] and [now'] the readings of
    the pruning and of the record. [None] is the panic of [evict]. *)
Definition Record_ (now now' : Z) (sessionKey toolName : string) (argHint : option string) (m : Matcher)
    : option (Verdict * Matcher) :=
  let cfg := m_cfg m in
  if negb (tcd_Enabled cfg) || bool_decide (m_patterns m = []) then Some (noMatch, m)
  else
    let category := classifyTool toolName cfg in
    let category := match argHint with Some a => reclassifyByArgs category a | None => category end in
    let sensitivity := ClassifySensitivity toolName (default "" argHint) (Some cfg) in
    if decide (category = categoryUnknown /\ sensitivity = SensitivityNeutral) then Some (noMatch, m)
    else if decide (String.length sessionKey = 0 \/ maxSessionKeyBytes < String.length sessionKey)%nat
    then Some (resourceLimitVerdict "session-key-invalid", m)
    else
      match openSession now sessionKey cfg m with
      | (None, m) => Some (resourceLimitVerdict "session-capacity", m)
      | (Some records, m) =>
          let records := records ++ [{| r_category := category; r_name := toolName;
                                        r_sensitivity := sensitivity; r_timestamp := now' |}] in
          records ← evict records now' cfg;
          Some (matchPatterns records cfg (m_patterns m),
                with_sessions (<[sessionKey := records]> (m_sessions m)) (m_sessionCount m) m)
      end.

(** ** What a match is *)

(** The steps occur in order, each at most [maxGap] records after the one before. *)
Inductive follows (maxGap : Z) : list string -> list string -> Prop :=
| follows_nil fields : follows maxGap [] fields
| follows_cons step sequence pre fields :
    Z.of_nat (length pre) <= maxGap -> follows maxGap sequence fields ->
    follows maxGap (step :: sequence) (pre ++ step :: fields).

(** The same, where each step is matched by its first occurrence. *)
Inductive follows_first (maxGap : Z) : list string -> list string -> Prop :=
| ff_nil fields : follows_first maxGap [] fields
| ff_cons step sequence pre fields :
    step ∉ pre -> Z.of_nat (length pre) <= maxGap -> follows_first maxGap sequence fields ->
    follows_first maxGap (step :: sequence) (pre ++ step :: fields).

Lemma follows_first_follows maxGap sequence fields : follows_first maxGap sequence fields -> follows maxGap sequence fields.
Proof. induction 1; by constructor. Qed.

Lemma matchRest_first maxGap fields sequence gap :
  0 <= gap <= maxGap ->
  matchRest fields sequence gap maxGap = true <->
  match sequence with
  | [] => True
  | step :: sequence' =>
      exists pre fields', fields = pre ++ step :: fields' /\ step ∉ pre /\
        gap + Z.of_nat (length pre) <= maxGap /\ follows_first maxGap sequence' fields'
  end.
Proof.
  revert sequence gap. induction fields as [|field fields IH]; intros [|step sequence] gap Hg; cbn [matchRest]; try done.
  - split; [done|]. intros (pre & fields' & H & _). by destruct pre.
  - case_decide as Hd.
    + subst field. rewrite IH by lia. split.
      * intros HR. exists [], fields. split_and!; [done|apply not_elem_of_nil|cbn; lia|].
        destruct sequence as [|step' sequence]; [constructor|].
        destruct HR as (pre & fields' & -> & H1 & H2 & H3). by constructor.
      * intros (pre & fields' & Hf & Hn & _ & HF). destruct pre as [|x pre].
        -- injection Hf as ->. destruct HF as [|step' seq' pre fs H1 H2 H3]; [done|]. by exists pre, fs.
        -- injection Hf as <- _. destruct Hn. left.
    + destruct (decide (gap + 1 > maxGap)) as [Hm|Hm].
      * split; [done|]. intros (pre & fields' & Hf & Hn & Hl & _). destruct pre as [|x pre].
        -- by injection Hf.
        -- cbn [length] in Hl. lia.
      * rewrite IH by lia. split.
        -- intros (pre & fields' & -> & Hn & Hl & HF). exists (field :: pre), fields'.
           split_and!; [done| |cbn [length]; lia|done]. rewrite elem_of_cons. naive_solver.
        -- intros (pre & fields' & Hf & Hn & Hl & HF). destruct pre as [|x pre]; [by injection Hf|].
           injection Hf as -> ->. exists pre, fields'. rewrite elem_of_cons in Hn. cbn [length] in Hl.
           split_and!; [done|naive_solver|lia|done].
Qed.

Lemma matchRest_follows_first maxGap fields sequence :
  0 <= maxGap -> matchRest fields sequence 0 maxGap = true <-> follows_first maxGap sequence fields.
Proof.
  intros Hm. rewrite matchRest_first by lia. destruct sequence as [|step sequence].
  - split; [intros; constructor|done].
  - split.
    + intros (pre & fields' & -> & H1 & H2 & H3). by constructor.
    + inversion 1; subst. eauto 6.
Qed.

(** The matcher finds exactly the greedy occurrences of a sequence: some
    record matches the first step, and from there each next step is matched by
    its first later occurrence, with at most [maxGap] records in between. So a
    match is always a genuine occurrence within the gaps; and for a sequence of
    two steps, as most built-in patterns are, no occurrence is missed. *)
Theorem subsequenceMatch_spec records step sequence maxGap a :
  0 <= maxGap ->
  let fields := recordField a <$> records in
  (subsequenceMatchOnAxis records (step :: sequence) maxGap a = true <->
   exists pre rest, fields = pre ++ step :: rest /\ follows_first maxGap sequence rest) /\
  (subsequenceMatchOnAxis records (step :: sequence) maxGap a = true ->
   exists pre rest, fields = pre ++ step :: rest /\ follows maxGap sequence rest) /\
  ((length sequence <= 1)%nat ->
   (exists pre rest, fields = pre ++ step :: rest /\ follows maxGap sequence rest) ->
   subsequenceMatchOnAxis records (step :: sequence) maxGap a = true).
Proof.
  intros Hm fields. unfold subsequenceMatchOnAxis. fold fields.
  assert (subsequenceFields fields (step :: sequence) maxGap = true <->
    exists pre rest, fields = pre ++ step :: rest /\ follows_first maxGap sequence rest) as HE.
  { induction fields as [|f fields IH]; cbn [subsequenceFields].
    - split; [done|]. intros ([|] & rest & H & _); done.
    - rewrite orb_true_iff, andb_true_iff, bool_decide_eq_true, matchRest_follows_first, IH by done. split.
      + intros [[-> HF]|(pre & rest & -> & HF)]; [by exists [], fields|by exists (f :: pre), rest].
      + intros (pre & rest & Hf & HF). destruct pre as [|x pre]; injection Hf as -> ->; [by left|right; eauto]. }
  split; [exact HE|]. split.
  - intros H. apply HE in H as (pre & rest & -> & HF). eauto using follows_first_follows.
  - intros Hl (pre & rest & -> & HF). apply HE. exists pre, rest. split; [done|].
    destruct HF as [fields'|step' seq' pre' fields' Hp HF]; [constructor|].
    destruct seq' as [|? ?]; [|cbn in Hl; lia].
    destruct (list_find (.= step') (pre' ++ step' :: fields')) as [[i x]|] eqn:E.
    + apply list_find_Some in E as (Hi & -> & Hfirst).
      rewrite <- (take_drop_middle _ _ _ Hi). constructor; [|..|constructor].
      * intros (j & Hj)%list_elem_of_lookup. apply lookup_take_Some in Hj as [Hj Hlt]. by eapply Hfirst.
      * assert (i <= length pre')%nat as Hle.
        { destruct (Nat.le_gt_cases i (length pre')) as [|Hgt]; [done|]. exfalso.
          eapply (Hfirst (length pre') step'); [|done|done]. by rewrite list_lookup_middle. }
        rewrite length_take. lia.
    + apply list_find_None in E. rewrite Forall_app, Forall_cons in E. naive_solver.
Qed.

(** An occurrence the greedy search misses: the second step occurs twice, and
    only its later occurrence is close enough to the third step. *)
Example greedy_misses :
  let call c := {| r_category := c; r_name := ""; r_sensitivity := SensitivityNeutral; r_timestamp := 0 |} in
  let records := call <$> ["read"; "write"; "list"; "write"; "list"; "list"; "list"; "network"] in
  subsequenceMatch records ["read"; "write"; "network"] DefaultMaxGap = false /\
  follows DefaultMaxGap ["write"; "network"] (tail (recordField axisCategory <$> records)).
Proof.
  cbv zeta. split; [vm_compute; reflexivity|]. cbn.
  apply (follows_cons _ "write" ["network"] ["write"; "list"]); [done|].
  apply (follows_cons _ "network" [] ["list"; "list"; "list"]); [done|]. constructor.
Qed.

(** ** The best verdict *)

Definition rank (severity action : string) : Z * Z := (severityRank severity, actionRank action).
Definition pattern_rank (p : pattern) : Z * Z := rank (p_severity p) (p_action p).
Definition verdict_rank (v : Verdict) : Z * Z := rank (Severity v) (v_Action v).

(** Severity first, then strictness. *)
Definition rank_lt (a b : Z * Z) : Prop := a.1 < b.1 \/ (a.1 = b.1 /\ a.2 < b.2).

Lemma isBetterMatch_spec p v : isBetterMatch p v = true <-> rank_lt (verdict_rank v) (pattern_rank p).
Proof.
  unfold isBetterMatch, rank_lt, verdict_rank, pattern_rank, rank. cbn. case_decide; rewrite bool_decide_eq_true; lia.
Qed.

(** The candidates of [matchPatterns], in the order it looks at them. *)
Definition candidates (records : list toolCallRecord) (cfg : ToolChainDetection) (patterns : list pattern) : list pattern :=
  List.filter (fun p => subsequenceMatch records (p_sequence p) (maxGapOf cfg)) patterns ++
  (if sensitivitySubsequenceMatch records lethalTrifectaSequence (maxGapOf cfg) then [trifectaPattern cfg] else []).

Lemma matchPatterns_candidates records cfg patterns :
  matchPatterns records cfg patterns = foldl consider noMatch (candidates records cfg patterns).
Proof.
  unfold matchPatterns, candidates. rewrite foldl_app.
  assert (forall best, foldl (fun best p => if subsequenceMatch records (p_sequence p) (maxGapOf cfg) then consider best p else best) best patterns
    = foldl consider best (List.filter (fun p => subsequenceMatch records (p_sequence p) (maxGapOf cfg)) patterns)) as ->.
  { induction patterns as [|p ps IH]; intros best; [done|]. cbn. rewrite IH. by case_match. }
  by case_match.
Qed.

Definition best_of (ps : list pattern) (v : Verdict) : Prop :=
  (ps = [] /\ v = noMatch) \/
  (exists p, p ∈ ps /\ v = verdictOf p /\ forall q, q ∈ ps -> ~ rank_lt (pattern_rank p) (pattern_rank q)).

Lemma consider_best ps v p : best_of ps v -> best_of (ps ++ [p]) (consider v p).
Proof.
  intros [[-> ->]|(b & Hb & -> & Hmax)]; right.
  - exists p. split_and!; [left|done|]. intros q ->%list_elem_of_singleton. unfold rank_lt. lia.
  - unfold consider. cbn [Matched verdictOf negb orb].
    destruct (isBetterMatch p (verdictOf b)) eqn:E.
    + apply isBetterMatch_spec in E. change (verdict_rank (verdictOf b)) with (pattern_rank b) in E.
      exists p. split_and!; [apply elem_of_app; right; left|done|].
      intros q [Hq| ->%list_elem_of_singleton]%elem_of_app; [|unfold rank_lt; lia].
      specialize (Hmax q Hq). unfold rank_lt in *. lia.
    + exists b. split_and!; [by apply elem_of_app; left|done|].
      intros q [Hq| ->%list_elem_of_singleton]%elem_of_app; [by apply Hmax|].
      change (pattern_rank b) with (verdict_rank (verdictOf b)). rewrite <- isBetterMatch_spec, E. done.
Qed.

(** The verdict is the most severe of the patterns that match, and the
    strictest action among those of that severity, whatever the order of the
    patterns: no match is reported only when neither a pattern nor the lethal
    trifecta matches, and a warn-only pattern never hides a blocking one of the
    same severity, nor a lesser pattern a critical one. *)
Theorem matchPatterns_best records cfg patterns :
  best_of (candidates records cfg patterns) (matchPatterns records cfg patterns).
Proof.
  rewrite matchPatterns_candidates. generalize (candidates records cfg patterns). intros ps.
  induction ps as [|p ps IH] using rev_ind; [by left|]. rewrite foldl_snoc. by apply consider_best.
Qed.

(** ** Bounds *)

Record matcher_inv (m : Matcher) : Prop := {
  mi_count : m_sessionCount m = Z.of_nat (size (m_sessions m));
  mi_capacity : m_sessionCount m <= maxTrackedSessions;
}.

Lemma prune_count now cfg m :
  m_sessionCount m = Z.of_nat (size (m_sessions m)) ->
  let m' := pruneExpiredSessionsWithConfig now cfg m in
  m_sessionCount m' = Z.of_nat (size (m_sessions m')) /\ m_sessionCount m' <= m_sessionCount m /\
  (forall k, m_sessions m !! k = Some [] -> m_sessions m' !! k = Some []).
Proof.
  intros Hc. cbn. set (live := filter _ (m_sessions m)).
  assert (size live <= size (m_sessions m))%nat by apply map_subseteq_size, map_filter_subseteq.
  split_and!; [lia|lia|]. intros k Hk. by apply map_lookup_filter_Some.
Qed.

Lemma ClearSession_inv sessionKey m :
  m_sessionCount m = Z.of_nat (size (m_sessions m)) ->
  let m' := ClearSession sessionKey m in
  m_sessionCount m' = Z.of_nat (size (m_sessions m')) /\ m_sessions m' !! sessionKey = None /\
  (is_Some (m_sessions m !! sessionKey) -> m_sessionCount m' = m_sessionCount m - 1).
Proof.
  intros Hc. unfold ClearSession. cbv zeta. destruct (m_sessions m !! sessionKey) as [rs|] eqn:E.
  - cbn. pose proof (map_size_delete_Some sessionKey (m_sessions m)) as Hs. rewrite Hs by done.
    assert (size (m_sessions m) <> 0%nat) by (intros Hz; apply map_size_empty_inv in Hz; by rewrite Hz in E).
    split_and!; [lia|apply lookup_delete_eq|done].
  - split_and!; [done|done|]. by intros [].
Qed.

(** What opening a session does: the counter stays right, the capacity holds, and
    an admitted session is in the map. *)
Lemma openSession_inv now sessionKey cfg m :
  matcher_inv m ->
  let '(r, m') := openSession now sessionKey cfg m in
  matcher_inv m' /\ m_cfg m' = m_cfg m /\ m_patterns m' = m_patterns m /\
  match r with Some records => m_sessions m' !! sessionKey = Some records | None => True end.
Proof.
  intros [Hc Hm]. unfold openSession. destruct (m_sessions m !! sessionKey) as [rs|] eqn:E; [done|].
  set (m1 := with_sessions _ _ m).
  assert (m_sessionCount m1 = Z.of_nat (size (m_sessions m1))) as Hc1.
  { cbn. rewrite map_size_insert_None by done. lia. }
  assert (m_sessions m1 !! sessionKey = Some []) as H1 by apply lookup_insert_eq.
  set (m2 := if decide _ then _ else m1).
  assert (m_sessionCount m2 = Z.of_nat (size (m_sessions m2)) /\ m_sessionCount m2 <= maxTrackedSessions + 1 /\
    m_sessions m2 !! sessionKey = Some [] /\ m_cfg m2 = m_cfg m /\ m_patterns m2 = m_patterns m) as (Hc2 & Hl2 & H2 & E1 & E2).
  { destruct (prune_count now cfg m1 Hc1) as (P1 & P2 & P3).
    assert (m_sessionCount m1 <= maxTrackedSessions + 1) by (cbn; lia).
    unfold m2. case_decide; [|split_and!; done]. split_and!; [done|lia|by apply P3|done|done]. }
  clearbody m2. destruct (ClearSession_inv sessionKey m2 Hc2) as (C1 & C2 & C3).
  case_decide; [|split_and!; [split; [done|lia]|done..]].
  split_and!; [split; [done|rewrite C3 by eauto; lia]|..|done].
  - unfold ClearSession. rewrite H2. done.
  - unfold ClearSession. rewrite H2. done.
Qed.

Lemma dropExpired_spec cut records :
  exists k, dropExpired cut records = drop k records /\
    match dropExpired cut records with r :: _ => cut <= r_timestamp r | [] => True end.
Proof.
  induction records as [|r rs [k [E IH]]]; [by exists 0%nat|]. cbn. case_decide.
  - exists (S k). split; [exact E|exact IH].
  - exists 0%nat. split; [done|lia].
Qed.

Lemma evict_total records now cfg : 0 <= tcd_WindowSize cfg -> is_Some (evict records now cfg).
Proof. intros Hw. unfold evict. case_decide; [|by eexists]. case_decide; [lia|by eexists]. Qed.

Lemma evict_bounds records now cfg rs :
  evict records now cfg = Some rs -> 0 <= tcd_WindowSize cfg ->
  Z.of_nat (length rs) <= tcd_WindowSize cfg /\ exists k, rs = drop k records.
Proof.
  unfold evict. intros HE Hw. destruct (dropExpired_spec (cutoff now cfg) records) as (k & E & _).
  case_decide; [case_decide; [done|]|]; injection HE as <-.
  - rewrite length_drop. split; [lia|]. rewrite E, drop_drop. eauto.
  - split; [lia|]. rewrite E. eauto.
Qed.

(** The matcher's memory is bounded and its count is exact. With a
    non-negative window size, [Record] never panics; it keeps the session
    counter equal to the number of sessions, never above 4096; and the history
    of the session it recorded in has at most [window_size] records. *)
Theorem Record_bounded now now' sessionKey toolName argHint m :
  matcher_inv m -> 0 <= tcd_WindowSize (m_cfg m) ->
  exists v m', Record_ now now' sessionKey toolName argHint m = Some (v, m') /\
    matcher_inv m' /\ m_cfg m' = m_cfg m /\
    (v <> resourceLimitVerdict "session-key-invalid" -> v <> resourceLimitVerdict "session-capacity" ->
     m' = m \/ exists rs, m_sessions m' !! sessionKey = Some rs /\ Z.of_nat (length rs) <= tcd_WindowSize (m_cfg m)).
Proof.
  intros Hi Hw. unfold Record_. case_match; [eexists _, m; split_and!; auto|]. cbv zeta.
  set (category := match argHint with Some a => _ | None => _ end). case_decide; [eexists _, m; split_and!; auto|].
  case_decide; [eexists _, m; split_and!; auto|].
  pose proof (openSession_inv now sessionKey (m_cfg m) m Hi) as HO.
  destruct (openSession now sessionKey (m_cfg m) m) as [[records|] m1]; destruct HO as ([O1 O2] & O3 & O4 & O5).
  2: { eexists _, m1. split_and!; [done|by split|done|]. done. }
  match goal with |- context [evict ?a ?b ?c] =>
    destruct (evict_total a b c Hw) as [rs Hrs]; rewrite Hrs; pose proof (evict_bounds a b c rs Hrs Hw) as [Hb _] end.
  cbn [mbind option_bind]. eexists _, _. split; [done|]. split_and!; [|done|].
  - split; cbn [with_sessions m_sessionCount m_sessions]; [|done]. by rewrite map_size_insert_Some by eauto.
  - intros _ _. right. exists rs. split; [apply lookup_insert_eq|done].
Qed.
End classify.

(** ** Concrete runs *)

#[local] Instance demo_lib : ChainLib :=
  {| filepath_Match p s := bool_decide (p = s); persistArgPattern s := Strings.Contains s "crontab -e";
     persistWritePathPattern s := Strings.Contains s "/etc/cron"; unicode_lower s := s |}.

Definition demo_chain_cfg : ToolChainDetection :=
  {| tcd_Enabled := true; tcd_Action := "block"; tcd_WindowSize := 20; tcd_WindowSeconds := 60; tcd_MaxGap := None;
     tcd_ToolCategories := ∅; tcd_PatternOverrides := ∅; tcd_CustomPatterns := []; tcd_SensitivityLabels := ∅ |}.

Definition demo_call (c : string) : toolCallRecord :=
  {| r_category := c; r_name := ""; r_sensitivity := SensitivityNeutral; r_timestamp := 0 |}.

Lemma subsequenceMatch_spec_witness :
  subsequenceMatchOnAxis (demo_call <$> ["env"; "list"; "network"]) ["env"; "network"] 3 axisCategory = true.
Proof.
  apply (proj2 (proj2 (subsequenceMatch_spec (demo_call <$> ["env"; "list"; "network"]) "env" ["network"] 3 axisCategory
    ltac:(lia)))); [reflexivity|].
  exists [], ["list"; "network"]. split; [reflexivity|].
  apply (follows_cons 3 "network" [] ["list"] []); [vm_compute; discriminate|constructor].
Defined.

Definition demo_matcher : Matcher :=
  default (New None) (snd <$> Record_ 0 0 "s" "getenv" None (New (Some demo_chain_cfg))).

Lemma demo_matcher_inv : matcher_inv demo_matcher.
Proof. split; vm_compute; [reflexivity|discriminate]. Qed.

Lemma Record_bounded_witness :
  exists v m', Record_ 1 1 "s" "http_post" None demo_matcher = Some (v, m') /\ matcher_inv m' /\
    PatternName v = "env-then-network".
Proof.
  destruct (Record_bounded 1 1 "s" "http_post" None demo_matcher demo_matcher_inv) as (v & m' & H1 & H2 & _);
    [vm_compute; discriminate|].
  exists v, m'. split; [exact H1|]. split; [exact H2|].
  vm_compute in H1. injection H1 as <- _. reflexivity.
Defined.

Example classify_examples :
  (fun t => ClassifyTool t "" None) <$> ["mcp__fs__read_file"; "systemctl_enable"; "systemctl_status"; "run_shell"; "foo"]
  = ["read"; "persist"; "unknown"; "exec"; "unknown"] /\
  ClassifyTool "bash" "crontab -e" None = "persist" /\
  ClassifySensitivity "create-pull-request" "" None = SensitivityExternalSink.
Proof. vm_compute. auto. Qed.
