(* ===== verification/Receipt.v ===== *)
(** * Signed receipts

    [internal/receipt/action.go], [receipt.go], [session_control.go] and
    [rotation_endorsement.go]: the action record, its validation, the signature
    check of a receipt, the session-control payloads with the bound genesis, and
    the retiring key's endorsement of its successor. SHA-256, Ed25519, the JSON
    encoder and the time parser are arguments. *)

From S2P Require Import Prelude GoStrings Taint.
Local Open Scope Z_scope.

(** ** What the code takes from the standard library's cryptography and encoders *)

(** [sum256] is [sha256.Sum256]; [ed25519_Verify pub msg sig] is [ed25519.Verify];
    [quote] is the [%q] verb; [hexError] is the text of a [hex.DecodeString] error;
    [unicode_lower] is [strings.ToLower] on strings that are not ASCII. *)
Class CryptoLib := {
  sum256 : string -> string;
  ed25519_Verify : string -> string -> string -> bool;
  quote : string -> string;
  hexError : string -> string;
  unicode_lower : string -> string;
}.

Definition PublicKeySize : nat := 32.
Definition SignatureSize : nat := 64.
Definition sha256Size : nat := 32.

(** ** Data *)

Record KeyTransition := {
  kt_PriorSignerKey : string;
  kt_PriorChainSeq : Z;
  kt_PriorChainHash : string;
}.

Record RedactionSummary := {
  rs_Profile : string;
  rs_Provider : string;
  rs_Parser : string;
  rs_TotalRedactions : Z;
  rs_ByClass : gmap string Z;
  rs_CacheBoundaryKept : bool;
}.

Record ShieldSummary := {
  ss_Pipeline : string;
  ss_TotalRewrites : Z;
  ss_ExtensionProbes : Z;
  ss_TrackingBeacons : Z;
  ss_AgentTraps : Z;
  ss_FingerprintShimInjected : bool;
  ss_SVGForeignObjects : Z;
  ss_SVGEventHandlers : Z;
  ss_SVGExternalReferences : Z;
  ss_SVGHiddenText : Z;
  ss_SVGAnimationInjections : Z;
  ss_BodyBytes : Z;
  ss_ScannedBytes : Z;
  ss_Partial : bool;
  ss_AdaptiveSignalsRecorded : Z;
  ss_AdaptiveSignalMaxPerBody : Z;
}.

Record SessionOpen := {
  so_RunNonce : string;
  so_OpenNonce : string;
  so_RecorderSession : string;
  so_PolicyHash : string;
  so_SignerKeyEpoch : string;
  so_HeartbeatSeconds : Z;
  so_ChainOpenSeq : Z;
  so_PriorChainHead : string;
  so_PriorChainSeq : Z;
  so_GenesisHash : string;
  so_GenesisAnchorHead : string;
  so_GenesisAnchorLog : string;
  so_PostureCapsuleSHA256 : string;
  so_PostureSignerKeyID : string;
  so_ContainmentNonce : string;
  so_ContainedUID : string;
}.

Record SessionHeartbeat := {
  sh_RunNonce : string;
  sh_OpenNonce : string;
  sh_Beat : Z;
  sh_ChainHead : string;
  sh_ChainSeqHead : Z;
  sh_HeartbeatTime : string;
  sh_FsyncErrorsGated : Z;
  sh_DurabilityBlocks : Z;
}.

Record SessionClose := {
  sc_RunNonce : string;
  sc_OpenNonce : string;
  sc_FinalSeq : Z;
  sc_RootHash : string;
  sc_ReceiptCount : Z;
  sc_CloseReason : string;
  sc_FsyncErrorsGated : Z;
  sc_DurabilityBlocks : Z;
}.

Definition SessionControlOpen : string := "session_open".
Definition SessionControlHeartbeat : string := "heartbeat".
Definition SessionControlClose : string := "session_close".
Definition gracefulSessionCloseReason : string := "graceful_shutdown".

Record SessionControl := {
  ctl_Kind : string;
  ctl_Open : option SessionOpen;
  ctl_Heartbeat : option SessionHeartbeat;
  ctl_Close : option SessionClose;
}.

(** A nil pointer is [None]. *)
Record ActionRecord := {
  ar_Version : Z;
  ar_ActionID : string;
  ar_ParentActionID : string;
  ar_ActionType : string;
  ar_Timestamp : Z;
  ar_Principal : string;
  ar_Actor : string;
  ar_DelegationChain : list string;
  ar_Target : string;
  ar_Intent : string;
  ar_DataClassesIn : list string;
  ar_DataClassesOut : list string;
  ar_SideEffectClass : string;
  ar_Reversibility : string;
  ar_PolicyHash : string;
  ar_Verdict : string;
  ar_DecisionPhase : string;
  ar_DeferID : string;
  ar_ResolutionPolicy : string;
  ar_ResolutionSource : string;
  ar_SessionID : string;
  ar_SessionIDOriginal : string;
  ar_SessionTaintLevel : string;
  ar_SessionContaminated : bool;
  ar_RecentTaintSources : list TaintSourceRef;
  ar_SessionTaskID : string;
  ar_SessionTaskLabel : string;
  ar_AuthorityKind : string;
  ar_TaintDecision : string;
  ar_TaintDecisionReason : string;
  ar_TaskOverrideApplied : bool;
  ar_ContractWinningSource : string;
  ar_ContractLiveVerdict : string;
  ar_ContractPolicySources : list string;
  ar_ContractRuleID : string;
  ar_ActiveManifestHash : string;
  ar_ContractHash : string;
  ar_ContractSelectorID : string;
  ar_ContractGeneration : Z;
  ar_Transport : string;
  ar_Method : string;
  ar_Layer : string;
  ar_Pattern : string;
  ar_Severity : string;
  ar_Redaction : option RedactionSummary;
  ar_Shield : option ShieldSummary;
  ar_RequestID : string;
  ar_ChainPrevHash : string;
  ar_ChainSeq : Z;
  ar_RunNonce : string;
  ar_KeyTransition : option KeyTransition;
  ar_SessionControl : option SessionControl;
  ar_Venue : string;
  ar_Jurisdiction : string;
  ar_RulebookID : string;
  ar_RemedyClass : string;
  ar_ContestationWindow : string;
  ar_PrecedentRefs : list string;
}.

(** [r_Ext] is the raw text of the unsigned extension bag. *)
Record Receipt := {
  r_Version : Z;
  r_ActionRecord : ActionRecord;
  r_Signature : string;
  r_SignerKey : string;
  r_Ext : string;
}.

Record RotationEndorsement := {
  ro_Version : Z;
  ro_SessionID : string;
  ro_PriorSignerKey : string;
  ro_PriorFinalSeq : Z;
  ro_PriorTailHash : string;
  ro_NewSignerKey : string;
  ro_RotatedAt : string;
  ro_Endorsement : string;
}.

(** The JSON encoders: of a receipt, of the version-1 canonical projection of an
    action record (a copy of all its fields), of the signed fields of an
    endorsement; and whether a string is a canonical UTC RFC 3339 time. *)
Class JSONLib := {
  json_Receipt : Receipt -> option string;
  json_ActionRecordV1 : ActionRecord -> option string;
  json_Endorsement : RotationEndorsement -> option string;
  canonicalTime : string -> bool;
}.

Section receipt.
Context {crypto : CryptoLib} {json : JSONLib}.

(** ** Action records *)

Definition ReceiptVersion : Z := 1.
Definition ActionRecordVersion : Z := 1.
Definition signaturePrefix : string := "ed25519:".
Definition RotationEndorsementVersion : Z := 1.
Definition rotationEndorsementDomain : string := "pipelock-rotation-endorsement-v1" +:+ String Ascii.zero EmptyString.
Definition genesisSessionOpenPrefix : string := "g1:".
Definition sessionOpenGenesisLabel : string := "pipelock.receipt.session_open.v1".

Definition allActionTypes : list string :=
  ["read"; "derive"; "write"; "delegate"; "authorize"; "spend"; "commit"; "actuate"; "unclassified"].

Definition ValidActionType (t : string) : bool := bool_decide (t ∈ allActionTypes).

(** [ActionRecord.Validate]; errors carry their text. *)
Definition Validate (ar : ActionRecord) : result unit string :=
  if decide (ar_Version ar <> ActionRecordVersion)
  then Err ("unsupported action record version " +:+ pretty (ar_Version ar) +:+ " (expected " +:+ pretty ActionRecordVersion +:+ ")")
  else if decide (ar_ActionID ar = "") then Err "action_id is required"
  else if negb (ValidActionType (ar_ActionType ar)) then Err ("invalid action_type " +:+ quote (ar_ActionType ar))
  else if Time.is_zero (ar_Timestamp ar) then Err "timestamp is required"
  else if decide (ar_Target ar = "") then Err "target is required"
  else if decide (ar_Verdict ar = "") then Err "verdict is required"
  else if decide (ar_Transport ar = "") then Err "transport is required"
  else Ok tt.

Definition canonicalActionRecord (version : Z) (ar : ActionRecord) : result string string :=
  if decide (version = ReceiptVersion)
  then match json_ActionRecordV1 ar with Some data => Ok data | None => Err "json: unsupported value" end
  else Err ("unsupported receipt canonical version " +:+ pretty version).

Definition Marshal (r : Receipt) : result string string :=
  match json_Receipt r with Some data => Ok data | None => Err "json: unsupported value" end.

(** [receipt.ReceiptHash]. *)
Definition ReceiptHash (r : Receipt) : result string string :=
  match Marshal r with
  | Err e => Err ("marshal receipt: " +:+ e)
  | Ok data => Ok (Hex.EncodeToString (sum256 data))
  end.

(** ** Signatures *)

Definition hexDecode (s : string) : result string string :=
  match Hex.DecodeString s with Some bytes => Ok bytes | None => Err (hexError s) end.

(** The signature bytes after the prefix; a signature that is only the prefix is
    refused. *)
Definition cutSignature (s : string) : option string :=
  if decide (String.length signaturePrefix < String.length s)%nat
  then Strings.CutPrefix s signaturePrefix else None.

Definition VerifyWithKey (r : Receipt) (expectedKeyHex : string) : result unit string :=
  if decide (expectedKeyHex = "") then Err "receipt verification requires a trusted public key"
  else if decide (r_Version r <> ReceiptVersion)
  then Err ("unsupported receipt version " +:+ pretty (r_Version r) +:+ " (expected " +:+ pretty ReceiptVersion +:+ ")")
  else match Validate (r_ActionRecord r) with
  | Err e => Err ("invalid action record: " +:+ e)
  | Ok _ =>
  if decide (r_Signature r = "") then Err "receipt has no signature"
  else if decide (r_SignerKey r = "") then Err "receipt has no signer_key"
  else if decide (r_SignerKey r <> expectedKeyHex)
  then Err ("signer_key " +:+ r_SignerKey r +:+ " does not match expected key " +:+ expectedKeyHex)
  else match hexDecode (r_SignerKey r) with
  | Err e => Err ("decoding signer_key: " +:+ e)
  | Ok pubKey =>
  if decide (String.length pubKey <> PublicKeySize)
  then Err ("invalid signer_key length: got " +:+ pretty (String.length pubKey) +:+ ", want " +:+ pretty PublicKeySize)
  else match cutSignature (r_Signature r) with
  | None => Err ("invalid signature format: missing " +:+ signaturePrefix +:+ " prefix")
  | Some sigHex =>
  match hexDecode sigHex with
  | Err e => Err ("decoding signature: " +:+ e)
  | Ok sig =>
  if decide (String.length sig <> SignatureSize)
  then Err ("invalid signature length: got " +:+ pretty (String.length sig) +:+ ", want " +:+ pretty SignatureSize)
  else match canonicalActionRecord (r_Version r) (r_ActionRecord r) with
  | Err e => Err ("canonical encoding: " +:+ e)
  | Ok data =>
  if negb (ed25519_Verify pubKey (sum256 data) sig) then Err "signature verification failed"
  else Ok tt
  end end end end end.

Definition VerifyInternalConsistencyOnly (r : Receipt) : result unit string :=
  if decide (r_SignerKey r = "") then Err "receipt has no signer_key" else VerifyWithKey r (r_SignerKey r).

(** ** Session control *)

Definition sessionOpen (ctrl : option SessionControl) : option SessionOpen :=
  match ctrl with
  | Some c => if decide (ctl_Kind c <> SessionControlOpen) then None else ctl_Open c
  | None => None
  end.

Definition sessionHeartbeat (ctrl : option SessionControl) : option SessionHeartbeat :=
  match ctrl with
  | Some c => if decide (ctl_Kind c <> SessionControlHeartbeat) then None else ctl_Heartbeat c
  | None => None
  end.

Definition sessionClose (ctrl : option SessionControl) : option SessionClose :=
  match ctrl with
  | Some c => if decide (ctl_Kind c <> SessionControlClose) then None else ctl_Close c
  | None => None
  end.

Definition IsGracefulSessionCloseSeal (r : Receipt) : bool :=
  match sessionClose (ar_SessionControl (r_ActionRecord r)) with
  | Some c => bool_decide (sc_CloseReason c = gracefulSessionCloseReason)
  | None => false
  end.

(** [binary.BigEndian.PutUint64]: the eight bytes of a 64-bit number. *)
Fixpoint bigEndian (bytes : nat) (z : Z) : string :=
  match bytes with
  | O => EmptyString
  | S n => bigEndian n (Z.shiftr z 8) +:+ String (ascii_of_N (Z.to_N (Z.land z 255))) EmptyString
  end.

Definition be64 (z : Z) : string := bigEndian 8 z.

(** A field of the preimage behind its length. *)
Definition frame (b : string) : string := be64 (wrapu64 (Z.of_nat (String.length b))) +:+ b.

(** The framed fields, in the frozen order. *)
Definition genesisFields (o : SessionOpen) : list string :=
  [sessionOpenGenesisLabel; so_RunNonce o; so_OpenNonce o; so_RecorderSession o; so_PolicyHash o;
   so_SignerKeyEpoch o; be64 (Z.max 0 (so_HeartbeatSeconds o)); so_GenesisAnchorHead o;
   so_GenesisAnchorLog o; so_PostureCapsuleSHA256 o; so_ContainmentNonce o; so_ContainedUID o].

Definition frames (fields : list string) : string := foldr (fun b s => frame b +:+ s) "" fields.

Definition ComputeSessionOpenGenesis (o : SessionOpen) : string :=
  genesisSessionOpenPrefix +:+ Hex.EncodeToString (sum256 (frames (genesisFields o))).

(** ** Rotation endorsements *)

(** [validEd25519PublicKeyHex] and [validSHA256Hex]: lower-case hex of a size. *)
Definition validHexOf (size : nat) (value : string) : bool :=
  match Hex.DecodeString value with
  | Some decoded => bool_decide (String.length decoded = size) &&
                    bool_decide (value = Strings.ToLower unicode_lower value)
  | None => false
  end.

Definition validEd25519PublicKeyHex (value : string) : bool := validHexOf PublicKeySize value.
Definition validSHA256Hex (value : string) : bool := validHexOf sha256Size value.

Definition validateRotationEndorsementFields (e : RotationEndorsement) (requireSignature : bool) : result unit string :=
  if decide (ro_Version e <> RotationEndorsementVersion)
  then Err ("unsupported rotation endorsement version " +:+ pretty (ro_Version e))
  else if decide (Strings.TrimSpace (ro_SessionID e) = "") then Err "rotation endorsement session_id is empty"
  else if negb (validEd25519PublicKeyHex (ro_PriorSignerKey e)) then Err "rotation endorsement prior_signer_key is invalid"
  else if negb (validEd25519PublicKeyHex (ro_NewSignerKey e)) then Err "rotation endorsement new_signer_key is invalid"
  else if decide (ro_PriorSignerKey e = ro_NewSignerKey e)
  then Err "rotation endorsement successor key must differ from prior key"
  else if negb (validSHA256Hex (ro_PriorTailHash e)) then Err "rotation endorsement prior_tail_hash is invalid"
  else if negb (canonicalTime (ro_RotatedAt e))
  then Err "rotation endorsement rotated_at must be canonical UTC RFC3339Nano"
  else if requireSignature && bool_decide (ro_Endorsement e = "") then Err "rotation endorsement signature is empty"
  else Ok tt.

Definition rotationEndorsementDigest (e : RotationEndorsement) : result string string :=
  match json_Endorsement e with
  | Some canonical => Ok (sum256 (rotationEndorsementDomain +:+ canonical))
  | None => Err "marshal rotation endorsement: json: unsupported value"
  end.

Definition VerifyRotationEndorsement (e : RotationEndorsement) : result unit string :=
  (check validateRotationEndorsementFields e true;
   match Hex.DecodeString (ro_PriorSignerKey e) with
   | None => Err "invalid prior_signer_key"
   | Some pub =>
   if decide (String.length pub <> PublicKeySize) then Err "invalid prior_signer_key"
   else match Strings.CutPrefix (ro_Endorsement e) signaturePrefix with
   | None => Err ("invalid endorsement signature format: missing " +:+ signaturePrefix +:+ " prefix")
   | Some sigHex =>
   match Hex.DecodeString sigHex with
   | None => Err "invalid endorsement signature"
   | Some sig =>
   if decide (String.length sig <> SignatureSize) then Err "invalid endorsement signature"
   else
     digest <-? rotationEndorsementDigest e;
     if ed25519_Verify pub digest sig then Ok tt
     else Err "rotation endorsement signature verification failed"
   end end end)%go.

(** ** The bound genesis commits to the fields of the open *)

Lemma string_app_inj (a b c d : string) :
  String.length a = String.length b -> a +:+ c = b +:+ d -> a = b /\ c = d.
Proof.
  revert b. induction a as [|x a IH]; intros [|y b]; cbn; try done. intros [= Hl] [= -> H].
  by destruct (IH b Hl H) as [-> ->].
Qed.

Lemma bigEndian_length n z : String.length (bigEndian n z) = n.
Proof.
  revert z. induction n as [|n IH]; intros z; cbn; [done|].
  assert (forall a b, String.length (a +:+ b) = (String.length a + String.length b)%nat) as ->.
  { intros a b. induction a as [|c a IHa]; [done|exact (f_equal S IHa)]. }
  rewrite IH. cbn. lia.
Qed.

Lemma byte_inj x y : 0 <= x < 256 -> 0 <= y < 256 -> ascii_of_N (Z.to_N x) = ascii_of_N (Z.to_N y) -> x = y.
Proof.
  intros Hx Hy H. apply (f_equal N_of_ascii) in H. rewrite !N_ascii_embedding in H by lia. lia.
Qed.

Lemma bigEndian_inj n x y :
  0 <= x < 2 ^ (8 * Z.of_nat n) -> 0 <= y < 2 ^ (8 * Z.of_nat n) -> bigEndian n x = bigEndian n y -> x = y.
Proof.
  revert x y. induction n as [|n IH]; intros x y Hx Hy; [rewrite Z.mul_0_r in *; lia|].
  cbn [bigEndian]. intros H.
  apply string_app_inj in H as [H1 H2]; [|by rewrite !bigEndian_length]. injection H2 as H2.
  change 255 with (Z.ones 8) in H2. rewrite !Z.land_ones in H2 by lia.
  assert (forall z, 0 <= z < 2 ^ (8 * Z.of_nat (S n)) -> 0 <= Z.shiftr z 8 < 2 ^ (8 * Z.of_nat n)) as Hs.
  { intros z Hz. rewrite Z.shiftr_div_pow2 by lia. split; [apply Z.div_pos; lia|].
    apply Z.div_lt_upper_bound; [lia|]. rewrite <- Z.pow_add_r by lia.
    replace (8 + 8 * Z.of_nat n) with (8 * Z.of_nat (S n)) by lia. lia. }
  apply byte_inj in H2; [|apply Z.mod_pos_bound; lia..].
  apply IH in H1; [|by apply Hs..]. rewrite !Z.shiftr_div_pow2 in H1 by lia.
  rewrite (Z.div_mod x (2 ^ 8)), (Z.div_mod y (2 ^ 8)) by lia. congruence.
Qed.

Definition short (b : string) : Prop := Z.of_nat (String.length b) < 2 ^ 64.

(** The framing is unambiguous. *)
Lemma frames_inj l1 l2 :
  length l1 = length l2 -> Forall short l1 -> Forall short l2 -> frames l1 = frames l2 -> l1 = l2.
Proof.
  revert l2. induction l1 as [|a l1 IH]; intros [|b l2]; try done. intros [= Hl] H1 H2.
  apply Forall_cons in H1 as [Ha H1], H2 as [Hb H2].
  change (frame a +:+ frames l1 = frame b +:+ frames l2 -> a :: l1 = b :: l2). unfold frame, be64.
  assert (forall x y z : string, (x +:+ y) +:+ z = x +:+ (y +:+ z)) as Hassoc.
  { intros x y z. induction x as [|c x IHx]; [done|exact (f_equal (String c) IHx)]. }
  rewrite !Hassoc. intros H. apply string_app_inj in H as [Hlen H]; [|by rewrite !bigEndian_length].
  rewrite !wrapu64_id in Hlen by (unfold in_uint64, short in *; lia).
  apply bigEndian_inj in Hlen; [|unfold short in *; lia..].
  apply string_app_inj in H as [-> H]; [|lia]. f_equal. by apply IH.
Qed.

(** a bound genesis commits to the session it opens: two opens with the same
    [ComputeSessionOpenGenesis] agree on every framed field (nonces, recorder
    session, policy hash, signer epoch, anchors, posture binding) and on the
    clamped heartbeat interval, unless the two preimages collide under SHA-256;
    moving bytes from one field to the next never gives the same preimage. *)
Theorem session_genesis_binds o1 o2 :
  Forall short (genesisFields o1) -> Forall short (genesisFields o2) ->
  in_int64 (so_HeartbeatSeconds o1) -> in_int64 (so_HeartbeatSeconds o2) ->
  (sum256 (frames (genesisFields o1)) = sum256 (frames (genesisFields o2)) ->
   frames (genesisFields o1) = frames (genesisFields o2)) ->
  ComputeSessionOpenGenesis o1 = ComputeSessionOpenGenesis o2 ->
  genesisFields o1 = genesisFields o2 /\
  Z.max 0 (so_HeartbeatSeconds o1) = Z.max 0 (so_HeartbeatSeconds o2).
Proof.
  intros F1 F2 I1 I2 Hcf H. unfold ComputeSessionOpenGenesis in H.
  apply string_app_inj in H as [_ H]; [|done].
  apply Hex.EncodeToString_inj, Hcf, frames_inj in H; [|done..]. split; [done|].
  assert (be64 (Z.max 0 (so_HeartbeatSeconds o1)) = be64 (Z.max 0 (so_HeartbeatSeconds o2))) as Hb
    by exact (f_equal (fun l => nth 6 l "") H).
  apply bigEndian_inj in Hb; [exact Hb|unfold in_int64, int64_min, int64_max in *; lia..].
Qed.
End receipt.

(** ** Concrete instances for the examples of the receipt chain *)

(** A digest that is the message itself, a signature scheme that accepts, and an
    encoder that writes the action id of a record. *)
#[local] Instance demo_crypto : CryptoLib :=
  {| sum256 s := s; ed25519_Verify _ _ _ := true; quote s := s; hexError s := s; unicode_lower s := s |}.
#[local] Instance demo_json : JSONLib :=
  {| json_Receipt r := Some (ar_ActionID (r_ActionRecord r)); json_ActionRecordV1 ar := Some (ar_ActionID ar);
     json_Endorsement e := Some (ro_NewSignerKey e); canonicalTime _ := true |}.

Definition demo_open (nonce genesis : string) : SessionOpen :=
  {| so_RunNonce := nonce; so_OpenNonce := "o"; so_RecorderSession := "rec"; so_PolicyHash := "p"; so_SignerKeyEpoch := "k";
     so_HeartbeatSeconds := 30; so_ChainOpenSeq := 0; so_PriorChainHead := ""; so_PriorChainSeq := 0;
     so_GenesisHash := genesis; so_GenesisAnchorHead := ""; so_GenesisAnchorLog := ""; so_PostureCapsuleSHA256 := "";
     so_PostureSignerKeyID := ""; so_ContainmentNonce := ""; so_ContainedUID := "" |}.

Lemma session_genesis_binds_witness :
  Z.max 0 (so_HeartbeatSeconds (demo_open "n" "x")) = Z.max 0 (so_HeartbeatSeconds (demo_open "n" "y")).
Proof.
  apply (session_genesis_binds (demo_open "n" "x") (demo_open "n" "y"));
    try (apply Forall_forall; intros b Hb; unfold short; cbn [genesisFields] in Hb;
         repeat (apply elem_of_cons in Hb as [->|Hb]; [vm_compute; reflexivity|]); by apply not_elem_of_nil in Hb);
    try (split; vm_compute; discriminate); try (intros H; exact H); try reflexivity.
Defined.
