(* ===== verification/ReceiptChain.v ===== *)
(** * The receipt chain verifier

    [internal/receipt/chain.go]: the walking state [chainVerifier] and its
    methods, which either update the state or return the failing result; the
    entry points over them; and the endorsed rotations. *)

From S2P Require Import Prelude GoStrings Taint Receipt.
Local Open Scope Z_scope.

Definition GenesisHash : string := "genesis".

Inductive ChainFailureKind :=
| ChainFailureNone
| ChainFailureIntegrity
| ChainFailureTrust
| ChainFailureLifecycle
| ChainFailureLifecycleOpen.

#[export] Instance ChainFailureKind_eq_dec : EqDecision ChainFailureKind.
Proof. solve_decision. Defined.

Record ChainSegment := {
  seg_SignerKey : string;
  seg_FirstSeq : Z;
  seg_FinalSeq : Z;
  seg_Count : Z;
  seg_Boundary : bool;
}.

Record ChainResult := {
  Valid : bool;
  IntegrityVerified : bool;
  ReceiptCount : Z;
  FinalSeq : Z;
  RootHash : string;
  StartTime : Z;
  EndTime : Z;
  Error : string;
  FailureKind : ChainFailureKind;
  BrokenAtSeq : Z;
  BrokenAtIndex : Z;
  SignerKeys : list string;
  Segments : list ChainSegment;
  UntrustedSignerKey : string;
  TrustBasis : list string;
  EndorsementGaps : list string;
}.

Record chainVerifier := {
  trusted : gset string;
  curKey : string;
  segBaseSeq : Z;
  prevHash : string;
  signerKeys : list string;
  segments : list ChainSegment;
  curSeg : option ChainSegment;
  index : Z;
  runNonces : gmap string string;
  closedRuns : gmap string bool;
  activeRun : string;
  activeOpen : string;
  integrityOnly : bool;
}.

(** The zero [ChainResult] with the fields a successful or an early return sets. *)
Definition emptyResult (valid : bool) (err : string) (kind : ChainFailureKind) : ChainResult :=
  {| Valid := valid; IntegrityVerified := valid; ReceiptCount := 0; FinalSeq := 0; RootHash := "";
     StartTime := Time.zero; EndTime := Time.zero; Error := err; FailureKind := kind; BrokenAtSeq := 0;
     BrokenAtIndex := 0; SignerKeys := []; Segments := []; UntrustedSignerKey := ""; TrustBasis := [];
     EndorsementGaps := [] |}.

(** ** Updates of the walking state *)

Definition with_trusted (t : gset string) (v : chainVerifier) : chainVerifier :=
  {| trusted := t; curKey := curKey v; segBaseSeq := segBaseSeq v; prevHash := prevHash v;
     signerKeys := signerKeys v; segments := segments v; curSeg := curSeg v; index := index v;
     runNonces := runNonces v; closedRuns := closedRuns v; activeRun := activeRun v;
     activeOpen := activeOpen v; integrityOnly := integrityOnly v |}.

(** The expected key, the first sequence number of the segment and the expected
    previous hash. *)
Definition with_position (key : string) (base : Z) (prev : string) (v : chainVerifier) : chainVerifier :=
  {| trusted := trusted v; curKey := key; segBaseSeq := base; prevHash := prev;
     signerKeys := signerKeys v; segments := segments v; curSeg := curSeg v; index := index v;
     runNonces := runNonces v; closedRuns := closedRuns v; activeRun := activeRun v;
     activeOpen := activeOpen v; integrityOnly := integrityOnly v |}.

Definition with_segments (keys : list string) (segs : list ChainSegment) (cur : option ChainSegment)
    (v : chainVerifier) : chainVerifier :=
  {| trusted := trusted v; curKey := curKey v; segBaseSeq := segBaseSeq v; prevHash := prevHash v;
     signerKeys := keys; segments := segs; curSeg := cur; index := index v;
     runNonces := runNonces v; closedRuns := closedRuns v; activeRun := activeRun v;
     activeOpen := activeOpen v; integrityOnly := integrityOnly v |}.

Definition with_index (i : Z) (v : chainVerifier) : chainVerifier :=
  {| trusted := trusted v; curKey := curKey v; segBaseSeq := segBaseSeq v; prevHash := prevHash v;
     signerKeys := signerKeys v; segments := segments v; curSeg := curSeg v; index := i;
     runNonces := runNonces v; closedRuns := closedRuns v; activeRun := activeRun v;
     activeOpen := activeOpen v; integrityOnly := integrityOnly v |}.

Definition with_runs (nonces : gmap string string) (closed : gmap string bool) (run open : string)
    (v : chainVerifier) : chainVerifier :=
  {| trusted := trusted v; curKey := curKey v; segBaseSeq := segBaseSeq v; prevHash := prevHash v;
     signerKeys := signerKeys v; segments := segments v; curSeg := curSeg v; index := index v;
     runNonces := nonces; closedRuns := closed; activeRun := run;
     activeOpen := open; integrityOnly := integrityOnly v |}.

Section chain.
Context {crypto : CryptoLib} {json : JSONLib}.

Notation chainSeq r := (ar_ChainSeq (r_ActionRecord r)).
Notation chainPrevHash r := (ar_ChainPrevHash (r_ActionRecord r)).
Notation runNonce r := (ar_RunNonce (r_ActionRecord r)).
Notation control r := (ar_SessionControl (r_ActionRecord r)).
Notation marker r := (ar_KeyTransition (r_ActionRecord r)).

(** ** Failures *)

Definition brokenAtKind (v : chainVerifier) (r : Receipt) (msg : string) (kind : ChainFailureKind) : ChainResult :=
  {| Valid := false; IntegrityVerified := false; ReceiptCount := 0; FinalSeq := 0; RootHash := "";
     StartTime := Time.zero; EndTime := Time.zero;
     Error := "seq " +:+ pretty (chainSeq r) +:+ ": " +:+ msg; FailureKind := kind;
     BrokenAtSeq := chainSeq r; BrokenAtIndex := index v; SignerKeys := signerKeys v; Segments := [];
     UntrustedSignerKey := ""; TrustBasis := []; EndorsementGaps := [] |}.

Definition brokenAt (v : chainVerifier) (r : Receipt) (msg : string) : ChainResult :=
  brokenAtKind v r msg ChainFailureIntegrity.

Definition with_untrusted_key (key : string) (res : ChainResult) : ChainResult :=
  {| Valid := Valid res; IntegrityVerified := IntegrityVerified res; ReceiptCount := ReceiptCount res;
     FinalSeq := FinalSeq res; RootHash := RootHash res; StartTime := StartTime res; EndTime := EndTime res;
     Error := Error res; FailureKind := FailureKind res; BrokenAtSeq := BrokenAtSeq res;
     BrokenAtIndex := BrokenAtIndex res; SignerKeys := SignerKeys res; Segments := Segments res;
     UntrustedSignerKey := key; TrustBasis := TrustBasis res; EndorsementGaps := EndorsementGaps res |}.

Definition untrusted (v : chainVerifier) (r : Receipt) : ChainResult :=
  with_untrusted_key (r_SignerKey r)
    (brokenAtKind v r ("signer key " +:+ r_SignerKey r +:+ " is not in the trusted set") ChainFailureTrust).

Definition keyTrusted (v : chainVerifier) (key : string) : bool := bool_decide (key ∈ trusted v).

(** ** Segments *)

Definition curSegStartIndex (v : chainVerifier) : Z :=
  foldl (fun n s => wrapu64 (n + seg_Count s)) 0 (segments v).

Definition appendSignerKey (key : string) (keys : list string) : list string :=
  if decide (key ∈ keys) then keys else keys ++ [key].

Definition beginSegment (r : Receipt) (boundary : bool) (v : chainVerifier) : chainVerifier :=
  with_segments (appendSignerKey (r_SignerKey r) (signerKeys v)) (segments v)
    (Some {| seg_SignerKey := r_SignerKey r; seg_FirstSeq := chainSeq r; seg_FinalSeq := chainSeq r;
             seg_Count := 0; seg_Boundary := boundary |}) v.

Definition closeSegment (v : chainVerifier) : chainVerifier :=
  match curSeg v with
  | Some s => with_segments (signerKeys v) (segments v ++ [s]) None v
  | None => v
  end.

(** ** The checks of one receipt *)

Definition validateBoundGenesisOpen (v : chainVerifier) (r : Receipt) : result unit ChainResult :=
  match sessionOpen (control r) with
  | None => Err (brokenAt v r "g1 chain_prev_hash requires SessionControl.Open")
  | Some open =>
      if decide (chainSeq r <> 0) then Err (brokenAt v r "bound session_open genesis must be chain_seq 0")
      else
        let computed := ComputeSessionOpenGenesis open in
        if decide (chainPrevHash r <> computed) then Err (brokenAt v r "session_open genesis hash mismatch")
        else if decide (so_GenesisHash open <> computed) then Err (brokenAt v r "session_open genesis_hash mismatch")
        else if decide (so_ChainOpenSeq open <> chainSeq r)
        then Err (brokenAt v r "session_open chain_open_seq does not match receipt chain_seq")
        else if decide (so_PriorChainHead open <> "" \/ so_PriorChainSeq open <> 0)
        then Err (brokenAt v r "bound genesis session_open must not carry prior chain tail")
        else Ok tt
  end.

Definition validateRestartOpen (v : chainVerifier) (r : Receipt) (open : SessionOpen) (priorHead : string)
    (priorSeq : Z) : result unit ChainResult :=
  if Strings.HasPrefix (chainPrevHash r) genesisSessionOpenPrefix
  then Err (brokenAt v r "restart session_open must not use g1 chain_prev_hash")
  else if decide (so_GenesisHash open <> "")
  then Err (brokenAt v r "restart session_open must not carry genesis_hash")
  else if decide (so_ChainOpenSeq open <> chainSeq r)
  then Err (brokenAt v r "session_open chain_open_seq does not match receipt chain_seq")
  else if decide (so_PriorChainHead open <> priorHead)
  then Err (brokenAt v r "session_open prior_chain_head does not match prior tail hash")
  else if decide (so_PriorChainSeq open <> priorSeq)
  then Err (brokenAt v r "session_open prior_chain_seq does not match prior tail seq")
  else Ok tt.

Definition startFirstSegment (v : chainVerifier) (r : Receipt) : result chainVerifier ChainResult :=
  let v := if decide (size (trusted v) = 0%nat) then with_trusted {[r_SignerKey r]} v else v in
  if negb (keyTrusted v (r_SignerKey r)) then Err (untrusted v r)
  else
    let v := with_position (r_SignerKey r) (segBaseSeq v) (prevHash v) v in
    (v <-? (if decide (marker r <> None)
            then Err (brokenAt v r "chain starts at a key_transition segment without the prior segment")
            else if Strings.HasPrefix (chainPrevHash r) genesisSessionOpenPrefix
            then check validateBoundGenesisOpen v r;
                 Ok (beginSegment r false (with_position (curKey v) (segBaseSeq v) (chainPrevHash r) v))
            else if decide (chainPrevHash r <> GenesisHash)
            then Err (brokenAt v r "genesis receipt chain_prev_hash must be genesis or a bound session_open g1 hash")
            else if negb (integrityOnly v) && bool_decide (is_Some (sessionOpen (control r)))
            then Err (brokenAt v r "session_open on legacy genesis must use bound g1 chain_prev_hash")
            else Ok (beginSegment r false (with_position (curKey v) (segBaseSeq v) GenesisHash v)));
     Ok (with_position (curKey v) (chainSeq r) (prevHash v) v))%go.

Definition startRotatedSegment (v : chainVerifier) (r : Receipt) (m : KeyTransition) : result chainVerifier ChainResult :=
  if decide (chainSeq r <> 0) then Err (brokenAt v r "key_transition marker on a non-genesis receipt (seq != 0)")
  else if decide (kt_PriorChainHash m <> prevHash v)
  then Err (brokenAt v r "key_transition prior_chain_hash does not match actual prior tail hash")
  else if decide (chainPrevHash r <> prevHash v)
  then Err (brokenAt v r "segment-genesis chain_prev_hash does not match prior tail hash")
  else if decide (kt_PriorSignerKey m <> curKey v)
  then Err (brokenAt v r "key_transition prior_signer_key does not match prior segment key")
  else if decide (r_SignerKey r = curKey v)
  then Err (brokenAt v r "key_transition does not change signer key")
  else if match curSeg v with Some s => bool_decide (kt_PriorChainSeq m <> seg_FinalSeq s) | None => false end
  then Err (brokenAt v r "key_transition prior_chain_seq does not match prior segment final seq")
  else
    (check match sessionOpen (control r) with
           | Some open => if integrityOnly v then Ok tt
                          else validateRestartOpen v r open (kt_PriorChainHash m) (kt_PriorChainSeq m)
           | None => Ok tt
           end;
     if negb (keyTrusted v (r_SignerKey r)) then Err (untrusted (beginSegment r true v) r)
     else
       let v := closeSegment v in
       Ok (beginSegment r true (with_position (r_SignerKey r) 0 (prevHash v) v)))%go.

Definition checkContinuation (v : chainVerifier) (r : Receipt) : result chainVerifier ChainResult :=
  if decide (chainSeq r = 0) then Err (brokenAt v r "unexpected seq 0 without a key_transition boundary")
  else match sessionOpen (control r) with
  | Some open =>
      if integrityOnly v then Ok v
      else match curSeg v with
      | None => Err (brokenAt v r "session_open continuation has no prior segment")
      | Some s => (check validateRestartOpen v r open (prevHash v) (seg_FinalSeq s); Ok v)%go
      end
  | None => Ok v
  end.

(** The payload rules of [validateSessionControl]: exactly one payload, of the kind. *)
Definition payloads (c : SessionControl) : nat :=
  (if ctl_Open c then 1 else 0) + (if ctl_Heartbeat c then 1 else 0) + (if ctl_Close c then 1 else 0).

Definition validatePayload (v : chainVerifier) (r : Receipt) (ctrl : SessionControl) : result unit ChainResult :=
  let fail msg := Err (brokenAtKind v r msg ChainFailureLifecycle) in
  if decide (payloads ctrl <> 1%nat) then fail "session_control must carry exactly one payload"
  else if decide (ctl_Kind ctrl = SessionControlOpen) then
    match sessionOpen (Some ctrl) with None => fail "session_open kind missing open payload" | Some _ => Ok tt end
  else if decide (ctl_Kind ctrl = SessionControlHeartbeat) then
    match sessionHeartbeat (Some ctrl) with None => fail "heartbeat kind missing heartbeat payload" | Some _ => Ok tt end
  else if decide (ctl_Kind ctrl = SessionControlClose) then
    match sessionClose (Some ctrl) with None => fail "session_close kind missing close payload" | Some _ => Ok tt end
  else fail "unknown session_control kind".

Definition validateHeartbeat (v : chainVerifier) (r : Receipt) (openNonce : string) (h : SessionHeartbeat) : result unit ChainResult :=
  let fail msg := Err (brokenAtKind v r msg ChainFailureLifecycle) in
  if decide (sh_RunNonce h <> runNonce r) then fail "heartbeat run_nonce does not match receipt run_nonce"
  else if decide (activeRun v = "" \/ activeOpen v = "") then fail "heartbeat has no active session_open"
  else if decide (sh_RunNonce h <> activeRun v) then fail "heartbeat run_nonce does not match active session_open"
  else if decide (sh_OpenNonce h <> openNonce) then fail "heartbeat open_nonce does not match session_open"
  else if decide (sh_OpenNonce h <> activeOpen v) then fail "heartbeat open_nonce does not match active session_open"
  else if decide (sh_ChainHead h <> prevHash v) then fail "heartbeat chain_head mismatch"
  else if decide (sh_ChainSeqHead h <> wrapu64 (chainSeq r - 1)) then fail "heartbeat chain_seq_head mismatch"
  else Ok tt.

Definition validateClose (v : chainVerifier) (r : Receipt) (openNonce : string) (c : SessionClose) : result chainVerifier ChainResult :=
  let fail msg := Err (brokenAtKind v r msg ChainFailureLifecycle) in
  if decide (sc_RunNonce c <> runNonce r) then fail "session_close run_nonce does not match receipt run_nonce"
  else if decide (activeRun v = "" \/ activeOpen v = "") then fail "session_close has no active session_open"
  else if decide (sc_RunNonce c <> activeRun v) then fail "session_close run_nonce does not match active session_open"
  else if decide (sc_OpenNonce c <> openNonce) then fail "session_close open_nonce does not match session_open"
  else if decide (sc_OpenNonce c <> activeOpen v) then fail "session_close open_nonce does not match active session_open"
  else if decide (sc_RootHash c <> prevHash v) then fail "session_close root_hash mismatch"
  else if decide (sc_FinalSeq c <> chainSeq r) then fail "session_close final_seq mismatch"
  else
    let segmentReceiptCount := match curSeg v with Some s => wrapu64 (seg_Count s + 1) | None => 1 end in
    if decide (sc_ReceiptCount c <> segmentReceiptCount) then fail "session_close receipt_count mismatch"
    else Ok (with_runs (runNonces v) (<[runNonce r := true]> (closedRuns v)) "" "" v).

Definition validateOpen (v : chainVerifier) (r : Receipt) (open : SessionOpen) : result chainVerifier ChainResult :=
  let fail msg := Err (brokenAtKind v r msg ChainFailureLifecycle) in
  if decide (so_RunNonce open <> runNonce r) then fail "session_open run_nonce does not match receipt run_nonce"
  else if decide (so_OpenNonce open = "") then fail "session_open open_nonce is empty"
  else if decide (is_Some (runNonces v !! runNonce r)) then fail "duplicate session_open for run_nonce"
  else Ok (with_runs (<[runNonce r := so_OpenNonce open]> (runNonces v)) (<[runNonce r := false]> (closedRuns v))
             (so_RunNonce open) (so_OpenNonce open) v).

Definition validateSessionControl (v : chainVerifier) (r : Receipt) : result chainVerifier ChainResult :=
  let ctrl := control r in
  (check match ctrl with Some c => validatePayload v r c | None => Ok tt end;
   if decide (runNonce r = "") then
     match ctrl with
     | Some _ => Err (brokenAtKind v r "session_control receipt missing run_nonce" ChainFailureLifecycle)
     | None => Ok v
     end
   else match sessionOpen ctrl with
   | Some open => validateOpen v r open
   | None =>
       match runNonces v !! runNonce r with
       | None => Err (brokenAtKind v r "run_nonce first receipt is not a matching session_open" ChainFailureLifecycleOpen)
       | Some openNonce =>
           if default false (closedRuns v !! runNonce r)
           then Err (brokenAtKind v r "record observed after session_close" ChainFailureLifecycle)
           else
             check match sessionHeartbeat ctrl with Some h => validateHeartbeat v r openNonce h | None => Ok tt end;
             match sessionClose ctrl with Some c => validateClose v r openNonce c | None => Ok v end
       end
   end)%go.

Definition verifyReceiptIntegrity (v : chainVerifier) (r : Receipt) : result unit ChainResult :=
  match VerifyWithKey r (curKey v) with
  | Err e => Err (brokenAt v r ("signature: " +:+ e))
  | Ok _ =>
      let expectedSeq := wrapu64 (segBaseSeq v + wrapu64 (index v - curSegStartIndex v)) in
      if decide (chainSeq r <> expectedSeq)
      then Err (brokenAt v r ("seq gap: expected " +:+ pretty expectedSeq +:+ ", got " +:+ pretty (chainSeq r)))
      else if decide (chainPrevHash r <> prevHash v) then Err (brokenAt v r "chain_prev_hash mismatch")
      else Ok tt
  end.

Definition advanceReceiptHash (v : chainVerifier) (r : Receipt) : result chainVerifier ChainResult :=
  match ReceiptHash r with
  | Err e => Err (brokenAt v r ("hash computation: " +:+ e))
  | Ok hash =>
      let v := with_position (curKey v) (segBaseSeq v) hash v in
      Ok (match curSeg v with
          | Some s => with_segments (signerKeys v) (segments v)
                        (Some {| seg_SignerKey := seg_SignerKey s; seg_FirstSeq := seg_FirstSeq s;
                                 seg_FinalSeq := chainSeq r; seg_Count := wrapu64 (seg_Count s + 1);
                                 seg_Boundary := seg_Boundary s |}) v
          | None => v
          end)
  end.

(** ** The walk *)

(** The three ways a receipt enters the chain. *)
Definition enter (v : chainVerifier) (i : Z) (r : Receipt) : result chainVerifier ChainResult :=
  if decide (i = 0) then startFirstSegment v r
  else match marker r with
  | Some m => startRotatedSegment v r m
  | None => checkContinuation v r
  end.

(** One iteration of the loop of [run]. *)
Definition verifyStep (v : chainVerifier) (i : Z) (r : Receipt) : result chainVerifier ChainResult :=
  (v <-? enter (with_index i v) i r;
   check verifyReceiptIntegrity v r;
   v <-? (if integrityOnly v then Ok v else validateSessionControl v r);
   advanceReceiptHash v r)%go.

Fixpoint walk (v : chainVerifier) (i : Z) (receipts : list Receipt) : result chainVerifier ChainResult :=
  match receipts with
  | [] => Ok v
  | r :: receipts => (v <-? verifyStep v i r; walk v (i + 1) receipts)%go
  end.

Definition run (v : chainVerifier) (receipts : list Receipt) : ChainResult :=
  match walk v 0 receipts with
  | Err res => res
  | Ok v =>
      let v := closeSegment v in
      let time r := match r with Some r => ar_Timestamp (r_ActionRecord r) | None => Time.zero end in
      {| Valid := true; IntegrityVerified := true; ReceiptCount := Z.of_nat (length receipts);
         FinalSeq := match last receipts with Some r => chainSeq r | None => 0 end;
         RootHash := prevHash v; StartTime := time (head receipts); EndTime := time (last receipts);
         Error := ""; FailureKind := ChainFailureNone; BrokenAtSeq := 0; BrokenAtIndex := 0;
         SignerKeys := signerKeys v; Segments := segments v; UntrustedSignerKey := ""; TrustBasis := [];
         EndorsementGaps := [] |}
  end.

(** The keys, trimmed; an empty one is an error. *)
Fixpoint normalizeTrustedKeys (trustedKeys : list string) : result (list string) string :=
  match trustedKeys with
  | [] => Ok []
  | key :: rest =>
      let key := Strings.TrimSpace key in
      if decide (key = "") then Err "trusted signer key cannot be empty"
      else (out <-? normalizeTrustedKeys rest; Ok (key :: out))%go
  end.

Definition newVerifier (keys : list string) (integrity : bool) : chainVerifier :=
  {| trusted := list_to_set keys; curKey := ""; segBaseSeq := 0; prevHash := ""; signerKeys := [];
     segments := []; curSeg := None; index := 0; runNonces := ∅; closedRuns := ∅; activeRun := "";
     activeOpen := ""; integrityOnly := integrity |}.

Definition verifyChainTrusted (receipts : list Receipt) (trustedKeys : list string) (integrity : bool) : ChainResult :=
  match receipts with
  | [] => emptyResult true "" ChainFailureNone
  | first :: _ =>
      match normalizeTrustedKeys trustedKeys with
      | Err e =>
          let res := emptyResult false ("seq " +:+ pretty (chainSeq first) +:+ ": trusted key set: " +:+ e) ChainFailureTrust in
          {| Valid := false; IntegrityVerified := false; ReceiptCount := 0; FinalSeq := 0; RootHash := "";
             StartTime := Time.zero; EndTime := Time.zero; Error := Error res; FailureKind := ChainFailureTrust;
             BrokenAtSeq := chainSeq first; BrokenAtIndex := 0; SignerKeys := []; Segments := [];
             UntrustedSignerKey := ""; TrustBasis := []; EndorsementGaps := [] |}
      | Ok keys => run (newVerifier keys integrity) receipts
      end
  end.

(** ** The entry points *)

Definition VerifyChainTrusted (receipts : list Receipt) (trustedKeys : list string) : ChainResult :=
  let res := verifyChainTrusted receipts trustedKeys false in
  if decide (FailureKind res <> ChainFailureLifecycleOpen) then res
  else
    let integrity := verifyChainTrusted receipts trustedKeys true in
    if negb (Valid integrity) then integrity
    else
      {| Valid := Valid res; IntegrityVerified := true; ReceiptCount := ReceiptCount integrity;
         FinalSeq := FinalSeq integrity; RootHash := RootHash integrity; StartTime := StartTime integrity;
         EndTime := EndTime integrity; Error := Error res; FailureKind := FailureKind res;
         BrokenAtSeq := BrokenAtSeq res; BrokenAtIndex := BrokenAtIndex res;
         SignerKeys := SignerKeys integrity; Segments := Segments integrity;
         UntrustedSignerKey := UntrustedSignerKey res; TrustBasis := TrustBasis res;
         EndorsementGaps := EndorsementGaps res |}.

Definition VerifyChainIntegrityTrusted (receipts : list Receipt) (trustedKeys : list string) : ChainResult :=
  verifyChainTrusted receipts trustedKeys true.

Definition anchor (expectedKeyHex : string) : list string :=
  if decide (expectedKeyHex = "") then [] else [expectedKeyHex].

Definition VerifyChain (receipts : list Receipt) (expectedKeyHex : string) : ChainResult :=
  VerifyChainTrusted receipts (anchor expectedKeyHex).

Definition VerifyChainIntegrity (receipts : list Receipt) (expectedKeyHex : string) : ChainResult :=
  VerifyChainIntegrityTrusted receipts (anchor expectedKeyHex).

(** ** Failing results are not valid *)

Ltac invalid := unfold brokenAt, untrusted in *; intros; repeat case_match; simplify_eq/=; try done.

Lemma validateBoundGenesisOpen_err v r res : validateBoundGenesisOpen v r = Err res -> Valid res = false.
Proof. unfold validateBoundGenesisOpen. invalid. Qed.

Lemma validateRestartOpen_err v r open head seq res : validateRestartOpen v r open head seq = Err res -> Valid res = false.
Proof. unfold validateRestartOpen. invalid. Qed.

Lemma enter_err v i r res : enter v i r = Err res -> Valid res = false.
Proof.
  unfold enter. case_decide; [|destruct (marker r) as [m|]].
  - unfold startFirstSegment. generalize (if decide (size (trusted v) = 0%nat) then with_trusted {[r_SignerKey r]} v else v).
    intros v1. invalid; eauto using validateBoundGenesisOpen_err.
  - unfold startRotatedSegment. invalid; eauto using validateRestartOpen_err.
  - unfold checkContinuation. invalid; eauto using validateRestartOpen_err.
Qed.

Lemma validateSessionControl_err v r res : validateSessionControl v r = Err res -> Valid res = false.
Proof.
  assert (forall c res, validatePayload v r c = Err res -> Valid res = false) as H1 by (unfold validatePayload; invalid).
  assert (forall o h res, validateHeartbeat v r o h = Err res -> Valid res = false) as H2 by (unfold validateHeartbeat; invalid).
  assert (forall o c res, validateClose v r o c = Err res -> Valid res = false) as H3 by (unfold validateClose; invalid).
  assert (forall o res, validateOpen v r o = Err res -> Valid res = false) as H4 by (unfold validateOpen; invalid).
  unfold validateSessionControl. invalid; eauto.
Qed.

Lemma verifyStep_err v i r res : verifyStep v i r = Err res -> Valid res = false.
Proof.
  unfold verifyStep. destruct (enter (with_index i v) i r) as [v1|e] eqn:E1; [|intros [= <-]; by eapply enter_err].
  destruct (verifyReceiptIntegrity v1 r) as [u|e] eqn:E2.
  2: { intros [= <-]. revert E2. unfold verifyReceiptIntegrity. invalid. }
  destruct (if integrityOnly v1 then Ok v1 else validateSessionControl v1 r) as [v2|e] eqn:E3.
  - unfold advanceReceiptHash. invalid.
  - intros [= <-]. destruct (integrityOnly v1); [done|]. by eapply validateSessionControl_err.
Qed.

Lemma walk_err v i rs res : walk v i rs = Err res -> Valid res = false.
Proof.
  revert v i. induction rs as [|r rs IH]; intros v i; cbn [walk]; [done|].
  destruct (verifyStep v i r) eqn:E; [apply IH|]. intros [= <-]. by eapply verifyStep_err.
Qed.

(** ** What an accepted receipt satisfies *)

Lemma VerifyWithKey_signer r key : VerifyWithKey r key = Ok tt -> r_SignerKey r = key.
Proof. unfold VerifyWithKey. intros. repeat case_match; simplify_eq; try done. all: destruct (decide (r_SignerKey r = key)); done. Qed.

(** The trusted set once the first receipt was seen. *)
Definition adopt (t : gset string) (r : Receipt) : gset string :=
  if decide (size t = 0%nat) then {[r_SignerKey r]} else t.

Definition genesis_shaped (h : string) : Prop :=
  h = GenesisHash \/ Strings.HasPrefix h genesisSessionOpenPrefix = true.

Lemma enter_first v r v1 :
  enter v 0 r = Ok v1 ->
  trusted v1 = adopt (trusted v) r /\ curKey v1 = r_SignerKey r /\ r_SignerKey r ∈ trusted v1 /\
  genesis_shaped (chainPrevHash r) /\ integrityOnly v1 = integrityOnly v /\
  runNonces v1 = runNonces v /\ closedRuns v1 = closedRuns v /\ prevHash v1 = chainPrevHash r.
Proof.
  unfold enter, startFirstSegment, adopt. rewrite decide_True by done.
  set (v0 := if decide (size (trusted v) = 0%nat) then _ else v).
  assert (trusted v0 = (if decide (size (trusted v) = 0%nat) then {[r_SignerKey r]} else trusted v) /\
    integrityOnly v0 = integrityOnly v /\ runNonces v0 = runNonces v /\ closedRuns v0 = closedRuns v) as (<- & <- & <- & <-).
  { unfold v0. by case_decide. }
  clearbody v0. unfold keyTrusted. case_bool_decide as Ht; [|done]. cbn [negb]. intros H.
  case_decide; [done|]. destruct (Strings.HasPrefix (chainPrevHash r) genesisSessionOpenPrefix) eqn:EP.
  - destruct (validateBoundGenesisOpen _ r); [|done]. injection H as <-. cbn.
    split_and!; try done. by right.
  - case_decide as Hg; [done|]. revert H. destruct (negb _ && _) eqn:EB; intros H; [done|]. injection H as <-. cbn.
    destruct (decide (chainPrevHash r = GenesisHash)) as [E|E]; [|done]. split_and!; try done. by left.
Qed.

Lemma enter_next v i r v1 :
  i <> 0 -> enter v i r = Ok v1 ->
  trusted v1 = trusted v /\ (curKey v1 = curKey v \/ (curKey v1 = r_SignerKey r /\ r_SignerKey r ∈ trusted v)) /\
  integrityOnly v1 = integrityOnly v /\
  runNonces v1 = runNonces v /\ closedRuns v1 = closedRuns v /\ prevHash v1 = prevHash v.
Proof.
  intros Hi. unfold enter. rewrite decide_False by done. destruct (marker r) as [m|].
  - unfold startRotatedSegment. do 5 (case_decide; [done|]).
    destruct (match curSeg v with Some _ => _ | None => _ end); [done|].
    destruct (match sessionOpen _ with Some _ => _ | None => _ end); [|done].
    unfold keyTrusted. case_bool_decide as Ht; [|done]. cbn [negb]. intros [= <-].
    unfold closeSegment. destruct (curSeg v); cbn; split_and!; auto.
  - unfold checkContinuation. intros H. case_match; [done|].
    repeat case_match; simplify_eq; split_and!; auto.
Qed.

Lemma validateSessionControl_frame v r v' :
  validateSessionControl v r = Ok v' ->
  trusted v' = trusted v /\ curKey v' = curKey v /\ prevHash v' = prevHash v /\ integrityOnly v' = integrityOnly v.
Proof.
  unfold validateSessionControl, validateOpen, validateClose. intros H. repeat case_match; simplify_eq/=; done.
Qed.

Lemma advanceReceiptHash_spec v r v' :
  advanceReceiptHash v r = Ok v' ->
  trusted v' = trusted v /\ curKey v' = curKey v /\ ReceiptHash r = Ok (prevHash v') /\
  integrityOnly v' = integrityOnly v /\ runNonces v' = runNonces v /\ closedRuns v' = closedRuns v.
Proof.
  unfold advanceReceiptHash. destruct (ReceiptHash r); [|done]. intros [= <-]. by destruct (curSeg _).
Qed.

(** What holds of the walking state between receipts. *)
Lemma verifyStep_spec v i r v' :
  verifyStep v i r = Ok v' -> (i <> 0 -> curKey v ∈ trusted v) ->
  trusted v' = (if decide (i = 0) then adopt (trusted v) r else trusted v) /\
  curKey v' ∈ trusted v' /\ r_SignerKey r = curKey v' /\ VerifyWithKey r (r_SignerKey r) = Ok tt /\
  (if decide (i = 0) then genesis_shaped (chainPrevHash r) else chainPrevHash r = prevHash v) /\
  ReceiptHash r = Ok (prevHash v') /\ integrityOnly v' = integrityOnly v.
Proof.
  unfold verifyStep. intros H Hk.
  destruct (enter (with_index i v) i r) as [v1|e] eqn:E1; [|done].
  destruct (verifyReceiptIntegrity v1 r) as [u|e] eqn:E2; [|done].
  destruct (if integrityOnly v1 then Ok v1 else validateSessionControl v1 r) as [v2|e] eqn:E3; [|done].
  apply advanceReceiptHash_spec in H as (A1 & A2 & A3 & A4 & _ & _).
  assert (trusted v2 = trusted v1 /\ curKey v2 = curKey v1 /\ integrityOnly v2 = integrityOnly v1) as (B1 & B2 & B3).
  { destruct (integrityOnly v1) eqn:EI; [by injection E3 as <-|].
    apply validateSessionControl_frame in E3 as (? & ? & _ & ?). split_and!; congruence. }
  assert (VerifyWithKey r (curKey v1) = Ok tt /\ chainPrevHash r = prevHash v1) as [HV HP].
  { unfold verifyReceiptIntegrity in E2. destruct (VerifyWithKey r (curKey v1)) as [[]|]; [|done].
    case_decide; [done|]. destruct (decide (chainPrevHash r = prevHash v1)); [done|]. by rewrite decide_True in E2. }
  pose proof (VerifyWithKey_signer _ _ HV) as HS.
  destruct (decide (i = 0)) as [->|Hi].
  - apply enter_first in E1 as (C1 & C2 & C3 & C4 & C5 & _). cbn in C1, C5.
    split_and!; try done; congruence.
  - apply enter_next in E1 as (C1 & C2 & C3 & _ & _ & C6); [|done]. cbn in C1, C2, C3, C6.
    split_and!; try congruence. rewrite A2, B2, A1, B1, C1.
    destruct C2 as [->|[-> Ht]]; [by apply Hk|done].
Qed.

(** ** Linked receipts *)

(** [chained h rs root]: the receipts link up from [h] to the hash [root]. *)
Inductive chained : string -> list Receipt -> string -> Prop :=
| chained_nil h : chained h [] h
| chained_cons r rs h' root :
    ReceiptHash r = Ok h' -> chained h' rs root -> chained (chainPrevHash r) (r :: rs) root.

Definition signed_by_trusted (keys : gset string) (r : Receipt) : Prop :=
  r_SignerKey r ∈ keys /\ VerifyWithKey r (r_SignerKey r) = Ok tt.

Lemma walk_spec v i rs v' :
  0 < i -> curKey v ∈ trusted v -> walk v i rs = Ok v' ->
  chained (prevHash v) rs (prevHash v') /\ Forall (signed_by_trusted (trusted v)) rs.
Proof.
  revert v i. induction rs as [|r rs IH]; intros v i Hi Hk; cbn [walk].
  - intros [= ->]. split; constructor.
  - destruct (verifyStep v i r) as [v1|e] eqn:E; [|done]. intros HW.
    apply verifyStep_spec in E as (S1 & S2 & S3 & S4 & S5 & S6 & _); [|done].
    rewrite decide_False in S1 by lia. rewrite decide_False in S5 by lia.
    destruct (IH v1 (i + 1)) as [H1 H2]; [lia|done|done|]. rewrite S1 in S2, H2.
    split; [rewrite <- S5; by econstructor|]. constructor; [|done]. split; [congruence|done].
Qed.

(** The keys a chain is verified against: the caller's, or the first signer. *)
Definition anchors (keys : list string) (rs : list Receipt) : gset string :=
  if decide (keys = []) then match rs with r :: _ => {[r_SignerKey r]} | [] => ∅ end
  else list_to_set (Strings.TrimSpace <$> keys).

Lemma normalizeTrustedKeys_Ok keys out :
  normalizeTrustedKeys keys = Ok out -> out = Strings.TrimSpace <$> keys.
Proof.
  revert out. induction keys as [|k ks IH]; intros out; cbn [normalizeTrustedKeys]; [by intros [= <-]|].
  case_decide; [done|]. destruct (normalizeTrustedKeys ks); [|done]. intros [= <-]. cbn. by rewrite <- (IH a).
Qed.

Lemma verifyChainTrusted_valid rs keys integrity :
  rs <> [] -> let res := verifyChainTrusted rs keys integrity in
  Valid res = true ->
  FailureKind res = ChainFailureNone /\ ReceiptCount res = Z.of_nat (length rs) /\
  (exists v, walk (newVerifier (Strings.TrimSpace <$> keys) integrity) 0 rs = Ok v) /\
  exists h0, genesis_shaped h0 /\ chained h0 rs (RootHash res) /\ Forall (signed_by_trusted (anchors keys rs)) rs.
Proof.
  destruct rs as [|r rs]; [done|]. intros _. cbn [verifyChainTrusted].
  destruct (normalizeTrustedKeys keys) as [out|e] eqn:EN; [|done].
  apply normalizeTrustedKeys_Ok in EN as ->. unfold run. cbv zeta.
  destruct (walk (newVerifier _ integrity) 0 (r :: rs)) as [v|res] eqn:EW.
  2: { apply walk_err in EW. congruence. }
  cbn [Valid FailureKind ReceiptCount RootHash]. intros _. split_and!; [done|done|by eexists|].
  cbn [walk] in EW. destruct (verifyStep _ 0 r) as [v1|e] eqn:E; [|done].
  apply verifyStep_spec in E as (S1 & S2 & S3 & S4 & S5 & S6 & _); [|done].
  rewrite decide_True in S1 by done. rewrite decide_True in S5 by done. cbn [trusted newVerifier] in S1.
  destruct (walk_spec v1 (0 + 1) rs v) as [H1 H2]; [done..|].
  assert (prevHash (closeSegment v) = prevHash v) as -> by (unfold closeSegment; by destruct (curSeg v)).
  assert (trusted v1 = anchors keys (r :: rs)) as Ha.
  { rewrite S1. unfold adopt, anchors. destruct keys as [|k ks]; [done|].
    rewrite decide_False; [by rewrite decide_False by done|]. cbn [fmap list_fmap list_to_set].
    intros Hz. apply size_empty_inv in Hz. set_solver. }
  exists (chainPrevHash r). split_and!; [done|by econstructor|].
  rewrite <- Ha. constructor; [|done]. split; [congruence|done].
Qed.

Lemma VerifyChainTrusted_valid rs keys :
  Valid (VerifyChainTrusted rs keys) = true ->
  VerifyChainTrusted rs keys = verifyChainTrusted rs keys false /\ Valid (verifyChainTrusted rs keys false) = true.
Proof.
  unfold VerifyChainTrusted. case_decide as Hk; [done|]. intros HV.
  destruct (Valid (verifyChainTrusted rs keys false)) eqn:E; [|exfalso; destruct (Valid (verifyChainTrusted rs keys true)) eqn:EI; cbn in HV; congruence].
  destruct rs as [|r rs]; [done|]. apply verifyChainTrusted_valid in E as (E & _); [|done].
  congruence.
Qed.


(** ** The root determines the chain *)

Lemma chained_snoc h rs r root :
  chained h (rs ++ [r]) root <-> chained h rs (chainPrevHash r) /\ ReceiptHash r = Ok root.
Proof.
  split.
  - revert h. induction rs as [|x rs IH]; intros h H.
    + inversion H as [|? ? h' ? Hh Hc]; subst. inversion Hc; subst. split; [constructor|done].
    + inversion H as [|? ? h' ? Hh Hc]; subst. apply IH in Hc as [Hc Hr]. split; [by econstructor|done].
  - intros [Hc Hr]. remember (chainPrevHash r) as p eqn:Ep.
    induction Hc as [h|x rs h' root' Hh Hc IH]; cbn.
    + rewrite Ep. econstructor; [done|constructor].
    + econstructor; [done|by apply IH].
Qed.

(** A receipt hash is hexadecimal, and a genesis value starts with a [g]. *)
Lemma hash_not_genesis r h : ReceiptHash r = Ok h -> ~ genesis_shaped h.
Proof.
  unfold ReceiptHash. destruct (Marshal r) as [data|]; [|done]. intros [= <-].
  destruct (Hex.EncodeToString (sum256 data)) as [|c t] eqn:E; [by intros [|]|].
  apply Hex.EncodeToString_head in E. unfold genesis_shaped, GenesisHash, genesisSessionOpenPrefix.
  intros [[= -> _]|H]; [done|]. cbn [Strings.HasPrefix] in H. case_decide; [|done]. by subst.
Qed.

Lemma chained_inj h1 h2 rs1 rs2 root :
  genesis_shaped h1 -> genesis_shaped h2 -> chained h1 rs1 root -> chained h2 rs2 root ->
  (forall r1 r2 h, r1 ∈ rs1 -> r2 ∈ rs2 -> ReceiptHash r1 = Ok h -> ReceiptHash r2 = Ok h -> r1 = r2) ->
  rs1 = rs2.
Proof.
  intros Hg1 Hg2. revert rs2 root. induction rs1 as [|r1 rs1 IH] using rev_ind; intros rs2 root H1 H2 Hcf;
    destruct rs2 as [|r2 rs2 _] using rev_ind; [done|..].
  - inversion H1; subst. apply chained_snoc in H2 as [_ H2]. by destruct (hash_not_genesis _ _ H2).
  - inversion H2; subst. apply chained_snoc in H1 as [_ H1]. by destruct (hash_not_genesis _ _ H1).
  - apply chained_snoc in H1 as [H1 E1], H2 as [H2 E2].
    assert (r1 = r2) as <- by (eapply Hcf; [apply elem_of_app; right; left..|done|done]).
    f_equal. eapply IH; [done..|]. intros a b h Ha Hb. apply Hcf; apply elem_of_app; by left.
Qed.

(** C5: the root hash commits to the whole chain: two non-empty chains that verify
    (against any keys) to the same root are the same list of receipts, so no
    receipt can be altered, dropped, inserted, reordered or cut off at either
    end under the same root, unless two different receipts of the two chains
    have the same hash. *)
Theorem root_determines_chain rs1 rs2 keys1 keys2 :
  rs1 <> [] -> rs2 <> [] ->
  Valid (VerifyChainTrusted rs1 keys1) = true -> Valid (VerifyChainTrusted rs2 keys2) = true ->
  RootHash (VerifyChainTrusted rs1 keys1) = RootHash (VerifyChainTrusted rs2 keys2) ->
  (forall r1 r2 h, r1 ∈ rs1 -> r2 ∈ rs2 -> ReceiptHash r1 = Ok h -> ReceiptHash r2 = Ok h -> r1 = r2) ->
  rs1 = rs2.
Proof.
  intros N1 N2 V1 V2 HR Hcf.
  apply VerifyChainTrusted_valid in V1 as [E1 V1], V2 as [E2 V2]. rewrite E1, E2 in HR.
  destruct (verifyChainTrusted_valid rs1 keys1 false N1 V1) as (_ & _ & _ & h1 & G1 & C1 & _).
  destruct (verifyChainTrusted_valid rs2 keys2 false N2 V2) as (_ & _ & _ & h2 & G2 & C2 & _).
  rewrite HR in C1. exact (chained_inj h1 h2 rs1 rs2 _ G1 G2 C1 C2 Hcf).
Qed.

(** ** The life of a run *)

(** A receipt's own session open and close, as the verifier sees them. *)
Definition opens (r : Receipt) (nonce openNonce : string) : Prop :=
  exists o, sessionOpen (control r) = Some o /\ so_RunNonce o = nonce /\ so_OpenNonce o = openNonce.

Definition closes (r : Receipt) : Prop := is_Some (sessionClose (control r)).

Record runs_inv (past : list Receipt) (v : chainVerifier) : Prop := {
  ri_closed n : closedRuns v !! n = Some true -> is_Some (runNonces v !! n);
  ri_past r : r ∈ past -> closes r -> closedRuns v !! runNonce r = Some true;
  ri_opened n o : runNonces v !! n = Some o -> exists r, r ∈ past /\ opens r n o;
}.

Lemma sessionOpen_close ctrl : is_Some (sessionOpen ctrl) -> sessionClose ctrl = None.
Proof.
  destruct ctrl as [c|]; [|done]. cbn. destruct (decide (ctl_Kind c <> SessionControlOpen)) as [|Hk]; [by intros []|].
  intros _. rewrite decide_True; [done|]. intros E. apply Hk. by rewrite E.
Qed.

(** What an accepted receipt says of its run, and how the run state moves. *)
Lemma validateSessionControl_runs past v r v' :
  runs_inv past v -> validateSessionControl v r = Ok v' ->
  runs_inv (past ++ [r]) v' /\
  (runNonce r <> "" ->
     closedRuns v !! runNonce r <> Some true /\
     (sessionOpen (control r) = None -> exists r0 o, r0 ∈ past /\ opens r0 (runNonce r) o)) /\
  (closes r -> runNonce r <> "").
Proof.
  intros [H1 H2 H3]. unfold validateSessionControl.
  destruct (match control r with Some c => validatePayload v r c | None => Ok tt end); [|done].
  case_decide as Hn.
  { destruct (control r) eqn:Ec; [done|]. intros [= <-].
    assert (~ closes r) as Hc by (unfold closes; rewrite Ec; cbn; by intros []).
    split_and!; [|done|done]. split; [done| |].
    - intros x [Hx| ->%list_elem_of_singleton]%elem_of_app; [by apply H2|done].
    - intros n o Ho. destruct (H3 n o Ho) as (x & Hx & Hox). exists x. split; [apply elem_of_app; by left|done]. }
  destruct (sessionOpen (control r)) as [open|] eqn:Eo.
  - unfold validateOpen. case_decide; [done|]. case_decide; [done|]. case_decide as Hdup; [done|]. intros [= <-].
    destruct (decide (so_RunNonce open = runNonce r)) as [Er|]; [|done].
    assert (closedRuns v !! runNonce r <> Some true) as Hnc by (intros Hc; by apply Hdup, H1).
    assert (~ closes r) as Hc.
    { unfold closes. rewrite sessionOpen_close by (rewrite Eo; eauto). by intros []. }
    split_and!; [|done|done]. split; cbn [with_runs closedRuns runNonces].
    + intros n [(_ & ?)|(Hne & Hc')]%lookup_insert_Some; [done|]. rewrite lookup_insert_ne by done. by apply H1.
    + intros x [Hx| ->%list_elem_of_singleton]%elem_of_app Hcx; [|done].
      specialize (H2 x Hx Hcx). rewrite lookup_insert_ne; [done|]. intros Heq. apply Hnc. by rewrite Heq.
    + intros n o [(<- & <-)|(_ & Ho)]%lookup_insert_Some.
      * exists r. split; [apply elem_of_app; right; left|]. by exists open.
      * destruct (H3 n o Ho) as (x & Hx & Hox). exists x. split; [apply elem_of_app; by left|done].
  - destruct (runNonces v !! runNonce r) as [openNonce|] eqn:En; [|done].
    destruct (closedRuns v !! runNonce r) as [[|]|] eqn:Ecl; cbn [default]; [done|..].
    all: destruct (match sessionHeartbeat _ with Some h => _ | None => _ end); [|done].
    all: assert (forall n o, runNonces v !! n = Some o -> exists r0, r0 ∈ past ++ [r] /\ opens r0 n o) as H3'
      by (intros n o Ho; destruct (H3 n o Ho) as (x & Hx & Hox); exists x; split; [apply elem_of_app; by left|done]).
    all: destruct (H3 _ _ En) as (r0 & Hr0 & Hopen).
    all: destruct (sessionClose (control r)) as [c|] eqn:Ecc.
    all: try (unfold validateClose; do 7 (case_decide; [done|]); case_decide; [done|]); intros [= <-].
    all: split_and!; [|split; [try done|intros _; by eexists _, _]|done].
    all: split; cbn [with_runs closedRuns runNonces]; [|intros x [Hx| ->%list_elem_of_singleton]%elem_of_app Hcx|exact H3'].
    all: try (by intros n Hc; apply H1).
    all: try (by apply H2).
    all: try (by unfold closes in Hcx; rewrite Ecc in Hcx; destruct Hcx).
    all: try (by rewrite lookup_insert_eq).
    all: try (intros n [(<- & _)|(_ & Hc')]%lookup_insert_Some; [by rewrite En|by apply H1]).
    all: specialize (H2 x Hx Hcx); rewrite lookup_insert; by case_decide.
Qed.

Lemma walk_runs past v i rs v' :
  0 <= i -> integrityOnly v = false -> runs_inv past v -> walk v i rs = Ok v' ->
  forall a r b, rs = a ++ r :: b ->
    (runNonce r <> "" -> sessionOpen (control r) = None -> exists r0 o, r0 ∈ past ++ a /\ opens r0 (runNonce r) o) /\
    (runNonce r <> "" -> forall c, c ∈ past ++ a -> closes c -> runNonce c <> runNonce r).
Proof.
  revert past v i. induction rs as [|x rs IH]; intros past v i Hi HI Hinv; cbn [walk]; [by intros _ []|].
  destruct (verifyStep v i x) as [v1|e] eqn:E; [|done]. intros HW.
  unfold verifyStep in E. destruct (enter (with_index i v) i x) as [w1|e] eqn:E1; [|done].
  assert (integrityOnly w1 = false /\ runNonces w1 = runNonces v /\ closedRuns w1 = closedRuns v) as (F1 & F2 & F3).
  { destruct (decide (i = 0)) as [->|Hne].
    - apply enter_first in E1 as (_ & _ & _ & _ & C5 & C6 & C7 & _). cbn in C5, C6, C7. by rewrite C5, C6, C7.
    - apply enter_next in E1 as (_ & _ & C5 & C6 & C7 & _); [|done]. cbn in C5, C6, C7. by rewrite C5, C6, C7. }
  destruct (verifyReceiptIntegrity w1 x) as [u|e]; [|done]. rewrite F1 in E.
  destruct (validateSessionControl w1 x) as [w2|e] eqn:E3; [|done].
  assert (runs_inv past w1) as Hinv1 by (destruct Hinv; split; rewrite ?F2, ?F3; done).
  pose proof (validateSessionControl_frame _ _ _ E3) as (_ & _ & _ & G4).
  destruct (validateSessionControl_runs past w1 x w2 Hinv1 E3) as (R1 & R2 & R3).
  apply advanceReceiptHash_spec in E as (_ & _ & _ & A4 & A5 & A6).
  assert (runs_inv (past ++ [x]) v1) as Hinv2 by (destruct R1; split; rewrite ?A5, ?A6; done).
  intros a r b Hab. destruct a as [|y a]; injection Hab as -> ->.
  - rewrite app_nil_r. split; [by intros Hn; apply R2|].
    intros Hn c Hc Hcl Heq. apply (proj1 (R2 Hn)). rewrite F3, <- Heq.
    rewrite <- F3. by apply (ri_past _ _ Hinv1).
  - replace (past ++ y :: a) with ((past ++ [y]) ++ a) by (by rewrite <- app_assoc).
    eapply (IH (past ++ [y]) v1 (i + 1)); [lia|congruence|done|done|done].
Qed.

(** C34: the session-control records bracket a run: in a chain reported valid, a
    record that names a run and is not itself its opening comes after the
    signed [session_open] of that run, and no record of a run comes after a
    [session_close] of it. *)
Theorem session_brackets rs keys a r b :
  Valid (VerifyChainTrusted rs keys) = true -> rs = a ++ r :: b -> runNonce r <> "" ->
  (sessionOpen (control r) = None -> exists r0 o, r0 ∈ a /\ opens r0 (runNonce r) o) /\
  (forall c, c ∈ a -> closes c -> runNonce c <> runNonce r).
Proof.
  intros HV Hrs Hn. apply VerifyChainTrusted_valid in HV as [_ HV].
  assert (rs <> []) as Hne by (rewrite Hrs; by destruct a).
  destruct (verifyChainTrusted_valid rs keys false Hne HV) as (_ & _ & (v & HW) & _).
  pose proof (walk_runs [] (newVerifier (Strings.TrimSpace <$> keys) false) 0 rs v) as HR.
  assert (runs_inv [] (newVerifier (Strings.TrimSpace <$> keys) false)) as Hi0.
  { split; cbn; intros *; try (by rewrite lookup_empty); by intros ?%not_elem_of_nil. }
  destruct (HR ltac:(lia) eq_refl Hi0 HW a r b Hrs) as [H1 H2]. cbn in H1, H2. auto.
Qed.
End chain.

(** ** A concrete chain: an open, an action, a close *)

#[local] Existing Instances demo_crypto demo_json.

Definition demo_signer (d : ascii) : string := string_of_list_ascii (replicate 64 d).
Definition demo_signature : string := signaturePrefix +:+ string_of_list_ascii (replicate 128 "0"%char).

Definition demo_rotated (signer : ascii) (id prev : string) (seq : Z) (nonce : string) (kt : option KeyTransition)
    (ctl : option SessionControl) : Receipt :=
  {| r_Version := 1; r_Signature := demo_signature; r_SignerKey := demo_signer signer; r_Ext := "";
     r_ActionRecord :=
       {| ar_Version := 1; ar_ActionID := id; ar_ParentActionID := ""; ar_ActionType := "read"; ar_Timestamp := 5;
          ar_Principal := ""; ar_Actor := ""; ar_DelegationChain := []; ar_Target := "t"; ar_Intent := "";
          ar_DataClassesIn := []; ar_DataClassesOut := []; ar_SideEffectClass := ""; ar_Reversibility := "";
          ar_PolicyHash := ""; ar_Verdict := "allow"; ar_DecisionPhase := ""; ar_DeferID := "";
          ar_ResolutionPolicy := ""; ar_ResolutionSource := ""; ar_SessionID := ""; ar_SessionIDOriginal := "";
          ar_SessionTaintLevel := ""; ar_SessionContaminated := false; ar_RecentTaintSources := [];
          ar_SessionTaskID := ""; ar_SessionTaskLabel := ""; ar_AuthorityKind := ""; ar_TaintDecision := "";
          ar_TaintDecisionReason := ""; ar_TaskOverrideApplied := false; ar_ContractWinningSource := "";
          ar_ContractLiveVerdict := ""; ar_ContractPolicySources := []; ar_ContractRuleID := "";
          ar_ActiveManifestHash := ""; ar_ContractHash := ""; ar_ContractSelectorID := ""; ar_ContractGeneration := 0;
          ar_Transport := "http"; ar_Method := ""; ar_Layer := ""; ar_Pattern := ""; ar_Severity := "";
          ar_Redaction := None; ar_Shield := None; ar_RequestID := ""; ar_ChainPrevHash := prev; ar_ChainSeq := seq;
          ar_RunNonce := nonce; ar_KeyTransition := kt; ar_SessionControl := ctl; ar_Venue := "";
          ar_Jurisdiction := ""; ar_RulebookID := ""; ar_RemedyClass := ""; ar_ContestationWindow := "";
          ar_PrecedentRefs := [] |} |}.

Definition demo_receipt (signer : ascii) (id prev : string) (seq : Z) (nonce : string) (ctl : option SessionControl) : Receipt :=
  demo_rotated signer id prev seq nonce None ctl.

Definition demo_genesis : string := ComputeSessionOpenGenesis (demo_open "n" "").

Definition demo_r0 : Receipt :=
  demo_receipt "0" "a" demo_genesis 0 "n"
    (Some {| ctl_Kind := SessionControlOpen; ctl_Open := Some (demo_open "n" demo_genesis); ctl_Heartbeat := None; ctl_Close := None |}).
Definition demo_r1 : Receipt := demo_receipt "0" "b" (Hex.EncodeToString "a") 1 "n" None.
Definition demo_r2 : Receipt :=
  demo_receipt "0" "c" (Hex.EncodeToString "b") 2 "n"
    (Some {| ctl_Kind := SessionControlClose; ctl_Open := None; ctl_Heartbeat := None;
             ctl_Close := Some {| sc_RunNonce := "n"; sc_OpenNonce := "o"; sc_FinalSeq := 2; sc_RootHash := Hex.EncodeToString "b";
                                  sc_ReceiptCount := 3; sc_CloseReason := ""; sc_FsyncErrorsGated := 0; sc_DurabilityBlocks := 0 |} |}).
Definition demo_chain : list Receipt := [demo_r0; demo_r1; demo_r2].

Lemma demo_chain_valid : Valid (VerifyChainTrusted demo_chain []) = true.
Proof. vm_compute. reflexivity. Qed.

(** A record of the run after its close is refused. *)
Example late_record_refused :
  let res := VerifyChainTrusted (demo_chain ++ [demo_receipt "0" "d" (Hex.EncodeToString "c") 3 "n" None]) [] in
  Valid res = false /\ Error res = "seq 3: record observed after session_close".
Proof. vm_compute. auto. Qed.

(** So is another signer in a chain verified on first use. *)
Example other_signer_refused :
  let res := VerifyChainTrusted [demo_receipt "0" "a" "genesis" 0 "" None; demo_receipt "1" "b" (Hex.EncodeToString "a") 1 "" None] [] in
  Valid res = false /\ FailureKind res = ChainFailureIntegrity.
Proof. vm_compute. auto. Qed.


Lemma root_determines_chain_witness : demo_chain = demo_chain.
Proof.
  apply (root_determines_chain demo_chain demo_chain [] [demo_signer "0"]);
    [discriminate|discriminate|exact demo_chain_valid|vm_compute; reflexivity|vm_compute; reflexivity|].
  intros r1 r2 h H1 H2 E1 E2. rewrite <- E2 in E1. clear E2. unfold demo_chain in *.
  repeat (apply elem_of_cons in H1 as [->|H1]); try (by apply not_elem_of_nil in H1);
    repeat (apply elem_of_cons in H2 as [->|H2]); try (by apply not_elem_of_nil in H2);
    first [reflexivity|vm_compute in E1; discriminate].
Defined.

Lemma session_brackets_witness :
  exists r0 o, r0 ∈ [demo_r0] /\ opens r0 "n" o.
Proof.
  refine (proj1 (session_brackets demo_chain [] [demo_r0] demo_r1 [demo_r2] demo_chain_valid eq_refl _) eq_refl).
  discriminate.
Defined.
