(* ===== verification/Endorsed.v ===== *)
(** * Endorsed rotations and transcript roots

    The rest of the verifier of [internal/receipt/chain.go]:
    [VerifyChainWithEndorsements], which accepts a rotated chain when the retiring
    key of each segment has endorsed the next one, starting from a trusted root
    key; and the transcript root of a verified chain. An index out of range is a
    panic, the [None] of the functions that index. *)

From S2P Require Import Prelude GoStrings Taint Receipt ReceiptChain.
Local Open Scope Z_scope.

(** [s[i]] of a slice. *)
Definition index_at {A} (s : list A) (i : Z) : option A :=
  if decide (i < 0) then None else s !! Z.to_nat i.

Record TranscriptRoot := {
  tr_SessionID : string;
  tr_FinalSeq : Z;
  tr_RootHash : string;
  tr_ReceiptCount : Z;
  tr_StartTime : Z;
  tr_EndTime : Z;
}.

Section endorsed.
Context {crypto : CryptoLib} {json : JSONLib}.

(** ** Definitions *)

(** The signer keys in order of appearance. *)
Definition allKeys (receipts : list Receipt) : list string :=
  foldl (fun keys r => appendSignerKey (r_SignerKey r) keys) [] receipts.

(** The base result with the fields that the endorsement rules set. *)
Definition with_failure (key err : string) (gaps : list string) (base : ChainResult) : ChainResult :=
  {| Valid := false; IntegrityVerified := IntegrityVerified base; ReceiptCount := ReceiptCount base;
     FinalSeq := FinalSeq base; RootHash := RootHash base; StartTime := StartTime base;
     EndTime := EndTime base; Error := err; FailureKind := ChainFailureTrust;
     BrokenAtSeq := BrokenAtSeq base; BrokenAtIndex := BrokenAtIndex base;
     SignerKeys := SignerKeys base; Segments := Segments base; UntrustedSignerKey := key;
     TrustBasis := TrustBasis base; EndorsementGaps := gaps |}.

Definition endorsementFailure (base : ChainResult) (key err : string) : ChainResult :=
  with_failure key err (if decide (key = "") then EndorsementGaps base else [key]) base.

Definition with_basis (basis : list string) (base : ChainResult) : ChainResult :=
  {| Valid := Valid base; IntegrityVerified := IntegrityVerified base; ReceiptCount := ReceiptCount base;
     FinalSeq := FinalSeq base; RootHash := RootHash base; StartTime := StartTime base;
     EndTime := EndTime base; Error := Error base; FailureKind := FailureKind base;
     BrokenAtSeq := BrokenAtSeq base; BrokenAtIndex := BrokenAtIndex base;
     SignerKeys := SignerKeys base; Segments := Segments base; UntrustedSignerKey := UntrustedSignerKey base;
     TrustBasis := basis; EndorsementGaps := EndorsementGaps base |}.

(** The index before the first receipt of the key at or after [start]. *)
Definition findRotationPriorTail (receipts : list Receipt) (start : Z) (signerKey : string) : option Z :=
  match list_find (fun r => r_SignerKey r = signerKey) (drop (Z.to_nat start) receipts) with
  | Some (i, _) => Some (start + Z.of_nat i - 1)
  | None => None
  end.

(** The index of the first key transition after the first receipt. *)
Definition firstBoundary (receipts : list Receipt) : nat :=
  match list_find (fun r => ar_KeyTransition (r_ActionRecord r) <> None) (tail receipts) with
  | Some (i, _) => S i
  | None => length receipts
  end.

(** The loop over the receipts, [i] being the index of the first of them. *)
Fixpoint checkOpens (expected : string) (boundary i : nat) (receipts : list Receipt) (rootOpenFound : bool)
    : result bool string :=
  match receipts with
  | [] => Ok rootOpenFound
  | r :: receipts =>
      match sessionOpen (ar_SessionControl (r_ActionRecord r)) with
      | None => checkOpens expected boundary (S i) receipts rootOpenFound
      | Some open =>
          if decide (so_RecorderSession open <> expected)
          then Err ("signed recorder session " +:+ quote (so_RecorderSession open) +:+
                    " does not match endorsement session " +:+ quote expected)
          else checkOpens expected boundary (S i) receipts (rootOpenFound || bool_decide (i < boundary)%nat)
      end
  end.

Definition verifySignedRecorderSession (expected : string) (receipts : list Receipt) : result unit string :=
  (rootOpenFound <-? checkOpens expected (firstBoundary receipts) 0 receipts false;
   if rootOpenFound then Ok tt
   else Err "root receipt segment has no signed session_open recorder binding")%go.

(** Whether an endorsement speaks of this boundary. *)
Definition matchesBoundary (sessionID : string) (prior : Receipt) (priorHash : string) (boundary : Receipt)
    (e : RotationEndorsement) : bool :=
  bool_decide (ro_SessionID e = sessionID) && bool_decide (ro_PriorSignerKey e = r_SignerKey prior) &&
  bool_decide (ro_PriorFinalSeq e = ar_ChainSeq (r_ActionRecord prior)) &&
  bool_decide (ro_PriorTailHash e = priorHash) && bool_decide (ro_NewSignerKey e = r_SignerKey boundary).

(** The loop over the endorsements: the one unused match, [Err] when there are two. *)
Fixpoint matchEndorsement (matches : RotationEndorsement -> bool) (used : gset nat) (i : nat)
    (endorsements : list RotationEndorsement) (found : option nat) : result (option nat) string :=
  match endorsements with
  | [] => Ok found
  | e :: endorsements =>
      if decide (i ∈ used) then matchEndorsement matches used (S i) endorsements found
      else if negb (matches e) then matchEndorsement matches used (S i) endorsements found
      else match found with
           | Some _ => Err "multiple rotation endorsements match one receipt boundary"
           | None => matchEndorsement matches used (S i) endorsements (Some i)
           end
  end.

(** One segment boundary: the index of its prior tail and of the endorsement
    that authorises it, or the error; [None] is a panic. *)
Definition authorizeBoundary (sessionID : string) (receipts : list Receipt)
    (endorsements : list RotationEndorsement) (signerKey : string) (priorTailIndex : Z) (used : gset nat)
    : option (result (Z * nat) string) :=
  match findRotationPriorTail receipts (priorTailIndex + 1) signerKey with
  | None => Some (Err "cannot locate rotation boundary")
  | Some priorTailIndex =>
      prior ← index_at receipts priorTailIndex;
      match ReceiptHash prior with
      | Err e => Some (Err e)
      | Ok priorHash =>
          boundary ← index_at receipts (priorTailIndex + 1);
          Some (found <-? matchEndorsement (matchesBoundary sessionID prior priorHash boundary) used 0 endorsements None;
                match found with
                | None => Err "rotation endorsement does not match receipt boundary"
                | Some i => Ok (priorTailIndex, i)
                end)%go
      end
  end.

(** The loop over the segments after the first. *)
Fixpoint authorizeSegments (sessionID : string) (receipts : list Receipt)
    (endorsements : list RotationEndorsement) (segs : list ChainSegment) (priorTailIndex : Z)
    (used : gset nat) (base : ChainResult) : option (result (gset nat * ChainResult) ChainResult) :=
  match segs with
  | [] => Some (Ok (used, base))
  | segment :: segs =>
      step ← authorizeBoundary sessionID receipts endorsements (seg_SignerKey segment) priorTailIndex used;
      match step with
      | Err e => Some (Err (endorsementFailure base (seg_SignerKey segment) e))
      | Ok (priorTailIndex, i) =>
          authorizeSegments sessionID receipts endorsements segs priorTailIndex ({[i]} ∪ used)
            (with_basis (TrustBasis base ++ ["endorsed"]) base)
      end
  end.

(** The first endorsement that does not verify, with its error. *)
Fixpoint verifyEndorsements (endorsements : list RotationEndorsement) : result unit (string * string) :=
  match endorsements with
  | [] => Ok tt
  | e :: endorsements =>
      match VerifyRotationEndorsement e with
      | Err err => Err (ro_NewSignerKey e, err)
      | Ok _ => verifyEndorsements endorsements
      end
  end.

Definition VerifyChainWithEndorsements (sessionID : string) (receipts : list Receipt)
    (endorsements : list RotationEndorsement) (rootTrustedKeys : list string) : option ChainResult :=
  if decide (Strings.TrimSpace sessionID = "")
  then Some (emptyResult false "rotation endorsement verification requires a recorder session ID" ChainFailureTrust)
  else match receipts with
  | [] =>
      if decide (length endorsements <> 0%nat)
      then Some (emptyResult false "rotation endorsements supplied for an empty receipt chain" ChainFailureTrust)
      else Some (emptyResult true "" ChainFailureNone)
  | first :: _ =>
      let base := VerifyChainTrusted receipts (allKeys receipts) in
      if negb (Valid base) then Some base
      else match normalizeTrustedKeys rootTrustedKeys with
      | Err e => Some (with_failure (UntrustedSignerKey base) ("trusted key set: " +:+ e) (EndorsementGaps base) base)
      | Ok roots =>
      if decide (length roots = 0%nat)
      then Some (endorsementFailure base (r_SignerKey first)
                   "rotation endorsement verification requires at least one trusted root key")
      else if decide (r_SignerKey first ∉ roots)
      then Some (endorsementFailure base (r_SignerKey first) "genesis signer key is not in the trusted root set")
      else match verifySignedRecorderSession sessionID receipts with
      | Err e => Some (endorsementFailure base "" e)
      | Ok _ =>
      match verifyEndorsements endorsements with
      | Err (key, e) => Some (endorsementFailure base key e)
      | Ok _ =>
          outcome ← authorizeSegments sessionID receipts endorsements (tail (Segments base)) (-1) ∅
                      (with_basis ["root"] base);
          match outcome with
          | Err res => Some res
          | Ok (used, base) =>
              if decide (size used <> length endorsements)
              then Some (endorsementFailure base "" "unused rotation endorsement does not match a required boundary")
              else Some base
          end
      end end end
  end.

Definition ComputeTranscriptRootTrusted (sessionID : string) (receipts : list Receipt) (trustedKeys : list string)
    : result TranscriptRoot string :=
  if decide (length receipts = 0%nat) then Err "empty receipt chain"
  else match normalizeTrustedKeys trustedKeys with
  | Err e => Err ("trusted key set: " +:+ e)
  | Ok normalizedKeys =>
      if decide (length normalizedKeys = 0%nat) then Err "trust anchor required: pass expected signer key hex"
      else
        let res := VerifyChainTrusted receipts normalizedKeys in
        if negb (Valid res) then Err ("invalid chain: " +:+ Error res)
        else Ok {| tr_SessionID := sessionID; tr_FinalSeq := FinalSeq res; tr_RootHash := RootHash res;
                   tr_ReceiptCount := ReceiptCount res; tr_StartTime := StartTime res; tr_EndTime := EndTime res |}
  end.

Definition ComputeTranscriptRoot (sessionID : string) (receipts : list Receipt) (expectedKeyHex : string)
    : result TranscriptRoot string :=
  if decide (expectedKeyHex = "") then Err "trust anchor required: pass expected signer key hex"
  else ComputeTranscriptRootTrusted sessionID receipts [expectedKeyHex].

(** ** The segments of a valid chain *)

(** The keys of the maximal runs of receipts with one signer, the first of which
    continues a run of [k]. *)
Fixpoint runKeys (k : string) (rs : list Receipt) : list string :=
  match rs with
  | [] => [k]
  | r :: rs => if decide (r_SignerKey r = k) then runKeys k rs else k :: runKeys (r_SignerKey r) rs
  end.

Lemma runKeys_cons k rs : exists ks, runKeys k rs = k :: ks.
Proof.
  revert k. induction rs as [|r rs IH]; intros k; cbn; [eauto|]. case_decide; [apply IH|eauto].
Qed.

Lemma runKeys_one k rs : runKeys k rs = [k] -> Forall (fun r => r_SignerKey r = k) rs.
Proof.
  induction rs as [|r rs IH]; cbn; [constructor|]. case_decide; [auto|].
  destruct (runKeys_cons (r_SignerKey r) rs) as [ks ->]. done.
Qed.

Lemma runKeys_next k k' ks rs :
  runKeys k rs = k :: k' :: ks ->
  exists s1 r s2, rs = s1 ++ r :: s2 /\ Forall (fun r => r_SignerKey r = k) s1 /\
    r_SignerKey r = k' /\ k' <> k /\ runKeys k' s2 = k' :: ks.
Proof.
  induction rs as [|r rs IH]; cbn; [done|]. destruct (decide (r_SignerKey r = k)) as [Hk|Hk].
  - intros H. destruct (IH H) as (s1 & x & s2 & -> & ? & ? & ? & ?). exists (r :: s1), x, s2. auto.
  - intros [= H]. destruct (runKeys_cons (r_SignerKey r) rs) as [ks' E]. rewrite E in H. injection H as <- <-.
    exists [], r, rs. auto.
Qed.

(** The keys of the segments, with the open one. *)
Definition segKeys (v : chainVerifier) : list string := seg_SignerKey <$> segments (closeSegment v).

(** The open segment is the run of the current key. *)
Definition open_seg (v : chainVerifier) : Prop :=
  exists s, curSeg v = Some s /\ seg_SignerKey s = curKey v.

Lemma segKeys_open v s : curSeg v = Some s -> segKeys v = (seg_SignerKey <$> segments v) ++ [seg_SignerKey s].
Proof. intros H. unfold segKeys, closeSegment. rewrite H. cbn. by rewrite fmap_app. Qed.

Lemma validateSessionControl_segments v r v' :
  validateSessionControl v r = Ok v' -> segments v' = segments v /\ curSeg v' = curSeg v /\ curKey v' = curKey v.
Proof.
  unfold validateSessionControl, validateOpen, validateClose. intros H. repeat case_match; simplify_eq/=; done.
Qed.

Lemma advanceReceiptHash_segments v r v' :
  advanceReceiptHash v r = Ok v' -> open_seg v ->
  open_seg v' /\ segKeys v' = segKeys v /\ curKey v' = curKey v.
Proof.
  unfold advanceReceiptHash. destruct (ReceiptHash r); [|done]. intros [= <-] (s & Hs & Hk).
  rewrite (segKeys_open _ _ Hs). cbn. rewrite Hs. cbn. unfold open_seg, segKeys. cbn. rewrite fmap_app. eauto.
Qed.

(** What the rest of a step leaves of the segments after the receipt entered. *)
Lemma verifyStep_enter v i r v' :
  verifyStep v i r = Ok v' ->
  exists v1, enter (with_index i v) i r = Ok v1 /\ r_SignerKey r = curKey v1 /\
    (open_seg v1 -> open_seg v' /\ segKeys v' = segKeys v1 /\ curKey v' = curKey v1).
Proof.
  unfold verifyStep. destruct (enter (with_index i v) i r) as [v1|] eqn:E1; [|done].
  unfold verifyReceiptIntegrity. destruct (VerifyWithKey r (curKey v1)) as [[]|] eqn:EV; [|done].
  apply VerifyWithKey_signer in EV. do 2 (case_decide; [done|]). intros HA. exists v1. split_and!; [done|done|].
  intros Ho. destruct (if integrityOnly v1 then Ok v1 else validateSessionControl v1 r) as [v2|] eqn:E3; [|done].
  assert (segments v2 = segments v1 /\ curSeg v2 = curSeg v1 /\ curKey v2 = curKey v1) as (A1 & A2 & A3).
  { destruct (integrityOnly v1); [by injection E3 as <-|]. by eapply validateSessionControl_segments. }
  destruct (advanceReceiptHash_segments _ _ _ HA) as (B1 & B2 & B3).
  { unfold open_seg. by rewrite A2, A3. }
  rewrite B2, B3, A3. split_and!; [done| |done]. unfold segKeys, closeSegment. rewrite A2. destruct (curSeg v1); cbn; by rewrite A1.
Qed.

Lemma verifyStep_segments v i r v' :
  i <> 0 -> verifyStep v i r = Ok v' -> open_seg v ->
  open_seg v' /\ r_SignerKey r = curKey v' /\
  (if decide (r_SignerKey r = curKey v) then segKeys v' = segKeys v else segKeys v' = segKeys v ++ [r_SignerKey r]).
Proof.
  intros Hi H (s & Hs & Hk). apply verifyStep_enter in H as (v1 & He & Hr & Hrest).
  unfold enter in He. rewrite decide_False in He by done.
  destruct (ar_KeyTransition (r_ActionRecord r)) as [m|].
  - unfold startRotatedSegment in He. do 4 (case_decide; [done|]).
    destruct (decide (r_SignerKey r = curKey (with_index i v))) as [Hc|Hc]; [done|].
    destruct (match curSeg _ with Some _ => _ | None => _ end); [done|].
    destruct (match sessionOpen _ with Some _ => _ | None => _ end); [|done].
    destruct (keyTrusted _ _); [|done]. cbn [negb] in He. injection He as <-. cbn in Hc.
    destruct Hrest as (Ho & HK & HC); [unfold closeSegment; cbn; rewrite Hs; cbn; by eexists|].
    rewrite decide_False by done. split_and!; [done|by rewrite HC|].
    rewrite HK. unfold segKeys, closeSegment. cbn. rewrite !Hs. cbn. by rewrite !fmap_app.
  - assert (v1 = with_index i v) as ->.
    { unfold checkContinuation in He. repeat case_match; simplify_eq/=; done. }
    destruct Hrest as (Ho & HK & HC); [by exists s|]. cbn in Hr.
    rewrite decide_True by done. split_and!; [done|by rewrite HC|].
    rewrite HK. unfold segKeys, closeSegment. cbn. by rewrite Hs.
Qed.

Lemma walk_segments v i rs v' :
  0 < i -> walk v i rs = Ok v' -> open_seg v ->
  exists pre, segKeys v = pre ++ [curKey v] /\ segKeys v' = pre ++ runKeys (curKey v) rs.
Proof.
  revert v i. induction rs as [|r rs IH]; intros v i Hi; cbn [walk].
  - intros [= ->] (s & Hs & Hk). exists (seg_SignerKey <$> segments v'). rewrite (segKeys_open _ _ Hs), Hk. done.
  - destruct (verifyStep v i r) as [v1|] eqn:E; [|done]. intros HW (s & Hs & Hk).
    assert (i <> 0) as Hn by lia. destruct (verifyStep_segments _ _ _ _ Hn E) as (Ho & Hr & HK); [by exists s|].
    destruct (IH v1 (i + 1)) as (pre & H1 & H2); [lia|done|done|].
    pose proof (segKeys_open _ _ Hs) as HS. rewrite Hk in HS. cbn [runKeys].
    destruct (decide (r_SignerKey r = curKey v)) as [Hc|Hc].
    + exists pre. rewrite <- HK, H1, <- Hr, Hc in *. split; [done|]. by rewrite H2.
    + rewrite H1, HS in HK. apply app_inj_tail in HK as [-> _]. eexists. split; [exact HS|].
      rewrite H2, <- app_assoc, Hr. done.
Qed.

(** The segments of a valid chain are its runs of one signer. *)
Lemma valid_segments r rs keys :
  Valid (VerifyChainTrusted (r :: rs) keys) = true ->
  seg_SignerKey <$> Segments (VerifyChainTrusted (r :: rs) keys) = runKeys (r_SignerKey r) rs.
Proof.
  intros HV. apply VerifyChainTrusted_valid in HV as [-> HV]. revert HV. cbn [verifyChainTrusted].
  destruct (normalizeTrustedKeys keys) as [out|e]; [|done]. unfold run.
  destruct (walk (newVerifier out false) 0 (r :: rs)) as [v|res] eqn:EW.
  2: { apply walk_err in EW. congruence. }
  intros _. cbn [Segments]. change (segKeys v = runKeys (r_SignerKey r) rs).
  cbn [walk] in EW. destruct (verifyStep _ 0 r) as [v1|e] eqn:E; [|done].
  apply verifyStep_enter in E as (v2 & He & Hr & Hrest).
  assert (curSeg v2 = Some (Build_ChainSegment (r_SignerKey r) (ar_ChainSeq (r_ActionRecord r))
            (ar_ChainSeq (r_ActionRecord r)) 0 false) /\ segments v2 = []) as [Hs Hn].
  { revert He. unfold enter, startFirstSegment. rewrite decide_True by done. cbn. clear.
    repeat case_match; intros; simplify_eq/=; done. }
  destruct Hrest as (Ho & HK & HC); [by eexists|].
  destruct (walk_segments v1 (0 + 1) rs v) as (pre & H1 & H2); [done..|].
  rewrite HK, (segKeys_open _ _ Hs), Hn, HC in H1. change ([] ++ [r_SignerKey r] = pre ++ [curKey v2]) in H1.
  apply app_inj_tail in H1 as [<- _]. by rewrite H2, HC, Hr.
Qed.

(** ** The boundaries *)

(** An endorsement of the list authorises the step from [prior] to [next]. *)
Definition authorised (sessionID : string) (endorsements : list RotationEndorsement) (prior next : Receipt) : Prop :=
  exists e, e ∈ endorsements /\ VerifyRotationEndorsement e = Ok tt /\ ro_SessionID e = sessionID /\
    ro_PriorSignerKey e = r_SignerKey prior /\ ro_PriorFinalSeq e = ar_ChainSeq (r_ActionRecord prior) /\
    ReceiptHash prior = Ok (ro_PriorTailHash e) /\ ro_NewSignerKey e = r_SignerKey next.

(** Every change of signer in the list is authorised. *)
Definition rotations_authorised (sessionID : string) (endorsements : list RotationEndorsement) (rs : list Receipt) : Prop :=
  forall a prior next b, rs = a ++ prior :: next :: b -> r_SignerKey prior <> r_SignerKey next ->
    authorised sessionID endorsements prior next.

Lemma matchEndorsement_spec matches used i es found j :
  matchEndorsement matches used i es found = Ok (Some j) ->
  found = Some j \/ (j ∉ used /\ exists k e, j = (i + k)%nat /\ es !! k = Some e /\ matches e = true).
Proof.
  revert i found. induction es as [|e es IH]; intros i found; cbn [matchEndorsement]; [intros [= ->]; by left|].
  assert (forall found, matchEndorsement matches used (S i) es found = Ok (Some j) ->
    found = Some j \/ (j ∉ used /\ exists k e', j = (i + k)%nat /\ (e :: es) !! k = Some e' /\ matches e' = true)) as IH'.
  { intros f Hf. apply IH in Hf as [?|(Hu & k & e' & -> & Hl & Hm)]; [by left|right].
    split; [done|]. exists (S k), e'. split_and!; [lia|done|done]. }
  destruct (decide (i ∈ used)) as [Hu|Hu]; [apply IH'|]. destruct (matches e) eqn:Hm; cbn [negb]; [|apply IH'].
  destruct found as [j'|]; [done|]. intros H. apply IH' in H as [[= ->]|H]; [|by right].
  right. split; [done|]. exists 0%nat, e. split_and!; [lia|done|done].
Qed.

Lemma authorizeBoundary_spec sessionID es k k' pre s0 prior next s2 p used :
  p + 1 = Z.of_nat (length pre) -> k' <> k -> Forall (fun r => r_SignerKey r = k) (s0 ++ [prior]) ->
  r_SignerKey next = k' -> verifyEndorsements es = Ok tt ->
  exists out, authorizeBoundary sessionID (pre ++ (s0 ++ [prior]) ++ next :: s2) es k' p used = Some out /\
    forall p' j, out = Ok (p', j) ->
      p' + 1 = Z.of_nat (length (pre ++ s0 ++ [prior])) /\ (j < length es)%nat /\ j ∉ used /\
      authorised sessionID es prior next.
Proof.
  intros Hp Hk Hs0 Hnext Hes. unfold authorizeBoundary, findRotationPriorTail.
  rewrite Hp, Nat2Z.id, drop_app_length.
  assert (list_find (fun r => r_SignerKey r = k') ((s0 ++ [prior]) ++ next :: s2) = Some (length (s0 ++ [prior]), next)) as ->.
  { rewrite list_find_app_r; [cbn; by rewrite decide_True by done|].
    apply list_find_None. eapply Forall_impl; [exact Hs0|]. cbn. congruence. }
  rewrite length_app. cbn [length].
  assert (index_at (pre ++ (s0 ++ [prior]) ++ next :: s2) (Z.of_nat (length pre) + Z.of_nat (length s0 + 1) - 1) = Some prior) as Hprior.
  { unfold index_at. rewrite decide_False by lia. rewrite lookup_app_r by lia.
    rewrite lookup_app_l by (rewrite length_app; cbn; lia). rewrite lookup_app_r by lia.
    by replace (_ - _ - _)%nat with 0%nat by lia. }
  assert (index_at (pre ++ (s0 ++ [prior]) ++ next :: s2) (Z.of_nat (length pre) + Z.of_nat (length s0 + 1) - 1 + 1) = Some next) as Hn.
  { unfold index_at. rewrite decide_False by lia. rewrite lookup_app_r by lia.
    rewrite lookup_app_r by (rewrite length_app; cbn; lia). rewrite length_app. cbn [length].
    by replace (_ - _ - _)%nat with 0%nat by lia. }
  rewrite Hprior, Hn. cbn [mbind option_bind]. destruct (ReceiptHash prior) as [h|e] eqn:EH; [|by eexists].
  eexists. split; [done|]. intros p' j. destruct (matchEndorsement _ _ _ _ _) as [[i|]|] eqn:EM; [|done..].
  intros [= <- <-]. apply matchEndorsement_spec in EM as [|(Hu & x & e & -> & Hl & Hm)]; [done|].
  split_and!; [rewrite !length_app; cbn; lia|by eapply lookup_lt_Some|done|].
  unfold matchesBoundary in Hm. rewrite !andb_true_iff, !bool_decide_eq_true in Hm. destruct Hm as ((((? & ?) & ?) & ?) & ?).
  exists e. split_and!; try done; [by eapply list_elem_of_lookup_2| |congruence].
  revert Hes. clear -Hl. revert x Hl. induction es as [|a es IH]; intros x Hl; cbn; [done|].
  destruct (VerifyRotationEndorsement a) as [[]|] eqn:E; [|done]. destruct x as [|x]; [by injection Hl as <-|by apply (IH x)].
Qed.

Lemma rotations_none sessionID es k rs :
  Forall (fun r => r_SignerKey r = k) rs -> rotations_authorised sessionID es rs.
Proof.
  intros Hk a x y b -> Hne. rewrite Forall_app, !Forall_cons in Hk. destruct Hk as (_ & ? & ? & _). congruence.
Qed.

Lemma rotations_app sessionID es k s0 prior next s2 :
  Forall (fun r => r_SignerKey r = k) (s0 ++ [prior]) -> authorised sessionID es prior next ->
  rotations_authorised sessionID es (next :: s2) ->
  rotations_authorised sessionID es ((s0 ++ [prior]) ++ next :: s2).
Proof.
  intros Hk Ha Hr. induction s0 as [|c s0 IH]; intros [|c' a] x y b Hl Hne; cbn in Hl.
  - by injection Hl as -> -> ->.
  - injection Hl as -> Hl. by eapply Hr.
  - exfalso. apply Forall_cons in Hk as [Hc Hk]. destruct s0 as [|c2 s0]; cbn in Hl; simplify_eq.
    + apply Forall_cons in Hk as [? _]. congruence.
    + apply Forall_cons in Hk as [? _]. congruence.
  - injection Hl as -> Hl. apply Forall_cons in Hk as [_ Hk]. by eapply (IH Hk).
Qed.

Lemma with_basis_basis b1 b2 base : with_basis b1 (with_basis b2 base) = with_basis b1 base.
Proof. done. Qed.

Lemma authorizeSegments_spec sessionID es segs pre r rs p used base :
  p + 1 = Z.of_nat (length pre) -> runKeys (r_SignerKey r) rs = r_SignerKey r :: (seg_SignerKey <$> segs) ->
  verifyEndorsements es = Ok tt -> used ⊆ list_to_set (seq 0 (length es)) ->
  exists out, authorizeSegments sessionID (pre ++ r :: rs) es segs p used base = Some out /\
    match out with
    | Err res => Valid res = false
    | Ok (used', base') =>
        rotations_authorised sessionID es (r :: rs) /\ size used' = (size used + length segs)%nat /\
        used' ⊆ list_to_set (seq 0 (length es)) /\ exists basis, base' = with_basis basis base
    end.
Proof.
  intros Hp Hruns Hes. revert pre r rs p used base Hp Hruns.
  induction segs as [|seg segs IH]; intros pre r rs p used base Hp Hruns Hused; cbn [authorizeSegments].
  - eexists. split; [done|]. cbn. apply runKeys_one in Hruns. split_and!; [|lia|done|by exists (TrustBasis base); destruct base].
    eapply (rotations_none _ _ (r_SignerKey r)). by constructor.
  - cbn in Hruns. apply runKeys_next in Hruns as (s1 & next & s2 & -> & Hs1 & Hnext & Hne & Hruns).
    assert (exists s0 prior, r :: s1 = s0 ++ [prior]) as (s0 & prior & Hsplit).
    { destruct (exists_last (l := r :: s1)) as (s0 & prior & E); [done|]. by exists s0, prior. }
    assert (Forall (fun x => r_SignerKey x = r_SignerKey r) (s0 ++ [prior])) as Hrun by (rewrite <- Hsplit; by constructor).
    change (r :: s1 ++ next :: s2) with ((r :: s1) ++ next :: s2). rewrite Hsplit.
    destruct (authorizeBoundary_spec sessionID es (r_SignerKey r) (seg_SignerKey seg) pre s0 prior next s2 p used)
      as (out & -> & Hout); [done..|]. cbn [mbind option_bind].
    destruct out as [[p' j]|e]; [|eexists; split; [done|]; by unfold endorsementFailure].
    destruct (Hout p' j eq_refl) as (Hp' & Hj & Hju & Ha).
    destruct (IH (pre ++ s0 ++ [prior]) next s2 p' ({[j]} ∪ used) (with_basis (TrustBasis base ++ ["endorsed"]) base))
      as (out & E & Ho); [done|by rewrite Hnext| |].
    { intros x [->%elem_of_singleton|Hx]%elem_of_union; [|by apply Hused]. apply elem_of_list_to_set, elem_of_seq. lia. }
    rewrite <- app_assoc in E. eexists. split; [exact E|]. destruct out as [[used' base']|]; [|done].
    destruct Ho as (Hr & Hsize & Hsub & basis & ->). split_and!; [|rewrite Hsize, size_union, size_singleton; cbn; [lia|set_solver]|done|].
    + by eapply rotations_app.
    + exists basis. by rewrite with_basis_basis.
Qed.

Lemma size_used (used : gset nat) n : used ⊆ list_to_set (seq 0 n) -> (size used <= n)%nat.
Proof.
  intros H. apply subseteq_size in H. rewrite size_list_to_set in H by apply NoDup_seq. by rewrite length_seq in H.
Qed.

(** ** The recorder session *)

Lemma checkOpens_spec expected boundary i rs found b :
  checkOpens expected boundary i rs found = Ok b ->
  Forall (fun r => forall o, sessionOpen (ar_SessionControl (r_ActionRecord r)) = Some o -> so_RecorderSession o = expected) rs.
Proof.
  revert i found. induction rs as [|r rs IH]; intros i found; cbn [checkOpens]; [constructor|].
  destruct (sessionOpen _) as [open|] eqn:E.
  - destruct (decide (so_RecorderSession open = expected)) as [Hs|Hs]; [|by rewrite decide_True].
    rewrite decide_False by (by intros []). intros H. constructor; [|by eapply IH]. intros o Ho. congruence.
  - intros H. constructor; [congruence|by eapply IH].
Qed.

(** ** The theorem *)

Definition session_named (expected : string) (r : Receipt) : Prop :=
  forall o, sessionOpen (ar_SessionControl (r_ActionRecord r)) = Some o -> so_RecorderSession o = expected.

(** What an accepted rotated chain is: linked, signed receipt by receipt, begun
    under a root key, every change of signer authorised, every endorsement used. *)
Definition endorsed_chain (sessionID : string) (es : list RotationEndorsement) (roots : list string)
    (receipts : list Receipt) (res : ChainResult) : Prop :=
  (exists first, head receipts = Some first /\ r_SignerKey first ∈ Strings.TrimSpace <$> roots) /\
  (exists h0, genesis_shaped h0 /\ chained h0 receipts (RootHash res)) /\
  Forall (fun r => VerifyWithKey r (r_SignerKey r) = Ok tt) receipts /\
  rotations_authorised sessionID es receipts /\
  length (Segments res) = S (length es) /\
  Forall (session_named sessionID) receipts.

(** C7: every key of an endorsed chain is authorised down from a root: the
    verifier never panics, and a non-empty chain that it accepts begins under
    one of the caller's root keys; each later change of signer is covered by a
    verifying endorsement of the retiring key that names the session, the
    retiring key's last sequence number and receipt hash, and the successor;
    there is no endorsement besides; and the chain is linked, each receipt is
    signed by its key, and every signed opening names the session. *)
Theorem endorsed_rotations_authorised sessionID receipts es roots :
  exists res, VerifyChainWithEndorsements sessionID receipts es roots = Some res /\
    (receipts <> [] -> Valid res = true -> endorsed_chain sessionID es roots receipts res).
Proof.
  unfold VerifyChainWithEndorsements. case_decide; [by eexists|].
  destruct receipts as [|first rs]; [case_decide; by eexists|].
  set (base := VerifyChainTrusted (first :: rs) (allKeys (first :: rs))). 
  destruct (Valid base) eqn:HV; cbn [negb]; [|eexists; split; [done|congruence]].
  destruct (normalizeTrustedKeys roots) as [keys|e] eqn:EN; [|by eexists].
  apply normalizeTrustedKeys_Ok in EN as ->. case_decide; [by eexists|].
  destruct (decide (r_SignerKey first ∈ Strings.TrimSpace <$> roots)) as [Hroot|Hroot];
    [rewrite decide_False by tauto|rewrite decide_True by done; by eexists].
  destruct (verifySignedRecorderSession sessionID (first :: rs)) as [u|e] eqn:ES; [|by eexists].
  destruct (verifyEndorsements es) as [[]|[key e]] eqn:EE; [|by eexists].
  pose proof (valid_segments first rs _ HV) as HS. fold base in HS.
  destruct (runKeys_cons (r_SignerKey first) rs) as [ks HR]. rewrite HR in HS.
  destruct (Segments base) as [|seg segs] eqn:ESeg; [done|]. injection HS as HS1 HS2. cbn [tail].
  destruct (authorizeSegments_spec sessionID es segs [] first rs (-1) ∅ (with_basis ["root"] base))
    as (out & Hout & Hspec); [done|rewrite HR; f_equal; exact (eq_sym HS2)|done|set_solver|].
  change ([] ++ first :: rs) with (first :: rs) in Hout. rewrite Hout. cbn [mbind option_bind].
  destruct out as [[used base']|res]; [|eexists; split; [done|congruence]].
  destruct Hspec as (Hrot & Hsize & Hsub & basis & ->).
  destruct (decide (size used = length es)) as [Hlen|Hlen]; [rewrite decide_False by tauto|rewrite decide_True by done; by eexists].
  eexists. split; [done|]. intros _ _.
  apply VerifyChainTrusted_valid in HV as HV'. fold base in HV'. destruct HV' as [Hb HV'].
  destruct (verifyChainTrusted_valid (first :: rs) _ false ltac:(done) HV') as (_ & _ & _ & h0 & Hg & Hc & Hsig).
  rewrite <- Hb in Hc. split_and!; [by exists first|by exists h0| |done| |].
  - eapply Forall_impl; [exact Hsig|]. by intros r [_ ?].
  - cbn [Segments with_basis]. rewrite ESeg, <- Hlen, Hsize, size_empty. done.
  - unfold verifySignedRecorderSession in ES. destruct (checkOpens _ _ _ _ _) as [b|] eqn:EC; [|done].
    by eapply checkOpens_spec.
Qed.

(** The transcript root of a chain is the root hash of its verification. *)
Lemma ComputeTranscriptRootTrusted_Ok sessionID receipts keys root :
  ComputeTranscriptRootTrusted sessionID receipts keys = Ok root ->
  receipts <> [] /\ keys <> [] /\
  exists normalized, normalizeTrustedKeys keys = Ok normalized /\
    Valid (VerifyChainTrusted receipts normalized) = true /\
    tr_RootHash root = RootHash (VerifyChainTrusted receipts normalized).
Proof.
  unfold ComputeTranscriptRootTrusted. case_decide as Hn; [done|].
  destruct (normalizeTrustedKeys keys) as [ks|] eqn:EN; [|done]. case_decide as Hk; [done|].
  destruct (Valid _) eqn:HV; [|done]. intros [= <-]. split_and!; [by intros ->| |by exists ks].
  intros ->. by injection EN as <-.
Qed.
End endorsed.

(** ** A concrete rotation *)

Definition pad32 (s : string) : string := substring 0 32 (s +:+ "................................").

#[local] Instance pad_crypto : CryptoLib :=
  {| sum256 := pad32; ed25519_Verify _ _ _ := true; quote s := s; hexError s := s; unicode_lower s := s |}.
#[local] Existing Instance demo_json.

Definition rotated_hash (id : string) : string := Hex.EncodeToString (pad32 id).
Definition rotated_genesis : string := ComputeSessionOpenGenesis (demo_open "n" "").

Definition rotated_r0 : Receipt :=
  demo_receipt "0" "a" rotated_genesis 0 "n"
    (Some {| ctl_Kind := SessionControlOpen; ctl_Open := Some (demo_open "n" rotated_genesis);
             ctl_Heartbeat := None; ctl_Close := None |}).

(** The first receipt of the second key carries the transition. *)
Definition rotated_r1 : Receipt :=
  demo_rotated "1" "b" (rotated_hash "a") 0 ""
    (Some {| kt_PriorSignerKey := demo_signer "0"; kt_PriorChainSeq := 0; kt_PriorChainHash := rotated_hash "a" |}) None.

Definition rotated_endorsement : RotationEndorsement :=
  {| ro_Version := 1; ro_SessionID := "rec"; ro_PriorSignerKey := demo_signer "0"; ro_PriorFinalSeq := 0;
     ro_PriorTailHash := rotated_hash "a"; ro_NewSignerKey := demo_signer "1";
     ro_RotatedAt := "2026-01-01T00:00:00Z"; ro_Endorsement := demo_signature |}.

Definition rotated_chain : list Receipt := [rotated_r0; rotated_r1].

Definition rotated_result (es : list RotationEndorsement) : option (bool * string) :=
  (fun res => (Valid res, Error res)) <$> VerifyChainWithEndorsements "rec" rotated_chain es [demo_signer "0"].

Lemma endorsed_rotations_authorised_witness :
  authorised "rec" [rotated_endorsement] rotated_r0 rotated_r1.
Proof.
  destruct (endorsed_rotations_authorised "rec" rotated_chain [rotated_endorsement] [demo_signer "0"]) as (res & E & H).
  destruct H as (_ & _ & _ & Hrot & _); [discriminate| |].
  - assert (Valid <$> VerifyChainWithEndorsements "rec" rotated_chain [rotated_endorsement] [demo_signer "0"] = Some true)
      as HV by (vm_compute; reflexivity).
    rewrite E in HV. injection HV. trivial.
  - apply (Hrot [] rotated_r0 rotated_r1 []); [reflexivity|discriminate].
Defined.

(** Without the endorsement the new key is refused, and so is one endorsement too many. *)
Example unendorsed_rotation_refused :
  rotated_result [] = Some (false, "rotation endorsement does not match receipt boundary") /\
  rotated_result [rotated_endorsement; rotated_endorsement] =
    Some (false, "multiple rotation endorsements match one receipt boundary").
Proof. vm_compute. auto. Qed.
