(* ===== verification/RecorderEntry.v ===== *)
(** * Evidence entries: schema, hash projections and the chain verifier

    [internal/recorder/entry.go]. The encoders of [encoding/json] and the time
    format are the class [EntryLib]; SHA-256 and Ed25519 are those of Receipt.v.
    An [error] is its text. *)

From S2P Require Import Prelude GoStrings Taint Receipt.
Local Open Scope Z_scope.

Record CheckpointDetail := {
  cp_EntryCount : Z;
  cp_FirstSeq : Z;
  cp_LastSeq : Z;
  cp_Signature : string;
}.

(** [Detail] is the type of the decoded details; [json_Detail] marshals one
    ([None] is an error), [decodeDetail] unmarshals into an [any],
    [checkpointOf] into a [CheckpointDetail]; [formatTime] is the RFC 3339 text
    of a time in UTC with nanoseconds. *)
Class EntryLib := {
  Detail : Type;
  json_Detail : Detail -> option string;
  decodeDetail : string -> option Detail;
  checkpointOf : string -> option CheckpointDetail;
  formatTime : Z -> string;
}.

Definition CurrentWriteEntryVersion : Z := 2.
Definition ChainKindRecorder : string := "recorder".
Definition MaxEntryLineBytes : Z := 1048576.
Definition acceptedEntryVersionList : list Z := [1; 2; 3].
Definition GenesisHash : string := "genesis".
Definition NUL : ascii := zero.

Section entry.
Context {crypto : CryptoLib} {elib : EntryLib}.

Record Entry := {
  e_Version : Z;
  e_Sequence : Z;
  e_Timestamp : Z;
  e_SessionID : string;
  e_ChainKind : string;
  e_WriterInstanceID : string;
  e_TraceID : string;
  e_Type : string;
  e_EventKind : string;
  e_Transport : string;
  e_Summary : string;
  e_Detail : Detail;
  e_RawDetail : option string;
  e_RawRef : string;
  e_PrevHash : string;
  e_Hash : string;
}.

(** ** Schema *)

Definition IsAcceptedEntryVersion (version : Z) : bool := bool_decide (version ∈ acceptedEntryVersionList).

Definition EntryVersionHasNamespace (version : Z) : bool := bool_decide (version = 3).

Definition ValidateEntryNamespace (version : Z) (chainKind writerInstanceID : string) : result unit string :=
  if EntryVersionHasNamespace version then
    if decide (chainKind = "") then Err "v3 chain_kind required"
    else if decide (writerInstanceID = "") then Err "v3 writer_instance_id required"
    else if Strings.ContainsByte chainKind NUL then Err "v3 chain_kind cannot contain NUL"
    else if Strings.ContainsByte writerInstanceID NUL then Err "v3 writer_instance_id cannot contain NUL"
    else Ok tt
  else if decide (chainKind <> "" \/ writerInstanceID <> "")
  then Err "legacy entry cannot carry v3 recorder namespace fields"
  else Ok tt.

(** The fields whose text is checked, by name. *)
Definition schemaFields (e : Entry) : list (string * string) :=
  [("session_id", e_SessionID e); ("trace_id", e_TraceID e); ("type", e_Type e);
   ("transport", e_Transport e); ("summary", e_Summary e); ("raw_ref", e_RawRef e); ("prev_hash", e_PrevHash e)] ++
  (if decide (2 <= e_Version e) then [("event_kind", e_EventKind e)] else []) ++
  (if EntryVersionHasNamespace (e_Version e)
   then [("chain_kind", e_ChainKind e); ("writer_instance_id", e_WriterInstanceID e)] else []).

(** The code walks a map, so which of several bad fields the error names is left
    open there; here it is the first. *)
Definition ValidateEntrySchema (e : Entry) : result unit string :=
  (check ValidateEntryNamespace (e_Version e) (e_ChainKind e) (e_WriterInstanceID e);
   match List.find (fun nv => Strings.ContainsByte nv.2 NUL) (schemaFields e) with
   | Some (name, _) => Err ("v" +:+ pretty (e_Version e) +:+ " " +:+ name +:+ " cannot contain NUL")
   | None => Ok tt
   end)%go.

Definition EntryVersionsCanShareChain (tailVersion writeVersion : Z) : bool :=
  eqb (EntryVersionHasNamespace tailVersion) (EntryVersionHasNamespace writeVersion).

(** ** Hashes *)

Definition detailJSONForHash (e : Entry) : string :=
  match e_RawDetail e with
  | Some raw => raw
  | None => default "null" (json_Detail (e_Detail e))
  end.

(** The projected fields of the three versions. *)
Definition fieldsV1 (e : Entry) : list string :=
  [pretty (e_Version e); pretty (e_Sequence e); formatTime (e_Timestamp e); e_SessionID e; e_TraceID e;
   e_Type e; e_Transport e; e_Summary e; default "null" (json_Detail (e_Detail e)); e_RawRef e; e_PrevHash e].

Definition fieldsV2 (e : Entry) : list string :=
  [pretty (e_Version e); pretty (e_Sequence e); formatTime (e_Timestamp e); e_SessionID e; e_TraceID e;
   e_Type e; e_EventKind e; e_Transport e; e_Summary e; detailJSONForHash e; e_RawRef e; e_PrevHash e].

Definition fieldsV3 (e : Entry) : list string :=
  [pretty (e_Version e); pretty (e_Sequence e); formatTime (e_Timestamp e); e_SessionID e; e_ChainKind e;
   e_WriterInstanceID e; e_TraceID e; e_Type e; e_EventKind e; e_Transport e; e_Summary e;
   detailJSONForHash e; e_RawRef e; e_PrevHash e].

(** What [h.Write] is given: the fields with a NUL between them. *)
Definition hashFields (fields : list string) : string :=
  Hex.EncodeToString (sum256 (Strings.Join fields NUL)).

Definition computeHashV1 (e : Entry) : string := hashFields (fieldsV1 e).
Definition computeHashV2 (e : Entry) : string := hashFields (fieldsV2 e).
Definition computeHashV3 (e : Entry) : string := hashFields (fieldsV3 e).

Definition ComputeHash (e : Entry) : string :=
  if decide (e_Version e = 1) then computeHashV1 e
  else if decide (e_Version e = 2) then computeHashV2 e
  else if decide (e_Version e = 3) then computeHashV3 e
  else "".

(** ** The verifier *)

Definition seqError (e : Entry) (msg : string) : string := "entry seq " +:+ pretty (e_Sequence e) +:+ ": " +:+ msg.

Fixpoint VerifyCheckpoints (entries : list Entry) (pubKey : string) : result unit string :=
  match entries with
  | [] => Ok tt
  | e :: entries =>
      if decide (e_Type e <> "checkpoint") then VerifyCheckpoints entries pubKey
      else match json_Detail (e_Detail e) with
      | None => Err (seqError e "marshaling checkpoint detail")
      | Some detailJSON =>
      match checkpointOf detailJSON with
      | None => Err (seqError e "unmarshaling checkpoint detail")
      | Some cpDetail =>
      if decide (cp_Signature cpDetail = "") then Err (seqError e "checkpoint missing signature")
      else match Hex.DecodeString (cp_Signature cpDetail) with
      | None => Err (seqError e "decoding checkpoint signature")
      | Some sig =>
      if negb (ed25519_Verify pubKey (e_PrevHash e) sig)
      then Err (seqError e "checkpoint signature verification failed")
      else VerifyCheckpoints entries pubKey
      end end end
  end.

(** The namespace the verifier has adopted: session, chain kind, writer. *)
Definition namespace : Type := string * string * string.

(** The namespace rules for one entry; the namespace that holds after it. *)
Definition checkNamespace (prev : option Entry) (ns : namespace) (e : Entry) : result namespace string :=
  let '(v3SessionID, v3ChainKind, v3WriterInstanceID) := ns in
  if EntryVersionHasNamespace (e_Version e) then
    if match prev with Some p => negb (EntryVersionHasNamespace (e_Version p)) | None => false end
    then Err (seqError e "v3 chain cannot continue a legacy recorder namespace")
    else if decide (v3ChainKind = "") then Ok (e_SessionID e, e_ChainKind e, e_WriterInstanceID e)
    else if decide (e_SessionID e <> v3SessionID \/ e_ChainKind e <> v3ChainKind \/ e_WriterInstanceID e <> v3WriterInstanceID)
    then Err (seqError e "v3 chain namespace changed")
    else Ok ns
  else if decide (v3ChainKind <> "") then Err (seqError e "legacy entry cannot continue a v3 recorder namespace")
  else Ok ns.

(** The loop body. *)
Definition verifyEntry (prev : option Entry) (ns : namespace) (e : Entry) : result namespace string :=
  if negb (IsAcceptedEntryVersion (e_Version e))
  then Err (seqError e ("unsupported version " +:+ pretty (e_Version e) +:+ " (accepted: 1, 2, 3)"))
  else match ValidateEntrySchema e with
  | Err err => Err (seqError e err)
  | Ok _ =>
      (ns <-? checkNamespace prev ns e;
       if decide (ComputeHash e <> e_Hash e)
       then Err (seqError e ("hash mismatch: computed " +:+ ComputeHash e +:+ ", stored " +:+ e_Hash e))
       else match prev with
       | None =>
           if decide (e_PrevHash e <> GenesisHash)
           then Err (seqError e ("first entry PrevHash should be " +:+ quote GenesisHash +:+ ", got " +:+ quote (e_PrevHash e)))
           else Ok ns
       | Some p =>
           if decide (e_PrevHash e <> e_Hash p)
           then Err (seqError e ("chain break: PrevHash " +:+ e_PrevHash e +:+ " != previous Hash " +:+ e_Hash p))
           else Ok ns
       end)%go
  end.

Fixpoint verifyEntries (prev : option Entry) (ns : namespace) (entries : list Entry) : result unit string :=
  match entries with
  | [] => Ok tt
  | e :: entries => (ns <-? verifyEntry prev ns e; verifyEntries (Some e) ns entries)%go
  end.

(** [VerifyChain]; the optional argument is the key of the checkpoints. *)
Definition VerifyChain (entries : list Entry) (pubKey : option string) : result unit string :=
  (check verifyEntries None ("", "", "") entries;
   match pubKey with Some pub => VerifyCheckpoints entries pub | None => Ok tt end)%go.

(** ** Text without NUL *)

Definition nul_free (s : string) : Prop := Strings.ContainsByte s NUL = false.

Lemma nul_free_app x y : nul_free x -> nul_free y -> nul_free (x +:+ y).
Proof. unfold nul_free. rewrite Strings.ContainsByte_app. by intros -> ->. Qed.

Lemma pretty_N_go_nul_free x s : nul_free s -> nul_free (pretty_N_go x s).
Proof.
  revert s. induction (N.lt_wf_0 x) as [x _ IH]; intros s Hs.
  destruct (decide (0 < x)%N) as [Hx|Hx]; [|assert (x = 0%N) as -> by lia; by rewrite pretty_N_go_0].
  rewrite pretty_N_go_step by done. apply IH; [by apply N.div_lt|].
  unfold nul_free. cbn. rewrite decide_False; [done|]. unfold pretty_N_char. by repeat case_match.
Qed.

Lemma pretty_N_nul_free (n : N) : nul_free (pretty n).
Proof. unfold pretty, pretty_N. case_decide; [done|]. by apply pretty_N_go_nul_free. Qed.

Lemma pretty_Z_nul_free (z : Z) : nul_free (pretty z).
Proof.
  destruct z as [|p|p]; [done|apply (pretty_N_nul_free (N.pos p))|].
  apply (nul_free_app "-"); [done|apply (pretty_N_nul_free (N.pos p))].
Qed.

(** The fields the hash of an entry covers. *)
Definition projected (e : Entry) : list string :=
  if decide (e_Version e = 1) then fieldsV1 e
  else if decide (e_Version e = 2) then fieldsV2 e else fieldsV3 e.

Lemma ComputeHash_projected e :
  IsAcceptedEntryVersion (e_Version e) = true -> ComputeHash e = hashFields (projected e).
Proof.
  unfold IsAcceptedEntryVersion, acceptedEntryVersionList, ComputeHash, projected. rewrite bool_decide_eq_true.
  intros H. repeat case_decide; try done. set_unfold. naive_solver.
Qed.

(** The JSON and time texts of an entry hold no NUL: JSON escapes it. *)
Definition text_clean (e : Entry) : Prop :=
  nul_free (formatTime (e_Timestamp e)) /\ nul_free (default "null" (json_Detail (e_Detail e))) /\
  (forall raw, e_RawDetail e = Some raw -> nul_free raw).

Lemma ValidateEntrySchema_Ok e :
  ValidateEntrySchema e = Ok tt ->
  ValidateEntryNamespace (e_Version e) (e_ChainKind e) (e_WriterInstanceID e) = Ok tt /\
  Forall (fun nv => nul_free nv.2) (schemaFields e).
Proof.
  unfold ValidateEntrySchema. destruct (ValidateEntryNamespace _ _ _) as [[]|]; [|done].
  destruct (List.find _ _) as [[name v]|] eqn:E; [done|]. intros _. split; [done|].
  apply Forall_forall. intros nv Hnv. apply (find_none _ _ E), list_elem_of_In, Hnv.
Qed.

Lemma projected_nul_free e :
  ValidateEntrySchema e = Ok tt -> IsAcceptedEntryVersion (e_Version e) = true -> text_clean e ->
  Forall nul_free (projected e).
Proof.
  intros HS HV (Ht & Hd & Hr). apply ValidateEntrySchema_Ok in HS as [_ HS].
  assert (nul_free (detailJSONForHash e)) as Hj by (unfold detailJSONForHash; case_match; auto).
  unfold IsAcceptedEntryVersion, acceptedEntryVersionList in HV. apply bool_decide_eq_true in HV.
  assert (e_Version e = 1 \/ e_Version e = 2 \/ e_Version e = 3) as [Hv|[Hv|Hv]] by set_solver;
    unfold schemaFields, EntryVersionHasNamespace in HS; unfold projected; rewrite Hv in HS |- *;
    decide_lia; cbn in HS; rewrite ?Forall_cons in HS; cbn in HS;
    repeat (constructor; [first [apply pretty_Z_nul_free|tauto]|]); constructor.
Qed.

(** ** Linked entries *)

(** An entry that the loop accepts: its version and schema are valid and its
    hash covers the projected fields. *)
Definition sound_entry (e : Entry) : Prop :=
  IsAcceptedEntryVersion (e_Version e) = true /\ ValidateEntrySchema e = Ok tt /\
  e_Hash e = hashFields (projected e).

(** [logged h es h']: the entries link up from the hash [h] to the hash [h']. *)
Inductive logged : string -> list Entry -> string -> Prop :=
| logged_nil h : logged h [] h
| logged_cons e es h' : sound_entry e -> logged (e_Hash e) es h' -> logged (e_PrevHash e) (e :: es) h'.

Lemma verifyEntry_Ok prev ns e ns' :
  verifyEntry prev ns e = Ok ns' ->
  sound_entry e /\ e_PrevHash e = match prev with Some p => e_Hash p | None => GenesisHash end /\
  checkNamespace prev ns e = Ok ns'.
Proof.
  unfold verifyEntry, sound_entry. destruct (IsAcceptedEntryVersion (e_Version e)) eqn:HV; cbn [negb]; [|done].
  destruct (ValidateEntrySchema e) as [[]|] eqn:HS; [|done].
  destruct (checkNamespace prev ns e) as [ns1|] eqn:HN; [|done]. intros H.
  destruct (decide (ComputeHash e = e_Hash e)) as [Hh|Hh]; [|by rewrite decide_True in H].
  rewrite decide_False in H by (by intros []). rewrite <- ComputeHash_projected by done.
  destruct prev as [p|]; (case_decide as Hp; [done|]); injection H as <-; split_and!; try done; by apply dec_stable.
Qed.

Lemma verifyEntries_logged prev ns es :
  verifyEntries prev ns es = Ok tt ->
  exists h', logged (match prev with Some p => e_Hash p | None => GenesisHash end) es h'.
Proof.
  revert prev ns. induction es as [|e es IH]; intros prev ns; cbn [verifyEntries]; [eexists; constructor|].
  destruct (verifyEntry prev ns e) as [ns'|] eqn:E; [|done]. intros H.
  apply verifyEntry_Ok in E as (Hs & <- & _). apply IH in H as [h' Hl]. exists h'. by constructor.
Qed.

Lemma VerifyChain_logged es pub : VerifyChain es pub = Ok tt -> exists h', logged GenesisHash es h'.
Proof.
  unfold VerifyChain. destruct (verifyEntries None ("", "", "") es) as [[]|] eqn:E; [|done]. intros _.
  apply (verifyEntries_logged None _ _ E).
Qed.

Lemma logged_snoc h es e h' :
  logged h (es ++ [e]) h' <-> logged h es (e_PrevHash e) /\ sound_entry e /\ h' = e_Hash e.
Proof.
  split.
  - revert h. induction es as [|x es IH]; intros h H; inversion H as [|? ? ? Hx Hl]; subst.
    + inversion Hl; subst. split_and!; [constructor|done|done].
    + apply IH in Hl as (? & ? & ?). split_and!; [by constructor|done|done].
  - intros (Hl & He & ->). remember (e_PrevHash e) as p eqn:Ep.
    induction Hl as [p|x xs p Hx Hl IH]; cbn; [rewrite Ep; constructor; [done|constructor]|]. constructor; auto.
Qed.

(** A hash is hexadecimal, so it is not the genesis value. *)
Lemma hashFields_not_genesis fields : hashFields fields <> GenesisHash.
Proof.
  unfold hashFields, GenesisHash. intros E. pose proof (Hex.EncodeToString_head _ _ _ E) as H.
  vm_compute in H. discriminate.
Qed.

Definition prevHash_of_fields (fields : list string) : string := default "" (last fields).

Lemma projected_prev e : prevHash_of_fields (projected e) = e_PrevHash e.
Proof. unfold projected. by repeat case_decide. Qed.

Lemma projected_nonempty e : projected e <> [].
Proof. unfold projected. by repeat case_decide. Qed.

Lemma logged_inj h1 h2 es1 es2 h' :
  h1 = GenesisHash -> h2 = GenesisHash -> logged h1 es1 h' -> logged h2 es2 h' ->
  Forall text_clean es1 -> Forall text_clean es2 ->
  (forall a b, a ∈ es1 -> b ∈ es2 ->
     sum256 (Strings.Join (projected a) NUL) = sum256 (Strings.Join (projected b) NUL) ->
     Strings.Join (projected a) NUL = Strings.Join (projected b) NUL) ->
  projected <$> es1 = projected <$> es2.
Proof.
  intros Hg1 Hg2. revert es2 h'. induction es1 as [|e1 es1 IH] using rev_ind; intros es2 h' H1 H2 Hc1 Hc2 Hinj;
    destruct es2 as [|e2 es2 _] using rev_ind; [done|..].
  - inversion H1; subst. apply logged_snoc in H2 as (_ & (_ & _ & Hs) & He).
    exfalso. apply (hashFields_not_genesis (projected e2)). congruence.
  - inversion H2; subst. apply logged_snoc in H1 as (_ & (_ & _ & Hs) & He).
    exfalso. apply (hashFields_not_genesis (projected e1)). congruence.
  - apply logged_snoc in H1 as (H1 & (V1 & S1 & E1) & ->), H2 as (H2 & (V2 & S2 & E2) & E).
    apply Forall_app in Hc1 as [Hc1 Ht1], Hc2 as [Hc2 Ht2].
    rewrite Forall_singleton in Ht1. rewrite Forall_singleton in Ht2.
    assert (projected e1 = projected e2) as Hp.
    { rewrite <- (Strings.Split_Join (projected e1) NUL), <- (Strings.Split_Join (projected e2) NUL);
        [|apply projected_nonempty|by apply projected_nul_free|apply projected_nonempty|by apply projected_nul_free].
      f_equal. apply Hinj; [apply elem_of_app; right; left|apply elem_of_app; right; left|].
      apply Hex.EncodeToString_inj. change (hashFields (projected e1) = hashFields (projected e2)). congruence. }
    rewrite !fmap_app. cbn. rewrite Hp. f_equal. pose proof (projected_prev e1) as P1. pose proof (projected_prev e2) as P2.
    rewrite Hp, P2 in P1. rewrite <- P1 in H1. eapply IH; [exact H1|exact H2|done..|].
    intros a b Ha Hb. apply Hinj; apply elem_of_app; by left.
Qed.

(** C6: the last hash of an evidence log commits to the whole log: two logs that
    verify and end in the same hash agree, entry by entry, on every field the
    hash covers (version, sequence number, time, session, namespace, type, kind,
    transport, summary, detail text, escrow reference, link), so nothing was
    altered, dropped, inserted, reordered or cut off, unless two projections of
    the logs collide under SHA-256. Joining the fields with NUL is injective
    because the verifier refuses NUL in them and JSON and time texts have none. *)
Theorem head_hash_determines_log es1 es2 pub1 pub2 e1 e2 :
  VerifyChain es1 pub1 = Ok tt -> VerifyChain es2 pub2 = Ok tt ->
  last es1 = Some e1 -> last es2 = Some e2 -> e_Hash e1 = e_Hash e2 ->
  Forall text_clean es1 -> Forall text_clean es2 ->
  (forall a b, a ∈ es1 -> b ∈ es2 ->
     sum256 (Strings.Join (projected a) NUL) = sum256 (Strings.Join (projected b) NUL) ->
     Strings.Join (projected a) NUL = Strings.Join (projected b) NUL) ->
  projected <$> es1 = projected <$> es2.
Proof.
  intros V1 V2 L1 L2 Hh Hc1 Hc2 Hinj.
  apply VerifyChain_logged in V1 as [h1 G1], V2 as [h2 G2].
  apply last_Some in L1 as [es1' ->], L2 as [es2' ->].
  pose proof G1 as (_ & _ & ->)%logged_snoc. pose proof G2 as (_ & _ & ->)%logged_snoc. rewrite <- Hh in G2.
  by eapply logged_inj.
Qed.
End entry.

(** ** A concrete log *)

#[local] Existing Instance demo_crypto.

(** Details are their own JSON text; a checkpoint's is its signature. *)
#[local] Instance demo_entries : EntryLib :=
  {| Detail := string; json_Detail d := Some d; decodeDetail s := Some s;
     checkpointOf s := Some {| cp_EntryCount := 1; cp_FirstSeq := 0; cp_LastSeq := 0; cp_Signature := s |};
     formatTime t := pretty t |}.

Definition demo_entry (version seq : Z) (typ kind detail prev : string) : Entry :=
  let e h := {| e_Version := version; e_Sequence := seq; e_Timestamp := 7; e_SessionID := "s"; e_ChainKind := "";
                e_WriterInstanceID := ""; e_TraceID := ""; e_Type := typ; e_EventKind := kind; e_Transport := "http";
                e_Summary := "x"; e_Detail := detail; e_RawDetail := None; e_RawRef := ""; e_PrevHash := prev;
                e_Hash := h |} in
  e (ComputeHash (e "")).

(** A log of a first-version entry, a decision and a checkpoint. *)
Definition demo_log (kind : string) : list Entry :=
  let e0 := demo_entry 1 0 "decision" kind "{}" GenesisHash in
  let e1 := demo_entry 2 1 "decision" "read" "{}" (e_Hash e0) in
  [e0; e1; demo_entry 2 2 "checkpoint" "checkpoint" "00" (e_Hash e1)].

Lemma demo_log_clean kind : Forall text_clean (demo_log kind).
Proof.
  repeat constructor; cbn -[pretty]; try (apply pretty_Z_nul_free); try done.
Qed.

(** The kind of an entry is not covered before the second version, so two logs
    that differ in it have the same last hash. *)
Lemma head_hash_determines_log_witness :
  projected <$> demo_log "read" = projected <$> demo_log "write".
Proof.
  apply (head_hash_determines_log (demo_log "read") (demo_log "write") None (Some "key")
           (nth 2 (demo_log "read") (demo_entry 1 0 "" "" "" "")) (nth 2 (demo_log "write") (demo_entry 1 0 "" "" "" "")));
    try (vm_compute; reflexivity); try apply demo_log_clean.
  intros a b _ _ H. exact H.
Defined.

(** A log with an entry taken out, altered, or with an unsigned checkpoint is refused. *)
Example tampered_logs_refused :
  is_ok (VerifyChain (demo_log "read") (Some "key")) = true /\
  is_ok (VerifyChain (take 1 (demo_log "read") ++ drop 2 (demo_log "read")) None) = false /\
  is_ok (VerifyChain (tail (demo_log "read")) None) = false /\
  is_ok (VerifyChain [demo_entry 2 0 "checkpoint" "checkpoint" "" GenesisHash] (Some "key")) = false /\
  is_ok (VerifyChain [demo_entry 2 0 "checkpoint" "checkpoint" "" GenesisHash] None) = true.
Proof. vm_compute. auto. Qed.

(** A NUL in a field makes the verifier refuse the log. *)
Example nul_in_kind_refused :
  is_ok (VerifyChain [demo_entry 2 0 "decision" (String NUL "") "{}" GenesisHash] None) = false.
Proof. vm_compute. reflexivity. Qed.
