(* ===== verification/Recorder.v ===== *)
(** * The evidence recorder: the writer of the hash chain

    [internal/recorder/recorder.go]. The methods are operations of the error and
    state monad of Prelude.v. A method holds the recorder's mutex except while it
    waits for the disk; the step relation [rstep] cuts the methods there and
    interleaves them. The files of a session are one list of the entries that
    were written, as a reader gets them back: a write that fails leaves no bytes
    (a torn line is not modelled). Each system call takes its outcome from the
    class [RecorderEnv]; the observer, metrics, expiry and [RecordDecision] are
    left out. *)

From S2P Require Import Prelude GoStrings Taint Receipt RecorderEntry.
Local Open Scope Z_scope.

(** What [os.Stat] finds at the evidence directory: the same directory, an
    error, or another directory (a missing one is created again first). *)
Inductive DirState := DirSame | DirError | DirReplaced.

(** JSON values, for the receipts that redaction rewrites. *)
Inductive JSON :=
| JNull
| JBool (b : bool)
| JNumber (text : string)
| JString (s : string)
| JArray (l : list JSON)
| JObject (fields : list (string * JSON)).

Record RecorderConfig := {
  cf_CheckpointInterval : Z;
  cf_Redact : bool;
  cf_SignCheckpoints : bool;
  cf_MaxEntriesPerFile : Z;
  cf_RawEscrow : bool;
}.

Record evidenceFile := {
  f_size : Z;
  f_broken : bool;   (** the sticky error of its [bufio.Writer] *)
}.

Definition defaultCheckpointInterval : Z := 1000.
Definition defaultMaxEntriesPerFile : Z := 10000.
Definition checkpointType : string := "checkpoint".
Definition recorderTypeReceipt : string := "action_receipt".
Definition eventKindCheckpoint : string := "checkpoint".
Definition MaxEvidenceReadFileBytes : Z := 8388608.
Definition maxCheckpointBound : Z := 9007199254740992.

(** [safeUint64]. *)
Definition safeUint64 (v fallback : Z) : Z :=
  let v := if decide (v < 1) then fallback else v in
  if decide (wrapu64 v > maxCheckpointBound) then maxCheckpointBound else wrapu64 v.

Section recorder.
Context {crypto : CryptoLib} {elib : EntryLib}.

(** The environment of a recorder. [json_line e raw] is the JSON line of an
    entry whose detail is encoded as [raw], without its newline; [isNil],
    [ofJSON], [checkpointDetail] and [decodeObject] relate details to JSON;
    [redactFn] scans a text and tells whether it is clean, with the names of the
    patterns found; [sign] is [ed25519.Sign] with the recorder's key, if it has
    one. The others are indexed by the number of the system call. *)
Class RecorderEnv := {
  json_line : Entry -> string -> string;
  isNil : Detail -> bool;
  ofJSON : JSON -> Detail;
  checkpointDetail : CheckpointDetail -> Detail;
  decodeObject : string -> option (list (string * JSON));
  redactFn : option (string -> bool * list string);
  sign : option (string -> string);
  clock : nat -> Z;
  dirState : nat -> DirState;
  callFails : nat -> bool;
  openSize : nat -> Z;
  escrowName : nat -> string -> option string;
}.

Context {env : RecorderEnv}.

(** ** State *)

Record Recorder := {
  rr_cfg : RecorderConfig;
  rr_seq : Z;
  rr_prevHash : string;
  rr_file : option evidenceFile;
  rr_fileEntryCount : Z;
  rr_fileSeqStart : Z;
  rr_fileGeneration : Z;
  rr_sessionID : string;
  rr_checkpointThreshold : Z;
  rr_sinceCheckpoint : Z;
  rr_firstSeqInSpan : Z;
  rr_closed : bool;
  rr_disk : gmap string (list Entry);
  rr_io : nat;
}.

(** The entries of a session, in the order they were written. *)
Definition diskOf (r : Recorder) (session : string) : list Entry := default [] (rr_disk r !! session).

(** The chain state: sequence number, last hash, session, entries since the
    last checkpoint and the first sequence number they may have. *)
Definition with_chain (seq : Z) (prev session : string) (since first : Z) (r : Recorder) : Recorder :=
  {| rr_cfg := rr_cfg r; rr_seq := seq; rr_prevHash := prev; rr_file := rr_file r;
     rr_fileEntryCount := rr_fileEntryCount r; rr_fileSeqStart := rr_fileSeqStart r;
     rr_fileGeneration := rr_fileGeneration r; rr_sessionID := session;
     rr_checkpointThreshold := rr_checkpointThreshold r; rr_sinceCheckpoint := since;
     rr_firstSeqInSpan := first; rr_closed := rr_closed r; rr_disk := rr_disk r; rr_io := rr_io r |}.

Definition with_file (file : option evidenceFile) (count start generation first : Z) (r : Recorder) : Recorder :=
  {| rr_cfg := rr_cfg r; rr_seq := rr_seq r; rr_prevHash := rr_prevHash r; rr_file := file;
     rr_fileEntryCount := count; rr_fileSeqStart := start;
     rr_fileGeneration := generation; rr_sessionID := rr_sessionID r;
     rr_checkpointThreshold := rr_checkpointThreshold r; rr_sinceCheckpoint := rr_sinceCheckpoint r;
     rr_firstSeqInSpan := first; rr_closed := rr_closed r; rr_disk := rr_disk r; rr_io := rr_io r |}.

Definition with_world (disk : gmap string (list Entry)) (closed : bool) (io : nat) (r : Recorder) : Recorder :=
  {| rr_cfg := rr_cfg r; rr_seq := rr_seq r; rr_prevHash := rr_prevHash r; rr_file := rr_file r;
     rr_fileEntryCount := rr_fileEntryCount r; rr_fileSeqStart := rr_fileSeqStart r;
     rr_fileGeneration := rr_fileGeneration r; rr_sessionID := rr_sessionID r;
     rr_checkpointThreshold := rr_checkpointThreshold r; rr_sinceCheckpoint := rr_sinceCheckpoint r;
     rr_firstSeqInSpan := rr_firstSeqInSpan r; rr_closed := closed; rr_disk := disk; rr_io := io |}.

(** [New] of an enabled recorder with a directory, on what the directory holds. *)
Definition New (cfg : RecorderConfig) (disk : gmap string (list Entry)) (io : nat) : result Recorder string :=
  if cf_SignCheckpoints cfg && bool_decide (sign = None)
  then Err "flight recorder sign_checkpoints is enabled but no valid signing key was provided"
  else
    let interval := if decide (cf_CheckpointInterval cfg <= 0) then defaultCheckpointInterval else cf_CheckpointInterval cfg in
    let maxEntries := if decide (cf_MaxEntriesPerFile cfg <= 0) then defaultMaxEntriesPerFile else cf_MaxEntriesPerFile cfg in
    let cfg := {| cf_CheckpointInterval := interval; cf_Redact := cf_Redact cfg; cf_SignCheckpoints := cf_SignCheckpoints cfg;
                  cf_MaxEntriesPerFile := maxEntries; cf_RawEscrow := cf_RawEscrow cfg |} in
    if callFails io then Err "evidence directory is not usable"
    else Ok {| rr_cfg := cfg; rr_seq := 0; rr_prevHash := GenesisHash; rr_file := None; rr_fileEntryCount := 0;
               rr_fileSeqStart := 0; rr_fileGeneration := 0; rr_sessionID := "";
               rr_checkpointThreshold := safeUint64 interval 1; rr_sinceCheckpoint := 0; rr_firstSeqInSpan := 0;
               rr_closed := false; rr_disk := disk; rr_io := S io |}.

Definition M (A : Type) : Type := op Recorder A.
Local Open Scope op_scope.

(** The number of the next system call. *)
Definition tick : M nat :=
  fun r => (Ok (rr_io r), with_world (rr_disk r) (rr_closed r) (S (rr_io r)) r).

(** A system call that only succeeds or fails. *)
Definition call (msg : string) : M unit := n <- tick;; if callFails n then Op.fail msg else Op.ret tt.

(** ** Redaction *)

Definition redactDetail (scan : string -> bool * list string) (detail : Detail) : Detail :=
  if isNil detail then detail
  else match json_Detail detail with
  | None => detail
  | Some raw =>
      let '(clean, patterns) := scan raw in
      if clean then detail
      else ofJSON (JObject [("redacted", JBool true);
                            ("detected_patterns", JArray ((fun p => JString ("[REDACTED:" +:+ p +:+ "]")) <$> patterns));
                            ("original_size", JNumber (pretty (Z.of_nat (String.length raw))))])
  end.

(** The assignment [m[k] = v] of a map. *)
Fixpoint setField (k : string) (v : JSON) (fields : list (string * JSON)) : list (string * JSON) :=
  match fields with
  | [] => [(k, v)]
  | (k', v') :: fields => if decide (k' = k) then (k, v) :: fields else (k', v') :: setField k v fields
  end.

Definition getField (k : string) (fields : list (string * JSON)) : option JSON :=
  snd <$> List.find (fun kv => bool_decide (kv.1 = k)) fields.

(** One field of the receipt: replaced when it is a string that does not scan
    clean. *)
Definition redactField (scan : string -> bool * list string) (st : list (string * JSON) * list string)
    (field : string) : list (string * JSON) * list string :=
  let '(ar, redacted) := st in
  match getField field ar with
  | Some (JString val) =>
      if decide (val = "") then st
      else if (scan val).1 then st
      else (setField field (JString "[REDACTED]") ar, redacted ++ [field])
  | _ => st
  end.

Definition redactReceiptDetail (scan : string -> bool * list string) (detail : Detail) : Detail :=
  if isNil detail then detail
  else match json_Detail detail with
  | None => ofJSON (JObject [("redacted", JBool true); ("reason", JString "marshal error")])
  | Some raw =>
  if (scan raw).1 then detail
  else match decodeObject raw with
  | None => redactDetail scan detail
  | Some m =>
  match getField "action_record" m with
  | Some (JObject ar) =>
      let '(ar, redactedFields) := foldl (redactField scan) (ar, []) ["target"; "pattern"] in
      if decide (redactedFields = []) then redactDetail scan detail
      else
        let ar := setField "redacted_fields" (JArray (JString <$> redactedFields)) ar in
        let m := ofJSON (JObject (setField "action_record" (JObject ar) m)) in
        match json_Detail m with
        | None => redactDetail scan detail
        | Some partialJSON => if (scan partialJSON).1 then m else redactDetail scan detail
        end
  | _ => redactDetail scan detail
  end end end.

Definition redacted (cfg : RecorderConfig) (typ : string) (detail : Detail) : Detail :=
  match redactFn with
  | Some scan =>
      if cf_Redact cfg
      then if decide (typ = recorderTypeReceipt) then redactReceiptDetail scan detail else redactDetail scan detail
      else detail
  | None => detail
  end.

(** ** Files *)

(** [closeFile] and [rotateFile]: the file is gone even when closing fails. *)
Definition closeFile : M unit :=
  r <- Op.get;;
  match rr_file r with
  | None => Op.ret tt
  | Some f =>
      Op.modify (fun r => with_file None (rr_fileEntryCount r) (rr_fileSeqStart r) (rr_fileGeneration r) (rr_firstSeqInSpan r) r);;
      if f_broken f then Op.fail "flush" else call "close evidence file"
  end.

Definition rotateFile : M unit := closeFile.

(** [ensureFile]. Entries written to a directory that was replaced are gone. *)
Definition ensureFile (seqStart : Z) : M unit :=
  n <- tick;;
  match dirState n with
  | DirError => Op.fail "stat evidence directory"
  | DirSame => Op.ret tt
  | DirReplaced =>
      Op.modify (fun r => with_world ∅ (rr_closed r) (rr_io r) r);;
      r <- Op.get;;
      match rr_file r with
      | None => Op.ret tt
      | Some _ =>
          Op.wrap "closing evidence file after directory replacement" closeFile;;
          Op.modify (fun r => with_file (rr_file r) 0 (rr_fileSeqStart r) (rr_fileGeneration r) (rr_firstSeqInSpan r) r)
      end
  end;;
  call "refreshing recorder receipt ceremony lock";;
  r <- Op.get;;
  match rr_file r with
  | Some _ => Op.ret tt
  | None =>
      n <- tick;;
      if callFails n then Op.fail "opening evidence file"
      else Op.modify (fun r => with_file (Some {| f_size := openSize n; f_broken := false |}) 0 seqStart
                                 (rr_fileGeneration r + 1)
                                 (if decide (rr_sinceCheckpoint r = 0) then seqStart else rr_firstSeqInSpan r) r)
  end.

(** The size of the open file, from [r.file.Stat]. *)
Definition fileSize : M Z :=
  call "stat";; r <- Op.get;;
  match rr_file r with Some f => Op.ret (f_size f) | None => Op.fail "nil file" end.

(** [ensureEntryCapacityLocked] in two halves: whether the line fits in the open
    file, and the rotation to a new one, before which it may have to wait. *)
Definition entryFits (seq lineBytes : Z) : M bool :=
  if decide (lineBytes > MaxEntryLineBytes + 1) then Op.fail "serialized evidence entry exceeds the line limit"
  else
    Op.wrap "opening evidence file" (ensureFile seq);;
    size <- fileSize;;
    Op.ret (bool_decide (size + lineBytes <= MaxEvidenceReadFileBytes)).

Definition reopen (seq lineBytes : Z) : M unit :=
  rotateFile;;
  Op.wrap "opening evidence file" (ensureFile seq);;
  size <- fileSize;;
  if decide (size + lineBytes > MaxEvidenceReadFileBytes) then Op.fail "evidence file would exceed its limit"
  else Op.ret tt.

(** An entry as a reader gets it back from its line. *)
Definition readBack (e : Entry) (raw : string) : Entry :=
  {| e_Version := e_Version e; e_Sequence := e_Sequence e; e_Timestamp := e_Timestamp e; e_SessionID := e_SessionID e;
     e_ChainKind := e_ChainKind e; e_WriterInstanceID := e_WriterInstanceID e; e_TraceID := e_TraceID e;
     e_Type := e_Type e; e_EventKind := e_EventKind e; e_Transport := e_Transport e; e_Summary := e_Summary e;
     e_Detail := default (e_Detail e) (decodeDetail raw); e_RawDetail := Some raw; e_RawRef := e_RawRef e;
     e_PrevHash := e_PrevHash e; e_Hash := e_Hash e |}.

(** [writeEntryData]: a write that fails leaves no line, and its writer broken. *)
Definition writeEntryData (e : Entry) (raw : string) : M unit :=
  let len := Z.of_nat (String.length (json_line e raw)) in
  if decide (len > MaxEntryLineBytes) then Op.fail "serialized evidence entry exceeds the line limit"
  else
    r <- Op.get;;
    match rr_file r with
    | None => Op.fail "nil writer"
    | Some f =>
        if f_broken f then Op.fail "write"
        else
          n <- tick;;
          let keep b size r := with_file (Some {| f_size := size; f_broken := b |}) (rr_fileEntryCount r)
                                 (rr_fileSeqStart r) (rr_fileGeneration r) (rr_firstSeqInSpan r) r in
          if callFails n then Op.modify (keep true (f_size f));; Op.fail "write"
          else
            Op.modify (fun r => keep false (f_size f + len + 1)
              (with_world (<[e_SessionID e := diskOf r (e_SessionID e) ++ [readBack e raw]]> (rr_disk r))
                 (rr_closed r) (rr_io r) r))
    end.

Definition lineBytes (e : Entry) (raw : string) : Z := Z.of_nat (String.length (json_line e raw)) + 1.

(** [writeEntryBounded], cut where it may have to wait: the JSON text of the
    detail and whether the line fits; then the rotation, if any, and the write. *)
Definition startWrite (e : Entry) : M (string * bool) :=
  match json_Detail (e_Detail e) with
  | None => Op.fail "marshaling entry"
  | Some raw =>
      if decide (Z.of_nat (String.length (json_line e raw)) > MaxEntryLineBytes)
      then Op.fail "serialized evidence entry exceeds the line limit"
      else fits <- entryFits (e_Sequence e) (lineBytes e raw);; Op.ret (raw, fits)
  end.

Definition finishWrite (e : Entry) (raw : string) (fits : bool) : M unit :=
  (if fits then Op.ret tt else reopen (e_Sequence e) (lineBytes e raw));;
  writeEntryData e raw.

Definition writeEntryBounded (e : Entry) : M unit :=
  p <- startWrite e;; finishWrite e p.1 p.2.

(** ** Recording *)

(** [resumeSessionLocked] on the newest entry of the session's files. *)
Definition resumeSessionLocked (sessionID : string) : M unit :=
  call "reading evidence directory";;
  r <- Op.get;;
  let adopt seq prev := Op.modify (with_chain seq prev sessionID 0 seq) in
  match last (diskOf r sessionID) with
  | None => adopt 0 GenesisHash
  | Some tail =>
      if negb (is_ok (ValidateEntrySchema tail)) then Op.fail "reading existing evidence file"
      else if decide (e_Hash tail = "") then Op.fail "tail entry has empty hash"
      else if decide (e_SessionID tail <> sessionID) then Op.fail "refusing to adopt a foreign chain head"
      else if negb (EntryVersionsCanShareChain (e_Version tail) CurrentWriteEntryVersion)
      then Op.fail "refusing to mix recorder versions"
      else if decide (e_Sequence tail = 2 ^ 64 - 1) then Op.fail "sequence space exhausted"
      else adopt (e_Sequence tail + 1) (e_Hash tail)
  end.

(** The entry with what the recorder stamps on it. *)
Definition stamped (e : Entry) (seq ts : Z) (detail : Detail) (rawRef prev hash : string) : Entry :=
  {| e_Version := CurrentWriteEntryVersion; e_Sequence := seq; e_Timestamp := ts; e_SessionID := e_SessionID e;
     e_ChainKind := ""; e_WriterInstanceID := ""; e_TraceID := e_TraceID e; e_Type := e_Type e;
     e_EventKind := e_EventKind e; e_Transport := e_Transport e; e_Summary := e_Summary e; e_Detail := detail;
     e_RawDetail := e_RawDetail e; e_RawRef := rawRef; e_PrevHash := prev; e_Hash := hash |}.

(** The encrypted copy of the detail, when escrow is on: its file name. *)
Definition escrow (e : Entry) : M string :=
  r <- Op.get;;
  if cf_RawEscrow (rr_cfg r) then
    match json_Detail (e_Detail e) with
    | None => Op.fail "marshal raw escrow"
    | Some raw =>
        n <- tick;;
        match escrowName n raw with
        | None => Op.fail "write raw escrow"
        | Some name => Op.ret name
        end
    end
  else Op.ret (e_RawRef e).

(** [prepareAndWriteEntryLocked] up to the write: the entry to be written. *)
Definition prepareEntry (e : Entry) : M Entry :=
  r <- Op.get;;
  if rr_closed r then Op.fail "recorder is closed"
  else if decide (e_SessionID e = "") then Op.fail "recorder: session_id required"
  else if Strings.ContainsByte (e_SessionID e) "/" || Strings.ContainsByte (e_SessionID e) "\"
  then Op.fail "recorder: session_id contains path separator"
  else
    (if decide (rr_sessionID r = "") then Op.wrap "recorder: resume chain state" (resumeSessionLocked (e_SessionID e))
     else Op.ret tt);;
    r <- Op.get;;
    if decide (e_SessionID e <> rr_sessionID r) then Op.fail "recorder: session_id mismatch"
    else
      n <- tick;;
      rawRef <- escrow e;;
      let detail := redacted (rr_cfg r) (e_Type e) (e_Detail e) in
      let body := stamped e (rr_seq r) (clock n) detail rawRef (rr_prevHash r) in
      Op.ret (body (ComputeHash (body ""))).

Definition prepareAndWriteEntryLocked (e : Entry) : M Entry :=
  e <- prepareEntry e;;
  Op.wrap "writing entry" (writeEntryBounded e);;
  Op.ret e.

(** The advance of the chain state after a successful write. *)
Definition advance (written : Entry) (r : Recorder) : Recorder :=
  let r := with_chain (wrapu64 (rr_seq r + 1)) (e_Hash written) (rr_sessionID r)
             (wrapu64 (rr_sinceCheckpoint r + 1)) (rr_firstSeqInSpan r) r in
  with_file (rr_file r) (rr_fileEntryCount r + 1) (rr_fileSeqStart r) (rr_fileGeneration r) (rr_firstSeqInSpan r) r.

(** The entry that [checkpointLocked] writes in state [r]. *)
Definition checkpointEntry (ts : Z) (r : Recorder) : Entry :=
  let cp sig := {| cp_EntryCount := rr_sinceCheckpoint r; cp_FirstSeq := rr_firstSeqInSpan r;
                   cp_LastSeq := wrapu64 (rr_seq r - 1); cp_Signature := sig |} in
  let signature := match sign with
                   | Some s => if cf_SignCheckpoints (rr_cfg r) then Hex.EncodeToString (s (rr_prevHash r)) else ""
                   | None => ""
                   end in
  let summary := "checkpoint: " +:+ pretty (rr_sinceCheckpoint r) +:+ " entries [seq " +:+
                 pretty (rr_firstSeqInSpan r) +:+ "-" +:+ pretty (wrapu64 (rr_seq r - 1)) +:+ "]" in
  let body hash := {| e_Version := CurrentWriteEntryVersion; e_Sequence := rr_seq r; e_Timestamp := ts;
                      e_SessionID := rr_sessionID r; e_ChainKind := ""; e_WriterInstanceID := ""; e_TraceID := "";
                      e_Type := checkpointType; e_EventKind := eventKindCheckpoint; e_Transport := "";
                      e_Summary := summary; e_Detail := checkpointDetail (cp signature); e_RawDetail := None;
                      e_RawRef := ""; e_PrevHash := rr_prevHash r; e_Hash := hash |} in
  body (ComputeHash (body "")).

(** [checkpointLocked]. With no open file nothing is written, and the chain
    state advances all the same. *)
Definition checkpointLocked : M unit :=
  n <- tick;;
  r <- Op.get;;
  let e := checkpointEntry (clock n) r in
  (match rr_file r with
   | Some _ =>
       writeEntryBounded e;;
       Op.modify (fun r => with_file (rr_file r) (rr_fileEntryCount r + 1) (rr_fileSeqStart r)
                             (rr_fileGeneration r) (rr_firstSeqInSpan r) r)
   | None => Op.ret tt
   end);;
  Op.modify (fun r => let seq := wrapu64 (rr_seq r + 1) in with_chain seq (e_Hash e) (rr_sessionID r) 0 seq r).

(** The maintenance after the waiting, as decided before it. *)
Definition maintain (needsCheckpoint needsRotation : bool) : M unit :=
  (if needsCheckpoint then Op.wrap "writing checkpoint" checkpointLocked else Op.ret tt);;
  if needsRotation then Op.wrap "rotating file" rotateFile else Op.ret tt.

Definition needsCheckpoint (r : Recorder) : bool := bool_decide (rr_sinceCheckpoint r >= rr_checkpointThreshold r).
Definition needsRotation (r : Recorder) : bool := bool_decide (rr_fileEntryCount r >= cf_MaxEntriesPerFile (rr_cfg r)).

(** [runPostRecordMaintenanceLocked] when no sync of the file is pending. *)
Definition runPostRecordMaintenanceLocked : M unit :=
  r <- Op.get;; maintain (needsCheckpoint r) (needsRotation r).

(** The first critical section of [Record] and [RecordDurable]. *)
Definition begin (e : Entry) : M unit :=
  written <- prepareAndWriteEntryLocked e;;
  Op.modify (advance written).

Definition Record_ (e : Entry) : M unit :=
  begin e;; runPostRecordMaintenanceLocked.

Definition RecordDurable (e : Entry) : M unit :=
  begin e;;
  call "recorder durability confirmation failed";;
  runPostRecordMaintenanceLocked.

(** The end of [Close], after the waiting. *)
Definition finishClose (checkpoint : bool) : M unit :=
  (if checkpoint then
     fun r => match checkpointLocked r with
              | (Ok _, r) => (Ok tt, r)
              | (Err e, r) => (Err ("final checkpoint: " +:+ e), (closeFile r).2)
              end
   else Op.ret tt);;
  closeFile.

Definition Close : M unit :=
  r <- Op.get;;
  if rr_closed r then Op.ret tt
  else
    Op.modify (fun r => with_world (rr_disk r) true (rr_io r) r);;
    finishClose (bool_decide (rr_sinceCheckpoint r > 0)).

(** ** Histories

    The operations above are what a caller sees when no other comes between. The
    mutex is given up while a call waits for pending syncs of the open file
    ([waitDurableForCurrentFileLocked]): a write before it rotates a full file
    ([Rotating], with the entry it stamped), the maintenance ([Maintaining], with
    what it decided), and [Close] ([Closing]); a [RecordDurable] gives it up for
    its own sync ([Syncing]) and before its maintenance ([Due]). These calls are
    the second component of a system; a restart opens the directory with a new
    recorder and no calls. *)
Inductive task :=
| Rotating (durable : bool) (written : Entry) (raw : string)
| Syncing (generation : Z)
| Due
| Maintaining (cp rot : bool)
| Closing (cp : bool).

Definition system : Type := Recorder * list task.

(** [durablePending[r.fileGeneration] > 0]. *)
Definition pending (r : Recorder) (ts : list task) : bool :=
  existsb (fun t => match t with Syncing g => bool_decide (g = rr_fileGeneration r) | _ => false end) ts.

Definition mustWait (r : Recorder) (ts : list task) : bool := bool_decide (rr_file r <> None) && pending r ts.

(** A checkpoint of an open recorder that finds no file: the chain state
    advances, and no entry is written. *)
Definition unwritten (cp : bool) (r : Recorder) : bool :=
  cp && negb (rr_closed r) && bool_decide (rr_file r = None).

(** The chain state is not the one that the entry was stamped with, or the file
    is gone. *)
Definition overtaken (written : Entry) (r : Recorder) : bool :=
  negb (bool_decide (e_Sequence written = rr_seq r) && bool_decide (e_PrevHash written = rr_prevHash r) &&
        bool_decide (e_SessionID written = rr_sessionID r) && bool_decide (rr_file r <> None)).

(** [begin] in two halves ([begin_halves]). *)
Definition beginWrite (e : Entry) : M (Entry * (string * bool)) :=
  written <- prepareEntry e;;
  p <- Op.wrap "writing entry" (startWrite written);;
  Op.ret (written, p).

Definition endWrite (written : Entry) (raw : string) (fits : bool) : M unit :=
  Op.wrap "writing entry" (finishWrite written raw fits);;
  Op.modify (advance written).

(** The critical sections among the calls [ts]: whether the chain was damaged (a
    checkpoint unwritten, an entry overtaken), and the system afterwards. *)
Definition enterMaintenance (r : Recorder) (ts : list task) : bool * system :=
  let cp := needsCheckpoint r in
  let rot := needsRotation r in
  if (cp || rot) && mustWait r ts then (false, (r, Maintaining cp rot :: ts))
  else (unwritten cp r, ((maintain cp rot r).2, ts)).

Definition settle (durable : bool) (res : result unit string * Recorder) (ts : list task) : bool * system :=
  match res with
  | (Err _, r) => (false, (r, ts))
  | (Ok _, r) => if durable then (false, (r, Syncing (rr_fileGeneration r) :: ts)) else enterMaintenance r ts
  end.

Definition enterWrite (durable : bool) (e : Entry) (r : Recorder) (ts : list task) : bool * system :=
  match beginWrite e r with
  | (Err _, r) => (false, (r, ts))
  | (Ok (written, (raw, fits)), r) =>
      if negb fits && mustWait r ts then (false, (r, Rotating durable written raw :: ts))
      else settle durable (endWrite written raw fits r) ts
  end.

Definition resumeWrite (durable : bool) (written : Entry) (raw : string) (r : Recorder) (ts : list task) : bool * system :=
  let '(u, st) := settle durable (endWrite written raw false r) ts in (overtaken written r || u, st).

Definition enterClose (r : Recorder) (ts : list task) : system :=
  if rr_closed r then (r, ts)
  else
    let r1 := with_world (rr_disk r) true (rr_io r) r in
    let cp := bool_decide (rr_sinceCheckpoint r > 0) in
    if mustWait r1 ts then (r1, Closing cp :: ts) else ((finishClose cp r1).2, ts).

(** What a caller may record: its own text without NUL, not a checkpoint, no
    pre-encoded detail. *)
Definition recordable (e : Entry) : Prop :=
  nul_free (e_SessionID e) /\ nul_free (e_TraceID e) /\ nul_free (e_Type e) /\ nul_free (e_EventKind e) /\
  nul_free (e_Transport e) /\ nul_free (e_Summary e) /\ nul_free (e_RawRef e) /\
  e_Type e <> checkpointType /\ e_RawDetail e = None.

(** [rstep u st st']: one critical section; [u] tells whether the chain was
    damaged, or the code panics because a file it waited for is gone. *)
Inductive rstep : bool -> system -> system -> Prop :=
| rstep_write durable e r ts : recordable e ->
    rstep (enterWrite durable e r ts).1 (r, ts) (enterWrite durable e r ts).2
| rstep_rotated r ts1 durable w raw ts2 : pending r (ts1 ++ ts2) = false ->
    rstep (resumeWrite durable w raw r (ts1 ++ ts2)).1 (r, ts1 ++ Rotating durable w raw :: ts2)
      (resumeWrite durable w raw r (ts1 ++ ts2)).2
| rstep_synced r ts1 g ts2 : rstep false (r, ts1 ++ Syncing g :: ts2) (r, Due :: ts1 ++ ts2)
| rstep_sync_failed r ts1 g ts2 : rstep false (r, ts1 ++ Syncing g :: ts2) (r, ts1 ++ ts2)
| rstep_due r ts1 ts2 :
    rstep (enterMaintenance r (ts1 ++ ts2)).1 (r, ts1 ++ Due :: ts2) (enterMaintenance r (ts1 ++ ts2)).2
| rstep_maintain r ts1 cp rot ts2 : pending r (ts1 ++ ts2) = false ->
    rstep (unwritten cp r) (r, ts1 ++ Maintaining cp rot :: ts2) ((maintain cp rot r).2, ts1 ++ ts2)
| rstep_close r ts : rstep false (r, ts) (enterClose r ts)
| rstep_closing r ts1 cp ts2 : pending r (ts1 ++ ts2) = false ->
    rstep (negb cp && bool_decide (rr_file r = None)) (r, ts1 ++ Closing cp :: ts2) ((finishClose cp r).2, ts1 ++ ts2)
| rstep_restart r ts r' : New (rr_cfg r) (rr_disk r) (rr_io r) = Ok r' -> rstep false (r, ts) (r', []).

(** ** The invariant *)

(** The documented behaviour of the environment: the directory is not replaced;
    escrow names are file names; a signature verifies under [pub]; a checkpoint's
    signature survives being written, read as an untyped value and decoded,
    while its numbers are exact. *)
Class RecorderLaws (pub : string) := {
  same_dir : forall n, dirState n <> DirReplaced;
  escrow_clean : forall n raw name, escrowName n raw = Some name -> nul_free name;
  sign_verifies : forall s msg, sign = Some s -> ed25519_Verify pub msg (s msg) = true /\ s msg <> "";
  checkpoint_roundtrip : forall cp raw,
    0 <= cp_EntryCount cp < 2 ^ 63 -> 0 <= cp_FirstSeq cp < 2 ^ 63 -> 0 <= cp_LastSeq cp < 2 ^ 63 ->
    json_Detail (checkpointDetail cp) = Some raw ->
    exists raw' cp', json_Detail (default (checkpointDetail cp) (decodeDetail raw)) = Some raw' /\
      checkpointOf raw' = Some cp' /\ cp_Signature cp' = cp_Signature cp;
}.

Context {pub : string} {laws : RecorderLaws pub}.

Definition tailHash (es : list Entry) : string :=
  match last es with Some e => e_Hash e | None => GenesisHash end.

(** A checkpoint whose signature verifies. *)
Definition signed_checkpoint (e : Entry) : Prop :=
  exists raw cp sig, json_Detail (e_Detail e) = Some raw /\ checkpointOf raw = Some cp /\ cp_Signature cp <> "" /\
    Hex.DecodeString (cp_Signature cp) = Some sig /\ ed25519_Verify pub (e_PrevHash e) sig = true.

Definition own_entry (session : string) (e : Entry) : Prop :=
  e_Version e = CurrentWriteEntryVersion /\ e_SessionID e = session.

(** The log of a session as the recorder keeps it. The checkpoints are signed as
    long as the counters stay in the range where JSON numbers are exact. *)
Record log_ok (signing : bool) (session : string) (es : list Entry) : Prop := {
  log_linked : logged GenesisHash es (tailHash es);
  log_own : Forall (own_entry session) es;
  log_seq : forall i e, es !! i = Some e -> e_Sequence e = wrapu64 (Z.of_nat i);
  log_signed : forall i e, es !! i = Some e -> signing = true -> Z.of_nat i < 2 ^ 63 ->
    e_Type e = checkpointType -> signed_checkpoint e;
}.

Definition signing (r : Recorder) : bool := cf_SignCheckpoints (rr_cfg r).

(** The recorder's state continues the log of its session; [busy], when calls
    are waiting, says that the session has entries. *)
Definition linked (busy : bool) (r : Recorder) : Prop :=
  let es := diskOf r (rr_sessionID r) in
  rr_sessionID r <> "" /\ nul_free (rr_sessionID r) /\ rr_prevHash r = tailHash es /\
  rr_seq r = wrapu64 (Z.of_nat (length es)) /\
  (Z.of_nat (length es) < 2 ^ 63 ->
   0 <= rr_sinceCheckpoint r <= Z.of_nat (length es) /\ 0 <= rr_firstSeqInSpan r <= Z.of_nat (length es)) /\
  (busy = true -> es <> []).

Definition logs_ok (r : Recorder) : Prop :=
  (forall s, log_ok (signing r) s (diskOf r s)) /\ (signing r = true -> sign <> None) /\
  1 <= rr_checkpointThreshold r /\ in_int64 (cf_CheckpointInterval (rr_cfg r)).

Definition recorder_inv (busy : bool) (r : Recorder) : Prop :=
  logs_ok r /\
  ((rr_closed r = true /\ rr_file r = None) \/
   (busy = false /\ rr_sessionID r = "" /\ rr_file r = None /\ rr_sinceCheckpoint r = 0) \/ linked busy r).

(** ** Logs *)

Lemma log_ok_nil signing s : log_ok signing s [].
Proof. split; [constructor|constructor|by intros|by intros]. Qed.

Lemma log_ok_snoc signing s es e :
  log_ok signing s es -> own_entry s e -> sound_entry e -> e_PrevHash e = tailHash es ->
  e_Sequence e = wrapu64 (Z.of_nat (length es)) ->
  (signing = true -> Z.of_nat (length es) < 2 ^ 63 -> e_Type e = checkpointType -> signed_checkpoint e) ->
  log_ok signing s (es ++ [e]).
Proof.
  intros [Hl Ho Hs Hc] He Hsound Hp Hseq Hsig. split.
  - unfold tailHash. rewrite last_snoc. apply logged_snoc. rewrite Hp. auto.
  - apply Forall_app. split; [done|by constructor].
  - intros i x Hx. apply lookup_app_Some in Hx as [Hx|[Hi Hx]]; [by apply Hs|].
    apply list_lookup_singleton_Some in Hx as [Hi' <-]. rewrite Hseq. do 2 f_equal. lia.
  - intros i x Hx. apply lookup_app_Some in Hx as [Hx|[Hi Hx]]; [by apply (Hc i)|].
    apply list_lookup_singleton_Some in Hx as [Hi' <-]. intros Hsg Hlt. apply Hsig; [done|lia].
Qed.

Lemma verifyEntries_own s prev es h' :
  logged (match prev with Some p => e_Hash p | None => GenesisHash end) es h' ->
  Forall (own_entry s) es -> verifyEntries prev ("", "", "") es = Ok tt.
Proof.
  revert prev. induction es as [|e es IH]; intros prev Hl Ho; [done|].
  inversion Hl as [|? ? ? (Hv & Hs & Hh) Hl' Hp]; subst. apply Forall_cons in Ho as [(Hver & _) Ho].
  cbn [verifyEntries]. assert (verifyEntry prev ("", "", "") e = Ok ("", "", "")) as ->.
  { unfold verifyEntry. rewrite Hv, Hs, ComputeHash_projected, Hh by done. cbn [negb].
    assert (checkNamespace prev ("", "", "") e = Ok ("", "", "")) as ->.
    { unfold checkNamespace, EntryVersionHasNamespace. by rewrite Hver. }
    rewrite decide_False by (by intros []).
    destruct prev as [p|]; rewrite decide_False by (by intros []); done. }
  by apply IH.
Qed.

Lemma VerifyCheckpoints_signed es :
  Forall (fun e => e_Type e = checkpointType -> signed_checkpoint e) es -> VerifyCheckpoints es pub = Ok tt.
Proof.
  induction es as [|e es IH]; intros Ho; [done|]. apply Forall_cons in Ho as [Hc Ho]. cbn [VerifyCheckpoints].
  destruct (decide (e_Type e = "checkpoint")) as [Ht|Ht]; [|rewrite decide_True by done; auto].
  rewrite decide_False by (by intros []). destruct (Hc Ht) as (raw & cp & sig & -> & -> & Hne & -> & ->).
  rewrite decide_False by done. cbn [negb]. auto.
Qed.

Lemma log_ok_verifies signing s es :
  log_ok signing s es -> Z.of_nat (length es) <= 2 ^ 63 ->
  VerifyChain es (if signing then Some pub else None) = Ok tt.
Proof.
  intros [Hl Ho _ Hc] Hlen. unfold VerifyChain. rewrite (verifyEntries_own s None es _ Hl Ho).
  destruct signing; [|done]. apply VerifyCheckpoints_signed, Forall_lookup. intros i e Hi.
  apply (Hc i); [done|done|]. apply lookup_lt_Some in Hi. lia.
Qed.

(** ** What file operations leave alone *)

(** [framed s0 r r']: the chain state and the logs are those of [r]; the first
    sequence number of the span may have become [s0]. *)
Definition framed (s0 : Z) (r r' : Recorder) : Prop :=
  rr_cfg r' = rr_cfg r /\ rr_seq r' = rr_seq r /\ rr_prevHash r' = rr_prevHash r /\
  rr_sessionID r' = rr_sessionID r /\ rr_checkpointThreshold r' = rr_checkpointThreshold r /\
  rr_sinceCheckpoint r' = rr_sinceCheckpoint r /\ rr_closed r' = rr_closed r /\ rr_disk r' = rr_disk r /\
  (rr_firstSeqInSpan r' = rr_firstSeqInSpan r \/ rr_firstSeqInSpan r' = s0).

#[export] Instance framed_preorder s0 : PreOrder (framed s0).
Proof.
  split; [intros r; unfold framed; tauto|].
  intros r1 r2 r3. unfold framed. intros (? & ? & ? & ? & ? & ? & ? & ? & Hf1) (? & ? & ? & ? & ? & ? & ? & ? & Hf2).
  split_and!; try congruence. destruct Hf2 as [->|]; auto.
Qed.

(** The operation keeps a state framed, whether it succeeds or fails. *)
Definition keeps {A} (s0 : Z) (m : M A) : Prop :=
  forall r0, triple (framed s0 r0) m (fun _ => framed s0 r0) (framed s0 r0).

Lemma keeps_bind {A B} s0 (m : M A) (k : A -> M B) : keeps s0 m -> (forall a, keeps s0 (k a)) -> keeps s0 (Op.bind m k).
Proof. intros Hm Hk r0. eapply triple_bind; [apply Hm|]. intros a. apply Hk. Qed.

Lemma keeps_get {B} s0 (k : Recorder -> M B) : (forall r, keeps s0 (k r)) -> keeps s0 (Op.bind Op.get k).
Proof. intros H r0 r Hr. by apply (H r r0 r). Qed.

Lemma keeps_ret {A} s0 (a : A) : keeps s0 (Op.ret a).
Proof. by intros r0 r. Qed.

Lemma keeps_fail {A} s0 msg : keeps s0 (Op.fail (A := A) msg).
Proof. by intros r0 r. Qed.

Lemma keeps_wrap {A} s0 msg (m : M A) : keeps s0 m -> keeps s0 (Op.wrap msg m).
Proof. intros Hm r0. apply triple_wrap, Hm. Qed.

Lemma keeps_modify s0 f : (forall r, framed s0 r (f r)) -> keeps s0 (Op.modify f).
Proof. intros H r0 r Hr. cbn. by etrans. Qed.

Lemma keeps_tick s0 : keeps s0 tick.
Proof. intros r0 r Hr. cbn. etrans; [exact Hr|]. unfold framed. cbn. tauto. Qed.

Create HintDb keeps.
#[local] Hint Resolve keeps_bind keeps_get keeps_ret keeps_fail keeps_wrap keeps_tick : keeps.

Ltac keeps_step :=
  match goal with
  | |- keeps _ (Op.bind Op.get _) => apply keeps_get; intros ?
  | |- keeps _ (Op.bind _ _) => apply keeps_bind; [|intros ?]
  | |- keeps _ (Op.wrap _ _) => apply keeps_wrap
  | |- keeps _ (Op.modify _) => apply keeps_modify; intros ?; unfold framed; cbn; case_go; tauto
  | |- keeps _ (match ?x with _ => _ end) => destruct x eqn:?
  | |- keeps _ _ => solve [auto with keeps]
  end.

Lemma keeps_call s0 msg : keeps s0 (call msg).
Proof. unfold call. repeat keeps_step. Qed.
#[local] Hint Resolve keeps_call : keeps.

Lemma keeps_closeFile s0 : keeps s0 closeFile.
Proof. unfold closeFile. repeat keeps_step. Qed.
#[local] Hint Resolve keeps_closeFile : keeps.

Lemma keeps_ensureFile s0 : keeps s0 (ensureFile s0).
Proof.
  unfold ensureFile. repeat keeps_step. all: exfalso; eapply (same_dir (pub := pub)); eauto.
Qed.
#[local] Hint Resolve keeps_ensureFile : keeps.

Lemma keeps_entryFits s0 n : keeps s0 (entryFits s0 n).
Proof. unfold entryFits, fileSize. repeat keeps_step. Qed.

Lemma keeps_reopen s0 n : keeps s0 (reopen s0 n).
Proof. unfold reopen, fileSize, rotateFile. repeat keeps_step. Qed.
#[local] Hint Resolve keeps_entryFits keeps_reopen : keeps.

(** ** Writing an entry *)

(** The line of [e] was added to the log of its session, and a file is open. *)
Definition wrote (e : Entry) (raw : string) (r r' : Recorder) : Prop :=
  exists r1, framed (e_Sequence e) r r1 /\ rr_file r' <> None /\
    framed (e_Sequence e) (with_world (<[e_SessionID e := diskOf r1 (e_SessionID e) ++ [readBack e raw]]> (rr_disk r1))
                             (rr_closed r1) (rr_io r1) r1) r'.

Lemma writeEntryData_spec e raw r0 :
  triple (framed (e_Sequence e) r0) (writeEntryData e raw)
    (fun _ => wrote e raw r0) (framed (e_Sequence e) r0).
Proof.
  unfold writeEntryData. case_decide; [by apply triple_fail|]. apply triple_get. intros r1 Hr1.
  destruct (rr_file r1) as [f|] eqn:Hf; [|by apply triple_fail; intros ? ->].
  destruct (f_broken f); [by apply triple_fail; intros ? ->|]. intros r ->.
  unfold Op.bind, tick. cbv zeta beta iota. destruct (callFails (rr_io r1)); cbn.
  - etrans; [exact Hr1|]. unfold framed. cbn. tauto.
  - exists r1. split_and!; [done|done|]. unfold framed. cbn. tauto.
Qed.

Lemma startWrite_spec e r0 :
  triple (framed (e_Sequence e) r0) (startWrite e)
    (fun p r => framed (e_Sequence e) r0 r /\ json_Detail (e_Detail e) = Some p.1) (framed (e_Sequence e) r0).
Proof.
  unfold startWrite. destruct (json_Detail (e_Detail e)) as [raw|]; [|by apply triple_fail].
  case_decide; [by apply triple_fail|]. eapply triple_bind; [apply keeps_entryFits|]. intros fits. by apply triple_ret.
Qed.

Lemma finishWrite_spec e raw fits r0 :
  triple (framed (e_Sequence e) r0) (finishWrite e raw fits) (fun _ => wrote e raw r0) (framed (e_Sequence e) r0).
Proof.
  unfold finishWrite. apply triple_bind with (R := fun _ => framed (e_Sequence e) r0); [|intros []; apply writeEntryData_spec].
  destruct fits; [by apply triple_ret|apply keeps_reopen].
Qed.

Lemma writeEntryBounded_spec e r0 :
  triple (framed (e_Sequence e) r0) (writeEntryBounded e)
    (fun _ r' => exists raw, json_Detail (e_Detail e) = Some raw /\ wrote e raw r0 r') (framed (e_Sequence e) r0).
Proof.
  unfold writeEntryBounded. eapply triple_bind; [apply startWrite_spec|]. intros [raw fits] r [Hr Hraw].
  pose proof (finishWrite_spec e raw fits r0 r Hr) as H. cbn [fst snd]. case_match. case_match; [by exists raw|done].
Qed.

(** ** A written entry extends its log *)

Lemma Hex_nul_free s : nul_free (Hex.EncodeToString s).
Proof.
  assert (forall n, (n < 16)%N -> Hex.digit n <> NUL) as Hd.
  { intros n Hn E. pose proof (Hex.is_digit_digit n Hn) as Hi. rewrite E in Hi. vm_compute in Hi. discriminate. }
  induction s as [|a s IH]; [done|]. unfold nul_free. cbn [Hex.EncodeToString Strings.ContainsByte].
  pose proof (Hex.N_of_ascii_lt a).
  rewrite !decide_False; [exact IH|apply Hd, N.mod_lt; lia|apply Hd, N.Div0.div_lt_upper_bound; lia].
Qed.

Lemma log_tail_nul_free signing s es : log_ok signing s es -> nul_free (tailHash es).
Proof.
  intros [Hl _ _ _]. unfold tailHash in *. destruct es as [|e es _] using rev_ind; [done|].
  rewrite last_snoc in *. apply logged_snoc in Hl as (_ & (_ & _ & ->) & _). apply Hex_nul_free.
Qed.

(** What the recorder makes of an entry before writing it. *)
Record fresh_entry (r : Recorder) (e : Entry) (raw : string) : Prop := {
  fe_raw : json_Detail (e_Detail e) = Some raw;
  fe_version : e_Version e = CurrentWriteEntryVersion;
  fe_namespace : e_ChainKind e = "" /\ e_WriterInstanceID e = "";
  fe_seq : e_Sequence e = rr_seq r;
  fe_session : e_SessionID e = rr_sessionID r;
  fe_prev : e_PrevHash e = rr_prevHash r;
  fe_hash : e_Hash e = ComputeHash e;
  fe_noraw : e_RawDetail e = None;
  fe_clean : nul_free (e_TraceID e) /\ nul_free (e_Type e) /\ nul_free (e_EventKind e) /\
             nul_free (e_Transport e) /\ nul_free (e_Summary e) /\ nul_free (e_RawRef e);
  fe_signed : signing r = true -> Z.of_nat (length (diskOf r (rr_sessionID r))) < 2 ^ 63 ->
    e_Type e = checkpointType -> signed_checkpoint (readBack e raw);
}.

Lemma readBack_sound r e raw :
  fresh_entry r e raw -> nul_free (e_SessionID e) -> nul_free (e_PrevHash e) -> sound_entry (readBack e raw).
Proof.
  intros F Hs Hp. destruct F as [Fr Fv [Fk Fw] _ _ _ Fh Fn (? & ? & ? & ? & ? & ?) _].
  split_and!.
  - unfold IsAcceptedEntryVersion. cbn [readBack e_Version]. by rewrite Fv.
  - unfold ValidateEntrySchema, ValidateEntryNamespace, schemaFields, EntryVersionHasNamespace.
    cbn [readBack e_Version e_ChainKind e_WriterInstanceID e_SessionID e_TraceID e_Type e_Transport e_Summary e_RawRef
         e_PrevHash e_EventKind]. rewrite Fv, Fk, Fw. unfold CurrentWriteEntryVersion. unfold nul_free in *.
    decide_lia; try naive_solver; cbn [app List.find snd];
    repeat match goal with H : Strings.ContainsByte _ _ = false |- _ => rewrite H; clear H end. done.
  - cbn [readBack e_Hash]. rewrite Fh, ComputeHash_projected by (unfold IsAcceptedEntryVersion; by rewrite Fv).
    f_equal. unfold projected. cbn [readBack e_Version]. rewrite Fv. unfold CurrentWriteEntryVersion.
    decide_lia. unfold fieldsV2, detailJSONForHash. cbn. by rewrite Fn, Fr.
Qed.

Lemma diskOf_insert r disk closed io s es s' :
  disk = rr_disk r -> diskOf (with_world (<[s := es]> disk) closed io r) s' = if decide (s' = s) then es else diskOf r s'.
Proof.
  intros ->. unfold diskOf. cbn. case_decide as Hs; [subst; by rewrite lookup_insert_eq|by rewrite lookup_insert_ne].
Qed.

Lemma framed_disk s0 r r' s : framed s0 r r' -> diskOf r' s = diskOf r s.
Proof. unfold framed, diskOf. by intros (_ & _ & _ & _ & _ & _ & _ & -> & _). Qed.

(** What holds between the write of an entry and the advance of the state. *)
Definition ready (e : Entry) (r r' : Recorder) : Prop :=
  logs_ok r' /\ rr_file r' <> None /\ rr_closed r' = rr_closed r /\
  rr_sessionID r' <> "" /\ nul_free (rr_sessionID r') /\
  tailHash (diskOf r' (rr_sessionID r')) = e_Hash e /\
  (exists n : nat, length (diskOf r' (rr_sessionID r')) = S n /\ rr_seq r' = wrapu64 (Z.of_nat n) /\
    (Z.of_nat n < 2 ^ 63 -> 0 <= rr_sinceCheckpoint r' <= Z.of_nat n /\ 0 <= rr_firstSeqInSpan r' <= Z.of_nat n)).

Lemma wrote_ready b e raw r r' :
  logs_ok r -> linked b r -> fresh_entry r e raw -> wrote e raw r r' -> ready e r r'.
Proof.
  intros (Hlogs & Hsign & Hthr & Hint) (Hne & Hnf & Hp & Hseq & Hb & _) F (r1 & F1 & Hfile & F2).
  pose proof (framed_disk _ _ _ (e_SessionID e) F1) as Hd1.
  assert (forall s, diskOf r' s = if decide (s = rr_sessionID r) then diskOf r (rr_sessionID r) ++ [readBack e raw]
                                  else diskOf r s) as Hdisk.
  { intros s. rewrite (framed_disk _ _ _ s F2), diskOf_insert, Hd1, (framed_disk _ _ _ s F1), (fe_session _ _ _ F) by done. done. }
  destruct F1 as (C1 & S1 & P1 & I1 & T1 & N1 & L1 & D1 & V1). destruct F2 as (C2 & S2 & P2 & I2 & T2 & N2 & L2 & D2 & V2).
  cbn in C2, S2, P2, I2, T2, N2, L2, V2.
  assert (signing r' = signing r) as Hsg by (unfold signing; congruence).
  assert (rr_sessionID r' = rr_sessionID r) as HI by congruence.
  pose proof (Hlogs (rr_sessionID r)) as Hlog. pose proof (log_tail_nul_free _ _ _ Hlog) as Htail.
  rewrite <- Hp in Htail. pose proof F as F'. destruct F' as [_ Fv _ Fs Fi Fp _ _ _ Fc].
  unfold ready, logs_ok. rewrite Hsg, HI, C2, C1, T2, T1, Hdisk, decide_True by done. split_and!; try done; try congruence.
  - intros s. rewrite Hdisk. case_decide as Hs; [subst s|apply Hlogs].
    apply log_ok_snoc; [done|done| |cbn; by rewrite Fp|cbn; by rewrite Fs|exact Fc].
    eapply readBack_sound; [exact F|by rewrite Fi|by rewrite Fp].
  - unfold tailHash. by rewrite last_snoc.
  - exists (length (diskOf r (rr_sessionID r))). split_and!; [rewrite length_app; cbn; lia|congruence|].
    intros Hlt. destruct (Hb Hlt) as [Hb1 Hb2]. split; [congruence|].
    rewrite Hseq, wrapu64_id in Fs by (unfold in_uint64; lia).
    destruct V2 as [-> | ->], V1 as [V1|V1]; rewrite ?V1; lia.
Qed.

(** ** Every operation keeps the invariant *)

Lemma wrapu64_next x : wrapu64 x <> 2 ^ 64 - 1 -> wrapu64 x + 1 = wrapu64 (x + 1).
Proof.
  intros Hx. rewrite <- wrapu64_succ. symmetry. apply wrapu64_id.
  pose proof (wrapu64_in x). unfold in_uint64 in *. lia.
Qed.

Lemma logs_ok_framed s0 r r' : framed s0 r r' -> logs_ok r -> logs_ok r'.
Proof.
  intros F (H1 & H2 & H3 & H4). pose proof F as (C & _ & _ & _ & T & _). unfold logs_ok, signing in *. rewrite C, T.
  split_and!; try done. intros s. by rewrite (framed_disk _ _ _ s F).
Qed.

Lemma linked_framed b r r' : framed (rr_seq r) r r' -> linked b r -> linked b r'.
Proof.
  intros F (Hne & Hnf & Hp & Hs & Hb & Hbusy). pose proof (framed_disk _ _ _ (rr_sessionID r) F) as Hd.
  destruct F as (_ & S & P & I & _ & N & _ & _ & V). unfold linked. rewrite S, P, I, N, Hd. split_and!; try done.
  intros Hlt. destruct (Hb Hlt) as [Hb1 Hb2]. split; [done|].
  destruct V as [-> | ->]; [done|]. rewrite Hs, wrapu64_id; unfold in_uint64; lia.
Qed.

(** The state advanced past the entry that was written. *)
Lemma ready_next e r r' since first :
  ready e r r' ->
  (Z.of_nat (length (diskOf r' (rr_sessionID r'))) < 2 ^ 63 ->
   0 <= since <= Z.of_nat (length (diskOf r' (rr_sessionID r'))) /\
   0 <= first <= Z.of_nat (length (diskOf r' (rr_sessionID r')))) ->
  let r2 := with_chain (wrapu64 (rr_seq r' + 1)) (e_Hash e) (rr_sessionID r') since first r' in
  logs_ok r2 /\ linked true r2.
Proof.
  intros (Hl & _ & _ & Hne & Hnf & Ht & n & Hlen & Hseq & _) Hb. cbv zeta.
  split; [exact Hl|]. unfold linked. cbn [with_chain rr_sessionID rr_prevHash rr_seq rr_sinceCheckpoint rr_firstSeqInSpan].
  change (diskOf (with_chain _ _ _ _ _ r')) with (diskOf r').
  split_and!; [done|done|done| |done|].
  - rewrite Hseq, wrapu64_succ, Hlen. f_equal. lia.
  - intros _ E. by rewrite E in Hlen.
Qed.

Lemma ready_advance e r r' :
  ready e r r' -> logs_ok (advance e r') /\ linked true (advance e r') /\ rr_file (advance e r') <> None /\
  rr_closed (advance e r') = rr_closed r.
Proof.
  intros Hr. destruct (ready_next e r r' (wrapu64 (rr_sinceCheckpoint r' + 1)) (rr_firstSeqInSpan r') Hr) as [H1 H2].
  - destruct Hr as (_ & _ & _ & _ & _ & _ & n & Hlen & _ & Hb). rewrite Hlen. intros Hlt.
    destruct Hb as [Hb1 Hb2]; [lia|]. rewrite wrapu64_id; unfold in_uint64; lia.
  - destruct Hr as (_ & Hf & Hc & _). split_and!; [exact H1|exact H2|exact Hf|exact Hc].
Qed.

Lemma resume_spec b s :
  s <> "" -> nul_free s ->
  triple (fun r => recorder_inv b r /\ rr_closed r = false /\ rr_sessionID r = "") (resumeSessionLocked s)
    (fun _ r => logs_ok r /\ linked b r /\ rr_closed r = false) (recorder_inv b).
Proof.
  intros Hne Hnf r0 (Hinv & Hcl & Hsid). unfold resumeSessionLocked, call, Op.bind, tick, Op.get, Op.modify, Op.ret, Op.fail.
  destruct (callFails (rr_io r0)); [exact Hinv|].
  change (diskOf (with_world (rr_disk r0) (rr_closed r0) (S (rr_io r0)) r0) s) with (diskOf r0 s).
  destruct Hinv as [Hl Hst]. pose proof Hl as (Hlogs & _). specialize (Hlogs s).
  assert (b = false) as Hbusy by (destruct Hst as [[? _]|[[? _]|[? _]]]; congruence).
  assert (forall seq prev, prev = tailHash (diskOf r0 s) -> seq = wrapu64 (Z.of_nat (length (diskOf r0 s))) ->
    let r := with_chain seq prev s 0 seq (with_world (rr_disk r0) (rr_closed r0) (S (rr_io r0)) r0) in
    logs_ok r /\ linked b r /\ rr_closed r = false) as Hadopt.
  { intros seq prev -> ->. cbv zeta. split_and!; [exact Hl| |exact Hcl]. unfold linked.
    cbn [with_chain with_world rr_sessionID rr_prevHash rr_seq rr_sinceCheckpoint rr_firstSeqInSpan].
    change (diskOf (with_chain _ _ _ _ _ _) s) with (diskOf r0 s). split_and!; try done; [|congruence].
    intros Hlt. rewrite wrapu64_id; unfold in_uint64; lia. }
  destruct (last (diskOf r0 s)) as [tl|] eqn:EL.
  2: { apply last_None in EL. apply Hadopt; by rewrite EL. }
  assert (recorder_inv b (with_world (rr_disk r0) (rr_closed r0) (S (rr_io r0)) r0)) as Hinv by exact (conj Hl Hst).
  destruct (is_ok (ValidateEntrySchema tl)); cbn [negb]; [|exact Hinv]. do 2 (case_decide; [exact Hinv|]).
  destruct (EntryVersionsCanShareChain _ _); cbn [negb]; [|exact Hinv].
  destruct (decide (e_Sequence tl = 2 ^ 64 - 1)) as [|Hmax]; [exact Hinv|]. apply Hadopt.
  - unfold tailHash. by rewrite EL.
  - pose proof EL as Hi. rewrite last_lookup in Hi. rewrite (log_seq _ _ _ Hlogs _ _ Hi) in Hmax |- *.
    rewrite wrapu64_next by done. f_equal. apply lookup_lt_Some in Hi. lia.
Qed.

(** What [prepareEntry] stamps, whatever the chain state. *)
Record prepared (e : Entry) : Prop := {
  pe_version : e_Version e = CurrentWriteEntryVersion;
  pe_namespace : e_ChainKind e = "" /\ e_WriterInstanceID e = "";
  pe_hash : e_Hash e = ComputeHash e;
  pe_noraw : e_RawDetail e = None;
  pe_type : e_Type e <> checkpointType;
  pe_clean : nul_free (e_TraceID e) /\ nul_free (e_Type e) /\ nul_free (e_EventKind e) /\
             nul_free (e_Transport e) /\ nul_free (e_Summary e) /\ nul_free (e_RawRef e);
}.

(** The entry continues the chain state. *)
Definition continues (e : Entry) (r : Recorder) : Prop :=
  e_Sequence e = rr_seq r /\ e_PrevHash e = rr_prevHash r /\ e_SessionID e = rr_sessionID r.

Lemma prepared_fresh r e raw : prepared e -> continues e r -> json_Detail (e_Detail e) = Some raw -> fresh_entry r e raw.
Proof. intros [] (? & ? & ?) Hraw. by split. Qed.

Lemma stamped_prepared e seq ts detail rawRef prev :
  recordable e -> nul_free rawRef ->
  let body := stamped e seq ts detail rawRef prev in prepared (body (ComputeHash (body ""))).
Proof. intros (_ & ? & ? & ? & ? & ? & _ & ? & ?) ?. by split. Qed.

(** The halves of a write, one after the other, are the whole. *)
Lemma begin_halves e r : begin e r = (p <- beginWrite e;; endWrite p.1 p.2.1 p.2.2)%op r.
Proof.
  unfold begin, beginWrite, endWrite, prepareAndWriteEntryLocked, writeEntryBounded, Op.bind, Op.ret, Op.modify, Op.wrap.
  destruct (prepareEntry e r) as [[w|] r1]; [|done]. destruct (startWrite w r1) as [[[raw fits]|] r2]; [|done].
  cbn [fst snd]. by destruct (finishWrite w raw fits r2) as [[]].
Qed.

Lemma keeps_escrow s0 e : keeps s0 (escrow e).
Proof. unfold escrow. repeat keeps_step. Qed.

Lemma escrow_spec s0 e r0 :
  nul_free (e_RawRef e) ->
  triple (framed s0 r0) (escrow e) (fun v r => framed s0 r0 r /\ nul_free v) (framed s0 r0).
Proof.
  intros He r Hr. pose proof (keeps_escrow s0 e r0 r Hr) as Hk. revert Hk.
  unfold escrow, Op.bind, Op.get, tick, Op.ret, Op.fail.
  destruct (cf_RawEscrow (rr_cfg r)); [|by split]. destruct (json_Detail (e_Detail e)) as [raw|]; [|done].
  destruct (escrowName (rr_io r) raw) as [name|] eqn:E; [|done]. split; [done|]. by eapply (escrow_clean (pub := pub)).
Qed.

Lemma recorder_inv_framed b r r' : framed (rr_seq r) r r' -> logs_ok r -> linked b r -> recorder_inv b r'.
Proof. intros F Hl Hk. split; [by eapply logs_ok_framed|]. right; right. by eapply linked_framed. Qed.

Lemma prepareEntry_spec b e :
  recordable e ->
  triple (recorder_inv b) (prepareEntry e)
    (fun w r => logs_ok r /\ linked b r /\ rr_closed r = false /\ prepared w /\ continues w r) (recorder_inv b).
Proof.
  intros He. pose proof He as (Hnf & _ & _ & _ & _ & _ & Href & _). unfold prepareEntry.
  apply triple_get. intros r0 Hr0. destruct (rr_closed r0) eqn:Hc; [by apply triple_fail; intros ? ->|].
  destruct (decide (e_SessionID e = "")) as [|Hne]; [by apply triple_fail; intros ? ->|].
  destruct (_ || _); [by apply triple_fail; intros ? ->|].
  apply triple_bind with (R := fun _ r => logs_ok r /\ linked b r /\ rr_closed r = false).
  { destruct (decide (rr_sessionID r0 = "")) as [Hs|Hs].
    - apply triple_wrap. eapply triple_conseq; [by apply resume_spec|by intros ? ->|done|done].
    - apply triple_ret. intros ? ->. destruct Hr0 as [Hl [[? _]|[(_ & ? & _)|Hk]]]; [congruence|done|done]. }
  intros _. apply triple_get. intros r (Hl & Hk & Hcl).
  destruct (decide (e_SessionID e = rr_sessionID r)) as [Hs|Hs].
  2: { rewrite decide_True by done. apply triple_fail. intros ? ->. split; [done|]. by right; right. }
  rewrite decide_False by (by intros []).
  eapply triple_conseq with (P' := framed (rr_seq r) r) (E' := framed (rr_seq r) r);
    [|by intros ? -> |intros w r' Hw; exact Hw|intros r' Hf; by eapply recorder_inv_framed].
  eapply triple_bind; [apply keeps_tick|]. intros n. eapply triple_bind; [by apply escrow_spec|]. intros rawRef.
  apply triple_ret. intros r' [Hf Hn]. split_and!.
  - by eapply logs_ok_framed.
  - by eapply linked_framed.
  - unfold framed in Hf. intuition congruence.
  - by apply stamped_prepared.
  - unfold framed in Hf. unfold continues. cbn. intuition congruence.
Qed.

(** The first half of a write keeps the chain state. *)
Lemma beginWrite_spec b e :
  recordable e ->
  triple (recorder_inv b) (beginWrite e)
    (fun p r => logs_ok r /\ linked b r /\ rr_closed r = false /\ prepared p.1 /\ continues p.1 r /\
                json_Detail (e_Detail p.1) = Some p.2.1) (recorder_inv b).
Proof.
  intros He. unfold beginWrite. eapply triple_bind; [by apply prepareEntry_spec|]. intros w.
  intros r (Hl & Hk & Hc & Hw & Hcont). unfold Op.bind.
  pose proof (triple_wrap "writing entry" _ _ _ _ (startWrite_spec w r) r (reflexivity r)) as H.
  destruct Hcont as (Hseq & Hprev & Hsid). rewrite Hseq in H.
  case_match. case_match; cbn [Op.ret]; [|by eapply recorder_inv_framed].
  destruct H as [Hf Hraw]. split_and!; try done; [by eapply logs_ok_framed|by eapply linked_framed|..];
    unfold framed in Hf; unfold continues; cbn; intuition congruence.
Qed.

(** The second half adds the entry, if it still continues the chain state. *)
Lemma endWrite_spec b w raw fits r :
  logs_ok r -> linked b r -> prepared w -> continues w r -> json_Detail (e_Detail w) = Some raw ->
  match endWrite w raw fits r with
  | (Ok _, r') => recorder_inv true r' /\ rr_closed r' = rr_closed r
  | (Err _, r') => recorder_inv b r' /\ rr_closed r' = rr_closed r
  end.
Proof.
  intros Hl Hk Hw Hcont Hraw. unfold endWrite, Op.bind, Op.modify.
  pose proof (triple_wrap "writing entry" _ _ _ _ (finishWrite_spec w raw fits r) r (reflexivity r)) as H.
  destruct (Op.wrap _ _ r) as [[[]|] r1].
  - assert (ready w r r1) as Hr by (eapply wrote_ready; [done|done|by apply prepared_fresh|done]).
    apply ready_advance in Hr as (H1 & H2 & _ & H3). split; [|done]. split; [done|]. by right; right.
  - destruct Hcont as (Hseq & _). rewrite Hseq in H. split; [by eapply recorder_inv_framed|].
    unfold framed in H. intuition congruence.
Qed.
(** ** Checkpoints *)

Lemma checkpointEntry_fresh ts r raw :
  logs_ok r -> linked true r ->
  json_Detail (e_Detail (checkpointEntry ts r)) = Some raw -> fresh_entry r (checkpointEntry ts r) raw.
Proof.
  intros (_ & Hsign & _) (_ & _ & _ & Hseq & Hb & Hne) Hraw. split; try done.
  - split_and!; try done. cbn [checkpointEntry e_Summary].
    repeat (apply nul_free_app; [try done; apply pretty_Z_nul_free|]). done.
  - intros Hsg Hlt _. destruct (Hb Hlt) as [Hb1 Hb2].
    specialize (Hne eq_refl). rewrite <- length_zero_iff_nil in Hne.
    cbn [checkpointEntry e_Detail] in Hraw. destruct sign as [s|] eqn:Es; [|by destruct (Hsign Hsg)].
    unfold signing in Hsg. rewrite Hsg in Hraw. destruct (sign_verifies s (rr_prevHash r) Es) as [Hv Hempty].
    apply checkpoint_roundtrip in Hraw as (raw' & cp' & Hr & Hcp & Hs);
      cbn [cp_EntryCount cp_FirstSeq cp_LastSeq cp_Signature] in *; [|lia|lia|rewrite Hseq].
    + exists raw', cp', (s (rr_prevHash r)). rewrite Hs, Hex.Decode_Encode. split_and!; try done.
      * cbn [readBack e_Detail checkpointEntry]. by rewrite Es, Hsg.
      * by destruct (s (rr_prevHash r)).
    + rewrite (wrapu64_id (Z.of_nat _)), wrapu64_id by (unfold in_uint64; lia). lia.
Qed.

(** With a file open the checkpoint continues the log. *)
Lemma checkpoint_spec c :
  triple (fun r => logs_ok r /\ linked true r /\ rr_closed r = c /\ rr_file r <> None) checkpointLocked
    (fun _ r => logs_ok r /\ linked true r /\ rr_closed r = c) (fun r => logs_ok r /\ linked true r /\ rr_closed r = c).
Proof.
  unfold checkpointLocked.
  apply triple_bind with (R := fun _ r => logs_ok r /\ linked true r /\ rr_closed r = c /\ rr_file r <> None).
  { intros r Hr. exact Hr. }
  intros n. apply triple_get. intros r (Hl & Hk & Hc & Hf). destruct (rr_file r) as [f|]; [clear Hf|done].
  set (e := checkpointEntry (clock n) r).
  assert (forall r', framed (rr_seq r) r r' -> logs_ok r' /\ linked true r' /\ rr_closed r' = c) as Hframed.
  { intros r' F. split_and!; [by eapply logs_ok_framed|by eapply linked_framed|]. unfold framed in F. intuition congruence. }
  apply triple_bind with (R := fun _ => ready e r).
  - eapply triple_bind with (R := fun _ => ready e r).
    + eapply triple_conseq; [apply (writeEntryBounded_spec e r)|by intros ? ->| |exact Hframed].
      intros _ r' (raw & Hraw & Hw). eapply wrote_ready; [done|done| |exact Hw]. by apply checkpointEntry_fresh.
    + intros []. apply triple_modify. intros r' Hr'. exact Hr'.
  - intros []. apply triple_modify. intros r' Hr'.
    pose proof Hr' as (_ & _ & Hcl & _ & _ & _ & m & Hlen & Hseq & _).
    destruct (ready_next e r r' 0 (wrapu64 (rr_seq r' + 1)) Hr') as [H1 H2].
    + intros Hlt. rewrite Hseq, wrapu64_succ, wrapu64_id by (unfold in_uint64; lia). lia.
    + split_and!; [exact H1|exact H2|]. cbn. congruence.
Qed.

(** Without one only the chain state changes. *)
Lemma checkpoint_no_file r :
  rr_file r = None -> logs_ok r ->
  let r' := (checkpointLocked r).2 in logs_ok r' /\ rr_file r' = None /\ rr_closed r' = rr_closed r.
Proof.
  intros Hf Hl. unfold checkpointLocked, Op.bind, tick, Op.get, Op.modify, Op.ret. cbn [rr_file with_world].
  rewrite Hf. by split_and!.
Qed.

Lemma closeFile_file r : rr_file (closeFile r).2 = None.
Proof.
  unfold closeFile, Op.bind, Op.get, Op.modify, Op.ret, Op.fail. destruct (rr_file r) as [f|] eqn:Hf; [|done].
  destruct (f_broken f); [done|]. unfold call, Op.bind, tick, Op.ret, Op.fail. by case_match.
Qed.

Lemma keeps_framed {A} s0 (m : M A) r : keeps s0 m -> framed s0 r (m r).2.
Proof. intros Hm. specialize (Hm r r (reflexivity r)). by case_match; case_match. Qed.

(** A step that holds whether it succeeds or fails. *)
Lemma triple_snd {A} (m : M A) P (Q : Recorder -> Prop) r : triple P m (fun _ => Q) Q -> P r -> Q (m r).2.
Proof. intros Hm Hr. specialize (Hm r Hr). by destruct (m r) as [[]]. Qed.

Lemma linked_busy b r : linked true r -> linked b r.
Proof. intros (H1 & H2 & H3 & H4 & H5 & H6). split_and!; auto. Qed.

Lemma linked_since b r : linked b r -> 1 <= rr_sinceCheckpoint r -> linked true r.
Proof.
  intros (H1 & H2 & H3 & H4 & H5 & _) Hs. split_and!; auto. intros _ E. rewrite E in H5. cbn in H5. lia.
Qed.

Lemma linked_inv b r : logs_ok r /\ linked b r -> recorder_inv b r.
Proof. intros [Hl Hk]. split; [done|]. by right; right. Qed.

Lemma inv_busy b r : recorder_inv true r -> recorder_inv b r.
Proof.
  intros [Hl [?|[(? & _)|Hk]]]; [|done|by apply linked_inv; split; [|apply linked_busy]]. split; [done|by left].
Qed.

Lemma closed_inv b r : logs_ok r -> rr_closed r = true -> rr_file r = None -> recorder_inv b r.
Proof. intros. split; [done|by left]. Qed.

(** A session in progress, open or closed as [c] says. *)
Definition live (b c : bool) (r : Recorder) : Prop := logs_ok r /\ linked b r /\ rr_closed r = c.

Lemma closeFile_live b c : triple (live b c) closeFile (fun _ => live b c) (live b c).
Proof.
  intros r (Hl & Hk & Hc). pose proof (keeps_framed _ _ r (keeps_closeFile (rr_seq r))) as F.
  assert (live b c (closeFile r).2) as H.
  { split_and!; [by eapply logs_ok_framed|by eapply linked_framed|]. unfold framed in F. intuition congruence. }
  by destruct (closeFile r) as [[]].
Qed.

Lemma maintain_live b c cp rot :
  triple (fun r => live b c r /\ (cp = true -> linked true r /\ rr_file r <> None)) (maintain cp rot)
    (fun _ => live b c) (live b c).
Proof.
  unfold maintain. apply triple_bind with (R := fun _ => live b c).
  - destruct cp; [|by apply triple_ret; intros ? [? _]]. apply triple_wrap. intros r ((Hl & _ & Hc) & Hk).
    destruct (Hk eq_refl) as [Hk' Hf]. pose proof (checkpoint_spec c r) as H.
    case_match. case_match; (destruct H as (? & ? & ?); [done|split_and!; [done|by apply linked_busy|done]]).
  - intros []. destruct rot; [|by apply triple_ret]. apply triple_wrap, closeFile_live.
Qed.

Lemma maintain_no_file cp rot r :
  rr_file r = None -> logs_ok r ->
  let r' := (maintain cp rot r).2 in logs_ok r' /\ rr_file r' = None /\ rr_closed r' = rr_closed r.
Proof.
  intros Hf Hl. pose proof (checkpoint_no_file r Hf Hl) as (H1 & H2 & H3).
  unfold maintain, rotateFile, closeFile, Op.bind, Op.get, Op.ret, Op.wrap.
  destruct cp; [destruct (checkpointLocked r) as [[[]|] r1]|]; cbn [snd] in *; try done;
    destruct rot; rewrite ?H2, ?Hf; done.
Qed.

(** Maintenance keeps the invariant unless it leaves a checkpoint unwritten. *)
Lemma maintain_inv b cp rot r :
  recorder_inv b r -> (cp = true -> recorder_inv true r) -> unwritten cp r = false ->
  let r' := (maintain cp rot r).2 in recorder_inv b r' /\ rr_closed r' = rr_closed r.
Proof.
  intros Hinv Hbusy Hu. pose proof Hinv as [Hl Hr]. destruct (rr_file r) as [f|] eqn:Hf.
  - destruct Hr as [[_ ?]|[(_ & _ & ? & _)|Hk]]; [done|done|].
    assert (live b (rr_closed r) (maintain cp rot r).2) as (H1 & H2 & H3); [|split; [by apply linked_inv|done]].
    apply (triple_snd _ _ _ _ (maintain_live b _ cp rot)). rewrite Hf. split; [done|].
    intros Hcp. split; [|done]. destruct (Hbusy Hcp) as [_ [[_ ?]|[[? _]|?]]]; congruence.
  - destruct (maintain_no_file cp rot r Hf Hl) as (H1 & H2 & H3).
    destruct (rr_closed r) eqn:Hc; [split; [by apply closed_inv|done]|].
    unfold unwritten in Hu. rewrite Hc, Hf, bool_decide_eq_true_2 in Hu by done. destruct cp; [done|].
    assert (maintain false rot r = (Ok tt, r)) as ->; [|exact (conj Hinv Hc)].
    unfold maintain, Op.bind, Op.ret, Op.wrap, rotateFile, closeFile, Op.bind, Op.get. destruct rot; [by rewrite Hf|done].
Qed.

Lemma inv_since b r : recorder_inv b r -> 1 <= rr_sinceCheckpoint r -> recorder_inv true r.
Proof.
  intros [Hl [?|[(_ & _ & _ & ?)|Hk]]] Hs; [by split; [|left]|lia|]. apply linked_inv. split; [done|].
  by eapply linked_since.
Qed.

Lemma enterMaintenance_inv b r ts :
  recorder_inv b r -> (enterMaintenance r ts).1 = false ->
  recorder_inv b (enterMaintenance r ts).2.1 /\ rr_closed (enterMaintenance r ts).2.1 = rr_closed r.
Proof.
  intros Hr. unfold enterMaintenance. destruct (_ && _); [done|]. cbn [fst snd]. intros Hu.
  apply maintain_inv; [done| |done]. unfold needsCheckpoint. rewrite bool_decide_eq_true. intros Hs.
  apply (inv_since b); [done|]. destruct Hr as [(_ & _ & ? & _) _]. lia.
Qed.

Lemma finishClose_inv b cp r :
  recorder_inv b r -> rr_closed r = true -> (cp = true -> recorder_inv true r) ->
  let r' := (finishClose cp r).2 in recorder_inv b r' /\ rr_closed r' = true.
Proof.
  intros Hr Hc Hbusy. pose proof Hr as [Hl Hst].
  assert (forall r2, logs_ok r2 -> rr_closed r2 = true -> let r' := (closeFile r2).2 in recorder_inv b r' /\ rr_closed r' = true) as Hend.
  { intros r2 Hl2 Hc2. pose proof (keeps_framed _ _ r2 (keeps_closeFile 0)) as F.
    assert (rr_closed (closeFile r2).2 = true) as Hc' by (unfold framed in F; intuition congruence).
    split; [|done]. apply closed_inv; [by eapply logs_ok_framed|done|apply closeFile_file]. }
  unfold finishClose, Op.bind. destruct cp; [|by apply Hend].
  assert (let r2 := (checkpointLocked r).2 in logs_ok r2 /\ rr_closed r2 = true) as Hcp.
  { destruct (rr_file r) as [f|] eqn:Hf.
    - destruct (Hbusy eq_refl) as [_ [[_ ?]|[[? _]|Hk]]]; [congruence|done|].
      assert (let r2 := (checkpointLocked r).2 in logs_ok r2 /\ linked true r2 /\ rr_closed r2 = true) as H; [|naive_solver].
      apply (triple_snd _ _ _ _ (checkpoint_spec true)). by rewrite Hf.
    - pose proof (checkpoint_no_file r Hf Hl) as (H1 & _ & H3). split; [exact H1|]. cbv zeta. congruence. }
  destruct (checkpointLocked r) as [[[]|] r2]; cbn [snd] in *; by apply Hend; apply Hcp.
Qed.

Lemma safeUint64_pos v fallback : in_int64 v -> 1 <= v -> 1 <= safeUint64 v fallback.
Proof.
  unfold in_int64, int64_min, int64_max. intros Hv H1. unfold safeUint64, maxCheckpointBound.
  destruct (decide (v < 1)); [lia|]. rewrite wrapu64_id by (unfold in_uint64; lia). case_decide; lia.
Qed.

Lemma New_inv cfg disk io r :
  New cfg disk io = Ok r -> in_int64 (cf_CheckpointInterval cfg) ->
  (forall s, log_ok (cf_SignCheckpoints cfg) s (default [] (disk !! s))) ->
  recorder_inv false r /\ signing r = cf_SignCheckpoints cfg.
Proof.
  unfold New. destruct (cf_SignCheckpoints cfg && bool_decide (sign = None)) eqn:Hsg; [done|].
  destruct (callFails io); [done|]. intros [= <-] Hint Hlogs. split; [|done]. split; [|by right; left].
  assert (in_int64 (if decide (cf_CheckpointInterval cfg <= 0) then defaultCheckpointInterval else cf_CheckpointInterval cfg) /\
          1 <= (if decide (cf_CheckpointInterval cfg <= 0) then defaultCheckpointInterval else cf_CheckpointInterval cfg)) as [H1 H2].
  { case_decide; [by vm_compute|]. split; [done|lia]. }
  split_and!; [exact Hlogs| |by apply safeUint64_pos|exact H1].
  cbn. intros Hs. rewrite Hs in Hsg. by apply bool_decide_eq_false in Hsg.
Qed.

(** Waiting calls mean that the session has entries, except after a close; a
    close that waits has closed the recorder; a write that waits was stamped. *)
Definition task_ok (r : Recorder) (t : task) : Prop :=
  match t with
  | Rotating _ w raw => prepared w /\ json_Detail (e_Detail w) = Some raw
  | Closing _ => rr_closed r = true
  | _ => True
  end.

Definition system_inv (st : system) : Prop :=
  recorder_inv (bool_decide (st.2 <> [])) st.1 /\ Forall (task_ok st.1) st.2.

(** Changes that keep a closed recorder closed keep the second half. *)
Lemma tasks_ok_closed r r' ts : (rr_closed r = true -> rr_closed r' = true) -> Forall (task_ok r) ts -> Forall (task_ok r') ts.
Proof. intros Hc Ht. eapply Forall_impl; [exact Ht|]. intros []; cbn; auto. Qed.

Lemma system_inv_step r r' ts :
  recorder_inv true r' -> rr_closed r' = rr_closed r -> Forall (task_ok r) ts -> system_inv (r', ts).
Proof. intros H1 H2 H3. split; [by apply inv_busy|]. apply (tasks_ok_closed r); [cbn; congruence|done]. Qed.

Lemma enter_system_inv r ts :
  recorder_inv true r -> (enterMaintenance r ts).1 = false -> Forall (task_ok r) ts -> system_inv (enterMaintenance r ts).2.
Proof.
  intros Hr Hu Ht. destruct (enterMaintenance_inv true r ts Hr Hu) as [H1 H2].
  destruct (enterMaintenance r ts) as [u [r' ts']] eqn:E. apply (system_inv_step r r'); [exact H1|exact H2|].
  unfold enterMaintenance in E. destruct (_ && _); injection E as <- <- <-; [|done]. by constructor.
Qed.

Lemma waiting_inv r ts1 x ts2 :
  system_inv (r, ts1 ++ x :: ts2) -> recorder_inv true r /\ Forall (task_ok r) (ts1 ++ ts2) /\ task_ok r x.
Proof.
  intros [H1 H2]. cbn in *. rewrite bool_decide_eq_true_2 in H1 by (by destruct ts1).
  apply Forall_app in H2 as [H2 H3]. apply Forall_cons in H3 as [H3 H4]. split_and!; [done|by apply Forall_app|done].
Qed.

Lemma settle_inv durable w raw fits r ts :
  system_inv (r, ts) -> linked (bool_decide (ts <> [])) r -> prepared w -> continues w r ->
  json_Detail (e_Detail w) = Some raw ->
  (settle durable (endWrite w raw fits r) ts).1 = false -> system_inv (settle durable (endWrite w raw fits r) ts).2.
Proof.
  intros [[Hl _] Ht] Hk Hw Hcont Hraw. pose proof (endWrite_spec _ w raw fits r Hl Hk Hw Hcont Hraw) as H.
  unfold settle. destruct (endWrite w raw fits r) as [[[]|] r']; destruct H as [H1 H2];
    (assert (Forall (task_ok r') ts) as Ht' by (apply (tasks_ok_closed r); [congruence|exact Ht])).
  - destruct durable; [|intros Hu; by apply enter_system_inv]. intros _. split; [by apply inv_busy|]. by constructor.
  - intros _. by split.
Qed.

Lemma enterWrite_inv durable e r ts :
  recordable e -> system_inv (r, ts) -> (enterWrite durable e r ts).1 = false -> system_inv (enterWrite durable e r ts).2.
Proof.
  intros He [Hr Ht]. cbn [fst snd] in *. pose proof (beginWrite_spec _ e He r Hr) as H. unfold enterWrite.
  assert (rr_closed r = true -> exists msg, beginWrite e r = (Err msg, r)) as Hclosed.
  { intros Hc. unfold beginWrite, prepareEntry, Op.bind, Op.get, Op.fail. rewrite Hc. eauto. }
  destruct (beginWrite e r) as [[[w [raw fits]]|msg] r1].
  - destruct H as (Hl & Hk & Hc & Hw & Hcont & Hraw). cbn [fst snd] in *.
    assert (Forall (task_ok r1) ts) as Ht1.
    { apply (tasks_ok_closed r); [|done]. intros Hcl. destruct (Hclosed Hcl). congruence. }
    destruct (negb fits && mustWait r1 ts) eqn:E.
    + intros _. assert (ts <> []) as Hne.
      { intros ->. unfold mustWait, pending in E. cbn in E. by rewrite !andb_false_r in E. }
      rewrite bool_decide_eq_true_2 in Hk by done. split; [by apply linked_inv|]. by constructor.
    + apply settle_inv; try done. by split; [apply linked_inv|].
  - intros _. split; [done|]. apply (tasks_ok_closed r); [|done]. intros Hcl. by destruct (Hclosed Hcl) as [? [= _ ->]].
Qed.

Lemma resumeWrite_inv durable w raw r ts :
  recorder_inv true r -> Forall (task_ok r) ts -> prepared w -> json_Detail (e_Detail w) = Some raw ->
  (resumeWrite durable w raw r ts).1 = false -> system_inv (resumeWrite durable w raw r ts).2.
Proof.
  intros Hr Ht Hw Hraw. unfold resumeWrite. destruct (settle _ _ _) as [u st] eqn:E. cbn [fst snd].
  unfold overtaken. intros [Ho ->]%orb_false_iff. apply negb_false_iff in Ho. rewrite !andb_true_iff, !bool_decide_eq_true in Ho.
  destruct Ho as [[[Hs Hp] Hi] Hf]. pose proof (settle_inv durable w raw false r ts) as H. rewrite E in H.
  assert (linked true r) as Hk by (destruct Hr as [_ [[_ ?]|[[? _]|?]]]; done).
  apply H; try done; [split; [by apply inv_busy|done]|by apply linked_busy].
Qed.

Lemma enterClose_inv r ts : system_inv (r, ts) -> system_inv (enterClose r ts).
Proof.
  intros [Hr Ht]. cbn [fst snd] in *. unfold enterClose. destruct (rr_closed r) eqn:Hc; [by split|].
  set (b := bool_decide (ts <> [])) in *. set (r1 := with_world _ _ _ _).
  assert (forall b, recorder_inv b r -> recorder_inv b r1) as Hr1.
  { intros b' [Hl Hst]. split; [exact Hl|]. right. destruct Hst as [[? _]|Hst]; [congruence|exact Hst]. }
  assert (bool_decide (rr_sinceCheckpoint r > 0) = true -> recorder_inv true r1) as Hs.
  { rewrite bool_decide_eq_true. intros Hs. apply Hr1, (inv_since b); [done|lia]. }
  assert (forall r', rr_closed r' = true -> Forall (task_ok r') ts) as Ht' by (intros; by apply (tasks_ok_closed r)).
  destruct (mustWait r1 ts) eqn:E.
  - assert (b = true) as Hb.
    { apply bool_decide_eq_true_2. intros ->. unfold mustWait, pending in E. cbn in E. by rewrite andb_false_r in E. }
    rewrite Hb in Hr. split; [by apply inv_busy, Hr1|]. by constructor; [|apply Ht'].
  - destruct (finishClose_inv b (bool_decide (rr_sinceCheckpoint r > 0)) r1) as [H1 H2]; [by apply Hr1|done|done|].
    split; [done|by apply Ht'].
Qed.

Lemma rstep_inv st st' : rstep false st st' -> system_inv st -> system_inv st'.
Proof.
  remember false as u eqn:Hu. intros H. revert Hu.
  destruct H as [durable e r ts He|r ts1 durable w raw ts2 Hp|r ts1 g ts2|r ts1 g ts2|r ts1 ts2|r ts1 cp rot ts2 Hp|r ts
    |r ts1 cp ts2 Hp|r ts r' E]; intros Hu Hr; try (apply waiting_inv in Hr as (Hr & Ht & Hx)).
  - by apply enterWrite_inv.
  - destruct Hx. by apply resumeWrite_inv.
  - apply (system_inv_step r r); [done|done|by constructor].
  - by apply (system_inv_step r r).
  - by apply enter_system_inv.
  - destruct (maintain_inv true cp rot r) as [H1 H2]; [done..|]. by apply (system_inv_step r).
  - by apply enterClose_inv.
  - destruct (finishClose_inv true cp r) as [H1 H2]; [done|exact Hx|done|].
    apply (system_inv_step r); [done|by rewrite H2|done].
  - destruct Hr as [[(Hlogs & _ & _ & Hint) _] _]. apply New_inv in E as [E _]; [|done|exact Hlogs]. by split; [|constructor].
Qed.

Lemma rsteps_inv st st' : rtc (rstep false) st st' -> system_inv st -> system_inv st'.
Proof. induction 1; [done|]. intros. by apply IHrtc, (rstep_inv x). Qed.


(** What redaction leaves of a detail that does not scan clean: the names of the
    patterns found and a size, or the reason. *)
Definition redaction_wrapper (d : Detail) : Prop :=
  (exists (patterns : list string) (size : Z),
     d = ofJSON (JObject [("redacted", JBool true);
                          ("detected_patterns", JArray ((fun p => JString ("[REDACTED:" +:+ p +:+ "]")) <$> patterns));
                          ("original_size", JNumber (pretty size))])) \/
  d = ofJSON (JObject [("redacted", JBool true); ("reason", JString "marshal error")]).

(** The detail scans clean, cannot be marshalled, or is a wrapper. *)
Definition safe_detail (scan : string -> bool * list string) (d : Detail) : Prop :=
  (forall raw, json_Detail d = Some raw -> (scan raw).1 = true) \/ redaction_wrapper d.

Lemma redactDetail_safe scan d : isNil d = false -> safe_detail scan (redactDetail scan d).
Proof.
  intros Hn. unfold redactDetail. rewrite Hn. destruct (json_Detail d) as [raw|] eqn:E; [|left; congruence].
  destruct (scan raw) as [[] patterns] eqn:Es; [left; intros ? [= <-]%(eq_trans (eq_sym E)); by rewrite Es|].
  right. left. by exists patterns, (Z.of_nat (String.length raw)).
Qed.

Lemma redactReceiptDetail_safe scan d : isNil d = false -> safe_detail scan (redactReceiptDetail scan d).
Proof.
  intros Hn. pose proof (redactDetail_safe scan d Hn) as Hd. unfold redactReceiptDetail. rewrite Hn.
  destruct (json_Detail d) as [raw|] eqn:E; [|by right; right].
  destruct (scan raw).1 eqn:Es; [left; congruence|].
  destruct (decodeObject raw) as [m|]; [|done]. destruct (getField "action_record" m) as [[]|]; try done.
  destruct (foldl _ _ _) as [ar redactedFields]. case_decide; [done|]. cbv zeta.
  destruct (json_Detail (ofJSON _)) as [partialJSON|] eqn:Ep; [|done].
  destruct (scan partialJSON).1 eqn:Esp; [|done]. left. congruence.
Qed.

Lemma resume_cfg c s :
  triple (fun r => rr_cfg r = c) (resumeSessionLocked s) (fun _ r => rr_cfg r = c) (fun _ => True).
Proof.
  intros r Hr. unfold resumeSessionLocked, call, Op.bind, tick, Op.get, Op.modify, Op.ret, Op.fail.
  destruct (callFails _); [done|]. destruct (last _); [|done]. by repeat case_match; simplify_eq/=.
Qed.

(** With redaction on, no detail that the scanner objects to is written. The
    entry that is written carries a detail whose JSON text scans clean (a
    receipt's once its target and pattern are replaced), or a wrapper that holds
    nothing of the original but its size and the names of the patterns. *)
Theorem written_detail_redacted scan e w r r' :
  redactFn = Some scan -> cf_Redact (rr_cfg r) = true -> isNil (e_Detail e) = false ->
  prepareAndWriteEntryLocked e r = (Ok w, r') -> safe_detail scan (e_Detail w).
Proof.
  intros Hf Hc Hn Hw.
  assert (triple (fun r1 => rr_cfg r1 = rr_cfg r) (prepareEntry e)
            (fun w _ => safe_detail scan (e_Detail w)) (fun _ => True)) as H.
  2: { specialize (H r eq_refl). unfold prepareAndWriteEntryLocked, Op.bind, Op.ret in Hw.
       destruct (prepareEntry e r) as [[w1|] r1]; [|done]. by destruct (Op.wrap _ _ r1) as [[]]; simplify_eq. }
  unfold prepareEntry. apply triple_get. intros r0 Hr0.
  do 3 (case_match; [by apply triple_fail|]). apply triple_bind with (R := fun _ r1 => rr_cfg r1 = rr_cfg r).
  { case_match; [|by apply triple_ret; intros ? ->]. apply triple_wrap.
    eapply triple_conseq; [apply (resume_cfg (rr_cfg r))|by intros ? ->|done|done]. }
  intros _. apply triple_get. intros r1 Hr1. case_match; [by apply triple_fail|].
  apply triple_bind with (R := fun _ _ => True); [done|]. intros k.
  eapply triple_bind with (R := fun _ _ => True); [intros ? _; by repeat case_match|]. intros rawRef.
  apply triple_ret. intros _ _. cbn [stamped e_Detail]. unfold redacted. rewrite Hf, Hr1, Hc.
  destruct (decide (e_Type e = recorderTypeReceipt)); [by apply redactReceiptDetail_safe|by apply redactDetail_safe].
Qed.
End recorder.

(** ** Concrete recorders *)

#[local] Existing Instance demo_entries.

(** A short digest, and a signature scheme that accepts. *)
Fixpoint demo_digest (acc : N) (s : string) : string :=
  match s with
  | "" => pretty acc
  | String a s => demo_digest ((acc * 31 + N_of_ascii a) mod 65521)%N s
  end.

#[local] Instance digest_crypto : CryptoLib :=
  {| sum256 := demo_digest 7%N; ed25519_Verify _ _ _ := true; quote s := s; hexError s := s; unicode_lower s := s |}.

(** Details are texts; a checkpoint's is its signature. *)
Fixpoint demo_text (j : JSON) : string :=
  match j with
  | JNull => "null"
  | JBool b => if b then "true" else "false"
  | JNumber text => text
  | JString s => s
  | JArray l => "[" +:+ String.concat "," (List.map demo_text l) +:+ "]"
  | JObject fields => "{" +:+ String.concat "," (List.map (fun '(k, v) => k +:+ ":" +:+ demo_text v) fields) +:+ "}"
  end.

(** An environment whose system calls fail as [fails] says; the scanner objects
    to texts with a dollar sign. *)
Definition demo_env (fails : nat -> bool) (size : nat -> Z) : RecorderEnv :=
  {| json_line e raw := e_Summary e +:+ raw; isNil d := bool_decide (d = ""); ofJSON := demo_text;
     checkpointDetail := cp_Signature;
     decodeObject s := if decide (s = "receipt$") then
                         Some [("action_record", JObject [("target", JString "$"); ("verb", JString "get")])] else None;
     redactFn := Some (fun s => (negb (Strings.ContainsByte s "$"), ["dollar"]));
     sign := Some (fun msg => "sig" +:+ msg); clock n := Z.of_nat n; dirState _ := DirSame; callFails := fails;
     openSize := size; escrowName n _ := Some "raw" |}.

Lemma demo_laws fails size : RecorderLaws (env := demo_env fails size) "key".
Proof.
  split; try done.
  - by intros ??? [= <-].
  - by intros ? ? [= <-].
  - intros cp raw _ _ _ [= <-]. cbn. by eexists _, _.
Qed.

Definition demo_cfg (interval maxEntries : Z) : RecorderConfig :=
  {| cf_CheckpointInterval := interval; cf_Redact := true; cf_SignCheckpoints := true;
     cf_MaxEntriesPerFile := maxEntries; cf_RawEscrow := false |}.

Definition demo_event (summary detail : string) : Entry :=
  {| e_Version := 0; e_Sequence := 0; e_Timestamp := 0; e_SessionID := "s"; e_ChainKind := ""; e_WriterInstanceID := "";
     e_TraceID := ""; e_Type := "decision"; e_EventKind := "read"; e_Transport := "http"; e_Summary := summary;
     e_Detail := detail; e_RawDetail := None; e_RawRef := ""; e_PrevHash := ""; e_Hash := "" |}.

Definition allWell (_ : nat) : bool := false.

Definition demo_new (cfg : RecorderConfig) : Recorder :=
  match New (env := demo_env allWell (fun _ => 0)) cfg ∅ 0 with Ok r => r | Err _ => {| rr_cfg := cfg; rr_seq := 0; rr_prevHash := "";
    rr_file := None; rr_fileEntryCount := 0; rr_fileSeqStart := 0; rr_fileGeneration := 0; rr_sessionID := "";
    rr_checkpointThreshold := 0; rr_sinceCheckpoint := 0; rr_firstSeqInSpan := 0; rr_closed := true; rr_disk := ∅; rr_io := 0 |} end.

#[local] Existing Instance demo_laws.
#[local] Instance well : RecorderEnv := demo_env allWell (fun _ => 0).

(** The outcome of an operation: its success and the state. *)
Definition ran {A} (m : M A) (r : Recorder) : bool * Recorder := (is_ok (m r).1, (m r).2).

(** A session with a checkpoint every two entries. *)
Definition demo_history : bool * Recorder :=
  let r := demo_new (demo_cfg 2 10) in
  let '(b1, r) := ran (Record_ (demo_event "one" "{}")) r in
  let '(b2, r) := ran (RecordDurable (demo_event "two" "a$")) r in
  let '(b3, r) := ran (Record_ (demo_event "three" "receipt")) r in
  let '(b4, r) := ran Close r in
  (b1 && b2 && b3 && b4, r).

Example demo_history_runs :
  demo_history.1 = true /\ e_Type <$> diskOf demo_history.2 "s" = ["decision"; "decision"; "checkpoint"; "decision"; "checkpoint"].
Proof. vm_compute. auto. Qed.

(** The same session in steps: the third entry is recorded while the second is
    being synced, so its maintenance waits; the checkpoint falls due to both. *)
Definition demo_begin (summary : string) (r : Recorder) : Recorder := (begin (demo_event summary "{}") r).2.

Definition demo_0 : Recorder := demo_new (demo_cfg 2 10).
Definition demo_1 : Recorder := (enterWrite false (demo_event "one" "{}") demo_0 []).2.1.
Definition demo_2 : Recorder := demo_begin "two" demo_1.
Definition demo_3 : Recorder := demo_begin "three" demo_2.
Definition demo_4 : Recorder := (maintain true false demo_3).2.
Definition demo_5 : Recorder := (enterMaintenance demo_4 []).2.1.
Definition demo_6 : Recorder := (enterClose demo_5 []).1.

Lemma rstep_written durable e r ts st :
  recordable e -> enterWrite durable e r ts = (false, st) -> rstep false (r, ts) st.
Proof. intros He H. pose proof (rstep_write durable e r ts He) as Hs. by rewrite H in Hs. Qed.

Lemma rstep_due_entered r st : enterMaintenance r [] = (false, st) -> rstep false (r, [Due]) st.
Proof. intros H. pose proof (rstep_due r [] []) as Hs. cbn [app] in Hs. by rewrite H in Hs. Qed.

Lemma demo_recordable summary : nul_free summary -> recordable (demo_event summary "{}").
Proof. intros. by split_and!. Qed.

Lemma demo_steps : rtc (rstep false) (demo_0, []) (demo_6, []).
Proof.
  apply rtc_l with (demo_1, []).
  { apply (rstep_written false (demo_event "one" "{}")); [by apply demo_recordable|by vm_compute]. }
  apply rtc_l with (demo_2, [Syncing 1]).
  { apply (rstep_written true (demo_event "two" "{}")); [by apply demo_recordable|by vm_compute]. }
  apply rtc_l with (demo_3, [Maintaining true false; Syncing 1]).
  { apply (rstep_written false (demo_event "three" "{}")); [by apply demo_recordable|by vm_compute]. }
  apply rtc_l with (demo_3, [Due; Maintaining true false]); [apply (rstep_synced demo_3 [_] _ [])|].
  apply rtc_l with (demo_4, [Due]).
  { assert (unwritten true demo_3 = false) as <- by by vm_compute. by apply (rstep_maintain demo_3 [_] true false []); vm_compute. }
  apply rtc_l with (demo_5, []); [apply rstep_due_entered; by vm_compute|].
  apply rtc_l with (enterClose demo_5 []); [apply rstep_close|].
  assert (enterClose demo_5 [] = (demo_6, [])) as -> by by vm_compute. apply rtc_refl.
Qed.


Lemma written_detail_redacted_witness :
  let scan s := (negb (Strings.ContainsByte s "$"), ["dollar"]) in
  match (prepareAndWriteEntryLocked (demo_event "two" "$$$") demo_0).1 with
  | Ok w => safe_detail scan (e_Detail w) /\
            e_Detail w = "{redacted:true,detected_patterns:[[REDACTED:dollar]],original_size:3}"
  | Err _ => False
  end.
Proof.
  cbv zeta. destruct (prepareAndWriteEntryLocked (demo_event "two" "$$$") demo_0) as [[w|msg] r'] eqn:E;
    [|vm_compute in E; discriminate]. cbn [fst]. split.
  - apply (written_detail_redacted _ (demo_event "two" "$$$") w demo_0 r'); [reflexivity|reflexivity|reflexivity|exact E].
  - vm_compute in E. injection E as <- _. reflexivity.
Defined.

(** A receipt whose target does not scan clean keeps its structure. *)
Example receipt_redacted_in_place :
  redactReceiptDetail (fun s => (negb (Strings.ContainsByte s "$"), ["dollar"])) "receipt$" =
    "{action_record:{target:[REDACTED],verb:get,redacted_fields:[target]}}".
Proof. vm_compute. reflexivity. Qed.

(** ** Where the log stops verifying *)

(** Two calls of [Record] that wait for a pending sync, both with a checkpoint
    and a rotation to do: the first rotates the file, the second then advances
    the chain past a checkpoint that no file takes. The next entry links to a
    hash that is not in the log, which no longer verifies. Every call succeeds. *)
Definition unwritten_states : list Recorder :=
  let r := demo_begin "two" (demo_begin "one" (demo_new (demo_cfg 2 2))) in
  let r' := demo_begin "three" r in
  let r1 := (maintain true true r').2 in
  let r2 := (maintain true true r1).2 in
  [r; r'; r1; r2; demo_begin "four" r2].

Example unwritten_checkpoint_breaks_log :
  let state i := nth i unwritten_states (demo_new (demo_cfg 2 2)) in
  enterMaintenance (state 0%nat) [Syncing 1] = (false, (state 0%nat, [Maintaining true true; Syncing 1])) /\
  enterMaintenance (state 1%nat) [Maintaining true true; Syncing 1] =
    (false, (state 1%nat, [Maintaining true true; Maintaining true true; Syncing 1])) /\
  (maintain true true (state 1%nat)).1 = Ok tt /\ (maintain true true (state 2%nat)).1 = Ok tt /\
  unwritten true (state 2%nat) = true /\ (begin (demo_event "four" "{}") (state 3%nat)).1 = Ok tt /\
  is_ok (VerifyChain (diskOf (state 3%nat) "s") None) = true /\
  is_ok (VerifyChain (diskOf (state 4%nat) "s") None) = false.
Proof. by vm_compute. Qed.

(** A write that waits to rotate a full file is overtaken by a smaller one, which
    is written with the same number and link: the chain forks. *)
Definition big_summary : string := String.concat "" (repeat "0123456789" 30).

Definition almost_full : RecorderEnv :=
  demo_env allWell (fun n => if decide (n = 5%nat) then MaxEvidenceReadFileBytes - 200 else 0).

Definition forked_run : list (bool * system) :=
  let env := almost_full in
  let s1 := enterWrite (env := env) true (demo_event "one" "{}") (demo_new (demo_cfg 10 10)) [] in
  let s2 := enterWrite (env := env) false (demo_event big_summary "{}") s1.2.1 s1.2.2 in
  let s3 := enterWrite (env := env) false (demo_event "three" "{}") s2.2.1 s2.2.2 in
  let s4 := match s3.2.2 with
            | Rotating durable w raw :: _ => resumeWrite (env := env) durable w raw s3.2.1 [Due]
            | _ => s3
            end in
  [s1; s2; s3; s4].

Example overtaken_write_forks_log :
  let log i := diskOf (nth i forked_run (false, (demo_0, []))).2.1 "s" in
  (fun s => length s.2.2) <$> forked_run = [1; 2; 2; 1]%nat /\
  fst <$> forked_run = [false; false; false; true] /\
  e_Sequence <$> log 3%nat = [0; 1; 1] /\
  is_ok (VerifyChain (log 2%nat) None) = true /\ is_ok (VerifyChain (log 3%nat) None) = false.
Proof. by vm_compute. Qed.

(** [Close] writes no final checkpoint when the file was just rotated: the last
    entry of the log is then covered by no checkpoint. *)
Example final_checkpoint_skipped :
  let '(b1, r) := ran (Record_ (demo_event "one" "{}")) (demo_new (demo_cfg 10 1)) in
  let '(b2, r) := ran Close r in
  (b1, b2, e_Type <$> diskOf r "s") = (true, true, ["decision"]).
Proof. by vm_compute. Qed.

(** The recorder writes a NUL in a summary; the verifier and the next recorder
    that resumes the session refuse it. *)
Example recorder_writes_unreadable :
  let '(b1, r) := ran (Record_ (demo_event (String NUL "") "{}")) (demo_new (demo_cfg 10 10)) in
  let again := match New (rr_cfg r) (rr_disk r) (rr_io r) with Ok r' => (Record_ (demo_event "two" "{}") r').1 | Err e => Err e end in
  (b1, is_ok (VerifyChain (diskOf r "s") None), is_ok again) = (true, false, false).
Proof. by vm_compute. Qed.
