(* ===== verification/Limits.v ===== *)
(** * Sliding-window limits: requests and bytes per domain

    [internal/scanner/ratelimit.go] and [internal/scanner/databudget.go]. Both keep
    a log of time-stamped entries per domain, count those of the last minute, and
    prune the log once a minute; the module [Window] holds what they share. The
    clock is an argument; each method is one step, as it holds the mutex. *)

From S2P Require Import Prelude.
Local Open Scope Z_scope.

(** ** Logs of the last minute *)

Module Window.
Section window.
Context {E : Type} (at_ : E -> Z).

(** The entries after the cutoff [now - 1m]. *)
Definition live (now : Z) (es : list E) : list E := filter (fun e => now - Time.minute < at_ e) es.

(** [cleanupLocked]: the logs without their stale entries, empty ones deleted. *)
Definition cleanupLocked (now : Z) (m : gmap string (list E)) : gmap string (list E) :=
  omap (fun es => match live now es with [] => None | es => Some es end) m.

(** The cleanup is due once a minute. *)
Definition cleanupDue (now last : Z) : bool := negb (bool_decide (Time.sub now last < Time.minute)).

Definition logOf (m : gmap string (list E)) (d : string) : list E := default [] (m !! d).

(** ** Logs against the history of all entries *)

(** The entries of a domain, among all that were ever added. *)
Definition entriesOf (d : string) (h : list (string * E)) : list E := snd <$> filter (fun de => de.1 = d) h.

(** From time [t] on the logs show what the history does. *)
Definition tracks (t : Z) (m : gmap string (list E)) (h : list (string * E)) : Prop :=
  forall d now, t <= now -> live now (logOf m d) = live now (entriesOf d h).

Lemma live_live now now' es : now <= now' -> live now' (live now es) = live now' es.
Proof.
  intros Hle. unfold live. rewrite list_filter_filter. apply list_filter_iff. intros e. lia.
Qed.

Lemma live_app now es es' : live now (es ++ es') = live now es ++ live now es'.
Proof. apply filter_app. Qed.

Lemma tracks_empty t : tracks t ∅ [].
Proof. intros d now _. unfold logOf. by rewrite lookup_empty. Qed.

Lemma tracks_later t t' m h : t <= t' -> tracks t m h -> tracks t' m h.
Proof. intros Hle H d now Hnow. apply H. lia. Qed.

Lemma tracks_cleanup t now m h : t <= now -> tracks t m h -> tracks now (cleanupLocked now m) h.
Proof.
  intros Hle H d now' Hnow. rewrite <- (H d now') by lia. unfold logOf, cleanupLocked. rewrite lookup_omap.
  destruct (m !! d) as [es|]; [|done]. transitivity (live now' (live now es)); [|by apply live_live]. simpl. by destruct (live now es).
Qed.

Lemma logOf_insert m d es d' : logOf (<[d := es]> m) d' = if decide (d' = d) then es else logOf m d'.
Proof. unfold logOf. case_decide as Hd; [subst; by rewrite lookup_insert_eq|by rewrite lookup_insert_ne]. Qed.

(** Pruning one log. *)
Lemma tracks_prune t now m h d : t <= now -> tracks t m h -> tracks now (<[d := live now (logOf m d)]> m) h.
Proof.
  intros Hle H d' now' Hnow. rewrite <- (H d' now') by lia. rewrite logOf_insert.
  case_decide as Hd; [subst; by apply live_live|done].
Qed.

Lemma entriesOf_snoc d h d' e : entriesOf d (h ++ [(d', e)]) = entriesOf d h ++ (if decide (d' = d) then [e] else []).
Proof. unfold entriesOf. rewrite filter_app, fmap_app, filter_cons. cbn. by case_decide. Qed.

(** Adding an entry, also to a log that was pruned. *)
Lemma tracks_append t m h d e es :
  tracks t m h -> (forall now, t <= now -> live now es = live now (logOf m d)) ->
  tracks t (<[d := es ++ [e]]> m) (h ++ [(d, e)]).
Proof.
  intros H Hes d' now Hnow. rewrite logOf_insert, entriesOf_snoc, live_app, <- (H d' now Hnow).
  destruct (decide (d' = d)) as [->|Hd]; [rewrite decide_True, live_app, Hes by done; done|].
  rewrite decide_False by done. by rewrite app_nil_r.
Qed.
End window.
End Window.

(** ** The rate limiter *)

Module Rate.

Record RateLimiter := {
  rl_maxPerMinute : Z;
  rl_requests : gmap string (list Z);
  rl_lastCleanup : Z;
}.

Definition NewRateLimiter (maxPerMinute now : Z) : RateLimiter :=
  {| rl_maxPerMinute := maxPerMinute; rl_requests := ∅; rl_lastCleanup := now |}.

Definition with_requests (m : gmap string (list Z)) (rl : RateLimiter) : RateLimiter :=
  {| rl_maxPerMinute := rl_maxPerMinute rl; rl_requests := m; rl_lastCleanup := rl_lastCleanup rl |}.

Definition cleanup (now : Z) (rl : RateLimiter) : RateLimiter :=
  with_requests (Window.cleanupLocked id now (rl_requests rl)) rl.

Definition maybeCleanupLocked (now : Z) (rl : RateLimiter) : RateLimiter :=
  if Window.cleanupDue now (rl_lastCleanup rl)
  then {| rl_maxPerMinute := rl_maxPerMinute rl; rl_requests := Window.cleanupLocked id now (rl_requests rl);
          rl_lastCleanup := now |}
  else rl.

Definition IsAllowed (domain : string) (now : Z) (rl : RateLimiter) : bool * RateLimiter :=
  let rl := maybeCleanupLocked now rl in
  let valid := Window.live id now (Window.logOf (rl_requests rl) domain) in
  (bool_decide (Z.of_nat (length valid) < rl_maxPerMinute rl), with_requests (<[domain := valid]> (rl_requests rl)) rl).

Definition Record_ (domain : string) (now : Z) (rl : RateLimiter) : RateLimiter :=
  let rl := maybeCleanupLocked now rl in
  with_requests (<[domain := Window.logOf (rl_requests rl) domain ++ [now]]> (rl_requests rl)) rl.

Definition CheckAndRecord (domain : string) (now : Z) (rl : RateLimiter) : bool * RateLimiter :=
  let rl := maybeCleanupLocked now rl in
  let valid := Window.live id now (Window.logOf (rl_requests rl) domain) in
  if decide (Z.of_nat (length valid) >= rl_maxPerMinute rl)
  then (false, with_requests (<[domain := valid]> (rl_requests rl)) rl)
  else (true, with_requests (<[domain := valid ++ [now]]> (rl_requests rl)) rl).

(** *** Histories *)

Inductive operation := OpIsAllowed (d : string) | OpRecord (d : string) | OpCheckAndRecord (d : string) | OpCleanup.

(** One call at time [now]: the limiter after it and the requests it recorded. *)
Definition step (now : Z) (o : operation) (rl : RateLimiter) : RateLimiter * list (string * Z) :=
  match o with
  | OpIsAllowed d => ((IsAllowed d now rl).2, [])
  | OpRecord d => (Record_ d now rl, [(d, now)])
  | OpCheckAndRecord d => ((CheckAndRecord d now rl).2, if (CheckAndRecord d now rl).1 then [(d, now)] else [])
  | OpCleanup => (cleanup now rl, [])
  end.

(** [history P t0 rl0 t rl h]: calls that satisfy [P], at times that do not
    decrease, lead from a new limiter [rl0] at [t0] to [rl] at [t], [h] being what
    was recorded. *)
Inductive history (P : operation -> Prop) (t0 : Z) (rl0 : RateLimiter) : Z -> RateLimiter -> list (string * Z) -> Prop :=
| history_nil : history P t0 rl0 t0 rl0 []
| history_step t rl h now o :
    history P t0 rl0 t rl h -> P o -> t <= now ->
    history P t0 rl0 now (step now o rl).1 (h ++ (step now o rl).2).

Definition inv (t : Z) (rl : RateLimiter) (h : list (string * Z)) : Prop := Window.tracks id t (rl_requests rl) h.

Lemma rate_cleanup_inv t now rl h : t <= now -> inv t rl h -> inv now (maybeCleanupLocked now rl) h.
Proof.
  intros Hle H. unfold maybeCleanupLocked. destruct (Window.cleanupDue _ _); [by eapply Window.tracks_cleanup|].
  by eapply Window.tracks_later.
Qed.

Lemma rate_cleanup_max now rl : rl_maxPerMinute (maybeCleanupLocked now rl) = rl_maxPerMinute rl.
Proof. unfold maybeCleanupLocked. by case_match. Qed.

Lemma rate_step_inv t now o rl h : t <= now -> inv t rl h -> inv now (step now o rl).1 (h ++ (step now o rl).2).
Proof.
  intros Hle H. destruct o as [d|d|d|]; cbn [step fst snd]; rewrite ?app_nil_r.
  - apply (Window.tracks_prune _ now); [done|]. by eapply rate_cleanup_inv.
  - apply Window.tracks_append; [by eapply rate_cleanup_inv|done].
  - unfold CheckAndRecord. case_decide; cbn [fst snd]; rewrite ?app_nil_r.
    + apply (Window.tracks_prune _ now); [done|]. by eapply rate_cleanup_inv.
    + apply Window.tracks_append; [by eapply rate_cleanup_inv|]. intros now' Hnow. by apply Window.live_live.
  - by eapply Window.tracks_cleanup.
Qed.

Lemma step_max now o rl : rl_maxPerMinute (step now o rl).1 = rl_maxPerMinute rl.
Proof.
  destruct o; cbn [step fst]; unfold IsAllowed, Record_, CheckAndRecord; try case_decide; cbn; try apply rate_cleanup_max; done.
Qed.

Lemma rate_history_inv P max t0 t rl h :
  history P t0 (NewRateLimiter max t0) t rl h -> inv t rl h /\ rl_maxPerMinute rl = max.
Proof.
  induction 1 as [|t rl h now o H [IH1 IH2] _ Hle]; [split; [apply Window.tracks_empty|done]|].
  split; [by eapply rate_step_inv|by rewrite step_max].
Qed.

(** The requests to a domain in the minute before [u]. *)
Definition requestsIn (d : string) (u : Z) (h : list (string * Z)) : nat :=
  length (filter (fun t => u - Time.minute < t <= u) (Window.entriesOf d h)).

Lemma history_times P max t0 t rl h d e :
  history P t0 (NewRateLimiter max t0) t rl h -> (d, e) ∈ h -> e <= t.
Proof.
  induction 1 as [|t rl h now o H IH _ Hle]; [by intros ?%not_elem_of_nil|]. rewrite elem_of_app. intros [Hin|Hin]; [specialize (IH Hin); lia|].
  destruct o; cbn in Hin; try case_match; set_unfold; try done; destruct Hin as [[= _ ->]|[]]; lia.
Qed.

(** All that is live was recorded in the last minute. *)
Lemma live_requestsIn P max t0 t rl h d now :
  history P t0 (NewRateLimiter max t0) t rl h -> t <= now ->
  length (Window.live id now (Window.logOf (rl_requests rl) d)) = requestsIn d now h.
Proof.
  intros H Hle. pose proof (rate_history_inv _ _ _ _ _ _ H) as [Hinv _]. rewrite (Hinv d now Hle). unfold Window.live, requestsIn.
  assert (Forall (fun e => e <= now) (Window.entriesOf d h)) as Ht.
  { apply Forall_forall. intros e He. unfold Window.entriesOf in He. apply list_elem_of_fmap in He as [[d' e'] [-> He]].
    apply list_elem_of_filter in He as [_ He]. pose proof (history_times _ _ _ _ _ _ _ _ H He). cbn. lia. }
  unfold id. induction Ht as [|e es He Ht IH]; [done|]. rewrite !filter_cons. decide_lia; cbn; lia.
Qed.

(** A window that ends before an entry does not show it. *)
Lemma requestsIn_snoc d u h d' e :
  requestsIn d u (h ++ [(d', e)]) = (requestsIn d u h + (if decide (d' = d /\ (u - Time.minute < e <= u)%Z) then 1 else 0))%nat.
Proof.
  unfold requestsIn. rewrite Window.entriesOf_snoc, filter_app, length_app. f_equal.
  destruct (decide (d' = d)); [|cbn; by rewrite decide_False by naive_solver]. rewrite filter_cons.
  destruct (decide (u - Time.minute < e <= u)); [rewrite decide_True by done|rewrite decide_False by naive_solver]; done.
Qed.

Lemma requestsIn_later d u u' h :
  u <= u' -> (forall e, (d, e) ∈ h -> e <= u) -> (requestsIn d u' h <= requestsIn d u h)%nat.
Proof.
  intros Hle Ht. unfold requestsIn. assert (forall e, e ∈ Window.entriesOf d h -> e <= u) as Ht'.
  { intros e He. unfold Window.entriesOf in He. apply list_elem_of_fmap in He as [[d' e'] [-> He]].
    apply list_elem_of_filter in He as [Hd He]. cbn in *. subst. by apply Ht. }
  clear Ht. induction (Window.entriesOf d h) as [|e es IH]; [done|].
  assert (e <= u) by (apply Ht'; left). specialize (IH (fun e He => Ht' e (list_elem_of_further _ _ _ He))).
  rewrite !filter_cons. decide_lia; cbn; lia.
Qed.

(** What a call would record, by the history. *)
Lemma CheckAndRecord_exact P max t0 t rl h d now :
  history P t0 (NewRateLimiter max t0) t rl h -> t <= now ->
  (CheckAndRecord d now rl).1 = bool_decide (Z.of_nat (requestsIn d now h) < max).
Proof.
  intros H Hle. pose proof (rate_history_inv _ _ _ _ _ _ H) as [Hinv Hmax]. unfold CheckAndRecord.
  pose proof (rate_cleanup_inv t now rl h Hle Hinv d now (Z.le_refl now)) as Hm.
  rewrite rate_cleanup_max, Hmax, Hm, <- (Hinv d now Hle), (live_requestsIn P max t0 t rl h d now H Hle).
  decide_lia; done.
Qed.

Lemma checked_bounded P max t0 t rl h d u :
  history P t0 (NewRateLimiter max t0) t rl h -> (forall o, P o -> o <> OpRecord d) ->
  Z.of_nat (requestsIn d u h) <= Z.max 0 max.
Proof.
  intros H HP. revert u. induction H as [|t rl h now o H IH Ho Hle]; intros u; [unfold requestsIn; cbn; lia|].
  destruct o as [d'|d'|d'|]; cbn [step fst snd]; rewrite ?app_nil_r; [apply IH| | |apply IH].
  - rewrite requestsIn_snoc, decide_False; [specialize (IH u); lia|]. intros [-> _]. by apply (HP _ Ho).
  - destruct (CheckAndRecord d' now rl).1 eqn:E; rewrite ?app_nil_r; [|apply IH]. rewrite requestsIn_snoc.
    destruct (decide (d' = d /\ u - Time.minute < now <= u)) as [[-> Hu]|Hu]; [|specialize (IH u); lia].
    rewrite (CheckAndRecord_exact P max t0 t rl h d now H Hle), bool_decide_eq_true in E.
    assert (requestsIn d u h <= requestsIn d now h)%nat as Hlater; [|lia].
    apply requestsIn_later; [lia|]. intros e He. pose proof (history_times _ _ _ _ _ _ _ _ H He). lia.
Qed.

(** The rate limiter is exact and the limit holds. Whatever calls were made
    before at times that do not decrease, with the pruning of the logs in
    between, [CheckAndRecord] lets a request through exactly when fewer than the
    limit were recorded for the domain in the last minute; and if nothing else
    records requests to the domain, no window of one minute, wherever it ends,
    holds more than the limit of them. *)
Theorem rate_limit_exact P max t0 t rl h d :
  history P t0 (NewRateLimiter max t0) t rl h ->
  (forall now, t <= now -> (CheckAndRecord d now rl).1 = bool_decide (Z.of_nat (requestsIn d now h) < max)) /\
  ((forall o, P o -> o <> OpRecord d) -> forall u, Z.of_nat (requestsIn d u h) <= Z.max 0 max).
Proof.
  intros H. split; [intros now; by eapply CheckAndRecord_exact|]. intros HP u. by eapply checked_bounded.
Qed.
End Rate.

(** ** The data budget *)

Module Budget.

Record dataEntry := {
  de_bytes : Z;
  de_timestamp : Z;
}.

Record DataBudget := {
  db_maxBytesPerMin : Z;
  db_records : gmap string (list dataEntry);
  db_lastCleanup : Z;
}.

Definition NewDataBudget (maxBytesPerMinute now : Z) : DataBudget :=
  {| db_maxBytesPerMin := maxBytesPerMinute; db_records := ∅; db_lastCleanup := now |}.

Definition maybeCleanupLocked (now : Z) (db : DataBudget) : DataBudget :=
  if Window.cleanupDue now (db_lastCleanup db)
  then {| db_maxBytesPerMin := db_maxBytesPerMin db;
          db_records := Window.cleanupLocked de_timestamp now (db_records db); db_lastCleanup := now |}
  else db.

Definition cleanup (now : Z) (db : DataBudget) : DataBudget :=
  {| db_maxBytesPerMin := db_maxBytesPerMin db;
     db_records := Window.cleanupLocked de_timestamp now (db_records db); db_lastCleanup := db_lastCleanup db |}.

(** The sum of a loop over [int]s. *)
Definition total (es : list dataEntry) : Z := foldl (fun acc e => wrap64 (acc + de_bytes e)) 0 es.

Definition IsAllowed (domain : string) (now : Z) (db : DataBudget) : bool * DataBudget :=
  let db := maybeCleanupLocked now db in
  let entries := Window.live de_timestamp now (Window.logOf (db_records db) domain) in
  (bool_decide (total entries < db_maxBytesPerMin db), db).

Definition Record_ (domain : string) (bytes now : Z) (db : DataBudget) : DataBudget :=
  let db := maybeCleanupLocked now db in
  let entries := Window.logOf (db_records db) domain in
  {| db_maxBytesPerMin := db_maxBytesPerMin db;
     db_records := <[domain := entries ++ [{| de_bytes := bytes; de_timestamp := now |}]]> (db_records db);
     db_lastCleanup := db_lastCleanup db |}.

(** A history of what was recorded and of checks in between. *)
Inductive history (t0 : Z) (db0 : DataBudget) : Z -> DataBudget -> list (string * dataEntry) -> Prop :=
| history_nil : history t0 db0 t0 db0 []
| history_check t db h d now :
    history t0 db0 t db h -> t <= now -> history t0 db0 now (IsAllowed d now db).2 h
| history_record t db h d bytes now :
    history t0 db0 t db h -> t <= now ->
    history t0 db0 now (Record_ d bytes now db) (h ++ [(d, {| de_bytes := bytes; de_timestamp := now |})]).

Definition inv (t : Z) (db : DataBudget) (h : list (string * dataEntry)) : Prop :=
  Window.tracks de_timestamp t (db_records db) h.

Lemma budget_cleanup_inv t now db h : t <= now -> inv t db h -> inv now (maybeCleanupLocked now db) h.
Proof.
  intros Hle H. unfold maybeCleanupLocked. destruct (Window.cleanupDue _ _); [by eapply Window.tracks_cleanup|].
  by eapply Window.tracks_later.
Qed.

Lemma budget_cleanup_max now db : db_maxBytesPerMin (maybeCleanupLocked now db) = db_maxBytesPerMin db.
Proof. unfold maybeCleanupLocked. by case_match. Qed.

Lemma budget_history_inv max t0 t db h :
  history t0 (NewDataBudget max t0) t db h -> inv t db h /\ db_maxBytesPerMin db = max.
Proof.
  induction 1 as [|t db h d now H [IH1 IH2] Hle|t db h d bytes now H [IH1 IH2] Hle].
  - split; [apply Window.tracks_empty|done].
  - split; [by eapply budget_cleanup_inv|]. cbn. by rewrite budget_cleanup_max.
  - split; [|cbn; by rewrite budget_cleanup_max]. apply Window.tracks_append; [by eapply budget_cleanup_inv|done].
Qed.

(** The budget refuses a domain exactly when what was recorded for it in the last
    minute reaches the limit. *)
Theorem data_budget_exact max t0 t db h d now :
  history t0 (NewDataBudget max t0) t db h -> t <= now ->
  (IsAllowed d now db).1 = bool_decide (total (Window.live de_timestamp now (Window.entriesOf d h)) < max).
Proof.
  intros H Hle. pose proof (budget_history_inv _ _ _ _ _ H) as [Hinv Hmax]. cbn [IsAllowed fst].
  by rewrite budget_cleanup_max, Hmax, (budget_cleanup_inv t now db h Hle Hinv d now (Z.le_refl now)).
Qed.
End Budget.

(** ** A concrete history *)

Import Rate.

Fixpoint run (t : Z) (rl : RateLimiter) (h : list (string * Z)) (ops : list (Z * operation))
    : Z * RateLimiter * list (string * Z) :=
  match ops with
  | [] => (t, rl, h)
  | (now, o) :: ops => run now (step now o rl).1 (h ++ (step now o rl).2) ops
  end.

Lemma run_history P t0 rl0 ops t rl h :
  history P t0 rl0 t rl h -> Sorted Z.le (t :: (fst <$> ops)) -> Forall (fun o => P o.2) ops ->
  history P t0 rl0 (run t rl h ops).1.1 (run t rl h ops).1.2 (run t rl h ops).2.
Proof.
  revert t rl h. induction ops as [|[now o] ops IH]; intros t rl h H Hs HP; [done|]. cbn [run fmap list_fmap] in *.
  inversion Hs as [|? ? Hs' Ht]; subst. inversion Ht; subst. apply Forall_cons in HP as [HP1 HP].
  apply IH; [|done|done]. by apply (history_step _ _ _ t).
Qed.

(** Two requests a minute: the third of a minute is refused. *)
Definition demo_ops : list (Z * operation) :=
  [(1, OpCheckAndRecord "a"); (2, OpCheckAndRecord "a"); (3, OpRecord "b"); (4, OpCheckAndRecord "a")].

Definition demo_limiter : RateLimiter := (run 0 (NewRateLimiter 2 0) [] demo_ops).1.2.

Lemma rate_limit_exact_witness :
  (CheckAndRecord "a" 5 demo_limiter).1 = false /\ (CheckAndRecord "a" (1 + Time.minute) demo_limiter).1 = true /\
  Z.of_nat (requestsIn "a" 4 [("a", 1); ("a", 2); ("b", 3)]) <= 2.
Proof.
  pose proof (rate_limit_exact (fun o => o <> OpRecord "a") 2 0 4 demo_limiter [("a", 1); ("a", 2); ("b", 3)] "a") as H.
  destruct H as [H1 H2].
  { apply (run_history _ 0 (NewRateLimiter 2 0) demo_ops 0 _ [] (history_nil _ _ _)); repeat constructor; cbn; (lia || done). }
  split; [|split].
  - rewrite (H1 5); [reflexivity|lia].
  - rewrite (H1 (1 + Time.minute)); [reflexivity|unfold Time.minute, Time.second; lia].
  - apply H2. intros o Ho. exact Ho.
Defined.
