(* ===== verification/Replay.v ===== *)
(** * Inbound envelopes: the lifetime of a signature and the replay cache

    [internal/envelope/replay.go], and of [internal/envelope/verify.go] the checks
    of the times and of the nonce ([validateTime] and the order in which
    [VerifyRequest] applies them). Parsing of the headers and the signature itself
    are an argument of the step. Clocks are arguments. *)

From S2P Require Import Prelude.
Local Open Scope Z_scope.

(** [time.Unix(sec, 0)]: the seconds since the year 1 are kept in 64 bits. *)
Definition unixToInternal : Z := 62135596800.
Definition Unix (sec : Z) : Z := Time.second * wrap64 (sec + unixToInternal).

(** ** The cache *)

Record ReplayCache := {
  rc_entries : gmap string Z;
  rc_window : Z;
  rc_max : Z;
}.

Definition newReplayCache (window maxEntries : Z) : ReplayCache :=
  {| rc_entries := ∅;
     rc_window := if decide (window <= 0) then 5 * Time.minute else window;
     rc_max := if decide (maxEntries <= 0) then 10000 else maxEntries |}.

Definition with_entries (m : gmap string Z) (c : ReplayCache) : ReplayCache :=
  {| rc_entries := m; rc_window := rc_window c; rc_max := rc_max c |}.

(** The time until which a nonce is remembered. *)
Definition storedUntil (c : ReplayCache) (expires skew now : Z) : Z :=
  let stored := expires + skew in
  let maxStored := now + rc_window c + skew in
  if decide (stored > maxStored) then maxStored else stored.

(** The checks and the insertion, with the arguments normalised. *)
Definition checkAndStore (nonce : string) (expires skew now : Z) (c : ReplayCache) : result unit string * ReplayCache :=
  if decide (~ expires > now - skew) then (Err "signature expired", c)
  else
    let c := with_entries (filter (fun ne => ne.2 > now) (rc_entries c)) c in
    if decide (is_Some (rc_entries c !! nonce)) then (Err "signature replay detected", c)
    else if decide (Z.of_nat (size (rc_entries c)) >= rc_max c)
    then (Err "signature replay cache capacity exhausted; cannot safely verify nonce", c)
    else (Ok tt, with_entries (<[nonce := storedUntil c expires skew now]> (rc_entries c)) c).

Definition CheckAndStoreWithSkew (nonce : string) (expires skew now : Z) (c : ReplayCache) : result unit string * ReplayCache :=
  if decide (nonce = "") then (Err "signature nonce is required", c)
  else checkAndStore nonce (if Time.is_zero expires then now + rc_window c else expires)
         (if decide (skew < 0) then 0 else skew) now c.

Definition CheckAndStore (nonce : string) (expires now : Z) (c : ReplayCache) : result unit string * ReplayCache :=
  CheckAndStoreWithSkew nonce expires 0 now c.

(** ** The verifier *)

Record Verifier := {
  v_skew : Z;
  v_maxSignatureLifetime : Z;
}.

(** The parameters of a signature: times in Unix seconds. *)
Record signature := {
  sig_created : Z;
  sig_expires : Z;
  sig_nonce : string;
}.

Definition validateTime (v : Verifier) (created expires now : Z) : result unit string :=
  let createdAt := Unix created in
  let expiresAt := Unix expires in
  if decide (v_skew v > 0 /\ createdAt > now + v_skew v) then Err "signature created in the future"
  else if decide (~ expiresAt > now - v_skew v) then Err "signature expired"
  else if decide (~ expiresAt > createdAt) then Err "signature expires before created"
  else if decide (v_maxSignatureLifetime v > 0 /\ Time.sub expiresAt createdAt > v_maxSignatureLifetime v)
  then Err "signature lifetime exceeds maximum"
  else Ok tt.

(** [VerifyRequest] on a request whose other checks give [checks]: the times at
    [now1], then the other checks, then the nonce at [now2]. *)
Definition VerifyRequest (v : Verifier) (checks : result unit string) (s : signature) (now1 now2 : Z) (c : ReplayCache)
    : result unit string * ReplayCache :=
  match validateTime v (sig_created s) (sig_expires s) now1 with
  | Err e => (Err e, c)
  | Ok _ =>
      match checks with
      | Err e => (Err e, c)
      | Ok _ => CheckAndStoreWithSkew (sig_nonce s) (Unix (sig_expires s)) (v_skew v) now2 c
      end
  end.

(** ** Histories of the cache *)

(** Calls at times that do not decrease, from [t] to [t']. *)
Inductive calls : Z -> ReplayCache -> Z -> ReplayCache -> Prop :=
| calls_nil t c : calls t c t c
| calls_check t c t' c' nonce expires skew now :
    calls t c t' c' -> t' <= now -> calls t c now (CheckAndStoreWithSkew nonce expires skew now c').2.

(** The entries that a check at [now] leaves. *)
Lemma unexpired nonce u now c :
  rc_entries c !! nonce = Some u -> now < u ->
  filter (fun ne : string * Z => ne.2 > now) (rc_entries c) !! nonce = Some u.
Proof. intros Hu Hnow. apply map_lookup_filter_Some. split; [done|cbn; lia]. Qed.

Lemma stored_kept nonce u expires skew now n c :
  rc_entries c !! nonce = Some u -> now < u ->
  rc_entries (CheckAndStoreWithSkew n expires skew now c).2 !! nonce = Some u.
Proof.
  intros Hu Hnow. unfold CheckAndStoreWithSkew. destruct (decide (n = "")); [done|].
  generalize (if Time.is_zero expires then now + rc_window c else expires), (if decide (skew < 0) then 0 else skew).
  intros ex sk. unfold checkAndStore. destruct (decide (~ ex > _)); [done|]. pose proof (unexpired _ _ _ _ Hu Hnow) as Hf.
  cbn [rc_entries with_entries]. destruct (decide (is_Some _)) as [|Hn]; [done|]. destruct (decide (_ >= _)); [done|].
  cbn. rewrite lookup_insert_ne; [done|]. intros ->. apply Hn. eauto.
Qed.

Lemma CheckAndStore_window n e s now c : rc_window (CheckAndStoreWithSkew n e s now c).2 = rc_window c.
Proof.
  unfold CheckAndStoreWithSkew. destruct (decide (n = "")); [done|]. unfold checkAndStore.
  destruct (decide (~ _)); [done|]. cbv zeta. destruct (decide (is_Some _)); [done|]. by destruct (decide (_ >= _)).
Qed.

Lemma calls_window t c t' c' : calls t c t' c' -> rc_window c' = rc_window c.
Proof. induction 1 as [|t c t' c' n e s now H IH Hle]; [done|]. by rewrite CheckAndStore_window. Qed.

Lemma calls_kept t c t' c' nonce u :
  calls t c t' c' -> rc_entries c !! nonce = Some u -> t' < u -> rc_entries c' !! nonce = Some u.
Proof.
  induction 1 as [|t c t' c' n e s now H IH Hle]; [done|]. intros Hu Ht. apply stored_kept; [apply IH; [done|lia]|done].
Qed.

(** An accepted nonce is stored. *)
Lemma accepted_stored nonce expires skew now c c' :
  CheckAndStoreWithSkew nonce expires skew now c = (Ok tt, c') -> 0 <= skew -> expires <> 0 ->
  rc_entries c' !! nonce = Some (storedUntil c expires skew now) /\ expires > now - skew.
Proof.
  unfold CheckAndStoreWithSkew, Time.is_zero, Time.zero. intros H Hs He. destruct (decide (nonce = "")); [done|].
  rewrite bool_decide_eq_false_2, decide_False in H by (done || lia). unfold checkAndStore in H.
  destruct (decide (~ expires > now - skew)); [done|]. cbv zeta in H.
  destruct (decide (is_Some _)); [done|]. destruct (decide (_ >= _)); [done|]. injection H as <-.
  split; [cbn; by rewrite lookup_insert_eq|lia].
Qed.

(** A stored nonce is refused. *)
Lemma stored_refused nonce u expires skew now c c' :
  rc_entries c !! nonce = Some u -> now < u -> CheckAndStoreWithSkew nonce expires skew now c <> (Ok tt, c').
Proof.
  intros Hu Hnow. unfold CheckAndStoreWithSkew. destruct (decide (nonce = "")); [done|]. unfold checkAndStore.
  destruct (decide (~ _)); [done|]. cbn [rc_entries with_entries]. rewrite (unexpired _ _ _ _ Hu Hnow).
  by rewrite decide_True by eauto.
Qed.

(** Within the lifetime that the window covers, a nonce is remembered until the
    signature has expired. *)
Lemma validateTime_Ok v created expires now :
  validateTime v created expires now = Ok tt -> 0 < v_skew v -> 0 < v_maxSignatureLifetime v < int64_max ->
  Unix created <= now + v_skew v /\ Unix expires > now - v_skew v /\
  Unix expires - Unix created <= v_maxSignatureLifetime v.
Proof.
  unfold validateTime. intros H Hs Hm. destruct (decide (v_skew v > 0 /\ _)) as [|H1]; [done|].
  destruct (decide (~ _)) as [|H2]; [done|]. destruct (decide (~ _)) as [|H3]; [done|].
  destruct (decide (v_maxSignatureLifetime v > 0 /\ _)) as [|H4]; [done|].
  split_and!; [lia|lia|]. unfold Time.sub, int64_max in *. lia.
Qed.

(** A signature is accepted once. When the clock tolerance is positive and the
    lifetimes are capped at the window of the cache less the tolerance, a request
    whose signature was accepted is refused whenever it comes again, whatever
    other requests the cache has seen in between. *)
Theorem signature_accepted_once v s checks1 checks2 a1 b1 a2 b2 t c c1 c2 c3 :
  0 < v_skew v -> 0 < v_maxSignatureLifetime v <= rc_window c - v_skew v -> in_int64 (rc_window c) ->
  Unix (sig_expires s) <> 0 -> a1 <= b1 -> t <= b2 ->
  VerifyRequest v checks1 s a1 b1 c = (Ok tt, c1) -> calls b1 c1 t c2 ->
  VerifyRequest v checks2 s a2 b2 c2 <> (Ok tt, c3).
Proof.
  intros Hskew Hlife Hwin He Hab Htb H1 Hcalls H2. unfold VerifyRequest in *.
  destruct (validateTime v _ _ a1) as [[]|] eqn:V1; [|done]. destruct checks1; [|done].
  destruct (validateTime v _ _ a2) as [[]|]; [|done]. destruct checks2; [|done].
  unfold in_int64 in Hwin. apply validateTime_Ok in V1 as (T1 & T2 & T3); [|lia|lia].
  pose proof (accepted_stored _ _ _ _ _ _ H1) as [Hst _]; [lia|done|].
  pose proof (accepted_stored _ _ _ _ _ _ H2) as [_ Hexp]; [lia|done|].
  assert (storedUntil c (Unix (sig_expires s)) (v_skew v) b1 = Unix (sig_expires s) + v_skew v) as Hu.
  { unfold storedUntil. rewrite decide_False by lia. done. }
  rewrite Hu in Hst. apply (calls_kept _ _ _ _ _ _ Hcalls) in Hst; [|lia].
  by apply (stored_refused _ _ _ _ _ _ _ Hst) in H2; [|lia].
Qed.

(** ** Concrete signatures *)

(** The clock, in seconds since 1970. *)
Definition at_ (sec : Z) : Z := Unix sec.

Definition demo_verifier (skew life : Z) : Verifier :=
  {| v_skew := skew * Time.second; v_maxSignatureLifetime := life * Time.second |}.

Definition demo_cache : ReplayCache := newReplayCache (300 * Time.second) 100.

Definition demo_signature (created expires : Z) : signature :=
  {| sig_created := created; sig_expires := expires; sig_nonce := "n" |}.

Definition accepted (v : Verifier) (s : signature) (now : Z) (c : ReplayCache) : bool * ReplayCache :=
  let '(res, c) := VerifyRequest v (Ok tt) s (at_ now) (at_ now) c in (is_ok res, c).

Lemma signature_accepted_once_witness :
  let v := demo_verifier 60 240 in
  let s := demo_signature 1000 1240 in
  (accepted v s 1100 demo_cache).1 = true /\
  VerifyRequest v (Ok tt) s (at_ 1299) (at_ 1299) (accepted v s 1100 demo_cache).2 <> (Ok tt, demo_cache).
Proof.
  cbv zeta. split; [vm_compute; reflexivity|].
  apply (signature_accepted_once (demo_verifier 60 240) (demo_signature 1000 1240) (Ok tt) (Ok tt) (at_ 1100) (at_ 1100)
           (at_ 1299) (at_ 1299) (at_ 1100) demo_cache (accepted (demo_verifier 60 240) (demo_signature 1000 1240) 1100 demo_cache).2);
    try (vm_compute; (reflexivity || done || lia)); try (vm_compute; split; discriminate); try constructor.
Defined.

(** With the cap that the proxy configures, the window plus the tolerance, a
    signature is accepted again once the cache has forgotten its nonce. *)
Example replay_after_window :
  let v := demo_verifier 60 360 in
  let s := demo_signature 1000 1360 in
  let '(ok1, c1) := accepted v s 1000 demo_cache in
  let '(ok2, c2) := accepted v s 1359 c1 in
  let '(ok3, c3) := accepted v s 1360 c2 in
  (ok1, ok2, ok3) = (true, false, true).
Proof. vm_compute. reflexivity. Qed.

(** Without a tolerance the creation time is not checked, and a signature from the
    future outlives the cache whatever the cap. *)
Example replay_from_the_future :
  let v := demo_verifier 0 100 in
  let s := demo_signature 5000 5100 in
  let '(ok1, c1) := accepted v s 1000 demo_cache in
  let '(ok2, _) := accepted v s 1301 c1 in
  (ok1, ok2) = (true, true).
Proof. vm_compute. reflexivity. Qed.
