(* ===== verification/Fragments.v ===== *)
(** * Cross-request secrets: the rolling buffer of outbound fragments

    [internal/scanner/fragment_buffer.go]. Payloads are lists of bytes; the DLP
    scanner is an argument. The clock readings of a method are arguments, in the
    order in which it takes them. A method is one step except that the scan itself
    runs after the buffer was read. *)

From S2P Require Import Prelude.
Local Open Scope Z_scope.

Definition bytes : Type := list ascii.

Record fragment := {
  fr_data : bytes;
  fr_at : Z;
}.

Record sessionBuffer := {
  sb_fragments : list fragment;
  sb_totalBytes : Z;
}.

Record FragmentBuffer := {
  fb_maxBytes : Z;
  fb_maxSessions : Z;
  fb_windowSecs : Z;
  fb_sessions : gmap string sessionBuffer;
  fb_lastCleanup : Z;
}.

(** The result of [ScanTextForDLP]: the names of the patterns. *)
Record TextDLPResult := {
  dlp_Clean : bool;
  dlp_Matches : list string;
  dlp_InformationalMatches : list string;
}.

Definition minFragmentsForMatch : Z := 2.

Definition NewFragmentBuffer (maxBytesPerSession maxSessions windowSecs now : Z) : FragmentBuffer :=
  {| fb_maxBytes := maxBytesPerSession; fb_maxSessions := maxSessions; fb_windowSecs := windowSecs;
     fb_sessions := ∅; fb_lastCleanup := now |}.

Definition with_sessions (m : gmap string sessionBuffer) (fb : FragmentBuffer) : FragmentBuffer :=
  {| fb_maxBytes := fb_maxBytes fb; fb_maxSessions := fb_maxSessions fb; fb_windowSecs := fb_windowSecs fb;
     fb_sessions := m; fb_lastCleanup := fb_lastCleanup fb |}.

Definition len (f : fragment) : Z := Z.of_nat (length (fr_data f)).

(** ** Retention *)

Definition window (fb : FragmentBuffer) : Z := Time.seconds (fb_windowSecs fb).

(** [!at.Before(now - window)]. *)
Definition fresh (w now : Z) (f : fragment) : bool := negb (bool_decide (fr_at f < now - w)).

(** Front-pop of the expired fragments. *)
Fixpoint popExpired (w now : Z) (fs : list fragment) (total : Z) : list fragment * Z :=
  match fs with
  | [] => ([], total)
  | f :: fs' => if fresh w now f then (fs, total) else popExpired w now fs' (total - len f)
  end.

Definition cleanupSession (w now : Z) (sb : sessionBuffer) : option sessionBuffer :=
  match popExpired w now (sb_fragments sb) (sb_totalBytes sb) with
  | ([], _) => None
  | (fs, total) => Some {| sb_fragments := fs; sb_totalBytes := total |}
  end.

Definition cleanupLocked (now : Z) (fb : FragmentBuffer) : FragmentBuffer :=
  with_sessions (omap (cleanupSession (window fb) now) (fb_sessions fb)) fb.

(** The unconditional cleanup. *)
Definition cleanup (now : Z) (fb : FragmentBuffer) : FragmentBuffer := cleanupLocked now fb.

Definition cleanupInterval (fb : FragmentBuffer) : Z :=
  let interval := window fb in
  let interval := if decide (interval > 60 * Time.second) then 60 * Time.second else interval in
  if decide (interval < Time.second) then Time.second else interval.

Definition maybeCleanupLocked (now : Z) (fb : FragmentBuffer) : FragmentBuffer :=
  if decide (Time.sub now (fb_lastCleanup fb) < cleanupInterval fb) then fb
  else
    let fb := cleanupLocked now fb in
    {| fb_maxBytes := fb_maxBytes fb; fb_maxSessions := fb_maxSessions fb; fb_windowSecs := fb_windowSecs fb;
       fb_sessions := fb_sessions fb; fb_lastCleanup := now |}.

(** Eviction of the oldest fragments down to the byte cap; the last one is cut to
    its newest bytes. [None] is the panic of the slice expression when the cap is
    negative. *)
Fixpoint evict (max : Z) (fs : list fragment) (total : Z) : option (list fragment * Z) :=
  match fs with
  | [] => Some ([], total)
  | [f] =>
      if decide (total > max) then
        if decide (max < 0) then None
        else Some ([{| fr_data := drop (Z.to_nat (len f - max)) (fr_data f); fr_at := fr_at f |}], max)
      else Some (fs, total)
  | f :: fs' => if decide (total > max) then evict max fs' (total - len f) else Some (fs, total)
  end.

Definition evictSession (max : Z) (sb : sessionBuffer) : option sessionBuffer :=
  '(fs, total) ← evict max (sb_fragments sb) (sb_totalBytes sb);
  Some {| sb_fragments := fs; sb_totalBytes := total |}.

(** ** Operations *)

(** [Append]: whether the capacity was exceeded; [None] is a panic. *)
Definition Append (sessionKey : string) (payload : bytes) (now1 now2 : Z) (fb : FragmentBuffer) : option (bool * FragmentBuffer) :=
  let fb := maybeCleanupLocked now1 fb in
  if bool_decide (fb_sessions fb !! sessionKey = None) && bool_decide (Z.of_nat (size (fb_sessions fb)) >= fb_maxSessions fb)
  then Some (true, fb)
  else
    let sb := default {| sb_fragments := []; sb_totalBytes := 0 |} (fb_sessions fb !! sessionKey) in
    sb ← evictSession (fb_maxBytes fb)
           {| sb_fragments := sb_fragments sb ++ [{| fr_data := payload; fr_at := now2 |}];
              sb_totalBytes := sb_totalBytes sb + Z.of_nat (length payload) |};
    Some (false, with_sessions (<[sessionKey := sb]> (fb_sessions fb)) fb).

(** [concatenateFragments]. *)
Definition concatenateFragments (now : Z) (sb : sessionBuffer) (fb : FragmentBuffer) : bytes :=
  concat (fr_data <$> filter (fun f => fresh (window fb) now f = true) (sb_fragments sb)).

Section scan.
Context (ScanTextForDLP : bytes -> TextDLPResult).

(** The patterns found in single fragments. *)
Definition singleFragment (fs : list fragment) : list string :=
  concat ((fun f => match fr_data f with
                    | [] => []
                    | data => dlp_Matches (ScanTextForDLP data) ++ dlp_InformationalMatches (ScanTextForDLP data)
                    end) <$> fs).

(** The part of [ScanForSecrets] after the buffer was read. *)
Definition reportMatches (text : bytes) (individual : list fragment) : list string :=
  let result := ScanTextForDLP text in
  if dlp_Clean result && bool_decide (dlp_InformationalMatches result = []) then []
  else filter (fun p => p ∉ singleFragment individual) (dlp_Matches result).

Definition ScanForSecrets (sessionKey : string) (now1 now2 now3 : Z) (fb : FragmentBuffer) : list string * FragmentBuffer :=
  let fb := maybeCleanupLocked now1 fb in
  match fb_sessions fb !! sessionKey with
  | None => ([], fb)
  | Some sb =>
      let individual := filter (fun f => fresh (window fb) now2 f = true) (sb_fragments sb) in
      if decide (Z.of_nat (length individual) < minFragmentsForMatch) then ([], fb)
      else (reportMatches (concatenateFragments now3 sb fb) individual, fb)
  end.
End scan.

Definition TotalBufferBytes (now : Z) (fb : FragmentBuffer) : Z * FragmentBuffer :=
  let fb := maybeCleanupLocked now fb in
  (map_fold (fun _ sb acc => acc + sb_totalBytes sb) 0 (fb_sessions fb), fb).

(** [UpdateConfig]; sessions are trimmed one by one, and one panic is enough. *)
Definition UpdateConfig (maxBytesPerSession windowSecs now : Z) (fb : FragmentBuffer) : option FragmentBuffer :=
  let max := if decide (maxBytesPerSession <= 0) then 1 else maxBytesPerSession in
  let secs := if decide (windowSecs <= 0) then 1 else windowSecs in
  let fb := cleanupLocked now {| fb_maxBytes := max; fb_maxSessions := fb_maxSessions fb; fb_windowSecs := secs;
                                 fb_sessions := fb_sessions fb; fb_lastCleanup := fb_lastCleanup fb |} in
  let m := evictSession max <$> fb_sessions fb in
  if decide (map_Forall (fun _ o => is_Some o) m) then
    Some {| fb_maxBytes := max; fb_maxSessions := fb_maxSessions fb; fb_windowSecs := secs;
            fb_sessions := omap id m; fb_lastCleanup := now |}
  else None.

Definition Delete (key : string) (fb : FragmentBuffer) : FragmentBuffer := with_sessions (delete key (fb_sessions fb)) fb.

Definition Close (fb : FragmentBuffer) : FragmentBuffer := with_sessions ∅ fb.

(** ** Byte counts and eviction *)

Definition size_of (fs : list fragment) : Z := foldr (fun f acc => len f + acc) 0 fs.

Lemma len_nonneg f : 0 <= len f.
Proof. unfold len. lia. Qed.

Lemma size_of_cons f fs : size_of (f :: fs) = len f + size_of fs.
Proof. done. Qed.

Lemma size_of_one f : size_of [f] = len f.
Proof. apply Z.add_0_r. Qed.

Lemma size_of_nonneg fs : 0 <= size_of fs.
Proof. induction fs as [|f fs IH]; [done|]. rewrite size_of_cons. pose proof (len_nonneg f). lia. Qed.

Lemma size_of_app fs gs : size_of (fs ++ gs) = size_of fs + size_of gs.
Proof. induction fs as [|f fs IH]; [done|]. cbn [app]. rewrite !size_of_cons. lia. Qed.

Lemma evict_cons max f g fs total :
  evict max (f :: g :: fs) total =
  if decide (total > max) then evict max (g :: fs) (total - len f) else Some (f :: g :: fs, total).
Proof. done. Qed.

(** Eviction counts right, ends below the cap, keeps something, and keeps every
    suffix that fits. *)
Lemma evict_spec max fs :
  0 <= max -> fs <> [] ->
  exists fs', evict max fs (size_of fs) = Some (fs', size_of fs') /\ size_of fs' <= max /\ fs' <> [] /\
    (exists k, fr_at <$> fs' = fr_at <$> drop k fs) /\
    (forall a b, fs = a ++ b -> b <> [] -> size_of b <= max -> exists k, fs' = drop k a ++ b).
Proof.
  intros Hmax. induction fs as [|f fs IH]; [done|]. intros _. destruct fs as [|g fs].
  - cbn [evict]. rewrite size_of_one. destruct (decide (len f > max)) as [Hgt|Hle].
    + rewrite decide_False by lia. set (f' := Build_fragment _ _).
      assert (len f' = max) as Hf' by (subst f'; unfold len in *; cbn [fr_data]; rewrite length_drop; lia).
      exists [f']. rewrite size_of_one, Hf'. split_and!; [done|lia|done|by exists O|].
      intros a b Hab Hb Hs. destruct a as [|x a]; [|destruct a; cbn in Hab; simplify_eq; by destruct b].
      cbn in Hab. subst b. rewrite size_of_one in Hs. lia.
    + exists [f]. rewrite size_of_one. split_and!; [done|lia|done|by exists O|]. intros a b -> _ _. by exists O.
  - rewrite evict_cons. destruct (decide (size_of (f :: g :: fs) > max)) as [Hgt|Hle].
    + destruct IH as (fs' & Hev & Hle & Hne & (k & Hk) & Hsuf); [done|]. exists fs'. split_and!.
      * rewrite <- Hev. f_equal. rewrite size_of_cons. lia.
      * done.
      * done.
      * by exists (S k).
      * intros a b Hab Hb Hs. destruct a as [|x a]; [cbn in Hab; subst b; lia|]. cbn in Hab. injection Hab as -> Hab.
        destruct (Hsuf a b Hab Hb Hs) as [j ->]. by exists (S j).
    + exists (f :: g :: fs). split_and!; [done|lia|done|by exists O|]. intros a b -> _ _. by exists O.
Qed.

Lemma popExpired_spec w now fs :
  exists k, popExpired w now fs (size_of fs) = (drop k fs, size_of (drop k fs)) /\
    Forall (fun f => fresh w now f = false) (take k fs).
Proof.
  induction fs as [|f fs IH]; [exists O; by split|]. cbn [popExpired]. destruct (fresh w now f) eqn:E; [exists O; by split|].
  destruct IH as (k & Hk & Hall). exists (S k). cbn [drop take]. split; [|by constructor].
  rewrite <- Hk. f_equal. rewrite size_of_cons. lia.
Qed.

(** ** The invariant: exact counts, within the caps, in order of time *)

Record session_ok (max t : Z) (sb : sessionBuffer) : Prop := {
  so_total : sb_totalBytes sb = size_of (sb_fragments sb);
  so_cap : size_of (sb_fragments sb) <= max;
  so_some : sb_fragments sb <> [];
  so_sorted : Sorted Z.le (fr_at <$> sb_fragments sb);
  so_past : Forall (fun a => a <= t) (fr_at <$> sb_fragments sb);
}.

Record buffer_ok (t : Z) (fb : FragmentBuffer) : Prop := {
  bo_max : 0 <= fb_maxBytes fb;
  bo_count : Z.of_nat (size (fb_sessions fb)) <= fb_maxSessions fb;
  bo_sessions : map_Forall (fun _ sb => session_ok (fb_maxBytes fb) t sb) (fb_sessions fb);
}.

Lemma Sorted_drop k (l : list Z) : Sorted Z.le l -> Sorted Z.le (drop k l).
Proof.
  intros H. apply StronglySorted_Sorted. apply Sorted_StronglySorted in H; [|intros x y z; lia].
  rewrite <- (take_drop k l) in H. revert H. generalize (take k l). intros xs. induction xs as [|x xs IH]; [done|].
  intros H. inversion H; auto.
Qed.

Lemma fragments_ok_later max t t' sb : t <= t' -> session_ok max t sb -> session_ok max t' sb.
Proof. intros Hle []. split; try done. eapply Forall_impl; [done|]. intros; cbn in *; lia. Qed.

Lemma cleanupSession_ok max t now w sb sb' :
  session_ok max t sb -> cleanupSession w now sb = Some sb' -> session_ok max t sb' /\
  exists k, sb_fragments sb' = drop k (sb_fragments sb) /\ Forall (fun f => fresh w now f = false) (take k (sb_fragments sb)).
Proof.
  intros [Ht Hc Hn Hs Hp]. unfold cleanupSession. rewrite Ht. destruct (popExpired_spec w now (sb_fragments sb)) as (k & -> & Hk).
  destruct (drop k (sb_fragments sb)) as [|f fs] eqn:E; [done|]. rewrite <- E. intros H. injection H as <-.
  split; [|by exists k]. split; cbn [sb_fragments sb_totalBytes].
  - done.
  - pose proof (size_of_app (take k (sb_fragments sb)) (drop k (sb_fragments sb))) as Hsz. rewrite take_drop in Hsz.
    pose proof (size_of_nonneg (take k (sb_fragments sb))). lia.
  - by rewrite E.
  - rewrite fmap_drop. by apply Sorted_drop.
  - rewrite fmap_drop. by apply Forall_drop.
Qed.

Lemma size_omap_le {A B} (f : A -> option B) (m : gmap string A) : (size (omap f m) <= size m)%nat.
Proof. rewrite <- !size_dom. apply subseteq_size, dom_omap_subseteq. Qed.

Lemma cleanup_ok t now fb : buffer_ok t fb -> buffer_ok t (cleanupLocked now fb).
Proof.
  intros [Hm Hc Hs]. split; cbn; [done| |].
  - pose proof (size_omap_le (cleanupSession (window fb) now) (fb_sessions fb)). lia.
  - intros k sb'. rewrite lookup_omap. intros (sb & Hsb & Hk)%bind_Some. by eapply (cleanupSession_ok _ t) in Hk as [Hk _]; [|apply (Hs k)].
Qed.

Lemma maybeCleanup_ok t t' now fb : t <= t' -> buffer_ok t fb -> buffer_ok t' (maybeCleanupLocked now fb).
Proof.
  intros Hle H. assert (buffer_ok t (maybeCleanupLocked now fb)) as [Hm Hc Hs].
  { unfold maybeCleanupLocked. case_decide; [done|]. pose proof (cleanup_ok t now fb H) as []. by split. }
  split; [done|done|]. intros k sb Hk. eapply fragments_ok_later; [done|by apply (Hs k)].
Qed.

(** The session that an append leaves. *)
Lemma append_session max t now sb payload :
  0 <= max -> t <= now -> (sb = {| sb_fragments := []; sb_totalBytes := 0 |} \/ session_ok max t sb) ->
  let fs := sb_fragments sb ++ [{| fr_data := payload; fr_at := now |}] in
  exists sb', evictSession max {| sb_fragments := fs; sb_totalBytes := sb_totalBytes sb + Z.of_nat (length payload) |} = Some sb' /\
    session_ok max now sb' /\
    (forall a b, fs = a ++ b -> b <> [] -> size_of b <= max -> exists k, sb_fragments sb' = drop k a ++ b) /\
    (exists k, fr_at <$> sb_fragments sb' = fr_at <$> drop k fs) /\ Sorted Z.le (fr_at <$> fs).
Proof.
  intros Hmax Hle Hsb fs.
  assert (sb_totalBytes sb = size_of (sb_fragments sb) /\ Sorted Z.le (fr_at <$> fs) /\ Forall (fun a => a <= now) (fr_at <$> fs))
    as (Ht & Hsorted & Hpast).
  { destruct Hsb as [->|[Ht _ _ Hs Hp]]; [cbn; split_and!; repeat constructor; cbn; lia|]. split; [done|]. unfold fs.
    rewrite fmap_app. cbn. split.
    - apply StronglySorted_Sorted, StronglySorted_app.
      split_and!; [|apply Sorted_StronglySorted; [intros x y z; lia|done]|repeat constructor]. intros x y Hx ->%list_elem_of_singleton. rewrite Forall_forall in Hp. specialize (Hp x Hx). lia.
    - apply Forall_app. split; [|repeat constructor; lia]. eapply Forall_impl; [done|]. cbn; intros; lia. }
  assert (fs <> []) as Hne by (unfold fs; by destruct (sb_fragments sb)).
  destruct (evict_spec max fs Hmax Hne) as (fs' & Hev & Hcap & Hne' & (k & Hk) & Hsuf).
  exists {| sb_fragments := fs'; sb_totalBytes := size_of fs' |}. split_and!.
  - unfold evictSession. cbn [sb_fragments sb_totalBytes]. rewrite Ht.
    assert (size_of (sb_fragments sb) + Z.of_nat (length payload) = size_of fs) as ->; [|by rewrite Hev].
    unfold fs. by rewrite size_of_app, size_of_one.
  - split; cbn; [done|done|done| |]; rewrite Hk, fmap_drop; [by apply Sorted_drop|by apply Forall_drop].
  - exact Hsuf.
  - by exists k.
  - done.
Qed.

(** ** Histories *)

Definition freshs (w now : Z) (fs : list fragment) : list fragment := filter (fun f => fresh w now f = true) fs.

Definition fragmentsOf (fb : FragmentBuffer) (d : string) : list fragment :=
  default [] (sb_fragments <$> fb_sessions fb !! d).

(** The fragments of a session among all that were taken in. *)
Definition takenIn (d : string) (h : list (string * fragment)) : list fragment := snd <$> filter (fun df => df.1 = d) h.

(** [history t0 fb0 t fb h]: operations at times that do not decrease; [h] is what
    was taken in, and after a change of the configuration what was retained. *)
Inductive history (t0 : Z) (fb0 : FragmentBuffer) : Z -> FragmentBuffer -> list (string * fragment) -> Prop :=
| history_nil : history t0 fb0 t0 fb0 []
| history_append t fb h d payload now1 now2 exceeded fb' :
    history t0 fb0 t fb h -> t <= now1 -> now1 <= now2 -> Append d payload now1 now2 fb = Some (exceeded, fb') ->
    history t0 fb0 now2 fb' (if exceeded : bool then h else h ++ [(d, {| fr_data := payload; fr_at := now2 |})])
| history_read t fb h now : history t0 fb0 t fb h -> t <= now -> history t0 fb0 now (maybeCleanupLocked now fb) h
| history_delete t fb h d : history t0 fb0 t fb h -> history t0 fb0 t (Delete d fb) (filter (fun df => df.1 <> d) h)
| history_close t fb h : history t0 fb0 t fb h -> history t0 fb0 t (Close fb) []
| history_config t fb h max secs now fb' h' :
    history t0 fb0 t fb h -> t <= now -> UpdateConfig max secs now fb = Some fb' ->
    (forall d, takenIn d h' = fragmentsOf fb' d) -> history t0 fb0 now fb' h'.

(** *** What is retained *)

Lemma freshs_all w now fs : Forall (fun f => fresh w now f = true) fs -> freshs w now fs = fs.
Proof. unfold freshs. induction 1 as [|f fs Hf H IH]; [done|]. rewrite filter_cons, decide_True by done. by rewrite IH. Qed.

(** In order of time, the fresh fragments are the last ones. *)
Lemma split_fresh w now fs :
  Sorted Z.le (fr_at <$> fs) -> exists a, fs = a ++ freshs w now fs /\ freshs w now a = [].
Proof.
  intros Hs. induction fs as [|f fs IH]; [by exists []|]. cbn in Hs.
  apply Sorted_StronglySorted in Hs; [|intros x y z; lia]. inversion Hs as [|? ? Hs' Hf]; subst.
  destruct (fresh w now f) eqn:E.
  - exists []. split; [|done]. cbn [app]. symmetry. apply freshs_all. constructor; [done|]. apply Forall_forall. intros g Hg.
    rewrite Forall_fmap, Forall_forall in Hf. specialize (Hf g Hg). cbn in Hf. unfold fresh in *.
    rewrite negb_true_iff, bool_decide_eq_false in *. lia.
  - destruct IH as (a & Ha & Hn); [by apply StronglySorted_Sorted|]. exists (f :: a). unfold freshs in *.
    rewrite !filter_cons, decide_False by congruence. split; [cbn; congruence|by rewrite decide_False by congruence].
Qed.

Lemma freshs_app w now fs gs : freshs w now (fs ++ gs) = freshs w now fs ++ freshs w now gs.
Proof. apply filter_app. Qed.

Lemma freshs_freshs w now fs : freshs w now (freshs w now fs) = freshs w now fs.
Proof. unfold freshs. rewrite list_filter_filter. apply list_filter_iff. naive_solver. Qed.

Lemma freshs_none w now fs : Forall (fun f => fresh w now f = false) fs <-> freshs w now fs = [].
Proof.
  unfold freshs. split.
  - induction 1 as [|f fs Hf H IH]; [done|]. rewrite filter_cons, decide_False by congruence. done.
  - induction fs as [|f fs IH]; [done|]. rewrite filter_cons. case_decide as Hf; [done|]. intros H.
    constructor; [by apply not_true_is_false|auto].
Qed.

(** Freshness only depends on the time, and is lost for good. *)
Lemma freshs_times w now fs gs k : fr_at <$> gs = fr_at <$> drop k fs -> freshs w now fs = [] -> freshs w now gs = [].
Proof.
  assert (forall l, Forall (fun f => fresh w now f = false) l <-> Forall (fun a => a < now - w) (fr_at <$> l)) as Hiff.
  { intros l. rewrite Forall_fmap. apply Forall_iff. intros f. unfold fresh. cbn.
    by rewrite negb_false_iff, bool_decide_eq_true. }
  rewrite <- !freshs_none, !Hiff. intros ->. rewrite fmap_drop. apply Forall_drop.
Qed.

Lemma stale_later w now now' fs : now <= now' -> Forall (fun f => fresh w now f = false) fs -> freshs w now' fs = [].
Proof.
  intros Hle H. apply freshs_none. eapply Forall_impl; [exact H|]. intros f. unfold fresh.
  rewrite !negb_false_iff, !bool_decide_eq_true. lia.
Qed.

(** The fresh fragments of a session are all there as long as they fit. *)
Definition retains (t : Z) (fb : FragmentBuffer) (h : list (string * fragment)) : Prop :=
  forall d now, t <= now -> size_of (freshs (window fb) now (takenIn d h)) <= fb_maxBytes fb ->
    freshs (window fb) now (fragmentsOf fb d) = freshs (window fb) now (takenIn d h).

Lemma cleanup_freshs t now now' fb d :
  buffer_ok t fb -> now <= now' ->
  freshs (window fb) now' (fragmentsOf (cleanupLocked now fb) d) = freshs (window fb) now' (fragmentsOf fb d).
Proof.
  intros [_ _ Hs] Hle. unfold fragmentsOf, cleanupLocked. cbn [fb_sessions with_sessions]. rewrite lookup_omap.
  destruct (fb_sessions fb !! d) as [sb|] eqn:E; [|done]. cbn [option_bind mbind]. cbn.
  destruct (cleanupSession (window fb) now sb) as [sb'|] eqn:Ec; cbn.
  - destruct (cleanupSession_ok (fb_maxBytes fb) t now (window fb) sb sb' (Hs d sb E) Ec) as [_ (k & -> & Hk)].
    pose proof (f_equal (freshs (window fb) now') (take_drop k (sb_fragments sb))) as Ht.
    by rewrite freshs_app, (stale_later _ now now' _ Hle Hk) in Ht.
  - unfold cleanupSession in Ec. rewrite (so_total _ _ _ (Hs d sb E)) in Ec.
    destruct (popExpired_spec (window fb) now (sb_fragments sb)) as (k & Hp & Hk). rewrite Hp in Ec.
    destruct (drop k (sb_fragments sb)) eqn:Ed; [|done].
    pose proof (f_equal (freshs (window fb) now') (take_drop k (sb_fragments sb))) as Ht.
    by rewrite freshs_app, (stale_later _ now now' _ Hle Hk), Ed in Ht.
Qed.

Lemma maybeCleanup_config now fb :
  window (maybeCleanupLocked now fb) = window fb /\ fb_maxBytes (maybeCleanupLocked now fb) = fb_maxBytes fb /\
  fb_maxSessions (maybeCleanupLocked now fb) = fb_maxSessions fb.
Proof. unfold maybeCleanupLocked, window. by case_decide. Qed.

Lemma maybeCleanup_retains t now fb h :
  buffer_ok t fb -> t <= now -> retains t fb h -> retains now (maybeCleanupLocked now fb) h.
Proof.
  intros Hok Hle H d now' Hnow. destruct (maybeCleanup_config now fb) as (-> & -> & _). intros Hsz.
  rewrite <- (H d now') by (done || lia). unfold maybeCleanupLocked. case_decide; [done|].
  change (fragmentsOf _ d) with (fragmentsOf (cleanupLocked now fb) d) at 1. by apply (cleanup_freshs t).
Qed.

Lemma takenIn_snoc d h d' f : takenIn d (h ++ [(d', f)]) = takenIn d h ++ (if decide (d' = d) then [f] else []).
Proof. unfold takenIn. rewrite filter_app, fmap_app, filter_cons. cbn. by case_decide. Qed.

(** Appending keeps the caps, and what fits is retained. *)
Lemma Append_step t d payload now1 now2 fb h exceeded fb' :
  buffer_ok t fb -> retains t fb h -> t <= now1 -> now1 <= now2 ->
  Append d payload now1 now2 fb = Some (exceeded, fb') ->
  buffer_ok now2 fb' /\ retains now2 fb' (if exceeded then h else h ++ [(d, {| fr_data := payload; fr_at := now2 |})]).
Proof.
  intros Hok Hret H1 H2. unfold Append. pose proof (maybeCleanup_config now1 fb) as (Ew & Em & Es).
  pose proof (maybeCleanup_ok t now1 now1 fb H1 Hok) as Hok1. pose proof (maybeCleanup_retains t now1 fb h Hok H1 Hret) as Hret1.
  set (fb1 := maybeCleanupLocked now1 fb) in *. clearbody fb1. set (f := {| fr_data := payload; fr_at := now2 |}).
  assert (buffer_ok now2 fb1) as Hok2 by (destruct Hok1; split; try done; intros k sb Hk; eapply fragments_ok_later; eauto).
  assert (retains now2 fb1 h) as Hret2 by (intros k now Hnow; apply Hret1; lia).
  destruct (bool_decide (fb_sessions fb1 !! d = None) && _) eqn:Ecap; [by intros [= <- <-]|].
  set (sb := default _ (fb_sessions fb1 !! d)). pose proof Hok1 as [Hmax Hcount Hsess].
  assert (sb = {| sb_fragments := []; sb_totalBytes := 0 |} \/ session_ok (fb_maxBytes fb1) now1 sb) as Hsb.
  { unfold sb. destruct (fb_sessions fb1 !! d) as [sb0|] eqn:E; [right; by apply (Hsess d)|by left]. }
  assert (sb_fragments sb = fragmentsOf fb1 d) as Hfr.
  { unfold sb, fragmentsOf. by destruct (fb_sessions fb1 !! d). }
  destruct (append_session _ _ now2 sb payload Hmax H2 Hsb) as (sb' & Hev & Hsb' & Hsuf & (k & Htimes) & Hsorted).
  fold f in Hev, Hsuf, Htimes, Hsorted. rewrite Hev. cbn [mbind option_bind]. intros [= <- <-].
  split.
  - split; cbn [fb_maxBytes fb_maxSessions fb_sessions with_sessions]; [done| |].
    + apply andb_false_iff in Ecap. rewrite !bool_decide_eq_false in Ecap. rewrite map_size_insert.
      destruct (fb_sessions fb1 !! d) as [sb0|]; [cbn; lia|]. destruct Ecap as [Ecap|Ecap]; [done|cbn; lia].
    + apply map_Forall_insert_2; [exact Hsb'|]. apply Hok2.
  - intros d' now Hnow. cbn [window fb_windowSecs fb_maxBytes with_sessions]. change (window (with_sessions _ fb1)) with (window fb1).
    rewrite takenIn_snoc. unfold fragmentsOf at 1. cbn [fb_sessions with_sessions].
    destruct (decide (d = d')) as [<-|Hd].
    2: { rewrite lookup_insert_ne, app_nil_r by done. intros Hsz. by apply Hret2. }
    rewrite lookup_insert_eq, freshs_app, size_of_app. cbn [fmap option_fmap option_map default]. intros Hsz.
    assert (freshs (window fb1) now (sb_fragments sb) = freshs (window fb1) now (takenIn d h)) as Hold.
    { rewrite Hfr. apply Hret2; [done|]. pose proof (size_of_nonneg (freshs (window fb1) now [f])). lia. }
    rewrite <- Hold, <- freshs_app. rewrite <- Hold, <- size_of_app, <- freshs_app in Hsz.
    destruct (split_fresh (window fb1) now _ Hsorted) as (a & Ha & Hstale).
    destruct (freshs (window fb1) now (sb_fragments sb ++ [f])) as [|g gs] eqn:Eg.
    + change (freshs (window fb1) now (sb_fragments sb') = []). by apply (freshs_times _ _ _ _ k Htimes).
    + destruct (Hsuf a (g :: gs) Ha) as [j Hj]; [done|exact Hsz|].
      change (freshs (window fb1) now (sb_fragments sb') = g :: gs). rewrite Hj, freshs_app, <- Eg, freshs_freshs.
      assert (freshs (window fb1) now (drop j a) = []) as ->; [|done].
      apply freshs_none, Forall_drop. by apply freshs_none.
Qed.

Lemma evictSession_ok max0 max t sb :
  0 <= max -> session_ok max0 t sb -> exists sb', evictSession max sb = Some sb' /\ session_ok max t sb'.
Proof.
  intros Hmax [Ht _ Hn Hs Hp]. destruct (evict_spec max _ Hmax Hn) as (fs' & Hev & Hcap & Hne & (k & Hk) & _).
  exists {| sb_fragments := fs'; sb_totalBytes := size_of fs' |}. unfold evictSession. rewrite Ht, Hev. split; [done|].
  split; cbn [sb_fragments sb_totalBytes]; [done|done|done| |]; rewrite Hk, fmap_drop; [by apply Sorted_drop|by apply Forall_drop].
Qed.

Lemma UpdateConfig_ok max secs t now fb :
  buffer_ok t fb -> t <= now -> exists fb', UpdateConfig max secs now fb = Some fb' /\ buffer_ok now fb'.
Proof.
  intros [_ Hcount Hs] Hle. unfold UpdateConfig. set (max' := if decide (max <= 0) then 1 else max).
  set (secs' := if decide (secs <= 0) then 1 else secs). assert (0 <= max') as Hmax by (unfold max'; decide_lia).
  set (fb1 := Build_FragmentBuffer max' _ secs' _ _). cbv zeta.
  assert (map_Forall (fun _ sb => session_ok (fb_maxBytes fb) now sb) (fb_sessions (cleanupLocked now fb1))) as Hc.
  { intros k sb'. unfold cleanupLocked. cbn. rewrite lookup_omap. intros (sb & Hsb & Hk)%bind_Some.
    eapply (cleanupSession_ok (fb_maxBytes fb) t) in Hk as [Hk _]; [|by apply (Hs k)]. by eapply fragments_ok_later. }
  rewrite decide_True.
  - eexists. split; [done|]. split; cbn [fb_maxBytes fb_maxSessions fb_sessions]; [done| |].
    + pose proof (size_omap_le id (evictSession max' <$> fb_sessions (cleanupLocked now fb1))) as H1.
      rewrite map_size_fmap in H1. pose proof (size_omap_le (cleanupSession (window fb1) now) (fb_sessions fb)) as H2.
      change (fb_sessions (cleanupLocked now fb1)) with (omap (cleanupSession (window fb1) now) (fb_sessions fb)) in H1. cbn. lia.
    + intros k sb'. rewrite lookup_omap, lookup_fmap. destruct (fb_sessions (cleanupLocked now fb1) !! k) as [sb|] eqn:E; [|done].
      destruct (evictSession_ok _ max' now sb Hmax (Hc k sb E)) as (sb2 & Hev & Hok). cbn. rewrite Hev. cbn. by intros [= <-].
  - intros k o. rewrite lookup_fmap. destruct (fb_sessions (cleanupLocked now fb1) !! k) as [sb|] eqn:E; [|done].
    destruct (evictSession_ok _ max' now sb Hmax (Hc k sb E)) as (sb2 & Hev & Hok). cbn. rewrite Hev. intros [= <-]. eauto.
Qed.

Lemma Delete_step t d fb h :
  buffer_ok t fb -> retains t fb h ->
  buffer_ok t (Delete d fb) /\ retains t (Delete d fb) (filter (fun df => df.1 <> d) h).
Proof.
  intros [Hm Hc Hs] Hret. split.
  - split; cbn; [done| |].
    + rewrite map_size_delete. unfold id. destruct (fb_sessions fb !! d); lia.
    + by apply map_Forall_delete.
  - intros d' now Hnow. unfold Delete, fragmentsOf. cbn [fb_sessions with_sessions window fb_maxBytes].
    destruct (decide (d' = d)) as [->|Hd].
    + rewrite lookup_delete_eq. intros _. assert (takenIn d (filter (fun df => df.1 <> d) h) = []) as ->; [|done].
      clear. unfold takenIn. rewrite list_filter_filter. induction h as [|df h IH]; [done|]. rewrite filter_cons, decide_False by naive_solver. done.
    + rewrite lookup_delete_ne by done. assert (takenIn d' (filter (fun df => df.1 <> d) h) = takenIn d' h) as ->; [|by apply Hret].
      unfold takenIn. rewrite list_filter_filter. f_equal. apply list_filter_iff. naive_solver.
Qed.

Lemma fragments_history_inv max sess secs t0 t fb h :
  0 <= max -> 0 <= sess -> history t0 (NewFragmentBuffer max sess secs t0) t fb h ->
  buffer_ok t fb /\ retains t fb h /\ fb_maxSessions fb = sess.
Proof.
  intros Hmax Hsess.
  induction 1 as [|t fb h d payload now1 now2 exceeded fb' H (IH1 & IH2 & IH3) H1 H2 Ha|t fb h now H (IH1 & IH2 & IH3) Hle
    |t fb h d H (IH1 & IH2 & IH3)|t fb h H (IH1 & IH2 & IH3)|t fb h max' secs' now fb' h' H (IH1 & IH2 & IH3) Hle Hc Hh].
  - split_and!; [|intros d now _ _; done|done]. split; cbn; [done|rewrite map_size_empty; lia|apply map_Forall_empty].
  - destruct (Append_step t d payload now1 now2 fb h exceeded fb') as [Hok Hret]; try done. split_and!; [done|done|].
    unfold Append in Ha. pose proof (maybeCleanup_config now1 fb) as (_ & _ & Es). destruct (_ && _); [by simplify_eq|].
    destruct (evictSession _ _); [|done]. cbn in Ha. injection Ha as _ <-. cbn. congruence.
  - split_and!; [by eapply maybeCleanup_ok|by eapply maybeCleanup_retains|].
    pose proof (maybeCleanup_config now fb) as (_ & _ & Es). congruence.
  - destruct (Delete_step t d fb h IH1 IH2). done.
  - split_and!; [|intros d now _ _; unfold fragmentsOf; cbn; by rewrite lookup_empty|done].
    destruct IH1. split; cbn; [done|rewrite map_size_empty; lia|apply map_Forall_empty].
  - destruct (UpdateConfig_ok max' secs' t now fb IH1 Hle) as (fb2 & Hc2 & Hok). rewrite Hc2 in Hc. injection Hc as ->.
    split_and!; [done|intros d now' _ _; by rewrite Hh|]. unfold UpdateConfig in Hc2. case_decide; [|done].
    injection Hc2 as <-. exact IH3.
Qed.

(** The buffer is bounded and never panics. Whatever was appended, read,
    deleted or reconfigured, there are at most the configured number of sessions,
    each holds at most the configured number of bytes, its byte count is exact,
    and appending and reconfiguring do not panic. *)
Theorem fragments_bounded max sess secs t0 t fb h :
  0 <= max -> 0 <= sess -> history t0 (NewFragmentBuffer max sess secs t0) t fb h ->
  Z.of_nat (size (fb_sessions fb)) <= sess /\
  map_Forall (fun _ sb => sb_totalBytes sb = size_of (sb_fragments sb) /\ sb_totalBytes sb <= fb_maxBytes fb) (fb_sessions fb) /\
  (forall d payload now1 now2, t <= now1 -> now1 <= now2 -> Append d payload now1 now2 fb <> None) /\
  (forall max' secs' now, t <= now -> UpdateConfig max' secs' now fb <> None).
Proof.
  intros Hmax Hsess H. destruct (fragments_history_inv _ _ _ _ _ _ _ Hmax Hsess H) as (Hok & _ & Es). pose proof Hok as [Hm Hc Hs].
  split_and!.
  - congruence.
  - eapply map_Forall_impl; [exact Hs|]. cbn. intros k sb [Ht Hcap _ _ _]. rewrite Ht. done.
  - intros d payload now1 now2 H1 H2. unfold Append. pose proof (maybeCleanup_ok t now1 now1 fb H1 Hok) as [Hm1 _ Hs1].
    destruct (_ && _); [done|]. set (sb := default _ _).
    destruct (append_session _ _ now2 sb payload Hm1 H2) as (sb' & Hev & _).
    { unfold sb. destruct (_ !! d) as [sb0|] eqn:E; [right; by apply (Hs1 d)|by left]. }
    by rewrite Hev.
  - intros max' secs' now Hle. destruct (UpdateConfig_ok max' secs' t now fb Hok Hle) as (fb' & -> & _). done.
Qed.

Lemma singleFragment_spec ScanTextForDLP fs p :
  p ∉ singleFragment ScanTextForDLP fs <->
  Forall (fun f => fr_data f <> [] -> p ∉ dlp_Matches (ScanTextForDLP (fr_data f)) /\
                   p ∉ dlp_InformationalMatches (ScanTextForDLP (fr_data f))) fs.
Proof.
  unfold singleFragment. induction fs as [|f fs IH]; cbn [fmap list_fmap concat].
  - split; [by constructor|intros _; apply not_elem_of_nil].
  - rewrite elem_of_app, Forall_cons, <- IH. destruct (fr_data f) as [|a l].
    + pose proof (not_elem_of_nil p). naive_solver.
    + rewrite elem_of_app. naive_solver.
Qed.

Lemma reportMatches_spec ScanTextForDLP text fs p :
  p ∈ reportMatches ScanTextForDLP text fs <->
  p ∈ dlp_Matches (ScanTextForDLP text) /\
  ~ (dlp_Clean (ScanTextForDLP text) = true /\ dlp_InformationalMatches (ScanTextForDLP text) = []) /\
  Forall (fun f => fr_data f <> [] -> p ∉ dlp_Matches (ScanTextForDLP (fr_data f)) /\
                   p ∉ dlp_InformationalMatches (ScanTextForDLP (fr_data f))) fs.
Proof.
  rewrite <- singleFragment_spec. unfold reportMatches.
  destruct (dlp_Clean (ScanTextForDLP text) && bool_decide (dlp_InformationalMatches (ScanTextForDLP text) = [])) eqn:E.
  - apply andb_true_iff in E as [E1 E2%bool_decide_eq_true]. pose proof (not_elem_of_nil p). naive_solver.
  - apply andb_false_iff in E. rewrite bool_decide_eq_false in E. rewrite list_elem_of_filter.
    destruct (dlp_Clean (ScanTextForDLP text)); naive_solver.
Qed.

(** A secret split over requests is found. When the payloads that a session
    sent within the window fit into the buffer, the scanner is given their
    concatenation, in order and complete, and exactly the patterns are reported
    that it finds there and in no single payload. *)
Theorem split_secret_found ScanTextForDLP max sess secs t0 t fb h d now1 now2 now3 p :
  0 <= max -> 0 <= sess -> history t0 (NewFragmentBuffer max sess secs t0) t fb h ->
  t <= now1 -> now1 <= now2 -> now2 <= now3 ->
  let sent := freshs (window fb) now3 (takenIn d h) in
  freshs (window fb) now2 (takenIn d h) = sent -> 2 <= Z.of_nat (length sent) -> size_of sent <= fb_maxBytes fb ->
  let result := ScanTextForDLP (concat (fr_data <$> sent)) in
  p ∈ (ScanForSecrets ScanTextForDLP d now1 now2 now3 fb).1 <->
  p ∈ dlp_Matches result /\ ~ (dlp_Clean result = true /\ dlp_InformationalMatches result = []) /\
  Forall (fun f => fr_data f <> [] -> p ∉ dlp_Matches (ScanTextForDLP (fr_data f)) /\
                   p ∉ dlp_InformationalMatches (ScanTextForDLP (fr_data f))) sent.
Proof.
  intros Hmax Hsess H H1 H2 H3 sent Hsame Hlen Hfit result.
  destruct (fragments_history_inv _ _ _ _ _ _ _ Hmax Hsess H) as (Hok & Hret & _).
  pose proof (maybeCleanup_retains t now1 fb h Hok H1 Hret) as Hret1. pose proof (maybeCleanup_config now1 fb) as (Ew & Em & _).
  unfold ScanForSecrets. set (fb1 := maybeCleanupLocked now1 fb) in *. clearbody fb1.
  assert (freshs (window fb1) now3 (fragmentsOf fb1 d) = sent) as Hs3 by (rewrite Hret1, Ew; [done|lia|by rewrite Ew, Em]).
  assert (freshs (window fb1) now2 (fragmentsOf fb1 d) = sent) as Hs2.
  { rewrite Hret1, Ew; [done|done|]. rewrite Ew, Em, Hsame. done. }
  unfold fragmentsOf in Hs2, Hs3. destruct (fb_sessions fb1 !! d) as [sb|]; cbn [default fmap option_fmap option_map from_option id] in Hs2, Hs3.
  2: { exfalso. rewrite <- Hs2 in Hlen. cbn in Hlen. lia. }
  cbv zeta. change (filter _ (sb_fragments sb)) with (freshs (window fb1) now2 (sb_fragments sb)). rewrite Hs2.
  rewrite decide_False by (unfold minFragmentsForMatch; lia). cbn [fst]. unfold concatenateFragments.
  change (filter _ (sb_fragments sb)) with (freshs (window fb1) now3 (sb_fragments sb)). rewrite Hs3.
  apply reportMatches_spec.
Qed.

(** ** A concrete buffer *)

(** The scanner looks for an [a] that is followed by a [b]. *)
Fixpoint demo_hasAB (text : bytes) : bool :=
  match text with
  | x :: rest => match rest with y :: _ => bool_decide (x = "a"%char) && bool_decide (y = "b"%char) | [] => false end || demo_hasAB rest
  | [] => false
  end.

Definition demo_scanner (text : bytes) : TextDLPResult :=
  {| dlp_Clean := negb (demo_hasAB text); dlp_Matches := if demo_hasAB text then ["ab"] else []; dlp_InformationalMatches := [] |}.

Definition demo_payload (s : string) : bytes := list_ascii_of_string s.

Definition demo_append (d s : string) (now : Z) (fb : FragmentBuffer) : FragmentBuffer :=
  match Append d (demo_payload s) now now fb with Some (_, fb) => fb | None => fb end.

Definition demo_buffer : FragmentBuffer :=
  demo_append "s" "by" 3 (demo_append "t" "zz" 2 (demo_append "s" "xa" 1 (NewFragmentBuffer 4 2 60 0))).

Definition demo_taken : list (string * fragment) :=
  [("s", {| fr_data := demo_payload "xa"; fr_at := 1 |}); ("t", {| fr_data := demo_payload "zz"; fr_at := 2 |});
   ("s", {| fr_data := demo_payload "by"; fr_at := 3 |})].

Lemma demo_history : history 0 (NewFragmentBuffer 4 2 60 0) 3 demo_buffer demo_taken.
Proof.
  apply (history_append 0 _ 2 (demo_append "t" "zz" 2 (demo_append "s" "xa" 1 (NewFragmentBuffer 4 2 60 0)))
           (take 2 demo_taken) "s" (demo_payload "by") 3 3 false); [|lia|lia|vm_compute; reflexivity].
  apply (history_append 0 _ 1 (demo_append "s" "xa" 1 (NewFragmentBuffer 4 2 60 0))
           (take 1 demo_taken) "t" (demo_payload "zz") 2 2 false); [|lia|lia|vm_compute; reflexivity].
  apply (history_append 0 _ 0 (NewFragmentBuffer 4 2 60 0) [] "s" (demo_payload "xa") 1 1 false);
    [constructor|lia|lia|vm_compute; reflexivity].
Qed.

Lemma demo_sent :
  freshs (window demo_buffer) 4 (takenIn "s" demo_taken) =
  [{| fr_data := demo_payload "xa"; fr_at := 1 |}; {| fr_data := demo_payload "by"; fr_at := 3 |}].
Proof. vm_compute. reflexivity. Qed.

Lemma split_secret_found_witness : "ab" ∈ (ScanForSecrets demo_scanner "s" 4 4 4 demo_buffer).1.
Proof.
  pose proof (split_secret_found demo_scanner 4 2 60 0 3 demo_buffer demo_taken "s" 4 4 4 "ab") as H.
  cbv zeta in H. rewrite demo_sent in H. apply H; [lia|lia|exact demo_history|lia|lia|lia|reflexivity|cbn; lia|vm_compute; discriminate|].
  split_and!; [vm_compute; left|by intros [? _]|]. repeat constructor; by intros []%not_elem_of_nil.
Defined.

Lemma fragments_bounded_witness :
  Append "u" (demo_payload "q") 4 4 demo_buffer = Some (true, demo_buffer) /\ Append "s" (demo_payload "qqqqqq") 4 4 demo_buffer <> None.
Proof.
  split; [vm_compute; reflexivity|].
  apply (fragments_bounded 4 2 60 0 3 demo_buffer demo_taken); [lia|lia|exact demo_history|lia|lia].
Defined.

(** One fragment is not a cross-request match, and expired ones do not count. *)
Example one_request_not_reported :
  (ScanForSecrets demo_scanner "t" 4 4 4 demo_buffer).1 = [] /\
  (ScanForSecrets demo_scanner "s" (62 * Time.second) (62 * Time.second) (62 * Time.second) demo_buffer).1 = [].
Proof. vm_compute. auto. Qed.
