(* ===== verification/Scanner.v ===== *)
(** * The URL scanner

    [internal/scanner/scanner.go], with the core floor of [core.go], the resolver of
    [dnsresolver.go] and the classification of its errors ([dns_error.go]). [scan] is
    a sequence of checks, each of which ends the scan when it refuses; the rate
    limiter, the data budget and the resolver are the effects. The state threaded
    through it is the scanner and the list of the host names sent to the upstream
    resolver.

    The checks that read content (the DLP patterns and the entropy heuristics) are
    arguments, as are the URL parser, the public-suffix list and the table of hints.
    A context is what it answers at the four places where the code asks. *)

From S2P Require Import Prelude GoStrings GoNet GoUrl Destination Spelling Cidr Float64 Config Limits SigV4 Activity.
Local Open Scope Z_scope.
Local Open Scope go_scope.

(** ** Results *)

Definition ScannerParser : string := "parser".
Definition ScannerScheme : string := "scheme".
Definition ScannerLength : string := "length".
Definition ScannerSSRF : string := "ssrf".
Definition ScannerSSRFMetadata : string := "ssrf_metadata".
Definition ScannerAllowlist : string := "allowlist".
Definition ScannerBlocklist : string := "blocklist".
Definition ScannerRateLimit : string := "ratelimit".
Definition ScannerDataBudget : string := "databudget".
Definition ScannerPathTraversal : string := "path_traversal".
Definition ScannerCRLF : string := "crlf_injection".
Definition ScannerContext : string := "context".
Definition ScannerCoreSSRF : string := "core_ssrf".
Definition ScannerAll : string := "all".

Definition DNSErrorTimeout : string := "timeout".
Definition DNSErrorNoSuchHost : string := "no_such_host".
Definition DNSErrorResolver : string := "resolver_error".

Record WarnMatch := { w_PatternName : string; w_Severity : string }.

Record Result := {
  res_Allowed : bool;
  res_Reason : string;
  res_Scanner : string;
  res_Hint : string;
  res_Score : F64.t;
  res_Class : Z;
  res_DNSErrorKind : string;
  res_SSRFResolvedIPs : list string;
  res_WarnMatches : list WarnMatch;
}.

(** [Result{Allowed: true}]. *)
Definition allowed : Result :=
  {| res_Allowed := true; res_Reason := ""; res_Scanner := ""; res_Hint := ""; res_Score := F64.zero; res_Class := ClassThreat;
     res_DNSErrorKind := ""; res_SSRFResolvedIPs := []; res_WarnMatches := [] |}.

(** [Result{Allowed: false, ...}], the score in tenths. *)
Definition blocked (reason scanner : string) (tenths : Z) : Result :=
  {| res_Allowed := false; res_Reason := reason; res_Scanner := scanner; res_Hint := ""; res_Score := F64.ratio tenths 10;
     res_Class := ClassThreat; res_DNSErrorKind := ""; res_SSRFResolvedIPs := []; res_WarnMatches := [] |}.

Definition with_Class (c : Z) (r : Result) : Result :=
  {| res_Allowed := res_Allowed r; res_Reason := res_Reason r; res_Scanner := res_Scanner r; res_Hint := res_Hint r;
     res_Score := res_Score r; res_Class := c; res_DNSErrorKind := res_DNSErrorKind r;
     res_SSRFResolvedIPs := res_SSRFResolvedIPs r; res_WarnMatches := res_WarnMatches r |}.

Definition with_Hint (h : string) (r : Result) : Result :=
  {| res_Allowed := res_Allowed r; res_Reason := res_Reason r; res_Scanner := res_Scanner r; res_Hint := h;
     res_Score := res_Score r; res_Class := res_Class r; res_DNSErrorKind := res_DNSErrorKind r;
     res_SSRFResolvedIPs := res_SSRFResolvedIPs r; res_WarnMatches := res_WarnMatches r |}.

Definition with_DNSErrorKind (k : string) (r : Result) : Result :=
  {| res_Allowed := res_Allowed r; res_Reason := res_Reason r; res_Scanner := res_Scanner r; res_Hint := res_Hint r;
     res_Score := res_Score r; res_Class := res_Class r; res_DNSErrorKind := k;
     res_SSRFResolvedIPs := res_SSRFResolvedIPs r; res_WarnMatches := res_WarnMatches r |}.

Definition with_IPs (ips : list string) (r : Result) : Result :=
  {| res_Allowed := res_Allowed r; res_Reason := res_Reason r; res_Scanner := res_Scanner r; res_Hint := res_Hint r;
     res_Score := res_Score r; res_Class := res_Class r; res_DNSErrorKind := res_DNSErrorKind r;
     res_SSRFResolvedIPs := ips; res_WarnMatches := res_WarnMatches r |}.

Definition with_Warns (ws : list WarnMatch) (r : Result) : Result :=
  {| res_Allowed := res_Allowed r; res_Reason := res_Reason r; res_Scanner := res_Scanner r; res_Hint := res_Hint r;
     res_Score := res_Score r; res_Class := res_Class r; res_DNSErrorKind := res_DNSErrorKind r;
     res_SSRFResolvedIPs := res_SSRFResolvedIPs r; res_WarnMatches := ws |}.

(** What the proxy keeps of a result for the activity of the session. *)
Definition summary (r : Result) : ScanResult :=
  {| r_Allowed := res_Allowed r; r_Reason := res_Reason r; r_Scanner := res_Scanner r; r_Score := res_Score r; r_Class := res_Class r |}.

(** One match per pattern name, the first. *)
Fixpoint dedup (seen : list string) (ms : list WarnMatch) : list WarnMatch :=
  match ms with
  | [] => []
  | m :: ms => if decide (w_PatternName m ∈ seen) then dedup seen ms else m :: dedup (w_PatternName m :: seen) ms
  end.

Definition deduplicateWarnMatches (ms : list WarnMatch) : list WarnMatch := dedup [] ms.

(** ** Errors of the resolver (dns_error.go) *)

Record DNSError := { dns_Err : string; dns_IsTimeout : bool; dns_IsTemporary : bool; dns_IsNotFound : bool }.

(** A [net.DNSError], possibly wrapped, or any other error. *)
Inductive LookupError := LookupDNS (e : DNSError) | LookupOther (text : string).

Definition classifyDNSError (hostname : string) (err : LookupError) : string * string :=
  match err with
  | LookupDNS e =>
      if dns_IsTimeout e then (DNSErrorTimeout, "DNS lookup for " +:+ hostname +:+ " timed out")
      else if dns_IsNotFound e then (DNSErrorNoSuchHost, "DNS lookup for " +:+ hostname +:+ " returned no such host")
      else if dns_IsTemporary e
      then (DNSErrorResolver, "DNS lookup for " +:+ hostname +:+ " failed (temporary resolver error): " +:+ dns_Err e)
      else (DNSErrorResolver, "DNS lookup for " +:+ hostname +:+ " failed: " +:+ dns_Err e)
  | LookupOther text => (DNSErrorResolver, "DNS lookup for " +:+ hostname +:+ " failed: " +:+ text)
  end.

(** ** The scanner *)

(** The checks that read content. *)
Record ContentChecks := {
  checkCoreDLP : Url.URL -> Result;
  checkDLP : Url.URL -> Result * list WarnMatch;
  checkEntropy : Url.URL -> Result;
  checkSubdomainEntropy : string -> Result;
}.

Record Scanner := {
  s_core : option (list Cidr.IPNet);
  s_allowlist : list string;
  s_blocklist : list string;
  s_maxURLLength : Z;
  s_internalCIDRs : list Cidr.IPNet;
  s_ipAllowlistCIDRs : list Cidr.IPNet;
  s_trustedDomains : list string;
  s_destinationGrants : GrantSet;
  s_rawAPIAllowlist : list string;
  s_rateLimiter : option Rate.RateLimiter;
  s_dataBudget : option Budget.DataBudget;
  s_overrides : gmap string (list string);
  s_content : ContentChecks;
}.

Definition with_rateLimiter (rl : Rate.RateLimiter) (s : Scanner) : Scanner :=
  {| s_core := s_core s; s_allowlist := s_allowlist s; s_blocklist := s_blocklist s; s_maxURLLength := s_maxURLLength s;
     s_internalCIDRs := s_internalCIDRs s; s_ipAllowlistCIDRs := s_ipAllowlistCIDRs s; s_trustedDomains := s_trustedDomains s;
     s_destinationGrants := s_destinationGrants s; s_rawAPIAllowlist := s_rawAPIAllowlist s; s_rateLimiter := Some rl;
     s_dataBudget := s_dataBudget s; s_overrides := s_overrides s; s_content := s_content s |}.

Definition with_dataBudget (db : Budget.DataBudget) (s : Scanner) : Scanner :=
  {| s_core := s_core s; s_allowlist := s_allowlist s; s_blocklist := s_blocklist s; s_maxURLLength := s_maxURLLength s;
     s_internalCIDRs := s_internalCIDRs s; s_ipAllowlistCIDRs := s_ipAllowlistCIDRs s; s_trustedDomains := s_trustedDomains s;
     s_destinationGrants := s_destinationGrants s; s_rawAPIAllowlist := s_rawAPIAllowlist s; s_rateLimiter := s_rateLimiter s;
     s_dataBudget := Some db; s_overrides := s_overrides s; s_content := s_content s |}.

(** ** Scans as computations *)

Definition chk (A : Type) : Type := Scanner * list string -> result A Result * (Scanner * list string).

Module Chk.

Definition ret {A} (a : A) : chk A := fun s => (Ok a, s).
Definition stop {A} (r : Result) : chk A := fun s => (Err r, s).
Definition scanner : chk Scanner := fun s => (Ok s.1, s).
Definition set (f : Scanner -> Scanner) : chk unit := fun s => (Ok tt, (f s.1, s.2)).
Definition lookup (host : string) : chk unit := fun s => (Ok tt, (s.1, s.2 ++ [host])).
Definition bind {A B} (m : chk A) (k : A -> chk B) : chk B :=
  fun s => match m s with (Ok a, s') => k a s' | (Err r, s') => (Err r, s') end.

(** [if result := check(); !result.Allowed { return result }]. *)
Definition guard (r : Result) : chk unit := if res_Allowed r then ret tt else stop r.

(** The deferred function that amends whatever result is returned. *)
Definition finally (f : Result -> Result) (m : chk Result) : chk Result :=
  fun s => match m s with (Ok r, s') => (Ok (f r), s') | (Err r, s') => (Err (f r), s') end.
End Chk.

Declare Scope chk_scope.
Delimit Scope chk_scope with chk.
Notation "x <- m ;; k" := (Chk.bind m (fun x => k))
  (at level 100, m at next level, k at level 200, right associativity) : chk_scope.
Notation "m ;; k" := (Chk.bind m (fun _ => k))
  (at level 100, k at level 200, right associativity) : chk_scope.
Local Open Scope chk_scope.

(** ** One request's surroundings *)

Inductive ctx_point := AtStart | AtSSRF | AfterLookup | AtEnd.

Record Env := {
  e_ctxNil : bool;
  e_ctxErr : ctx_point -> bool;
  (* the upstream resolver, within the five seconds it is given *)
  e_upstream : string -> result (list string) LookupError;
  (* the clock when the limiter and the budget are asked *)
  e_rateNow : Z;
  e_budgetNow : Z;
}.

(** ** Checks that need no state *)

Section checks.
Context (unicode_lower : string -> string).
Context (EffectiveTLDPlusOne : string -> option string).
Context (HintForScanner : string -> string).

Notation ToLower := (Strings.ToLower unicode_lower).
Notation MatchDomain := (MatchDomain unicode_lower).

Definition normalizeHostKey (host : string) : string := ToLower (Strings.TrimSuffix (Strings.TrimSpace host) ".").

(** [NewStaticOverrideResolver], over the configured entries in order. *)
Definition addOverride (norm : gmap string (list string)) (entry : string * list string) : gmap string (list string) :=
  let key := normalizeHostKey entry.1 in
  if decide (key = "") then norm
  else match Net.ParseIP key with
       | Some _ => norm
       | None => <[key := entry.2]> norm
       end.

Definition NewStaticOverrideResolver (overrides : list (string * list string)) : gmap string (list string) :=
  foldl addOverride ∅ overrides.

(** [LookupHost]: the answer, and whether the upstream resolver was asked. *)
Definition LookupHost (overrides : gmap string (list string)) (upstream : string -> result (list string) LookupError) (host : string)
    : result (list string) LookupError * bool :=
  let key := normalizeHostKey host in
  match Net.ParseIP key with
  | Some _ => (upstream host, true)
  | None => match overrides !! key with
            | Some ips => (Ok ips, false)
            | None => (upstream host, true)
            end
  end.

Definition urlDestination (parsed : Url.URL) (hostname : string) : option Destination :=
  let port := Url.Port parsed in
  port ← (if decide (port <> "") then Some port
          else let scheme := ToLower (Url.u_Scheme parsed) in
               if decide (scheme = "http") then Some "80" else if decide (scheme = "https") then Some "443" else None);
  match Net.ParseUint port 10 16 with
  | Some value =>
      if decide (value = 0) then None
      else match New unicode_lower NetworkTCP hostname value with Ok dest => Some dest | Err _ => None end
  | None => None
  end.

(** The hostname the checks see: lower case, an alternative IPv4 notation in its
    dotted form, which the URL's host gets too. *)
Definition canonicalHost (parsed : Url.URL) : string * Url.URL :=
  let hostname := ToLower (Url.Hostname parsed) in
  match ParseIPLiteral hostname, Net.ParseIP hostname with
  | Some altIP, None =>
      match Net.To4 altIP with
      | Some _ =>
          let hostname := Net.IP_String altIP in
          let port := Url.Port parsed in
          (hostname, Url.with_Host (if decide (port <> "") then hostname +:+ ":" +:+ port else hostname) parsed)
      | None => (hostname, parsed)
      end
  | _, _ => (hostname, parsed)
  end.

Definition checkCRLF (rawURL : string) : Result :=
  let rawURL := match Strings.Cut rawURL "#" with Some (before, _) => before | None => rawURL end in
  let lower := ToLower rawURL in
  if Strings.Contains lower "%0d%0a" then blocked "CRLF injection sequence in URL" ScannerCRLF 9
  else if Strings.Contains lower "%250d%250a" then blocked "double-encoded CRLF injection sequence in URL" ScannerCRLF 9
  else if Strings.Contains lower "%0a" || Strings.Contains lower "%0d" then blocked "encoded CR or LF in URL" ScannerCRLF 9
  else if Strings.Contains lower "%250a" || Strings.Contains lower "%250d" then blocked "double-encoded CR or LF in URL" ScannerCRLF 9
  else if Strings.ContainsByte rawURL "013" || Strings.ContainsByte rawURL "010" then blocked "raw CRLF bytes in URL" ScannerCRLF 9
  else allowed.

Definition dotdots : list string := [".."; "%2e."; ".%2e"; "%2e%2e"].
Definition seps : list string := ["/"; "\"; "%2f"; "%5c"].

Definition checkPathTraversal (parsed : Url.URL) : Result :=
  let rawPath := if decide (Url.u_RawPath parsed = "") then Url.u_Path parsed else Url.u_RawPath parsed in
  let lowerPath := ToLower rawPath in
  if existsb (fun dd => existsb (fun left =>
       existsb (fun right => Strings.Contains lowerPath (left +:+ dd +:+ right)) seps ||
       Strings.HasSuffix lowerPath (left +:+ dd)) seps) dotdots
  then blocked "path traversal sequence in URL" ScannerPathTraversal 7
  else if Strings.Contains lowerPath "/%252e%252e/" || Strings.Contains lowerPath "/%252e%252e%252f" ||
          Strings.HasSuffix lowerPath "/%252e%252e"
  then blocked "double-encoded path traversal in URL" ScannerPathTraversal 7
  else allowed.

Definition checkAllowlist (s : Scanner) (dest : Destination) : Result :=
  if Contains (s_destinationGrants s) dest then allowed
  else if decide (s_allowlist s = []) then allowed
  else if existsb (MatchDomain (d_Host dest)) (s_allowlist s) then allowed
  else blocked ("domain not in allowlist: " +:+ d_Host dest) ScannerAllowlist 10.

Definition checkBlocklist (s : Scanner) (hostname : string) : Result :=
  match List.find (MatchDomain hostname) (s_blocklist s) with
  | Some pattern => blocked ("domain blocked: " +:+ hostname +:+ " matches " +:+ pattern) ScannerBlocklist 10
  | None => allowed
  end.

(** *** Internal addresses *)

Definition isCoreCIDRBlocked (s : Scanner) (ip : Net.IP) : bool :=
  match s_core s with
  | None => false
  | Some core => existsb (fun cidr => Cidr.Contains cidr (Net.canonical ip)) core
  end.

Definition IsInternalIP (s : Scanner) (ip : Net.IP) : bool :=
  let ip := Net.canonical ip in
  isCoreCIDRBlocked s ip || existsb (fun cidr => Cidr.Contains cidr ip) (s_internalCIDRs s).

Definition mergedSSRFCIDRs (s : Scanner) : list Cidr.IPNet :=
  match s_core s with
  | None => s_internalCIDRs s
  | Some core => if decide (s_internalCIDRs s = []) then core else core ++ s_internalCIDRs s
  end.

Definition IsIPAllowlisted (s : Scanner) (ip : Net.IP) : bool :=
  if IsNonOverridableSSRFTarget (Some ip) then false else existsb (fun cidr => Cidr.Contains cidr ip) (s_ipAllowlistCIDRs s).

Definition IsTrustedDomain (s : Scanner) (hostname : string) : bool :=
  let hostname := ToLower (Strings.TrimSuffix (Strings.TrimSpace hostname) ".") in
  match Net.ParseIP hostname with
  | Some _ => false
  | None => existsb (MatchDomain hostname) (s_trustedDomains s)
  end.

Definition IsInAPIAllowlist (s : Scanner) (hostname : string) : bool :=
  existsb (MatchDomain (ToLower (Strings.TrimSuffix hostname "."))) (s_rawAPIAllowlist s).

Definition IsDestinationGranted (s : Scanner) (network host : string) (port : Z) : bool :=
  match New unicode_lower network host port with
  | Ok dest => Contains (s_destinationGrants s) dest
  | Err _ => false
  end.

(** A block that the operator's allowlist shows to be a gap in the configuration. *)
Definition classifyMismatch (apiAllowlisted : bool) (label : string) (r : Result) : Result :=
  if apiAllowlisted then with_Class ClassConfigMismatch (with_Hint (HintForScanner label) r) else r.

Definition checkCoreSSRFLiteral (s : Scanner) (dest : Destination) : Result :=
  let hostname := d_Host dest in
  match s_core s with
  | None => allowed
  | Some _ =>
      if decide (s_internalCIDRs s <> []) then allowed
      else
        match ParseIPLiteral hostname with
        | None => allowed
        | Some ip =>
            if IsIPAllowlisted s ip || Contains (s_destinationGrants s) dest then allowed
            else if isCoreCIDRBlocked s ip
            then classifyMismatch (IsInAPIAllowlist s (stripIPv6Zone hostname) || IsInAPIAllowlist s (Net.IP_String ip)) ScannerCoreSSRF
                   (blocked ("core SSRF: " +:+ hostname +:+ " is a private/internal IP address") ScannerCoreSSRF 10)
            else allowed
        end
  end.

Definition contextCancelled : Result := blocked "request context cancelled" ScannerContext 10.

(** The answer of [checkSSRF] for a host that is an address. *)
Definition checkSSRFLiteral (s : Scanner) (dest : Destination) (literalIP : Net.IP) : Result :=
  let hostname := d_Host dest in
  if IsNonOverridableSSRFTarget (Some literalIP) then
    if IsCloudMetadataIP literalIP
    then blocked ("SSRF blocked: " +:+ hostname +:+ " is a cloud metadata endpoint") ScannerSSRFMetadata 10
    else blocked ("SSRF blocked: " +:+ hostname +:+ " is a non-overridable internal IP") ScannerSSRF 10
  else if existsb (fun cidr => Cidr.Contains cidr literalIP && negb (IsIPAllowlisted s literalIP) &&
                               negb (Contains (s_destinationGrants s) dest)) (mergedSSRFCIDRs s)
  then classifyMismatch (IsInAPIAllowlist s hostname) ScannerSSRF
         (blocked ("SSRF blocked: " +:+ hostname +:+ " is an internal IP") ScannerSSRF 10)
  else allowed.

(** Its answer for the addresses a name resolved to. *)
Definition checkResolved (s : Scanner) (dest : Destination) (ips : list string) : Result :=
  let hostname := d_Host dest in
  let parsed := ParseResolved ips in
  match FirstFloorHit parsed with
  | Some hit =>
      if IsCloudMetadataIP (ra_IP hit)
      then blocked ("SSRF blocked: " +:+ hostname +:+ " resolves to cloud metadata endpoint " +:+ ra_Display hit) ScannerSSRFMetadata 10
      else blocked ("SSRF blocked: " +:+ hostname +:+ " resolves to non-overridable internal IP " +:+ ra_Display hit) ScannerSSRF 10
  | None =>
      if IsTrustedDomain s hostname then allowed
      else if Contains (s_destinationGrants s) dest then with_IPs ips allowed
      else
        match FirstInternalHit parsed ((fun cidr => Some (Cidr.Contains cidr)) <$> mergedSSRFCIDRs s) (Some (IsIPAllowlisted s)) with
        | Some hit =>
            classifyMismatch (IsInAPIAllowlist s hostname) ScannerSSRF
              (blocked ("SSRF blocked: " +:+ hostname +:+ " resolves to internal IP " +:+ ra_Display hit) ScannerSSRF 10)
        | None => with_IPs ips allowed
        end
  end.

Definition checkSSRF (env : Env) (dest : Destination) : chk Result :=
  s <- Chk.scanner ;;
  if e_ctxErr env AtSSRF then Chk.ret contextCancelled
  else if decide (s_internalCIDRs s = [] /\ GrantSet_Len (s_destinationGrants s) = 0) then Chk.ret allowed
  else
    match ParseIPLiteral (d_Host dest) with
    | Some literalIP => Chk.ret (checkSSRFLiteral s dest literalIP)
    | None =>
        let '(answer, upstream) := LookupHost (s_overrides s) (e_upstream env) (d_Host dest) in
        (if upstream then Chk.lookup (d_Host dest) else Chk.ret tt) ;;
        match answer with
        | Ok ips => Chk.ret (checkResolved s dest ips)
        | Err err =>
            if e_ctxErr env AfterLookup then Chk.ret (with_Hint (HintForScanner ScannerContext) contextCancelled)
            else let '(kind, reason) := classifyDNSError (d_Host dest) err in
                 Chk.ret (with_DNSErrorKind kind (with_Class ClassInfrastructureError (blocked reason ScannerSSRF 10)))
        end
    end.

(** *** Limits *)

Definition baseDomain (hostname : string) : string :=
  match Net.ParseIP hostname with
  | Some _ => hostname
  | None => match EffectiveTLDPlusOne hostname with Some etld1 => etld1 | None => hostname end
  end.

Definition checkRateLimit (env : Env) (hostname : string) : chk Result :=
  s <- Chk.scanner ;;
  match s_rateLimiter s with
  | None => Chk.ret allowed
  | Some rl =>
      let '(ok, rl) := Rate.CheckAndRecord (baseDomain hostname) (e_rateNow env) rl in
      Chk.set (with_rateLimiter rl) ;;
      Chk.ret (if ok then allowed
               else with_Class ClassProtective (blocked ("rate limit exceeded for " +:+ hostname) ScannerRateLimit 7))
  end.

Definition checkDataBudget (env : Env) (hostname : string) : chk Result :=
  s <- Chk.scanner ;;
  match s_dataBudget s with
  | None => Chk.ret allowed
  | Some db =>
      let '(ok, db) := Budget.IsAllowed (baseDomain hostname) (e_budgetNow env) db in
      Chk.set (with_dataBudget db) ;;
      Chk.ret (if ok then allowed else blocked ("data budget exceeded for " +:+ hostname) ScannerDataBudget 8)
  end.

Definition RecordRequest (hostname : string) (dataBytes now : Z) (s : Scanner) : Scanner :=
  match s_dataBudget s with
  | Some db => if decide (0 < dataBytes) then with_dataBudget (Budget.Record_ (baseDomain hostname) dataBytes now db) s else s
  | None => s
  end.
End checks.

(** ** Scanning *)

Section scan.
Context (unicode_lower : string -> string).
Context (EffectiveTLDPlusOne : string -> option string).
Context (HintForScanner : string -> string).
Context (HintForBlock : Result -> string).
Context (urlParse : string -> option Url.URL).

Notation ToLower := (Strings.ToLower unicode_lower).

(** A double quote. *)
Definition quote : string := String "034" "".

(** The deferred function of [scan]. *)
Definition attach (sigV4 : SigV4.sigV4Detection) (dlpWarns : list WarnMatch) (result : Result) : Result :=
  let result := if SigV4.sd_Valid sigV4 && res_Allowed result && bool_decide (res_Class result = ClassThreat)
                then with_Class ClassStructuralExemption result else result in
  let dlpWarns := if SigV4.sd_Valid sigV4 && res_Allowed result && bool_decide (SigV4.sigV4LongExpiryThreshold < SigV4.sd_Expires sigV4)
                  then dlpWarns ++ [{| w_PatternName := SigV4.WarnPatternSigV4LongExpiry; w_Severity := "info" |}] else dlpWarns in
  with_Warns dlpWarns result.

(** From the entropy checks on: everything that the deferred function covers. *)
Definition afterDLP (env : Env) (scanURL : Url.URL) (hostname : string) (dest : Destination) : chk Result :=
  s <- Chk.scanner ;;
  Chk.guard (checkEntropy (s_content s) scanURL) ;;
  Chk.guard (checkSubdomainEntropy (s_content s) hostname) ;;
  ssrfResult <- checkSSRF unicode_lower HintForScanner env dest ;;
  Chk.guard ssrfResult ;;
  limited <- checkRateLimit EffectiveTLDPlusOne env hostname ;;
  Chk.guard limited ;;
  budget <- checkDataBudget EffectiveTLDPlusOne env hostname ;;
  Chk.guard budget ;;
  if e_ctxErr env AtEnd then Chk.ret contextCancelled
  else Chk.ret {| res_Allowed := true; res_Reason := ""; res_Scanner := ScannerAll; res_Hint := ""; res_Score := F64.zero;
                  res_Class := ClassThreat; res_DNSErrorKind := ""; res_SSRFResolvedIPs := res_SSRFResolvedIPs ssrfResult;
                  res_WarnMatches := [] |}.

(** From the DLP checks on, for a URL that passed the checks of its form. *)
Definition scanContent (env : Env) (parsed : Url.URL) (hostname : string) (dest : Destination) : chk Result :=
  s <- Chk.scanner ;;
  let sigV4 := SigV4.detectValidSigV4 unicode_lower parsed in
  let scanURL := if SigV4.sd_Valid sigV4 then SigV4.scrubSigV4Credential parsed (SigV4.sd_KeyID sigV4) else parsed in
  Chk.guard (checkCoreDLP (s_content s) scanURL) ;;
  let '(dlpResult, dlpWarns) := checkDLP (s_content s) scanURL in
  let dlpWarns := deduplicateWarnMatches dlpWarns in
  if negb (res_Allowed dlpResult) then Chk.ret (with_Warns dlpWarns dlpResult)
  else Chk.finally (attach sigV4 dlpWarns) (afterDLP env scanURL hostname dest).

Definition scan (env : Env) (rawURL : string) : chk Result :=
  s <- Chk.scanner ;;
  Chk.guard (if decide (0 < s_maxURLLength s /\ s_maxURLLength s < Z.of_nat (String.length rawURL))
             then blocked ("URL length " +:+ pretty (String.length rawURL) +:+ " exceeds maximum " +:+ pretty (s_maxURLLength s))
                    ScannerLength 8
             else allowed) ;;
  match urlParse rawURL with
  | None => Chk.ret (blocked "invalid URL" ScannerParser 10)
  | Some parsed =>
      let '(hostname, parsed) := canonicalHost unicode_lower parsed in
      let scheme := Url.u_Scheme parsed in
      Chk.guard (if decide (scheme <> "http" /\ scheme <> "https")
                 then blocked ("scheme " +:+ quote +:+ scheme +:+ quote +:+ " not allowed: only http and https") ScannerScheme 10
                 else allowed) ;;
      match urlDestination unicode_lower parsed hostname with
      | None => Chk.ret (blocked "invalid destination port" ScannerParser 10)
      | Some dest =>
          Chk.guard (checkCRLF unicode_lower rawURL) ;;
          Chk.guard (checkPathTraversal unicode_lower parsed) ;;
          Chk.guard (checkAllowlist unicode_lower s dest) ;;
          Chk.guard (checkBlocklist unicode_lower s hostname) ;;
          Chk.guard (checkCoreSSRFLiteral unicode_lower HintForScanner s dest) ;;
          scanContent env parsed hostname dest
      end
  end.

(** The verdict of a computation, from a scanner: the result, the scanner after it
    and the names it sent to the upstream resolver. *)
Definition verdict (m : chk Result) (s : Scanner) : Result * Scanner * list string :=
  match m (s, []) with
  | (Ok r, (s', asked)) | (Err r, (s', asked)) => (r, s', asked)
  end.

Definition Scan (env : Env) (rawURL : string) (s : Scanner) : Result * Scanner * list string :=
  if e_ctxNil env || e_ctxErr env AtStart
  then (with_Hint (HintForScanner ScannerContext) (blocked "request context unavailable" ScannerContext 10), s, [])
  else
    let '(r, s', asked) := verdict (scan env rawURL) s in
    (if negb (res_Allowed r) && bool_decide (res_Hint r = "") then with_Hint (HintForBlock r) r else r, s', asked).

(** ** Construction *)

Definition parseCIDRs (what : string) (cidrs : list string) : result (list Cidr.IPNet) string :=
  foldr (fun cidr rest =>
    match Cidr.ParseCIDR cidr with
    | Some n => match rest with Ok ns => Ok (n :: ns) | Err e => Err e end
    | None => Err ("parse " +:+ what +:+ " CIDR " +:+ quote +:+ cidr +:+ quote)
    end) (Ok []) cidrs.

(** [content] is what the compilation of the patterns gives, [files] what the loading
    of the secrets file and the response patterns gives. The text of a wrapped error
    is left out. *)
Definition NewWithOptions (content : result ContentChecks string) (files : result unit string) (cfg : ScanConfig)
    (grants : GrantSet) (now : Z) : result Scanner string :=
  checks <-? content;
  internal <-? parseCIDRs "internal" (sc_Internal cfg);
  ipAllowlist <-? parseCIDRs "SSRF IP allowlist" (sc_IPAllowlist cfg);
  check files;
  Ok {| s_core := Some Cidr.coreCIDRs;
        s_allowlist := if decide (sc_Mode cfg = ModeStrict) then sc_APIAllowlist cfg else [];
        s_blocklist := mo_Blocklist (sc_Monitoring cfg);
        s_maxURLLength := mo_MaxURLLength (sc_Monitoring cfg);
        s_internalCIDRs := internal;
        s_ipAllowlistCIDRs := ipAllowlist;
        s_trustedDomains := sc_TrustedDomains cfg;
        s_destinationGrants := grants;
        s_rawAPIAllowlist := sc_APIAllowlist cfg;
        s_rateLimiter := if decide (0 < mo_MaxReqPerMinute (sc_Monitoring cfg))
                         then Some (Rate.NewRateLimiter (mo_MaxReqPerMinute (sc_Monitoring cfg)) now) else None;
        s_dataBudget := if decide (0 < mo_MaxDataPerMinute (sc_Monitoring cfg))
                        then Some (Budget.NewDataBudget (mo_MaxDataPerMinute (sc_Monitoring cfg)) now) else None;
        s_overrides := NewStaticOverrideResolver unicode_lower (sc_HostOverrides cfg);
        s_content := checks |}.
End scan.

(** ** What a scan runs through *)

Lemma guard_run {A} r (k : unit -> chk A) st :
  Chk.bind (Chk.guard r) k st = if res_Allowed r then k tt st else (Err r, st).
Proof. unfold Chk.bind, Chk.guard. by destruct (res_Allowed r). Qed.

Lemma scanner_run {A} (k : Scanner -> chk A) st : Chk.bind Chk.scanner k st = k st.1 st.
Proof. done. Qed.

Section runs.
Context (unicode_lower : string -> string).
Context (EffectiveTLDPlusOne : string -> option string).
Context (HintForScanner : string -> string).
Context (HintForBlock : Result -> string).
Context (urlParse : string -> option Url.URL).

Notation checkSSRF := (checkSSRF unicode_lower HintForScanner).
Notation checkRateLimit := (checkRateLimit EffectiveTLDPlusOne).
Notation checkDataBudget := (checkDataBudget EffectiveTLDPlusOne).
Notation afterDLP := (afterDLP unicode_lower EffectiveTLDPlusOne HintForScanner).
Notation scanContent := (scanContent unicode_lower EffectiveTLDPlusOne HintForScanner).
Notation scan := (scan unicode_lower EffectiveTLDPlusOne HintForScanner urlParse).
Notation Scan := (Scan unicode_lower EffectiveTLDPlusOne HintForScanner HintForBlock urlParse).

(** Whether the addresses of destinations are checked at all. *)
Definition ssrfActive (s : Scanner) : bool :=
  negb (bool_decide (s_internalCIDRs s = [] /\ GrantSet_Len (s_destinationGrants s) = 0)).

(** What the resolver is asked, and what it answers, for a destination that is a name. *)
Definition resolution (env : Env) (s : Scanner) (dest : Destination) : result (list string) LookupError * bool :=
  LookupHost unicode_lower (s_overrides s) (e_upstream env) (d_Host dest).

(** The verdict of [checkSSRF] and the names it sends upstream. *)
Definition ssrfVerdict (env : Env) (s : Scanner) (dest : Destination) : Result :=
  if e_ctxErr env AtSSRF then contextCancelled
  else if negb (ssrfActive s) then allowed
  else match ParseIPLiteral (d_Host dest) with
       | Some ip => checkSSRFLiteral unicode_lower HintForScanner s dest ip
       | None =>
           match (resolution env s dest).1 with
           | Ok ips => checkResolved unicode_lower HintForScanner s dest ips
           | Err err =>
               if e_ctxErr env AfterLookup then with_Hint (HintForScanner ScannerContext) contextCancelled
               else with_DNSErrorKind (classifyDNSError (d_Host dest) err).1
                      (with_Class ClassInfrastructureError (blocked (classifyDNSError (d_Host dest) err).2 ScannerSSRF 10))
           end
       end.

Definition ssrfAsked (env : Env) (s : Scanner) (dest : Destination) : list string :=
  if negb (e_ctxErr env AtSSRF) && ssrfActive s && bool_decide (ParseIPLiteral (d_Host dest) = None) && (resolution env s dest).2
  then [d_Host dest] else [].

Lemma checkSSRF_run env dest s tr :
  checkSSRF env dest (s, tr) = (Ok (ssrfVerdict env s dest), (s, tr ++ ssrfAsked env s dest)).
Proof.
  unfold Scanner.checkSSRF, ssrfVerdict, ssrfAsked, ssrfActive, resolution. rewrite scanner_run. cbn [fst].
  destruct (e_ctxErr env AtSSRF); cbn [negb andb]; [by rewrite app_nil_r|].
  destruct (decide (s_internalCIDRs s = [] /\ _)) as [Hd|Hd];
    [rewrite bool_decide_eq_true_2 by done|rewrite bool_decide_eq_false_2 by done]; cbn [negb andb]; [by rewrite app_nil_r|].
  destruct (ParseIPLiteral (d_Host dest)) as [ip|]; [by rewrite bool_decide_eq_false_2, app_nil_r by done|].
  rewrite bool_decide_eq_true_2 by done. cbn [andb].
  destruct (LookupHost _ _ _ _) as [answer []]; destruct answer as [ips|err]; cbn [fst snd]; rewrite ?app_nil_r; try reflexivity;
    (destruct (e_ctxErr env AfterLookup); [reflexivity|]; destruct (classifyDNSError _ _); reflexivity).
Qed.

(** The limiter's answer, and the scanner it leaves. *)
Definition rateOk (env : Env) (hostname : string) (s : Scanner) : bool :=
  match s_rateLimiter s with
  | None => true
  | Some rl => (Rate.CheckAndRecord (baseDomain EffectiveTLDPlusOne hostname) (e_rateNow env) rl).1
  end.

Definition rateNext (env : Env) (hostname : string) (s : Scanner) : Scanner :=
  match s_rateLimiter s with
  | None => s
  | Some rl => with_rateLimiter (Rate.CheckAndRecord (baseDomain EffectiveTLDPlusOne hostname) (e_rateNow env) rl).2 s
  end.

Definition rateVerdict (env : Env) (hostname : string) (s : Scanner) : Result :=
  if rateOk env hostname s then allowed
  else with_Class ClassProtective (blocked ("rate limit exceeded for " +:+ hostname) ScannerRateLimit 7).

Lemma checkRateLimit_run env hostname s tr :
  checkRateLimit env hostname (s, tr) = (Ok (rateVerdict env hostname s), (rateNext env hostname s, tr)).
Proof.
  unfold Scanner.checkRateLimit, rateVerdict, rateOk, rateNext. rewrite scanner_run. cbn [fst].
  destruct (s_rateLimiter s) as [rl|]; [|done]. destruct (Rate.CheckAndRecord _ _ rl) as [ok rl']. by destruct ok.
Qed.

Definition budgetOk (env : Env) (hostname : string) (s : Scanner) : bool :=
  match s_dataBudget s with
  | None => true
  | Some db => (Budget.IsAllowed (baseDomain EffectiveTLDPlusOne hostname) (e_budgetNow env) db).1
  end.

Definition budgetNext (env : Env) (hostname : string) (s : Scanner) : Scanner :=
  match s_dataBudget s with
  | None => s
  | Some db => with_dataBudget (Budget.IsAllowed (baseDomain EffectiveTLDPlusOne hostname) (e_budgetNow env) db).2 s
  end.

Definition budgetVerdict (env : Env) (hostname : string) (s : Scanner) : Result :=
  if budgetOk env hostname s then allowed else blocked ("data budget exceeded for " +:+ hostname) ScannerDataBudget 8.

Lemma checkDataBudget_run env hostname s tr :
  checkDataBudget env hostname (s, tr) = (Ok (budgetVerdict env hostname s), (budgetNext env hostname s, tr)).
Proof.
  unfold Scanner.checkDataBudget, budgetVerdict, budgetOk, budgetNext. rewrite scanner_run. cbn [fst].
  destruct (s_dataBudget s) as [db|]; [|done]. destruct (Budget.IsAllowed _ _ db) as [ok db']. by destruct ok.
Qed.

(** [allowedAfter]: the verdict of a computation is to allow. *)
Definition accepts (m : chk Result) (st : Scanner * list string) : bool :=
  match (m st).1 with Ok r | Err r => res_Allowed r end.

Lemma accepts_guard r k st : accepts (Chk.bind (Chk.guard r) k) st = res_Allowed r && accepts (k tt) st.
Proof. unfold accepts. rewrite guard_run. by destruct (res_Allowed r) eqn:E; [|cbn; rewrite E]. Qed.

Lemma accepts_scanner k st : accepts (Chk.bind Chk.scanner k) st = accepts (k st.1) st.
Proof. done. Qed.

Lemma accepts_ret r st : accepts (Chk.ret r) st = res_Allowed r.
Proof. done. Qed.

Lemma accepts_run {A} (m : chk A) k st a st' : m st = (Ok a, st') -> accepts (Chk.bind m k) st = accepts (k a) st'.
Proof. intros H. unfold accepts, Chk.bind. by rewrite H. Qed.

Lemma attach_Allowed d ws r : res_Allowed (attach d ws r) = res_Allowed r.
Proof. unfold attach. cbv zeta. destruct (_ && _ && _), (_ && _ && _); done. Qed.

Lemma accepts_finally f m st : (forall r, res_Allowed (f r) = res_Allowed r) -> accepts (Chk.finally f m) st = accepts m st.
Proof. intros Hf. unfold accepts, Chk.finally. destruct (m st) as [[r|r] st']; apply Hf. Qed.

Lemma accepts_afterDLP env u h dest s tr :
  accepts (afterDLP env u h dest) (s, tr) =
    res_Allowed (checkEntropy (s_content s) u) && res_Allowed (checkSubdomainEntropy (s_content s) h) &&
    res_Allowed (ssrfVerdict env s dest) && rateOk env h s && budgetOk env h (rateNext env h s) && negb (e_ctxErr env AtEnd).
Proof.
  unfold Scanner.afterDLP. rewrite accepts_scanner, !accepts_guard, (accepts_run _ _ _ _ _ (checkSSRF_run env dest s tr)), accepts_guard,
    (accepts_run _ _ _ _ _ (checkRateLimit_run env h s _)), accepts_guard, (accepts_run _ _ _ _ _ (checkDataBudget_run env h _ _)), accepts_guard.
  cbn [fst]. assert (res_Allowed (rateVerdict env h s) = rateOk env h s) as -> by (unfold rateVerdict; by destruct (rateOk env h s)).
  set (s1 := rateNext env h s). assert (res_Allowed (budgetVerdict env h s1) = budgetOk env h s1) as -> by (unfold budgetVerdict; by destruct (budgetOk env h s1)).
  rewrite !andb_assoc. f_equal. by destruct (e_ctxErr env AtEnd).
Qed.

(** The copy of the URL that the content checks see. *)
Definition scanned (parsed : Url.URL) : Url.URL :=
  let sigV4 := SigV4.detectValidSigV4 unicode_lower parsed in
  if SigV4.sd_Valid sigV4 then SigV4.scrubSigV4Credential parsed (SigV4.sd_KeyID sigV4) else parsed.

(** The content checks that come before any lookup. *)
Definition contentOk (s : Scanner) (u : Url.URL) (hostname : string) : bool :=
  res_Allowed (checkCoreDLP (s_content s) u) && res_Allowed (checkDLP (s_content s) u).1 &&
  res_Allowed (checkEntropy (s_content s) u) && res_Allowed (checkSubdomainEntropy (s_content s) hostname).

Lemma accepts_scanContent env parsed h dest s tr :
  accepts (scanContent env parsed h dest) (s, tr) =
    contentOk s (scanned parsed) h && res_Allowed (ssrfVerdict env s dest) && rateOk env h s && budgetOk env h (rateNext env h s) &&
    negb (e_ctxErr env AtEnd).
Proof.
  unfold Scanner.scanContent, contentOk. rewrite accepts_scanner. cbv zeta. rewrite accepts_guard. cbn [fst]. fold (scanned parsed).
  destruct (checkDLP (s_content s) (scanned parsed)) as [dlp ws]. cbn [fst].
  destruct (res_Allowed dlp) eqn:Ed; cbn [negb].
  - rewrite accepts_finally by apply attach_Allowed. rewrite accepts_afterDLP. by rewrite andb_true_r, !andb_assoc.
  - rewrite accepts_ret. cbn [with_Warns res_Allowed]. by rewrite Ed, !andb_false_r.
Qed.

(** The checks of the form of the URL and of its destination, before its content. *)
Definition formOk (s : Scanner) (rawURL : string) (parsed : Url.URL) (hostname : string) (dest : Destination) : bool :=
  bool_decide (Url.u_Scheme parsed = "http" \/ Url.u_Scheme parsed = "https") && res_Allowed (checkCRLF unicode_lower rawURL) &&
  res_Allowed (checkPathTraversal unicode_lower parsed) && res_Allowed (checkAllowlist unicode_lower s dest) &&
  res_Allowed (checkBlocklist unicode_lower s hostname) && res_Allowed (checkCoreSSRFLiteral unicode_lower HintForScanner s dest).

(** How the scanner reads a URL: its host, the URL with that host, the destination. *)
Definition target (rawURL : string) : option (string * Url.URL * Destination) :=
  parsed ← urlParse rawURL;
  let '(hostname, parsed) := canonicalHost unicode_lower parsed in
  dest ← urlDestination unicode_lower parsed hostname;
  Some (hostname, parsed, dest).

Definition lengthOk (s : Scanner) (rawURL : string) : bool :=
  negb (bool_decide (0 < s_maxURLLength s /\ s_maxURLLength s < Z.of_nat (String.length rawURL))).

Lemma accepts_scan env rawURL s tr :
  accepts (scan env rawURL) (s, tr) =
    lengthOk s rawURL &&
    match target rawURL with
    | Some (h, parsed, dest) =>
        formOk s rawURL parsed h dest && contentOk s (scanned parsed) h && res_Allowed (ssrfVerdict env s dest) &&
        rateOk env h s && budgetOk env h (rateNext env h s) && negb (e_ctxErr env AtEnd)
    | None => false
    end.
Proof.
  unfold Scanner.scan, target, lengthOk. rewrite accepts_scanner, accepts_guard. cbn [fst]. f_equal.
  { by destruct (decide (0 < s_maxURLLength s /\ _)) as [H|H]; [rewrite bool_decide_eq_true_2 by done|rewrite bool_decide_eq_false_2 by done]. }
  destruct (urlParse rawURL) as [parsed0|]; [|done]. cbn [mbind option_bind]. destruct (canonicalHost unicode_lower parsed0) as [h parsed].
  rewrite accepts_guard. unfold formOk.
  assert (forall dest, res_Allowed (if decide (Url.u_Scheme parsed <> "http" /\ Url.u_Scheme parsed <> "https") then dest else allowed) =
    (res_Allowed dest || bool_decide (Url.u_Scheme parsed = "http" \/ Url.u_Scheme parsed = "https"))) as Hs.
  { intros r. destruct (decide _) as [H|H]; [rewrite bool_decide_eq_false_2 by tauto; by rewrite orb_false_r|].
    rewrite bool_decide_eq_true_2; [by rewrite orb_true_r|]. destruct (decide (Url.u_Scheme parsed = "http")); [by left|right].
    destruct (decide (Url.u_Scheme parsed = "https")); [done|tauto]. }
  rewrite Hs. cbn [blocked res_Allowed orb]. destruct (urlDestination unicode_lower parsed h) as [dest|]; [|by rewrite andb_false_r].
  cbn [mbind option_bind]. rewrite !accepts_guard, accepts_scanContent, !andb_assoc. done.
Qed.

Lemma verdict_accepts m s : res_Allowed (verdict m s).1.1 = accepts m (s, []).
Proof. unfold verdict, accepts. by destruct (m (s, [])) as [[r|r] [s' asked]]. Qed.

(** The URLs that are allowed, as a conjunction of the checks. *)
Lemma Scan_allowed env rawURL s :
  res_Allowed (Scan env rawURL s).1.1 = true <->
  e_ctxNil env = false /\ e_ctxErr env AtStart = false /\ e_ctxErr env AtEnd = false /\ lengthOk s rawURL = true /\
  exists h parsed dest,
    target rawURL = Some (h, parsed, dest) /\ formOk s rawURL parsed h dest = true /\ contentOk s (scanned parsed) h = true /\
    res_Allowed (ssrfVerdict env s dest) = true /\ rateOk env h s = true /\ budgetOk env h (rateNext env h s) = true.
Proof.
  unfold Scanner.Scan. destruct (e_ctxNil env || e_ctxErr env AtStart) eqn:Ec.
  { split; [done|]. intros (E1 & E2 & _). by rewrite E1, E2 in Ec. }
  apply orb_false_iff in Ec as [E1 E2]. pose proof (verdict_accepts (scan env rawURL) s) as Hv.
  destruct (verdict (scan env rawURL) s) as [[r s'] asked]. cbn [fst] in *.
  assert (res_Allowed (if negb (res_Allowed r) && bool_decide (res_Hint r = "") then with_Hint (HintForBlock r) r else r) = res_Allowed r) as ->
    by (by destruct (negb _ && _)).
  rewrite Hv, accepts_scan, andb_true_iff. split.
  - intros [Hl H]. split_and!; [done|done| |done|].
    + destruct (target rawURL) as [[[h parsed] dest]|]; [|done]. rewrite !andb_true_iff in H. apply negb_true_iff. tauto.
    + destruct (target rawURL) as [[[h parsed] dest]|]; [|done]. rewrite !andb_true_iff in H. exists h, parsed, dest. tauto.
  - intros (_ & _ & E3 & Hl & h & parsed & dest & -> & H1 & H2 & H3 & H4 & H5). split; [done|]. by rewrite H1, H2, H3, H4, H5, E3.
Qed.

(** ** The effects of a scan *)

Definition leaves (m : chk Result) (st : Scanner * list string) : Scanner * list string := (m st).2.

Lemma leaves_guard r k st : leaves (Chk.bind (Chk.guard r) k) st = if res_Allowed r then leaves (k tt) st else st.
Proof. unfold leaves. rewrite guard_run. by destruct (res_Allowed r). Qed.

Lemma leaves_scanner k st : leaves (Chk.bind Chk.scanner k) st = leaves (k st.1) st.
Proof. done. Qed.

Lemma leaves_run {A} (m : chk A) k st a st' : m st = (Ok a, st') -> leaves (Chk.bind m k) st = leaves (k a) st'.
Proof. intros H. unfold leaves, Chk.bind. by rewrite H. Qed.

Lemma leaves_finally f m st : leaves (Chk.finally f m) st = leaves m st.
Proof. unfold leaves, Chk.finally. by destruct (m st) as [[r|r] st']. Qed.

(** The scanner after the limits. *)
Definition limited (env : Env) (h : string) (s : Scanner) : Scanner :=
  if rateOk env h s then budgetNext env h (rateNext env h s) else rateNext env h s.

Lemma leaves_afterDLP env u h dest s tr :
  leaves (afterDLP env u h dest) (s, tr) =
    if res_Allowed (checkEntropy (s_content s) u) && res_Allowed (checkSubdomainEntropy (s_content s) h) then
      (if res_Allowed (ssrfVerdict env s dest) then limited env h s else s, tr ++ ssrfAsked env s dest)
    else (s, tr).
Proof.
  unfold Scanner.afterDLP, limited. rewrite leaves_scanner, leaves_guard. cbn [fst]. destruct (res_Allowed (checkEntropy _ u)); [|done].
  rewrite leaves_guard. destruct (res_Allowed (checkSubdomainEntropy _ h)); [|done]. cbn [andb].
  rewrite (leaves_run _ _ _ _ _ (checkSSRF_run env dest s tr)), leaves_guard. destruct (res_Allowed (ssrfVerdict env s dest)); [|done].
  rewrite (leaves_run _ _ _ _ _ (checkRateLimit_run env h s _)), leaves_guard. unfold rateVerdict at 1.
  destruct (rateOk env h s); [|done]. cbn [allowed res_Allowed].
  rewrite (leaves_run _ _ _ _ _ (checkDataBudget_run env h _ _)), leaves_guard. unfold budgetVerdict at 1.
  destruct (budgetOk env h _); [|done]. cbn [allowed res_Allowed]. by destruct (e_ctxErr env AtEnd).
Qed.

(** Whether a scan comes to the check of the destination, with what. *)
Definition comesToSSRF (env : Env) (rawURL : string) (s : Scanner) : option (string * Destination) :=
  if lengthOk s rawURL then
    '(h, parsed, dest) ← target rawURL;
    if formOk s rawURL parsed h dest && contentOk s (scanned parsed) h then Some (h, dest) else None
  else None.

Lemma leaves_scan env rawURL s tr :
  leaves (scan env rawURL) (s, tr) =
    match comesToSSRF env rawURL s with
    | Some (h, dest) => (if res_Allowed (ssrfVerdict env s dest) then limited env h s else s, tr ++ ssrfAsked env s dest)
    | None => (s, tr)
    end.
Proof.
  unfold Scanner.scan, comesToSSRF, target, lengthOk. rewrite leaves_scanner, leaves_guard. cbn [fst].
  destruct (decide (0 < s_maxURLLength s /\ _)) as [Hl|Hl];
    [rewrite bool_decide_eq_true_2 by done|rewrite bool_decide_eq_false_2 by done]; cbn [negb blocked allowed res_Allowed]; [done|].
  destruct (urlParse rawURL) as [parsed0|]; [|done]. cbn [mbind option_bind]. destruct (canonicalHost unicode_lower parsed0) as [h parsed].
  rewrite leaves_guard. unfold formOk.
  destruct (decide (Url.u_Scheme parsed <> "http" /\ Url.u_Scheme parsed <> "https")) as [Hs|Hs].
  { cbn [blocked res_Allowed]. destruct (urlDestination unicode_lower parsed h); [|done]. cbn [mbind option_bind].
    rewrite bool_decide_eq_false_2 by tauto. done. }
  cbn [allowed res_Allowed]. destruct (urlDestination unicode_lower parsed h) as [dest|]; [|done]. cbn [mbind option_bind].
  rewrite bool_decide_eq_true_2.
  2:{ destruct (decide (Url.u_Scheme parsed = "http")); [by left|right]. destruct (decide (Url.u_Scheme parsed = "https")); [done|tauto]. }
  cbn [andb]. rewrite !leaves_guard. do 5 (destruct (res_Allowed _); [cbn [andb]|done]).
  unfold Scanner.scanContent, contentOk. rewrite leaves_scanner. cbv zeta. rewrite leaves_guard. cbn [fst]. fold (scanned parsed).
  destruct (res_Allowed (checkCoreDLP _ _)); [cbn [andb]|done].
  destruct (checkDLP (s_content s) (scanned parsed)) as [dlp ws]. cbn [fst]. destruct (res_Allowed dlp); cbn [negb andb]; [|done].
  rewrite leaves_finally, leaves_afterDLP. by destruct (_ && _).
Qed.

Lemma verdict_leaves m s : ((verdict m s).1.2, (verdict m s).2) = leaves m (s, []).
Proof. unfold verdict, leaves. by destruct (m (s, [])) as [[r|r] [s' asked]]. Qed.

Lemma Scan_effects env rawURL s :
  ((Scan env rawURL s).1.2, (Scan env rawURL s).2) =
    if e_ctxNil env || e_ctxErr env AtStart then (s, [])
    else match comesToSSRF env rawURL s with
         | Some (h, dest) => (if res_Allowed (ssrfVerdict env s dest) then limited env h s else s, ssrfAsked env s dest)
         | None => (s, [])
         end.
Proof.
  unfold Scanner.Scan. destruct (e_ctxNil env || e_ctxErr env AtStart); [done|].
  pose proof (verdict_leaves (scan env rawURL) s) as H. rewrite leaves_scan in H. cbn [app] in H. rewrite <- H. by destruct (verdict _ s) as [[r s'] asked].
Qed.

(** ** The result of a scan *)

Definition outcome (m : chk Result) (st : Scanner * list string) : Result := match (m st).1 with Ok r | Err r => r end.

Lemma outcome_guard r k st : res_Allowed r = true -> outcome (Chk.bind (Chk.guard r) k) st = outcome (k tt) st.
Proof. intros H. unfold outcome. by rewrite guard_run, H. Qed.

Lemma outcome_stop r k st : res_Allowed r = false -> outcome (Chk.bind (Chk.guard r) k) st = r.
Proof. intros H. unfold outcome. by rewrite guard_run, H. Qed.

Lemma outcome_run {A} (m : chk A) k st a st' : m st = (Ok a, st') -> outcome (Chk.bind m k) st = outcome (k a) st'.
Proof. intros H. unfold outcome, Chk.bind. by rewrite H. Qed.

Lemma outcome_finally f m st : outcome (Chk.finally f m) st = f (outcome m st).
Proof. unfold outcome, Chk.finally. by destruct (m st) as [[r|r] st']. Qed.

(** A URL refused by the check of its destination: that verdict, with the warnings of
    the DLP patterns. *)
Lemma outcome_ssrf env rawURL s h parsed dest :
  lengthOk s rawURL = true -> target rawURL = Some (h, parsed, dest) -> formOk s rawURL parsed h dest = true ->
  contentOk s (scanned parsed) h = true -> res_Allowed (ssrfVerdict env s dest) = false ->
  exists ws, outcome (scan env rawURL) (s, []) = with_Warns ws (ssrfVerdict env s dest).
Proof.
  intros Hl Ht Hf Hc Hv. unfold lengthOk in Hl. apply negb_true_iff, bool_decide_eq_false in Hl. unfold target in Ht.
  unfold formOk in Hf. rewrite !andb_true_iff, bool_decide_eq_true in Hf. destruct Hf as [[[[[F1 F2] F3] F4] F5] F6].
  unfold contentOk in Hc. rewrite !andb_true_iff in Hc. destruct Hc as [[[C1 C2] C3] C4].
  unfold Scanner.scan. rewrite (outcome_run Chk.scanner _ _ s (s, [])) by done. rewrite outcome_guard by (by rewrite decide_False).
  destruct (urlParse rawURL) as [parsed0|]; [|done]. cbn [mbind option_bind] in Ht. destruct (canonicalHost unicode_lower parsed0) as [h0 parsed1].
  destruct (urlDestination unicode_lower parsed1 h0) as [dest0|] eqn:Ed; [|done]. cbn [mbind option_bind] in Ht. injection Ht as -> -> ->.
  rewrite outcome_guard by (rewrite decide_False by tauto; done). rewrite !outcome_guard by done.
  unfold Scanner.scanContent. rewrite (outcome_run Chk.scanner _ _ s (s, [])) by done. cbv zeta. fold (scanned parsed). rewrite outcome_guard by done.
  destruct (checkDLP (s_content s) (scanned parsed)) as [dlp ws] eqn:Edlp. cbn [fst] in C2. rewrite C2. cbn [negb]. rewrite outcome_finally.
  unfold Scanner.afterDLP. rewrite (outcome_run Chk.scanner _ _ s (s, [])) by done. rewrite !outcome_guard by done.
  rewrite (outcome_run _ _ _ _ _ (checkSSRF_run env dest s [])), outcome_stop by done. unfold attach. rewrite Hv, !andb_false_r. cbn [andb]. by eexists.
Qed.

Lemma Scan_outcome env rawURL s :
  e_ctxNil env = false -> e_ctxErr env AtStart = false ->
  let r := outcome (scan env rawURL) (s, []) in
  (Scan env rawURL s).1.1 = if negb (res_Allowed r) && bool_decide (res_Hint r = "") then with_Hint (HintForBlock r) r else r.
Proof.
  intros E1 E2. unfold Scanner.Scan, verdict, outcome. rewrite E1, E2. cbn [orb]. by destruct (scan env rawURL (s, [])) as [[r|r] [s' asked]].
Qed.

(** C22: a resolver that fails closes the door and is no evidence. When a URL has
    passed the checks of its form and content and its name cannot be resolved, the
    request is blocked and nothing is counted against any limit; unless the request
    itself was cancelled meanwhile, the block is an infrastructure error with the
    kind of the failure, which the adaptive score ignores. *)
Theorem lookup_failure env rawURL s h parsed dest err :
  e_ctxNil env = false -> (forall p, p <> AfterLookup -> e_ctxErr env p = false) ->
  lengthOk s rawURL = true -> target rawURL = Some (h, parsed, dest) -> formOk s rawURL parsed h dest = true ->
  contentOk s (scanned parsed) h = true -> ssrfActive s = true -> ParseIPLiteral (d_Host dest) = None ->
  (resolution env s dest).1 = Err err ->
  let '(r, s', _) := Scan env rawURL s in
  res_Allowed r = false /\ s' = s /\
  (if e_ctxErr env AfterLookup
   then res_Scanner r = ScannerContext /\ IsAdaptiveNeutral (summary r) = false
   else res_Scanner r = ScannerSSRF /\ IsAdaptiveNeutral (summary r) = true /\
        (res_DNSErrorKind r, res_Reason r) = classifyDNSError (d_Host dest) err).
Proof.
  intros E1 E2 Hl Ht Hf Hc Hact Hlit Herr.
  assert (e_ctxErr env AtStart = false /\ e_ctxErr env AtSSRF = false) as [ES EF] by (split; by apply E2).
  assert (ssrfVerdict env s dest = if e_ctxErr env AfterLookup then with_Hint (HintForScanner ScannerContext) contextCancelled
    else with_DNSErrorKind (classifyDNSError (d_Host dest) err).1
           (with_Class ClassInfrastructureError (blocked (classifyDNSError (d_Host dest) err).2 ScannerSSRF 10))) as Ev.
  { unfold ssrfVerdict. by rewrite EF, Hact, Hlit, Herr. }
  assert (res_Allowed (ssrfVerdict env s dest) = false) as Hv by (rewrite Ev; by destruct (e_ctxErr env AfterLookup)).
  destruct (outcome_ssrf env rawURL s h parsed dest Hl Ht Hf Hc Hv) as [ws Ho]. pose proof (Scan_outcome env rawURL s E1 ES) as Hr.
  pose proof (Scan_effects env rawURL s) as He. cbv zeta in Hr. rewrite Ho in Hr. unfold comesToSSRF in He.
  rewrite E1, ES, Hl, Ht in He. cbn [orb mbind option_bind] in He. rewrite Hf, Hc in He. cbn [andb] in He. rewrite Hv in He.
  destruct (Scan env rawURL s) as [[r s'] asked]. cbn [fst snd] in *. injection He as -> _. rewrite Hr, Ev. clear.
  set (w := if negb _ && _ then _ else _).
  assert (res_Allowed w = false /\ res_Scanner w = (if e_ctxErr env AfterLookup then ScannerContext else ScannerSSRF) /\
    res_Class w = (if e_ctxErr env AfterLookup then ClassThreat else ClassInfrastructureError) /\
    (e_ctxErr env AfterLookup = false -> (res_DNSErrorKind w, res_Reason w) = classifyDNSError (d_Host dest) err)) as (W1 & W2 & W3 & W4).
  { unfold w. destruct (e_ctxErr env AfterLookup), (negb _ && _); cbn; split_and!; try done; intros _; by destruct (classifyDNSError _ _). }
  split; [done|]. split; [done|]. unfold IsAdaptiveNeutral, summary. cbn [r_Class]. rewrite W3.
  destruct (e_ctxErr env AfterLookup); [done|]. split; [done|]. split; [done|]. by apply W4.
Qed.
End runs.

(** ** The life of a scanner *)

Section life.
Context (unicode_lower : string -> string).
Context (EffectiveTLDPlusOne : string -> option string).
Context (HintForScanner : string -> string).
Context (HintForBlock : Result -> string).
Context (urlParse : string -> option Url.URL).

Notation Scan := (Scan unicode_lower EffectiveTLDPlusOne HintForScanner HintForBlock urlParse).
Notation target := (target unicode_lower urlParse).
Notation ssrfVerdict := (ssrfVerdict unicode_lower HintForScanner).

(** [life t0 s0 t s log]: calls at times that do not decrease lead from a new scanner
    to [s]; the log holds, for each URL that was allowed, the domain its requests are
    counted under and the time. *)
Inductive life (t0 : Z) (s0 : Scanner) : Z -> Scanner -> list (string * Z) -> Prop :=
| life_new : life t0 s0 t0 s0 []
| life_scan t s log env rawURL :
    life t0 s0 t s log -> t <= e_rateNow env ->
    life t0 s0 (e_rateNow env) (Scan env rawURL s).1.2
      (log ++ if res_Allowed (Scan env rawURL s).1.1
              then match target rawURL with
                   | Some (h, _, _) => [(baseDomain EffectiveTLDPlusOne h, e_rateNow env)]
                   | None => [] end
              else [])
| life_record t s log hostname dataBytes now :
    life t0 s0 t s log -> life t0 s0 t (RecordRequest EffectiveTLDPlusOne hostname dataBytes now s) log.

(** What never changes. *)
Definition same_policy (s s' : Scanner) : Prop :=
  s_core s' = s_core s /\ s_internalCIDRs s' = s_internalCIDRs s /\ s_ipAllowlistCIDRs s' = s_ipAllowlistCIDRs s /\
  s_trustedDomains s' = s_trustedDomains s /\ s_destinationGrants s' = s_destinationGrants s.

Lemma limited_policy env h s : same_policy s (limited EffectiveTLDPlusOne env h s).
Proof.
  unfold limited, rateNext, budgetNext, same_policy. destruct (rateOk _ _ _ _), (s_rateLimiter s) eqn:E; cbn; rewrite ?E; repeat case_match; done.
Qed.

Lemma Scan_policy env rawURL s : same_policy s (Scan env rawURL s).1.2.
Proof.
  pose proof (Scan_effects unicode_lower EffectiveTLDPlusOne HintForScanner HintForBlock urlParse env rawURL s) as H.
  apply (f_equal fst) in H. cbn [fst] in H. rewrite H. destruct (_ || _); [done|]. destruct (comesToSSRF _ _ _ _ _ _) as [[h dest]|]; [|done].
  cbn [fst]. destruct (res_Allowed _); [apply limited_policy|done].
Qed.

Lemma life_policy t0 s0 t s log : life t0 s0 t s log -> same_policy s0 s.
Proof.
  induction 1 as [|t s log env rawURL H IH Hle|t s log hostname dataBytes now H IH]; [done| |].
  - pose proof (Scan_policy env rawURL s). unfold same_policy in *. intuition congruence.
  - unfold same_policy, RecordRequest in *. destruct (s_dataBudget s); [|done]. by destruct (decide _).
Qed.

Lemma New_core content files cfg grants now s :
  NewWithOptions unicode_lower content files cfg grants now = Ok s -> s_core s = Some Cidr.coreCIDRs.
Proof.
  unfold NewWithOptions. destruct content; [|done]. destruct (parseCIDRs _ (sc_Internal cfg)); [|done].
  destruct (parseCIDRs _ (sc_IPAllowlist cfg)); [|done]. destruct files; [|done]. by intros <-%Ok_inj.
Qed.

(** ** The floor *)

(** An address in the URL is the address of the destination. *)
Lemma target_literal rawURL parsed0 h parsed dest ip :
  urlParse rawURL = Some parsed0 -> target rawURL = Some (h, parsed, dest) ->
  ParseIPLiteral (Strings.ToLower unicode_lower (Url.Hostname parsed0)) = Some ip -> ParseIPLiteral (d_Host dest) = Some ip.
Proof.
  unfold Scanner.target. intros -> H Hip. cbn [mbind option_bind] in H. pose proof (ParseIPLiteral_ok _ _ Hip) as Hok.
  assert (ParseIPLiteral (canonicalHost unicode_lower parsed0).1 = Some ip) as Hh.
  { unfold canonicalHost. rewrite Hip. destruct (Net.ParseIP _); [done|]. destruct (Net.To4 ip); [|done]. by apply ParseIPLiteral_String. }
  destruct (canonicalHost unicode_lower parsed0) as [h' parsed']. cbn [fst] in Hh.
  destruct (urlDestination unicode_lower parsed' h') as [dest'|] eqn:Ed; [|done]. injection H as <- <- <-.
  unfold urlDestination in Ed. apply bind_Some in Ed as (port & _ & Ed). destruct (Net.ParseUint port 10 16); [|done].
  destruct (decide _); [done|]. destruct (New _ _ _ _) as [d|] eqn:En; [|done]. injection Ed as <-.
  apply New_Ok in En as (_ & _ & _ & _ & ->). rewrite (NormalizeHost_literal _ _ _ Hh). by apply ParseIPLiteral_String.
Qed.

Lemma Contains_floor gs dest ip :
  ParseIPLiteral (d_Host dest) = Some ip -> IsNonOverridableSSRFTarget (Some ip) = true -> Contains gs dest = false.
Proof. intros Hl Hf. unfold Contains, Evaluate, isFloorHost. by rewrite Hl, Hf. Qed.

Lemma core_literal_floor s dest ip :
  s_core s = Some Cidr.coreCIDRs -> s_internalCIDRs s = [] -> ParseIPLiteral (d_Host dest) = Some ip ->
  IsNonOverridableSSRFTarget (Some ip) = true -> res_Allowed (checkCoreSSRFLiteral unicode_lower HintForScanner s dest) = false.
Proof.
  intros Hc Hi Hl Hf. unfold checkCoreSSRFLiteral. rewrite Hc, Hi, decide_False, Hl by tauto. unfold IsIPAllowlisted. rewrite Hf.
  rewrite (Contains_floor _ _ _ Hl Hf). cbn [orb]. unfold isCoreCIDRBlocked. rewrite Hc.
  pose proof (ParseIPLiteral_ok _ _ Hl) as Hok. rewrite Cidr.canonical_id by done.
  pose proof (Cidr.floor_in_core ip Hok Hf) as Hin. unfold Cidr.in_core in Hin. rewrite Hin. unfold classifyMismatch. by destruct (_ || _).
Qed.

(** C8: no configuration lets a request through to an address of the floor. Whatever
    the mode, the allowlists, trusted domains, host overrides and grants a scanner
    was built with, even with the checks of internal addresses turned off, and
    whatever it scanned before, a URL whose host spells in any notation a cloud
    metadata, link-local, multicast or unspecified address is not allowed. *)
Theorem floor_never_allowed content files cfg grants now s0 t s log env rawURL parsed ip :
  NewWithOptions unicode_lower content files cfg grants now = Ok s0 -> life now s0 t s log ->
  urlParse rawURL = Some parsed -> ParseIPLiteral (Strings.ToLower unicode_lower (Url.Hostname parsed)) = Some ip ->
  IsNonOverridableSSRFTarget (Some ip) = true ->
  res_Allowed (Scan env rawURL s).1.1 = false.
Proof.
  intros Hnew Hlife Hparse Hip Hfloor. apply not_true_iff_false.
  intros (_ & _ & _ & _ & h & parsed' & dest & Ht & Hform & _ & Hssrf & _)%Scan_allowed.
  pose proof (target_literal _ _ _ _ _ _ Hparse Ht Hip) as Hd.
  assert (s_core s = Some Cidr.coreCIDRs) as Hcore by (rewrite (proj1 (life_policy _ _ _ _ _ Hlife)); by eapply New_core).
  unfold Scanner.ssrfVerdict, ssrfActive in Hssrf. destruct (e_ctxErr env AtSSRF); [done|].
  destruct (decide (s_internalCIDRs s = [])) as [Hi|Hi].
  - unfold formOk in Hform. rewrite (core_literal_floor _ _ _ Hcore Hi Hd Hfloor), !andb_false_r in Hform. done.
  - rewrite bool_decide_eq_false_2 in Hssrf by tauto. cbn [negb] in Hssrf. rewrite Hd in Hssrf. unfold checkSSRFLiteral in Hssrf.
    rewrite Hfloor in Hssrf. by destruct (IsCloudMetadataIP ip).
Qed.

(** ** Internal addresses *)

(** The addresses a destination stands for: its own, or those its name resolves to. *)
Definition addresses (env : Env) (s : Scanner) (dest : Destination) : list Net.IP :=
  match ParseIPLiteral (d_Host dest) with
  | Some ip => [ip]
  | None => match (resolution unicode_lower env s dest).1 with
            | Ok ips => ra_IP <$> ParseResolved ips
            | Err _ => []
            end
  end.

Lemma resolved_ok ips a : a ∈ ParseResolved ips -> Net.ip_ok (ra_IP a).
Proof.
  unfold ParseResolved. intros (raw & _ & H)%list_elem_of_omap. destruct (Net.ParseIP _) as [ip|] eqn:E; [|done]. injection H as <-.
  apply Net.ParseIP_ok in E as [Hl Hb]. by apply Net.canonical_ok.
Qed.

Lemma merged_internal s ip :
  s_core s = Some Cidr.coreCIDRs -> Net.ip_ok ip ->
  existsb (fun cidr => Cidr.Contains cidr ip) (mergedSSRFCIDRs s) = IsInternalIP s ip.
Proof.
  intros Hc Hok. unfold mergedSSRFCIDRs, IsInternalIP, isCoreCIDRBlocked. pose proof (Cidr.canonical_id ip Hok) as E.
  rewrite Hc, !E.
  destruct (decide (s_internalCIDRs s = [])) as [->|]; [by rewrite orb_false_r|apply existsb_app].
Qed.

(** A literal that the scanner lets through. *)
Lemma literal_justified s dest ip :
  s_core s = Some Cidr.coreCIDRs -> Net.ip_ok ip -> res_Allowed (checkSSRFLiteral unicode_lower HintForScanner s dest ip) = true ->
  IsNonOverridableSSRFTarget (Some ip) = false /\
  (IsInternalIP s ip = true -> IsIPAllowlisted s ip = true \/ Contains (s_destinationGrants s) dest = true).
Proof.
  intros Hc Hok. unfold checkSSRFLiteral. destruct (IsNonOverridableSSRFTarget (Some ip)); [by destruct (IsCloudMetadataIP ip)|].
  destruct (existsb _ (mergedSSRFCIDRs s)) eqn:E; [unfold classifyMismatch; by destruct (IsInAPIAllowlist _ _ _)|].
  intros _. split; [done|]. intros Hin. rewrite <- merged_internal in Hin by done.
  apply existsb_exists in Hin as (cidr & Hin & Hcont). rewrite existsb_false, Forall_forall in E.
  specialize (E cidr). rewrite list_elem_of_In in E. specialize (E Hin). rewrite Hcont in E. cbn [andb] in E.
  destruct (IsIPAllowlisted s ip); [by left|right]. by destruct (Contains _ dest).
Qed.

(** Resolved addresses that it lets through. *)
Lemma resolved_justified s dest ips a :
  s_core s = Some Cidr.coreCIDRs -> res_Allowed (checkResolved unicode_lower HintForScanner s dest ips) = true -> a ∈ ParseResolved ips ->
  IsNonOverridableSSRFTarget (Some (ra_IP a)) = false /\
  (IsInternalIP s (ra_IP a) = true ->
   IsIPAllowlisted s (ra_IP a) = true \/ Contains (s_destinationGrants s) dest = true \/ IsTrustedDomain unicode_lower s (d_Host dest) = true).
Proof.
  intros Hc. unfold checkResolved, FirstFloorHit, FirstInternalHit. destruct (list_find _ (ParseResolved ips)) as [[i hit]|] eqn:Ef; cbn [mbind option_bind snd].
  { by destruct (IsCloudMetadataIP _). }
  intros H Ha. apply list_find_None in Ef. rewrite Forall_forall in Ef. split; [by apply not_true_iff_false, Ef|]. intros Hin.
  destruct (IsTrustedDomain _ s (d_Host dest)); [tauto|]. destruct (Contains _ dest); [tauto|]. left.
  destruct (list_find _ (ParseResolved ips)) as [[i hit]|] eqn:Eh in H; cbn [mbind option_bind snd] in H;
    [unfold classifyMismatch in H; by destruct (IsInAPIAllowlist _ _ _)|].
  apply list_find_None in Eh. rewrite Forall_forall in Eh. specialize (Eh a Ha). apply not_true_iff_false in Eh.
  rewrite <- (merged_internal s) in Hin by (done || by eapply resolved_ok). apply existsb_exists in Hin as (cidr & Hin & Hcont).
  rewrite existsb_false, Forall_fmap, Forall_forall in Eh. specialize (Eh cidr). rewrite list_elem_of_In in Eh. specialize (Eh Hin).
  cbn in Eh. rewrite Hcont in Eh. by destruct (IsIPAllowlisted s (ra_IP a)).
Qed.

(** Access to internal addresses is justified by name. While the checks of
    addresses are active, every URL that is allowed names an address or a host that
    the resolver answered for; none of its addresses is on the floor, and each that
    lies in a core or configured internal range is exempted by the address list, by
    a grant for that very destination, or because its name (an address never) is a
    trusted domain. *)
Theorem internal_justified content files cfg grants now s0 t s log env rawURL :
  NewWithOptions unicode_lower content files cfg grants now = Ok s0 -> life now s0 t s log -> ssrfActive s = true ->
  res_Allowed (Scan env rawURL s).1.1 = true ->
  exists h parsed dest,
    target rawURL = Some (h, parsed, dest) /\
    (ParseIPLiteral (d_Host dest) = None -> exists ips, (resolution unicode_lower env s dest).1 = Ok ips) /\
    forall a, a ∈ addresses env s dest ->
      IsNonOverridableSSRFTarget (Some a) = false /\
      (IsInternalIP s a = true ->
       IsIPAllowlisted s a = true \/ Contains (s_destinationGrants s) dest = true \/
       (ParseIPLiteral (d_Host dest) = None /\ IsTrustedDomain unicode_lower s (d_Host dest) = true)).
Proof.
  intros Hnew Hlife Hact (_ & _ & _ & _ & h & parsed & dest & Ht & _ & _ & Hssrf & _)%Scan_allowed.
  assert (s_core s = Some Cidr.coreCIDRs) as Hcore by (rewrite (proj1 (life_policy _ _ _ _ _ Hlife)); by eapply New_core).
  exists h, parsed, dest. split; [done|]. unfold Scanner.ssrfVerdict in Hssrf. destruct (e_ctxErr env AtSSRF); [done|].
  rewrite Hact in Hssrf. cbn [negb] in Hssrf. unfold addresses. destruct (ParseIPLiteral (d_Host dest)) as [ip|] eqn:El.
  - split; [done|]. intros a ->%list_elem_of_singleton.
    destruct (literal_justified s dest ip Hcore (ParseIPLiteral_ok _ _ El) Hssrf) as [Hf Hj]. split; [done|]. intros Hin. specialize (Hj Hin). tauto.
  - destruct (resolution _ env s dest).1 as [ips|err]; [|by destruct (e_ctxErr env AfterLookup)].
    split; [by exists ips|]. intros a (r & -> & Hr)%list_elem_of_fmap.
    destruct (resolved_justified s dest ips r Hcore Hssrf Hr) as [Hf Hj]. split; [done|]. intros Hin. specialize (Hj Hin). tauto.
Qed.

(** ** Lookups and limits come after content *)

(** What a scan does to the world. A host name reaches the upstream resolver only
    when the URL has passed every check of its form and of its content, its secrets
    and the entropy of its labels included, so that nothing is leaked by the lookup;
    at most that one name is asked. And a URL that is refused up to and including
    the check of its addresses leaves the rate limiter and the data budget as they
    were. *)
Theorem effects_after_content env rawURL s :
  let '(r, s', asked) := Scan env rawURL s in
  (asked <> [] -> exists h parsed dest,
     asked = [d_Host dest] /\ target rawURL = Some (h, parsed, dest) /\ lengthOk s rawURL = true /\
     formOk unicode_lower HintForScanner s rawURL parsed h dest = true /\ contentOk s (scanned unicode_lower parsed) h = true /\
     ParseIPLiteral (d_Host dest) = None) /\
  (s' <> s -> exists h parsed dest,
     target rawURL = Some (h, parsed, dest) /\ lengthOk s rawURL = true /\
     formOk unicode_lower HintForScanner s rawURL parsed h dest = true /\ contentOk s (scanned unicode_lower parsed) h = true /\
     res_Allowed (ssrfVerdict env s dest) = true).
Proof.
  pose proof (Scan_effects unicode_lower EffectiveTLDPlusOne HintForScanner HintForBlock urlParse env rawURL s) as H.
  destruct (Scan env rawURL s) as [[r s'] asked]. cbn [fst snd] in H.
  destruct (e_ctxNil env || e_ctxErr env AtStart); [injection H as -> ->; done|]. unfold comesToSSRF in H.
  destruct (lengthOk s rawURL); [|injection H as -> ->; done].
  destruct (target rawURL) as [[[h parsed] dest]|]; [|injection H as -> ->; done]. cbn [mbind option_bind] in H.
  destruct (formOk _ _ s rawURL parsed h dest) eqn:Ef; [|injection H as -> ->; done].
  destruct (contentOk s (scanned unicode_lower parsed) h) eqn:Ec; [|injection H as -> ->; done]. cbn [andb] in H.
  injection H as -> ->. split; intros Hne; exists h, parsed, dest.
  - unfold ssrfAsked in *. destruct (_ && _ && _ && _) eqn:E; [|done]. rewrite !andb_true_iff, bool_decide_eq_true in E. split_and!; (done || tauto).
  - split_and!; try done. by destruct (res_Allowed _).
Qed.

(** ** The rate limit over the life of a scanner *)

Definition onlyChecked (o : Rate.operation) : Prop := exists d, o = Rate.OpCheckAndRecord d.

(** The limiter has a history, and what was allowed is in it. *)
Definition counted (max t0 t : Z) (s : Scanner) (log : list (string * Z)) : Prop :=
  exists rl th h,
    s_rateLimiter s = Some rl /\ th <= t /\ Rate.history onlyChecked t0 (Rate.NewRateLimiter max t0) th rl h /\ log `sublist_of` h.

Lemma budgetNext_limiter env h s : s_rateLimiter (budgetNext EffectiveTLDPlusOne env h s) = s_rateLimiter s.
Proof. unfold budgetNext. by destruct (s_dataBudget s). Qed.

Lemma limited_limiter env h s rl :
  s_rateLimiter s = Some rl ->
  s_rateLimiter (limited EffectiveTLDPlusOne env h s) =
    Some (Rate.CheckAndRecord (baseDomain EffectiveTLDPlusOne h) (e_rateNow env) rl).2.
Proof. intros E. unfold limited, rateNext. rewrite E. destruct (rateOk _ _ _ _); rewrite ?budgetNext_limiter; done. Qed.

(** One more request at the limiter; what it let through may be logged. *)
Lemma counted_limited max t0 t s log env h :
  counted max t0 t s log -> t <= e_rateNow env ->
  counted max t0 (e_rateNow env) (limited EffectiveTLDPlusOne env h s) log /\
  (rateOk EffectiveTLDPlusOne env h s = true ->
   counted max t0 (e_rateNow env) (limited EffectiveTLDPlusOne env h s) (log ++ [(baseDomain EffectiveTLDPlusOne h, e_rateNow env)])).
Proof.
  intros (rl & th & hist & Erl & Hth & Hh & Hsub) Hle. pose proof (limited_limiter env h s rl Erl) as El.
  set (d := baseDomain EffectiveTLDPlusOne h) in *.
  assert (Rate.history onlyChecked t0 (Rate.NewRateLimiter max t0) (e_rateNow env) (Rate.CheckAndRecord d (e_rateNow env) rl).2
            (hist ++ if (Rate.CheckAndRecord d (e_rateNow env) rl).1 then [(d, e_rateNow env)] else [])) as Hh'.
  { apply (Rate.history_step _ _ _ th rl hist (e_rateNow env) (Rate.OpCheckAndRecord d)); [done|by exists d|lia]. }
  split; [|unfold rateOk; rewrite Erl; fold d; intros Eok; rewrite Eok in Hh'].
  - eexists _, _, _. split_and!; [exact El|reflexivity|exact Hh'|by apply sublist_inserts_r].
  - eexists _, _, _. split_and!; [exact El|reflexivity|exact Hh'|by apply sublist_app].
Qed.

Lemma counted_later max t0 t t' s log : counted max t0 t s log -> t <= t' -> counted max t0 t' s log.
Proof. intros (rl & th & h & ? & ? & ? & ?) Hle. exists rl, th, h. split_and!; (done || lia). Qed.

Lemma counted_scan max t0 t s log env rawURL :
  counted max t0 t s log -> t <= e_rateNow env ->
  counted max t0 (e_rateNow env) (Scan env rawURL s).1.2
    (log ++ if res_Allowed (Scan env rawURL s).1.1
            then match target rawURL with Some (h, _, _) => [(baseDomain EffectiveTLDPlusOne h, e_rateNow env)] | None => [] end
            else []).
Proof.
  intros Hc Hle. pose proof (Scan_effects unicode_lower EffectiveTLDPlusOne HintForScanner HintForBlock urlParse env rawURL s) as H.
  apply (f_equal fst) in H. cbn [fst] in H.
  destruct (res_Allowed (Scan env rawURL s).1.1) eqn:Ea.
  - apply Scan_allowed in Ea as (E1 & E2 & _ & Hl & h & parsed & dest & Ht & Hf & Hct & Hs & Hr & _).
    rewrite E1, E2 in H. cbn [orb] in H. unfold comesToSSRF in H. rewrite Hl, Ht in H. cbn [mbind option_bind] in H.
    rewrite Hf, Hct in H. cbn [andb] in H. rewrite Hs in H. cbn [fst] in H. rewrite H, Ht.
    by apply (counted_limited _ _ _ _ _ env h Hc Hle).
  - rewrite app_nil_r, H. destruct (_ || _); [by eapply counted_later|].
    destruct (comesToSSRF _ _ _ _ _ _) as [[h dest]|]; [|by eapply counted_later]. cbn [fst].
    destruct (res_Allowed _); [|by eapply counted_later]. by apply (counted_limited _ _ _ _ _ env h Hc Hle).
Qed.

Lemma life_counted max t0 s0 t s log :
  s_rateLimiter s0 = Some (Rate.NewRateLimiter max t0) -> life t0 s0 t s log -> counted max t0 t s log.
Proof.
  intros E0 H. induction H as [|t s log env rawURL H IH Hle|t s log hostname dataBytes now H IH].
  - eexists _, _, _. split_and!; [exact E0|reflexivity|apply Rate.history_nil|done].
  - by apply (counted_scan _ _ t).
  - unfold RecordRequest. destruct (s_dataBudget s); [|done]. by destruct (decide _).
Qed.

Lemma requestsIn_sublist d u log h : log `sublist_of` h -> (Rate.requestsIn d u log <= Rate.requestsIn d u h)%nat.
Proof.
  intros H. unfold Rate.requestsIn, Window.entriesOf. apply sublist_length.
  by apply sublist_filter_mono, sublist_fmap_mono, sublist_filter_mono.
Qed.

End life.

(** ** A concrete scanner *)

Definition demo_parse (raw : string) : option Url.URL :=
  match Strings.CutPrefix raw "http://" with
  | Some rest =>
      match Strings.Cut rest "/" with
      | Some (host, path) =>
          Some {| Url.u_Scheme := "http"; Url.u_Opaque := ""; Url.u_User := ""; Url.u_Host := host; Url.u_Path := String "/" path;
                  Url.u_RawPath := ""; Url.u_RawQuery := ""; Url.u_Fragment := "" |}
      | None => None
      end
  | None => None
  end.

(** The registrable domain of names under [example]. *)
Definition demo_etld1 (host : string) : option string :=
  if Strings.HasSuffix host ".evil.example" then Some "evil.example" else None.

(** Content checks that refuse a path with a secret in it. *)
Definition demo_content : ContentChecks :=
  {| checkCoreDLP := fun u => if Strings.Contains (Url.u_Path u) "secret" then blocked "secret" "core_dlp" 10 else allowed;
     checkDLP := fun _ => (allowed, []); checkEntropy := fun _ => allowed; checkSubdomainEntropy := fun _ => allowed |}.

Definition demo_config : ScanConfig :=
  {| sc_Mode := "balanced"; sc_APIAllowlist := []; sc_Internal := ["10.0.0.0/8"]; sc_TrustedDomains := ["*.corp.example"];
     sc_IPAllowlist := ["169.254.0.0/16"; "127.0.0.1/32"]; sc_HostOverrides := [("App.corp.example.", ["10.1.1.1"])];
     sc_Monitoring := {| mo_MaxURLLength := 100; mo_MaxReqPerMinute := 1; mo_MaxDataPerMinute := 1000; mo_Blocklist := [] |} |}.

Definition demo_new : result Scanner string := NewWithOptions id (Ok demo_content) (Ok tt) demo_config ∅ 0.

Definition demo_timeout : LookupError :=
  LookupDNS {| dns_Err := "i/o"; dns_IsTimeout := true; dns_IsTemporary := false; dns_IsNotFound := false |}.

Definition demo_upstream (host : string) : result (list string) LookupError :=
  if decide (host = "rebind.evil.example") then Ok ["93.184.216.34"; "169.254.169.254"]
  else if decide (host = "down.example") then Err demo_timeout
  else Ok ["93.184.216.34"].

Definition demo_env (now : Z) : Env :=
  {| e_ctxNil := false; e_ctxErr := fun _ => false; e_upstream := demo_upstream; e_rateNow := now; e_budgetNow := now |}.

Definition demo_Scan (now : Z) (raw : string) (s : Scanner) : Result * Scanner * list string :=
  Scan id demo_etld1 id res_Scanner demo_parse (demo_env now) raw s.

Definition demo_scanner : Scanner := match demo_new with Ok s => s | Err _ =>
  {| s_core := None; s_allowlist := []; s_blocklist := []; s_maxURLLength := 0; s_internalCIDRs := []; s_ipAllowlistCIDRs := [];
     s_trustedDomains := []; s_destinationGrants := ∅; s_rawAPIAllowlist := []; s_rateLimiter := None; s_dataBudget := None;
     s_overrides := ∅; s_content := demo_content |} end.

Lemma demo_new_Ok : demo_new = Ok demo_scanner.
Proof. reflexivity. Qed.

Lemma floor_never_allowed_witness :
  res_Allowed (demo_Scan 5 "http://0XA9.254.43518:80/latest" demo_scanner).1.1 = false.
Proof.
  exact (floor_never_allowed id demo_etld1 id res_Scanner demo_parse (Ok demo_content) (Ok tt) demo_config ∅ 0 demo_scanner 0 demo_scanner []
    (demo_env 5) "http://0XA9.254.43518:80/latest" _ [169; 254; 169; 254] demo_new_Ok (life_new _ _ _ _ _ _ _)
    eq_refl ltac:(vm_compute; reflexivity) ltac:(vm_compute; reflexivity)).
Defined.

Lemma internal_justified_witness :
  res_Allowed (demo_Scan 5 "http://app.corp.example/" demo_scanner).1.1 = true /\
  exists h parsed dest,
    target id demo_parse "http://app.corp.example/" = Some (h, parsed, dest) /\
    forall a, a ∈ addresses id (demo_env 5) demo_scanner dest -> IsNonOverridableSSRFTarget (Some a) = false.
Proof.
  assert (res_Allowed (demo_Scan 5 "http://app.corp.example/" demo_scanner).1.1 = true) as Ha by (vm_compute; reflexivity).
  split; [exact Ha|].
  destruct (internal_justified id demo_etld1 id res_Scanner demo_parse (Ok demo_content) (Ok tt) demo_config ∅ 0 demo_scanner 0 demo_scanner []
    (demo_env 5) "http://app.corp.example/" demo_new_Ok (life_new _ _ _ _ _ _ _) ltac:(vm_compute; reflexivity) Ha)
    as (h & parsed & dest & Ht & _ & H).
  exists h, parsed, dest. split; [exact Ht|]. intros a Hin. exact (proj1 (H a Hin)).
Defined.


Definition demo_url : Url.URL :=
  {| Url.u_Scheme := "http"; Url.u_Opaque := ""; Url.u_User := ""; Url.u_Host := "down.example"; Url.u_Path := "/";
     Url.u_RawPath := ""; Url.u_RawQuery := ""; Url.u_Fragment := "" |}.
Definition demo_dest : Destination := {| d_Network := "tcp"; d_Host := "down.example"; d_Port := 80 |}.

Lemma lookup_failure_witness :
  let '(r, s', _) := demo_Scan 5 "http://down.example/" demo_scanner in
  res_Allowed r = false /\ s' = demo_scanner /\
  (res_Scanner r = ScannerSSRF /\ IsAdaptiveNeutral (summary r) = true /\
   (res_DNSErrorKind r, res_Reason r) = (DNSErrorTimeout, "DNS lookup for down.example timed out")).
Proof.
  assert (target id demo_parse "http://down.example/" = Some ("down.example", demo_url, demo_dest)) as Ht by (vm_compute; reflexivity).
  assert (formOk id id demo_scanner "http://down.example/" demo_url "down.example" demo_dest = true) as Hf by (vm_compute; reflexivity).
  assert (contentOk demo_scanner (scanned id demo_url) "down.example" = true) as Hc by (vm_compute; reflexivity).
  assert (lengthOk demo_scanner "http://down.example/" = true) as Hl by (vm_compute; reflexivity).
  assert (ssrfActive demo_scanner = true) as Ha by (vm_compute; reflexivity).
  assert (ParseIPLiteral (d_Host demo_dest) = None) as Hn by (vm_compute; reflexivity).
  assert ((resolution id (demo_env 5) demo_scanner demo_dest).1 = Err demo_timeout) as He by (vm_compute; reflexivity).
  exact (lookup_failure id demo_etld1 id res_Scanner demo_parse (demo_env 5) "http://down.example/" demo_scanner "down.example" demo_url demo_dest
    demo_timeout eq_refl (fun _ _ => eq_refl) Hl Ht Hf Hc Ha Hn He).
Defined.

(** The answers on a few URLs: a rebinding name, a resolver that is down (neutral for
    the adaptive score), a secret (nothing is looked up), an alternative notation. *)
Example demo_verdicts :
  let scanner raw := res_Scanner (demo_Scan 5 raw demo_scanner).1.1 in
  scanner "http://rebind.evil.example/" = ScannerSSRFMetadata /\
  scanner "http://down.example/" = ScannerSSRF /\
  IsAdaptiveNeutral (summary (demo_Scan 5 "http://down.example/" demo_scanner).1.1) = true /\
  (demo_Scan 5 "http://x.evil.example/secret" demo_scanner).2 = [] /\
  (demo_Scan 5 "http://x.evil.example/" demo_scanner).2 = ["x.evil.example"] /\
  scanner "http://10.0.0.1/" = ScannerSSRF /\ scanner "http://0x7f000001/" = ScannerAll /\
  scanner "http://x.example/a/../b" = ScannerPathTraversal /\ scanner "http://x.example:99999/" = ScannerParser.
Proof. cbv zeta. split_and!; vm_compute; reflexivity. Qed.

(** The documentation of [ClassProtective] and [IsAdaptiveNeutral] counts the data
    budget as protective and neutral, like the rate limit; [checkDataBudget] leaves
    the class of a threat, so exhausting a budget raises the score of the session. *)
Example budget_block_is_a_threat :
  let s := RecordRequest demo_etld1 "x.example" 5000 4 demo_scanner in
  let r := (demo_Scan 5 "http://x.example/" s).1.1 in
  res_Scanner r = ScannerDataBudget /\ IsAdaptiveNeutral (summary r) = false /\
  let s := (demo_Scan 5 "http://x.example/" demo_scanner).1.2 in
  let r := (demo_Scan 6 "http://x.example/" s).1.1 in
  res_Scanner r = ScannerRateLimit /\ IsAdaptiveNeutral (summary r) = true.
Proof. cbv zeta. split_and!; vm_compute; reflexivity. Qed.
