(* ===== verification/ScannerClose.v ===== *)
(** * Closing a scanner while it is in use

    The life cycle of a scanner ([BeginUse], [Close], [tearDown] of
    [internal/scanner/scanner.go]) and its use by the proxy ([pinResolvedScanner] of
    [internal/proxy/proxy.go]). A hot reload publishes a new scanner and closes the
    old one, which other goroutines are scanning with. [Close] waits for them for
    thirty seconds and then leaves the waiting to a detached goroutine. The steps of
    all goroutines interleave. *)

From S2P Require Import Prelude.
Local Open Scope Z_scope.

(** Where the one call of [Close] that found the scanner open has got to. *)
Inductive close_phase :=
| NotClosing
| Draining      (* in the [select]: the drain, or the time-out *)
| Detached      (* the time-out came first: a goroutine waits without limit *)
| Drained_      (* the wait for the users returned; [tearDown] comes next *)
| TornDown.

#[export] Instance close_phase_eq_dec : EqDecision close_phase.
Proof. solve_decision. Defined.

Record LifeCycle := {
  lc_closed : bool;
  lc_inUse : Z;
  lc_drained : bool;
  lc_phase : close_phase;
  lc_teardowns : nat;
}.

Definition fresh : LifeCycle :=
  {| lc_closed := false; lc_inUse := 0; lc_drained := false; lc_phase := NotClosing; lc_teardowns := 0 |}.

Definition with_inUse (n : Z) (s : LifeCycle) : LifeCycle :=
  {| lc_closed := lc_closed s; lc_inUse := n; lc_drained := lc_drained s; lc_phase := lc_phase s; lc_teardowns := lc_teardowns s |}.

Definition with_phase (p : close_phase) (s : LifeCycle) : LifeCycle :=
  {| lc_closed := lc_closed s; lc_inUse := lc_inUse s; lc_drained := lc_drained s; lc_phase := p; lc_teardowns := lc_teardowns s |}.

(** [BeginUse]: under the read lock, hence one step. *)
Definition BeginUse (s : LifeCycle) : bool * LifeCycle :=
  if lc_closed s then (false, s) else (true, with_inUse (lc_inUse s + 1) s).

(** The release function that [BeginUse] returned. *)
Definition release (s : LifeCycle) : LifeCycle := with_inUse (lc_inUse s - 1) s.

(** [Close] up to the [select]; a second call finds the scanner closed. *)
Definition CloseStart (s : LifeCycle) : LifeCycle :=
  if lc_closed s then s
  else {| lc_closed := true; lc_inUse := lc_inUse s; lc_drained := lc_drained s; lc_phase := Draining; lc_teardowns := lc_teardowns s |}.

Definition tearDown (s : LifeCycle) : LifeCycle :=
  {| lc_closed := lc_closed s; lc_inUse := lc_inUse s; lc_drained := true; lc_phase := TornDown; lc_teardowns := S (lc_teardowns s) |}.

Definition Closed (s : LifeCycle) : bool := lc_closed s.
Definition Drained (s : LifeCycle) : bool := lc_drained s.

(** One step of some goroutine. A user releases what it holds, once. *)
Inductive step : LifeCycle -> LifeCycle -> Prop :=
| step_begin s : step s (BeginUse s).2
| step_release s : 0 < lc_inUse s -> step s (release s)
| step_close s : step s (CloseStart s)
| step_drain s : lc_phase s = Draining -> lc_inUse s = 0 -> step s (with_phase Drained_ s)
| step_timeout s : lc_phase s = Draining -> step s (with_phase Detached s)
| step_detached s : lc_phase s = Detached -> lc_inUse s = 0 -> step s (with_phase Drained_ s)
| step_tearDown s : lc_phase s = Drained_ -> step s (tearDown s).

Definition inv (s : LifeCycle) : Prop :=
  0 <= lc_inUse s /\
  (lc_phase s = NotClosing <-> lc_closed s = false) /\
  (lc_phase s = Drained_ \/ lc_phase s = TornDown -> lc_inUse s = 0) /\
  (lc_drained s = true <-> lc_phase s = TornDown) /\
  lc_teardowns s = (if decide (lc_phase s = TornDown) then 1 else 0)%nat.

Lemma lc_step_inv s s' : step s s' -> inv s -> inv s'.
Proof.
  unfold inv. intros Hs (H1 & H2 & H3 & H4 & H5).
  destruct Hs as [s|s Hu|s|s Hp Hu|s Hp|s Hp Hu|s Hp]; cbn.
  - unfold BeginUse. destruct (lc_closed s) eqn:E; cbn; [rewrite E; tauto|]. assert (lc_phase s = NotClosing) as Ep by (by apply H2).
    rewrite Ep in *. split_and!; try done; try lia. by intros [|].
  - split_and!; try done; try lia. intros Hp. specialize (H3 Hp). lia.
  - unfold CloseStart. destruct (lc_closed s) eqn:E; cbn; [rewrite E; tauto|]. assert (lc_phase s = NotClosing) as Ep by (by apply H2). rewrite Ep in *.
    split_and!; try done; [by intros [|]|].  split; [|done]. intros Hd. by apply H4 in Hd.
  - rewrite Hp in *. split_and!; try done; intuition congruence.
  - rewrite Hp in *. split_and!; try done; intuition congruence.
  - rewrite Hp in *. split_and!; try done; intuition congruence.
  - rewrite Hp in *. split_and!; try done; [intuition congruence|tauto|by rewrite H5].
Qed.

Lemma lc_reachable_inv s : rtc step fresh s -> inv s.
Proof.
  intros H. refine (rtc_ind_r (fun s => inv s) fresh _ _ s H); [|intros x y _ Hxy Hx; by eapply lc_step_inv].
  unfold inv. cbn. by split_and!; try done.
Qed.

(** Steps of the closing call alone. *)
Definition finish (s : LifeCycle) : LifeCycle := tearDown (with_phase Drained_ s).


(** A user outlives the time-out of the closing call. *)
Definition demo_used : LifeCycle := with_phase Detached (CloseStart (BeginUse fresh).2).

Lemma demo_used_reachable : rtc step fresh demo_used.
Proof.
  eapply rtc_l; [apply step_begin|]. eapply rtc_l; [apply step_close|]. apply rtc_once. by apply step_timeout.
Defined.


(** ** Pinning a scanner for a request *)

(** [pinResolvedScanner]: the scanners by address, the one of the resolved agent, and
    what [scannerPtr] holds at each of its three loads. The answer is the scanner that
    was pinned, and the scanners after its use began. *)
Fixpoint pinLoop (tries : nat) (loads : list (option nat)) (sc : nat) (heap : gmap nat LifeCycle) : option nat * gmap nat LifeCycle :=
  match tries with
  | O => (None, heap)
  | S tries =>
      let '(ok, s) := BeginUse (default fresh (heap !! sc)) in
      if ok then (Some sc, <[sc := s]> heap)
      else
        let next := match head loads with Some (Some n) => n | _ => sc end in
        pinLoop tries (tail loads) next heap
  end.

Definition pinResolvedScanner (resolved : option nat) (loads : list (option nat)) (heap : gmap nat LifeCycle)
    : option nat * gmap nat LifeCycle :=
  match resolved with
  | None => (None, heap)
  | Some sc => pinLoop 3 loads sc heap
  end.

(** What is pinned is open, in use from then on, and is the only thing that changed. *)
Lemma pinned_open resolved loads heap sc heap' :
  pinResolvedScanner resolved loads heap = (Some sc, heap') ->
  let s := default fresh (heap !! sc) in
  Closed s = false /\ heap' = <[sc := with_inUse (lc_inUse s + 1) s]> heap.
Proof.
  unfold pinResolvedScanner. destruct resolved as [sc0|]; [|done]. generalize 3%nat as n. intros n. revert loads sc0.
  induction n as [|n IH]; intros loads sc0; [done|]. cbn [pinLoop]. unfold BeginUse. destruct (lc_closed _) eqn:E.
  - apply IH.
  - by intros [= <- <-].
Qed.
