(* ===== verification/Dial.v ===== *)
(** * The dial guard

    The last check before a connection is made: [ssrfSafeDialContext] of
    [internal/proxy/proxy.go] with [ssrf_dial_block.go], and the narrower guard of the
    MCP upstreams ([internal/mcp/upstream_dial.go]). The scanner judged a name by the
    addresses it had then; the guard resolves the name again and judges the addresses
    that are about to be dialled, so a name that changes its addresses in between
    (DNS rebinding) gains nothing. The resolver, the network interfaces and the dialer
    are arguments; the context is the values that the guard reads from it. *)

From S2P Require Import Prelude GoStrings GoNet Destination Cidr Scanner.
Local Open Scope Z_scope.

(** ** What a scan leaves for the dial (ssrf_dial_block.go) *)

Definition SSRFPrivateIP : string := "ssrf_private_ip".
Definition SSRFMetadata : string := "ssrf_metadata".
Definition SSRFDNSRebind : string := "ssrf_dns_rebind".

Record ssrfDialScanSnapshot := { sn_host : string; sn_port : string; sn_ips : gset string }.

Definition noSnapshot : ssrfDialScanSnapshot := {| sn_host := ""; sn_port := ""; sn_ips := ∅ |}.

(** The values of the context. *)
Record Ctx := {
  cx_agentScanner : option Scanner;
  cx_snapshot : option ssrfDialScanSnapshot;
  cx_dialPort : string;
}.

Definition with_snapshot (sn : ssrfDialScanSnapshot) (c : Ctx) : Ctx :=
  {| cx_agentScanner := cx_agentScanner c; cx_snapshot := Some sn; cx_dialPort := cx_dialPort c |}.

Definition with_dialPort (port : string) (c : Ctx) : Ctx :=
  {| cx_agentScanner := cx_agentScanner c; cx_snapshot := cx_snapshot c; cx_dialPort := port |}.

Record ssrfDialBlockError := { be_reason : string; be_detail : string }.

(** Why a dial failed before the dialer was called. *)
Inductive DialError :=
| ErrSplit (addr : string)
| ErrLookup (host : string) (err : LookupError)
| ErrNoAddresses (host : string)
| ErrUnparseable (ip host : string)
| ErrBlocked (e : ssrfDialBlockError).

(** [net.JoinHostPort]. *)
Definition JoinHostPort (host port : string) : string :=
  if Strings.ContainsByte host ":" then "[" +:+ host +:+ "]:" +:+ port else host +:+ ":" +:+ port.

Definition normalizeSSRFDialPort (port : string) : string := Strings.TrimSpace port.

Definition normalizeSSRFDialIP (ip : option Net.IP) : option Net.IP := Net.canonical <$> ip.

(** A resolved address as the snapshot stores it. *)
Definition snapshotIP (ipStr : string) : option Net.IP :=
  normalizeSSRFDialIP (Net.ParseIP (Strings.TrimSpace (stripIPv6Zone ipStr))).

Section dial.
Context (unicode_lower : string -> string).
Context (upstream : string -> result (list string) LookupError).
(* [net.InterfaceAddrs] *)
Context (InterfaceAddrs : option (list Net.IP)).

Definition normalizeSSRFDialHost (host : string) : string :=
  Strings.ToLower unicode_lower (Strings.TrimSuffix (Strings.TrimSpace host) ".").

Definition withSSRFDialScanSnapshot (ctx : Ctx) (host port : string) (ips : list string) : Ctx :=
  if decide (host = "" \/ ips = []) then ctx
  else
    let snapshot := {| sn_host := normalizeSSRFDialHost host; sn_port := normalizeSSRFDialPort port;
                       sn_ips := list_to_set (Net.IP_String <$> omap snapshotIP ips) |} in
    if decide (sn_host snapshot = "" \/ sn_ips snapshot = ∅) then ctx else with_snapshot snapshot ctx.

Definition scannerDestinationGranted (sc : Scanner) (host port : string) : bool :=
  match Net.ParseUint (normalizeSSRFDialPort port) 10 16 with
  | Some value => negb (bool_decide (value = 0)) && IsDestinationGranted unicode_lower sc NetworkTCP host value
  | None => false
  end.

Definition withAllowedSSRFDialScanSnapshot (ctx : Ctx) (sc : option Scanner) (host port : string) (result : Result) : Ctx :=
  match sc with
  | None => with_snapshot noSnapshot ctx
  | Some sc =>
      if negb (res_Allowed result) || bool_decide (res_SSRFResolvedIPs result = []) then with_snapshot noSnapshot ctx
      else
        let guardGranted := scannerDestinationGranted sc host port in
        if existsb (fun ipStr =>
             match snapshotIP ipStr with
             | None => true
             | Some ip => IsNonOverridableSSRFTarget (Some ip) || (IsInternalIP sc ip && negb guardGranted)
             end) (res_SSRFResolvedIPs result)
        then with_snapshot noSnapshot ctx
        else withSSRFDialScanSnapshot ctx host port (res_SSRFResolvedIPs result)
  end.

Definition withSSRFDialPort (ctx : Ctx) (port : string) : Ctx := with_dialPort (normalizeSSRFDialPort port) ctx.

Definition isSSRFDNSRebind (ctx : Ctx) (host : string) (ip : Net.IP) : bool :=
  match cx_snapshot ctx with
  | None => false
  | Some snapshot =>
      if decide (sn_host snapshot = "" \/ sn_ips snapshot = ∅) then false
      else if decide (normalizeSSRFDialHost host <> sn_host snapshot) then false
      else if decide (cx_dialPort ctx <> "" /\ sn_port snapshot <> "" /\ cx_dialPort ctx <> sn_port snapshot) then false
      else negb (bool_decide (Net.IP_String (Net.canonical ip) ∈ sn_ips snapshot))
  end.

Definition ssrfDialSnapshotContains (ctx : Ctx) (host : string) (ip : Net.IP) : bool :=
  match cx_snapshot ctx with
  | None => false
  | Some snapshot =>
      if decide (normalizeSSRFDialHost host <> sn_host snapshot) then false
      else if decide (cx_dialPort ctx = "" \/ sn_port snapshot = "" \/ cx_dialPort ctx <> sn_port snapshot) then false
      else bool_decide (Net.IP_String (Net.canonical ip) ∈ sn_ips snapshot)
  end.

Definition ssrfDialBlockDetail (host : string) (ip : Net.IP) : string :=
  if IsCloudMetadataIP ip then "SSRF blocked: " +:+ host +:+ " resolves to cloud metadata endpoint " +:+ Net.IP_String ip
  else "SSRF blocked: " +:+ host +:+ " resolves to internal IP " +:+ Net.IP_String ip.

Definition newSSRFDialBlockError (ctx : Ctx) (host : string) (ip : Net.IP) (detail : string) : DialError :=
  ErrBlocked {| be_reason := if isSSRFDNSRebind ctx host ip then SSRFDNSRebind
                             else if IsCloudMetadataIP ip then SSRFMetadata else SSRFPrivateIP;
                be_detail := detail |}.

(** ** The guard (proxy.go) *)

Definition blockIfNonOverridableSSRFTarget (ctx : Ctx) (host : string) (ip : Net.IP) : option DialError :=
  if IsNonOverridableSSRFTarget (Some ip) then Some (newSSRFDialBlockError ctx host ip (ssrfDialBlockDetail host ip)) else None.

(** [None] when the interfaces cannot be listed. *)
Definition isLocalInterfaceIP (ip : Net.IP) : option bool :=
  if Net.IsLoopback ip then Some true else (fun addrs => existsb (fun a => Net.Equal a ip) addrs) <$> InterfaceAddrs.

(** [metricsListen] is [None] when there is no configuration. *)
Definition blockIfConfiguredMetricsTarget (metricsListen : option string) (ctx : Ctx) (host port : string) (ip : Net.IP) : option DialError :=
  match metricsListen with
  | None => None
  | Some listen =>
      if decide (listen = "") then None
      else
        match SplitHostPort listen with
        | None => None
        | Some (metricsHost, metricsPort) =>
            match Net.ParseUint metricsPort 10 16, Net.ParseUint port 10 16 with
            | Some wantPort, Some gotPort =>
                let block why := Some (newSSRFDialBlockError ctx host ip ("SSRF blocked: " +:+ why)) in
                let target := host +:+ ":" +:+ port in
                if decide (wantPort = 0 \/ wantPort <> gotPort) then None
                else
                  let metricsIP := Net.ParseIP metricsHost in
                  if bool_decide (Strings.TrimSpace metricsHost = "") || match metricsIP with Some m => Net.IsUnspecified m | None => false end
                  then
                    match isLocalInterfaceIP ip with
                    | None => block ("cannot verify whether " +:+ target +:+ " reaches the wildcard metrics listener")
                    | Some false => None
                    | Some true => block (target +:+ " is the configured metrics listener")
                    end
                  else
                    match metricsIP with
                    | None => None
                    | Some m => if Net.Equal m ip then block (target +:+ " is the configured metrics listener") else None
                    end
            | _, _ => None
            end
        end
  end.

(** The loop over the resolved addresses: the first that is refused. *)
Fixpoint checkAddresses (metricsListen : option string) (ctx : Ctx) (sc : Scanner) (host port : string) (isTrusted guardGranted : bool)
    (ips : list string) : option DialError :=
  match ips with
  | [] => None
  | ipStr :: ips =>
      let continue := checkAddresses metricsListen ctx sc host port isTrusted guardGranted ips in
      match Net.ParseIP ipStr with
      | None => Some (ErrUnparseable ipStr host)
      | Some ip =>
          let ip := Net.canonical ip in
          match blockIfConfiguredMetricsTarget metricsListen ctx host port ip with
          | Some e => Some e
          | None =>
              match blockIfNonOverridableSSRFTarget ctx host ip with
              | Some e => Some e
              | None =>
                  if IsInternalIP sc ip then
                    if isTrusted || IsIPAllowlisted sc ip then continue
                    else if guardGranted && ssrfDialSnapshotContains ctx host ip then continue
                    else Some (newSSRFDialBlockError ctx host ip (ssrfDialBlockDetail host ip))
                  else continue
              end
          end
      end
  end.

(** The address handed to the dialer, or why none is. *)
Definition ssrfSafeDialContext (current : Scanner) (metricsListen : option string) (ctx : Ctx) (addr : string) : result string DialError :=
  let sc := default current (cx_agentScanner ctx) in
  match SplitHostPort addr with
  | None => Err (ErrSplit addr)
  | Some (host, port) =>
      let ctx := withSSRFDialPort ctx port in
      let guardGranted := scannerDestinationGranted sc host port in
      match Net.ParseIP host with
      | Some ip =>
          let ip := Net.canonical ip in
          match blockIfConfiguredMetricsTarget metricsListen ctx host port ip with
          | Some e => Err e
          | None =>
              match blockIfNonOverridableSSRFTarget ctx host ip with
              | Some e => Err e
              | None =>
                  if IsInternalIP sc ip && negb (IsIPAllowlisted sc ip) && negb guardGranted
                  then Err (newSSRFDialBlockError ctx host ip (ssrfDialBlockDetail host ip))
                  else Ok addr
              end
          end
      | None =>
          match (LookupHost unicode_lower (s_overrides sc) upstream host).1 with
          | Err err => Err (ErrLookup host err)
          | Ok [] => Err (ErrNoAddresses host)
          | Ok ((first :: _) as ips) =>
              let isTrusted := IsTrustedDomain unicode_lower sc host in
              match checkAddresses metricsListen ctx sc host port isTrusted guardGranted ips with
              | Some e => Err e
              | None => Ok (JoinHostPort first port)
              end
          end
      end
  end.

(** ** What is dialled *)

(** An address that the guard lets through for a host. *)
Definition passes (metricsListen : option string) (ctx : Ctx) (sc : Scanner) (host port : string) (exempt : Net.IP -> bool) (ip : Net.IP) : Prop :=
  blockIfConfiguredMetricsTarget metricsListen ctx host port ip = None /\
  IsNonOverridableSSRFTarget (Some ip) = false /\
  (IsInternalIP sc ip = true -> IsIPAllowlisted sc ip = true \/ exempt ip = true).

Lemma checkAddresses_None metricsListen ctx sc host port isTrusted guardGranted ips :
  checkAddresses metricsListen ctx sc host port isTrusted guardGranted ips = None ->
  Forall (fun ipStr => exists ip, Net.ParseIP ipStr = Some ip /\
    passes metricsListen ctx sc host port (fun ip => isTrusted || (guardGranted && ssrfDialSnapshotContains ctx host ip)) (Net.canonical ip)) ips.
Proof.
  induction ips as [|ipStr ips IH]; [intros _; apply Forall_nil_2|]. cbn [checkAddresses]. destruct (Net.ParseIP ipStr) as [ip|] eqn:Ep; [|done].
  destruct (blockIfConfiguredMetricsTarget _ _ _ _ _) eqn:Em; [done|]. unfold blockIfNonOverridableSSRFTarget.
  destruct (IsNonOverridableSSRFTarget _) eqn:Ef; [done|]. intros H.
  assert (checkAddresses metricsListen ctx sc host port isTrusted guardGranted ips = None /\
          (IsInternalIP sc (Net.canonical ip) = true ->
           IsIPAllowlisted sc (Net.canonical ip) = true \/
           isTrusted || (guardGranted && ssrfDialSnapshotContains ctx host (Net.canonical ip)) = true)) as [Hrest Hj].
  { destruct (IsInternalIP _ _); [|done]. destruct isTrusted; [by split; [|right]|]. cbn [orb] in *.
    destruct (IsIPAllowlisted _ _); [by split; [|left]|]. by destruct (guardGranted && _); [split; [|right]|]. }
  apply Forall_cons_2; [|by apply IH]. exists ip. done.
Qed.

(** C32: the dialer is only given an address that was just judged. Whatever the scan
    concluded, when the guard hands over an address it is the address named by the
    caller or the first of those that the name resolves to at that moment; it is not
    on the floor and is not the metrics listener; and if it is internal it is
    exempted by the address list, or is granted for this host and port (for a name
    only if the scan of the request had seen that very address), or is reached
    through a trusted domain name. *)
Theorem dial_justified current metricsListen ctx addr target :
  ssrfSafeDialContext current metricsListen ctx addr = Ok target ->
  let sc := default current (cx_agentScanner ctx) in
  exists host port ip,
    SplitHostPort addr = Some (host, port) /\
    let ctx := withSSRFDialPort ctx port in
    let granted := scannerDestinationGranted sc host port in
    (Net.ParseIP host = Some ip /\ target = addr /\
     passes metricsListen ctx sc host port (fun _ => granted) (Net.canonical ip)) \/
    (Net.ParseIP host = None /\
     exists first rest,
       (LookupHost unicode_lower (s_overrides sc) upstream host).1 = Ok (first :: rest) /\ Net.ParseIP first = Some ip /\
       target = JoinHostPort first port /\
       passes metricsListen ctx sc host port
         (fun ip => IsTrustedDomain unicode_lower sc host || (granted && ssrfDialSnapshotContains ctx host ip)) (Net.canonical ip)).
Proof.
  unfold ssrfSafeDialContext. cbv zeta. destruct (SplitHostPort addr) as [[host port]|]; [|done].
  destruct (Net.ParseIP host) as [ip|] eqn:Ep.
  - destruct (blockIfConfiguredMetricsTarget _ _ _ _ _) eqn:Em; [done|]. unfold blockIfNonOverridableSSRFTarget.
    destruct (IsNonOverridableSSRFTarget _) eqn:Ef; [done|]. destruct (_ && _ && _) eqn:Ei; [done|]. intros <-%Ok_inj.
    exists host, port, ip. split; [done|]. left. split_and!; [done|done|]. split_and!; [done|done|]. intros Hin. rewrite Hin in Ei. cbn [andb] in Ei.
    destruct (IsIPAllowlisted _ _); [by left|right]. by destruct (scannerDestinationGranted _ _ _).
  - destruct (LookupHost _ _ _ _).1 as [[|first rest]|] eqn:El; [done| |done].
    destruct (checkAddresses _ _ _ _ _ _ _ _) eqn:Ec; [done|]. intros <-%Ok_inj. apply checkAddresses_None in Ec.
    apply Forall_cons in Ec as [(ip & Hip & Hp) _]. exists host, port, ip. split; [done|]. right. split; [done|].
    exists first, rest. split; [done|]. split; [done|]. split; [done|exact Hp].
Qed.

(** ** The addresses a grant may reach *)

Lemma snapshotIP_ok raw ip : snapshotIP raw = Some ip -> Net.ip_ok ip.
Proof.
  unfold snapshotIP, normalizeSSRFDialIP. intros (x & H & ->)%fmap_Some_1. apply Net.ParseIP_ok in H as [? ?]. by apply Net.canonical_ok.
Qed.

Lemma canonical_twice (ip : Net.IP) : length ip = 16%nat -> Forall Net.byte ip -> Net.canonical (Net.canonical ip) = Net.canonical ip.
Proof. intros. by apply Cidr.canonical_id, Net.canonical_ok. Qed.

(** What a snapshot vouches for was among the addresses of the scan. *)
Lemma snapshot_seen ctx0 sc host0 port0 res port host ip :
  normalizeSSRFDialHost host0 <> "" -> normalizeSSRFDialHost host <> "" -> Net.ip_ok ip ->
  ssrfDialSnapshotContains (withSSRFDialPort (withAllowedSSRFDialScanSnapshot ctx0 (Some sc) host0 port0 res) port) host ip = true ->
  res_Allowed res = true /\ normalizeSSRFDialHost host = normalizeSSRFDialHost host0 /\
  normalizeSSRFDialPort port = normalizeSSRFDialPort port0 /\
  exists raw, raw ∈ res_SSRFResolvedIPs res /\ snapshotIP raw = Some ip.
Proof.
  intros Hh0 Hh Hok. unfold ssrfDialSnapshotContains, withAllowedSSRFDialScanSnapshot, withSSRFDialPort, with_dialPort. cbn [cx_snapshot cx_dialPort].
  destruct (negb (res_Allowed res) || _) eqn:Ea; cbn [with_snapshot cx_snapshot]; [rewrite decide_True by exact Hh; done|].
  apply orb_false_iff in Ea as [Eallow Eips]. apply negb_false_iff in Eallow. apply bool_decide_eq_false in Eips.
  destruct (existsb _ (res_SSRFResolvedIPs res)) eqn:Ex; cbn [with_snapshot cx_snapshot]; [rewrite decide_True by exact Hh; done|].
  unfold withSSRFDialScanSnapshot. rewrite decide_False.
  2:{ intros [->|]; [|done]. apply Hh0. reflexivity. }
  cbv zeta. cbn [sn_host sn_ips]. rewrite decide_False.
  2:{ intros [|He]; [done|]. destruct (res_SSRFResolvedIPs res) as [|raw ips]; [done|]. cbn [existsb] in Ex. apply orb_false_iff in Ex as [Ex _].
      cbn [omap list_omap] in He. destruct (snapshotIP raw) as [a|]; [|done]. assert (Net.IP_String a ∈ (∅ : gset string)) as Hin; [|set_solver].
      rewrite <- He. apply elem_of_list_to_set. left. }
  cbn [with_snapshot cx_snapshot sn_host sn_port sn_ips].
  destruct (decide (normalizeSSRFDialHost host <> _)) as [|Eh]; [done|]. destruct (decide (_ \/ _)) as [|Eport]; [done|].
  intros Hin%bool_decide_eq_true. split_and!; [done|by destruct (decide (normalizeSSRFDialHost host = normalizeSSRFDialHost host0)); [|tauto]| |].
  { destruct (decide (normalizeSSRFDialPort port = normalizeSSRFDialPort port0)); [done|tauto]. }
  rewrite (Cidr.canonical_id ip Hok) in Hin. apply elem_of_list_to_set, list_elem_of_fmap in Hin as (a & Ea & (raw & Hraw & Hs)%list_elem_of_omap).
  exists raw. split; [done|]. rewrite Hs. f_equal. symmetry. apply Cidr.IP_String_inj; [done|by eapply snapshotIP_ok|done].
Qed.

(** A grant does not follow a name to new addresses. When the context of a dial
    comes from the scan of the request, a name that now resolves first to an internal
    address is dialled only if that address is exempt in its own right, the name is
    a trusted domain, or the destination is granted and the scan had allowed the
    same host and port on the strength of that very address. *)
Theorem granted_dial_pinned current metricsListen ctx0 sc0 host0 port0 res addr host port first rest ip target :
  let ctx := withAllowedSSRFDialScanSnapshot ctx0 (Some sc0) host0 port0 res in
  let sc := default current (cx_agentScanner ctx) in
  ssrfSafeDialContext current metricsListen ctx addr = Ok target ->
  SplitHostPort addr = Some (host, port) -> Net.ParseIP host = None ->
  normalizeSSRFDialHost host0 <> "" -> normalizeSSRFDialHost host <> "" ->
  (LookupHost unicode_lower (s_overrides sc) upstream host).1 = Ok (first :: rest) -> Net.ParseIP first = Some ip ->
  IsInternalIP sc (Net.canonical ip) = true ->
  target = JoinHostPort first port /\
  (IsIPAllowlisted sc (Net.canonical ip) = true \/ IsTrustedDomain unicode_lower sc host = true \/
   (scannerDestinationGranted sc host port = true /\ res_Allowed res = true /\
    normalizeSSRFDialHost host = normalizeSSRFDialHost host0 /\ normalizeSSRFDialPort port = normalizeSSRFDialPort port0 /\
    exists raw, raw ∈ res_SSRFResolvedIPs res /\ snapshotIP raw = Some (Net.canonical ip))).
Proof.
  intros ctx sc H Hsplit Hname Hh0 Hh Hlook Hip Hin. unfold ssrfSafeDialContext in H. cbv zeta in H. fold sc in H.
  rewrite Hsplit, Hname, Hlook in H. destruct (checkAddresses _ _ _ _ _ _ _ _) eqn:Ec; [done|]. apply Ok_inj in H as <-. split; [done|].
  apply checkAddresses_None, Forall_cons in Ec as [(ip' & Hip' & _ & _ & Hj) _]. rewrite Hip in Hip'. injection Hip' as <-.
  specialize (Hj Hin) as [Hj|Hj]; [by left|right]. apply orb_true_iff in Hj as [Hj|Hj]; [by left|right].
  apply andb_true_iff in Hj as [Hg Hs]. split; [done|]. apply Net.ParseIP_ok in Hip as [Hl Hb].
  unfold ctx in Hs. apply snapshot_seen in Hs; [exact Hs|done|done|by apply Net.canonical_ok].
Qed.
End dial.

(** ** The upstreams of the MCP proxy (upstream_dial.go) *)

Section mcp.
Context (unicode_lower : string -> string).
Context (upstream : string -> result (list string) LookupError).
(* the dialer: whether a connection was made to the address *)
Context (dialContext : string -> bool).

Definition normalizeMCPDialIP (ip : option Net.IP) : option Net.IP := Net.canonical <$> ip.

(** What the guard ended with. *)
Inductive McpDial :=
| McpConnected (addr : string)
| McpSplit | McpLookup (err : LookupError) | McpNoAddresses | McpUnparseable (ip : string)
| McpMetadata (host : string) (ip : Net.IP)
| McpRefused.

(** The addresses to try, or the first that may not be. *)
Fixpoint mcpAddrs (host port : string) (ips : list string) : result (list string) McpDial :=
  match ips with
  | [] => Ok []
  | ipStr :: ips =>
      match normalizeMCPDialIP (Net.ParseIP (stripIPv6Zone (Strings.TrimSpace ipStr))) with
      | None => Err (McpUnparseable ipStr)
      | Some ip =>
          if IsCloudMetadataIP ip then Err (McpMetadata host ip)
          else match mcpAddrs host port ips with
               | Ok addrs => Ok (JoinHostPort (Net.IP_String ip) port :: addrs)
               | Err e => Err e
               end
      end
  end.

(** The dialling loop, with the addresses that were tried. *)
Fixpoint tryDial (addrs : list string) : McpDial * list string :=
  match addrs with
  | [] => (McpRefused, [])
  | a :: addrs =>
      if dialContext a then (McpConnected a, [a])
      else let '(r, tried) := tryDial addrs in (r, a :: tried)
  end.

(** [newMetadataSafeDialContext]; the scanner's resolver when there is a scanner. *)
Definition newMetadataSafeDialContext (sc : option Scanner) (addr : string) : McpDial * list string :=
  match SplitHostPort addr with
  | None => (McpSplit, [])
  | Some (host, port) =>
      match normalizeMCPDialIP (Net.ParseIP (stripIPv6Zone host)) with
      | Some ip => if IsCloudMetadataIP ip then (McpMetadata host ip, []) else tryDial [addr]
      | None =>
          match (match sc with Some sc => (LookupHost unicode_lower (s_overrides sc) upstream host).1 | None => upstream host end) with
          | Err err => (McpLookup err, [])
          | Ok [] => (McpNoAddresses, [])
          | Ok ips => match mcpAddrs host port ips with
                      | Err e => (e, [])
                      | Ok addrs => tryDial addrs
                      end
          end
      end
  end.

Lemma tryDial_tried addrs a : a ∈ (tryDial addrs).2 -> a ∈ addrs.
Proof.
  induction addrs as [|b addrs IH]; cbn; [done|]. destruct (dialContext b); cbn; [set_solver|].
  destruct (tryDial addrs) as [r tried]. cbn in *. set_solver.
Qed.

Lemma mcpAddrs_Ok host port ips addrs a :
  mcpAddrs host port ips = Ok addrs -> a ∈ addrs ->
  exists ip, a = JoinHostPort (Net.IP_String ip) port /\ Net.ip_ok ip /\ IsCloudMetadataIP ip = false.
Proof.
  revert addrs. induction ips as [|ipStr ips IH]; intros addrs; cbn [mcpAddrs]; [intros <-%Ok_inj; by intros ?%not_elem_of_nil|].
  destruct (normalizeMCPDialIP _) as [ip|] eqn:Ei; [|done]. destruct (IsCloudMetadataIP ip) eqn:Em; [done|].
  destruct (mcpAddrs host port ips) as [addrs'|]; [|done]. intros <-%Ok_inj [-> |Ha]%elem_of_cons; [|by eapply IH].
  exists ip. split_and!; [done| |done]. unfold normalizeMCPDialIP in Ei. apply fmap_Some_1 in Ei as (x & Hx & ->).
  apply Net.ParseIP_ok in Hx as [? ?]. by apply Net.canonical_ok.
Qed.

(** Every address this guard tries is either the literal it was given, which is no
    metadata endpoint, or the print of a resolved address that is none, and all the
    addresses were judged before the first was tried. *)
Lemma mcp_never_metadata sc addr a :
  a ∈ (newMetadataSafeDialContext sc addr).2 ->
  exists host port ip, SplitHostPort addr = Some (host, port) /\ Net.ip_ok ip /\ IsCloudMetadataIP ip = false /\
    ((a = addr /\ normalizeMCPDialIP (Net.ParseIP (stripIPv6Zone host)) = Some ip) \/ a = JoinHostPort (Net.IP_String ip) port).
Proof.
  unfold newMetadataSafeDialContext. destruct (SplitHostPort addr) as [[host port]|]; [|by intros ?%not_elem_of_nil].
  destruct (normalizeMCPDialIP _) as [ip|] eqn:Ei.
  - destruct (IsCloudMetadataIP ip) eqn:Em; [by intros ?%not_elem_of_nil|]. intros ->%tryDial_tried%list_elem_of_singleton.
    exists host, port, ip. split_and!; [done| |done|by left]. unfold normalizeMCPDialIP in Ei. apply fmap_Some_1 in Ei as (x & Hx & ->).
    apply Net.ParseIP_ok in Hx as [? ?]. by apply Net.canonical_ok.
  - destruct (match sc with Some _ => _ | None => _ end) as [[|i ips]|]; [by intros ?%not_elem_of_nil| |by intros ?%not_elem_of_nil].
    destruct (mcpAddrs host port (i :: ips)) as [addrs|] eqn:Ea; [|by intros ?%not_elem_of_nil].
    intros Ha%tryDial_tried. destruct (mcpAddrs_Ok _ _ _ _ _ Ea Ha) as (ip & -> & Hok & Hm). exists host, port, ip. split_and!; [done..|by right].
Qed.
End mcp.

(** ** A rebinding name *)

(** A destination granted by name, whose resolver moves it to another address. *)
Definition demo_grants : GrantSet := {[ "tcp://kube.example:6443" := {| g_dest := {| d_Network := "tcp"; d_Host := "kube.example"; d_Port := 6443 |} |} ]}.

Definition demo_granted : Scanner :=
  match NewWithOptions id (Ok demo_content) (Ok tt) demo_config demo_grants 0 with Ok s => s | Err _ => demo_scanner end.

Definition demo_result : Result := with_IPs ["10.2.2.2"] allowed.
Definition demo_ctx : Ctx :=
  withAllowedSSRFDialScanSnapshot id {| cx_agentScanner := None; cx_snapshot := None; cx_dialPort := "" |} (Some demo_granted) "kube.example" "6443" demo_result.

Definition demo_dial (ips : list string) (addr : string) : result string DialError :=
  ssrfSafeDialContext id (fun _ => Ok ips) None demo_granted (Some "127.0.0.1:9090") demo_ctx addr.

Example demo_dials :
  demo_dial ["10.2.2.2"] "kube.example:6443" = Ok "10.2.2.2:6443" /\
  demo_dial ["10.2.2.3"] "kube.example:6443" =
    Err (ErrBlocked {| be_reason := SSRFDNSRebind; be_detail := "SSRF blocked: kube.example resolves to internal IP 10.2.2.3" |}) /\
  demo_dial ["10.2.2.2"; "169.254.169.254"] "kube.example:6443" =
    Err (ErrBlocked {| be_reason := SSRFDNSRebind;
                       be_detail := "SSRF blocked: kube.example resolves to cloud metadata endpoint 169.254.169.254" |}) /\
  (is_ok (demo_dial ["10.2.2.2"] "kube.example:443") = false) /\
  demo_dial ["93.184.216.34"] "www.example:443" = Ok "93.184.216.34:443" /\
  (is_ok (demo_dial [] "127.0.0.1:9090") = false) /\ demo_dial [] "127.0.0.1:9091" = Ok "127.0.0.1:9091".
Proof. split_and!; vm_compute; reflexivity. Qed.

Lemma dial_justified_witness :
  exists host port ip,
    SplitHostPort "kube.example:6443" = Some (host, port) /\ IsNonOverridableSSRFTarget (Some (Net.canonical ip)) = false.
Proof.
  assert (demo_dial ["10.2.2.2"] "kube.example:6443" = Ok "10.2.2.2:6443") as H by (vm_compute; reflexivity).
  destruct (dial_justified id (fun _ => Ok ["10.2.2.2"]) None demo_granted (Some "127.0.0.1:9090") demo_ctx "kube.example:6443" _ H)
    as (host & port & ip & Hs & [(_ & _ & _ & Hf & _)|(_ & first & rest & _ & _ & _ & _ & Hf & _)]);
    exists host, port, ip; exact (conj Hs Hf).
Defined.

Lemma granted_dial_pinned_witness :
  exists raw, raw ∈ ["10.2.2.2"] /\ snapshotIP raw = Some [10; 2; 2; 2].
Proof.
  assert (demo_dial ["10.2.2.2"] "kube.example:6443" = Ok "10.2.2.2:6443") as H by (vm_compute; reflexivity).
  destruct (granted_dial_pinned id (fun _ => Ok ["10.2.2.2"]) None demo_granted (Some "127.0.0.1:9090")
    {| cx_agentScanner := None; cx_snapshot := None; cx_dialPort := "" |} demo_granted "kube.example" "6443" demo_result
    "kube.example:6443" "kube.example" "6443" "10.2.2.2" [] (Net.IPv4 10 2 2 2) _ H
    ltac:(vm_compute; reflexivity) ltac:(vm_compute; reflexivity) ltac:(vm_compute; discriminate) ltac:(vm_compute; discriminate)
    ltac:(vm_compute; reflexivity) ltac:(vm_compute; reflexivity) ltac:(vm_compute; reflexivity)) as [_ [Hc|[Hc|(_ & _ & _ & _ & Hraw)]]].
  - vm_compute in Hc. discriminate Hc.
  - vm_compute in Hc. discriminate Hc.
  - exact Hraw.
Defined.
