(* ===== verification/Sni.v ===== *)
(** * The server name of a CONNECT tunnel

    [internal/proxy/sni.go] and its use in [handleConnect] of
    [internal/proxy/forward.go]: the TLS ClientHello that opens a tunnel is parsed
    from the bytes that the client has sent, and the tunnel is relayed only if the
    name in it is the one of the CONNECT request.

    The loops over extensions and names recurse on what is left of the data. The
    connection and the [bufio.Reader]s in front of it are modelled with their
    buffers, because the relay reads from the connection and not from the reader.
    Quoted error texts are constructors. *)

From Equations Require Import Equations.
From S2P Require Import Prelude GoStrings Config.
Local Open Scope N_scope.
Local Open Scope go_scope.

(** ** Constants *)

Inductive SniError := errNotTLS | errTLSMalformed.

Definition sniCategoryMatch : string := "match".
Definition sniCategoryMismatch : string := "mismatch".
Definition sniCategoryNotTLS : string := "not_tls".
Definition sniCategoryNoExtension : string := "no_extension".
Definition sniCategoryMalformed : string := "malformed_tls".
Definition sniCategoryTimeout : string := "timeout".

Definition tlsRecordTypeHandshake : N := 22.
Definition tlsHandshakeClientHello : N := 1.
Definition tlsExtensionSNI : N := 0.
Definition sniTypeHostName : N := 0.
Definition sniPeekSize : nat := 16384.
Definition tlsRecordHeaderLen : nat := 5.
Definition tlsHandshakeHeaderLen : nat := 4.
Definition tlsClientHelloFixedLen : nat := 34.
Definition tlsExtensionHeaderLen : nat := 4.
Definition sniListHeaderLen : nat := 2.
Definition sniEntryHeaderLen : nat := 3.

(** ** The two idioms of the parser *)

(** [data[i]], in range wherever the code has checked the length. *)
Definition byteAt (data : list ascii) (i : nat) : N := from_option N_of_ascii 0 (data !! i).

(** [int(data[i])<<8 | int(data[i+1])], and the same of three bytes. *)
Definition uint16 (data : list ascii) (i : nat) : nat :=
  N.to_nat (N.lor (N.shiftl (byteAt data i) 8) (byteAt data (S i))).
Definition uint24 (data : list ascii) (i : nat) : nat :=
  N.to_nat (N.lor (N.lor (N.shiftl (byteAt data i) 16) (N.shiftl (byteAt data (S i)) 8)) (byteAt data (S (S i)))).

(** [if len(data) < n { return malformed }; data = data[n:]], or [data[:n]]. *)
Definition skip (n : nat) (data : list ascii) : result (list ascii) SniError :=
  if decide (length data < n)%nat then Err errTLSMalformed else Ok (drop n data).
Definition keep (n : nat) (data : list ascii) : result (list ascii) SniError :=
  if decide (length data < n)%nat then Err errTLSMalformed else Ok (take n data).

(** A field that is skipped: its length in one or two bytes, and its bytes. *)
Definition skipVector8 (data : list ascii) : result (list ascii) SniError :=
  rest <-? skip 1 data; skip (N.to_nat (byteAt data 0)) rest.
Definition skipVector16 (data : list ascii) : result (list ascii) SniError :=
  rest <-? skip 2 data; skip (uint16 data 0) rest.

(** ** The parser *)

(** The loop over the entries of the name list. *)
Equations? parseNames (data : list ascii) : result string SniError by wf (length data) lt :=
  parseNames data :=
    match decide (length data < sniEntryHeaderLen)%nat with
    | left _ => Ok ""
    | right Hlen =>
        let nameType := byteAt data 0 in
        let nameLen := uint16 data 1 in
        let rest := drop sniEntryHeaderLen data in
        if decide (length rest < nameLen)%nat then Err errTLSMalformed
        else if decide (nameType = sniTypeHostName)
        then Ok (Strings.TrimSuffix (string_of_list_ascii (take nameLen rest)) ".")
        else parseNames (drop nameLen rest)
    end.
Proof. subst rest. rewrite !length_drop. unfold sniEntryHeaderLen in *. lia. Qed.

Definition parseSNIExtension (data : list ascii) : result string SniError :=
  rest <-? skip sniListHeaderLen data;
  names <-? keep (uint16 data 0) rest;
  parseNames names.

(** The loop over the extensions. *)
Equations? parseExtensions (payload : list ascii) : result string SniError by wf (length payload) lt :=
  parseExtensions payload :=
    match decide (length payload < tlsExtensionHeaderLen)%nat with
    | left _ => Ok ""
    | right Hlen =>
        let extType := uint16 payload 0 in
        let extDataLen := uint16 payload 2 in
        let rest := drop tlsExtensionHeaderLen payload in
        if decide (length rest < extDataLen)%nat then Err errTLSMalformed
        else if decide (N.of_nat extType = tlsExtensionSNI) then parseSNIExtension (take extDataLen rest)
        else parseExtensions (drop extDataLen rest)
    end.
Proof. subst rest. rewrite !length_drop. unfold tlsExtensionHeaderLen in *. lia. Qed.

(** What follows the handshake header. *)
Definition parseHello (body : list ascii) : result string SniError :=
  payload <-? skip tlsClientHelloFixedLen body;
  payload <-? skipVector8 payload;
  payload <-? skipVector16 payload;
  payload <-? skipVector8 payload;
  if decide (length payload < 2)%nat then Ok ""
  else rest <-? skip 2 payload;
       extensions <-? keep (uint16 payload 0) rest;
       parseExtensions extensions.

Definition extractSNI (data : list ascii) : result string SniError :=
  if decide (length data = 0)%nat then Err errNotTLS
  else if decide (byteAt data 0 <> tlsRecordTypeHandshake) then Err errNotTLS
  else payload <-? skip tlsRecordHeaderLen data;
       record <-? keep (uint16 data 3) payload;
       payload <-? skip tlsHandshakeHeaderLen record;
       if decide (byteAt record 0 <> tlsHandshakeClientHello) then Err errTLSMalformed
       else body <-? keep (uint24 record 1) payload;
            parseHello body.

(** ** Readers and connections *)

(** What the client sends: the segments that arrive while the read deadline lasts,
    and the bytes after it. *)
Record Conn := { c_segments : list (list ascii); c_later : list ascii }.

(** A read of the connection: what the next segment holds, up to [n] bytes; none
    when the deadline passes. *)
Definition connRead (n : nat) (c : Conn) : list ascii * Conn :=
  match c_segments c with
  | [] => ([], c)
  | seg :: segs =>
      (take n seg, {| c_segments := (if decide (length seg <= n)%nat then segs else drop n seg :: segs); c_later := c_later c |})
  end.

(** A [bufio.Reader]: the size of its buffer and the unread bytes in it. *)
Record Buf := { b_size : nat; b_data : list ascii }.

(** The reader in front of the connection, and the one that wraps it if it had to be
    resized. *)
Record Readers := { rs_inner : Buf; rs_outer : option Buf; rs_conn : Conn }.

(** [Read] of the inner [bufio.Reader]: one read of the connection at most,
    straight into [p] when that is no smaller than the empty buffer. *)
Definition innerRead (n : nat) (inner : Buf) (c : Conn) : list ascii * Buf * Conn :=
  if decide (b_data inner <> [])
  then (take n (b_data inner), {| b_size := b_size inner; b_data := drop n (b_data inner) |}, c)
  else if decide (b_size inner <= n)%nat
  then let (bs, c) := connRead n c in (bs, inner, c)
  else let (bs, c) := connRead (b_size inner) c in
       (take n bs, {| b_size := b_size inner; b_data := drop n bs |}, c).

(** The loop of [Peek] over [fill]: until [n] bytes are buffered, the buffer is full
    or a read fails. Every read adds a byte, so [n] rounds are enough. *)
Fixpoint peekLoop {S} (read : nat -> S -> list ascii * S) (n size rounds : nat) (data : list ascii) (s : S) : list ascii * S :=
  match rounds with
  | O => (data, s)
  | S rounds =>
      if decide (length data < n /\ length data < size)%nat
      then let (bs, s) := read (size - length data)%nat s in
           if decide (bs = []) then (data, s) else peekLoop read n size rounds (data ++ bs) s
      else (data, s)
  end.

Definition peekInner (n : nat) (r : Readers) : list ascii * Readers :=
  let (data, c) := peekLoop connRead n (b_size (rs_inner r)) n (b_data (rs_inner r)) (rs_conn r) in
  (take n data, {| rs_inner := {| b_size := b_size (rs_inner r); b_data := data |}; rs_outer := rs_outer r; rs_conn := c |}).

Definition peekOuter (n : nat) (outer : Buf) (r : Readers) : list ascii * Readers :=
  let '(data, (inner, c)) :=
    peekLoop (fun m s => let '(bs, inner, c) := innerRead m s.1 s.2 in (bs, (inner, c))) n (b_size outer) n (b_data outer) (rs_inner r, rs_conn r) in
  (take n data, {| rs_inner := inner; rs_outer := Some {| b_size := b_size outer; b_data := data |}; rs_conn := c |}).

(** [outReader.Peek], [outReader.Size] and [bufio.NewReaderSize(outReader, n)]. *)
Definition Peek (n : nat) (r : Readers) : list ascii * Readers :=
  match rs_outer r with Some outer => peekOuter n outer r | None => peekInner n r end.
Definition outReader (r : Readers) : Buf := default (rs_inner r) (rs_outer r).
Definition NewReaderSize (n : nat) (r : Readers) : Readers :=
  {| rs_inner := rs_inner r; rs_outer := Some {| b_size := Nat.max n 16; b_data := [] |}; rs_conn := rs_conn r |}.

(** ** Verification *)

Inductive VerifyError := SniTimeout | SniMalformed | SniMismatch (connectHost hostname : string) | SniRequireTLS (category : string).

Section verification.
Context (unicode_lower : string -> string).

Definition normalizeName (host : string) : string := Strings.TrimSuffix (Strings.ToLower unicode_lower host) ".".

(** The name, the category and the error; nil is [None]. *)
Definition verdictOf (peeked : list ascii) (connectHost : string) : string * string * option VerifyError :=
  match extractSNI peeked with
  | Err errTLSMalformed => ("", sniCategoryMalformed, Some SniMalformed)
  | Err errNotTLS => ("", sniCategoryNotTLS, None)
  | Ok hostname =>
      if decide (hostname = "") then ("", sniCategoryNoExtension, None)
      else if decide (normalizeName hostname <> normalizeName connectHost)
      then (hostname, sniCategoryMismatch, Some (SniMismatch connectHost hostname))
      else (hostname, sniCategoryMatch, None)
  end.

Definition verifySNI (r : Readers) (connectHost : string) : Readers * (string * string * option VerifyError) :=
  let (first, r) := Peek 1 r in
  if decide (length first = 0)%nat then (r, ("", sniCategoryTimeout, Some SniTimeout))
  else if decide (byteAt first 0 <> tlsRecordTypeHandshake) then (r, ("", sniCategoryNotTLS, None))
  else
    let (header, r) := Peek tlsRecordHeaderLen r in
    if decide (length header < tlsRecordHeaderLen)%nat then (r, ("", sniCategoryMalformed, Some SniMalformed))
    else
      let recordLen := Nat.min (uint16 header 3 + tlsRecordHeaderLen) sniPeekSize in
      let r := if decide (b_size (outReader r) < recordLen)%nat then NewReaderSize recordLen r else r in
      let (peeked, r) := Peek recordLen r in
      (r, verdictOf peeked connectHost).

(** The gate of [handleConnect] in front of the relay: the readers to go on with, or
    the reason the tunnel is closed for. *)
Definition sniGate (fp : ForwardProxy) (r : Readers) (host : string) : result Readers string :=
  if SNIVerificationEnabled fp then
    let '(r, (_, category, sniErr)) := verifySNI r host in
    let sniErr :=
      if decide (sniErr = None /\ SNIRequireTLSEnabled fp = true /\
                 (category = sniCategoryNotTLS \/ category = sniCategoryNoExtension))
      then Some (SniRequireTLS category) else sniErr in
    match sniErr with
    | Some _ => Err ("sni_" +:+ category)
    | None => Ok r
    end
  else Ok r.
End verification.

(** ** The relay *)

(** The bytes of the client that go to the target of a spliced tunnel: those in the
    buffer of the reader, then what the connection delivers. *)
Definition relayed (r : Readers) : list ascii :=
  b_data (outReader r) ++ concat (c_segments (rs_conn r)) ++ c_later (rs_conn r).

(** A hijacked connection with its reader. *)
Definition hijacked (size : nat) (buffered : list ascii) (c : Conn) : Readers :=
  {| rs_inner := {| b_size := size; b_data := buffered |}; rs_outer := None; rs_conn := c |}.

(** What the client sent after the CONNECT request. *)
Definition stream (r : Readers) : list ascii :=
  from_option b_data [] (rs_outer r) ++ b_data (rs_inner r) ++ concat (c_segments (rs_conn r)) ++ c_later (rs_conn r).

(** ** Integers on the wire *)

Definition be16 (n : N) : list ascii := [ascii_of_N (n / 256); ascii_of_N (n mod 256)].
Definition be24 (n : N) : list ascii := ascii_of_N (n / 65536) :: be16 (n mod 65536).

Lemma high_bit b k i : b < 2 ^ k -> k <= i -> N.testbit b i = false.
Proof.
  intros Hb Hi. destruct (decide (b = 0)) as [->|]; [apply N.bits_0|].
  apply N.bits_above_log2, N.log2_lt_pow2; [lia|]. eapply N.lt_le_trans; [exact Hb|]. apply N.pow_le_mono_r; lia.
Qed.

Lemma lor_shift a b k : b < 2 ^ k -> N.lor (N.shiftl a k) b = a * 2 ^ k + b.
Proof.
  intros Hb. rewrite <- N.shiftl_mul_pow2.
  assert (N.land (N.shiftl a k) b = 0) as E.
  { apply N.bits_inj_iff. intros i. rewrite N.land_spec, N.bits_0. destruct (N.lt_ge_cases i k) as [H|H].
    - by rewrite N.shiftl_spec_low.
    - by rewrite (high_bit b k i Hb H), andb_false_r. }
  by rewrite N.add_nocarry_lxor, N.lxor_lor.
Qed.

Lemma byte_lt c : N_of_ascii c < 256.
Proof. apply N_ascii_bounded. Qed.

(** Two bytes are the integer they spell, and conversely. *)
Lemma uint16_be16 n l : n < 65536 -> uint16 (be16 n ++ l) 0 = N.to_nat n.
Proof.
  intros Hn. unfold uint16, be16, byteAt. cbn [lookup list_lookup app from_option]. f_equal.
  rewrite !N_ascii_embedding by (first [apply N.mod_lt; lia|apply N.Div0.div_lt_upper_bound; lia]).
  rewrite lor_shift by (apply N.mod_lt; lia). pose proof (N.div_mod n 256). lia.
Qed.

Lemma be16_bytes a b : be16 (N.lor (N.shiftl (N_of_ascii a) 8) (N_of_ascii b)) = [a; b].
Proof.
  unfold be16. rewrite lor_shift by (apply byte_lt). change (2 ^ 8) with 256. pose proof (byte_lt b).
  rewrite N.div_add_l, N.div_small, N.add_0_r, ascii_N_embedding by lia.
  rewrite N.add_comm, N.Div0.mod_add, N.mod_small, ascii_N_embedding by lia. done.
Qed.

Lemma bytes16_lt a b : N.lor (N.shiftl (N_of_ascii a) 8) (N_of_ascii b) < 65536.
Proof. rewrite lor_shift by apply byte_lt. pose proof (byte_lt a). pose proof (byte_lt b). change (2 ^ 8) with 256. lia. Qed.

(** ** Vectors *)

Definition vec8 (v : list ascii) : list ascii := ascii_of_N (N.of_nat (length v)) :: v.
Definition vec16 (v : list ascii) : list ascii := be16 (N.of_nat (length v)) ++ v.
Definition vec24 (v : list ascii) : list ascii := be24 (N.of_nat (length v)) ++ v.

Definition fits (bytes : N) (v : list ascii) : Prop := N.of_nat (length v) < 2 ^ (8 * bytes).

Lemma skip_app h r : skip (length h) (h ++ r) = Ok r.
Proof. unfold skip. rewrite length_app, decide_False by lia. by rewrite drop_app_length. Qed.

Lemma keep_app v r : keep (length v) (v ++ r) = Ok v.
Proof. unfold keep. rewrite length_app, decide_False by lia. by rewrite take_app_length. Qed.

Lemma skip_Ok n l r : skip n l = Ok r <-> exists h, l = h ++ r /\ length h = n.
Proof.
  split; [|intros (h & -> & <-); apply skip_app]. unfold skip. destruct (decide _) as [|Hn]; [done|]. intros [= <-].
  exists (take n l). split; [by rewrite take_drop|rewrite length_take; lia].
Qed.

Lemma keep_Ok n l v : keep n l = Ok v <-> exists r, l = v ++ r /\ length v = n.
Proof.
  split; [|intros (r & -> & <-); apply keep_app]. unfold keep. destruct (decide _) as [|Hn]; [done|]. intros [= <-].
  exists (drop n l). split; [by rewrite take_drop|rewrite length_take; lia].
Qed.

Lemma uint16_vec16 v r : fits 2 v -> uint16 (vec16 v ++ r) 0 = length v.
Proof. intros Hv. unfold vec16. rewrite <- app_assoc, uint16_be16 by exact Hv. by rewrite Nat2N.id. Qed.

(** The two bytes in front of [length v] bytes are the length of a vector. *)
Lemma vec16_view a b v : uint16 (a :: b :: v) 0 = length v -> [a; b] ++ v = vec16 v /\ fits 2 v.
Proof.
  unfold uint16, byteAt, vec16, fits. cbn [lookup list_lookup from_option]. intros H. rewrite <- H, N2Nat.id, be16_bytes.
  split; [done|apply bytes16_lt].
Qed.

(** The same when more bytes follow, the length being read from the two bytes. *)
Lemma uint16_two a b l l' : uint16 (a :: b :: l) 0 = uint16 (a :: b :: l') 0.
Proof. done. Qed.

Lemma field16_Ok l v : (rest <-? skip 2 l; keep (uint16 l 0) rest) = Ok v <-> exists r, l = vec16 v ++ r /\ fits 2 v.
Proof.
  rewrite bind_Ok. split.
  - intros (rest & (h & -> & Hh)%skip_Ok & (r & -> & Hv)%keep_Ok). destruct h as [|a [|b [|]]]; try done.
    destruct (vec16_view a b v) as [E Hf]; [by rewrite Hv|]. exists r. by rewrite <- E.
  - intros (r & -> & Hf). exists (v ++ r). split; [|rewrite uint16_vec16 by done; apply keep_app].
    unfold vec16. rewrite <- app_assoc. by apply (skip_app (be16 _)).
Qed.

Lemma skipVector16_Ok l r : skipVector16 l = Ok r <-> exists v, l = vec16 v ++ r /\ fits 2 v.
Proof.
  unfold skipVector16. rewrite bind_Ok. split.
  - intros (rest & (h & -> & Hh)%skip_Ok & (v & -> & Hv)%skip_Ok). destruct h as [|a [|b [|]]]; try done.
    destruct (vec16_view a b v) as [E Hf]; [by rewrite Hv|]. exists v. by rewrite <- E.
  - intros (v & -> & Hf). exists (v ++ r). split; [|rewrite uint16_vec16 by done; apply skip_app].
    unfold vec16. rewrite <- app_assoc. by apply (skip_app (be16 _)).
Qed.

Lemma skipVector8_Ok l r : skipVector8 l = Ok r <-> exists v, l = vec8 v ++ r /\ fits 1 v.
Proof.
  unfold skipVector8, fits. rewrite bind_Ok. split.
  - intros (rest & (h & -> & Hh)%skip_Ok & (v & -> & Hv)%skip_Ok). destruct h as [|a [|]]; try done.
    unfold byteAt in Hv. cbn in Hv. exists v. unfold vec8. rewrite Hv, N2Nat.id, ascii_N_embedding. split; [done|apply byte_lt].
  - intros (v & -> & Hf). exists (v ++ r). split; [apply (skip_app [_])|]. unfold byteAt, vec8. cbn [lookup list_lookup app from_option].
    rewrite N_ascii_embedding by exact Hf. rewrite Nat2N.id. apply skip_app.
Qed.

(** Bytes that are too few. *)
Lemma skip_Err n l e : skip n l = Err e <-> (length l < n)%nat /\ e = errTLSMalformed.
Proof. unfold skip. destruct (decide _); naive_solver. Qed.

Lemma lor24 a b c :
  N.lor (N.lor (N.shiftl (N_of_ascii a) 16) (N.shiftl (N_of_ascii b) 8)) (N_of_ascii c) =
  N_of_ascii a * 65536 + N.lor (N.shiftl (N_of_ascii b) 8) (N_of_ascii c).
Proof. rewrite <- N.lor_assoc. apply (lor_shift _ _ 16), bytes16_lt. Qed.

Lemma be24_bytes a b c :
  be24 (N.lor (N.lor (N.shiftl (N_of_ascii a) 16) (N.shiftl (N_of_ascii b) 8)) (N_of_ascii c)) = [a; b; c].
Proof.
  unfold be24. rewrite lor24. pose proof (bytes16_lt b c).
  rewrite N.div_add_l, N.div_small, N.add_0_r, ascii_N_embedding by lia.
  rewrite N.add_comm, N.Div0.mod_add, N.mod_small, be16_bytes by lia. done.
Qed.

Lemma uint24_be24 t n l : n < 2 ^ 24 -> uint24 (t :: be24 n ++ l) 1 = N.to_nat n.
Proof.
  intros Hn. pose proof (uint16_be16 (n mod 65536) l (N.mod_lt n 65536 ltac:(lia))) as H16.
  apply (f_equal N.of_nat) in H16. unfold uint16 in H16. rewrite !N2Nat.id in H16.
  unfold uint24, be24, byteAt in *. cbn [lookup list_lookup app from_option be16] in *. f_equal.
  rewrite lor24, H16, N_ascii_embedding by (apply N.Div0.div_lt_upper_bound; lia). pose proof (N.div_mod n 65536). lia.
Qed.

Lemma fits3_bytes a b c :
  N.lor (N.lor (N.shiftl (N_of_ascii a) 16) (N.shiftl (N_of_ascii b) 8)) (N_of_ascii c) < 2 ^ 24.
Proof. rewrite lor24. pose proof (bytes16_lt b c). pose proof (byte_lt a). change (2 ^ 24) with 16777216. lia. Qed.

(** The handshake header and its body. *)
Lemma handshake_Ok t l v :
  (rest <-? skip tlsHandshakeHeaderLen (t :: l); keep (uint24 (t :: l) 1) rest) = Ok v <->
  exists r, l = vec24 v ++ r /\ fits 3 v.
Proof.
  rewrite bind_Ok. split.
  - intros (rest & (h & E & Hh)%skip_Ok & (r & -> & Hv)%keep_Ok). destruct h as [|t' [|a [|b [|c [|]]]]]; try done.
    injection E as -> ->. exists r. unfold uint24, byteAt in Hv. cbn [lookup list_lookup app from_option] in Hv.
    unfold vec24, fits. rewrite Hv, N2Nat.id, be24_bytes. split; [done|apply fits3_bytes].
  - intros (r & -> & Hf). exists (v ++ r). unfold vec24. rewrite <- app_assoc, uint24_be24, Nat2N.id by exact Hf.
    split; [apply (skip_app (t :: be24 _))|apply keep_app].
Qed.

(** ** The grammar of the messages *)

(** The bytes of a name list and the name it gives: the first entry of the type
    host_name; whatever follows it is not looked at. *)
Inductive names_host : list ascii -> string -> Prop :=
| nh_end l : (length l < 3)%nat -> names_host l ""
| nh_host name r : fits 2 name -> names_host ("000"%char :: vec16 name ++ r) (Strings.TrimSuffix (string_of_list_ascii name) ".")
| nh_other t name r s : t <> "000"%char -> fits 2 name -> names_host r s -> names_host (t :: vec16 name ++ r) s.

(** The bytes of the extensions: the first server_name extension counts. *)
Inductive extensions_host : list ascii -> string -> Prop :=
| xh_end l : (length l < 4)%nat -> extensions_host l ""
| xh_server_name d names junk r s :
    d = vec16 names ++ junk -> fits 2 d -> fits 2 names -> names_host names s -> extensions_host (be16 0 ++ vec16 d ++ r) s
| xh_other t d r s : 0 < t < 65536 -> fits 2 d -> extensions_host r s -> extensions_host (be16 t ++ vec16 d ++ r) s.

(** The body of a ClientHello. *)
Inductive hello_host : list ascii -> string -> Prop :=
| hh_none fixed session ciphers compression l :
    length fixed = 34%nat -> fits 1 session -> fits 2 ciphers -> fits 1 compression -> (length l < 2)%nat ->
    hello_host (fixed ++ vec8 session ++ vec16 ciphers ++ vec8 compression ++ l) ""
| hh_extensions fixed session ciphers compression extensions r s :
    length fixed = 34%nat -> fits 1 session -> fits 2 ciphers -> fits 1 compression -> fits 2 extensions -> extensions_host extensions s ->
    hello_host (fixed ++ vec8 session ++ vec16 ciphers ++ vec8 compression ++ vec16 extensions ++ r) s.

(** Data that begins with one TLS record that holds a whole ClientHello. *)
Inductive client_hello_host : list ascii -> string -> Prop :=
| ch_record v1 v2 body r r' s :
    fits 2 ("001"%char :: vec24 body ++ r) -> fits 3 body -> hello_host body s ->
    client_hello_host ("022"%char :: v1 :: v2 :: vec16 ("001"%char :: vec24 body ++ r) ++ r') s.

(** ** The parser accepts the grammar *)

Lemma length_vec16 v : length (vec16 v) = S (S (length v)).
Proof. done. Qed.

Lemma parseNames_short l : (length l < 3)%nat -> parseNames l = Ok "".
Proof. intros H. rewrite parseNames_equation_1. unfold sniEntryHeaderLen. by destruct (decide _). Qed.

Lemma parseNames_entry t name r :
  fits 2 name ->
  parseNames (t :: vec16 name ++ r) =
  if decide (N_of_ascii t = 0) then Ok (Strings.TrimSuffix (string_of_list_ascii name) ".") else parseNames r.
Proof.
  intros Hf. rewrite parseNames_equation_1. destruct (decide _) as [H|_]; [unfold sniEntryHeaderLen in H; cbn in H; lia|]. cbv zeta.
  change (uint16 (t :: vec16 name ++ r) 1) with (uint16 (vec16 name ++ r) 0). rewrite uint16_vec16 by done.
  change (drop sniEntryHeaderLen (t :: vec16 name ++ r)) with (name ++ r). rewrite decide_False by (rewrite length_app; lia).
  by rewrite take_app_length, drop_app_length.
Qed.

(** Every list is short, begins with an entry, or has an entry that is cut off. *)
Lemma entry_view l :
  (length l < 3)%nat \/ (exists t v r, l = t :: vec16 v ++ r /\ fits 2 v) \/ parseNames l = Err errTLSMalformed.
Proof.
  destruct l as [|t [|a [|b l]]]; try (left; cbn; lia). right.
  destruct (decide (length l < uint16 (a :: b :: l) 0)%nat) as [H|H].
  - right. rewrite parseNames_equation_1. destruct (decide _) as [H'|_]; [unfold sniEntryHeaderLen in H'; cbn in H'; lia|]. cbv zeta.
    by rewrite decide_True.
  - left. set (n := uint16 (a :: b :: l) 0) in *. destruct (vec16_view a b (take n l)) as [E Hf].
    { rewrite (uint16_two a b _ l). rewrite length_take. lia. }
    exists t, (take n l), (drop n l). by rewrite <- E, <- app_assoc, take_drop.
Qed.

Lemma zero_byte t : N_of_ascii t = 0 <-> t = "000"%char.
Proof. split; [|by intros ->]. intros H. by rewrite <- (ascii_N_embedding t), H. Qed.

Lemma parseNames_spec l s : parseNames l = Ok s <-> names_host l s.
Proof.
  split.
  - revert s. induction (Nat.lt_wf_0_projected length l) as [l _ IH]. intros s H.
    destruct (entry_view l) as [Hl|[(t & name & r & -> & Hf)|E]]; [|rewrite parseNames_entry in H by done|congruence].
    + rewrite parseNames_short in H by done. injection H as <-. by apply nh_end.
    + destruct (decide (N_of_ascii t = 0)) as [->%zero_byte|Ht]; [injection H as <-; by apply nh_host|].
      apply nh_other; [by rewrite <- zero_byte|done|]. apply IH; [|done]. cbn. rewrite length_app. lia.
  - induction 1 as [l Hl|name r Hf|t name r s Ht Hf _ IH]; [by apply parseNames_short|..]; rewrite parseNames_entry by done; [done|].
    by rewrite decide_False by by rewrite zero_byte.
Qed.

Lemma field16_bind {A} (f : list ascii -> result A SniError) l a :
  (rest <-? skip 2 l; v <-? keep (uint16 l 0) rest; f v) = Ok a <-> exists v r, l = vec16 v ++ r /\ fits 2 v /\ f v = Ok a.
Proof.
  transitivity ((v <-? (rest <-? skip 2 l; keep (uint16 l 0) rest); f v) = Ok a); [by destruct (skip 2 l)|].
  rewrite bind_Ok. setoid_rewrite field16_Ok. naive_solver.
Qed.

Lemma parseSNIExtension_spec d s :
  parseSNIExtension d = Ok s <-> exists names junk, d = vec16 names ++ junk /\ fits 2 names /\ names_host names s.
Proof. unfold parseSNIExtension, sniListHeaderLen. rewrite field16_bind. by setoid_rewrite parseNames_spec. Qed.

Lemma parseExtensions_short l : (length l < 4)%nat -> parseExtensions l = Ok "".
Proof. intros H. rewrite parseExtensions_equation_1. unfold tlsExtensionHeaderLen. by destruct (decide _). Qed.

Lemma parseExtensions_entry t d r :
  t < 65536 -> fits 2 d ->
  parseExtensions (be16 t ++ vec16 d ++ r) = if decide (t = 0) then parseSNIExtension d else parseExtensions r.
Proof.
  intros Ht Hf. rewrite parseExtensions_equation_1. destruct (decide _) as [H|_]; [unfold tlsExtensionHeaderLen in H; cbn in H; lia|]. cbv zeta.
  rewrite uint16_be16 by done. change (uint16 (be16 t ++ vec16 d ++ r) 2) with (uint16 (vec16 d ++ r) 0). rewrite uint16_vec16, N2Nat.id by done.
  change (drop tlsExtensionHeaderLen (be16 t ++ vec16 d ++ r)) with (d ++ r). rewrite decide_False by (rewrite length_app; lia).
  by rewrite take_app_length, drop_app_length.
Qed.

Lemma extension_view l :
  (length l < 4)%nat \/ (exists t d r, l = be16 t ++ vec16 d ++ r /\ t < 65536 /\ fits 2 d) \/ parseExtensions l = Err errTLSMalformed.
Proof.
  destruct l as [|x [|y [|a [|b l]]]]; try (left; cbn; lia). right.
  destruct (decide (length l < uint16 (a :: b :: l) 0)%nat) as [H|H].
  - right. rewrite parseExtensions_equation_1. destruct (decide _) as [H'|_]; [unfold tlsExtensionHeaderLen in H'; cbn in H'; lia|]. cbv zeta.
    by rewrite decide_True.
  - left. set (n := uint16 (a :: b :: l) 0) in *. destruct (vec16_view a b (take n l)) as [E Hf].
    { rewrite (uint16_two a b _ l). rewrite length_take. lia. }
    exists (N.lor (N.shiftl (N_of_ascii x) 8) (N_of_ascii y)), (take n l), (drop n l).
    rewrite be16_bytes, <- E, <- app_assoc, take_drop. split_and!; [done|apply bytes16_lt|done].
Qed.

Lemma parseExtensions_spec l s : parseExtensions l = Ok s <-> extensions_host l s.
Proof.
  split.
  - revert s. induction (Nat.lt_wf_0_projected length l) as [l _ IH]. intros s H.
    destruct (extension_view l) as [Hl|[(t & d & r & -> & Ht & Hf)|E]]; [|rewrite parseExtensions_entry in H by done|congruence].
    + rewrite parseExtensions_short in H by done. injection H as <-. by apply xh_end.
    + destruct (decide (t = 0)) as [->|Ht0].
      * apply parseSNIExtension_spec in H as (names & junk & Ed & Hn & Hs). by eapply xh_server_name.
      * apply xh_other; [lia|done|]. apply IH; [|done]. cbn. rewrite length_app. lia.
  - induction 1 as [l Hl|d names junk r s -> Hd Hn Hs|t d r s Ht Hf _ IH]; [by apply parseExtensions_short|..]; rewrite parseExtensions_entry by (done || lia).
    + apply parseSNIExtension_spec. by eauto.
    + by rewrite decide_False by lia.
Qed.

Lemma parseHello_spec body s : parseHello body = Ok s <-> hello_host body s.
Proof.
  unfold parseHello, tlsClientHelloFixedLen. rewrite bind_Ok. setoid_rewrite skip_Ok. setoid_rewrite bind_Ok. setoid_rewrite skipVector8_Ok.
  setoid_rewrite bind_Ok. setoid_rewrite skipVector16_Ok. setoid_rewrite bind_Ok. setoid_rewrite skipVector8_Ok. split.
  - intros (l1 & (fixed & -> & Hx) & l2 & (sid & -> & H1) & l3 & (cs & -> & H2) & l & (cm & -> & H3) & H).
    destruct (decide _) as [Hl|Hl]; [injection H as <-; by apply hh_none|].
    apply field16_bind in H as (exts & r & -> & He & H). apply hh_extensions; [done..|]. by apply parseExtensions_spec.
  - intros H. destruct H as [fixed sid cs cm l|fixed sid cs cm exts r s ? ? ? ? ? H].
    all: eexists; split; [by eexists|]; eexists; split; [by eexists|]; eexists; split; [by eexists|]; eexists; split; [by eexists|].
    + by rewrite decide_True.
    + rewrite decide_False by (rewrite length_app, length_vec16; lia). apply field16_bind. exists exts, r. by rewrite parseExtensions_spec.
Qed.

(** Exactly the records that hold a ClientHello are accepted, with the name that the
    grammar gives; data that does not begin with the byte of a handshake record is
    not TLS, and all other data is malformed. *)
Lemma extractSNI_spec data s : extractSNI data = Ok s <-> client_hello_host data s.
Proof.
  unfold extractSNI, tlsRecordHeaderLen. split.
  - intros H. destruct (decide (length data = 0)%nat) as [|H0]; [done|]. destruct (decide (byteAt data 0 <> _)) as [|Ht]; [done|].
    apply bind_Ok in H as (p & (h & -> & Hh)%skip_Ok & H). destruct h as [|x [|v1 [|v2 [|a [|b [|]]]]]]; try done.
    apply dec_stable in Ht. cbn in Ht. assert (x = "022"%char) as -> by (rewrite <- (ascii_N_embedding x), Ht; done).
    apply bind_Ok in H as (record & (r & -> & Hr)%keep_Ok & H). destruct (vec16_view a b record) as [E Hf]; [by rewrite Hr|].
    apply bind_Ok in H as (rest & Hrest & H). destruct record as [|t l]; [apply skip_Ok in Hrest as ([] & ? & ?); done|].
    destruct (decide (byteAt (t :: l) 0 <> _)) as [|Ht']; [done|]. apply dec_stable in Ht'. cbn in Ht'.
    assert (t = "001"%char) as -> by (rewrite <- (ascii_N_embedding t), Ht'; done).
    apply bind_Ok in H as (body & Hk & Hbody%parseHello_spec).
    destruct (proj1 (handshake_Ok "001"%char l body)) as (r' & -> & Hb); [by rewrite bind_Ok; eauto|].
    change (["022"%char; v1; v2; a; b] ++ ("001"%char :: vec24 body ++ r') ++ r)
      with ("022"%char :: v1 :: v2 :: ([a; b] ++ ("001"%char :: vec24 body ++ r')) ++ r).
    rewrite E. by apply ch_record.
  - intros [v1 v2 body r r' s' Hf Hb Hs]. set (record := "001"%char :: vec24 body ++ r) in *.
    change (uint16 ("022"%char :: v1 :: v2 :: vec16 record ++ r') 3) with (uint16 (vec16 record ++ r') 0). rewrite uint16_vec16 by done.
    rewrite decide_False by done. cbn [byteAt lookup list_lookup from_option]. rewrite decide_False by (by intros []).
    assert (skip 5 ("022"%char :: v1 :: v2 :: vec16 record ++ r') = Ok (record ++ r')) as ->
      by exact (skip_app ("022"%char :: v1 :: v2 :: be16 _) (record ++ r')).
    rewrite keep_app.
    pose proof (proj2 (handshake_Ok "001"%char (vec24 body ++ r) body) (ex_intro _ r (conj eq_refl Hb))) as (rest & H1 & H2)%bind_Ok.
    fold record in H1, H2. rewrite H1. rewrite decide_False by (by intros []). rewrite H2. by apply parseHello_spec.
Qed.

(** ** Peeking *)

(** A source of bytes: what it still gives before a read fails. *)
Section source.
Context {S : Type} (read : nat -> S -> list ascii * S) (out : S -> list ascii) (ok : S -> Prop).
Hypothesis read_spec : forall m s bs s', ok s -> read m s = (bs, s') ->
  ok s' /\ out s = bs ++ out s' /\ (length bs <= m)%nat /\ ((0 < m)%nat -> out s <> [] -> bs <> []).

(** Peeking loses nothing, and stops short of the number of bytes and of the size of
    the buffer only when the source is exhausted. *)
Lemma peekLoop_spec n size rounds data s data' s' :
  (n <= rounds + length data)%nat -> (length data <= size)%nat -> ok s -> peekLoop read n size rounds data s = (data', s') ->
  ok s' /\ data' ++ out s' = data ++ out s /\ (length data' <= size)%nat /\ ((Nat.min n size <= length data')%nat \/ out s' = []).
Proof.
  revert data s. induction rounds as [|rounds IH]; intros data s Hr Hd Hok H; cbn [peekLoop] in H.
  - injection H as <- <-. split_and!; [done|done|done|left; lia].
  - destruct (decide _) as [Hlt|Hge]; [|injection H as <- <-; split_and!; [done|done|done|left; lia]].
    destruct (read _ s) as [bs s1] eqn:E. destruct (read_spec _ _ _ _ Hok E) as (Hok1 & Ho & Hl & Hne).
    destruct (decide (bs = [])) as [->|Hbs].
    + injection H as <- <-. split_and!; [done|by rewrite Ho|done|right]. destruct (decide (out s = [])) as [Ho'|Ho']; [|by destruct (Hne ltac:(lia) Ho')].
      by rewrite Ho in Ho'.
    + assert (0 < length bs)%nat by (destruct bs; [done|cbn; lia]).
      apply IH in H as (? & E' & ?); [|rewrite length_app; lia|rewrite length_app; lia|done]. split_and!; [done|by rewrite E', Ho, app_assoc|naive_solver..].
Qed.

Lemma peekLoop_take n size data s data' s' :
  (length data <= size)%nat -> ok s -> peekLoop read n size n data s = (data', s') ->
  ok s' /\ data' ++ out s' = data ++ out s /\ (length data' <= size)%nat /\ take n data' = take (Nat.min n size) (data ++ out s).
Proof.
  intros Hd Hok H. apply peekLoop_spec in H as (Hok' & E & Hl & Hm); [|lia..|done]. split_and!; [done..|]. rewrite <- E.
  rewrite <- (firstn_all2 data' Hl) at 1. rewrite take_take. destruct Hm as [Hm|Hm].
  - by rewrite take_app_le.
  - by rewrite Hm, app_nil_r.
Qed.
End source.

Definition conn_ok (c : Conn) : Prop := Forall (fun seg => seg <> []) (c_segments c).

Definition buf_ok (b : Buf) : Prop := (0 < b_size b)%nat /\ (length (b_data b) <= b_size b)%nat.

Definition readers_ok (r : Readers) : Prop :=
  conn_ok (rs_conn r) /\ buf_ok (rs_inner r) /\ from_option buf_ok True (rs_outer r).

(** What has arrived and is not consumed. *)
Definition arrived (r : Readers) : list ascii :=
  from_option b_data [] (rs_outer r) ++ b_data (rs_inner r) ++ concat (c_segments (rs_conn r)).

Lemma connRead_spec later m c bs c' :
  conn_ok c /\ c_later c = later -> connRead m c = (bs, c') ->
  (conn_ok c' /\ c_later c' = later) /\ concat (c_segments c) = bs ++ concat (c_segments c') /\
  (length bs <= m)%nat /\ ((0 < m)%nat -> concat (c_segments c) <> [] -> bs <> []).
Proof.
  intros [Hc Hl]. unfold connRead, conn_ok in *. destruct (c_segments c) as [|seg segs] eqn:E.
  { intros [= <- <-]. rewrite E. split_and!; [done|done|done|cbn; lia|done]. }
  apply Forall_cons in Hc as [Hseg Hsegs]. intros [= <- <-]. cbn [c_segments c_later]. split_and!; [|done| |rewrite length_take; lia|].
  - destruct (decide _); [done|]. apply Forall_cons_2; [|done]. intros Hd%(f_equal length). rewrite length_drop in Hd. cbn in Hd. lia.
  - destruct (decide _) as [Hm|Hm]; [by rewrite firstn_all2|]. cbn [concat]. by rewrite app_assoc, take_drop.
  - intros Hm _ Ht%(f_equal length). destruct seg; [done|]. rewrite length_take in Ht. cbn in Ht. lia.
Qed.

(** The inner reader as the source of the one that wraps it. *)
Definition innerOut (s : Buf * Conn) : list ascii := b_data s.1 ++ concat (c_segments s.2).
Definition innerOk (size : nat) (later : list ascii) (s : Buf * Conn) : Prop :=
  (0 < size)%nat /\ b_size s.1 = size /\ (length (b_data s.1) <= size)%nat /\ conn_ok s.2 /\ c_later s.2 = later.

Lemma innerRead_spec size later m s bs s' :
  innerOk size later s -> (let '(bs, inner, c) := innerRead m s.1 s.2 in (bs, (inner, c))) = (bs, s') ->
  innerOk size later s' /\ innerOut s = bs ++ innerOut s' /\ (length bs <= m)%nat /\ ((0 < m)%nat -> innerOut s <> [] -> bs <> []).
Proof.
  destruct s as [inner c]. intros (H0 & Hs & Hd & Hc & Hl). unfold innerRead, innerOut, innerOk. cbn [fst snd] in *.
  destruct (decide (b_data inner <> [])) as [Hne|He%dec_stable].
  { intros [= <- <-]. cbn [fst snd b_data b_size]. rewrite length_drop, length_take. split_and!; try done; try lia.
    - by rewrite app_assoc, take_drop.
    - intros Hm _ Ht%(f_equal length). rewrite length_take in Ht. destruct (b_data inner); [done|]. cbn in Ht. lia. }
  rewrite He. cbn [app]. destruct (decide _) as [Hm|Hm].
  - destruct (connRead m c) as [bs1 c1] eqn:E. intros [= <- <-]. cbn [fst snd]. rewrite He.
    destruct (connRead_spec later m c bs1 c1 (conj Hc Hl) E) as ([] & Ho & Hlen & Hp). split_and!; [lia|done|cbn; lia|done..].
  - destruct (connRead (b_size inner) c) as [bs1 c1] eqn:E. intros [= <- <-]. cbn [fst snd b_data b_size].
    destruct (connRead_spec later _ c bs1 c1 (conj Hc Hl) E) as ([] & Ho & Hlen & Hp). rewrite length_drop, length_take.
    split_and!; try done; try lia.
    + by rewrite app_assoc, take_drop.
    + intros Hm0 Hne Ht%(f_equal length). rewrite length_take in Ht. specialize (Hp ltac:(lia) Hne). destruct bs1; [done|]. cbn in Ht. lia.
Qed.

(** A peek consumes nothing; what it shows is the beginning of what has arrived, as
    much as was asked for and as the buffer holds, and is in the buffer. *)
Lemma Peek_spec n r p r' :
  readers_ok r -> Peek n r = (p, r') ->
  readers_ok r' /\ arrived r' = arrived r /\ c_later (rs_conn r') = c_later (rs_conn r) /\
  b_size (outReader r') = b_size (outReader r) /\ (is_Some (rs_outer r') <-> is_Some (rs_outer r)) /\
  p = take (Nat.min n (b_size (outReader r))) (arrived r) /\ p `prefix_of` b_data (outReader r').
Proof.
  destruct r as [inner [outer|] c]; intros (Hc & [Hi0 Hi] & Ho); cbn [rs_inner rs_outer rs_conn from_option] in *; unfold Peek, arrived, outReader, readers_ok.
  - cbn [rs_inner rs_outer rs_conn from_option]. unfold peekOuter. cbn [rs_inner rs_outer rs_conn].
    destruct (peekLoop _ _ _ _ _ _) as [data [inner' c']] eqn:E. intros [= <- <-]. cbn [rs_inner rs_outer rs_conn from_option b_data b_size default].
    destruct Ho as [Ho0 Ho]. apply (peekLoop_take _ innerOut (innerOk (b_size inner) (c_later c))) in E as ((H0 & Hs & Hd & Hc' & Hl) & Eo & Hlen & Ht); [|apply innerRead_spec|done|done].
    cbn [fst snd] in *. unfold innerOut in Eo. cbn [fst snd] in Eo. unfold buf_ok. cbn [b_data b_size]. rewrite Hs.
    split_and!; try done; try lia. exists (drop n data). symmetry. apply take_drop.
  - cbn [rs_inner rs_outer rs_conn from_option]. unfold peekInner. cbn [rs_inner rs_outer rs_conn].
    destruct (peekLoop _ _ _ _ _ _) as [data c'] eqn:E. intros [= <- <-]. cbn [rs_inner rs_outer rs_conn from_option b_data b_size default app].
    apply (peekLoop_take _ (fun c => concat (c_segments c)) (fun c' => conn_ok c' /\ c_later c' = c_later c)) in E as ([Hc' Hl] & Eo & Hlen & Ht); [|apply connRead_spec|done|done].
    unfold buf_ok. cbn [b_data b_size]. split_and!; try done; try lia. exists (drop n data). symmetry. apply take_drop.
Qed.

(** ** The verdict on what has arrived *)

(** The reader of a connection that was just hijacked. *)
Definition fresh (r : Readers) : Prop := readers_ok r /\ rs_outer r = None /\ (tlsRecordHeaderLen <= b_size (rs_inner r))%nat.

Definition recordLen (got : list ascii) : nat := Nat.min (uint16 got 3 + tlsRecordHeaderLen) sniPeekSize.

(** The bytes that the verdict rests on. *)
Definition shown (got : list ascii) : list ascii :=
  if decide (byteAt got 0 = tlsRecordTypeHandshake /\ (tlsRecordHeaderLen <= length got)%nat) then take (recordLen got) got else take 1 got.

Definition judged (unicode_lower : string -> string) (got : list ascii) (host : string) : string * string * option VerifyError :=
  if decide (got = []) then ("", sniCategoryTimeout, Some SniTimeout)
  else if decide (byteAt got 0 <> tlsRecordTypeHandshake) then ("", sniCategoryNotTLS, None)
  else if decide (length got < tlsRecordHeaderLen)%nat then ("", sniCategoryMalformed, Some SniMalformed)
  else verdictOf unicode_lower (take (recordLen got) got) host.

Lemma byteAt_take n got i : (i < n)%nat -> byteAt (take n got) i = byteAt got i.
Proof. intros H. unfold byteAt. by rewrite lookup_take_lt. Qed.

Lemma arrived_NewReaderSize n r : rs_outer r = None -> arrived (NewReaderSize n r) = arrived r.
Proof. intros H. unfold arrived. by rewrite H. Qed.

Lemma readers_ok_NewReaderSize n r : readers_ok r -> readers_ok (NewReaderSize n r).
Proof. intros (? & ? & ?). split_and!; [done|done|]. split; cbn; lia. Qed.

(** The verdict depends on the bytes that have arrived and not on how the network cut
    them or on the buffers, and nothing is consumed. *)
Lemma verifySNI_spec unicode_lower r host r' v :
  fresh r -> verifySNI unicode_lower r host = (r', v) ->
  v = judged unicode_lower (arrived r) host /\ arrived r' = arrived r /\ c_later (rs_conn r') = c_later (rs_conn r) /\
  shown (arrived r) `prefix_of` b_data (outReader r') /\
  (length (shown (arrived r)) = 1%nat \/ (recordLen (arrived r) <= b_size (rs_inner r))%nat -> rs_outer r' = None).
Proof.
  intros (Hok & Hnone & H5). assert (outReader r = rs_inner r) as Ein by (unfold outReader; by rewrite Hnone).
  unfold verifySNI. destruct (Peek 1 r) as [p1 r1] eqn:E1.
  destruct (Peek_spec _ _ _ _ Hok E1) as (Hok1 & A1 & L1 & S1 & O1 & P1 & X1). rewrite Ein in *. rewrite Nat.min_l in P1 by (unfold tlsRecordHeaderLen in H5; lia).
  assert (rs_outer r1 = None) as N1 by (apply eq_None_not_Some; rewrite O1, Hnone; by intros []).
  set (got := arrived r) in *. unfold judged, shown.
  destruct (decide (length p1 = 0)%nat) as [Hp|Hp].
  { assert (got = []) as -> by (destruct got; [done|]; rewrite P1 in Hp; done). intros [= <- <-]. cbn.
    split_and!; [done..| |done]. apply prefix_nil. }
  assert (got <> []) as Hgot by (intros ->; by rewrite P1 in Hp). rewrite (decide_False (P := got = [])) by done.
  assert (byteAt p1 0 = byteAt got 0) as -> by (rewrite P1; apply byteAt_take; lia).
  destruct (decide (byteAt got 0 <> _)) as [Ht|Ht%dec_stable].
  { intros [= <- <-]. rewrite decide_False by tauto. rewrite P1 in X1. done. }
  destruct (Peek tlsRecordHeaderLen r1) as [p2 r2] eqn:E2. destruct (Peek_spec _ _ _ _ Hok1 E2) as (Hok2 & A2 & L2 & S2 & O2 & P2 & X2).
  assert (outReader r1 = rs_inner r1) as Ein1 by (unfold outReader; by rewrite N1).
  rewrite S1 in P2. rewrite Nat.min_l in P2 by done. rewrite A1 in P2. rewrite A1 in A2. rewrite L1 in L2.
  assert (rs_outer r2 = None) as N2 by (apply eq_None_not_Some; rewrite O2, N1; by intros []).
  assert (length p2 < 5 <-> length got < 5)%nat as Hlen by (rewrite P2, length_take; unfold tlsRecordHeaderLen; lia).
  destruct (decide (length p2 < _)%nat) as [Hs|Hs].
  { intros [= <- <-]. rewrite decide_True by (by apply Hlen). rewrite decide_False by (apply Hlen in Hs; unfold tlsRecordHeaderLen; intros []; lia).
    split_and!; [done..| |done]. etrans; [|exact X2]. rewrite P2. exists (drop 1 (take 5 got)). symmetry.
    change (take 1 got) with (take (Nat.min 1 5) got). rewrite <- take_take. apply take_drop. }
  rewrite (decide_False (P := (length got < _)%nat)) by (unfold tlsRecordHeaderLen in *; lia). rewrite (decide_True (P := _ /\ _)) by (unfold tlsRecordHeaderLen in *; split; [done|lia]).
  assert (uint16 p2 3 = uint16 got 3) as -> by (unfold uint16; rewrite P2, !byteAt_take by (unfold tlsRecordHeaderLen; lia); done).
  fold (recordLen got). rewrite S2, S1.
  set (r3 := if decide _ then _ else _). destruct (Peek (recordLen got) r3) as [p3 r4] eqn:E3. intros [= <- <-].
  assert (readers_ok r3 /\ arrived r3 = got /\ c_later (rs_conn r3) = c_later (rs_conn r) /\ (recordLen got <= b_size (outReader r3))%nat /\
    ((recordLen got <= b_size (rs_inner r))%nat -> rs_outer r3 = None)) as (Hok3 & A3 & L3 & S3 & N3).
  { subst r3. destruct (decide (_ < _)%nat) as [Hb|Hb].
    - split_and!; [by apply readers_ok_NewReaderSize|by rewrite arrived_NewReaderSize|done|unfold outReader; cbn; lia|lia].
    - split_and!; [done|done|done|rewrite S2, S1; lia|done]. }
  destruct (Peek_spec _ _ _ _ Hok3 E3) as (Hok4 & A4 & L4 & S4 & O4 & P4 & X4). rewrite Nat.min_l in P4 by done. rewrite A3 in P4.
  rewrite P4 in X4 |- *. split_and!; [done|by rewrite A4|by rewrite L4|done|]. intros Hsmall.
  apply eq_None_not_Some. rewrite O4. assert (rs_outer r3 = None) as ->; [|by intros []]. apply N3. destruct Hsmall as [H1|]; [|done].
  rewrite length_take in H1. unfold recordLen, sniPeekSize, tlsRecordHeaderLen in *. lia.
Qed.

(** ** Well-formed messages *)

(** The messages as a client builds them, and their encoding. *)
Inductive Extension :=
| ServerNames (names : list (ascii * list ascii))
| OtherExtension (type : N) (data : list ascii).

Record ClientHello := {
  ch_fixed : list ascii;
  ch_session : list ascii;
  ch_ciphers : list ascii;
  ch_compression : list ascii;
  ch_extensions : option (list Extension);
}.

Definition encode_names (names : list (ascii * list ascii)) : list ascii :=
  concat ((fun name => name.1 :: vec16 name.2) <$> names).

Definition encode_extension (x : Extension) : list ascii :=
  match x with
  | ServerNames names => be16 0 ++ vec16 (vec16 (encode_names names))
  | OtherExtension t d => be16 t ++ vec16 d
  end.

Definition encode_extensions (xs : list Extension) : list ascii := concat (encode_extension <$> xs).

Definition encode_hello (h : ClientHello) : list ascii :=
  ch_fixed h ++ vec8 (ch_session h) ++ vec16 (ch_ciphers h) ++ vec8 (ch_compression h) ++
  match ch_extensions h with None => [] | Some xs => vec16 (encode_extensions xs) end.

Definition handshake (h : ClientHello) : list ascii := "001"%char :: vec24 (encode_hello h).

Definition encode_record (v1 v2 : ascii) (h : ClientHello) : list ascii := "022"%char :: v1 :: v2 :: vec16 (handshake h).

(** Every field fits the width of its length. *)
Definition extension_ok (x : Extension) : Prop :=
  match x with
  | ServerNames names => Forall (fun name => fits 2 name.2) names /\ fits 2 (encode_names names) /\ fits 2 (vec16 (encode_names names))
  | OtherExtension t d => 0 < t < 65536 /\ fits 2 d
  end.

Definition hello_ok (h : ClientHello) : Prop :=
  length (ch_fixed h) = 34%nat /\ fits 1 (ch_session h) /\ fits 2 (ch_ciphers h) /\ fits 1 (ch_compression h) /\
  match ch_extensions h with None => True | Some xs => Forall extension_ok xs /\ fits 2 (encode_extensions xs) end /\
  fits 2 (handshake h).

(** The name of the first entry of the type host_name in the first server_name
    extension, without the dot of a fully qualified name. *)
Fixpoint first_name (names : list (ascii * list ascii)) : string :=
  match names with
  | [] => ""
  | (t, name) :: names => if decide (t = "000"%char) then Strings.TrimSuffix (string_of_list_ascii name) "." else first_name names
  end.

Fixpoint first_server_name (xs : list Extension) : string :=
  match xs with
  | [] => ""
  | ServerNames names :: _ => first_name names
  | OtherExtension _ _ :: xs => first_server_name xs
  end.

Definition server_name (h : ClientHello) : string := from_option first_server_name "" (ch_extensions h).

Lemma encode_names_host names : Forall (fun name => fits 2 name.2) names -> names_host (encode_names names) (first_name names).
Proof.
  induction 1 as [|[t name] names Hf _ IH]; [apply nh_end; cbn; lia|]. cbn [first_name].
  change (encode_names ((t, name) :: names)) with (t :: vec16 name ++ encode_names names).
  destruct (decide (t = "000"%char)) as [->|]; [by apply nh_host|by apply nh_other].
Qed.

Lemma encode_extensions_host xs : Forall extension_ok xs -> extensions_host (encode_extensions xs) (first_server_name xs).
Proof.
  induction 1 as [|x xs Hx _ IH]; [apply xh_end; cbn; lia|].
  change (encode_extensions (x :: xs)) with (encode_extension x ++ encode_extensions xs).
  destruct x as [names|t d]; cbn [encode_extension extension_ok first_server_name] in *; rewrite <- app_assoc.
  - destruct Hx as (Hn & H1 & H2). eapply (xh_server_name _ _ []); [by rewrite app_nil_r|done|done|by apply encode_names_host].
  - destruct Hx. by apply xh_other.
Qed.

Lemma encode_hello_host h : hello_ok h -> hello_host (encode_hello h) (server_name h).
Proof.
  intros (Hx & H1 & H2 & H3 & He & _). unfold encode_hello, server_name. destruct (ch_extensions h) as [xs|]; cbn [from_option].
  - destruct He. rewrite <- (app_nil_r (vec16 (encode_extensions xs))). apply hh_extensions; [done..|by apply encode_extensions_host].
  - apply hh_none; [done..|cbn; lia].
Qed.

Lemma handshake_fits h : hello_ok h -> fits 3 (encode_hello h).
Proof.
  intros (_ & _ & _ & _ & _ & H). unfold handshake, vec24, fits in *. cbn [length app be24 be16] in H.
  change (2 ^ (8 * 2)) with 65536 in H. change (2 ^ (8 * 3)) with 16777216. lia.
Qed.

(** C27: the parser reads back what a client encodes. For every ClientHello whose fields
    fit the widths of their lengths, with any extensions in any order, the encoded
    record, whatever follows it, gives the first host name of the first server_name
    extension, and the empty name when there is none. *)
Theorem client_hello_roundtrip v1 v2 h rest : hello_ok h -> extractSNI (encode_record v1 v2 h ++ rest) = Ok (server_name h).
Proof.
  intros H. apply extractSNI_spec. unfold encode_record. cbn [app]. rewrite <- (app_nil_r (handshake h)). unfold handshake. cbn [app].
  apply ch_record; [|by apply handshake_fits|by apply encode_hello_host].
  rewrite app_nil_r. by destruct H as (_ & _ & _ & _ & _ & H).
Qed.

(** ** The gate *)

Lemma client_hello_host_app d x s : client_hello_host d s -> client_hello_host (d ++ x) s.
Proof. intros [v1 v2 body r r' s' Hf Hb Hs]. cbn [app]. rewrite <- app_assoc. by apply ch_record. Qed.

Lemma client_hello_length got s : client_hello_host got s -> exists record r, got = record ++ r /\ (length record = uint16 got 3 + 5)%nat /\ client_hello_host record s.
Proof.
  intros [v1 v2 body r r' s' Hf Hb Hs]. set (record := "001"%char :: vec24 body ++ r) in *.
  exists ("022"%char :: v1 :: v2 :: vec16 record), r'. split_and!; [done| |].
  - change (uint16 ("022"%char :: v1 :: v2 :: vec16 record ++ r') 3) with (uint16 (vec16 record ++ r') 0). rewrite uint16_vec16 by done.
    cbn [length]. rewrite length_vec16. lia.
  - rewrite <- (app_nil_r (vec16 record)). by apply ch_record.
Qed.

Lemma recordLen_ge got : (tlsRecordHeaderLen <= recordLen got)%nat.
Proof. unfold recordLen. apply Nat.min_glb; [lia|]. apply Nat.leb_le. vm_compute. reflexivity. Qed.

(** What is peeked is accepted when the data is and the record is not too long. *)
Lemma peeked_host got s :
  (5 <= length got)%nat ->
  extractSNI (take (recordLen got) got) = Ok s <-> client_hello_host got s /\ (uint16 got 3 + tlsRecordHeaderLen <= sniPeekSize)%nat.
Proof.
  intros H5. rewrite extractSNI_spec. pose proof (recordLen_ge got) as Hk. split.
  - intros H. split; [rewrite <- (take_drop (recordLen got) got); by apply client_hello_host_app|].
    apply client_hello_length in H as (record & r & E & Hl & _). apply (f_equal length) in E. rewrite length_app, length_take, Hl in E.
    unfold uint16 in E. rewrite !byteAt_take in E by (unfold tlsRecordHeaderLen in Hk; lia). fold (uint16 got 3) in E.
    assert (recordLen got <= sniPeekSize)%nat by (unfold recordLen; lia). unfold tlsRecordHeaderLen. lia.
  - intros [H Hs]. apply client_hello_length in H as (record & r & -> & Hl & H). unfold recordLen. rewrite Nat.min_l by done.
    unfold tlsRecordHeaderLen. by rewrite <- Hl, take_app_length.
Qed.

Lemma client_hello_first got s : client_hello_host got s -> byteAt got 0 = tlsRecordTypeHandshake /\ (5 <= length got)%nat.
Proof. intros []. by split; [|cbn; lia]. Qed.

(** Once the first byte is right, every error is that of a malformed message. *)
Definition tls {A} (r : result A SniError) : Prop := r <> Err errNotTLS.

Lemma tls_bind {A B} (e : result A SniError) (k : A -> result B SniError) : tls e -> (forall x, tls (k x)) -> tls (x <-? e; k x).
Proof. unfold tls. destruct e; naive_solver. Qed.

Lemma tls_skip n l : tls (skip n l).
Proof. unfold tls, skip. by destruct (decide _). Qed.

Lemma tls_keep n l : tls (keep n l).
Proof. unfold tls, keep. by destruct (decide _). Qed.

Create HintDb tls.
#[local] Hint Resolve tls_bind tls_skip tls_keep : tls.

Lemma tls_names l : tls (parseNames l).
Proof.
  induction (Nat.lt_wf_0_projected length l) as [l _ IH]. destruct (entry_view l) as [Hl|[(t & name & r & -> & Hf)|E]]; [|rewrite parseNames_entry by done|by rewrite E].
  - by rewrite parseNames_short.
  - destruct (decide _); [done|]. apply IH. cbn. rewrite length_app. lia.
Qed.

Lemma tls_extensions l : tls (parseExtensions l).
Proof.
  induction (Nat.lt_wf_0_projected length l) as [l _ IH]. destruct (extension_view l) as [Hl|[(t & d & r & -> & Ht & Hf)|E]]; [|rewrite parseExtensions_entry by done|by rewrite E].
  - by rewrite parseExtensions_short.
  - destruct (decide _); [unfold parseSNIExtension; auto using tls_names with tls|]. apply IH. cbn. rewrite length_app. lia.
Qed.

Lemma extractSNI_tls got : got <> [] -> byteAt got 0 = tlsRecordTypeHandshake -> tls (extractSNI got).
Proof.
  intros Hne Ht. unfold extractSNI. rewrite decide_False by (by destruct got). rewrite decide_False by (by intros []).
  apply tls_bind; [apply tls_skip|intros x1]. apply tls_bind; [apply tls_keep|intros record]. apply tls_bind; [apply tls_skip|intros x2].
  destruct (decide _); [done|]. apply tls_bind; [apply tls_keep|intros body].
  unfold parseHello, skipVector8, skipVector16. repeat (apply tls_bind; [auto with tls|intros ?]).
  destruct (decide _); [done|]. auto using tls_extensions with tls.
Qed.

Section gate.
Context (unicode_lower : string -> string).

(** A tunnel that is let through: with a name, or without one where that is allowed. *)
Inductive admitted (fp : ForwardProxy) (host : string) (got : list ascii) : Prop :=
| ad_name s : s <> "" -> client_hello_host got s -> normalizeName unicode_lower s = normalizeName unicode_lower host -> admitted fp host got
| ad_nameless : SNIRequireTLSEnabled fp = false -> client_hello_host got "" -> admitted fp host got
| ad_opaque : SNIRequireTLSEnabled fp = false -> got <> [] -> byteAt got 0 <> tlsRecordTypeHandshake -> admitted fp host got.

(** Data too short for a record or not of its type is admitted as opaque or not at all. *)
Lemma admitted_opaque fp host got :
  byteAt got 0 <> tlsRecordTypeHandshake \/ (length got < 5)%nat -> admitted fp host got ->
  SNIRequireTLSEnabled fp = false /\ got <> [] /\ byteAt got 0 <> tlsRecordTypeHandshake.
Proof.
  intros H. assert (forall s, client_hello_host got s -> False) as Hno by (intros s []%client_hello_first; destruct H; [done|lia]).
  intros [s _ Hs%Hno _|_ Hs%Hno|? ? ?]; done.
Qed.

(** The verdict and the requirement of TLS, on the bytes that have arrived. *)
Definition passes (fp : ForwardProxy) (v : string * string * option VerifyError) : Prop :=
  v.2 = None /\ (SNIRequireTLSEnabled fp = true -> v.1.2 <> sniCategoryNotTLS /\ v.1.2 <> sniCategoryNoExtension).

Lemma passes_judged fp got host :
  passes fp (judged unicode_lower got host) <->
  admitted fp host got /\ (byteAt got 0 = tlsRecordTypeHandshake -> uint16 got 3 + tlsRecordHeaderLen <= sniPeekSize)%nat.
Proof.
  unfold judged, passes. destruct (decide (got = [])) as [->|Hne].
  { split; [by intros []|]. intros [(_ & ? & _)%admitted_opaque _]; [done|right; cbn; lia]. }
  destruct (decide (byteAt got 0 <> _)) as [Ht|Ht%dec_stable].
  { cbn. split.
    - intros [_ H]. split; [apply ad_opaque; [|done|done]|done]. destruct (SNIRequireTLSEnabled fp); [by destruct (H eq_refl)|done].
    - intros [(-> & _ & _)%admitted_opaque _]; [done|by left]. }
  destruct (decide (length got < _)%nat) as [Hl|Hl]; unfold tlsRecordHeaderLen in Hl.
  { split; [by intros []|]. intros [(_ & _ & ?)%admitted_opaque _]; [done|by right]. }
  unfold verdictOf. pose proof (fun s => peeked_host got s ltac:(lia)) as Hp.
  destruct (extractSNI _) as [s|e] eqn:E.
  - destruct (proj1 (Hp s) eq_refl) as [Hs Hcap].
    assert (forall s', client_hello_host got s' -> s' = s) as Hu by (intros s' Hs'; symmetry; by apply (@Ok_inj string SniError), Hp).
    destruct (decide (s = "")) as [->|Hn]; [|destruct (decide (normalizeName _ s <> _)) as [Hm|Hm%dec_stable]]; cbn; split.
    + intros [_ H]. split; [|done]. apply ad_nameless; [|done]. destruct (SNIRequireTLSEnabled fp); [by destruct (H eq_refl)|done].
    + intros [[s' Hs0 Hs'%Hu _|Hr _|_ _ ?] _]; [done| |done]. by rewrite Hr.
    + by intros [].
    + intros [[s' _ ->%Hu ?|_ Hs'%Hu|_ _ ?] _]; [done|by rewrite Hs' in Hn|done].
    + intros _. split; [by eapply ad_name|done].
    + done.
  - assert (e = errTLSMalformed) as ->.
    { destruct e; [|done]. destruct (extractSNI_tls (take (recordLen got) got)); [..|done]; pose proof (recordLen_ge got) as Hk; unfold tlsRecordHeaderLen in Hk.
      - destruct got; [done|]. by destruct (recordLen _); [lia|].
      - by rewrite byteAt_take by lia. }
    split; [by intros []|]. intros [[s _ Hs _|_ Hs|_ _ ?] Hcap]; [| |done].
    all: by pose proof (proj2 (Hp _) (conj Hs (Hcap Ht))).
Qed.

Lemma sniGate_Ok fp r host r' :
  SNIVerificationEnabled fp = true ->
  sniGate unicode_lower fp r host = Ok r' <-> (verifySNI unicode_lower r host).1 = r' /\ passes fp (verifySNI unicode_lower r host).2.
Proof.
  intros Hv. unfold sniGate, passes. rewrite Hv. destruct (verifySNI _ r host) as [r1 [[s category] err]]. cbn [fst snd].
  destruct (decide _) as [(-> & Hr & Hc)|Hn]; [|destruct err as [e|]].
  - split; [done|]. intros (_ & _ & H). destruct (H Hr). naive_solver.
  - split; [done|]. by intros (_ & ? & _).
  - split; [intros [= <-]; split; [done|split; [done|]]; intros Hr; split; intros ->; apply Hn; naive_solver|naive_solver].
Qed.

(** What holds of the bytes of the verdict holds of all that begins with them. *)
Lemma admitted_shown fp host got l :
  shown got `prefix_of` l -> (byteAt got 0 = tlsRecordTypeHandshake -> uint16 got 3 + tlsRecordHeaderLen <= sniPeekSize)%nat ->
  admitted fp host got -> admitted fp host l.
Proof.
  intros [x ->] Hcap H. unfold shown.
  assert (forall s, client_hello_host got s ->
    client_hello_host ((if decide (byteAt got 0 = tlsRecordTypeHandshake /\ (tlsRecordHeaderLen <= length got)%nat) then take (recordLen got) got else take 1 got) ++ x) s) as Hh.
  { intros s Hs. destruct (client_hello_first _ _ Hs) as [Ht Hl]. rewrite decide_True by done.
    apply client_hello_host_app, extractSNI_spec, peeked_host; auto. }
  destruct H as [s Hs0 Hs Hn|Hr Hs|Hr Hne Ht]; [by eapply ad_name; [|apply Hh|]|by apply ad_nameless, Hh|].
  rewrite decide_False by (by intros []). by destruct got; [|apply ad_opaque].
Qed.


(** C28: the verdict is a function of the bytes. However the network cuts the bytes
    that arrive in time and whatever the sizes of the buffers, the same bytes get
    the same verdict; and when the first record fits the buffer of the reader, or the
    bytes are not TLS, a tunnel that is spliced relays exactly what the client sent. *)
Theorem verdict_of_bytes r1 r2 host :
  fresh r1 -> fresh r2 -> arrived r1 = arrived r2 ->
  (verifySNI unicode_lower r1 host).2 = (verifySNI unicode_lower r2 host).2 /\
  (byteAt (arrived r1) 0 <> tlsRecordTypeHandshake \/ (recordLen (arrived r1) <= b_size (rs_inner r1))%nat ->
   relayed (verifySNI unicode_lower r1 host).1 = stream r1).
Proof.
  intros H1 H2 Ha. destruct (verifySNI unicode_lower r1 host) as [r1' v1] eqn:E1. destruct (verifySNI unicode_lower r2 host) as [r2' v2] eqn:E2.
  destruct (verifySNI_spec _ _ _ _ _ H1 E1) as (-> & A1 & L1 & P1 & N1). destruct (verifySNI_spec _ _ _ _ _ H2 E2) as (-> & _).
  split; [by cbn; rewrite Ha|]. intros Hfit. cbn [fst].
  assert (stream r1 = arrived r1 ++ c_later (rs_conn r1)) as -> by (unfold stream, arrived; by rewrite <- !app_assoc).
  assert (rs_outer r1' = None) as Hnone.
  { apply N1. destruct Hfit as [Ht|]; [|by right]. destruct (arrived r1) as [|c got] eqn:E; [right|left].
    - by destruct H1 as (_ & _ & ?).
    - unfold shown. by rewrite decide_False by (by intros []). }
  rewrite <- A1, <- L1. unfold relayed, arrived, outReader. rewrite Hnone. cbn [default from_option app id]. by rewrite <- app_assoc.
Qed.
End gate.

(** ** Examples *)

(** A client whose ClientHello is longer than the reader's buffer and who sends more
    right after it: the bytes that the inner reader took in with the end of the hello
    are neither in the reader that is flushed nor on the connection. *)
Definition demo_hello (padding : nat) : ClientHello :=
  {| ch_fixed := replicate 34 "v"%char; ch_session := []; ch_ciphers := list_ascii_of_string "aesgcm"; ch_compression := ["000"%char];
     ch_extensions := Some [OtherExtension 21 (replicate padding "000"%char); ServerNames [("000"%char, list_ascii_of_string "Example.com")]] |}.

Definition demo_verify : ForwardProxy := {| fp_SNIVerification := None; fp_SNIRequireTLS := Some true |}.

Definition demo_hijack (size first : nat) (sent : list ascii) : Readers :=
  hijacked size [] {| c_segments := [take first sent; drop first sent]; c_later := list_ascii_of_string "later" |}.

Example resized_reader_loses_bytes :
  let sent := encode_record "003" "001" (demo_hello 4500) ++ list_ascii_of_string "early" in
  exists r',
    sniGate (fun s => s) demo_verify (demo_hijack 4096 4096 sent) "example.com" = Ok r' /\
    stream r' = sent ++ list_ascii_of_string "later" /\
    relayed r' = encode_record "003" "001" (demo_hello 4500) ++ list_ascii_of_string "later".
Proof. eexists. split_and!; vm_compute; reflexivity. Qed.

(** A tunnel to another host than the one that was asked for is closed. *)
Example other_host_refused :
  sniGate (fun s => s) demo_verify (demo_hijack 64 20 (encode_record "003" "001" (demo_hello 3))) "example.org" = Err "sni_mismatch".
Proof. vm_compute. reflexivity. Qed.

Lemma demo_hello_ok : hello_ok (demo_hello 3).
Proof. unfold hello_ok, fits. split_and!; [done..| |done]. split; [|done]. repeat apply Forall_cons_2; [done| |done]. by split_and!; [apply Forall_singleton| |]. Qed.

Lemma client_hello_roundtrip_witness : hello_ok (demo_hello 3) /\ extractSNI (encode_record "003" "001" (demo_hello 3) ++ ["x"%char]) = Ok "Example.com".
Proof. split; [exact demo_hello_ok|]. exact (client_hello_roundtrip "003" "001" (demo_hello 3) ["x"%char] demo_hello_ok). Defined.

Definition demo_readers (first : nat) : Readers := demo_hijack 256 first (encode_record "003" "001" (demo_hello 3)).

Lemma demo_fresh first : (0 < first < 20)%nat -> fresh (demo_readers first).
Proof.
  intros H. split_and!; [|done|cbn; unfold tlsRecordHeaderLen; lia]. split_and!; [|split; cbn; lia|done].
  repeat apply Forall_cons_2; [| |done]; intros E%(f_equal length); revert E; rewrite ?length_take, ?length_drop;
    change (length (encode_record "003" "001" (demo_hello 3))) with 83%nat; cbn [length]; lia.
Qed.

Lemma demo_admitted : admitted (fun s => s) demo_verify "example.com." (arrived (demo_readers 7)).
Proof. apply (ad_name _ _ _ _ "Example.com"); [done| |vm_compute; reflexivity]. apply extractSNI_spec. vm_compute. reflexivity. Qed.


Lemma verdict_of_bytes_witness :
  fresh (demo_readers 7) /\ fresh (demo_readers 11) /\
  (verifySNI (fun s => s) (demo_readers 7) "example.com").2 = (verifySNI (fun s => s) (demo_readers 11) "example.com").2 /\
  relayed (verifySNI (fun s => s) (demo_readers 7) "example.com").1 = stream (demo_readers 7).
Proof.
  destruct (verdict_of_bytes (fun s => s) (demo_readers 7) (demo_readers 11) "example.com" (demo_fresh 7 ltac:(lia)) (demo_fresh 11 ltac:(lia)) eq_refl) as [H1 H2].
  split; [exact (demo_fresh 7 ltac:(lia))|]. split; [exact (demo_fresh 11 ltac:(lia))|]. split; [exact H1|].
  apply H2. right. apply Nat.leb_le. vm_compute. reflexivity.
Defined.
