(* ===== verification/Tracker.v ===== *)
(** * Requests that wait for a response

    [internal/mcp/request_tracker.go] and the check of [ForwardScanned]
    ([internal/mcp/proxy.go]) that lets a response through only if a request with its
    identifier is waiting. An identifier is its JSON text, nil and the empty text
    being the same; a nil tracker is [None]. The mutex makes every operation one
    atomic step.

    Whether a line is a response, and the receipts of the outcomes, are arguments. *)

From S2P Require Import Prelude.
Local Open Scope nat_scope.

Definition maxTrackedRequests : nat := Z.to_nat 10000.
Definition Null : string := "null".

(** The canonical identifier; [""] for nil and null. *)
Definition canonicalID (id : string) : string := if decide (id = "" \/ id = Null) then "" else id.

Section tracker.
Context {Outcome : Type} (noOutcome : Outcome).

Record RequestTracker := {
  rt_pending : gmap string Outcome;
  rt_order : list string;
  rt_seeded : bool;
  rt_strict : bool;
}.

Definition NewRequestTracker : RequestTracker :=
  {| rt_pending := ∅; rt_order := []; rt_seeded := false; rt_strict := false |}.

(** The index into an empty slice panics: [None]. *)
Definition TrackOutcome (id : string) (outcome : Outcome) (t : RequestTracker) : option RequestTracker :=
  let key := canonicalID id in
  if decide (key = "") then Some t
  else if decide (is_Some (rt_pending t !! key)) then Some t
  else
    evicted ← (if decide (maxTrackedRequests <= size (rt_pending t))
               then oldest ← head (rt_order t); Some (delete oldest (rt_pending t), tail (rt_order t))
               else Some (rt_pending t, rt_order t));
    Some {| rt_pending := <[key := outcome]> evicted.1; rt_order := evicted.2 ++ [key]; rt_seeded := true; rt_strict := rt_strict t |}.

Definition Track (id : string) (t : RequestTracker) : option RequestTracker := TrackOutcome id noOutcome t.

(** [NewStrictRequestTracker]: the requests are tracked one by one. *)
Fixpoint trackAll (ids : list string) (t : RequestTracker) : option RequestTracker :=
  match ids with [] => Some t | id :: ids => t ← Track id t; trackAll ids t end.

Definition NewStrictRequestTracker (ids : list string) : option RequestTracker :=
  trackAll ids {| rt_pending := ∅; rt_order := []; rt_seeded := true; rt_strict := true |}.

(** The first occurrence of a key is cut out of the order. *)
Fixpoint removeKey (key : string) (order : list string) : list string :=
  match order with
  | [] => []
  | k :: order => if decide (k = key) then order else k :: removeKey key order
  end.

Definition Consume (id : string) (t : RequestTracker) : (Outcome * bool) * RequestTracker :=
  let key := canonicalID id in
  if decide (key = "") then (noOutcome, negb (rt_strict t), t)
  else match rt_pending t !! key with
       | None => (noOutcome, false, t)
       | Some outcome =>
           (outcome, true,
            {| rt_pending := delete key (rt_pending t); rt_order := removeKey key (rt_order t);
               rt_seeded := rt_seeded t; rt_strict := rt_strict t |})
       end.

Definition Validate (id : string) (t : RequestTracker) : bool * RequestTracker := let '(_, ok, t) := Consume id t in (ok, t).

Definition DrainPendingOutcomes (t : RequestTracker) : list (string * Outcome) * RequestTracker :=
  ((fun key => (key, default noOutcome (rt_pending t !! key))) <$> rt_order t,
   {| rt_pending := ∅; rt_order := []; rt_seeded := rt_seeded t; rt_strict := rt_strict t |}).

Definition DrainPending (t : RequestTracker) : list string * RequestTracker :=
  let (pending, t) := DrainPendingOutcomes t in (pending.*1, t).

(** ** The check of a response *)

(** What happens to a line of the server: it goes on, with the outcome to report if
    there is one, or an error with this identifier is written instead. *)
Inductive verdict := Forward (outcome : option Outcome) | Refuse (id : string).

(** The second half of the check, after [Seeded] and [isResponse] said yes. *)
Definition checkResponse (ActionID : Outcome -> string) (id : string) (t : RequestTracker) : verdict * RequestTracker :=
  if decide (canonicalID id = "" /\ rt_strict t = true) then (Refuse "", t)
  else if decide (id <> "") then
    let '(outcome, valid, t') := Consume id t in
    if valid then (Forward (if decide (ActionID outcome <> "") then Some outcome else None), t')
    else (Refuse (if rt_strict t then "" else id), t')
  else (Forward None, t).

(** ** A session *)

(** The goroutine that reads the server's lines is between two lines, or has read
    [Seeded] for a response and not yet looked up its identifier. The log has the
    requests that were tracked and what became of them, the newest last. *)
Inductive event :=
| Tracked (key : string)
| Evicted (key : string)
| Answered (key : string)
| Drained (key : string)
| Passed (id : string).

Record Session := { ss_tracker : RequestTracker; ss_reading : option string; ss_log : list event }.

(** The keys that a call of [TrackOutcome] adds and evicts. *)
Definition trackEvents (id : string) (t : RequestTracker) : list event :=
  let key := canonicalID id in
  if decide (key = "" \/ is_Some (rt_pending t !! key)) then []
  else (if decide (maxTrackedRequests <= size (rt_pending t)) then Evicted <$> take 1 (rt_order t) else []) ++ [Tracked key].

Definition checkEvents (id : string) (v : verdict) : list event :=
  match v with
  | Forward _ => if decide (canonicalID id = "") then [Passed id] else [Answered (canonicalID id)]
  | Refuse _ => []
  end.

Inductive session_step (ActionID : Outcome -> string) : Session -> Session -> Prop :=
| ss_track id outcome t t' reading log :
    TrackOutcome id outcome t = Some t' ->
    session_step ActionID {| ss_tracker := t; ss_reading := reading; ss_log := log |}
                 {| ss_tracker := t'; ss_reading := reading; ss_log := log ++ trackEvents id t |}
| ss_unseeded id t log :
    rt_seeded t = false ->
    session_step ActionID {| ss_tracker := t; ss_reading := None; ss_log := log |}
                 {| ss_tracker := t; ss_reading := None; ss_log := log ++ [Passed id] |}
| ss_seeded id t log :
    rt_seeded t = true ->
    session_step ActionID {| ss_tracker := t; ss_reading := None; ss_log := log |}
                 {| ss_tracker := t; ss_reading := Some id; ss_log := log |}
| ss_check id t v t' log :
    checkResponse ActionID id t = (v, t') ->
    session_step ActionID {| ss_tracker := t; ss_reading := Some id; ss_log := log |}
                 {| ss_tracker := t'; ss_reading := None; ss_log := log ++ checkEvents id v |}
| ss_drain t pending t' reading log :
    DrainPending t = (pending, t') ->
    session_step ActionID {| ss_tracker := t; ss_reading := reading; ss_log := log |}
                 {| ss_tracker := t'; ss_reading := reading; ss_log := log ++ (Drained <$> pending) |}.

Definition started (t : RequestTracker) : Session := {| ss_tracker := t; ss_reading := None; ss_log := [] |}.

(** ** The tracker as a queue *)

(** The waiting requests, the oldest first. *)
Definition waiting (t : RequestTracker) : list (string * Outcome) :=
  (fun key => (key, default noOutcome (rt_pending t !! key))) <$> rt_order t.

Definition queueTrack (id : string) (outcome : Outcome) (q : list (string * Outcome)) : list (string * Outcome) :=
  let key := canonicalID id in
  if decide (key = "" \/ key ∈ q.*1) then q
  else (if decide (maxTrackedRequests <= length q) then tail q else q) ++ [(key, outcome)].

Definition queueFind (key : string) (q : list (string * Outcome)) : option Outcome := snd <$> head (filter (fun e => e.1 = key) q).

Definition queueConsume (strict : bool) (id : string) (q : list (string * Outcome)) : (Outcome * bool) * list (string * Outcome) :=
  let key := canonicalID id in
  if decide (key = "") then (noOutcome, negb strict, q)
  else match queueFind key q with
       | None => (noOutcome, false, q)
       | Some outcome => (outcome, true, filter (fun e => e.1 <> key) q)
       end.

Definition tracker_inv (t : RequestTracker) : Prop :=
  NoDup (rt_order t) /\ (forall k, k ∈ rt_order t <-> is_Some (rt_pending t !! k)) /\
  (forall k, k ∈ rt_order t -> canonicalID k = k /\ k <> "") /\ length (rt_order t) <= maxTrackedRequests.

Lemma waiting_keys t : (waiting t).*1 = rt_order t.
Proof. unfold waiting. rewrite <- list_fmap_compose. by apply list_fmap_id. Qed.

Lemma length_waiting t : length (waiting t) = length (rt_order t).
Proof. apply length_fmap. Qed.

Lemma pending_size t : tracker_inv t -> size (rt_pending t) = length (rt_order t).
Proof.
  intros (Hnd & Hdom & _). rewrite <- size_dom. rewrite <- (size_list_to_set (C := gset string) (rt_order t)) by done.
  f_equal. apply set_eq. intros k. by rewrite elem_of_dom, elem_of_list_to_set, Hdom.
Qed.

(** The outcomes of keys do not depend on entries of other keys. *)
Lemma waiting_ext (m m' : gmap string Outcome) (order : list string) :
  (forall k, k ∈ order -> m !! k = m' !! k) ->
  (fun key => (key, default noOutcome (m !! key))) <$> order = (fun key => (key, default noOutcome (m' !! key))) <$> order.
Proof. intros H. apply list_fmap_ext. intros i k Hk. by rewrite H by (by eapply list_elem_of_lookup_2). Qed.

Lemma canonicalID_twice id : canonicalID (canonicalID id) = canonicalID id.
Proof. unfold canonicalID. destruct (decide (id = "" \/ id = Null)) as [H|H]; [done|]. by rewrite decide_False. Qed.

Lemma maxTracked_pos : 0 < maxTrackedRequests.
Proof. unfold maxTrackedRequests. lia. Qed.

(** Making room never fails: at the limit there is an oldest request. *)
Lemma make_room t :
  tracker_inv t ->
  exists m order,
    (if decide (maxTrackedRequests <= length (rt_order t))
     then oldest ← head (rt_order t); Some (delete oldest (rt_pending t), tail (rt_order t))
     else Some (rt_pending t, rt_order t)) = Some (m, order) /\
    NoDup order /\ (forall k, k ∈ order <-> is_Some (m !! k)) /\ (forall k, k ∈ order -> k ∈ rt_order t) /\ length order < maxTrackedRequests /\
    (fun key => (key, default noOutcome (m !! key))) <$> order =
    (if decide (maxTrackedRequests <= length (rt_order t)) then tail (waiting t) else waiting t).
Proof.
  intros (Hnd & Hdom & Hkeys & Hlen). pose proof maxTracked_pos as Hpos. destruct (decide _) as [Hfull|Hroom]; [|exists (rt_pending t), (rt_order t); split_and!; (done || lia)].
  unfold waiting. destruct (rt_order t) as [|oldest order] eqn:Eo; [cbn in Hfull; lia|]. apply NoDup_cons in Hnd as [Hold Hnd].
  exists (delete oldest (rt_pending t)), order. cbn [head tail fmap list_fmap length] in *. split_and!; [done|done| |set_solver|lia|].
  - intros k. rewrite lookup_delete_is_Some, <- Hdom. set_solver.
  - apply waiting_ext. intros k Hk. apply lookup_delete_ne. by intros ->.
Qed.

Lemma TrackOutcome_spec id o t :
  tracker_inv t ->
  exists t', TrackOutcome id o t = Some t' /\ tracker_inv t' /\ waiting t' = queueTrack id o (waiting t) /\ rt_strict t' = rt_strict t.
Proof.
  intros Hinv. pose proof (pending_size t Hinv) as Hsize. destruct (make_room t Hinv) as (m & order & E & Hnd & Hdom & Hsub & Hlen & Hw).
  unfold TrackOutcome, queueTrack. rewrite waiting_keys, length_waiting, Hsize, E, <- Hw. clear E Hw Hsize.
  pose proof Hinv as (_ & Hdom0 & Hkeys & _). set (key := canonicalID id).
  destruct (decide (key = "")) as [He|He]; [exists t; by rewrite (decide_True (P := _ \/ _)) by auto|].
  destruct (decide (is_Some (rt_pending t !! key))) as [Hin|Hin]; [exists t; by rewrite (decide_True (P := _ \/ _)) by (rewrite Hdom0; auto)|].
  rewrite (decide_False (P := _ \/ _)) by (rewrite Hdom0; tauto). assert (key ∉ order) as Hnin by (intros ?%Hsub; by rewrite <- Hdom0 in Hin).
  eexists. split; [reflexivity|]. unfold tracker_inv, waiting. cbn [rt_pending rt_order rt_strict fst snd]. split_and!; [|..|done].
  - apply NoDup_app. split_and!; [done| |apply NoDup_singleton]. intros x Hx ->%list_elem_of_singleton. done.
  - intros k. rewrite elem_of_app, list_elem_of_singleton, lookup_insert_is_Some, Hdom. destruct (decide (key = k)); naive_solver.
  - intros k [?%Hsub%Hkeys| ->%list_elem_of_singleton]%elem_of_app; [done|]. by split; [apply canonicalID_twice|].
  - rewrite length_app. cbn. lia.
  - rewrite fmap_app. cbn [fmap list_fmap]. rewrite lookup_insert_eq. f_equal. apply waiting_ext. intros k Hk. apply lookup_insert_ne. by intros ->.
Qed.

Lemma queueFind_fmap key (f : string -> Outcome) order :
  queueFind key ((fun k => (k, f k)) <$> order) = if decide (key ∈ order) then Some (f key) else None.
Proof.
  unfold queueFind. induction order as [|k order IH]; [by rewrite decide_False by set_solver|]. cbn [fmap list_fmap]. rewrite filter_cons. cbn [fst].
  destruct (decide (k = key)) as [->|Hk]; [by rewrite decide_True by set_solver|]. rewrite IH. apply decide_ext. set_solver.
Qed.

Lemma queueFind_waiting key t : tracker_inv t -> queueFind key (waiting t) = rt_pending t !! key.
Proof.
  intros (_ & Hdom & _). unfold waiting. rewrite queueFind_fmap. destruct (decide _) as [Hin|Hin]; rewrite Hdom in Hin.
  - by destruct Hin as [o ->].
  - symmetry. by apply eq_None_not_Some.
Qed.

Lemma removeKey_filter key order : NoDup order -> removeKey key order = filter (fun k => k <> key) order.
Proof.
  induction 1 as [|k order Hk _ IH]; [done|]. cbn [removeKey]. rewrite filter_cons. destruct (decide (k = key)) as [->|Hne].
  - rewrite decide_False by tauto. symmetry. apply filter_all, Forall_forall. by intros x Hx ->.
  - by rewrite decide_True, IH.
Qed.

Lemma filter_keys key (f : string -> Outcome) (order : list string) :
  filter (fun e : string * Outcome => e.1 <> key) ((fun k => (k, f k)) <$> order) = (fun k => (k, f k)) <$> filter (fun k => k <> key) order.
Proof. induction order as [|k order IH]; [done|]. cbn [fmap list_fmap]. rewrite !filter_cons. cbn [fst]. destruct (decide _); [by rewrite IH|done]. Qed.

Lemma Consume_spec id t :
  tracker_inv t ->
  let '(o, ok, t') := Consume id t in
  tracker_inv t' /\ (o, ok, waiting t') = queueConsume (rt_strict t) id (waiting t) /\ rt_strict t' = rt_strict t /\ rt_seeded t' = rt_seeded t.
Proof.
  intros Hinv. unfold Consume, queueConsume. rewrite queueFind_waiting by done. set (key := canonicalID id).
  destruct (decide (key = "")); [done|]. destruct (rt_pending t !! key) as [o|] eqn:E; [|done].
  destruct Hinv as (Hnd & Hdom & Hkeys & Hlen). unfold tracker_inv, waiting. cbn [rt_pending rt_order rt_strict rt_seeded].
  rewrite removeKey_filter by done. split_and!; [by apply NoDup_filter| | | | |done..].
  - intros k. rewrite list_elem_of_filter, lookup_delete_is_Some, Hdom. naive_solver.
  - intros k [_ ?]%list_elem_of_filter. by apply Hkeys.
  - etrans; [apply length_filter|done].
  - rewrite filter_keys. f_equal. apply waiting_ext. intros k [Hk _]%list_elem_of_filter. by apply lookup_delete_ne.
Qed.

Lemma DrainPendingOutcomes_spec t :
  let (l, t') := DrainPendingOutcomes t in
  l = waiting t /\ tracker_inv t' /\ waiting t' = [] /\ rt_strict t' = rt_strict t /\ rt_seeded t' = rt_seeded t.
Proof.
  cbn. split_and!; try done. split_and!; cbn; [by apply NoDup_nil|intros k; rewrite lookup_empty; split; [by intros ?%elem_of_nil|by intros []]|by intros k ?%elem_of_nil|lia].
Qed.

Lemma empty_inv seeded strict : tracker_inv {| rt_pending := ∅; rt_order := []; rt_seeded := seeded; rt_strict := strict |}.
Proof. split_and!; cbn; [by apply NoDup_nil|intros k; rewrite lookup_empty; split; [by intros ?%elem_of_nil|by intros []]|by intros k ?%elem_of_nil|lia]. Qed.

(** ** Histories of calls *)

Inductive call := CTrack (id : string) (outcome : Outcome) | CConsume (id : string) | CDrain.
Inductive answer := ADone | AConsumed (outcome : Outcome) (ok : bool) | ADrained (pending : list (string * Outcome)).

Definition perform (c : call) (t : RequestTracker) : option (answer * RequestTracker) :=
  match c with
  | CTrack id o => t' ← TrackOutcome id o t; Some (ADone, t')
  | CConsume id => let '(o, ok, t') := Consume id t in Some (AConsumed o ok, t')
  | CDrain => let (l, t') := DrainPendingOutcomes t in Some (ADrained l, t')
  end.

Fixpoint performAll (cs : list call) (t : RequestTracker) : option (list answer * RequestTracker) :=
  match cs with
  | [] => Some ([], t)
  | c :: cs => '(a, t) ← perform c t; '(l, t) ← performAll cs t; Some (a :: l, t)
  end.

(** The same calls on the queue. *)
Definition queuePerform (strict : bool) (c : call) (q : list (string * Outcome)) : answer * list (string * Outcome) :=
  match c with
  | CTrack id o => (ADone, queueTrack id o q)
  | CConsume id => let '(o, ok, q) := queueConsume strict id q in (AConsumed o ok, q)
  | CDrain => (ADrained q, [])
  end.

Fixpoint queuePerformAll (strict : bool) (cs : list call) (q : list (string * Outcome)) : list answer * list (string * Outcome) :=
  match cs with
  | [] => ([], q)
  | c :: cs => let (a, q) := queuePerform strict c q in let (l, q) := queuePerformAll strict cs q in (a :: l, q)
  end.

Lemma perform_spec c t :
  tracker_inv t ->
  exists a t', perform c t = Some (a, t') /\ tracker_inv t' /\ rt_strict t' = rt_strict t /\ queuePerform (rt_strict t) c (waiting t) = (a, waiting t').
Proof.
  intros Hinv. destruct c as [id o|id|]; cbn [perform queuePerform].
  - destruct (TrackOutcome_spec id o t Hinv) as (t' & -> & Hinv' & Hw & Hs). exists ADone, t'. by rewrite Hw.
  - pose proof (Consume_spec id t Hinv) as H. destruct (Consume id t) as [[o ok] t']. destruct H as (Hinv' & Hq & Hs & _).
    exists (AConsumed o ok), t'. by rewrite <- Hq.
  - pose proof (DrainPendingOutcomes_spec t) as H. destruct (DrainPendingOutcomes t) as [l t']. destruct H as (-> & Hinv' & Hw & Hs & _).
    exists (ADrained (waiting t)), t'. by rewrite Hw.
Qed.

(** The trackers that the constructors give. *)
Definition created (t : RequestTracker) : Prop := t = NewRequestTracker \/ exists ids, NewStrictRequestTracker ids = Some t.

Lemma trackAll_spec ids t :
  tracker_inv t -> exists t', trackAll ids t = Some t' /\ tracker_inv t' /\ rt_strict t' = rt_strict t.
Proof.
  revert t. induction ids as [|id ids IH]; intros t Hinv; [by exists t|]. cbn [trackAll].
  destruct (TrackOutcome_spec id noOutcome t Hinv) as (t1 & E & Hinv1 & _ & Hs). unfold Track. rewrite E. cbn.
  destruct (IH t1 Hinv1) as (t' & -> & Hinv' & Hs'). exists t'. by rewrite Hs', Hs.
Qed.

Lemma created_inv t : created t -> tracker_inv t.
Proof.
  intros [->|[ids H]]; [apply empty_inv|]. unfold NewStrictRequestTracker in H.
  destruct (trackAll_spec ids _ (empty_inv true true)) as (t' & E & Hinv & _). congruence.
Qed.

(** C30: the tracker is a bounded queue of requests. Whatever calls are made on it, none
    of them panics, and their answers are those of the queue in which a new request
    goes to the end unless its identifier waits already, the oldest one giving way
    when the limit is reached, a response takes its request out, and draining hands
    out all requests in the order in which they were made. *)
Theorem tracker_is_a_queue t cs :
  created t ->
  exists l t', performAll cs t = Some (l, t') /\ queuePerformAll (rt_strict t) cs (waiting t) = (l, waiting t') /\
    length (rt_order t') <= maxTrackedRequests /\ size (rt_pending t') = length (rt_order t').
Proof.
  intros Hinv%created_inv. revert t Hinv. induction cs as [|c cs IH]; intros t Hinv; cbn [performAll queuePerformAll].
  - exists [], t. split_and!; [done|done|by destruct Hinv as (_ & _ & _ & ?)|by apply pending_size].
  - destruct (perform_spec c t Hinv) as (a & t1 & -> & Hinv1 & Hs & ->). destruct (IH t1 Hinv1) as (l & t' & E & Hq & Hb).
    exists (a :: l), t'. cbn. rewrite E. cbn. rewrite <- Hs, Hq. done.
Qed.

(** ** Every request is settled once *)

Definition settles (k : string) (e : event) : Prop :=
  match e with Answered k' | Evicted k' | Drained k' => k' = k | Tracked _ | Passed _ => False end.
Definition requests (k : string) (e : event) : Prop :=
  match e with Tracked k' => k' = k | _ => False end.

#[local] Instance settles_dec k e : Decision (settles k e).
Proof. destruct e; cbn; apply _. Defined.
#[local] Instance requests_dec k e : Decision (requests k e).
Proof. destruct e; cbn; apply _. Defined.

(** How often a request with this identifier was settled and made. *)
Definition settledIn (k : string) (log : list event) : nat := length (filter (settles k) log).
Definition requestsIn (k : string) (log : list event) : nat := length (filter (requests k) log).
Definition waits (k : string) (t : RequestTracker) : nat := if decide (k ∈ rt_order t) then 1 else 0.

Lemma settledIn_app k l l' : settledIn k (l ++ l') = settledIn k l + settledIn k l'.
Proof. unfold settledIn. by rewrite filter_app, length_app. Qed.

Lemma requestsIn_app k l l' : requestsIn k (l ++ l') = requestsIn k l + requestsIn k l'.
Proof. unfold requestsIn. by rewrite filter_app, length_app. Qed.

Definition balanced (k : string) (t : RequestTracker) (evs : list event) (t' : RequestTracker) : Prop :=
  settledIn k evs + waits k t' = requestsIn k evs + waits k t.

Lemma balanced_refl k t evs : settledIn k evs = 0 -> requestsIn k evs = 0 -> balanced k t evs t.
Proof. unfold balanced. lia. Qed.

Lemma track_balanced k id o t t' :
  tracker_inv t -> TrackOutcome id o t = Some t' -> balanced k t (trackEvents id t) t'.
Proof.
  intros Hinv H. destruct (make_room t Hinv) as (m & order & E & Hnd & Hdom & Hsub & _). unfold TrackOutcome, trackEvents in *.
  rewrite (pending_size t Hinv) in *. rewrite E in H. set (key := canonicalID id) in *.
  destruct (decide (key = "")) as [He|He]; [injection H as <-; rewrite decide_True by auto; by apply balanced_refl|].
  destruct (decide (is_Some (rt_pending t !! key))) as [Hin|Hin]; [injection H as <-; rewrite decide_True by auto; by apply balanced_refl|].
  rewrite (decide_False (P := _ \/ _)) by tauto. injection H as <-. destruct Hinv as (Hnd0 & Hdom0 & _).
  assert (key ∉ rt_order t) as Hnin by by rewrite Hdom0.
  unfold balanced, settledIn, requestsIn, waits. cbn [rt_order fst snd]. rewrite !filter_app, !length_app.
  assert (length (filter (settles k) [Tracked key]) = 0) as -> by done.
  assert (length (filter (requests k) [Tracked key]) = if decide (k = key) then 1 else 0) as ->
    by (rewrite filter_cons; cbn [requests]; repeat destruct (decide _); naive_solver).
  destruct (decide (maxTrackedRequests <= length (rt_order t))) as [Hfull|Hroom].
  - destruct (rt_order t) as [|oldest rest]; [done|]. injection E as <- <-. apply NoDup_cons in Hnd0 as [Ho _].
    change (Evicted <$> take 1 (oldest :: rest)) with [Evicted oldest]. rewrite !filter_cons, !filter_nil. cbn [settles requests].
    repeat destruct (decide _); cbn [length]; (lia || (exfalso; set_solver)).
  - injection E as <- <-. rewrite !filter_nil. repeat destruct (decide _); cbn [length]; (lia || (exfalso; set_solver)).
Qed.

Lemma Consume_balanced k id t :
  tracker_inv t ->
  let '(_, ok, t') := Consume id t in
  balanced k t (if ok && negb (bool_decide (canonicalID id = "")) then [Answered (canonicalID id)] else []) t'.
Proof.
  intros (Hnd & Hdom & _). unfold Consume. set (key := canonicalID id). destruct (decide (key = "")) as [->|He].
  { rewrite andb_false_r. by apply balanced_refl. }
  rewrite bool_decide_eq_false_2 by done. destruct (rt_pending t !! key) as [o|] eqn:E; [|by apply balanced_refl]. cbn [andb negb].
  assert (key ∈ rt_order t) as Hin by (rewrite Hdom; eauto).
  unfold balanced, settledIn, requestsIn, waits. cbn [rt_order]. rewrite removeKey_filter by done. rewrite !filter_cons, !filter_nil. cbn [settles requests].
  pose proof (list_elem_of_filter (fun k => k <> key) (rt_order t) k) as Hk.
  clearbody key. repeat destruct (decide _); cbn [length]; (lia || naive_solver).
Qed.

Lemma checkResponse_balanced ActionID k id t v t' :
  tracker_inv t -> checkResponse ActionID id t = (v, t') -> balanced k t (checkEvents id v) t'.
Proof.
  intros Hinv. pose proof (Consume_balanced k id t Hinv) as Hb. pose proof (Consume_spec id t Hinv) as Hs. unfold checkResponse.
  destruct (decide _) as [|Hn]; [intros [= <- <-]; by apply balanced_refl|]. destruct (decide (id <> "")) as [Hid|Hid].
  - destruct (Consume id t) as [[o ok] t1]. destruct ok; intros [= <- <-]; [|done]. unfold checkEvents in *. cbn [andb] in Hb.
    destruct (decide (canonicalID id = "")) as [He|He]; [rewrite bool_decide_eq_true_2 in Hb by done|by rewrite bool_decide_eq_false_2 in Hb by done].
    unfold balanced in *. exact Hb.
  - intros [= <- <-]. unfold checkEvents. apply dec_stable in Hid. subst. by apply balanced_refl.
Qed.

Lemma drained_settles k (order : list string) : NoDup order -> settledIn k (Drained <$> order) = if decide (k ∈ order) then 1 else 0.
Proof.
  unfold settledIn. induction 1 as [|x order Hx _ IH]; [by rewrite decide_False by set_solver|].
  cbn [fmap list_fmap]. rewrite filter_cons. cbn [settles]. destruct (decide (x = k)) as [->|Hne]; cbn [length].
  - rewrite IH, decide_False, decide_True by set_solver. done.
  - rewrite IH. apply decide_ext. set_solver.
Qed.

Lemma drained_requests k (order : list string) : requestsIn k (Drained <$> order) = 0.
Proof. unfold requestsIn. by induction order. Qed.

Lemma DrainPending_balanced k t :
  tracker_inv t -> let (pending, t') := DrainPending t in balanced k t (Drained <$> pending) t'.
Proof.
  intros (Hnd & _). unfold DrainPending, DrainPendingOutcomes. fold (waiting t). rewrite waiting_keys.
  unfold balanced, waits. rewrite drained_settles, drained_requests by done. cbn [rt_order]. rewrite (decide_False (P := k ∈ [])) by set_solver. lia.
Qed.

(** What is true of a session that began with [t0]. *)
Record session_inv (t0 : RequestTracker) (s : Session) : Prop := {
  si_tracker : tracker_inv (ss_tracker s);
  si_balance : forall k, balanced k t0 (ss_log s) (ss_tracker s);
  si_strict : rt_strict (ss_tracker s) = rt_strict t0;
  si_seeded : rt_strict t0 = true \/ (exists k, Tracked k ∈ ss_log s) -> rt_seeded (ss_tracker s) = true;
  si_reading : is_Some (ss_reading s) -> rt_seeded (ss_tracker s) = true;
  si_passed : forall l1 id l2, ss_log s = l1 ++ Passed id :: l2 ->
    rt_strict t0 = false /\ (canonicalID id = "" \/ forall k, Tracked k ∉ l1);
}.

Lemma balanced_trans k t0 log t evs t' : balanced k t0 log t -> balanced k t evs t' -> balanced k t0 (log ++ evs) t'.
Proof. unfold balanced. rewrite settledIn_app, requestsIn_app. lia. Qed.

(** Where the last event of a longer log stands. *)
Lemma passed_snoc log evs l1 id l2 :
  log ++ evs = l1 ++ Passed id :: l2 -> (exists l2', log = l1 ++ Passed id :: l2') \/ (exists e1, l1 = log ++ e1 /\ evs = e1 ++ Passed id :: l2).
Proof.
  revert l1. induction log as [|e log IH]; intros l1 H; [right; by exists l1|].
  destruct l1 as [|e1 l1]; [injection H as -> H; left; by exists log|]. injection H as -> H.
  destruct (IH l1 H) as [[l2' ->]|(e2 & -> & Hin)]; [left; by eexists|right; by exists e2].
Qed.

Lemma session_inv_events t0 s evs t' reading :
  session_inv t0 s -> tracker_inv t' -> (forall k, balanced k (ss_tracker s) evs t') -> rt_strict t' = rt_strict (ss_tracker s) ->
  (rt_seeded (ss_tracker s) = true \/ (exists k, Tracked k ∈ evs) -> rt_seeded t' = true) ->
  (is_Some reading -> rt_seeded t' = true) ->
  (forall id, Passed id ∈ evs -> rt_strict t0 = false /\ (canonicalID id = "" \/ rt_seeded (ss_tracker s) = false /\ forall e, e ∈ evs -> e = Passed id)) ->
  session_inv t0 {| ss_tracker := t'; ss_reading := reading; ss_log := ss_log s ++ evs |}.
Proof.
  intros [H1 H2 H3 H4 H5 H6] Hinv Hb Hs Hseed Hread Hpass. split; cbn [ss_tracker ss_reading ss_log].
  - done.
  - intros k. eapply balanced_trans; eauto.
  - congruence.
  - intros [Ht|[k [Hk|Hk]%elem_of_app]]; apply Hseed; eauto.
  - done.
  - intros l1 id l2 [[l2' E]|(e1 & -> & E)]%passed_snoc; [by eapply H6|].
    destruct (Hpass id) as [Hst [Hc|[Hun Hall]]]; [rewrite E; set_solver|by auto|]. split; [done|right]. intros k [Hk|Hk]%elem_of_app.
    + rewrite H4 in Hun; [done|eauto].
    + by assert (Tracked k = Passed id) by (apply Hall; rewrite E; set_solver).
Qed.

Lemma TrackOutcome_seeded id o t t' :
  TrackOutcome id o t = Some t' -> rt_seeded t = true \/ (exists k, Tracked k ∈ trackEvents id t) -> rt_seeded t' = true.
Proof.
  unfold TrackOutcome, trackEvents. destruct (decide (canonicalID id = "")); [intros [= <-]; rewrite decide_True by auto; intros [|[k []%elem_of_nil]]; done|].
  destruct (decide (is_Some _)); [intros [= <-]; rewrite decide_True by auto; intros [|[k []%elem_of_nil]]; done|].
  intros (evicted & _ & [= <-])%bind_Some. done.
Qed.

Lemma checkEvents_shape id v e : e ∈ checkEvents id v -> e = Passed id /\ canonicalID id = "" \/ e = Answered (canonicalID id).
Proof. destruct v; cbn; [destruct (decide _)|]; set_solver. Qed.

Lemma checkResponse_frame ActionID id t v t' :
  tracker_inv t -> checkResponse ActionID id t = (v, t') ->
  tracker_inv t' /\ rt_strict t' = rt_strict t /\ rt_seeded t' = rt_seeded t /\ (rt_strict t = true -> canonicalID id = "" -> v = Refuse "").
Proof.
  intros Hinv. pose proof (Consume_spec id t Hinv) as Hs. unfold checkResponse. destruct (decide _) as [[Hc Ht]|Hn].
  { by intros [= <- <-]. }
  assert (rt_strict t = true -> canonicalID id = "" -> v = Refuse "") as Hr by tauto.
  destruct (decide (id <> "")); [|by intros [= <- <-]].
  destruct (Consume id t) as [[o ok] t1]. destruct Hs as (Hinv' & _ & Hst & Hse). destruct ok; by intros [= <- <-].
Qed.

Lemma session_step_inv ActionID t0 s s' : session_inv t0 s -> session_step ActionID s s' -> session_inv t0 s'.
Proof.
  intros H. pose proof (si_tracker _ _ H) as Hinv. intros Hst. destruct Hst as [id o t t' reading log E|id t log E|id t log E|id t v t' log E|t pending t' reading log E]; cbn [ss_tracker] in Hinv.
  - apply (session_inv_events t0 _ _ _ _ H); cbn [ss_tracker].
    + destruct (TrackOutcome_spec id o t Hinv) as (t1 & ? & ? & _). congruence.
    + intros k. by eapply track_balanced.
    + destruct (TrackOutcome_spec id o t Hinv) as (t1 & ? & _ & _ & ?). congruence.
    + by eapply TrackOutcome_seeded.
    + intros Hr. eapply TrackOutcome_seeded; [done|]. left. by apply (si_reading _ _ H).
    + intros id'. unfold trackEvents. destruct (decide _); [by intros ?%elem_of_nil|]. destruct (decide _); set_solver.
  - apply (session_inv_events t0 _ _ _ _ H); cbn [ss_tracker]; [done|intros k; by apply balanced_refl|done| | |].
    + intros [|[k Hk]]; [done|set_solver].
    + by intros [].
    + intros id' Hid. assert (id' = id) as -> by set_solver. split; [|right; split; [done|set_solver]].
      destruct (rt_strict t0) eqn:Es; [|done]. pose proof (si_seeded _ _ H (or_introl Es)) as Hse. cbn in Hse. congruence.
  - destruct H as [H1 H2 H3 H4 H5 H6]. by split.
  - destruct (checkResponse_frame ActionID id t v t' Hinv E) as (Hinv' & Hs & Hse & Hr).
    apply (session_inv_events t0 _ _ _ _ H); cbn [ss_tracker]; [done|intros k; by eapply checkResponse_balanced|done| |by intros []|].
    + rewrite Hse. intros [|[k [[]|]%checkEvents_shape]]; done.
    + intros id' Hid. destruct (checkEvents_shape _ _ _ Hid) as [[[= ->] Hc]|]; [|done]. split; [|by left].
      rewrite <- (si_strict _ _ H). cbn. destruct (rt_strict t) eqn:Es; [|done]. rewrite Hr in Hid by done. by apply elem_of_nil in Hid.
  - pose proof (DrainPending_balanced) as Hb. unfold DrainPending in *. pose proof (DrainPendingOutcomes_spec t) as Hd.
    specialize (fun k => Hb k t Hinv). destruct (DrainPendingOutcomes t) as [l t1]. destruct Hd as (-> & Hinv' & _ & Hs & Hse). injection E as <- <-.
    apply (session_inv_events t0 _ _ _ _ H); cbn [ss_tracker]; [done|done|done| | |].
    + rewrite Hse. intros [|[k (x & [=] & _)%list_elem_of_fmap]]; done.
    + intros Hr. rewrite Hse. by apply (si_reading _ _ H).
    + intros id (x & [=] & _)%list_elem_of_fmap.
Qed.

Lemma trackAll_seeded ids t t' : trackAll ids t = Some t' -> rt_seeded t = true -> rt_seeded t' = true.
Proof.
  revert t. induction ids as [|id ids IH]; intros t; cbn [trackAll]; [by intros [= <-]|].
  intros (t1 & E & H)%bind_Some Ht. eapply IH; [done|]. eapply TrackOutcome_seeded; [done|by left].
Qed.

Lemma created_seeded t : created t -> rt_strict t = true -> rt_seeded t = true.
Proof. intros [->|[ids H]]; [done|]. intros _. by eapply trackAll_seeded. Qed.

Lemma session_reachable_inv ActionID t0 s : created t0 -> rtc (session_step ActionID) (started t0) s -> session_inv t0 s.
Proof.
  intros Hc. refine (rtc_ind_r (session_inv t0) (started t0) _ _ s).
  - split; cbn; [by apply created_inv|intros k; by apply balanced_refl|done| |by intros []|by intros []].
    intros [Ht|[k []%elem_of_nil]]. by apply created_seeded.
  - intros x y _ Hxy Hx. by eapply session_step_inv.
Qed.

Lemma checkResponse_waiting ActionID id t : tracker_inv t -> canonicalID id ∈ rt_order t -> exists o t', checkResponse ActionID id t = (Forward o, t').
Proof.
  intros (_ & Hdom & Hkeys & _) Hin. destruct (Hkeys _ Hin) as [_ Hne]. unfold checkResponse, Consume. rewrite decide_False by tauto.
  rewrite decide_True by (by intros ->). rewrite (decide_False (P := canonicalID id = "")) by done.
  apply Hdom in Hin as [o ->]. cbn. by eauto.
Qed.

(** C29: a response answers a request, and each request is answered once. In every
    interleaving of the goroutine that tracks requests, the one that checks
    responses and the one that drains after a time-out: for every identifier the
    requests that were made are those that were answered, drained or evicted and the
    one that may be waiting; the response to a request that is waiting is let
    through; and a response goes through unchecked only on a tracker that is not
    strict and either without an identifier or before the first request. *)
Theorem one_answer_per_request ActionID t0 s :
  created t0 -> rtc (session_step ActionID) (started t0) s ->
  (forall k, settledIn k (ss_log s) + waits k (ss_tracker s) = requestsIn k (ss_log s) + waits k t0) /\
  (forall id, waits (canonicalID id) (ss_tracker s) = 1 -> exists o t', checkResponse ActionID id (ss_tracker s) = (Forward o, t')) /\
  (forall l1 id l2, ss_log s = l1 ++ Passed id :: l2 -> rt_strict t0 = false /\ (canonicalID id = "" \/ forall k, Tracked k ∉ l1)).
Proof.
  intros Hc Hs. destruct (session_reachable_inv ActionID t0 s Hc Hs) as [H1 H2 _ _ _ H6]. split_and!; [exact H2| |exact H6].
  intros id. unfold waits. destruct (decide _) as [Hin|]; [|done]. intros _. by apply checkResponse_waiting.
Qed.
End tracker.

Arguments RequestTracker : clear implicits.
Arguments Session : clear implicits.

(** ** Examples *)

(** The outcome is the identifier of its receipt. *)
Definition demo_calls : list (call (Outcome := string)) :=
  [CTrack "1" "r1"; CTrack "null" "r2"; CTrack "x" "r3"; CTrack "1" "r4"; CConsume "1"; CConsume "1"; CConsume "null"; CDrain; CConsume "x"].

Lemma tracker_is_a_queue_witness :
  created (Outcome := string) "" NewRequestTracker /\
  exists l t', performAll "" demo_calls NewRequestTracker = Some (l, t') /\
    l = [ADone; ADone; ADone; ADone; AConsumed "r1" true; AConsumed "" false; AConsumed "" true; ADrained [("x", "r3")]; AConsumed "" false] /\
    length (rt_order t') <= maxTrackedRequests.
Proof.
  assert (created (Outcome := string) "" NewRequestTracker) as Hc by by left. split; [exact Hc|].
  destruct (tracker_is_a_queue "" NewRequestTracker demo_calls Hc) as (l & t' & H & Hq & Hl & _). exists l, t'. split; [exact H|]. split; [|exact Hl].
  assert (queuePerformAll "" false demo_calls [] =
    ([ADone; ADone; ADone; ADone; AConsumed "r1" true; AConsumed "" false; AConsumed "" true; ADrained [("x", "r3")]; AConsumed "" false], [])) as E
    by (vm_compute; reflexivity).
  change (rt_strict NewRequestTracker) with false in Hq. change (waiting "" NewRequestTracker) with (@nil (string * string)) in Hq. congruence.
Defined.

(** A response before the first request, a request and its response, and the response
    a second time. *)
Definition demo_tracked : RequestTracker string :=
  {| rt_pending := {["7" := "r7"]}; rt_order := ["7"]; rt_seeded := true; rt_strict := false |}.
Definition demo_answered : RequestTracker string := {| rt_pending := ∅; rt_order := []; rt_seeded := true; rt_strict := false |}.
Definition demo_session : Session string :=
  {| ss_tracker := demo_answered; ss_reading := None; ss_log := [Passed "9"; Tracked "7"; Answered "7"] |}.

Lemma demo_session_reachable : rtc (session_step "" (fun r : string => r)) (started NewRequestTracker) demo_session.
Proof.
  eapply rtc_l; [by apply (ss_unseeded _ _ "9")|]. eapply rtc_l; [by apply (ss_track _ _ "7" "r7" _ demo_tracked); vm_compute; reflexivity|].
  eapply rtc_l; [by apply (ss_seeded _ _ "7")|]. eapply rtc_l; [by apply (ss_check _ _ "7" _ (Forward (Some "r7")) demo_answered); vm_compute; reflexivity|].
  eapply rtc_l; [by apply (ss_seeded _ _ "7")|]. eapply rtc_l; [by apply (ss_check _ _ "7" _ (Refuse "7") demo_answered); vm_compute; reflexivity|].
  match goal with |- rtc _ ?x ?y => assert (x = y) as -> by (vm_compute; reflexivity) end. apply rtc_refl.
Qed.

Lemma one_answer_per_request_witness :
  created (Outcome := string) "" NewRequestTracker /\ rtc (session_step "" (fun r : string => r)) (started NewRequestTracker) demo_session /\
  settledIn "7" (ss_log demo_session) + waits "7" (ss_tracker demo_session) = 1.
Proof.
  assert (created (Outcome := string) "" NewRequestTracker) as Hc by by left. split; [exact Hc|]. split; [exact demo_session_reachable|].
  destruct (one_answer_per_request "" (fun r : string => r) NewRequestTracker demo_session Hc demo_session_reachable) as (H & _).
  rewrite (H "7"). reflexivity.
Defined.

(** Without a request a strict tracker refuses what a lenient one lets through. *)
Example strict_refuses_null :
  (checkResponse "" (fun r : string => r) "null" demo_answered).1 = Forward None /\
  (t ← NewStrictRequestTracker (Outcome := string) "" ["7"]; Some (checkResponse "" (fun r : string => r) "null" t).1) = Some (Refuse "").
Proof. by vm_compute. Qed.
