(* ===== verification/Frames.v ===== *)
(** * Messages from WebSocket frames

    [internal/wsutil/fragment.go], the reassembly of fragmented messages, and its use
    by [ReadMessage] of [internal/mcp/transport/wsclient.go], which the MCP proxy
    reads its messages with.

    A frame is its header and its unmasked payload. The frames, the status codes and
    [IsControl] belong to the WebSocket package: the last is an argument, of which
    the code relies on the answers for the opcodes of RFC 6455. Whether a pong can be
    written is an argument too. *)

From S2P Require Import Prelude.
Local Open Scope Z_scope.

(** ** [utf8.Valid] *)
Module Utf8.

Definition between (lo hi : N) (c : ascii) : bool := bool_decide (lo <= N_of_ascii c <= hi)%N.
Definition continuation : ascii -> bool := between 128 191.

Fixpoint Valid (s : list ascii) : bool :=
  match s with
  | [] => true
  | a :: s1 =>
      if between 0 127 a then Valid s1
      else match s1 with
           | [] => false
           | b :: s2 =>
               if between 194 223 a then continuation b && Valid s2
               else match s2 with
                    | [] => false
                    | c :: s3 =>
                        if between 224 224 a then between 160 191 b && continuation c && Valid s3
                        else if between 237 237 a then between 128 159 b && continuation c && Valid s3
                        else if between 225 239 a then continuation b && continuation c && Valid s3
                        else match s3 with
                             | [] => false
                             | d :: s4 =>
                                 (if between 240 240 a then between 144 191 b
                                  else if between 241 243 a then continuation b
                                  else if between 244 244 a then between 128 143 b else false)
                                 && continuation c && continuation d && Valid s4
                             end
                    end
           end
  end.
End Utf8.

(** ** Frames *)

(** The opcodes of RFC 6455 and those it reserves. *)
Inductive OpCode := OpContinuation | OpText | OpBinary | OpClose | OpPing | OpPong | OpReserved (n : nat).
#[export] Instance OpCode_eq_dec : EqDecision OpCode.
Proof. solve_decision. Defined.

Inductive StatusCode := StatusNormalClosure | StatusProtocolError | StatusMessageTooBig | StatusPolicyViolation | StatusInvalidFramePayloadData.

Record Frame := { f_Fin : bool; f_OpCode : OpCode; f_payload : list ascii }.

Definition ReasonMessageTooLarge : string := "message too large".
Definition MaxControlPayload : Z := 125.
Definition MaxLineSize : Z := 10 * 1024 * 1024.

Definition len (l : list ascii) : Z := Z.of_nat (length l).

Section frames.
Context (IsControl : OpCode -> bool) (pongFails : list ascii -> bool).

(** ** [FragmentState] *)

Record FragmentState := { fs_Opcode : OpCode; fs_buf : list ascii; fs_MaxBytes : Z; fs_Active : bool }.

(** Not complete; complete with a message; or a status to close with. *)
Inductive outcome := Incomplete | Complete (msg : list ascii) | CloseWith (code : StatusCode) (reason : string).

Definition Process (f : FragmentState) (hdr : Frame) : outcome * FragmentState :=
  let op := f_OpCode hdr in
  let payload := f_payload hdr in
  if decide (op = OpContinuation /\ fs_Active f = false) then (CloseWith StatusProtocolError "unexpected continuation frame", f)
  else if decide (op <> OpContinuation /\ IsControl op = false /\ fs_Active f = true)
  then (CloseWith StatusProtocolError "new data frame during fragmentation", f)
  else if decide (f_Fin hdr = false /\ op <> OpContinuation /\ IsControl op = false) then
    if decide (fs_MaxBytes f < len payload)
    then (CloseWith StatusMessageTooBig ReasonMessageTooLarge, {| fs_Opcode := op; fs_buf := []; fs_MaxBytes := fs_MaxBytes f; fs_Active := true |})
    else (Incomplete, {| fs_Opcode := op; fs_buf := payload; fs_MaxBytes := fs_MaxBytes f; fs_Active := true |})
  else if decide (op = OpContinuation /\ fs_Active f = true) then
    if decide (fs_MaxBytes f < len (fs_buf f) + len payload) then (CloseWith StatusMessageTooBig ReasonMessageTooLarge, f)
    else
      let f := {| fs_Opcode := fs_Opcode f; fs_buf := fs_buf f ++ payload; fs_MaxBytes := fs_MaxBytes f; fs_Active := fs_Active f |} in
      if f_Fin hdr then (Complete (fs_buf f), f) else (Incomplete, f)
  else
    if decide (fs_MaxBytes f < len payload) then (CloseWith StatusMessageTooBig ReasonMessageTooLarge, f)
    else (Complete payload, {| fs_Opcode := op; fs_buf := fs_buf f; fs_MaxBytes := fs_MaxBytes f; fs_Active := fs_Active f |}).

Definition Reset (f : FragmentState) : FragmentState :=
  {| fs_Opcode := OpContinuation; fs_buf := []; fs_MaxBytes := fs_MaxBytes f; fs_Active := false |}.

(** ** [ReadMessage] *)

Inductive ReadError := EOF | BadHeader | BadPayload | ControlTooLarge | FrameTooLarge | PongFailed | BinaryRejected | FragmentError (reason : string) | InvalidUTF8.

(** What the peer sends: frames, and how reading ends after them. *)
Inductive ending := Closed | HeaderError | PayloadError (hdr : Frame).

(** What the client writes: close frames and pongs. *)
Inductive write := WClose (code : StatusCode) (reason : string) | WPong (payload : list ascii).

(** The limits on a header, before the payload is read. *)
Definition checkHeader (hdr : Frame) : option (ReadError * write) :=
  if IsControl (f_OpCode hdr) && bool_decide (MaxControlPayload < len (f_payload hdr))
  then Some (ControlTooLarge, WClose StatusProtocolError "control frame too large")
  else if negb (IsControl (f_OpCode hdr)) && bool_decide (MaxLineSize < len (f_payload hdr))
  then Some (FrameTooLarge, WClose StatusMessageTooBig "frame too large")
  else None.

Definition isBinary (f : FragmentState) (hdr : Frame) : bool :=
  bool_decide (f_OpCode hdr = OpBinary \/ (f_OpCode hdr = OpContinuation /\ fs_Active f = true /\ fs_Opcode f = OpBinary)).

(** One call: its result, the frames that are left, the state and what was written. *)
Fixpoint ReadMessage (frames : list Frame) (e : ending) (f : FragmentState)
    : result (list ascii) ReadError * list Frame * FragmentState * list write :=
  match frames with
  | [] =>
      match e with
      | Closed => (Err EOF, [], f, [])
      | HeaderError => (Err BadHeader, [], f, [])
      | PayloadError hdr =>
          match checkHeader hdr with
          | Some (err, w) => (Err err, [], f, [w])
          | None => (Err BadPayload, [], f, [])
          end
      end
  | hdr :: frames =>
      match checkHeader hdr with
      | Some (err, w) => (Err err, frames, f, [w])
      | None =>
          if IsControl (f_OpCode hdr) then
            if decide (f_OpCode hdr = OpClose) then (Err EOF, frames, f, [WClose StatusNormalClosure ""])
            else if decide (f_OpCode hdr = OpPing) then
              if pongFails (f_payload hdr) then (Err PongFailed, frames, f, [])
              else let '(r, rest, f, ws) := ReadMessage frames e f in (r, rest, f, WPong (f_payload hdr) :: ws)
            else ReadMessage frames e f
          else if isBinary f hdr then (Err BinaryRejected, frames, f, [WClose StatusPolicyViolation "binary frames not allowed"])
          else
            match Process f hdr with
            | (CloseWith code reason, f) => (Err (FragmentError reason), frames, f, [WClose code reason])
            | (Incomplete, f) => ReadMessage frames e f
            | (Complete msg, f) =>
                if Utf8.Valid msg then (Ok msg, frames, Reset f, [])
                else (Err InvalidUTF8, frames, f, [WClose StatusInvalidFramePayloadData "invalid UTF-8"])
            end
      end
  end.

(** The state of a client that was just created, and after every message. *)
Definition idle : FragmentState := {| fs_Opcode := OpContinuation; fs_buf := []; fs_MaxBytes := MaxLineSize; fs_Active := false |}.

(** ** Messages on the wire *)

(** A control frame that may stand between the frames of a message. *)
Definition interleaved (f : Frame) : Prop :=
  IsControl (f_OpCode f) = true /\ f_OpCode f <> OpClose /\ len (f_payload f) <= MaxControlPayload /\
  (f_OpCode f = OpPing -> pongFails (f_payload f) = false).

(** A data frame that can begin a message; the reserved opcodes are not rejected. *)
Definition opening (f : Frame) : Prop :=
  IsControl (f_OpCode f) = false /\ f_OpCode f <> OpContinuation /\ f_OpCode f <> OpBinary.

(** The frames after the first of a fragmented message. *)
Inductive continued : list Frame -> list ascii -> Prop :=
| ct_control f fs m : interleaved f -> continued fs m -> continued (f :: fs) m
| ct_last payload : continued [{| f_Fin := true; f_OpCode := OpContinuation; f_payload := payload |}] payload
| ct_more payload fs m : continued fs m -> continued ({| f_Fin := false; f_OpCode := OpContinuation; f_payload := payload |} :: fs) (payload ++ m).

(** The frames of one message. *)
Inductive message_frames : list Frame -> list ascii -> Prop :=
| mf_control f fs m : interleaved f -> message_frames fs m -> message_frames (f :: fs) m
| mf_single f : opening f -> f_Fin f = true -> message_frames [f] (f_payload f)
| mf_first f fs m : opening f -> f_Fin f = false -> continued fs m -> message_frames (f :: fs) (f_payload f ++ m).

(** The pongs that answer the pings among frames. *)
Definition pongs (fs : list Frame) : list write :=
  omap (fun f => if decide (f_OpCode f = OpPing) then Some (WPong (f_payload f)) else None) fs.

(** ** Reading is exact *)

(** The opcodes of control frames in RFC 6455. *)
Hypothesis IsControl_data : IsControl OpContinuation = false /\ IsControl OpText = false /\ IsControl OpBinary = false.
Hypothesis IsControl_control : IsControl OpClose = true /\ IsControl OpPing = true /\ IsControl OpPong = true.

Lemma continued_cons f fs m :
  continued (f :: fs) m <->
  (interleaved f /\ continued fs m) \/
  (f_OpCode f = OpContinuation /\ f_Fin f = true /\ fs = [] /\ m = f_payload f) \/
  (f_OpCode f = OpContinuation /\ f_Fin f = false /\ exists m', m = f_payload f ++ m' /\ continued fs m').
Proof.
  split; [inversion 1; subst; cbn; [by left|by right; left|right; right; by eauto]|]. destruct f as [fin op payload]. cbn.
  intros [[]|[(-> & -> & -> & ->)|(-> & -> & m' & -> & ?)]]; by constructor.
Qed.

Lemma message_frames_cons f fs m :
  message_frames (f :: fs) m <->
  (interleaved f /\ message_frames fs m) \/
  (opening f /\ f_Fin f = true /\ fs = [] /\ m = f_payload f) \/
  (opening f /\ f_Fin f = false /\ exists m', m = f_payload f ++ m' /\ continued fs m').
Proof.
  split; [inversion 1; subst; [by left|by right; left|right; right; by eauto]|]. intros [[]|[(? & ? & -> & ->)|(? & ? & m' & -> & ?)]]; by constructor.
Qed.

Lemma continued_nil m : ~ continued [] m.
Proof. by inversion 1. Qed.

Lemma message_frames_nil m : ~ message_frames [] m.
Proof. by inversion 1. Qed.

(** A call that returns [msg], in a state that holds [pre] of a message whose other
    frames are described by [grammar]. *)
Definition reads (grammar : list Frame -> list ascii -> Prop) (pre : list ascii) (frames : list Frame)
    (msg : list ascii) (rest : list Frame) (ws : list write) : Prop :=
  exists fs m, frames = fs ++ rest /\ grammar fs m /\ msg = pre ++ m /\ len msg <= MaxLineSize /\ Utf8.Valid msg = true /\ ws = pongs fs.

(** The first frame is consumed by a message, never left over. *)
Lemma reads_cons grammar pre f frames msg rest ws :
  (forall m, ~ grammar [] m) ->
  reads grammar pre (f :: frames) msg rest ws <->
  exists fs m, frames = fs ++ rest /\ grammar (f :: fs) m /\ msg = pre ++ m /\ len msg <= MaxLineSize /\ Utf8.Valid msg = true /\ ws = pongs (f :: fs).
Proof.
  intros Hnil. split.
  - intros ([|f' fs] & m & E & Hg & H); [by destruct (Hnil m)|]. injection E as -> ->. by exists fs, m.
  - intros (fs & m & -> & Hg & H). by exists (f :: fs), m.
Qed.

(** Control frames between the others are skipped, pings with their pong. *)
Lemma checkHeader_None hdr :
  checkHeader hdr = None <-> len (f_payload hdr) <= (if IsControl (f_OpCode hdr) then MaxControlPayload else MaxLineSize).
Proof.
  unfold checkHeader. destruct (IsControl (f_OpCode hdr)); cbn [negb andb].
  - destruct (bool_decide_reflect (MaxControlPayload < len (f_payload hdr))); cbn [negb andb]; split; intros; (done || (exfalso; lia) || lia).
  - destruct (bool_decide_reflect (MaxLineSize < len (f_payload hdr))); split; intros; (done || (exfalso; lia) || lia).
Qed.

(** Nothing but what is in the grammar is read, at the first frame of it. *)
Definition first_frames (grammar : list Frame -> list ascii -> Prop) (data : Frame -> Prop) : Prop :=
  forall f fs m, grammar (f :: fs) m <->
    (interleaved f /\ grammar fs m) \/
    (data f /\ f_Fin f = true /\ fs = [] /\ m = f_payload f) \/
    (data f /\ f_Fin f = false /\ exists m', m = f_payload f ++ m' /\ continued fs m').

Lemma control_frames grammar data pre hdr frames e f msg rest f' ws :
  first_frames grammar data -> (forall m, ~ grammar [] m) -> (forall g, data g -> IsControl (f_OpCode g) = false) ->
  (forall ws, ReadMessage frames e f = (Ok msg, rest, f', ws) <-> reads grammar pre frames msg rest ws /\ f' = idle) ->
  IsControl (f_OpCode hdr) = true ->
  ReadMessage (hdr :: frames) e f = (Ok msg, rest, f', ws) <-> reads grammar pre (hdr :: frames) msg rest ws /\ f' = idle.
Proof.
  intros Hfirst Hnil Hdata IH Hc. rewrite reads_cons by done. cbn [ReadMessage]. rewrite Hc.
  assert (forall fs m, grammar (hdr :: fs) m <-> interleaved hdr /\ grammar fs m) as Hg.
  { intros fs m. rewrite (Hfirst hdr). split; [|by left]. intros [?|[[?%Hdata _]|[?%Hdata _]]]; [done|congruence..]. }
  setoid_rewrite Hg. pose proof (checkHeader_None hdr) as Hh. rewrite Hc in Hh.
  destruct (checkHeader hdr) as [[err w]|].
  { split; [done|]. intros [(fs & m & _ & [[_ (_ & Hl & _)] _] & _) _]. by apply Hh in Hl. }
  destruct (decide (f_OpCode hdr = OpClose)) as [Ho|Ho].
  { split; [done|]. intros [(fs & m & _ & [[_ (? & _)] _] & _) _]. done. }
  assert (forall fs, pongs (hdr :: fs) = (if decide (f_OpCode hdr = OpPing) then [WPong (f_payload hdr)] else []) ++ pongs fs) as Hp
    by (intros fs; unfold pongs; cbn; by destruct (decide _)).
  destruct (decide (f_OpCode hdr = OpPing)) as [Hping|Hping].
  - destruct (pongFails (f_payload hdr)) eqn:Ef.
    { split; [done|]. intros [(fs & m & _ & [[_ (_ & _ & H)] _] & _) _]. by rewrite H in Ef. }
    destruct (ReadMessage frames e f) as [[[r rest1] f1] ws1]. split.
    + intros [= -> -> -> <-]. destruct (proj1 (IH ws1) eq_refl) as [(fs & m & -> & Hgm & -> & Hl & Hv & ->) ->].
      split; [|done]. exists fs, m. rewrite Hp. split_and!; try done. split_and!; [done|done|by apply Hh|done].
    + intros [(fs & m & -> & [_ Hgm] & -> & Hl & Hv & ->) ->].
      assert ((r, rest1, f1, ws1) = (Ok (pre ++ m), rest, idle, pongs fs)) as [= -> -> -> ->] by (apply IH; split; [by exists fs, m|done]).
      by rewrite Hp.
  - rewrite IH. unfold reads. setoid_rewrite Hp. cbn [app].
    assert (interleaved hdr) as Hint by (split_and!; [done|done|by apply Hh|done]). naive_solver.
Qed.

Lemma payload_len_app a b : len (a ++ b) = len a + len b.
Proof. unfold len. rewrite length_app. lia. Qed.

Lemma payload_len_nonneg a : 0 <= len a.
Proof. unfold len. lia. Qed.

Lemma pongs_data f fs : IsControl (f_OpCode f) = false -> f_OpCode f <> OpPing -> pongs (f :: fs) = pongs fs.
Proof. intros _ H. unfold pongs. cbn. by rewrite decide_False. Qed.

(** The end of a message in a state that holds its beginning. *)
Definition holding (pre : list ascii) (f : FragmentState) : Prop :=
  fs_Active f = true /\ fs_Opcode f <> OpBinary /\ fs_MaxBytes f = MaxLineSize /\ fs_buf f = pre.

Lemma read_continued frames e f pre msg rest f' ws :
  holding pre f ->
  ReadMessage frames e f = (Ok msg, rest, f', ws) <-> reads continued pre frames msg rest ws /\ f' = idle.
Proof.
  revert f pre ws. induction frames as [|hdr frames IH]; intros f pre ws Hf.
  { split; [cbn; by repeat case_match|]. intros [([|] & m & E & Hc & _) _]; [by destruct (continued_nil m)|done]. }
  destruct (IsControl (f_OpCode hdr)) eqn:Hc.
  { apply (control_frames _ (fun f => f_OpCode f = OpContinuation)); [exact continued_cons|exact continued_nil|by intros g ->; apply IsControl_data| |done].
    intros ws'. by apply IH. }
  rewrite reads_cons by exact continued_nil. destruct Hf as (Ha & Ho & Hm & <-).
  assert (forall fs m, continued (hdr :: fs) m <->
    f_OpCode hdr = OpContinuation /\ (f_Fin hdr = true /\ fs = [] /\ m = f_payload hdr \/
      f_Fin hdr = false /\ exists m', m = f_payload hdr ++ m' /\ continued fs m')) as Hg.
  { intros fs m. rewrite continued_cons. split.
    - intros [[[? _] _]|[(? & ? & ? & ?)|(? & ? & ?)]]; [congruence|auto..].
    - intros [? [(? & ? & ?)|(? & ?)]]; auto 8. }
  setoid_rewrite Hg. clear Hg. cbn [ReadMessage]. pose proof (checkHeader_None hdr) as Hh. rewrite Hc in Hh |- *. pose proof (payload_len_nonneg (fs_buf f)).
  destruct (checkHeader hdr) as [[err w]|].
  { split; [done|]. intros [(fs & m & _ & [_ [(_ & _ & ->)|(_ & m' & -> & _)]] & -> & Hl & _) _]; rewrite !payload_len_app in Hl.
    - assert (len (f_payload hdr) <= MaxLineSize) as ?%Hh by lia. done.
    - pose proof (payload_len_nonneg m'). assert (len (f_payload hdr) <= MaxLineSize) as ?%Hh by lia. done. }
  destruct (decide (f_OpCode hdr = OpContinuation)) as [Hcont|Hcont].
  - unfold isBinary. rewrite bool_decide_eq_false_2 by (rewrite Hcont; naive_solver). unfold Process.
    rewrite decide_False by (rewrite Ha; by intros []). rewrite decide_False by tauto. rewrite decide_False by tauto. rewrite decide_True by done. rewrite Hm.
    assert (forall fs, pongs (hdr :: fs) = pongs fs) as Hp by (intros fs; apply pongs_data; [done|by rewrite Hcont]). setoid_rewrite Hp.
    destruct (decide (MaxLineSize < _)) as [Hbig|Hsmall].
    { split; [done|]. intros [(fs & m & _ & [_ [(_ & _ & ->)|(_ & m' & -> & _)]] & -> & Hl & _) _]; rewrite !payload_len_app in Hl; [|pose proof (payload_len_nonneg m')]; lia. }
    destruct (f_Fin hdr) eqn:Efin.
    + cbn [fs_buf]. destruct (Utf8.Valid _) eqn:Ev.
      * split; [intros [= <- <- <- <-]; split; [|done]|].
        -- exists [], (f_payload hdr). rewrite payload_len_app. split_and!; try done; [by left|lia].
        -- intros [(fs & m & -> & [_ [(_ & -> & ->)|[? _]]] & -> & Hl & Hv & ->) ->]; done.
      * split; [done|]. intros [(fs & m & -> & [_ [(_ & -> & ->)|[? _]]] & -> & Hl & Hv & ->) ->]; [congruence|done].
    + rewrite (IH _ (fs_buf f ++ f_payload hdr)) by done. unfold reads. apply and_iff_compat_r. split.
      * intros (fs & m & -> & Hcm & -> & Hl & Hv & ->). exists fs, (f_payload hdr ++ m). rewrite <- app_assoc in *. split_and!; try done. right. eauto.
      * intros (fs & m & -> & [_ [[? _]|(_ & m' & -> & Hcm)]] & -> & Hl & Hv & ->); [done|]. exists fs, m'. by rewrite <- app_assoc.
  - split; [|intros [(fs & m & _ & [? _] & _) _]; done]. unfold isBinary. destruct (bool_decide _); [done|]. unfold Process.
    rewrite decide_False by tauto. rewrite decide_True by done. done.
Qed.

(** C31: reading is exact. Between messages, a call returns a message precisely when the
    frames that arrive begin with one, whole or cut into any fragments, with pings
    and pongs anywhere between them, of at most the limit of bytes and valid UTF-8:
    the message is the payloads in order, the frames after it are left for the next
    call, every ping was answered with its payload, and the state is again the one
    between messages. *)
Theorem read_message_exact frames e msg rest f' ws :
  ReadMessage frames e idle = (Ok msg, rest, f', ws) <-> reads message_frames [] frames msg rest ws /\ f' = idle.
Proof.
  revert ws. induction frames as [|hdr frames IH]; intros ws.
  { split; [cbn; by repeat case_match|]. intros [([|] & m & E & Hc & _) _]; [by destruct (message_frames_nil m)|done]. }
  destruct (IsControl (f_OpCode hdr)) eqn:Hc.
  { apply (control_frames _ opening); [exact message_frames_cons|exact message_frames_nil|by intros g []|exact IH|done]. }
  rewrite reads_cons by exact message_frames_nil.
  assert (forall fs m, message_frames (hdr :: fs) m <->
    f_OpCode hdr <> OpContinuation /\ f_OpCode hdr <> OpBinary /\ (f_Fin hdr = true /\ fs = [] /\ m = f_payload hdr \/
      f_Fin hdr = false /\ exists m', m = f_payload hdr ++ m' /\ continued fs m')) as Hg.
  { intros fs m. rewrite message_frames_cons. unfold opening. split.
    - intros [[[? _] _]|[((_ & ? & ?) & ? & ? & ?)|((_ & ? & ?) & ? & ?)]]; [congruence|auto 8..].
    - intros (? & ? & [(? & ? & ?)|(? & ?)]); auto 9. }
  setoid_rewrite Hg. clear Hg. cbn [ReadMessage]. pose proof (checkHeader_None hdr) as Hh. rewrite Hc in Hh |- *.
  destruct (checkHeader hdr) as [[err w]|].
  { split; [done|]. intros [(fs & m & _ & (_ & _ & [(_ & _ & ->)|(_ & m' & -> & _)]) & -> & Hl & _) _]; cbn [app] in Hl; rewrite ?payload_len_app in Hl.
    - apply Hh in Hl. done.
    - pose proof (payload_len_nonneg m'). assert (len (f_payload hdr) <= MaxLineSize) as ?%Hh by lia. done. }
  pose proof (proj1 Hh eq_refl) as Hfits. unfold isBinary, Process. cbn [idle fs_Active fs_Opcode fs_MaxBytes].
  destruct (decide (f_OpCode hdr = OpContinuation)) as [Hcont|Hcont].
  { rewrite bool_decide_eq_false_2 by (rewrite Hcont; by intros [?|(_ & ? & _)]). rewrite decide_True by done. split; [done|]. by intros [(fs & m & _ & (? & _) & _) _]. }
  destruct (decide (f_OpCode hdr = OpBinary)) as [Hbin|Hbin].
  { rewrite bool_decide_eq_true_2 by auto. split; [done|]. by intros [(fs & m & _ & (_ & ? & _) & _) _]. }
  rewrite bool_decide_eq_false_2 by (intros [?|(? & _ & _)]; done). rewrite decide_False by tauto. rewrite decide_False by (by intros (_ & _ & ?)).
  assert (f_OpCode hdr <> OpPing) as Hnp by (intros E; rewrite E in Hc; by rewrite (proj1 (proj2 IsControl_control)) in Hc).
  assert (forall fs, pongs (hdr :: fs) = pongs fs) as Hp by (intros fs; by apply pongs_data). setoid_rewrite Hp.
  destruct (f_Fin hdr) eqn:Efin.
  - rewrite decide_False by (by intros []). rewrite decide_False by (by intros []). rewrite decide_False by lia.
    destruct (Utf8.Valid _) eqn:Ev.
    + split.
      * intros [= <- <- <- <-]. split; [|done]. exists [], (f_payload hdr). split_and!; try done. by left.
      * intros [(fs & m & -> & (_ & _ & [(_ & -> & ->)|[? _]]) & -> & Hl & Hv & ->) ->]; done.
    + split; [done|]. intros [(fs & m & -> & (_ & _ & [(_ & -> & ->)|[? _]]) & -> & Hl & Hv & ->) ->]; [cbn in Hv; congruence|done].
  - rewrite decide_True by done. rewrite decide_False by lia. rewrite (read_continued _ _ _ (f_payload hdr)) by done. apply and_iff_compat_r. split.
    + intros (fs & m & -> & Hcm & -> & Hl & Hv & ->). exists fs, (f_payload hdr ++ m). split_and!; try done. right. eauto.
    + intros (fs & m & -> & (_ & _ & [[? _]|(_ & m' & -> & Hcm)]) & -> & Hl & Hv & ->); [done|]. by exists fs, m'.
Qed.
End frames.

(** ** Examples *)

(** RFC 6455: the control opcodes have their highest bit set. *)
Definition rfcControl (op : OpCode) : bool :=
  match op with OpContinuation | OpText | OpBinary => false | OpClose | OpPing | OpPong => true | OpReserved n => Nat.leb 8 n end.

Definition frame (fin : bool) (op : OpCode) (payload : string) : Frame :=
  {| f_Fin := fin; f_OpCode := op; f_payload := list_ascii_of_string payload |}.

(** A message in three fragments with a ping and a pong between them, and another. *)
Definition demo_frames : list Frame :=
  [frame false OpText "[1"; frame true OpPing "p"; frame false OpContinuation ",2"; frame true OpPong ""; frame true OpContinuation "]"].

Definition demo_message : list ascii := list_ascii_of_string "[1,2]".

Lemma demo_frames_message : message_frames rfcControl (fun _ => false) demo_frames demo_message.
Proof.
  change demo_message with (list_ascii_of_string "[1" ++ list_ascii_of_string ",2" ++ list_ascii_of_string "]").
  apply (mf_first _ _ (frame false OpText "[1")); [by split_and!|done|].
  apply ct_control; [by split_and!|]. apply (ct_more _ _ (list_ascii_of_string ",2")).
  apply ct_control; [by split_and!|]. apply ct_last.
Qed.

Lemma read_message_exact_witness :
  (rfcControl OpContinuation = false /\ rfcControl OpText = false /\ rfcControl OpBinary = false) /\
  (rfcControl OpClose = true /\ rfcControl OpPing = true /\ rfcControl OpPong = true) /\
  ReadMessage rfcControl (fun _ => false) (demo_frames ++ [frame true OpText "next"]) Closed idle =
    (Ok demo_message, [frame true OpText "next"], idle, [WPong ["p"%char]]).
Proof.
  assert (rfcControl OpContinuation = false /\ rfcControl OpText = false /\ rfcControl OpBinary = false) as H1 by by split_and!.
  assert (rfcControl OpClose = true /\ rfcControl OpPing = true /\ rfcControl OpPong = true) as H2 by by split_and!.
  split; [exact H1|]. split; [exact H2|].
  apply (read_message_exact rfcControl (fun _ => false) H1 H2). split; [|reflexivity].
  exists demo_frames, demo_message. split_and!; [reflexivity|exact demo_frames_message|reflexivity|unfold len, MaxLineSize; cbn; lia|reflexivity|reflexivity].
Defined.

(** A data frame with a reserved opcode is read like a text message. *)
Example reserved_opcode_accepted :
  (ReadMessage rfcControl (fun _ => false) [frame true (OpReserved 3) "x"] Closed idle).1.1.1 = Ok ["x"%char].
Proof. vm_compute. reflexivity. Qed.

(** A binary message is refused at its first frame, one that is cut at any of them. *)
Example binary_refused :
  (ReadMessage rfcControl (fun _ => false) [frame false OpBinary "x"] Closed idle).1.1.1 = Err BinaryRejected.
Proof. vm_compute. reflexivity. Qed.
