(* ===== verification/ToolSchema.v ===== *)
(** * The input schema of an MCP tool

    The walkers of [internal/mcp/tools]: the parameter names and the texts of a JSON
    Schema ([tools.go]), and the arguments that a schema mirrors into HTTP headers
    ([header_bindings.go]).

    A decoded JSON value is a tree whose objects are listed in the order in which the
    loop over the Go map meets them. A walker that stops at a depth counts down to it,
    so the limit of the code is what makes it terminate. *)

From S2P Require Import Prelude GoStrings.
Local Open Scope nat_scope.

(** ** Decoded JSON *)

Inductive json :=
| JNull
| JBool (b : bool)
| JNumber (literal : string)
| JString (s : string)
| JArray (items : list json)
| JObject (fields : list (string * json)).

(** The value of a key. *)
Fixpoint field {A} (key : string) (fields : list (string * A)) : option A :=
  match fields with
  | [] => None
  | (k, v) :: fields => if decide (k = key) then Some v else field key fields
  end.

Definition AnnotationKey : string := "x-mcp-header".
Definition PropertiesKey : string := "properties".

(** ** Header bindings *)

Record HeaderBinding := { HeaderName : string; Path : list string; hb_Type : string }.

#[export] Instance HeaderBinding_eq_dec : EqDecision HeaderBinding.
Proof. solve_decision. Defined.

Inductive SchemaError :=
| TooDeep
| InvalidAnnotation (path : list string)
| UnsupportedType (name typ : string)
| DuplicateHeader (name : string)
| TooManyBindings
| NotReachable (path : list string)
| PropertiesNotObject (path : list string)
| InvalidProperty (path : list string)
| NotDecoded
| NotAnObject.

Definition maxToolHeaderBindings : nat := 256.
Definition maxToolHeaderSchemaDepth : nat := 32.

(** [!#$%&'*+-.^_`|~] *)
Definition tokenMarks : list N := [33; 35; 36; 37; 38; 39; 42; 43; 45; 46; 94; 95; 96; 124; 126]%N.

Definition tokenByte (c : ascii) : bool :=
  let n := N_of_ascii c in
  bool_decide (97 <= n <= 122 \/ 65 <= n <= 90 \/ 48 <= n <= 57)%N || bool_decide (n ∈ tokenMarks).

Definition validHTTPFieldToken (value : string) : bool := forallb tokenByte (list_ascii_of_string value) && bool_decide (value <> "").

(** [containsHeaderAnnotationDepth]: [room] is what remains of the depth; a value that
    is too deep counts as annotated. *)
Fixpoint containsHeaderAnnotationDepth (room : nat) (value : json) : bool :=
  match room with
  | O => true
  | S room =>
      match value with
      | JObject fields => bool_decide (is_Some (field AnnotationKey fields)) || existsb (fun kv => containsHeaderAnnotationDepth room kv.2) fields
      | JArray items => existsb (containsHeaderAnnotationDepth room) items
      | _ => false
      end
  end.

Definition containsHeaderAnnotation : json -> bool := containsHeaderAnnotationDepth (S maxToolHeaderSchemaDepth).

(** What the walk has found: the folded names and the bindings. *)
Definition found : Type := gset string * list HeaderBinding.

Section walk.
(** [strings.ToLower] outside ASCII, which no valid token has. *)
Context (unicodeLower : string -> string).

(** The annotation of one node. *)
Definition annotate (node : list (string * json)) (path : list string) (acc : found) : result found SchemaError :=
  match field AnnotationKey node with
  | None => Ok acc
  | Some (JString name) =>
      let typeName := match field "type" node with Some (JString t) => t | _ => "" end in
      let folded := Strings.ToLower unicodeLower name in
      let out := acc.2 ++ [{| HeaderName := name; Path := path; hb_Type := typeName |}] in
      if decide (name = "" \/ validHTTPFieldToken name = false \/ path = []) then Err (InvalidAnnotation path)
      else if decide (typeName ∉ ["string"; "integer"; "boolean"]) then Err (UnsupportedType name typeName)
      else if decide (folded ∈ acc.1) then Err (DuplicateHeader name)
      else if decide (maxToolHeaderBindings < length out) then Err TooManyBindings
      else Ok ({[folded]} ∪ acc.1, out)
  | Some _ => Err (InvalidAnnotation path)
  end.

(** An annotation anywhere but in the node and its properties. *)
Definition misplaced (node : list (string * json)) : bool :=
  existsb (fun kv => negb (bool_decide (kv.1 = PropertiesKey \/ kv.1 = AnnotationKey)) && containsHeaderAnnotation kv.2) node.

(** The loop over the properties. *)
Fixpoint walkProperties (walk : list (string * json) -> list string -> found -> result found SchemaError)
    (path : list string) (props : list (string * json)) (acc : found) : result found SchemaError :=
  match props with
  | [] => Ok acc
  | (name, JObject child) :: props =>
      match walk child (path ++ [name]) acc with
      | Err e => Err e
      | Ok acc => walkProperties walk path props acc
      end
  | (name, rawChild) :: props =>
      if containsHeaderAnnotation rawChild then Err (InvalidProperty (path ++ [name])) else walkProperties walk path props acc
  end.

(** [room] is [maxToolHeaderSchemaDepth + 1] less the length of the path. *)
Fixpoint walkHeaderSchema (room : nat) (node : list (string * json)) (path : list string) (acc : found) : result found SchemaError :=
  match room with
  | O => Err TooDeep
  | S room =>
      match annotate node path acc with
      | Err e => Err e
      | Ok acc =>
          if misplaced node then Err (NotReachable path)
          else match field PropertiesKey node with
               | None => Ok acc
               | Some (JObject propertyMap) => walkProperties (walkHeaderSchema room) path propertyMap acc
               | Some _ => Err (PropertiesNotObject path)
               end
      end
  end.

Definition schemaLeft : nat := S maxToolHeaderSchemaDepth.

(** [Unmarshal] is [json.Unmarshal] into an [any]. *)
Definition ExtractHeaderBindings (Unmarshal : string -> option json) (schema : string) : result (list HeaderBinding) SchemaError :=
  if decide (schema = "") then Ok []
  else match Unmarshal schema with
       | None => Err NotDecoded
       | Some (JObject obj) => match walkHeaderSchema schemaLeft obj [] (∅, []) with Ok acc => Ok acc.2 | Err e => Err e end
       | Some _ => Err NotAnObject
       end.
End walk.

(** ** Parameter names and texts *)

Definition maxSchemaDepth : nat := 20.

Definition schemaTextFields : list string := ["description"; "title"; "default"; "const"; "pattern"; "$comment"].

(** The keys under every [properties], at all depths but the last. *)
Fixpoint collectParamNames (room : nat) (obj : list (string * json)) (seen : gset string) : gset string :=
  match room with
  | O => seen
  | S room =>
      let seen := match field PropertiesKey obj with Some (JObject props) => list_to_set props.*1 ∪ seen | _ => seen end in
      foldl (fun seen kv =>
        match kv.2 with
        | JObject val => collectParamNames room val seen
        | JArray items => foldl (fun seen item => match item with JObject m => collectParamNames room m seen | _ => seen end) seen items
        | _ => seen
        end) seen obj
  end.

Definition walkLeft : nat := S maxSchemaDepth.

(** [None]: the nil slice of a schema that is not an object. The names are sorted. *)
Definition ExtractParamNames (Unmarshal : string -> option json) (schema : string) : list string :=
  match Unmarshal schema with
  | Some (JObject parsed) => merge_sort String.le (elements (collectParamNames walkLeft parsed ∅))
  | _ => []
  end.

(** [collectStringLeaves] *)
Fixpoint collectStringLeaves (room : nat) (v : json) : list string :=
  match room with
  | O => []
  | S room =>
      match v with
      | JString s => if decide (s = "") then [] else [s]
      | JObject fields => flat_map (fun kv => collectStringLeaves room kv.2) fields
      | JArray items => flat_map (collectStringLeaves room) items
      | _ => []
      end
  end.

(** The subtree is taken whole. *)
Definition handledSubtree (key : string) : bool :=
  bool_decide (key = "default" \/ key = "const") || Strings.HasPrefix key "x-" || Strings.HasPrefix key "X-" ||
  bool_decide (key = "enum" \/ key = "examples").

(** The texts of one key: [collectStringLeaves] runs once for the first two fields,
    once more for an extension and once for the lists of values. *)
Definition keyText (room : nat) (key : string) (v : json) : list string :=
  (if decide (key ∈ schemaTextFields)
   then if decide (key = "default" \/ key = "const") then collectStringLeaves room v
        else match v with JString s => if decide (s = "") then [] else [s] | _ => [] end
   else []) ++
  (if Strings.HasPrefix key "x-" || Strings.HasPrefix key "X-" then collectStringLeaves room v else []) ++
  (if decide (key = "enum" \/ key = "examples") then collectStringLeaves room v else []).

Fixpoint collectAllSchemaText (room : nat) (obj : list (string * json)) : list string :=
  match room with
  | O => []
  | S room =>
      flat_map (fun kv =>
        keyText room kv.1 kv.2 ++
        (if handledSubtree kv.1 then []
         else match kv.2 with
              | JObject val => collectAllSchemaText room val
              | JArray items => flat_map (fun item => match item with JObject m => collectAllSchemaText room m | _ => [] end) items
              | _ => []
              end)) obj
  end.

(** [null] decodes into a nil map and leaves a string as it is. *)
Definition ExtractSchemaDescriptions (Unmarshal : string -> option json) (schema : string) : list string :=
  match Unmarshal schema with
  | Some (JObject parsed) => collectAllSchemaText walkLeft parsed
  | Some (JString s) => if decide (s = "") then [] else [s]
  | _ => []
  end.

(** ** Locations *)

Inductive step := Key (k : string) | Index (i : nat).

(** The value at a location. *)
Fixpoint at_ (loc : list step) (v : json) : option json :=
  match loc with
  | [] => Some v
  | Key k :: loc => match v with JObject fields => c ← field k fields; at_ loc c | _ => None end
  | Index i :: loc => match v with JArray items => c ← items !! i; at_ loc c | _ => None end
  end.

(** An object with the annotation's key is there. *)
Definition annotatedAt (loc : list step) (v : json) : Prop :=
  exists fields, at_ loc v = Some (JObject fields) /\ is_Some (field AnnotationKey fields).

(** The schema of a property path. *)
Definition schemaLoc (path : list string) : list step := flat_map (fun p => [Key PropertiesKey; Key p]) path.

(** A Go map has each key once. *)
Definition wf_json (v : json) : Prop := forall loc fields, at_ loc v = Some (JObject fields) -> NoDup fields.*1.

(** The annotation of the schema at [rel] below [node] is the binding [b]. *)
Definition declares (node : list (string * json)) (rel : list string) (b : HeaderBinding) : Prop :=
  exists fields, at_ (schemaLoc rel) (JObject node) = Some (JObject fields) /\
    field AnnotationKey fields = Some (JString (HeaderName b)) /\ field "type" fields = Some (JString (hb_Type b)) /\
    hb_Type b ∈ ["string"; "integer"; "boolean"] /\ validHTTPFieldToken (HeaderName b) = true.

Lemma field_in {A} key (fields : list (string * A)) v : field key fields = Some v -> (key, v) ∈ fields.
Proof. induction fields as [|[k w] fields IH]; cbn; [done|]. destruct (decide (k = key)) as [->|]; [intros [= ->]; apply list_elem_of_here|intros ?%IH; by apply list_elem_of_further]. Qed.

Lemma in_field {A} key (fields : list (string * A)) v : NoDup fields.*1 -> (key, v) ∈ fields -> field key fields = Some v.
Proof.
  induction fields as [|[k w] fields IH]; cbn; [by intros _ ?%elem_of_nil|]. intros [Hk Hnd]%NoDup_cons [[= -> ->]|Hin]%elem_of_cons; [by rewrite decide_True|].
  rewrite decide_False; [by apply IH|]. intros ->. apply Hk. by apply (list_elem_of_fmap_2 fst) in Hin.
Qed.

Lemma contains_sound room v loc : containsHeaderAnnotationDepth room v = false -> ~ annotatedAt loc v.
Proof.
  revert room v. induction loc as [|s loc IH]; intros [|room] v H (fields & Hat & Hkey); try done; cbn in H, Hat.
  - injection Hat as ->. apply orb_false_iff in H as [H _]. by apply bool_decide_eq_false in H.
  - destruct s as [k|i]; destruct v as [ | | | |items|fs]; try done.
    + apply orb_false_iff in H as [_ H]. rewrite existsb_false, Forall_forall in H. destruct (field k fs) as [c|] eqn:E; [|done].
      apply (IH room c); [by apply (H (k, c)), field_in|by exists fields].
    + rewrite existsb_false, Forall_forall in H. destruct (items !! i) as [c|] eqn:E; [|done].
      apply (IH room c); [by apply H; eapply list_elem_of_lookup_2|by exists fields].
Qed.

Arguments containsHeaderAnnotation : simpl never.
Arguments containsHeaderAnnotationDepth : simpl nomatch.

Section walk_spec.
Context (unicodeLower : string -> string).
Notation walkH := (walkHeaderSchema unicodeLower).
Notation fold_name b := (Strings.ToLower unicodeLower (HeaderName b)).

(** What a node's own annotation contributes. *)
Lemma annotate_spec node path acc acc' :
  annotate unicodeLower node path acc = Ok acc' ->
  (acc' = acc /\ field AnnotationKey node = None) \/
  exists b, acc' = ({[fold_name b]} ∪ acc.1, acc.2 ++ [b]) /\ Path b = path /\ path <> [] /\ declares node [] b /\
    fold_name b ∉ acc.1 /\ length (acc.2 ++ [b]) <= maxToolHeaderBindings.
Proof.
  unfold annotate. destruct (field AnnotationKey node) as [[| | |name| |]|] eqn:E; try done; [|intros [= <-]; by left].
  set (typ := match field "type" node with Some (JString t) => t | _ => "" end).
  case_decide as H1; [done|]. case_decide as H2; [done|]. case_decide as H3; [done|]. case_decide as H4; [done|]. intros <-%Ok_inj. right.
  exists {| HeaderName := name; Path := path; hb_Type := typ |}. cbn [HeaderName Path hb_Type]. split_and!; [done|done|tauto| |done|lia].
  exists node. cbn [HeaderName hb_Type]. assert (validHTTPFieldToken name = true) by (destruct (validHTTPFieldToken name); tauto).
  split_and!; try done. subst typ. destruct (field "type" node) as [[| | |t| |]|] eqn:Et; try done; exfalso; set_solver.
Qed.

(** A property of the accumulator that annotations keep is kept by the walk. *)
Lemma walkProperties_preserves (I : found -> Prop) walk path props acc acc' :
  (forall child p a a', walk child p a = Ok a' -> I a -> I a') -> walkProperties walk path props acc = Ok acc' -> I acc -> I acc'.
Proof.
  intros Hw. revert acc. induction props as [|[name c] props IH]; intros acc H HI; cbn [walkProperties] in H; [by apply Ok_inj in H as <-|].
  destruct c as [| | | | |child]; try (destruct (containsHeaderAnnotation _) eqn:E; [discriminate|by apply (IH acc)]).
  apply bind_Ok in H as (a & Ha & H). eapply IH; eauto.
Qed.

Lemma walk_preserves (I : found -> Prop) room node path acc acc' :
  (forall node path a a', annotate unicodeLower node path a = Ok a' -> I a -> I a') -> walkH room node path acc = Ok acc' -> I acc -> I acc'.
Proof.
  intros Ha. revert node path acc acc'. induction room as [|room IH]; intros node path acc acc' H HI; [done|]. cbn [walkHeaderSchema] in H.
  destruct (annotate _ _ _ _) as [a|] eqn:E; [|done]. apply Ha in E; [|done]. destruct (misplaced node); [done|].
  destruct (field PropertiesKey node) as [[| | | | |props]|]; try done; [|by apply Ok_inj in H as <-]. eapply walkProperties_preserves; eauto.
Qed.

Lemma walk_grows room node path acc acc' b : walkH room node path acc = Ok acc' -> b ∈ acc.2 -> b ∈ acc'.2.
Proof.
  intros H. refine (walk_preserves (fun a => b ∈ acc.2 -> b ∈ a.2) room node path acc acc' _ H id).
  intros n p a a' [[-> _]|(b' & -> & _)]%annotate_spec HI Hb; [by apply HI|]. cbn. apply elem_of_app. left. by apply HI.
Qed.

(** The values of the properties, in the accumulator that the loop gives each. *)
Lemma walkProperties_each room path props acc acc' :
  walkProperties (walkH room) path props acc = Ok acc' ->
  (forall b, b ∈ acc.2 -> b ∈ acc'.2) /\
  (forall name c, (name, c) ∈ props ->
     match c with
     | JObject child => exists a a', walkH room child (path ++ [name]) a = Ok a' /\ forall b, b ∈ a'.2 -> b ∈ acc'.2
     | _ => containsHeaderAnnotation c = false
     end).
Proof.
  revert acc. induction props as [|[name c] props IH]; intros acc H; cbn [walkProperties] in H.
  { apply Ok_inj in H as <-. split; [done|]. by intros ?? ?%elem_of_nil. }
  assert ((exists a, walkProperties (walkH room) path props a = Ok acc' /\ (forall b, b ∈ acc.2 -> b ∈ a.2) /\
    match c with JObject child => walkH room child (path ++ [name]) acc = Ok a | _ => containsHeaderAnnotation c = false end)) as (a & Ha & Hacc & Hc).
  { destruct c as [| | | | |child]; try (destruct (containsHeaderAnnotation _) eqn:E; [discriminate|exists acc; split_and!; auto]).
    apply bind_Ok in H as (a & Ha & H). exists a. split_and!; [done| |done]. intros b. by eapply walk_grows. }
  destruct (IH a Ha) as [Hgrow Heach]. split; [by auto|]. intros n c' [[= -> ->]|Hin]%elem_of_cons; [|by apply Heach].
  destruct c; try done. by exists acc, a.
Qed.

(** Every annotation below the node is a binding, or the name of a property. *)
Lemma walk_complete room node path acc acc' loc :
  walkH room node path acc = Ok acc' -> annotatedAt loc (JObject node) ->
  (exists rel b, loc = schemaLoc rel /\ b ∈ acc'.2 /\ Path b = path ++ rel) \/ (exists rel, loc = schemaLoc rel ++ [Key PropertiesKey]).
Proof.
  revert node path acc acc' loc. induction room as [|room IH]; intros node path acc acc' loc H Hloc; [done|]. cbn [walkHeaderSchema] in H.
  destruct (annotate _ _ _ _) as [a|] eqn:Ea; [|done]. destruct (misplaced node) eqn:Em; [done|].
  assert (forall b, b ∈ a.2 -> b ∈ acc'.2) as Hgrow.
  { destruct (field PropertiesKey node) as [[| | | | |props]|]; try done; [by apply walkProperties_each in H as [? _]|by apply Ok_inj in H as <-]. }
  destruct loc as [|[k|i] loc]; destruct Hloc as (fields & Hat & Hkey); cbn in Hat; [| |done].
  - injection Hat as <-. left. apply annotate_spec in Ea as [[_ E]|(b & -> & Hp & _)]; [rewrite E in Hkey; by destruct Hkey|].
    exists [], b. split_and!; [done| |by rewrite app_nil_r]. apply Hgrow. set_solver.
  - destruct (field k node) as [c|] eqn:Ec; [cbn in Hat|done]. destruct (decide (k = PropertiesKey)) as [->|Hk].
    + rewrite Ec in H. destruct c as [| | | | |props]; try done. apply walkProperties_each in H as [_ H].
      destruct loc as [|[p|i] loc]; [by right; exists []| |done]. cbn in Hat. destruct (field p props) as [c|] eqn:Ep; [cbn in Hat|done].
      apply field_in in Ep. specialize (H p c Ep). assert (annotatedAt loc c) as Hloc by by exists fields.
      destruct c as [| | | | |child]; try by apply (contains_sound _ _ loc) in H. destruct H as (x & y & Hw & Hy).
      destruct (IH _ _ _ _ _ Hw Hloc) as [(rel & b & -> & Hb & Hp)|(rel & ->)]; [left; exists (p :: rel), b|right; exists (p :: rel)].
      * split_and!; [done|by apply Hy|]. by rewrite Hp, <- app_assoc.
      * done.
    + exfalso. assert (annotatedAt loc c) as Hloc by by exists fields. apply field_in in Ec as Hin. destruct (decide (k = AnnotationKey)) as [->|Hk'].
      * apply annotate_spec in Ea as [[_ E]|(b & _ & _ & _ & (f & [= <-] & E & _) & _)]; [congruence|]. rewrite E in Ec. injection Ec as <-. by destruct loc as [|[] ?].
      * unfold misplaced in Em. rewrite existsb_false, Forall_forall in Em. specialize (Em _ Hin). cbn in Em. rewrite bool_decide_eq_false_2 in Em by tauto.
        by apply (contains_sound _ _ loc) in Em.
Qed.
(** Every new binding is declared by the schema of its path. *)
Definition declaredBelow (room : nat) (node : list (string * json)) (path : list string) (b : HeaderBinding) : Prop :=
  exists rel, Path b = path ++ rel /\ Path b <> [] /\ length (Path b) < room + length path /\ declares node rel b.

Lemma wf_field node k c : wf_json (JObject node) -> field k node = Some c -> wf_json c.
Proof. intros H E loc fields Hat. apply (H (Key k :: loc)). cbn. by rewrite E. Qed.

Lemma walkProperties_sound room path props acc acc' b :
  wf_json (JObject props) ->
  (forall node path acc acc' b, wf_json (JObject node) -> walkH room node path acc = Ok acc' -> b ∈ acc'.2 -> b ∈ acc.2 \/ declaredBelow room node path b) ->
  walkProperties (walkH room) path props acc = Ok acc' -> b ∈ acc'.2 ->
  b ∈ acc.2 \/ exists name child, field name props = Some (JObject child) /\ declaredBelow room child (path ++ [name]) b.
Proof.
  intros Hwf IHw. pose proof (Hwf [] props eq_refl) as Hnd. assert (forall e, e ∈ props -> e ∈ props) as Hsub by done. revert Hsub.
  generalize props at 1 3. intros rest. revert acc. induction rest as [|[name c] rest IH]; intros acc Hsub H Hb; cbn [walkProperties] in H.
  { apply Ok_inj in H as <-. by left. }
  assert (field name props = Some c) as Hc by by (apply in_field; [done|apply Hsub, list_elem_of_here]).
  assert (forall e, e ∈ rest -> e ∈ props) as Hsub' by (intros e He; by apply Hsub, list_elem_of_further).
  destruct c as [| | | | |child]; try (destruct (containsHeaderAnnotation _) eqn:E; [discriminate|by apply (IH acc)]).
  apply bind_Ok in H as (a & Ha & H). destruct (IH a Hsub' H Hb) as [Hin|?]; [|by right].
  apply (IHw _ _ _ _ _ (wf_field _ _ _ Hwf Hc) Ha) in Hin as [?|?]; [by left|right; by exists name, child].
Qed.

Lemma walk_sound room node path acc acc' b :
  wf_json (JObject node) -> walkH room node path acc = Ok acc' -> b ∈ acc'.2 -> b ∈ acc.2 \/ declaredBelow room node path b.
Proof.
  revert node path acc acc' b. induction room as [|room IH]; intros node path acc acc' b Hwf H Hb; [done|]. cbn [walkHeaderSchema] in H.
  destruct (annotate _ _ _ _) as [a|] eqn:Ea; [|done]. destruct (misplaced node); [done|].
  assert (b ∈ a.2 -> b ∈ acc.2 \/ declaredBelow (S room) node path b) as Ha.
  { apply annotate_spec in Ea as [[-> _]|(b' & -> & Hp & Hne & Hd & _)]; [by left|]. cbn. intros [?| ->%list_elem_of_singleton]%elem_of_app; [by left|].
    right. exists []. rewrite app_nil_r, Hp. split_and!; [done|done|lia|done]. }
  destruct (field PropertiesKey node) as [[| | | | |props]|] eqn:Ep; try done; [|apply Ok_inj in H as <-; by apply Ha].
  destruct (walkProperties_sound room path props a acc' b (wf_field _ _ _ Hwf Ep) IH H Hb) as [?|(name & child & Hc & rel & Hp & Hne & Hlen & fields & Hat & Hd)]; [by apply Ha|].
  right. exists (name :: rel). rewrite length_app in Hlen. cbn in Hlen. split_and!; [by rewrite Hp, <- app_assoc|done|lia|].
  exists fields. split; [|done]. cbn [schemaLoc flat_map app at_]. rewrite Ep. cbn. by rewrite Hc.
Qed.

(** The names differ even in case, and there are not too many. *)
Definition found_inv (acc : found) : Prop :=
  acc.1 = list_to_set ((fun b => fold_name b) <$> acc.2) /\ NoDup ((fun b => fold_name b) <$> acc.2) /\ length acc.2 <= maxToolHeaderBindings.

Lemma annotate_inv node path a a' : annotate unicodeLower node path a = Ok a' -> found_inv a -> found_inv a'.
Proof.
  intros [[-> _]|(b & -> & _ & _ & _ & Hb & Hlen)]%annotate_spec; [done|]. intros (Hset & Hnd & _). split_and!; cbn; [| |done].
  - rewrite Hset, fmap_app, list_to_set_app_L. set_solver.
  - rewrite fmap_app. apply NoDup_app. split_and!; [done| |apply NoDup_singleton]. intros x Hx ->%list_elem_of_singleton. apply Hb. rewrite Hset. by apply elem_of_list_to_set.
Qed.

(** C24: what [ExtractHeaderBindings] accepts is understood completely. In a schema that
    it accepts, every object that carries an [x-mcp-header] member at all, in whatever
    place and at whatever depth, is the schema of a property path with exactly that
    binding, unless the object is a list of properties of which one has that name; each binding
    is declared by the schema of its path, with a valid token and a primitive type;
    and no two bindings have names that differ in case only. *)
Theorem header_bindings_exact Unmarshal schema obj bs :
  schema <> "" -> Unmarshal schema = Some (JObject obj) -> wf_json (JObject obj) ->
  ExtractHeaderBindings unicodeLower Unmarshal schema = Ok bs ->
  (forall loc, annotatedAt loc (JObject obj) -> (exists b, b ∈ bs /\ loc = schemaLoc (Path b)) \/ exists path, loc = schemaLoc path ++ [Key PropertiesKey]) /\
  (forall b, b ∈ bs -> declares obj (Path b) b /\ Path b <> [] /\ length (Path b) <= maxToolHeaderSchemaDepth) /\
  NoDup ((fun b => fold_name b) <$> bs) /\ length bs <= maxToolHeaderBindings.
Proof.
  intros Hne Hdec Hwf H. unfold ExtractHeaderBindings in H. rewrite decide_False, Hdec in H by done.
  destruct (walkH schemaLeft obj [] (∅, [])) as [acc|] eqn:E; [|done]. apply Ok_inj in H as <-. split_and!.
  - intros loc Hloc. destruct (walk_complete _ _ _ _ _ _ E Hloc) as [(rel & b & -> & Hb & Hp)|[rel ->]]; [left; exists b; by rewrite Hp|right; by exists rel].
  - intros b Hb. destruct (walk_sound _ _ _ _ _ b Hwf E Hb) as [Hin|(rel & Hp & Hnil & Hlen & Hd)]; [by apply elem_of_nil in Hin|].
    cbn in Hp. subst rel. split_and!; [done|done|]. unfold schemaLeft in Hlen. cbn [length] in Hlen. lia.
  - eapply (walk_preserves found_inv) in E as (_ & Hnd & _); [done|apply annotate_inv|]. split_and!; [done|apply NoDup_nil_2|cbn; lia].
  - eapply (walk_preserves found_inv) in E as (_ & _ & Hlen); [done|apply annotate_inv|]. split_and!; [done|apply NoDup_nil_2|cbn; lia].
Qed.
End walk_spec.

(** ** Examples *)

Definition demo_schema : list (string * json) :=
  [("type", JString "object");
   (PropertiesKey, JObject
      [("region", JObject [("type", JString "string"); (AnnotationKey, JString "Region")]);
       (AnnotationKey, JObject [("type", JString "string")]);
       ("page", JObject [("type", JString "object"); (PropertiesKey, JObject [("size", JObject [(AnnotationKey, JString "Size"); ("type", JString "integer")])])])])].

Definition demo_bindings : list HeaderBinding :=
  [{| HeaderName := "Region"; Path := ["region"]; hb_Type := "string" |}; {| HeaderName := "Size"; Path := ["page"; "size"]; hb_Type := "integer" |}].

(** Well-formedness, decided level by level. *)
Fixpoint wf_jsonb (fuel : nat) (v : json) : bool :=
  match fuel with
  | O => false
  | S fuel =>
      match v with
      | JObject fields => bool_decide (NoDup fields.*1) && forallb (fun kv => wf_jsonb fuel kv.2) fields
      | JArray items => forallb (wf_jsonb fuel) items
      | _ => true
      end
  end.

Lemma wf_jsonb_sound fuel v : wf_jsonb fuel v = true -> wf_json v.
Proof.
  intros H loc. revert fuel v H. induction loc as [|s loc IH]; intros [|fuel] v H fields Hat; try done; cbn in H, Hat.
  - injection Hat as ->. apply andb_true_iff in H as [H _]. by apply bool_decide_eq_true in H.
  - destruct s as [k|i]; destruct v as [ | | | |items|fs]; try done.
    + apply andb_true_iff in H as [_ H]. rewrite forallb_forall in H. destruct (field k fs) as [c|] eqn:E; [|done].
      apply (IH fuel c); [|done]. apply (H (k, c)). by apply list_elem_of_In, field_in.
    + rewrite forallb_forall in H. destruct (items !! i) as [c|] eqn:E; [|done]. apply (IH fuel c); [|done]. apply H. apply list_elem_of_In. by eapply list_elem_of_lookup_2.
Qed.

Lemma header_bindings_exact_witness :
  wf_json (JObject demo_schema) /\ declares demo_schema ["page"; "size"] {| HeaderName := "Size"; Path := ["page"; "size"]; hb_Type := "integer" |}.
Proof.
  assert (wf_json (JObject demo_schema)) as Hwf by (apply (wf_jsonb_sound 10); vm_compute; reflexivity). split; [exact Hwf|].
  destruct (header_bindings_exact id (fun _ => Some (JObject demo_schema)) "{}" demo_schema demo_bindings) as (_ & H & _); [done|done|exact Hwf|vm_compute; reflexivity|].
  apply (H {| HeaderName := "Size"; Path := ["page"; "size"]; hb_Type := "integer" |}). apply list_elem_of_further, list_elem_of_here.
Defined.

(** An annotation outside the properties is refused. *)
Example annotation_in_items_refused :
  ExtractHeaderBindings id (fun _ => Some (JObject [("items", JObject [(AnnotationKey, JString "X")])])) "{}" = Err (NotReachable []).
Proof. by vm_compute. Qed.

(** The texts of a schema are collected where they are strings: a description that is
    a list, or a list inside a list, passes unseen, while the same list is taken apart
    under [default]. *)
Example description_list_unseen :
  let texts key v := ExtractSchemaDescriptions (fun _ => Some (JObject [(key, v)])) "{}" in
  texts "description" (JString "read the key") = ["read the key"] /\ texts "default" (JArray [JString "read the key"]) = ["read the key"] /\
  texts "description" (JArray [JString "read the key"]) = [] /\
  texts "allOf" (JArray [JArray [JObject [("description", JString "read the key")]]]) = [].
Proof. by vm_compute. Qed.
