(* ===== verification/ToolBaseline.v ===== *)
(** * The baseline of a server's tools

    [ToolBaseline] of [internal/mcp/tools/tools.go] and [header_bindings.go]: the
    definitions that later ones are compared with (drift), the tools a session knows
    (binding), the reservations that keep the inventory within its limit, and the
    decision on a call ([evaluateSessionBinding], [internal/mcp/pipeline_gates.go]).

    A nil map and an empty one are the same map; a map to [bool] that only ever holds
    [true] is a set. Each method holds the mutex, so it is one atomic step. *)

From S2P Require Import Prelude GoStrings ToolSchema.
Local Open Scope nat_scope.

Definition maxBaselineTools : nat := Z.to_nat 10000.

(** [ErrBaselineCapacity] is the only error of the baseline. *)
Inductive BaselineError := ErrBaselineCapacity.

Record ToolDef := { Name : string; Description : string; InputSchema : string; raw : string }.

#[export] Instance ToolDef_eq_dec : EqDecision ToolDef.
Proof. solve_decision. Defined.

Record ToolBaseline := {
  tb_hashes : gmap string string;
  tb_structural : gmap string string;
  tb_descs : gmap string string;
  tb_params : gmap string (list string);
  tb_knownTools : gset string;
  tb_knownA2A : gset string;
  tb_headerBindings : gmap string (gmap string HeaderBinding);
  tb_pendingTools : gset string;
  tb_hasBaseline : bool;
  tb_hasA2A : bool;
  tb_driftEpoch : Z;
}.

Definition NewToolBaseline : ToolBaseline :=
  {| tb_hashes := ∅; tb_structural := ∅; tb_descs := ∅; tb_params := ∅; tb_knownTools := ∅; tb_knownA2A := ∅;
     tb_headerBindings := ∅; tb_pendingTools := ∅; tb_hasBaseline := false; tb_hasA2A := false; tb_driftEpoch := 0%Z |}.

(** The four maps of the drift baseline are written together. *)
Definition with_drift (hashes structural descs : gmap string string) (params : gmap string (list string)) (epoch : Z) (tb : ToolBaseline) : ToolBaseline :=
  {| tb_hashes := hashes; tb_structural := structural; tb_descs := descs; tb_params := params;
     tb_knownTools := tb_knownTools tb; tb_knownA2A := tb_knownA2A tb; tb_headerBindings := tb_headerBindings tb;
     tb_pendingTools := tb_pendingTools tb; tb_hasBaseline := tb_hasBaseline tb; tb_hasA2A := tb_hasA2A tb; tb_driftEpoch := epoch |}.

Definition with_inventory (known : gset string) (bindings : gmap string (gmap string HeaderBinding)) (pending : gset string) (has : bool) (tb : ToolBaseline) : ToolBaseline :=
  {| tb_hashes := tb_hashes tb; tb_structural := tb_structural tb; tb_descs := tb_descs tb; tb_params := tb_params tb;
     tb_knownTools := known; tb_knownA2A := tb_knownA2A tb; tb_headerBindings := bindings;
     tb_pendingTools := pending; tb_hasBaseline := has; tb_hasA2A := tb_hasA2A tb; tb_driftEpoch := tb_driftEpoch tb |}.

Definition with_A2A (knownA2A : gset string) (hasA2A : bool) (tb : ToolBaseline) : ToolBaseline :=
  {| tb_hashes := tb_hashes tb; tb_structural := tb_structural tb; tb_descs := tb_descs tb; tb_params := tb_params tb;
     tb_knownTools := tb_knownTools tb; tb_knownA2A := knownA2A; tb_headerBindings := tb_headerBindings tb;
     tb_pendingTools := tb_pendingTools tb; tb_hasBaseline := tb_hasBaseline tb; tb_hasA2A := hasA2A; tb_driftEpoch := tb_driftEpoch tb |}.

(** ** Limits *)

Definition ShouldSkip (name : string) (tb : ToolBaseline) : bool :=
  bool_decide (tb_hashes tb !! name = None /\ maxBaselineTools <= size (tb_hashes tb)).

(** The loop of [namesFitCapacity]. *)
Fixpoint fits (stored seen : gset string) (needed : nat) (names : list string) : bool :=
  match names with
  | [] => true
  | name :: names =>
      if decide (name ∈ stored) then fits stored seen needed names
      else if decide (name ∈ seen) then fits stored seen needed names
      else if decide (maxBaselineTools < S needed) then false
      else fits stored ({[name]} ∪ seen) (S needed) names
  end.

Definition namesFitCapacity (stored : gset string) (names : list string) : bool := fits stored ∅ (size stored) names.

(** A name that another response has reserved is refused. *)
Fixpoint fitsPending (stored pending seen : gset string) (needed : nat) (names : list string) : bool :=
  match names with
  | [] => true
  | name :: names =>
      if decide (name ∈ stored) then fitsPending stored pending seen needed names
      else if decide (name ∈ pending) then false
      else if decide (name ∈ seen) then fitsPending stored pending seen needed names
      else if decide (maxBaselineTools < S needed) then false
      else fitsPending stored pending ({[name]} ∪ seen) (S needed) names
  end.

Definition namesFitCapacityWithPending (stored pending : gset string) (names : list string) : bool :=
  fitsPending stored pending ∅ (size stored + size pending) names.

(** A nil baseline takes everything. *)
Definition CanTrackDefinitions (names : list string) (tb : option ToolBaseline) : bool :=
  match tb with None => true | Some tb => namesFitCapacity (dom (tb_hashes tb)) names end.

Definition CanAdmitKnownTools (names : list string) (tb : option ToolBaseline) : bool :=
  match tb with None => true | Some tb => namesFitCapacity (tb_knownTools tb) names end.

(** ** Drift *)

Definition CheckAndUpdatePromote (name hash : string) (promoteNew promoteChanged : bool) (tb : ToolBaseline) : (bool * string * bool) * ToolBaseline :=
  let store := with_drift (<[name := hash]> (tb_hashes tb)) (tb_structural tb) (tb_descs tb) (tb_params tb) (tb_driftEpoch tb) tb in
  match tb_hashes tb !! name with
  | None =>
      if decide (maxBaselineTools <= size (tb_hashes tb)) then (false, "", false, tb)
      else if promoteNew then (false, "", true, store) else (false, "", false, tb)
  | Some prev =>
      if decide (prev <> hash) then if promoteChanged then (true, prev, true, store) else (true, prev, false, tb)
      else (false, "", true, tb)
  end.

Definition CheckAndUpdate (name hash : string) (tb : ToolBaseline) : (bool * string) * ToolBaseline :=
  let '(drifted, prev, _, tb) := CheckAndUpdatePromote name hash true true tb in (drifted, prev, tb).

Definition StoreDesc (name desc : string) (tb : ToolBaseline) : result unit BaselineError * ToolBaseline :=
  if decide (tb_descs tb !! name = None /\ maxBaselineTools <= size (tb_descs tb)) then (Err ErrBaselineCapacity, tb)
  else (Ok tt, with_drift (tb_hashes tb) (tb_structural tb) (<[name := desc]> (tb_descs tb)) (tb_params tb) (tb_driftEpoch tb) tb).

Definition StoreParams (name : string) (paramNames : list string) (tb : ToolBaseline) : result unit BaselineError * ToolBaseline :=
  if decide (tb_params tb !! name = None /\ maxBaselineTools <= size (tb_params tb)) then (Err ErrBaselineCapacity, tb)
  else (Ok tt, with_drift (tb_hashes tb) (tb_structural tb) (tb_descs tb) (<[name := paramNames]> (tb_params tb)) (tb_driftEpoch tb) tb).

Record DriftEvaluation := {
  CapacityExceeded : bool;
  EpochChanged : bool;
  Drifted : bool;
  Cues : list string;
  PreviousHash : string;
  Detail : string;
}.

Definition noDrift : DriftEvaluation :=
  {| CapacityExceeded := false; EpochChanged := false; Drifted := false; Cues := []; PreviousHash := ""; Detail := "" |}.
Definition capacityDrift : DriftEvaluation :=
  {| CapacityExceeded := true; EpochChanged := false; Drifted := false; Cues := []; PreviousHash := ""; Detail := "" |}.
Definition epochDrift : DriftEvaluation :=
  {| CapacityExceeded := false; EpochChanged := true; Drifted := false; Cues := []; PreviousHash := ""; Detail := "" |}.

Definition Accepted (e : DriftEvaluation) : bool := Drifted e && bool_decide (Cues e = []).

(** The definition and what may be promoted; [de_Classify] has the previous
    description and whether anything else changed. *)
Record DefinitionEvaluation := {
  de_Name : string;
  de_Hash : string;
  de_Desc : string;
  de_Params : list string;
  de_Structural : string;
  de_ExpectedDriftEpoch : option Z;
  de_PromoteNew : bool;
  de_PromoteChanged : bool;
  de_PromoteAccepted : bool;
  de_Classify : string -> bool -> list string;
}.

(** The elements of [b] that [a] lacks, and of [a] that [b] lacks. *)
Definition diffStringSlices (a b : list string) : list string * list string :=
  (filter (fun s => s ∉ a) b, filter (fun s => s ∉ b) a).

(** [%v] of a slice of strings. *)
Definition sliceText (l : list string) : string := "[" +:+ Strings.Join l " " +:+ "]".

Definition joinSemi (parts : list string) : string :=
  match parts with [] => "" | p :: rest => foldl (fun acc x => acc +:+ "; " +:+ x) p rest end.

Section drift.
(** The characters of a text, and [%q]. *)
Context (runes : string -> list string) (Quote : string -> string).

Definition descriptionDiff (prevDesc newDesc : string) : list string :=
  let prevLen := length (runes prevDesc) in
  let newLen := length (runes newDesc) in
  if decide (prevDesc = newDesc) then []
  else
    (if decide (prevLen < newLen)
     then ["description grew from " +:+ pretty prevLen +:+ " to " +:+ pretty newLen +:+ " chars (+" +:+ pretty (newLen - prevLen) +:+ ")"]
     else if decide (newLen < prevLen)
     then ["description shrank from " +:+ pretty prevLen +:+ " to " +:+ pretty newLen +:+ " chars (-" +:+ pretty (prevLen - newLen) +:+ ")"]
     else ["description changed (" +:+ pretty newLen +:+ " chars)"]) ++
    (if decide (prevLen < newLen)
     then let tail := drop prevLen (runes newDesc) in
          let added := if decide (200 < newLen - prevLen) then foldr String.append "" (take 200 tail) +:+ "..." else foldr String.append "" tail in
          ["added: " +:+ Quote added]
     else []).

Definition paramsDiff (prevParams newParams : list string) : list string :=
  let (added, removed) := diffStringSlices prevParams newParams in
  (if decide (added = []) then [] else ["parameters added: " +:+ sliceText added]) ++
  (if decide (removed = []) then [] else ["parameters removed: " +:+ sliceText removed]).

Definition diffSummaryLocked (name newDesc : string) (newParams : list string) (tb : ToolBaseline) : string :=
  joinSemi (match tb_descs tb !! name with Some prevDesc => descriptionDiff prevDesc newDesc | None => [] end ++
            match tb_params tb !! name with Some prevParams => paramsDiff prevParams newParams | None => [] end).

(** The closure [promote]. *)
Definition promote (e : DefinitionEvaluation) (tb : ToolBaseline) : ToolBaseline :=
  with_drift (<[de_Name e := de_Hash e]> (tb_hashes tb)) (<[de_Name e := de_Structural e]> (tb_structural tb))
    (<[de_Name e := de_Desc e]> (tb_descs tb)) (<[de_Name e := de_Params e]> (tb_params tb)) (tb_driftEpoch tb) tb.

Definition EvaluateDefinition (e : DefinitionEvaluation) (tb : ToolBaseline) : DriftEvaluation * ToolBaseline :=
  if (match de_ExpectedDriftEpoch e with Some epoch => bool_decide (tb_driftEpoch tb <> epoch) | None => false end) then (epochDrift, tb)
  else match tb_hashes tb !! de_Name e with
       | None =>
           if decide (maxBaselineTools <= size (tb_hashes tb)) then (capacityDrift, tb)
           else (noDrift, if de_PromoteNew e then promote e tb else tb)
       | Some prevHash =>
           if decide (prevHash = de_Hash e) then (noDrift, promote e tb)
           else
             let prevDesc := default "" (tb_descs tb !! de_Name e) in
             let structuralChanged := negb (bool_decide (tb_structural tb !! de_Name e = Some (de_Structural e))) in
             let cues := de_Classify e prevDesc structuralChanged in
             ({| CapacityExceeded := false; EpochChanged := false; Drifted := true; Cues := cues; PreviousHash := prevHash;
                 Detail := diffSummaryLocked (de_Name e) (de_Desc e) (de_Params e) tb |},
              if bool_decide (cues = []) && de_PromoteAccepted e || de_PromoteChanged e then promote e tb else tb)
       end.
End drift.

Definition resetDriftStateLocked (tb : ToolBaseline) : ToolBaseline := with_drift ∅ ∅ ∅ ∅ (wrapu64 (tb_driftEpoch tb + 1)) tb.

Definition ResetDriftState : ToolBaseline -> ToolBaseline := resetDriftStateLocked.

Definition ResetDriftStateAtEpoch (expected : Z) (tb : ToolBaseline) : bool * ToolBaseline :=
  if decide (tb_driftEpoch tb <> expected) then (false, tb) else (true, resetDriftStateLocked tb).

Definition DriftEpoch (tb : option ToolBaseline) : Z := match tb with None => 0%Z | Some tb => tb_driftEpoch tb end.

Definition matchesDriftEpoch (expected : Z) (tb : option ToolBaseline) : bool :=
  match tb with None => true | Some tb => bool_decide (tb_driftEpoch tb = expected) end.

(** [DetectDriftRisingEdge]: 0 before the first observation, then 1 or 2. *)
Definition Observe (curr : bool) (state : Z) : bool * Z :=
  let next := if curr then 2%Z else 1%Z in
  (if decide (state = 0%Z) then false else bool_decide (state = 1%Z) && curr, next).

(** ** Inventory *)

Definition SetKnownTools (names : list string) (tb : ToolBaseline) : result unit BaselineError * ToolBaseline :=
  if negb (namesFitCapacity (tb_knownTools tb) names) then (Err ErrBaselineCapacity, tb)
  else (Ok tt, with_inventory (list_to_set names ∪ tb_knownTools tb) (tb_headerBindings tb) (tb_pendingTools tb) true tb).

Definition HasBaseline (tb : ToolBaseline) : bool := tb_hasBaseline tb.
Definition HasA2AMethodBaseline (tb : ToolBaseline) : bool := tb_hasA2A tb.
Definition IsKnownTool (name : string) (tb : ToolBaseline) : bool := bool_decide (name ∈ tb_knownTools tb).

Definition a2aMethodIdentityPrefix : string := "a2a:".

Section a2a.
(** [a2amethods.Is] and [strings.ToLower] outside ASCII. *)
Context (isA2A : string -> bool) (unicodeLower : string -> string).

Definition a2aMethodIdentity (method : string) : string :=
  let method := Strings.TrimSpace method in
  if decide (method = "") then ""
  else let method := match Strings.CutPrefix method a2aMethodIdentityPrefix with Some rest => Strings.TrimSpace rest | None => method end in
       if isA2A method then a2aMethodIdentityPrefix +:+ Strings.ToLower unicodeLower method else "".

Definition a2aInventoryMethodIdentity (method : string) : string :=
  let method := Strings.TrimSpace method in
  if decide (method = "" \/ Strings.HasPrefix method a2aMethodIdentityPrefix = true) then ""
  else if isA2A method then a2aMethodIdentityPrefix +:+ Strings.ToLower unicodeLower method else "".

(** The loop stops at the first method that does not fit. *)
Fixpoint addA2A (methods : list string) (known : gset string) (added : bool) : gset string * bool :=
  match methods with
  | [] => (known, added)
  | method :: methods =>
      let identity := a2aInventoryMethodIdentity method in
      if decide (identity = "") then addA2A methods known added
      else if decide (identity ∈ known) then addA2A methods known added
      else if decide (maxBaselineTools <= size known) then (known, added)
      else addA2A methods ({[identity]} ∪ known) true
  end.

Definition SetKnownA2AMethods (methods : list string) (tb : ToolBaseline) : ToolBaseline :=
  let (known, added) := addA2A methods (tb_knownA2A tb) false in with_A2A known (added || tb_hasA2A tb) tb.

Definition IsKnownA2AMethod (method : string) (tb : ToolBaseline) : bool := bool_decide (a2aMethodIdentity method ∈ tb_knownA2A tb).
End a2a.

Section bindings.
(** The decoder of schemas and [strings.ToLower] outside ASCII. *)
Context (Unmarshal : string -> option json) (unicodeLower : string -> string).

(** A later definition of the same name replaces the entry; an invalid one has none. *)
Definition headerBindingsForDefs (defs : list ToolDef) : gmap string (gmap string HeaderBinding) :=
  foldl (fun prepared def =>
    match ExtractHeaderBindings unicodeLower Unmarshal (InputSchema def) with
    | Err _ => prepared
    | Ok bindings =>
        <[Name def := foldl (fun byName b => <[Strings.ToLower unicodeLower (HeaderName b) := b]> byName) ∅ bindings]> prepared
    end) ∅ defs.

Definition CanAdmitHeaderBindings (defs : list ToolDef) (tb : option ToolBaseline) : bool :=
  match tb with None => true | Some tb => namesFitCapacity (dom (tb_headerBindings tb)) (elements (dom (headerBindingsForDefs defs))) end.

(** The contracts of the definitions, written one by one. *)
Definition writeBindings (clean : bool) (prepared : gmap string (gmap string HeaderBinding)) (defs : list ToolDef)
    (stored : gmap string (gmap string HeaderBinding)) : gmap string (gmap string HeaderBinding) :=
  foldl (fun stored def =>
    match prepared !! Name def with
    | Some bindings => if clean then <[Name def := bindings]> stored else delete (Name def) stored
    | None => delete (Name def) stored
    end) stored defs.

Definition SetToolHeaderBindings (defs : list ToolDef) (tb : ToolBaseline) : result unit BaselineError * ToolBaseline :=
  let prepared := headerBindingsForDefs defs in
  if negb (namesFitCapacity (dom (tb_headerBindings tb)) (elements (dom prepared))) then (Err ErrBaselineCapacity, tb)
  else (Ok tt, with_inventory (tb_knownTools tb) (writeBindings true prepared defs (tb_headerBindings tb)) (tb_pendingTools tb) (tb_hasBaseline tb) tb).

Definition ClearToolHeaderBindings (defs : list ToolDef) (tb : ToolBaseline) : ToolBaseline :=
  with_inventory (tb_knownTools tb) (foldl (fun stored def => delete (Name def) stored) (tb_headerBindings tb) defs) (tb_pendingTools tb) (tb_hasBaseline tb) tb.

Definition HeaderBindings (toolName : string) (tb : option ToolBaseline) : option (gmap string HeaderBinding) :=
  tb ← tb; tb_headerBindings tb !! toolName.

(** The reservation's fields; the baseline it points to is the one its methods get. *)
Record ToolInventoryReservation := {
  tr_names : list string;
  tr_defs : list ToolDef;
  tr_bindings : gmap string (gmap string HeaderBinding);
  tr_reserved : list string;
}.

(** The loop that claims names; [None] is the error, after which the names that were
    claimed are given back. *)
Fixpoint claim (known : gset string) (names : list string) (claimed : gset string) (reserved : list string) (pending : gset string)
    : option (list string) * gset string :=
  match names with
  | [] => (Some reserved, pending)
  | name :: names =>
      if decide (name ∈ known) then claim known names claimed reserved pending
      else if decide (name ∈ claimed) then claim known names claimed reserved pending
      else if decide (name ∈ pending) then (None, pending ∖ list_to_set reserved)
      else claim known names ({[name]} ∪ claimed) (reserved ++ [name]) ({[name]} ∪ pending)
  end.

Definition ReserveToolInventory (names : list string) (defs : list ToolDef) (tb : ToolBaseline)
    : result ToolInventoryReservation BaselineError * ToolBaseline :=
  let bindings := headerBindingsForDefs defs in
  if decide (maxBaselineTools < length defs) then (Err ErrBaselineCapacity, tb)
  else if negb (namesFitCapacityWithPending (tb_knownTools tb) (tb_pendingTools tb) names) ||
          negb (namesFitCapacityWithPending (dom (tb_headerBindings tb)) (tb_pendingTools tb) (elements (dom bindings)))
       then (Err ErrBaselineCapacity, tb)
  else let (reserved, pending) := claim (tb_knownTools tb) names ∅ [] (tb_pendingTools tb) in
       let tb := with_inventory (tb_knownTools tb) (tb_headerBindings tb) pending (tb_hasBaseline tb) tb in
       match reserved with
       | None => (Err ErrBaselineCapacity, tb)
       | Some reserved => (Ok {| tr_names := names; tr_defs := defs; tr_bindings := bindings; tr_reserved := reserved |}, tb)
       end.

Definition released (r : ToolInventoryReservation) : ToolInventoryReservation :=
  {| tr_names := tr_names r; tr_defs := tr_defs r; tr_bindings := tr_bindings r; tr_reserved := [] |}.

Definition Release (r : ToolInventoryReservation) (tb : ToolBaseline) : ToolInventoryReservation * ToolBaseline :=
  (released r, with_inventory (tb_knownTools tb) (tb_headerBindings tb) (tb_pendingTools tb ∖ list_to_set (tr_reserved r)) (tb_hasBaseline tb) tb).

(** The names that become known; those after the first inventory are reported. *)
Fixpoint learn (has : bool) (names : list string) (known : gset string) (added : list string) : gset string * list string :=
  match names with
  | [] => (known, added)
  | name :: names =>
      if decide (name ∈ known) then learn has names known added
      else learn has names ({[name]} ∪ known) (if has then added ++ [name] else added)
  end.

Definition Commit (clean : bool) (r : ToolInventoryReservation) (tb : ToolBaseline) : (list string * ToolInventoryReservation) * ToolBaseline :=
  let (known, added) := learn (tb_hasBaseline tb) (tr_names r) (tb_knownTools tb) [] in
  (added, released r,
   with_inventory known (writeBindings clean (tr_bindings r) (tr_defs r) (tb_headerBindings tb)) (tb_pendingTools tb ∖ list_to_set (tr_reserved r)) true tb).
End bindings.

(** ** The decision on a call *)

Definition bindingReasonMissingToolName : string := "session_binding:missing_tool_name".
Definition bindingReasonNoBaseline : string := "session_binding:no_baseline".
Definition bindingReasonUnknownTool : string := "session_binding:unknown_tool".
Definition methodToolsCall : string := "tools/call".

Record sessionBindingCheck := {
  sb_Baseline : option ToolBaseline;
  sb_UnknownAction : string;
  sb_NoBaselineAction : string;
  sb_FrameMethod : string;
  sb_Method : string;
  sb_ToolName : string;
  sb_EnforcementIdentity : string;
}.

(** The action with its reason, or neither if the action is not configured. *)
Definition bindingOutcome (action reason : string) : string * string := if decide (action <> "") then (action, reason) else ("", "").

(** [isA2AMethod] is [IsA2AMethod], [isA2A] is [a2amethods.Is]. *)
Definition evaluateSessionBinding (isA2AMethod is_A2A : string -> bool) (unicodeLower : string -> string) (sb : sessionBindingCheck) : string * string :=
  let method := if decide (sb_Method sb = "") then sb_FrameMethod sb else sb_Method sb in
  let isToolCall := bool_decide (method = methodToolsCall) in
  let isA2ACall := isA2AMethod method in
  if negb isToolCall && negb isA2ACall then ("", "")
  else if isToolCall && bool_decide (sb_ToolName sb = "") then bindingOutcome (sb_UnknownAction sb) bindingReasonMissingToolName
  else match sb_Baseline sb with
       | None => bindingOutcome (sb_NoBaselineAction sb) bindingReasonNoBaseline
       | Some tb =>
           if isA2ACall then
             if negb (HasA2AMethodBaseline tb) then bindingOutcome (sb_NoBaselineAction sb) bindingReasonNoBaseline
             else if negb (IsKnownA2AMethod is_A2A unicodeLower (sb_EnforcementIdentity sb) tb) then bindingOutcome (sb_UnknownAction sb) bindingReasonUnknownTool
             else ("", "")
           else if negb (HasBaseline tb) then bindingOutcome (sb_NoBaselineAction sb) bindingReasonNoBaseline
           else if negb (IsKnownTool (sb_ToolName sb) tb) then bindingOutcome (sb_UnknownAction sb) bindingReasonUnknownTool
           else ("", "")
       end.

(** ** Sessions of responses

    The responses of a session that are being written, by a number of their own, and
    the lists of names whose response reached the client. [ForwardScanned]
    ([internal/mcp/proxy.go]) takes the names of a response from its definitions and
    reserves only when there are some; a reservation is committed after the write or
    released when it failed, not both. *)

Section sessions.
Context (Unmarshal : string -> option json) (unicodeLower : string -> string).

Record Inventory := {
  in_baseline : ToolBaseline;
  in_writing : gmap nat ToolInventoryReservation;
  in_forwarded : list (list string);
}.

Inductive inventory_step : Inventory -> Inventory -> Prop :=
| inv_reserve k defs r tb tb' writing forwarded :
    writing !! k = None -> defs <> [] ->
    ReserveToolInventory Unmarshal unicodeLower (Name <$> defs) defs tb = (Ok r, tb') ->
    inventory_step {| in_baseline := tb; in_writing := writing; in_forwarded := forwarded |}
                   {| in_baseline := tb'; in_writing := <[k := r]> writing; in_forwarded := forwarded |}
| inv_refused defs e tb tb' writing forwarded :
    defs <> [] -> ReserveToolInventory Unmarshal unicodeLower (Name <$> defs) defs tb = (Err e, tb') ->
    inventory_step {| in_baseline := tb; in_writing := writing; in_forwarded := forwarded |}
                   {| in_baseline := tb'; in_writing := writing; in_forwarded := forwarded |}
| inv_commit k clean r tb writing forwarded :
    writing !! k = Some r ->
    inventory_step {| in_baseline := tb; in_writing := writing; in_forwarded := forwarded |}
                   {| in_baseline := (Commit clean r tb).2; in_writing := delete k writing; in_forwarded := tr_names r :: forwarded |}
| inv_release k r tb writing forwarded :
    writing !! k = Some r ->
    inventory_step {| in_baseline := tb; in_writing := writing; in_forwarded := forwarded |}
                   {| in_baseline := (Release r tb).2; in_writing := delete k writing; in_forwarded := forwarded |}.

Definition fresh_session : Inventory := {| in_baseline := NewToolBaseline; in_writing := ∅; in_forwarded := [] |}.

(** The reserved names are new to the session and reserved once. *)
Record inventory_inv (s : Inventory) : Prop := {
  ii_pending : forall n, n ∈ tb_pendingTools (in_baseline s) <-> exists k r, in_writing s !! k = Some r /\ n ∈ tr_reserved r;
  ii_once : forall k1 k2 r1 r2 n, in_writing s !! k1 = Some r1 -> in_writing s !! k2 = Some r2 -> n ∈ tr_reserved r1 -> n ∈ tr_reserved r2 -> k1 = k2;
  ii_disjoint : tb_knownTools (in_baseline s) ## tb_pendingTools (in_baseline s);
  ii_room : size (tb_knownTools (in_baseline s)) + size (tb_pendingTools (in_baseline s)) <= maxBaselineTools;
  ii_names : forall k r, in_writing s !! k = Some r -> tr_names r = Name <$> tr_defs r /\
      forall n, n ∈ tr_names r -> n ∈ tb_knownTools (in_baseline s) \/ n ∈ tr_reserved r;
  ii_reserved : forall k r n, in_writing s !! k = Some r -> n ∈ tr_reserved r -> n ∈ tr_names r;
  ii_bindings : dom (tb_headerBindings (in_baseline s)) ⊆ tb_knownTools (in_baseline s);
  ii_known : forall n, n ∈ tb_knownTools (in_baseline s) <-> exists l, l ∈ in_forwarded s /\ n ∈ l;
  ii_has : tb_hasBaseline (in_baseline s) = true <-> in_forwarded s <> [];
}.

Definition fresh_names (stored seen : gset string) (names : list string) : gset string := list_to_set names ∖ stored ∖ seen.

(** What [fitsPending] checks, in terms of sets. *)
Lemma fitsPending_spec stored pending seen needed names :
  needed <= maxBaselineTools -> fitsPending stored pending seen needed names = true ->
  (forall n, n ∈ names -> n ∈ stored \/ n ∉ pending) /\ needed + size (fresh_names stored seen names) <= maxBaselineTools.
Proof.
  revert seen needed. induction names as [|name names IH]; intros seen needed Hn H; cbn [fitsPending] in H.
  { split; [by intros ? ?%elem_of_nil|]. assert (fresh_names stored seen [] = ∅) as -> by (unfold fresh_names; cbn; set_solver). rewrite size_empty. lia. }
  assert (name ∈ stored \/ name ∈ seen -> fresh_names stored seen (name :: names) = fresh_names stored seen names) as Hskip.
  { intros Hin. unfold fresh_names. apply set_eq. intros x. cbn. set_unfold. naive_solver. }
  destruct (decide (name ∈ stored)) as [Hs|Hs].
  { destruct (IH _ _ Hn H) as [H1 H2]. rewrite Hskip by auto. split; [|done]. intros n [->|?]%elem_of_cons; auto. }
  destruct (decide (name ∈ pending)) as [Hp|Hp]; [done|]. destruct (decide (name ∈ seen)) as [Hi|Hi].
  { destruct (IH _ _ Hn H) as [H1 H2]. rewrite Hskip by auto. split; [|done]. intros n [->|?]%elem_of_cons; auto. }
  destruct (decide (maxBaselineTools < S needed)) as [Hl|Hl]; [done|]. destruct (IH ({[name]} ∪ seen) (S needed)) as [H1 H2]; [lia|done|].
  split; [intros n [->|?]%elem_of_cons; auto|].
  assert (fresh_names stored seen (name :: names) = {[name]} ∪ fresh_names stored ({[name]} ∪ seen) names) as ->.
  { unfold fresh_names. apply set_eq. intros x. cbn. set_unfold. destruct (decide (x = name)) as [->|]; tauto. }
  rewrite size_union, size_singleton; [lia|]. unfold fresh_names. set_solver.
Qed.

(** The claims after the check: they succeed, and take exactly the new names. *)
Lemma claim_spec known names claimed reserved pending :
  (forall n, n ∈ claimed <-> n ∈ reserved) -> NoDup reserved -> (forall n, n ∈ reserved -> n ∈ pending) ->
  (forall n, n ∈ names -> n ∈ known \/ n ∈ claimed \/ n ∉ pending) ->
  exists out, claim known names claimed reserved pending = (Some out, fresh_names known claimed names ∪ pending) /\ NoDup out /\
    forall n, n ∈ out <-> n ∈ reserved \/ n ∈ fresh_names known claimed names.
Proof.
  revert claimed reserved pending. induction names as [|name names IH]; intros claimed reserved pending Hc Hnd Hr Hn; cbn [claim].
  { exists reserved. assert (fresh_names known claimed [] = ∅) as -> by (unfold fresh_names; cbn; set_solver). rewrite union_empty_l_L. split_and!; [done|done|set_solver]. }
  assert ((name ∈ known \/ name ∈ claimed) -> fresh_names known claimed (name :: names) = fresh_names known claimed names) as Hskip.
  { intros Hin. unfold fresh_names. apply set_eq. intros x. cbn. set_unfold. naive_solver. }
  assert (forall n, n ∈ names -> n ∈ known \/ n ∈ claimed \/ n ∉ pending) as Hn' by (intros n ?; by apply Hn, list_elem_of_further).
  destruct (decide (name ∈ known)) as [Hk|Hk]; [rewrite Hskip by auto; by apply IH|].
  destruct (decide (name ∈ claimed)) as [Hl|Hl]; [rewrite Hskip by auto; by apply IH|].
  destruct (decide (name ∈ pending)) as [Hp|Hp]; [exfalso; destruct (Hn name) as [?|[?|?]]; [apply list_elem_of_here|done..]|].
  assert (name ∉ reserved) as Hnr by (intros ?%Hr; done).
  destruct (IH ({[name]} ∪ claimed) (reserved ++ [name]) ({[name]} ∪ pending)) as (out & E & Hnd' & Hout).
  - intros n. rewrite elem_of_app, list_elem_of_singleton, elem_of_union, elem_of_singleton, Hc. tauto.
  - apply NoDup_app. split_and!; [done| |apply NoDup_singleton]. intros x Hx ->%list_elem_of_singleton. done.
  - intros n. rewrite elem_of_app, list_elem_of_singleton. set_solver.
  - intros n Hin. destruct (decide (n = name)) as [->|Hne]; [set_solver|]. destruct (Hn' n Hin) as [?|[?|?]]; [by left|right; left; by apply elem_of_union_r|right; right; intros [?%elem_of_singleton|?]%elem_of_union; done].
  - assert (fresh_names known claimed (name :: names) = {[name]} ∪ fresh_names known ({[name]} ∪ claimed) names) as Hf.
    { unfold fresh_names. apply set_eq. intros x. cbn. set_unfold. destruct (decide (x = name)) as [->|]; tauto. }
    exists out. rewrite E, Hf. split_and!; [f_equal; set_solver|done|]. intros n. rewrite Hout, elem_of_app, list_elem_of_singleton. set_solver.
Qed.

Lemma learn_known has names known added : (learn has names known added).1 = list_to_set names ∪ known.
Proof.
  revert known added. induction names as [|name names IH]; intros known added; cbn [learn]; [set_solver|].
  destruct (decide (name ∈ known)) as [Hk|Hk]; rewrite IH; [|set_solver]. apply set_eq. intros x. cbn. set_unfold. naive_solver.
Qed.

Lemma writeBindings_dom clean prepared defs stored : dom (writeBindings clean prepared defs stored) ⊆ dom stored ∪ list_to_set (Name <$> defs).
Proof.
  revert stored. induction defs as [|d defs IH]; intros stored; cbn; [set_solver|]. etrans; [apply IH|].
  destruct (prepared !! Name d) as [b|]; [destruct clean|]; set_solver.
Qed.
Notation Reserve := (ReserveToolInventory Unmarshal unicodeLower).

(** Reserving takes the slots of all new names, or nothing. *)
Lemma Reserve_spec names defs tb res tb' :
  size (tb_knownTools tb) + size (tb_pendingTools tb) <= maxBaselineTools -> Reserve names defs tb = (res, tb') ->
  (res = Err ErrBaselineCapacity /\ tb' = tb) \/
  exists r, let new := fresh_names (tb_knownTools tb) ∅ names in
    res = Ok r /\ tr_names r = names /\ tr_defs r = defs /\ (forall n, n ∈ tr_reserved r <-> n ∈ new) /\ new ## tb_pendingTools tb /\
    size (tb_knownTools tb) + size (new ∪ tb_pendingTools tb) <= maxBaselineTools /\
    tb' = with_inventory (tb_knownTools tb) (tb_headerBindings tb) (new ∪ tb_pendingTools tb) (tb_hasBaseline tb) tb.
Proof.
  intros Hroom. unfold ReserveToolInventory. destruct (decide _) as [_|_]; [intros [= <- <-]; by left|].
  destruct (namesFitCapacityWithPending (tb_knownTools tb) _ names) eqn:E; [|intros [= <- <-]; by left].
  destruct (namesFitCapacityWithPending (dom _) _ _); [|intros [= <- <-]; by left].
  cbn [negb orb]. apply fitsPending_spec in E as [Hfree Hsize]; [|done].
  destruct (claim_spec (tb_knownTools tb) names ∅ [] (tb_pendingTools tb)) as (out & -> & _ & Hout); [set_solver|by apply NoDup_nil|set_solver| |].
  { intros n Hn. destruct (Hfree n Hn); auto. }
  intros [= <- <-]. right. eexists. cbv zeta. cbn [tr_names tr_defs tr_reserved].
  assert (fresh_names (tb_knownTools tb) ∅ names ## tb_pendingTools tb) as Hdis.
  { intros n Hn Hp. unfold fresh_names in Hn. rewrite !elem_of_difference, elem_of_list_to_set in Hn. destruct (Hfree n); tauto. }
  split_and!; [done|done|done| |done| |done].
  - intros n. rewrite Hout. split; [intros [?%elem_of_nil|?]; done|by right].
  - rewrite size_union by done. lia.
Qed.

Lemma fresh_session_inv : inventory_inv fresh_session.
Proof.
  split; cbn.
  - intros n. split; [by intros ?%elem_of_empty|]. by intros (k & r & Hk & _).
  - by intros *.
  - set_solver.
  - rewrite !size_empty. lia.
  - by intros *.
  - by intros *.
  - set_solver.
  - intros n. split; [by intros ?%elem_of_empty|]. by intros (l & ?%elem_of_nil & _).
  - done.
Qed.

Lemma reserve_inv k defs r tb tb' writing forwarded :
  writing !! k = None -> Reserve (Name <$> defs) defs tb = (Ok r, tb') ->
  inventory_inv {| in_baseline := tb; in_writing := writing; in_forwarded := forwarded |} ->
  inventory_inv {| in_baseline := tb'; in_writing := <[k := r]> writing; in_forwarded := forwarded |}.
Proof.
  intros Hk E [Hp Ho Hd Hr Hn Hs Hb Hkn Hh]. cbn [in_baseline in_writing in_forwarded] in *.
  apply Reserve_spec in E as [[? _]|(r' & [= <-] & Enames & Edefs & Hres & Hdis & Hsize & ->)]; [done| |done].
  assert (forall n, n ∈ tr_reserved r -> n ∉ tb_pendingTools tb /\ n ∉ tb_knownTools tb /\ n ∈ tr_names r) as Hnew.
  { intros n Hin%Hres. split; [intros ?; by apply (Hdis n)|]. unfold fresh_names in Hin. rewrite Enames. set_solver. }
  split; cbn [in_baseline in_writing in_forwarded tb_pendingTools tb_knownTools tb_headerBindings tb_hasBaseline with_inventory]; try done.
  - intros n. rewrite elem_of_union, <- Hres, Hp. setoid_rewrite lookup_insert_Some. split.
    + intros [Hin|(k' & r' & Hk' & Hin)]; [by exists k, r; auto|]. exists k', r'. split; [|done]. right. split; [by intros ->; congruence|done].
    + intros (k' & r' & [[<- <-]|[_ Hk']] & Hin); [by left|right; by exists k', r'].
  - intros k1 k2 r1 r2 n. rewrite !lookup_insert_Some. intros [[<- <-]|[N1 H1]] [[<- <-]|[N2 H2]] I1 I2; [done|..].
    + apply Hnew in I1 as [[] _]. apply Hp. by exists k2, r2.
    + apply Hnew in I2 as [[] _]. apply Hp. by exists k1, r1.
    + by eapply Ho.
  - intros n Hkn' [Hin%Hres|Hin]%elem_of_union; [by apply Hnew in Hin as (_ & ? & _)|by apply (Hd n)].
  - intros k' r'. rewrite lookup_insert_Some. intros [[<- <-]|[_ H']]; [|by apply (Hn k')]. split; [by rewrite Enames, Edefs|].
    intros n Hin. destruct (decide (n ∈ tb_knownTools tb)) as [?|Hnk]; [by left|right]. apply Hres. unfold fresh_names. rewrite Enames in Hin. set_solver.
  - intros k' r' n. rewrite lookup_insert_Some. intros [[<- <-]|[_ H']] Hin; [by apply Hnew|by apply (Hs k')].
Qed.

(** The slots of a reservation become known names, or free again. *)
Lemma finish_inv k r tb known bindings has writing forwarded forwarded' :
  writing !! k = Some r ->
  inventory_inv {| in_baseline := tb; in_writing := writing; in_forwarded := forwarded |} ->
  (known = tb_knownTools tb \/ known = list_to_set (tr_names r) ∪ tb_knownTools tb) ->
  dom bindings ⊆ known -> (forall n, n ∈ known <-> exists l, l ∈ forwarded' /\ n ∈ l) -> (has = true <-> forwarded' <> []) ->
  inventory_inv {| in_baseline := with_inventory known bindings (tb_pendingTools tb ∖ list_to_set (tr_reserved r)) has tb;
                   in_writing := delete k writing; in_forwarded := forwarded' |}.
Proof.
  intros Hk [Hp Ho Hd Hr Hn Hs _ _ _] Hknown Hbind Hfwd Hhas. cbn [in_baseline in_writing in_forwarded] in *.
  assert (tb_knownTools tb ⊆ known) as Hsub by (destruct Hknown as [-> | ->]; set_solver).
  assert (known ⊆ tb_knownTools tb ∪ list_to_set (tr_reserved r)) as Hsup.
  { destruct Hknown as [-> | ->]; [set_solver|]. intros n [Hin%elem_of_list_to_set|?]%elem_of_union; [|set_solver]. destruct (Hn _ _ Hk) as [_ H']. destruct (H' n Hin); set_solver. }
  assert (list_to_set (tr_reserved r) ⊆ tb_pendingTools tb) as Hrp by (intros n Hin%elem_of_list_to_set; apply Hp; by exists k, r).
  split; cbn [in_baseline in_writing in_forwarded tb_pendingTools tb_knownTools tb_headerBindings tb_hasBaseline with_inventory]; try done.
  - intros n. rewrite elem_of_difference, elem_of_list_to_set, Hp. setoid_rewrite lookup_delete_Some. split.
    + intros [(k' & r' & Hk' & Hin) Hnot]. exists k', r'. split; [|done]. split; [|done]. intros ->. congruence.
    + intros (k' & r' & [Hne Hk'] & Hin). split; [by exists k', r'|]. intros Hin'. apply Hne. by eapply Ho.
  - intros k1 k2 r1 r2 n. rewrite !lookup_delete_Some. intros [_ H1] [_ H2]. by eapply Ho.
  - intros n Hin [Hpend Hnot]%elem_of_difference. apply Hsup, elem_of_union in Hin as [Hin|Hin]; [by apply (Hd n)|done].
  - apply subseteq_size in Hsup. rewrite size_union in Hsup by set_solver. rewrite size_difference by done. apply subseteq_size in Hrp. lia.
  - intros k' r'. rewrite lookup_delete_Some. intros [_ H']. destruct (Hn _ _ H') as [E H'']. split; [done|]. intros n Hin. destruct (H'' n Hin); auto.
  - intros k' r' n. rewrite lookup_delete_Some. intros [_ H']. by eapply Hs.
Qed.

Lemma inventory_step_inv s s' : inventory_step s s' -> inventory_inv s -> inventory_inv s'.
Proof.
  intros [k defs r tb tb' writing forwarded Hk _ E|defs e tb tb' writing forwarded _ E|k clean r tb writing forwarded Hk|k r tb writing forwarded Hk] Hinv.
  - by eapply reserve_inv.
  - apply Reserve_spec in E as [[_ ->]|(r & ? & _)]; [done|done|by apply Hinv].
  - unfold Commit. pose proof (learn_known (tb_hasBaseline tb) (tr_names r) (tb_knownTools tb) []) as El. destruct (learn _ _ _ _) as [known added]. cbn in El. subst known.
    pose proof Hinv as [_ _ _ _ Hn _ Hb Hkn _]. cbn [in_baseline in_writing in_forwarded] in *. apply (finish_inv k r tb _ _ _ writing forwarded); auto.
    + etrans; [apply writeBindings_dom|]. destruct (Hn _ _ Hk) as [-> _]. set_solver.
    + intros n. rewrite elem_of_union, elem_of_list_to_set, Hkn. setoid_rewrite elem_of_cons. naive_solver.
    + by split.
  - pose proof Hinv as [_ _ _ _ _ _ Hb Hkn Hh]. cbn [in_baseline in_writing in_forwarded] in *. apply (finish_inv k r tb _ _ _ writing forwarded); auto.
Qed.

Lemma inventory_reachable_inv s : rtc inventory_step fresh_session s -> inventory_inv s.
Proof. intros H. refine (rtc_ind_r inventory_inv fresh_session fresh_session_inv _ s H). intros x y _ Hstep. by apply inventory_step_inv. Qed.

End sessions.

(** ** Examples *)

Definition demo_tool (name schema : string) : ToolDef := {| Name := name; Description := ""; InputSchema := schema; raw := "" |}.
Definition demo_Unmarshal (schema : string) : option json := if decide (schema = "{region}") then Some (JObject demo_schema) else None.
Definition demo_defs : list ToolDef := [demo_tool "read" "{region}"; demo_tool "list" ""].

Definition demo_reserved : result ToolInventoryReservation BaselineError * ToolBaseline :=
  ReserveToolInventory demo_Unmarshal id ["read"; "list"] demo_defs NewToolBaseline.

Definition demo_reservation : ToolInventoryReservation :=
  match demo_reserved.1 with Ok r => r | Err _ => {| tr_names := []; tr_defs := []; tr_bindings := ∅; tr_reserved := [] |} end.

Definition demo_inventory : Inventory :=
  {| in_baseline := (Commit true demo_reservation demo_reserved.2).2; in_writing := ∅; in_forwarded := [["read"; "list"]] |}.

Lemma demo_inventory_reachable : rtc (inventory_step demo_Unmarshal id) fresh_session demo_inventory.
Proof.
  eapply rtc_l; [apply (inv_reserve demo_Unmarshal id 0 demo_defs demo_reservation _ demo_reserved.2); [done|done|vm_compute; reflexivity]|].
  eapply rtc_l; [apply (inv_commit _ _ 0 true demo_reservation); vm_compute; reflexivity|].
  match goal with |- rtc _ ?x ?y => assert (x = y) as -> by (vm_compute; reflexivity) end. apply rtc_refl.
Qed.


(** A second list of the same tools while the first is being written is refused, as if
    the limit were reached. *)
Example concurrent_list_refused :
  (ReserveToolInventory demo_Unmarshal id ["read"; "list"] demo_defs demo_reserved.2).1 = Err ErrBaselineCapacity /\ size (tb_pendingTools demo_reserved.2) = 2.
Proof. by vm_compute. Qed.

(** The contract of a name is that of its last valid definition, even if an invalid one
    follows in the same list. *)
Example invalid_definition_keeps_contract :
  is_Some (headerBindingsForDefs demo_Unmarshal id [demo_tool "read" "{region}"; demo_tool "read" "[]"] !! "read") /\
  headerBindingsForDefs demo_Unmarshal id [demo_tool "read" "[]"] !! "read" = None.
Proof. split; [by eexists|by vm_compute]. Qed.
