(* ===== verification/ToolScan.v ===== *)
(** * The scan of a tools/list response

    [ScanTools] and [scanToolDefs] ([internal/mcp/tools/tools.go]) and the cues of a
    changed definition ([drift_cues.go]): the findings of each definition, its comparison with the
    baseline, and what may become the new baseline.

    The regular expressions, the Unicode normalisation, the JSON codec and the digest
    of a whole definition ([internal/mcp/provenance]) are arguments, as is the parser
    that finds the definitions of a message. *)

From S2P Require Import Prelude GoStrings ToolSchema ToolBaseline Config Escalation.
Local Open Scope nat_scope.

(** ** Cues *)

Definition DriftCuePoison : string := "tool-poison-pattern".
Definition DriftCueStructural : string := "structural-change".

(** The class and the value. *)
Definition cueIdentity : Type := string * string.

(** A pattern finds its matches, each with its groups: the whole match first. *)
Record driftCuePattern := { cp_cue : string; cp_matches : string -> list (list string); cp_valued : bool }.

Record ExtraPoisonPattern := { ep_Name : string; ep_Re : option (string -> bool); ep_ScanField : string }.

#[local] Set Default Proof Using "Type".

(** No class is new exactly if no cue is. *)
Lemma new_classes_nil (new before : gset cueIdentity) (changed : bool) :
  merge_sort String.le (elements (set_map fst (new ∖ before) ∪ (if changed then {[DriftCueStructural]} else ∅) : gset string)) = [] <->
  changed = false /\ new ⊆ before.
Proof.
  assert (forall s : gset string, merge_sort String.le (elements s) = [] <-> s = ∅) as ->.
  { intros s. split; [|intros ->; by rewrite elements_empty]. intros E. apply set_eq. intros x. split; [|set_solver].
    intros Hx%elem_of_elements. rewrite <- (merge_sort_Permutation String.le), E in Hx. by apply elem_of_nil in Hx. }
  split.
  - intros [E1 E2]%empty_union_L. split; [destruct changed; [set_solver|done]|]. intros x Hx. destruct (decide (x ∈ before)) as [?|Hn]; [done|].
    exfalso. assert (x.1 ∈ (∅ : gset string)) as ?%elem_of_empty; [|done]. rewrite <- E1. apply elem_of_map. exists x. set_solver.
  - intros [-> Hsub]. assert (new ∖ before = ∅) as -> by set_solver. by rewrite set_map_empty, union_empty_l_L.
Qed.

Section scan.
Context {Match : Type}.
Context (Unmarshal : string -> option json) (Marshal : json -> option string) (unicodeLower : string -> string).
(** [sha256] in hexadecimal, and the digests of [internal/mcp/provenance]. *)
Context (sha256hex : string -> string) (ToolDigestRaw : string -> string) (ToolDigest : string -> string -> string -> string).
(** [normalize.ForToolText], [normalize.ForMatching], [strings.Fields]. *)
Context (ForToolText ForMatching : string -> string) (Fields : string -> list string).
Context (driftCuePatterns : list driftCuePattern) (checkToolPoison : string -> list string).
Context (exfilParamPattern contextLeakParamPattern : string -> bool).
(** [ScanResponse]: clean or not, and the matches. *)
Context (ScanResponse : string -> bool * list Match).
Context (runes : string -> list string) (Quote : string -> string).

Definition hashTool (t : ToolDef) : string :=
  if decide (raw t <> "") then ToolDigestRaw (raw t) else ToolDigest (Name t) (Description t) (InputSchema t).

Definition canonicalJSONWithout (source dropField : string) : option string :=
  decoded ← Unmarshal source;
  Marshal (match decoded with JObject fields => JObject (filter (fun kv => kv.1 <> dropField) fields) | v => v end).

(** Length-delimited when there is no raw definition. *)
Definition structuralDigest (t : ToolDef) : string :=
  sha256hex (if decide (raw t <> "") then default (raw t) (canonicalJSONWithout (raw t) "description")
             else pretty (String.length (Name t)) +:+ ":" +:+ Name t +:+ pretty (String.length (InputSchema t)) +:+ ":" +:+ InputSchema t).

(** The value of a match: the first group that matched something, or the match with its
    white space joined. *)
Definition cueValue (m : list string) : string :=
  Strings.ToLower unicodeLower
    (match filter (fun g => g <> "") (tail m) with g :: _ => g | [] => Strings.Join (Fields (default "" (head m))) " " end).

Definition patternCues (normalized : string) (p : driftCuePattern) : list cueIdentity :=
  if cp_valued p then (fun m => (cp_cue p, cueValue m)) <$> cp_matches p normalized
  else if decide (cp_matches p normalized = []) then [] else [(cp_cue p, "")].

Definition driftCues (text : string) : gset cueIdentity :=
  if decide (text = "") then ∅ else list_to_set (flat_map (patternCues (ForToolText text)) driftCuePatterns).

Definition definitionCues (desc : string) : gset cueIdentity :=
  if decide (desc = "") then driftCues desc
  else list_to_set ((fun name => (DriftCuePoison, name)) <$> checkToolPoison (ForToolText desc)) ∪ driftCues desc.

(** Classes of the cues that are new, sorted. *)
Definition introducedDriftCues (prevDesc newDesc : string) (structuralChanged : bool) : list string :=
  let before := definitionCues prevDesc in
  let classes : gset string := set_map fst (definitionCues newDesc ∖ before) ∪ (if structuralChanged then {[DriftCueStructural]} else ∅) in
  merge_sort String.le (elements classes).

(** ** Texts of a definition *)

(** [expandParamName], on bytes: letters outside ASCII are neither split nor split on. *)
Definition upper (c : ascii) : bool := bool_decide (65 <= N_of_ascii c <= 90)%N.
Definition lower (c : ascii) : bool := bool_decide (97 <= N_of_ascii c <= 122)%N.

Fixpoint expandBytes (prev : option ascii) (s : string) : string :=
  match s with
  | "" => ""
  | String r s =>
      if decide (N_of_ascii r = 95 \/ N_of_ascii r = 45)%N then String " " (expandBytes (Some r) s)
      else
        let next_lower := match s with String n _ => lower n | "" => false end in
        let split := match prev with Some p => upper r && (lower p || upper p && next_lower) | None => false end in
        (if split then " " else "") +:+ String r (expandBytes (Some r) s)
  end.

Definition expandParamName (name : string) : string := Strings.ToLower unicodeLower (expandBytes None name).

Definition joinParts (parts : list string) : string :=
  match parts with [] => "" | p :: rest => foldl (fun acc x => acc +:+ ". " +:+ x) p rest end.

Definition extractToolTextWithParams (t : ToolDef) (paramNames : list string) : string :=
  joinParts ((if decide (Description t = "") then [] else [Description t]) ++
    (if decide (InputSchema t = "") then []
     else ExtractSchemaDescriptions Unmarshal (InputSchema t) ++
          flat_map (fun name => let expanded := expandParamName name in (if decide (expanded = name) then [] else [expanded]) ++ [name]) paramNames)).

Definition toolParams (t : ToolDef) : list string := if decide (InputSchema t = "") then [] else ExtractParamNames Unmarshal (InputSchema t).

Definition extractToolText (t : ToolDef) : string := extractToolTextWithParams t (toolParams t).

(** ** Findings of one definition *)

Record ToolScanMatch := {
  tm_ToolName : string;
  tm_Injection : list Match;
  tm_ToolPoison : list string;
  tm_DriftDetected : bool;
  tm_DriftAccepted : bool;
  tm_DriftCues : list string;
  tm_PreviousHash : string;
  tm_CurrentHash : string;
  tm_DriftDetail : string;
}.

Record ToolScanConfig := {
  sc_ExpectedDriftEpoch : option Z;
  sc_Action : string;
  sc_DetectDrift : bool;
  sc_ExtraPoison : list (option ExtraPoisonPattern);
}.

(** Each pattern is reported once. *)
Fixpoint paramFindings (names : list string) (exfilHit contextHit : bool) : list string :=
  match names with
  | [] => []
  | name :: names =>
      if exfilHit && contextHit then []
      else let expanded := ForToolText (expandParamName name) in
           let exfil := negb exfilHit && exfilParamPattern expanded in
           let context := negb contextHit && contextLeakParamPattern expanded in
           (if exfil then ["Exfiltration Parameter Name"] else []) ++ (if context then ["Context-Leak Parameter Name"] else []) ++
           paramFindings names (exfilHit || exfil) (contextHit || context)
  end.

Definition extraFindings (name text : string) (ep : option ExtraPoisonPattern) : list string :=
  match ep with
  | Some {| ep_Name := epName; ep_Re := Some re; ep_ScanField := epField |} =>
      if decide (epName = "") then []
      else if decide (epField = "name") then if re (ForToolText name) then [epName] else []
      else if decide (epField = "" \/ epField = "description") then if re (ForToolText text) then [epName] else []
      else []
  | _ => []
  end.

(** What the loop of [scanToolDefs] finds before it compares: the injections, the poison
    names and [hasFinding]. *)
Definition toolFindings (cfg : ToolScanConfig) (confusable : bool) (t : ToolDef) : list Match * list string * bool :=
  let text := extractToolTextWithParams t (toolParams t) in
  let collision := if confusable then ["Confusable Tool Name Collision"] else [] in
  if decide (text = "") then ([], collision, confusable)
  else
    let (clean, injection) := ScanResponse text in
    let poison := checkToolPoison (ForToolText text) ++ paramFindings (toolParams t) false false ++ flat_map (extraFindings (Name t) text) (sc_ExtraPoison cfg) in
    (if clean then [] else injection, collision ++ poison, confusable || negb clean || negb (bool_decide (poison = []))).

(** Names that the normalisation identifies; the first name of a class is kept. *)
Definition confusableToolNameCollisions (tools : list ToolDef) : gset string :=
  (foldl (fun (st : gmap string string * gset string) t =>
    let normalized := ForMatching (Name t) in
    match st.1 !! normalized with
    | Some prev => (st.1, if decide (prev = Name t) then st.2 else {[prev; Name t]} ∪ st.2)
    | None => (<[normalized := Name t]> st.1, st.2)
    end) (∅, ∅) tools).2.

(** ** The loop *)

(** The two baselines of a configuration, nil or a pointer each. *)
Record Baselines := { bl_Baseline : option ToolBaseline; bl_DriftBaseline : option ToolBaseline }.

Definition driftBaseline (bs : Baselines) : option ToolBaseline :=
  match bl_DriftBaseline bs with Some tb => Some tb | None => bl_Baseline bs end.

Definition set_drift (tb : ToolBaseline) (bs : Baselines) : Baselines :=
  match bl_DriftBaseline bs with
  | Some _ => {| bl_Baseline := bl_Baseline bs; bl_DriftBaseline := Some tb |}
  | None => {| bl_Baseline := Some tb; bl_DriftBaseline := None |}
  end.

Definition evaluationOf (cfg : ToolScanConfig) (hasFinding : bool) (t : ToolDef) : DefinitionEvaluation :=
  {| de_Name := Name t; de_Hash := hashTool t; de_Desc := Description t; de_Params := toolParams t; de_Structural := structuralDigest t;
     de_ExpectedDriftEpoch := sc_ExpectedDriftEpoch cfg;
     de_PromoteNew := bool_decide (sc_Action cfg <> ActionBlock) || negb hasFinding;
     de_PromoteChanged := bool_decide (sc_Action cfg <> ActionBlock);
     de_PromoteAccepted := bool_decide (sc_Action cfg <> ActionBlock) || negb hasFinding;
     de_Classify := fun prevDesc structuralChanged => introducedDriftCues prevDesc (Description t) structuralChanged |}.

Definition findingMatch (t : ToolDef) (injection : list Match) (poison : list string) (e : DriftEvaluation) : ToolScanMatch :=
  let cued := Drifted e && negb (bool_decide (Cues e = [])) in
  {| tm_ToolName := Name t; tm_Injection := injection; tm_ToolPoison := poison; tm_DriftDetected := cued; tm_DriftAccepted := false;
     tm_DriftCues := if cued then Cues e else []; tm_PreviousHash := if Drifted e then PreviousHash e else "";
     tm_CurrentHash := if Drifted e then hashTool t else ""; tm_DriftDetail := if Drifted e then Detail e else "" |}.

Definition observation (t : ToolDef) (e : DriftEvaluation) : ToolScanMatch :=
  {| tm_ToolName := Name t; tm_Injection := []; tm_ToolPoison := []; tm_DriftDetected := false; tm_DriftAccepted := true; tm_DriftCues := [];
     tm_PreviousHash := PreviousHash e; tm_CurrentHash := hashTool t; tm_DriftDetail := Detail e |}.

(** The matches, the observations, [capacityExceeded] and [epochChanged]. *)
Record ScanOutcome := { so_matches : list ToolScanMatch; so_observations : list ToolScanMatch; so_capacity : bool; so_epoch : bool }.

Definition emptyOutcome : ScanOutcome := {| so_matches := []; so_observations := []; so_capacity := false; so_epoch := false |}.

Definition after_tool (match_ observed : list ToolScanMatch) (o : ScanOutcome) : ScanOutcome :=
  {| so_matches := so_matches o ++ match_; so_observations := so_observations o ++ observed; so_capacity := so_capacity o; so_epoch := so_epoch o |}.
Definition over_capacity (o : ScanOutcome) : ScanOutcome :=
  {| so_matches := so_matches o; so_observations := so_observations o; so_capacity := true; so_epoch := so_epoch o |}.
(** The early return reports no capacity. *)
Definition epoch_changed (o : ScanOutcome) : ScanOutcome :=
  {| so_matches := so_matches o; so_observations := so_observations o; so_capacity := false; so_epoch := true |}.

Fixpoint scanLoop (cfg : ToolScanConfig) (confusable : gset string) (tools : list ToolDef) (bs : Baselines) (o : ScanOutcome) : ScanOutcome * Baselines :=
  match tools with
  | [] => (o, bs)
  | t :: tools =>
      let '(injection, poison, hasFinding) := toolFindings cfg (bool_decide (Name t ∈ confusable)) t in
      match (if sc_DetectDrift cfg then driftBaseline bs else None) with
      | None => scanLoop cfg confusable tools bs (after_tool (if hasFinding then [findingMatch t injection poison noDrift] else []) [] o)
      | Some tb =>
          if ShouldSkip (Name t) tb then scanLoop cfg confusable tools bs (over_capacity o)
          else let (e, tb) := EvaluateDefinition runes Quote (evaluationOf cfg hasFinding t) tb in
               let bs := set_drift tb bs in
               if EpochChanged e then (epoch_changed o, bs)
               else if CapacityExceeded e then scanLoop cfg confusable tools bs (over_capacity o)
               else let cued := Drifted e && negb (bool_decide (Cues e = [])) in
                    scanLoop cfg confusable tools bs
                      (after_tool (if hasFinding || cued then [findingMatch t injection poison e] else []) (if Accepted e then [observation t e] else []) o)
      end
  end.

Definition scanToolDefs (cfg : ToolScanConfig) (tools : list ToolDef) (bs : Baselines) : ScanOutcome * Baselines :=
  scanLoop cfg (confusableToolNameCollisions tools) tools bs emptyOutcome.

(** ** The response *)

Definition toolScanCapacityLimit (cfg : ToolScanConfig) (defs : list ToolDef) (names : list string) (bs : Baselines) : string :=
  if decide (bl_Baseline bs <> None /\ CanAdmitKnownTools names (bl_Baseline bs) = false) then "tool_inventory_capacity"
  else if decide (bl_Baseline bs <> None /\ CanAdmitHeaderBindings Unmarshal unicodeLower defs (bl_Baseline bs) = false) then "tool_header_binding_capacity"
  else if (match sc_ExpectedDriftEpoch cfg with Some epoch => negb (matchesDriftEpoch epoch (driftBaseline bs)) | None => false end)
       then "tool_definition_baseline_reset"
  else if decide (sc_DetectDrift cfg = true /\ driftBaseline bs <> None /\ CanTrackDefinitions names (driftBaseline bs) = false)
       then "tool_definition_baseline_capacity"
  else "".

Record ToolScanResult := {
  ts_IsToolsList : bool;
  ts_Clean : bool;
  ts_ResourceLimit : string;
  ts_Matches : list ToolScanMatch;
  ts_Observations : list ToolScanMatch;
  ts_RPCID : string;
  ts_ToolNames : list string;
  ts_ToolDefs : list ToolDef;
}.

Definition notToolsList : ToolScanResult :=
  {| ts_IsToolsList := false; ts_Clean := true; ts_ResourceLimit := ""; ts_Matches := []; ts_Observations := []; ts_RPCID := ""; ts_ToolNames := []; ts_ToolDefs := [] |}.

Definition listResult (clean : bool) (limit : string) (matches observations : list ToolScanMatch) (id : string) (names : list string) (defs : list ToolDef) : ToolScanResult :=
  {| ts_IsToolsList := true; ts_Clean := clean; ts_ResourceLimit := limit; ts_Matches := matches; ts_Observations := observations;
     ts_RPCID := id; ts_ToolNames := names; ts_ToolDefs := defs |}.

(** What [isToolsListResult] and [tryParseToolsList] make of a message: not a list of tools, or its
    identifier and the definitions that have a name. *)
Context (parse : string -> option (string * list ToolDef)).

Definition scanToolsSingle (cfg : ToolScanConfig) (line : string) (bs : Baselines) : ToolScanResult * Baselines :=
  match parse line with
  | None => (notToolsList, bs)
  | Some (id, []) => (listResult true "" [] [] id [] [], bs)
  | Some (id, tools) =>
      let names := Name <$> tools in
      let limit := toolScanCapacityLimit cfg tools names bs in
      if decide (limit <> "") then (listResult false limit [] [] id names tools, bs)
      else
        let (o, bs) := scanToolDefs cfg tools bs in
        (if so_epoch o then listResult false "tool_definition_baseline_reset" [] (so_observations o) id names tools
         else if so_capacity o then listResult false "tool_definition_baseline_capacity" [] (so_observations o) id names tools
         else if decide (so_matches o = []) then listResult true "" [] (so_observations o) id names tools
         else listResult false "" (so_matches o) (so_observations o) id names tools, bs)
  end.

(** The elements of a batch, aggregated. *)
Fixpoint scanBatchLoop (cfg : ToolScanConfig) (elems : list string) (acc : ToolScanResult) (bs : Baselines) : ToolScanResult * Baselines :=
  match elems with
  | [] => (acc, bs)
  | elem :: elems =>
      let (r, bs) := scanToolsSingle cfg elem bs in
      if ts_IsToolsList r then
        scanBatchLoop cfg elems
          (listResult true (if decide (ts_ResourceLimit acc = "") then ts_ResourceLimit r else ts_ResourceLimit acc)
             (ts_Matches acc ++ ts_Matches r) (ts_Observations acc ++ ts_Observations r)
             (if decide (ts_RPCID acc = "") then ts_RPCID r else ts_RPCID acc) (ts_ToolNames acc ++ ts_ToolNames r) (ts_ToolDefs acc ++ ts_ToolDefs r)) bs
      else scanBatchLoop cfg elems acc bs
  end.

(** [batch] is the array's elements, [None] if it does not decode. *)
Definition scanToolsBatch (cfg : ToolScanConfig) (batch : option (list string)) (bs : Baselines) : ToolScanResult * Baselines :=
  match batch with
  | None => (notToolsList, bs)
  | Some elems =>
      let (acc, bs) := scanBatchLoop cfg elems notToolsList bs in
      (if negb (ts_IsToolsList acc) then notToolsList
       else if decide (ts_ResourceLimit acc <> "") then
         listResult false (ts_ResourceLimit acc) [] (ts_Observations acc) (ts_RPCID acc) (ts_ToolNames acc) (ts_ToolDefs acc)
       else listResult (bool_decide (ts_Matches acc = [])) "" (ts_Matches acc) (ts_Observations acc) (ts_RPCID acc) (ts_ToolNames acc) (ts_ToolDefs acc), bs)
  end.
(** [decodeBatch] is [json.Unmarshal] into a slice of raw messages. *)
Definition ScanTools (decodeBatch : string -> option (list string)) (cfg : option ToolScanConfig) (line : string) (bs : Baselines) : ToolScanResult * Baselines :=
  match cfg with
  | None => (notToolsList, bs)
  | Some cfg => if Strings.HasPrefix line "[" then scanToolsBatch cfg (decodeBatch line) bs else scanToolsSingle cfg line bs
  end.

(** ** Where an approved definition comes from *)

(** [UnmarshalJSON]: a definition is decoded from its raw text, which it keeps. *)
Context (UnmarshalTool : string -> option ToolDef).
Definition decoded (t : ToolDef) : Prop := raw t <> "" /\ UnmarshalTool (raw t) = Some t.

(** The digest has no collisions: it determines the description. *)
Definition digest_injective : Prop := forall a b, decoded a -> decoded b -> hashTool a = hashTool b -> Description a = Description b.

(** The definitions that were compared since the last reset, with the verdict on each. *)
Definition history : Type := list (ToolDef * bool).

(** [lineage log d0 d]: [d0] was seen without a finding, and each later definition up
    to [d] either has the digest of the one before, or had no finding and introduced
    no cue. *)
Inductive lineage (log : history) : ToolDef -> ToolDef -> Prop :=
| lg_first d : (d, false) ∈ log -> lineage log d d
| lg_same d0 d d' finding : lineage log d0 d -> (d', finding) ∈ log -> Name d' = Name d -> hashTool d' = hashTool d -> lineage log d0 d'
| lg_change d0 d d' : lineage log d0 d -> (d', false) ∈ log -> Name d' = Name d -> structuralDigest d' = structuralDigest d ->
    definitionCues (Description d') ⊆ definitionCues (Description d) -> lineage log d0 d'.

(** Comparisons under the action block, stale ones, resets, and the operations on the
    inventory, in any order. *)
Inductive drift_step : ToolBaseline * history -> ToolBaseline * history -> Prop :=
| ds_evaluate cfg t finding tb log e tb' :
    sc_Action cfg = ActionBlock -> decoded t -> EvaluateDefinition runes Quote (evaluationOf cfg finding t) tb = (e, tb') ->
    drift_step (tb, log) (tb', if EpochChanged e then log else (t, finding) :: log)
| ds_reset expected tb log ok tb' :
    ResetDriftStateAtEpoch expected tb = (ok, tb') -> drift_step (tb, log) (tb', if ok : bool then [] else log)
| ds_inventory known bindings pending has tb log :
    drift_step (tb, log) (with_inventory known bindings pending has tb, log).

(** What the four maps hold for a name. *)
Definition approved (tb : ToolBaseline) (d : ToolDef) : Prop :=
  tb_hashes tb !! Name d = Some (hashTool d) /\ tb_descs tb !! Name d = Some (Description d) /\
  tb_structural tb !! Name d = Some (structuralDigest d) /\ tb_params tb !! Name d = Some (toolParams d).

Definition drift_inv (s : ToolBaseline * history) : Prop :=
  size (tb_hashes s.1) <= maxBaselineTools /\ (forall e, e ∈ s.2 -> decoded e.1) /\
  forall n, is_Some (tb_hashes s.1 !! n) -> exists d0 d, Name d = n /\ approved s.1 d /\ lineage s.2 d0 d.

Lemma introduced_nil prevDesc newDesc changed :
  introducedDriftCues prevDesc newDesc changed = [] <-> changed = false /\ definitionCues newDesc ⊆ definitionCues prevDesc.
Proof. apply new_classes_nil. Qed.

Lemma lineage_mono log log' d0 d : (forall e, e ∈ log -> e ∈ log') -> lineage log d0 d -> lineage log' d0 d.
Proof. intros Hsub. induction 1; [by apply lg_first, Hsub|eapply lg_same; eauto|eapply lg_change; eauto]. Qed.

Lemma lineage_cons log e d0 d : lineage log d0 d -> lineage (e :: log) d0 d.
Proof. apply lineage_mono. intros x Hx. by apply list_elem_of_further. Qed.

Lemma lineage_first log d0 d : lineage log d0 d -> (d0, false) ∈ log /\ Name d0 = Name d /\ exists finding, (d, finding) ∈ log.
Proof. induction 1 as [d Hd|d0 d d' f _ (H1 & H2 & _) Hd Hn|d0 d d' _ (H1 & H2 & _) Hd Hn]; split_and!; eauto; congruence. Qed.

(** Digests without collisions: the cues never grow. *)
Lemma lineage_cues log d0 d :
  digest_injective -> (forall e, e ∈ log -> decoded e.1) -> lineage log d0 d -> definitionCues (Description d) ⊆ definitionCues (Description d0).
Proof.
  intros Hinj Hdec. induction 1 as [d|d0 d d' f Hl IH Hd' _ Hh|d0 d d' _ IH _ _ _ Hc]; [done| |by etrans].
  apply lineage_first in Hl as (_ & _ & f0 & Hd). by rewrite (Hinj d' d (Hdec _ Hd') (Hdec _ Hd) Hh).
Qed.
Notation Evaluate cfg finding t := (EvaluateDefinition runes Quote (evaluationOf cfg finding t)).

Lemma promote_approved cfg finding t tb : approved (promote (evaluationOf cfg finding t) tb) t.
Proof. unfold approved. cbn. by rewrite !lookup_insert_eq. Qed.

Lemma promote_other cfg finding t tb d : Name d <> Name t -> approved tb d <-> approved (promote (evaluationOf cfg finding t) tb) d.
Proof. intros Hne. unfold approved. cbn. by rewrite !lookup_insert_ne by done. Qed.

(** Promoting a definition that descends from an approved one. *)
Lemma promote_inv cfg finding t tb log d0 :
  drift_inv (tb, log) -> decoded t -> is_Some (tb_hashes tb !! Name t) \/ size (tb_hashes tb) < maxBaselineTools ->
  lineage ((t, finding) :: log) d0 t -> drift_inv (promote (evaluationOf cfg finding t) tb, (t, finding) :: log).
Proof.
  intros (Hsize & Hdec & Hinv) Ht Hroom Hlin. cbn [fst snd] in *. split_and!; cbn [fst snd]; [|by intros e [->|He]%elem_of_cons; [|apply Hdec]|].
  - cbn. destruct (tb_hashes tb !! Name t) as [h|] eqn:E; [by rewrite map_size_insert_Some|]. rewrite map_size_insert_None by done.
    destruct Hroom as [[? ?]|?]; [done|lia].
  - intros n [h Hn]. destruct (decide (n = Name t)) as [->|Hne]; [exists d0, t; split_and!; [done|apply promote_approved|done]|].
    cbn in Hn. rewrite lookup_insert_ne in Hn by done. destruct (Hinv n) as (a & d & Hd & Happ & Hl); [by eexists|].
    exists a, d. split_and!; [done|by apply promote_other; [congruence|]|]. by apply lineage_cons.
Qed.

Lemma inv_log tb log e : decoded e.1 -> drift_inv (tb, log) -> drift_inv (tb, e :: log).
Proof.
  intros He (Hsize & Hdec & Hinv). split_and!; [done|by intros x [->|Hx]%elem_of_cons; [|apply Hdec]|]. intros n Hn. destruct (Hinv n Hn) as (d0 & d & ? & ? & Hl). exists d0, d. split_and!; [done..|].
  by apply lineage_cons.
Qed.

(** One comparison under the action block: the invariant is kept, other names are not
    touched, and a definition without finding or cue is approved afterwards. *)
Lemma evaluate_block cfg t finding tb log e tb' :
  sc_Action cfg = ActionBlock -> decoded t -> Evaluate cfg finding t tb = (e, tb') -> drift_inv (tb, log) ->
  drift_inv (tb', if EpochChanged e then log else (t, finding) :: log) /\
  (EpochChanged e = false -> CapacityExceeded e = false -> finding || Drifted e && negb (bool_decide (Cues e = [])) = false -> approved tb' t).
Proof.
  intros Hact Ht E Hinv. unfold EvaluateDefinition in E. cbn [evaluationOf de_Name de_Hash de_ExpectedDriftEpoch de_PromoteNew de_PromoteChanged de_PromoteAccepted de_Classify de_Structural] in E.
  rewrite Hact, (bool_decide_eq_false_2 (ActionBlock <> ActionBlock)) in E by (intros H; by apply H). cbn [orb] in E.
  destruct (match sc_ExpectedDriftEpoch cfg with Some _ => _ | None => _ end); [by injection E as <- <-|].
  destruct (tb_hashes tb !! Name t) as [h|] eqn:Eh.
  - pose proof Hinv as (_ & _ & Hold). destruct (Hold (Name t)) as (d0 & d & Hd & (A1 & A2 & A3 & A4) & Hl); [by eexists|]. cbn [fst snd] in *.
    assert (lineage ((t, finding) :: log) d0 d) as Hl' by by apply lineage_cons.
    rewrite Hd in *. destruct (decide (h = hashTool t)) as [->|Hne].
    + injection E as <- <-. cbn [EpochChanged noDrift]. split; [|intros _ _ _; apply promote_approved]. eapply promote_inv; [done|done|left; by rewrite Eh|].
      eapply lg_same; [exact Hl'|apply list_elem_of_here|done|congruence].
    + injection E as <- <-. cbn [EpochChanged Cues Drifted CapacityExceeded]. rewrite A2, A3, orb_false_r. cbn [default].
      destruct (bool_decide (introducedDriftCues _ _ _ = [])) eqn:Ec; cbn [andb]; [|split; [by apply inv_log|by destruct finding]].
      destruct finding; cbn [negb]; [split; [by apply inv_log|done]|]. split; [|intros _ _ _; apply promote_approved].
      apply bool_decide_eq_true, introduced_nil in Ec as [Es Ec]. rewrite negb_false_iff, bool_decide_eq_true in Es.
      eapply promote_inv; [done|done|left; by rewrite Eh|]. eapply lg_change; [exact Hl'|apply list_elem_of_here|done|congruence|done].
  - destruct (decide _) as [Hfull|Hroom]; injection E as <- <-; cbn [EpochChanged noDrift capacityDrift CapacityExceeded]; [split; [by apply inv_log|done]|].
    destruct finding; cbn [negb]; [split; [by apply inv_log|done]|]. split; [|intros _ _ _; apply promote_approved].
    eapply promote_inv; [done|done|right; lia|]. apply lg_first, list_elem_of_here.
Qed.

Lemma drift_step_inv s s' : drift_step s s' -> drift_inv s -> drift_inv s'.
Proof.
  intros [cfg t finding tb log e tb' Hact Ht E|expected tb log ok tb' E|known bindings pending has tb log] Hinv.
  - by eapply evaluate_block in Hinv as [? _].
  - unfold ResetDriftStateAtEpoch in E. destruct (decide _) as [_|_]; injection E as <- <-; [done|]. split_and!; cbn; [rewrite map_size_empty; lia|by intros ? ?%elem_of_nil|].
    intros n. rewrite lookup_empty. by intros [].
  - exact Hinv.
Qed.

Lemma drift_reachable_inv s : rtc drift_step (NewToolBaseline, []) s -> drift_inv s.
Proof.
  intros H. refine (rtc_ind_r drift_inv _ _ _ s H).
  - split_and!; cbn; [rewrite map_size_empty; lia|by intros ? ?%elem_of_nil|]. intros n. rewrite lookup_empty. by intros [].
  - intros x y _ Hstep. by apply drift_step_inv.
Qed.

Lemma evaluate_other cfg finding t tb e tb' d : Evaluate cfg finding t tb = (e, tb') -> Name d <> Name t -> approved tb d -> approved tb' d.
Proof.
  intros E Hne Happ. assert (tb' = tb \/ tb' = promote (evaluationOf cfg finding t) tb) as [-> | ->]; [|done|by apply promote_other].
  unfold EvaluateDefinition in E. repeat case_match; injection E as _ <-; auto.
Qed.

Lemma driftBaseline_set tb tb' bs : driftBaseline bs = Some tb -> driftBaseline (set_drift tb' bs) = Some tb'.
Proof. unfold driftBaseline, set_drift. by destruct (bl_DriftBaseline bs). Qed.

(** The last definition of each name. *)
Definition lastOf (tools : list ToolDef) (t : ToolDef) : Prop := exists l1 l2, tools = l1 ++ t :: l2 /\ Name t ∉ (Name <$> l2 : list string).

Lemma lastOf_cons t tools d : lastOf (t :: tools) d -> (d = t /\ Name t ∉ (Name <$> tools : list string)) \/ lastOf tools d.
Proof. intros ([|x l1] & l2 & [= -> ->] & Hn); [by left|right]. by exists l1, l2. Qed.

Definition clean (o : ScanOutcome) : Prop := so_matches o = [] /\ so_capacity o = false /\ so_epoch o = false.

Notation finding_of cfg confusable t := (toolFindings cfg (bool_decide (Name t ∈ confusable)) t).2.

Lemma scanLoop_clean cfg confusable tools bs o o' bs' tb log :
  sc_Action cfg = ActionBlock -> sc_DetectDrift cfg = true -> (forall t, t ∈ tools -> decoded t) -> driftBaseline bs = Some tb -> drift_inv (tb, log) ->
  scanLoop cfg confusable tools bs o = (o', bs') -> clean o' ->
  clean o /\ (forall t, t ∈ tools -> finding_of cfg confusable t = false) /\
  exists tb' log', driftBaseline bs' = Some tb' /\ rtc drift_step (tb, log) (tb', log') /\
    (forall d, lastOf tools d -> approved tb' d) /\ (forall d, Name d ∉ (Name <$> tools : list string) -> approved tb d -> approved tb' d).
Proof.
  intros Hact Hdrift Hall. revert bs o tb log. induction tools as [|t tools IH]; intros bs o tb log Hbs Hinv E Hclean; cbn [scanLoop] in E.
  { injection E as <- <-. split; [done|]. split; [by intros ? ?%elem_of_nil|]. exists tb, log. split_and!; [done|apply rtc_refl|by intros d ([] & ? & ? & _)|done]. }
  assert (decoded t) as Ht by apply Hall, list_elem_of_here. assert (forall t, t ∈ tools -> decoded t) as Hall' by (intros x Hx; by apply Hall, list_elem_of_further).
  specialize (IH Hall'). destruct (toolFindings cfg _ t) as [[injection poison] finding] eqn:Ef. rewrite Hdrift, Hbs in E. destruct (ShouldSkip (Name t) tb).
  { by apply (IH _ _ tb log) in E as [(_ & ? & _) _]. }
  destruct (Evaluate cfg finding t tb) as [e tb1] eqn:Ee. destruct (evaluate_block _ _ _ _ log _ _ Hact Ht Ee Hinv) as [Hinv1 Happ].
  assert (drift_step (tb, log) (tb1, if EpochChanged e then log else (t, finding) :: log)) as Hstep by by eapply ds_evaluate.
  destruct (EpochChanged e); [injection E as <- <-; by destruct Hclean as (_ & _ & ?)|].
  destruct (CapacityExceeded e) eqn:Ec; [by apply (IH _ _ tb1 ((t, finding) :: log)) in E as [(_ & ? & _) _]; [|by eapply driftBaseline_set|..]|].
  apply (IH _ _ tb1 ((t, finding) :: log)) in E as ((Hm & Hcap & Hep) & Hfind & tb' & log' & Hbs' & Hrtc & Hlast & Hkeep); [|by eapply driftBaseline_set|done|done].
  cbn [so_matches so_capacity so_epoch after_tool] in Hm, Hcap, Hep. apply app_eq_nil in Hm as [Hm Hf].
  destruct (finding || _) eqn:Ecue; [done|]. specialize (Happ eq_refl eq_refl eq_refl). split; [done|]. split.
  { intros d [->|Hd]%elem_of_cons; [|by apply Hfind]. rewrite Ef. cbn. by destruct finding. }
  exists tb', log'. split_and!; [done|by eapply rtc_l| |].
  - intros d [[-> Hn]|Hd]%lastOf_cons; [by apply Hkeep|by apply Hlast].
  - intros d Hn Hd. cbn in Hn. apply not_elem_of_cons in Hn as [Hne Hn]. apply Hkeep; [done|]. by eapply evaluate_other.
Qed.

End scan.

(** ** Examples *)

(** A definition, an edit of its description, and one that adds a destination. *)
Definition demo_read (desc raw_ : string) : ToolDef := {| Name := "read"; Description := desc; InputSchema := ""; raw := raw_ |}.
Definition demo_d1 : ToolDef := demo_read "reads a file" "A".
Definition demo_d2 : ToolDef := demo_read "reads one file" "B".
Definition demo_d3 : ToolDef := demo_read "sends it to https://x" "C".

Definition demo_UnmarshalTool (data : string) : option ToolDef :=
  if decide (data = "A") then Some demo_d1 else if decide (data = "B") then Some demo_d2 else if decide (data = "C") then Some demo_d3 else None.

Definition demo_digest (name desc schema : string) : string := name.
Definition demo_patterns : list driftCuePattern :=
  [{| cp_cue := "egress-url"; cp_matches := fun s => if Strings.HasPrefix s "sends" then [[s; "https://x"]] else []; cp_valued := true |}].

Definition demo_scan_step : ToolBaseline * history -> ToolBaseline * history -> Prop :=
  drift_step (fun _ => Some (JObject [])) (fun _ => Some "{}") id id id demo_digest id (fun s => [s]) demo_patterns (fun _ => []) (fun s => [s]) id demo_UnmarshalTool.

Definition demo_scan (action : string) (parse : string -> option (string * list ToolDef)) (bs : Baselines) : ToolScanResult (Match := unit) * Baselines :=
  scanToolsSingle (fun _ => Some (JObject [])) (fun _ => Some "{}") id id id demo_digest id id (fun s => [s]) demo_patterns (fun _ => [])
    (fun _ => false) (fun _ => false) (fun _ => (true, [])) (fun s => [s]) id parse
    {| sc_ExpectedDriftEpoch := None; sc_Action := action; sc_DetectDrift := true; sc_ExtraPoison := [] |} "L" bs.

Definition demo_cfg : ToolScanConfig := {| sc_ExpectedDriftEpoch := None; sc_Action := ActionBlock; sc_DetectDrift := true; sc_ExtraPoison := [] |}.

(** After the first definition, and after all three. *)
Definition demo_first : ToolBaseline := with_drift {["read" := "A"]} {["read" := "{}"]} {["read" := "reads a file"]} {["read" := []]} 0 NewToolBaseline.
Definition demo_last : ToolBaseline := with_drift {["read" := "B"]} {["read" := "{}"]} {["read" := "reads one file"]} {["read" := []]} 0 NewToolBaseline.

Lemma demo_digest_injective : digest_injective id demo_digest demo_UnmarshalTool.
Proof.
  intros a b [Ha Da] [Hb Db]. unfold hashTool. rewrite !decide_True by done. cbn. intros E. rewrite E in Da. rewrite Da in Db. by injection Db as ->.
Qed.

Ltac drift_eval t := eapply rtc_l; [eapply (ds_evaluate _ _ _ _ _ _ _ _ _ _ _ _ _ demo_cfg t false); [done|by split|vm_compute; reflexivity]|].
Ltac drift_done := match goal with |- rtc _ ?x ?y => assert (x = y) as -> by (vm_compute; reflexivity) end; apply rtc_refl.

Lemma demo_first_reachable : rtc demo_scan_step (NewToolBaseline, []) (demo_first, [(demo_d1, false)]).
Proof. drift_eval demo_d1. drift_done. Qed.

Lemma demo_last_reachable : rtc demo_scan_step (NewToolBaseline, []) (demo_last, [(demo_d3, false); (demo_d2, false); (demo_d1, false)]).
Proof. drift_eval demo_d1. drift_eval demo_d2. drift_eval demo_d3. drift_done. Qed.



(** A changed destination is a finding under the action block and is not promoted. Under
    the action warn it is promoted, although the level of the session may turn the
    warning into a block of the response. *)
Example warned_definition_is_promoted :
  let bs := {| bl_Baseline := Some demo_first; bl_DriftBaseline := None |} in
  let blocked := demo_scan ActionBlock (fun _ => Some ("1", [demo_d3])) bs in
  let warned := demo_scan ActionWarn (fun _ => Some ("1", [demo_d3])) bs in
  ts_Clean blocked.1 = false /\ blocked.2 = bs /\ ts_Clean warned.1 = false /\
  (tb ← bl_Baseline warned.2; tb_descs tb !! "read") = Some "sends it to https://x".
Proof. by vm_compute. Qed.
