(* ===== verification/ResetAuthority.v ===== *)
(** * Signed resets

    [internal/mcp/reset_authority.go]: an operator signs a delegation for one reset, the
    proxy verifies it against the live target, process and epoch, and spends it.

    The epoch is behind an interface ([ResetEpoch]) with two implementations: an atomic
    counter, and the drift baseline of a listener
    ([internal/mcp/mcp_http_listener_state.go]).

    Ed25519, base64, the JSON codec, the fingerprints of [internal/signing] and the file
    system are arguments. *)

From S2P Require Import Prelude GoStrings ToolSchema ToolBaseline.
Local Open Scope Z_scope.
Local Open Scope string_scope.

Definition resetDelegationSchemaVersion : Z := 1.
Definition resetDelegationPrefix : string := "pipelock-mcp-reset-delegation-v1" +:+ String "010" "".
Definition resetDelegationMaxBytes : Z := 16 * 1024.
Definition resetDelegationMaxTTL : Z := 15 * Time.minute.
Definition resetDelegationClockSkew : Z := Time.minute.
Definition maxResetConsumedNonces : nat := Z.to_nat 1024.
Definition resetHexBytes : nat := 16.
Definition PurposeMCPResetAuthority : string := "mcp-reset-authority".
Definition ResetKindDrift : string := "drift".
Definition ResetKindAdaptive : string := "adaptive".

(** [ResetKind.valid] *)
Definition kindValid (k : string) : bool := bool_decide (k = ResetKindDrift \/ k = ResetKindAdaptive).

Record ResetDelegation := {
  SchemaVersion : Z;
  Purpose : string;
  Kind : string;
  Target : string;
  InstanceID : string;
  Epoch : Z;
  IssuedUnix : Z;
  ExpiresUnix : Z;
  Nonce : string;
  Issuer : string;
  IssuerFingerprint : string;
  Signature : string;
}.

#[export] Instance ResetDelegation_eq_dec : EqDecision ResetDelegation.
Proof. solve_decision. Defined.

Definition emptyDelegation : ResetDelegation :=
  {| SchemaVersion := 0; Purpose := ""; Kind := ""; Target := ""; InstanceID := ""; Epoch := 0; IssuedUnix := 0; ExpiresUnix := 0;
     Nonce := ""; Issuer := ""; IssuerFingerprint := ""; Signature := "" |}.

(** The signed fields: all but the signature. *)
Definition resetPayload (d : ResetDelegation) : ResetDelegation :=
  {| SchemaVersion := SchemaVersion d; Purpose := Purpose d; Kind := Kind d; Target := Target d; InstanceID := InstanceID d; Epoch := Epoch d;
     IssuedUnix := IssuedUnix d; ExpiresUnix := ExpiresUnix d; Nonce := Nonce d; Issuer := Issuer d; IssuerFingerprint := IssuerFingerprint d; Signature := "" |}.

Inductive ResetAuthorityResult :=
| ResetAuthorityAccepted | ResetAuthorityAbsent | ResetAuthorityUnreadable | ResetAuthorityMalformed | ResetAuthorityUnsigned
| ResetAuthorityWrongKey | ResetAuthorityWrongPurpose | ResetAuthorityExpired | ResetAuthorityNotYetValid | ResetAuthorityWrongKind
| ResetAuthorityWrongTarget | ResetAuthorityWrongInstance | ResetAuthorityWrongEpoch | ResetAuthorityReplayed | ResetAuthorityCapacity
| ResetAuthorityRemoveFailed | ResetAuthorityPathChanged.

#[export] Instance ResetAuthorityResult_eq_dec : EqDecision ResetAuthorityResult.
Proof. solve_decision. Defined.

Record ResetAuthorityDecision := {
  Result : ResetAuthorityResult;
  Delegation : ResetDelegation;
  ExpectedTarget : string;
  ExpectedInstanceID : string;
  ExpectedEpoch : Z;
}.

(** ** The live epoch *)

(** [E] is the handle that a caller passes, [S] the state behind it. *)
Class ResetEpoch (E S : Type) := {
  CurrentEpoch : S -> Z;
  AdvanceEpoch : E -> Z -> S -> bool * S;
}.

(** What an implementation promises: it advances the expected epoch only, by one. *)
Class ResetEpochLaws (E S : Type) `{ResetEpoch E S} := {
  AdvanceEpoch_true : forall e expected s s', AdvanceEpoch e expected s = (true, s') -> CurrentEpoch s = expected /\ CurrentEpoch s' = wrapu64 (expected + 1);
  AdvanceEpoch_false : forall e expected s s', AdvanceEpoch e expected s = (false, s') -> s' = s;
}.

(** [resetAtomicEpoch]: compare-and-swap on a counter. *)
Record resetAtomicEpoch := { ae_epoch : Z }.

#[export] Instance atomic_epoch : ResetEpoch unit resetAtomicEpoch := {
  CurrentEpoch := ae_epoch;
  AdvanceEpoch := fun _ expected s => if decide (ae_epoch s = expected) then (true, {| ae_epoch := wrapu64 (expected + 1) |}) else (false, s);
}.

#[export] Instance atomic_epoch_laws : ResetEpochLaws unit resetAtomicEpoch.
Proof.
  split; cbn; intros _ expected s s'; destruct (decide _); try done; by intros [= <-].
Qed.

(** [listenerDriftResetEpoch]: the authority that a call was given, by identity, with its key
    and target, and the file it reads. *)
Record listenerDriftResetEpoch := { le_authority : nat; le_publicKey : string; le_target : string; le_resetFile : string }.

Record ListenerResetConfig := { lc_DetectDrift : bool; lc_ResetFile : string; lc_PublicKey : string; lc_Target : string }.

(** The fields of [mcpListenerClientStates] that a reset reads. The live configuration
    is [None] without a function that returns it, [Some None] if that returns nil. *)
Record listenerResetState := { lr_baseline : ToolBaseline; lr_resetAuthority : option nat; lr_toolCfg : option (option ListenerResetConfig) }.

Definition resetAuthorityConfigEnabled (cfg : option ListenerResetConfig) : bool :=
  match cfg with
  | None => false
  | Some cfg => lc_DetectDrift cfg && bool_decide (lc_ResetFile cfg <> "") && bool_decide (lc_PublicKey cfg <> "") && bool_decide (lc_Target cfg <> "")
  end.

Definition resetAuthorityMatchesToolConfig (e : listenerDriftResetEpoch) (cfg : option ListenerResetConfig) : bool :=
  match cfg with
  | None => false
  | Some c => resetAuthorityConfigEnabled cfg && bool_decide (lc_ResetFile c = le_resetFile e) && bool_decide (le_target e = lc_Target c) && bool_decide (le_publicKey e = lc_PublicKey c)
  end.

Definition advanceUpstreamDriftResetEpoch (e : listenerDriftResetEpoch) (expected : Z) (s : listenerResetState) : bool * listenerResetState :=
  if (match lr_toolCfg s with Some cfg => negb (resetAuthorityMatchesToolConfig e cfg) | None => false end) then (false, s)
  else if decide (lr_resetAuthority s <> Some (le_authority e)) then (false, s)
  else let (ok, tb) := ResetDriftStateAtEpoch expected (lr_baseline s) in
       (ok, {| lr_baseline := tb; lr_resetAuthority := lr_resetAuthority s; lr_toolCfg := lr_toolCfg s |}).

#[export] Instance listener_epoch : ResetEpoch listenerDriftResetEpoch listenerResetState := {
  CurrentEpoch := fun s => tb_driftEpoch (lr_baseline s);
  AdvanceEpoch := advanceUpstreamDriftResetEpoch;
}.

#[export] Instance listener_epoch_laws : ResetEpochLaws listenerDriftResetEpoch listenerResetState.
Proof.
  split; cbn; intros e expected s s'; unfold advanceUpstreamDriftResetEpoch, ResetDriftStateAtEpoch; destruct (match lr_toolCfg s with Some _ => _ | None => _ end);
    try (by intros [= <-]); destruct (decide (lr_resetAuthority s <> _)); try (by intros [= <-]); destruct (decide (tb_driftEpoch _ <> _)) as [|E]; try done.
  - intros [= <-]. apply dec_stable in E. cbn. by rewrite E.
  - intros [= <-]. by destruct s.
Qed.

(** ** Fields *)

(** One of CR, LF and NUL. *)
Definition controlByte (s : string) : bool :=
  Strings.ContainsByte s "013" || Strings.ContainsByte s "010" || Strings.ContainsByte s "000".

Definition validateResetTarget (target : string) : bool :=
  negb (bool_decide (Strings.TrimSpace target = "") || bool_decide (512 < String.length target)%nat || controlByte target).

Definition validateResetIssuer (issuer : string) : bool :=
  negb (bool_decide (Strings.TrimSpace issuer = "") || bool_decide (128 < String.length issuer)%nat || controlByte issuer).

(** Lower case throughout; a decoded text is ASCII. *)
Definition validateResetHex (value : string) : bool :=
  match Hex.DecodeString value with
  | Some decoded => bool_decide (String.length decoded = resetHexBytes) && bool_decide (Strings.ToLower id value = value)
  | None => false
  end.

(** ** Times *)

Definition unixToInternal : Z := 62135596800.
(** [time.Unix(sec, 0)] *)
Definition unixTime (sec : Z) : Z := wrap64 (sec + unixToInternal) * Time.second.
(** [t.Truncate(time.Second)] and [t.Unix()]. *)
Definition truncateSecond (t : Z) : Z := t - t mod Time.second.
Definition toUnix (t : Z) : Z := t / Time.second - unixToInternal.

Section authority.
(** [ed25519.Sign], [ed25519.Verify] and the public half of a private key; base64. *)
Context (Sign : string -> string -> string) (Verify : string -> string -> string -> bool) (Public : string -> string).
Context (b64Encode : string -> string) (b64Decode : string -> option string).
(** [signing.ParseFingerprint], [signing.Fingerprint], [signing.VerifyFingerprint],
    [signing.ValidatePrivateKeyConsistency]. *)
Context (ParseFingerprint : string -> bool) (Fingerprint : string -> option string) (VerifyFingerprint : string -> string -> bool) (ValidatePrivateKeyConsistency : string -> bool).
(** [json.Marshal] of the payload, [contract.DecodeStrictJSON]. *)
Context (MarshalPayload : ResetDelegation -> option string) (DecodeStrictJSON : string -> option ResetDelegation).

Definition PublicKeySize : nat := 32.
Definition PrivateKeySize : nat := 64.
Definition SignatureSize : nat := 64.

(** [None] is an error. *)
Definition signingInput (d : ResetDelegation) : option string :=
  if decide (SchemaVersion d <> resetDelegationSchemaVersion) then None
  else if decide (Purpose d <> PurposeMCPResetAuthority) then None
  else if negb (kindValid (Kind d)) then None
  else if negb (validateResetTarget (Target d)) then None
  else if negb (validateResetHex (InstanceID d)) then None
  else if negb (validateResetHex (Nonce d)) then None
  else if negb (validateResetIssuer (Issuer d)) then None
  else if negb (ParseFingerprint (IssuerFingerprint d)) then None
  else payload ← MarshalPayload (resetPayload d); Some (resetDelegationPrefix +:+ payload).

Definition decodeResetSignature (encoded : string) : option string :=
  if decide (encoded = "") then None
  else sig ← b64Decode encoded; if decide (String.length sig <> SignatureSize) then None else Some sig.

Definition VerifyResetDelegationSignature (publicKey : string) (d : ResetDelegation) : bool :=
  if decide (String.length publicKey <> PublicKeySize) then false
  else match signingInput d with
       | None => false
       | Some input => match decodeResetSignature (Signature d) with
                       | None => false
                       | Some sig => Verify publicKey input sig && VerifyFingerprint publicKey (IssuerFingerprint d)
                       end
       end.

Record ResetAuthority := {
  ra_publicKey : string;
  ra_target : string;
  ra_instanceID : string;
  ra_consumed : gmap string Z;
}.

(** The clock is an argument of the methods. *)
Definition newResetAuthority (publicKey target instanceID : string) : option ResetAuthority :=
  if decide (String.length publicKey <> PublicKeySize) then None
  else if negb (validateResetTarget target) then None
  else if negb (validateResetHex instanceID) then None
  else Some {| ra_publicKey := publicKey; ra_target := target; ra_instanceID := instanceID; ra_consumed := ∅ |}.

Definition verifyAt (a : ResetAuthority) (d : ResetDelegation) (kind : string) (epoch now : Z) : ResetAuthorityResult :=
  match signingInput d with
  | None => if decide (Purpose d <> PurposeMCPResetAuthority) then ResetAuthorityWrongPurpose else ResetAuthorityMalformed
  | Some _ =>
      let issued := unixTime (IssuedUnix d) in
      let expires := unixTime (ExpiresUnix d) in
      if decide (Signature d = "") then ResetAuthorityUnsigned
      else if negb (VerifyResetDelegationSignature (ra_publicKey a) d) then ResetAuthorityWrongKey
      else if decide (now + resetDelegationClockSkew < issued) then ResetAuthorityNotYetValid
      else if decide (expires <= now) then ResetAuthorityExpired
      else if decide (expires <= issued \/ resetDelegationMaxTTL < Time.sub expires issued) then ResetAuthorityMalformed
      else if decide (Kind d <> kind) then ResetAuthorityWrongKind
      else if decide (Target d <> ra_target a) then ResetAuthorityWrongTarget
      else if decide (InstanceID d <> ra_instanceID a) then ResetAuthorityWrongInstance
      else if decide (Epoch d <> epoch) then ResetAuthorityWrongEpoch
      else ResetAuthorityAccepted
  end.

(** [verify], with the clock read. *)
Definition verify (a : ResetAuthority) (d : ResetDelegation) (kind : string) (epoch clock : Z) : ResetAuthorityResult := verifyAt a d kind epoch (truncateSecond clock).

Definition with_consumed (consumed : gmap string Z) (a : ResetAuthority) : ResetAuthority :=
  {| ra_publicKey := ra_publicKey a; ra_target := ra_target a; ra_instanceID := ra_instanceID a; ra_consumed := consumed |}.

Definition purgeExpiredConsumedLocked (now : Z) (a : ResetAuthority) : ResetAuthority :=
  with_consumed (filter (fun e => now < e.2) (ra_consumed a)) a.

(** ** Files *)

Record FileInfo := { fi_symlink : bool; fi_regular : bool; fi_size : Z; fi_identity : Z }.
Inductive OSError := ErrNotExist | OtherError.
Inductive RemoveError := errResetPathChanged | RemoveFailed.

(** What the operating system answers during one call: the path before and after it is
    opened with the contents, the path before it is removed, and the removal. *)
Record World := {
  w_listed : result FileInfo OSError;
  w_opened : result (FileInfo * string) OSError;
  w_current : result FileInfo OSError;
  w_removed : bool;
  w_clock : Z;
}.

Definition readResetDelegationFile (w : World) : result (string * FileInfo) OSError :=
  match w_listed w with
  | Err e => Err e
  | Ok listed =>
      if fi_symlink listed || negb (fi_regular listed) then Err OtherError
      else match w_opened w with
           | Err e => Err e
           | Ok (opened, data) =>
               if negb (fi_regular opened) || negb (bool_decide (fi_identity listed = fi_identity opened)) then Err OtherError
               else if decide (resetDelegationMaxBytes < fi_size opened) then Err OtherError
               else if decide (resetDelegationMaxBytes < Z.of_nat (String.length data)) then Err OtherError
               else Ok (data, opened)
           end
  end.

Definition removeResetDelegationFile (w : World) (opened : FileInfo) : result unit RemoveError :=
  match w_current w with
  | Err _ => Err RemoveFailed
  | Ok current =>
      if fi_symlink current || negb (fi_regular current) || negb (bool_decide (fi_identity opened = fi_identity current)) then Err errResetPathChanged
      else if w_removed w then Ok tt else Err RemoveFailed
  end.

Definition resetReadResult (e : OSError) : ResetAuthorityResult := match e with ErrNotExist => ResetAuthorityAbsent | OtherError => ResetAuthorityUnreadable end.
Definition removeResetResult (e : RemoveError) : ResetAuthorityResult :=
  match e with errResetPathChanged => ResetAuthorityPathChanged | RemoveFailed => ResetAuthorityRemoveFailed end.

(** ** Consuming a delegation *)

Definition decisionOf (r : ResetAuthorityResult) (d : ResetDelegation) (target instanceID : string) (epoch : Z) : ResetAuthorityDecision :=
  {| Result := r; Delegation := d; ExpectedTarget := target; ExpectedInstanceID := instanceID; ExpectedEpoch := epoch |}.

(** The call up to the advance of the epoch: finished, or about to advance. *)
Inductive begun :=
| Finished (decision : ResetAuthorityDecision)
| Advancing (d : ResetDelegation) (expectedEpoch : Z).

Definition consumeBegin (path kind : string) (w : World) (currentEpoch : Z) (a : ResetAuthority) : begun * ResetAuthority :=
  let rejection r := Finished (decisionOf r emptyDelegation (ra_target a) (ra_instanceID a) currentEpoch) in
  if decide (Strings.TrimSpace path = "") then (Finished (decisionOf ResetAuthorityAbsent emptyDelegation "" "" 0), a)
  else match readResetDelegationFile w with
       | Err e => (rejection (resetReadResult e), a)
       | Ok (data, opened) =>
           match DecodeStrictJSON data with
           | None => (rejection ResetAuthorityMalformed, a)
           | Some d =>
               let finish r := Finished (decisionOf r d (ra_target a) (ra_instanceID a) currentEpoch) in
               let now := truncateSecond (w_clock w) in
               let a := purgeExpiredConsumedLocked now a in
               if decide (verifyAt a d kind currentEpoch now <> ResetAuthorityAccepted) then (finish (verifyAt a d kind currentEpoch now), a)
               else if decide (is_Some (ra_consumed a !! Nonce d)) then (finish ResetAuthorityReplayed, a)
               else if decide (maxResetConsumedNonces <= size (ra_consumed a))%nat then (finish ResetAuthorityCapacity, a)
               else match removeResetDelegationFile w opened with
                    | Err e => (finish (removeResetResult e), a)
                    | Ok _ => (Advancing d currentEpoch, a)
                    end
           end
       end.

Section epoch.
Context {Handle S : Type} `{ResetEpoch Handle S}.
(** [resetEpochBinding]: the live binding, if the implementation has one. *)
Context (CurrentBinding : S -> option (string * string * Z)).

Definition consumeAdvance (e : Handle) (d : ResetDelegation) (expectedEpoch : Z) (a : ResetAuthority) (s : S) : (ResetAuthorityDecision * ResetAuthority) * S :=
  let (ok, s) := AdvanceEpoch e expectedEpoch s in
  if ok : bool then
    (decisionOf ResetAuthorityAccepted d (ra_target a) (ra_instanceID a) expectedEpoch,
     with_consumed (<[Nonce d := unixTime (ExpiresUnix d)]> (ra_consumed a)) a, s)
  else
    let '(target, instanceID, epoch) := default (ra_target a, ra_instanceID a, CurrentEpoch s) (CurrentBinding s) in
    (decisionOf ResetAuthorityWrongEpoch d target instanceID epoch, a, s).

(** The whole call, when nothing else moves the epoch. *)
Definition ConsumeFile (e : Handle) (path kind : string) (w : World) (a : ResetAuthority) (s : S) : (ResetAuthorityDecision * ResetAuthority) * S :=
  match consumeBegin path kind w (CurrentEpoch s) a with
  | (Finished decision, a) => (decision, a, s)
  | (Advancing d expectedEpoch, a) => consumeAdvance e d expectedEpoch a s
  end.

(** ** Authorities that share an epoch *)

(** What an accepted reset was granted on. *)
Record grant := { gr_key : string; gr_target : string; gr_instance : string; gr_kind : string; gr_now : Z; gr_delegation : ResetDelegation }.

Definition grantOf (a : ResetAuthority) (kind : string) (now : Z) (d : ResetDelegation) : grant :=
  {| gr_key := ra_publicKey a; gr_target := ra_target a; gr_instance := ra_instanceID a; gr_kind := kind; gr_now := now; gr_delegation := d |}.

(** The epoch, the authorities (a reload makes a new one), the calls that are about to
    advance (at most one for each authority, which holds its lock), and the accepted resets,
    the newest last. *)
Record Resets := { rs_epoch : S; rs_authorities : gmap nat ResetAuthority; rs_advancing : gmap nat (grant * Z); rs_log : list grant }.

Inductive reset_step : Resets -> Resets -> Prop :=
| rs_new i publicKey target instanceID a s as_ adv log :
    as_ !! i = None -> newResetAuthority publicKey target instanceID = Some a ->
    reset_step {| rs_epoch := s; rs_authorities := as_; rs_advancing := adv; rs_log := log |}
               {| rs_epoch := s; rs_authorities := <[i := a]> as_; rs_advancing := adv; rs_log := log |}
| rs_finish i a a' path kind w decision s as_ adv log :
    as_ !! i = Some a -> adv !! i = None -> consumeBegin path kind w (CurrentEpoch s) a = (Finished decision, a') ->
    reset_step {| rs_epoch := s; rs_authorities := as_; rs_advancing := adv; rs_log := log |}
               {| rs_epoch := s; rs_authorities := <[i := a']> as_; rs_advancing := adv; rs_log := log |}
| rs_begin i a a' path kind w d expected s as_ adv log :
    as_ !! i = Some a -> adv !! i = None -> consumeBegin path kind w (CurrentEpoch s) a = (Advancing d expected, a') ->
    reset_step {| rs_epoch := s; rs_authorities := as_; rs_advancing := adv; rs_log := log |}
               {| rs_epoch := s; rs_authorities := <[i := a']> as_;
                  rs_advancing := <[i := (grantOf a kind (truncateSecond (w_clock w)) d, expected)]> adv; rs_log := log |}
| rs_advance e i a a' g expected decision s s' as_ adv log :
    as_ !! i = Some a -> adv !! i = Some (g, expected) -> consumeAdvance e (gr_delegation g) expected a s = (decision, a', s') ->
    reset_step {| rs_epoch := s; rs_authorities := as_; rs_advancing := adv; rs_log := log |}
               {| rs_epoch := s'; rs_authorities := <[i := a']> as_; rs_advancing := delete i adv;
                  rs_log := if decide (Result decision = ResetAuthorityAccepted) then log ++ [g] else log |}
| rs_other s s' as_ adv log :
    CurrentEpoch s' = CurrentEpoch s ->
    reset_step {| rs_epoch := s; rs_authorities := as_; rs_advancing := adv; rs_log := log |}
               {| rs_epoch := s'; rs_authorities := as_; rs_advancing := adv; rs_log := log |}.

Definition no_resets (s : S) : Resets := {| rs_epoch := s; rs_authorities := ∅; rs_advancing := ∅; rs_log := [] |}.

(** What a signature over the canonical input vouches for. *)
Definition authorised (g : grant) (epoch : Z) : Prop :=
  let d := gr_delegation g in
  (exists input sig, signingInput d = Some input /\ decodeResetSignature (Signature d) = Some sig /\ Verify (gr_key g) input sig = true) /\
  VerifyFingerprint (gr_key g) (IssuerFingerprint d) = true /\
  Kind d = gr_kind g /\ Target d = gr_target g /\ InstanceID d = gr_instance g /\ Epoch d = epoch /\
  unixTime (IssuedUnix d) <= gr_now g + resetDelegationClockSkew /\ gr_now g < unixTime (ExpiresUnix d) /\
  Time.sub (unixTime (ExpiresUnix d)) (unixTime (IssuedUnix d)) <= resetDelegationMaxTTL.

Lemma verifyAt_accepted a d kind epoch now : verifyAt a d kind epoch now = ResetAuthorityAccepted -> authorised (grantOf a kind now d) epoch.
Proof.
  unfold verifyAt, authorised, VerifyResetDelegationSignature. cbn [grantOf gr_key gr_target gr_instance gr_kind gr_now gr_delegation].
  destruct (signingInput d) as [input|] eqn:Ei; [|by destruct (decide _)]. destruct (decide (Signature d = "")) as [|_]; [done|].
  destruct (decide (String.length _ <> _)) as [|_]; [done|]. destruct (decodeResetSignature (Signature d)) as [sig|]; [|done].
  destruct (Verify _ _ _) eqn:Ev; [|done]. destruct (VerifyFingerprint _ _); [|done]. cbn [negb andb].
  do 7 (destruct (decide _) as [|?]; [done|]). intros _. split_and!; try done; try (by apply dec_stable); try lia. by exists input, sig.
Qed.

Lemma consumeBegin_advancing path kind w epoch a a' d expected :
  consumeBegin path kind w epoch a = (Advancing d expected, a') ->
  expected = epoch /\ authorised (grantOf a kind (truncateSecond (w_clock w)) d) epoch.
Proof.
  unfold consumeBegin. destruct (decide _) as [|_]; [done|]. destruct (readResetDelegationFile w) as [[data opened]|]; [|done].
  destruct (DecodeStrictJSON data) as [d'|]; [|done]. cbv zeta. destruct (decide (verifyAt _ _ _ _ _ <> _)) as [|E]; [done|]. destruct (decide (is_Some _)) as [|_]; [done|].
  destruct (decide (_ <= _)%nat) as [|_]; [done|]. destruct (removeResetDelegationFile w opened); [|done]. intros [= <- <- <-]. split; [done|].
  apply dec_stable in E. by apply verifyAt_accepted in E.
Qed.
Record reset_inv (s0 : S) (r : Resets) : Prop := {
  ri_epoch : CurrentEpoch (rs_epoch r) = wrapu64 (CurrentEpoch s0 + Z.of_nat (length (rs_log r)));
  ri_log : forall k g, rs_log r !! k = Some g -> authorised g (wrapu64 (CurrentEpoch s0 + Z.of_nat k));
  ri_advancing : forall i g expected, rs_advancing r !! i = Some (g, expected) -> authorised g expected;
}.

Lemma reset_step_inv `{!ResetEpochLaws Handle S} s0 r r' : reset_step r r' -> reset_inv s0 r -> reset_inv s0 r'.
Proof.
  intros Hstep [He Hl Ha]. destruct Hstep as [|i a a' path kind w decision s as_ adv log|i a a' path kind w d expected s as_ adv log _ Hi E
    |e i a a' g expected decision s s' as_ adv log _ Hi E|s s' as_ adv log E]; cbn [rs_epoch rs_log rs_advancing] in *.
  - by split.
  - by split.
  - split; cbn [rs_epoch rs_log rs_advancing]; [done..|]. apply consumeBegin_advancing in E as [-> E].
    intros j g e. rewrite lookup_insert_Some. intros [[<- [= <- <-]]|[_ ?]]; [done|by eapply Ha].
  - assert (forall j g e, delete i adv !! j = Some (g, e) -> authorised g e) as Ha' by (intros j g' x [_ ?]%lookup_delete_Some; by eapply Ha).
    unfold consumeAdvance in E. destruct (AdvanceEpoch e expected s) as [ok s1] eqn:Eadv. destruct ok.
    + injection E as <- <- <-. cbn [Result decisionOf]. rewrite decide_True by done. apply AdvanceEpoch_true in Eadv as [Ecur Enext].
      split; cbn [rs_epoch rs_log rs_advancing]; [|intros k g'|done].
      * rewrite Enext, <- Ecur, He, wrapu64_succ, length_app. cbn. f_equal. lia.
      * intros [Hk|[Hk Hg]]%lookup_app_Some; [by apply Hl|]. apply list_lookup_singleton_Some in Hg as [Hk' <-].
        assert (k = length log) as -> by lia. rewrite <- He, Ecur. by eapply Ha.
    + destruct (default _ _) as [[target instanceID] epoch]. injection E as <- <- <-. cbn [Result decisionOf]. rewrite decide_False by done.
      apply AdvanceEpoch_false in Eadv as ->. by split.
  - split; cbn [rs_epoch rs_log rs_advancing]; [by rewrite E|done..].
Qed.

(** C15: a reset is spent once. However the calls of the authorities that share an epoch
    interleave, and however often an authority is replaced: the epoch has
    moved by exactly one for each accepted reset; the k-th accepted delegation is
    signed, under the key of its authority, for its kind, target and process and for exactly the
    k-th epoch, and was inside its time window; and no delegation is
    accepted twice while the 64-bit epoch has not gone round. *)
Theorem reset_spent_once `{!ResetEpochLaws Handle S} s0 r :
  in_uint64 (CurrentEpoch s0) -> rtc reset_step (no_resets s0) r ->
  CurrentEpoch (rs_epoch r) = wrapu64 (CurrentEpoch s0 + Z.of_nat (length (rs_log r))) /\
  (forall k g, rs_log r !! k = Some g -> authorised g (wrapu64 (CurrentEpoch s0 + Z.of_nat k))) /\
  (Z.of_nat (length (rs_log r)) <= 2 ^ 64 -> NoDup (gr_delegation <$> rs_log r)).
Proof.
  intros Hs0 Hr. assert (reset_inv s0 r) as [He Hl _].
  { refine (rtc_ind_r (reset_inv s0) _ _ _ r Hr); [|intros x y _ Hxy; by apply reset_step_inv]. split; cbn; try done.
    by rewrite Z.add_0_r, wrapu64_id. }
  split_and!; [done|done|]. intros Hlen. apply NoDup_alt. intros i j d Hi Hj.
  rewrite list_lookup_fmap, fmap_Some in Hi, Hj. destruct Hi as (gi & Hi & ->), Hj as (gj & Hj & Hd).
  apply lookup_lt_Some in Hi as Hi', Hj as Hj'. apply Hl in Hi as (_ & _ & _ & _ & _ & Ei & _). apply Hl in Hj as (_ & _ & _ & _ & _ & Ej & _).
  rewrite Hd, Ej in Ei. unfold wrapu64 in Ei. symmetry in Ei. apply (f_equal (fun z => (z - CurrentEpoch s0) mod 2 ^ 64)) in Ei.
  rewrite !Zminus_mod_idemp_l in Ei. replace (CurrentEpoch s0 + Z.of_nat i - CurrentEpoch s0) with (Z.of_nat i) in Ei by lia.
  replace (CurrentEpoch s0 + Z.of_nat j - CurrentEpoch s0) with (Z.of_nat j) in Ei by lia. rewrite !Z.mod_small in Ei by lia. lia.
Qed.
End epoch.

(** ** Minting *)

Record ResetDelegationRequest := {
  rq_Issuer : string; rq_Kind : string; rq_Target : string; rq_InstanceID : string; rq_Epoch : Z; rq_IssuedAt : Z; rq_ExpiresAt : Z; rq_Nonce : string;
}.

Definition mintedOf (req : ResetDelegationRequest) (fingerprint : string) : ResetDelegation :=
  {| SchemaVersion := resetDelegationSchemaVersion; Purpose := PurposeMCPResetAuthority; Kind := rq_Kind req; Target := rq_Target req;
     InstanceID := rq_InstanceID req; Epoch := rq_Epoch req; IssuedUnix := toUnix (truncateSecond (rq_IssuedAt req));
     ExpiresUnix := toUnix (truncateSecond (rq_ExpiresAt req)); Nonce := rq_Nonce req; Issuer := rq_Issuer req;
     IssuerFingerprint := fingerprint; Signature := "" |}.

Definition signed (d : ResetDelegation) (signature : string) : ResetDelegation :=
  {| SchemaVersion := SchemaVersion d; Purpose := Purpose d; Kind := Kind d; Target := Target d; InstanceID := InstanceID d; Epoch := Epoch d;
     IssuedUnix := IssuedUnix d; ExpiresUnix := ExpiresUnix d; Nonce := Nonce d; Issuer := Issuer d; IssuerFingerprint := IssuerFingerprint d; Signature := signature |}.

Definition MintResetDelegation (privateKey : string) (req : ResetDelegationRequest) : option ResetDelegation :=
  if decide (String.length privateKey <> PrivateKeySize) then None
  else if negb (ValidatePrivateKeyConsistency privateKey) then None
  else if negb (kindValid (rq_Kind req)) then None
  else if negb (validateResetTarget (rq_Target req)) then None
  else if negb (validateResetHex (rq_InstanceID req)) then None
  else if negb (validateResetHex (rq_Nonce req)) then None
  else if negb (validateResetIssuer (rq_Issuer req)) then None
  else
    let issuedAt := truncateSecond (rq_IssuedAt req) in
    let expiresAt := truncateSecond (rq_ExpiresAt req) in
    if decide (expiresAt <= issuedAt \/ resetDelegationMaxTTL < Time.sub expiresAt issuedAt) then None
    else fingerprint ← Fingerprint (Public privateKey);
         let d := mintedOf req fingerprint in
         input ← signingInput d;
         Some (signed d (b64Encode (Sign privateKey input))).

(** [json.Marshal] of the envelope is an argument. *)
Definition MarshalResetDelegation (Marshal : ResetDelegation -> option string) (d : ResetDelegation) : option string :=
  match signingInput d, decodeResetSignature (Signature d) with
  | Some _, Some _ => raw_ ← Marshal d; Some (raw_ +:+ String "010" "")
  | _, _ => None
  end.

Definition ParseResetDelegation (data : string) : option ResetDelegation :=
  d ← DecodeStrictJSON data; match signingInput d with Some _ => Some d | None => None end.

(** Times whose seconds fit the field. *)
Definition representable (t : Z) : Prop := in_int64 (t / Time.second).

Lemma unixTime_toUnix t : representable t -> unixTime (toUnix (truncateSecond t)) = truncateSecond t.
Proof.
  intros Ht. unfold unixTime, toUnix, truncateSecond, representable in *. assert (0 < Time.second) as Hs by (unfold Time.second; lia).
  assert ((t - t mod Time.second) / Time.second = t / Time.second) as ->.
  { rewrite (Z.div_mod t Time.second) at 1 by lia. replace (Time.second * (t / Time.second) + t mod Time.second - t mod Time.second) with ((t / Time.second) * Time.second) by lia.
    by rewrite Z.div_mul by lia. }
  replace (t / Time.second - unixToInternal + unixToInternal) with (t / Time.second) by lia. rewrite wrap64_id by done. pose proof (Z.div_mod t Time.second). lia.
Qed.

End authority.

(** ** Examples *)

Fixpoint zeros (n : nat) : string := match n with O => "" | S n => String "0" (zeros n) end.

Definition demo_key : string := zeros 32.
Definition demo_sig : string := zeros 64.
Definition demo_Verify (key input sig : string) : bool := bool_decide (sig = demo_sig).
Definition demo_hex : string := zeros 32.

Definition demo_delegation : ResetDelegation :=
  {| SchemaVersion := 1; Purpose := PurposeMCPResetAuthority; Kind := ResetKindDrift; Target := "listener"; InstanceID := demo_hex; Epoch := 0;
     IssuedUnix := 1000; ExpiresUnix := 1300; Nonce := demo_hex; Issuer := "operator"; IssuerFingerprint := "f"; Signature := demo_sig |}.

Definition demo_file : FileInfo := {| fi_symlink := false; fi_regular := true; fi_size := 10; fi_identity := 1 |}.
Definition demo_world : World := {| w_listed := Ok demo_file; w_opened := Ok (demo_file, "{}"); w_current := Ok demo_file; w_removed := true; w_clock := unixTime 1010 |}.

Definition demo_authority (consumed : gmap string Z) : ResetAuthority := {| ra_publicKey := demo_key; ra_target := "listener"; ra_instanceID := demo_hex; ra_consumed := consumed |}.
Definition demo_listener : listenerResetState := {| lr_baseline := NewToolBaseline; lr_resetAuthority := Some 0%nat; lr_toolCfg := None |}.
Definition demo_handle : listenerDriftResetEpoch := {| le_authority := 0; le_publicKey := demo_key; le_target := "listener"; le_resetFile := "/reset" |}.

Definition demo_step : Resets (S := listenerResetState) -> Resets (S := listenerResetState) -> Prop :=
  reset_step demo_Verify Some (fun _ => true) (fun _ _ => true) (fun _ => Some "p") (fun _ => Some demo_delegation) (Handle := listenerDriftResetEpoch) (fun _ => None).

Definition demo_grant : grant := grantOf (demo_authority ∅) ResetKindDrift (unixTime 1010) demo_delegation.
Definition demo_reset : Resets (S := listenerResetState) :=
  {| rs_epoch := {| lr_baseline := resetDriftStateLocked NewToolBaseline; lr_resetAuthority := Some 0%nat; lr_toolCfg := None |};
     rs_authorities := {[0%nat := demo_authority {[demo_hex := unixTime 1300]}]}; rs_advancing := ∅; rs_log := [demo_grant] |}.

Lemma demo_reset_reachable : rtc demo_step (no_resets demo_listener) demo_reset.
Proof.
  eapply rtc_l; [apply (rs_new _ _ _ _ _ _ _ 0%nat demo_key "listener" demo_hex (demo_authority ∅)); [done|vm_compute; reflexivity]|].
  eapply rtc_l; [apply (rs_begin _ _ _ _ _ _ _ 0%nat (demo_authority ∅) (demo_authority ∅) "/reset" ResetKindDrift demo_world demo_delegation 0); [vm_compute; reflexivity|done|vm_compute; reflexivity]|].
  eapply rtc_l; [eapply (rs_advance _ _ _ _ _ _ _ demo_handle 0%nat (demo_authority ∅) _ demo_grant 0); vm_compute; reflexivity|].
  match goal with |- rtc _ ?x ?y => assert (x = y) as -> by (vm_compute; reflexivity) end. apply rtc_refl.
Qed.

Lemma reset_spent_once_witness : rtc demo_step (no_resets demo_listener) demo_reset /\ tb_driftEpoch (lr_baseline (rs_epoch demo_reset)) = wrapu64 (0 + 1).
Proof.
  split; [exact demo_reset_reachable|].
  assert (in_uint64 (CurrentEpoch demo_listener)) as H0 by (unfold in_uint64; cbn; lia).
  destruct (reset_spent_once demo_Verify Some (fun _ => true) (fun _ _ => true) (fun _ => Some "p") (fun _ => Some demo_delegation) (fun _ => None)
    demo_listener demo_reset H0 demo_reset_reachable) as (H & _ & _). exact H.
Defined.

Definition demo_request : ResetDelegationRequest :=
  {| rq_Issuer := "operator"; rq_Kind := ResetKindDrift; rq_Target := "listener"; rq_InstanceID := demo_hex; rq_Epoch := 0;
     rq_IssuedAt := unixTime 1000; rq_ExpiresAt := unixTime 1300; rq_Nonce := demo_hex |}.


(** A reset that was spent cannot be spent again, nor after the listener replaced the
    authority. *)
Example spent_delegation_refused :
  let consume := ConsumeFile demo_Verify Some (fun _ => true) (fun _ _ => true) (fun _ => Some "p") (fun _ => Some demo_delegation) (fun _ => None) demo_handle "/reset" ResetKindDrift demo_world in
  let '(first, a, s) := consume (demo_authority ∅) demo_listener in
  Result first = ResetAuthorityAccepted /\ Result (consume a s).1.1 = ResetAuthorityWrongEpoch /\
  Result (consume (demo_authority ∅) {| lr_baseline := NewToolBaseline; lr_resetAuthority := Some 1%nat; lr_toolCfg := None |}).1.1 = ResetAuthorityWrongEpoch.
Proof. by vm_compute. Qed.
