(* ===== verification/Listener.v ===== *)
(** * The clients of an MCP HTTP listener

    [internal/mcp/mcp_http_listener_state.go]: the registry of client states, which holds at
    most 4096, keeps the states of authenticated principals, and lets a removed
    state commit nothing more.

    A state is a shared object: the registry maps keys to addresses, requests hold
    addresses, and the heap has the states. The registry's mutex makes each locked
    section one step; what a method does after it unlocks ([revokeRemoved]) is steps
    of their own. The clock and the order in which Go ranges over the map are
    arguments or arbitrary.

    The keyed hash and the random tokens are arguments. *)

From S2P Require Import Prelude ToolBaseline.
Local Open Scope Z_scope.

Definition maxMCPListenerClients : nat := Z.to_nat 4096.
Definition listenerPrincipalIdleTTL : Z := 24 * 60 * Time.minute.
Definition listenerLegacyIdleTTL : Z := 24 * 60 * Time.minute.
Definition listenerDegradationReportInterval : Z := Time.minute.
Definition bearerSet : string := "listener-bearer-v1".

Inductive Trust := DoWTrustPrincipal | DoWTrustAgent.

Record mcpListenerPrincipal := { pr_key : string; pr_billingKey : string; pr_exclusiveSet : string; pr_trust : option Trust }.

Definition noPrincipal : mcpListenerPrincipal := {| pr_key := ""; pr_billingKey := ""; pr_exclusiveSet := ""; pr_trust := None |}.

Record mcpListenerClientState := {
  cs_token : string;
  cs_key : string;
  cs_principalSet : string;
  cs_principal : bool;
  cs_baseline : ToolBaseline;
  cs_recorder : option nat;
  cs_lastAccessed : Z;
  cs_lastActive : Z;
  cs_inFlight : Z;
  cs_revoked : bool;
}.

(** ** Reports of degraded requests *)

Record mcpListenerDegradationReporter := { dg_pending : Z; dg_lastReported : Z; dg_interval : Z }.

Definition newMCPListenerDegradationReporter (interval : Z) : mcpListenerDegradationReporter :=
  {| dg_pending := 0; dg_lastReported := Time.zero; dg_interval := if decide (interval <= 0) then listenerDegradationReportInterval else interval |}.

(** The counter saturates. *)
Definition observe (now : Z) (r : mcpListenerDegradationReporter) : (Z * bool) * mcpListenerDegradationReporter :=
  let pending := if decide (dg_pending r <> 2 ^ 64 - 1) then dg_pending r + 1 else dg_pending r in
  if decide (dg_lastReported r <> Time.zero /\ Time.sub now (dg_lastReported r) < dg_interval r)
  then (0, false, {| dg_pending := pending; dg_lastReported := dg_lastReported r; dg_interval := dg_interval r |})
  else (pending, true, {| dg_pending := 0; dg_lastReported := now; dg_interval := dg_interval r |}).

(** ** The registry *)

Record mcpListenerClientStates := {
  ls_clients : gmap string nat;
  ls_heap : gmap nat mcpListenerClientState;
  ls_clock : Z;
  ls_store : option (gmap string nat);
  ls_nextRecorder : nat;
  ls_activeBearer : option string;
  ls_activeBearerPrincipal : string;
  ls_admittedBearerPrincipal : string;
  ls_bearerGeneration : Z;
}.

Definition newMCPListenerClientStates (store : option (gmap string nat)) : mcpListenerClientStates :=
  {| ls_clients := ∅; ls_heap := ∅; ls_clock := 0; ls_store := store; ls_nextRecorder := 0; ls_activeBearer := None;
     ls_activeBearerPrincipal := ""; ls_admittedBearerPrincipal := ""; ls_bearerGeneration := 0 |}.

Definition with_clients (clients : gmap string nat) (admitted : string) (s : mcpListenerClientStates) : mcpListenerClientStates :=
  {| ls_clients := clients; ls_heap := ls_heap s; ls_clock := ls_clock s; ls_store := ls_store s; ls_nextRecorder := ls_nextRecorder s;
     ls_activeBearer := ls_activeBearer s; ls_activeBearerPrincipal := ls_activeBearerPrincipal s; ls_admittedBearerPrincipal := admitted;
     ls_bearerGeneration := ls_bearerGeneration s |}.
Definition with_heap (heap : gmap nat mcpListenerClientState) (clock : Z) (s : mcpListenerClientStates) : mcpListenerClientStates :=
  {| ls_clients := ls_clients s; ls_heap := heap; ls_clock := clock; ls_store := ls_store s; ls_nextRecorder := ls_nextRecorder s;
     ls_activeBearer := ls_activeBearer s; ls_activeBearerPrincipal := ls_activeBearerPrincipal s; ls_admittedBearerPrincipal := ls_admittedBearerPrincipal s;
     ls_bearerGeneration := ls_bearerGeneration s |}.
Definition with_store (store : option (gmap string nat)) (next : nat) (s : mcpListenerClientStates) : mcpListenerClientStates :=
  {| ls_clients := ls_clients s; ls_heap := ls_heap s; ls_clock := ls_clock s; ls_store := store; ls_nextRecorder := next;
     ls_activeBearer := ls_activeBearer s; ls_activeBearerPrincipal := ls_activeBearerPrincipal s; ls_admittedBearerPrincipal := ls_admittedBearerPrincipal s;
     ls_bearerGeneration := ls_bearerGeneration s |}.
Definition with_bearer (active : option string) (principal : string) (generation : Z) (s : mcpListenerClientStates) : mcpListenerClientStates :=
  {| ls_clients := ls_clients s; ls_heap := ls_heap s; ls_clock := ls_clock s; ls_store := ls_store s; ls_nextRecorder := ls_nextRecorder s;
     ls_activeBearer := active; ls_activeBearerPrincipal := principal; ls_admittedBearerPrincipal := ls_admittedBearerPrincipal s;
     ls_bearerGeneration := generation |}.

Definition touched (clock now : Z) (st : mcpListenerClientState) : mcpListenerClientState :=
  {| cs_token := cs_token st; cs_key := cs_key st; cs_principalSet := cs_principalSet st; cs_principal := cs_principal st; cs_baseline := cs_baseline st;
     cs_recorder := cs_recorder st; cs_lastAccessed := clock; cs_lastActive := now; cs_inFlight := cs_inFlight st; cs_revoked := cs_revoked st |}.
Definition with_recorder (recorder : option nat) (st : mcpListenerClientState) : mcpListenerClientState :=
  {| cs_token := cs_token st; cs_key := cs_key st; cs_principalSet := cs_principalSet st; cs_principal := cs_principal st; cs_baseline := cs_baseline st;
     cs_recorder := recorder; cs_lastAccessed := cs_lastAccessed st; cs_lastActive := cs_lastActive st; cs_inFlight := cs_inFlight st; cs_revoked := cs_revoked st |}.
Definition with_inFlight (inFlight : Z) (st : mcpListenerClientState) : mcpListenerClientState :=
  {| cs_token := cs_token st; cs_key := cs_key st; cs_principalSet := cs_principalSet st; cs_principal := cs_principal st; cs_baseline := cs_baseline st;
     cs_recorder := cs_recorder st; cs_lastAccessed := cs_lastAccessed st; cs_lastActive := cs_lastActive st; cs_inFlight := inFlight; cs_revoked := cs_revoked st |}.
Definition revokedState (st : mcpListenerClientState) : mcpListenerClientState :=
  {| cs_token := cs_token st; cs_key := cs_key st; cs_principalSet := cs_principalSet st; cs_principal := cs_principal st; cs_baseline := cs_baseline st;
     cs_recorder := cs_recorder st; cs_lastAccessed := cs_lastAccessed st; cs_lastActive := cs_lastActive st; cs_inFlight := cs_inFlight st; cs_revoked := true |}.

Definition newMCPListenerClientState (token key principalSet : string) (principal : bool) : mcpListenerClientState :=
  {| cs_token := token; cs_key := key; cs_principalSet := principalSet; cs_principal := principal; cs_baseline := NewToolBaseline; cs_recorder := None;
     cs_lastAccessed := 0; cs_lastActive := Time.zero; cs_inFlight := 0; cs_revoked := false |}.

(** [touchLocked] *)
Definition touchLocked (now : Z) (id : nat) (s : mcpListenerClientStates) : mcpListenerClientStates :=
  let clock := wrapu64 (ls_clock s + 1) in with_heap (alter (touched clock now) id (ls_heap s)) clock s.

(** [s.store.GetOrCreate], if there is a store: recorders are numbered. *)
Definition getRecorder (key : string) (s : mcpListenerClientStates) : option nat * mcpListenerClientStates :=
  match ls_store s with
  | None => (None, s)
  | Some store =>
      match store !! key with
      | Some r => (Some r, s)
      | None => (Some (ls_nextRecorder s), with_store (Some (<[key := ls_nextRecorder s]> store)) (S (ls_nextRecorder s)) s)
      end
  end.

Definition deleteRecorder (key : string) (s : mcpListenerClientStates) : mcpListenerClientStates :=
  match ls_store s with None => s | Some store => with_store (Some (delete key store)) (ls_nextRecorder s) s end.

(** The entries that satisfy a test leave the registry. *)
Definition expiredPrincipal (now : Z) (st : mcpListenerClientState) : bool :=
  cs_principal st && bool_decide (cs_inFlight st = 0) && negb (bool_decide (now - listenerPrincipalIdleTTL < cs_lastActive st)).
Definition expiredLegacy (now : Z) (st : mcpListenerClientState) : bool :=
  negb (cs_principal st) && bool_decide (cs_inFlight st = 0) && negb (bool_decide (now - listenerLegacyIdleTTL < cs_lastActive st)).

Definition entryIs (test : mcpListenerClientState -> bool) (s : mcpListenerClientStates) (e : string * nat) : Prop :=
  match ls_heap s !! e.2 with Some st => test st = true | None => False end.

#[export] Instance entryIs_dec test s e : Decision (entryIs test s e).
Proof. unfold entryIs. destruct (ls_heap s !! e.2); apply _. Defined.

Definition purgeExpiredPrincipalsLocked (now : Z) (s : mcpListenerClientStates) : list nat * mcpListenerClientStates :=
  let gone := filter (entryIs (expiredPrincipal now) s) (map_to_list (ls_clients s)) in
  (gone.*2, with_clients (filter (fun e => ~ entryIs (expiredPrincipal now) s e) (ls_clients s))
              (if decide (ls_admittedBearerPrincipal s ∈ gone.*1) then "" else ls_admittedBearerPrincipal s) s).

Definition purgeExpiredLegacyLocked (now : Z) (s : mcpListenerClientStates) : list nat * mcpListenerClientStates :=
  let gone := filter (entryIs (expiredLegacy now) s) (map_to_list (ls_clients s)) in
  (gone.*2, with_clients (filter (fun e => ~ entryIs (expiredLegacy now) s e) (ls_clients s)) (ls_admittedBearerPrincipal s) s).

(** The loop that looks for the least recently used legacy state; [""] is no key yet. *)
Fixpoint oldestLegacy (s : mcpListenerClientStates) (entries : list (string * nat)) (oldestKey : string) (oldest : Z) : string :=
  match entries with
  | [] => oldestKey
  | (key, id) :: entries =>
      match ls_heap s !! id with
      | Some st =>
          if cs_principal st then oldestLegacy s entries oldestKey oldest
          else if decide (oldestKey = "" \/ cs_lastAccessed st < oldest) then oldestLegacy s entries key (cs_lastAccessed st)
          else oldestLegacy s entries oldestKey oldest
      | None => oldestLegacy s entries oldestKey oldest
      end
  end.

Definition removeOldestLegacyLocked (s : mcpListenerClientStates) : list nat * mcpListenerClientStates :=
  let oldestKey := oldestLegacy s (map_to_list (ls_clients s)) "" 0 in
  if decide (oldestKey = "") then ([], s)
  else (match ls_clients s !! oldestKey with Some id => [id] | None => [] end, with_clients (delete oldestKey (ls_clients s)) (ls_admittedBearerPrincipal s) s).

Definition full (s : mcpListenerClientStates) : bool := bool_decide (maxMCPListenerClients <= size (ls_clients s))%nat.

(** Room for a principal: expired principals go, then expired legacy states, then the
    oldest legacy state. *)
Definition roomForPrincipal (now : Z) (s : mcpListenerClientStates) : list nat * mcpListenerClientStates :=
  let (r1, s) := if full s then let (a, s) := purgeExpiredPrincipalsLocked now s in let (b, s) := purgeExpiredLegacyLocked now s in (a ++ b, s) else ([], s) in
  let (r2, s) := if full s then removeOldestLegacyLocked s else ([], s) in
  (r1 ++ r2, s).

(** Room for a legacy state. *)
Definition roomForLegacy (now : Z) (s : mcpListenerClientStates) : list nat * mcpListenerClientStates :=
  if full s then
    let (r1, s) := purgeExpiredLegacyLocked now s in
    let (r2, s) := if full s then removeOldestLegacyLocked s else ([], s) in
    (r1 ++ r2, s)
  else ([], s).

(** A new state at the address [id] gets its recorder, is touched and registered. *)
Definition register (now : Z) (id : nat) (st : mcpListenerClientState) (admitted : string) (s : mcpListenerClientStates) : mcpListenerClientStates :=
  let (recorder, s) := getRecorder (cs_key st) s in
  let st := match ls_store s with Some _ => with_recorder recorder st | None => st end in
  let s := touchLocked now id (with_heap (<[id := st]> (ls_heap s)) (ls_clock s) s) in
  with_clients (<[cs_key st := id]> (ls_clients s)) admitted s.

(** The registered state of a key that is not revoked. *)
Definition registered (key : string) (s : mcpListenerClientStates) : option (nat * mcpListenerClientState) :=
  id ← ls_clients s !! key; st ← ls_heap s !! id; if cs_revoked st then None else Some (id, st).

Inductive served := Refused | Served (id : nat) | Again.

(** The locked section of [stateForPrincipal]; a new state goes to the address [fresh].
    [Again]: the idle state was removed and the method calls itself. *)
Definition stateForPrincipal (now : Z) (fresh : nat) (p : mcpListenerPrincipal) (s : mcpListenerClientStates) : (served * list nat) * mcpListenerClientStates :=
  if decide (pr_key p = "") then (Refused, [], s)
  else if decide (pr_exclusiveSet p = bearerSet /\ pr_key p <> ls_activeBearerPrincipal s) then (Refused, [], s)
  else
    let oldKey := ls_admittedBearerPrincipal s in
    let (removed, s) :=
      if decide (pr_exclusiveSet p <> "" /\ oldKey <> "" /\ oldKey <> pr_key p)
      then (match ls_clients s !! oldKey with Some id => [id] | None => [] end, with_clients (delete oldKey (ls_clients s)) "" s)
      else ([], s) in
    match registered (pr_key p) s with
    | Some (id, st) =>
        if expiredPrincipal now st
        then (Again, removed ++ [id],
              with_clients (delete (pr_key p) (ls_clients s)) (if decide (ls_admittedBearerPrincipal s = pr_key p) then "" else ls_admittedBearerPrincipal s) s)
        else (Served id, removed, touchLocked now id s)
    | None =>
        let (more, s) := roomForPrincipal now s in
        if full s then (Refused, removed ++ more, s)
        else (Served fresh, removed ++ more,
              register now fresh (newMCPListenerClientState "" (pr_key p) (pr_exclusiveSet p) true)
                (if decide (pr_exclusiveSet p = bearerSet) then pr_key p else ls_admittedBearerPrincipal s) s)
    end.

(** The key is [mcpListenerStateKey] of the session header; [Refused] stands for a
    transient state. *)
Definition stateForLegacySession (now : Z) (fresh : nat) (key : string) (s : mcpListenerClientStates) : (served * list nat) * mcpListenerClientStates :=
  match registered key s with
  | Some (id, _) => (Served id, [], touchLocked now id s)
  | None =>
      let (removed, s) := roomForLegacy now s in
      if full s then (Refused, removed, s)
      else (Served fresh, removed, register now fresh (newMCPListenerClientState "" key "" false) (ls_admittedBearerPrincipal s) s)
  end.

Definition stateForToken (now : Z) (key : string) (s : mcpListenerClientStates) : served * mcpListenerClientStates :=
  match registered key s with Some (id, _) => (Served id, touchLocked now id s) | None => (Refused, s) end.

(** [newSetupState]: on the heap, not in the registry. *)
Definition newSetupState (token key : string) (fresh : nat) (s : mcpListenerClientStates) : mcpListenerClientStates :=
  with_heap (<[fresh := newMCPListenerClientState token key "" false]> (ls_heap s)) (ls_clock s) s.

Definition admitSetup (now : Z) (id : nat) (s : mcpListenerClientStates) : (bool * list nat) * mcpListenerClientStates :=
  match ls_heap s !! id with
  | None => (false, [], s)
  | Some st =>
      if decide (cs_token st = "" \/ cs_revoked st = true) then (false, [], s)
      else if decide (is_Some (ls_clients s !! cs_key st)) then (false, [], s)
      else let (removed, s) := roomForLegacy now s in
           if full s then (false, removed, s) else (true, removed, register now id st (ls_admittedBearerPrincipal s) s)
  end.

Definition forgetKey (key : string) (s : mcpListenerClientStates) : list nat * mcpListenerClientStates :=
  match ls_clients s !! key with
  | None => ([], s)
  | Some id => ([id], with_clients (delete key (ls_clients s)) (if decide (ls_admittedBearerPrincipal s = key) then "" else ls_admittedBearerPrincipal s) s)
  end.

(** One round of [revokeRemoved]: [revoke] waits for a commit, then the recorder goes. *)
Definition revoke (id : nat) (s : mcpListenerClientStates) : mcpListenerClientStates := with_heap (alter revokedState id (ls_heap s)) (ls_clock s) s.

Definition revokeRemovedOne (id : nat) (s : mcpListenerClientStates) : mcpListenerClientStates :=
  match ls_heap s !! id with None => s | Some st => deleteRecorder (cs_key st) (revoke id s) end.

(** [requestContext] and the function it returns. *)
Definition beginRequest (id : nat) (s : mcpListenerClientStates) : mcpListenerClientStates :=
  with_heap (alter (fun st => with_inFlight (cs_inFlight st + 1) st) id (ls_heap s)) (ls_clock s) s.
Definition endRequest (id : nat) (s : mcpListenerClientStates) : mcpListenerClientStates :=
  with_heap (alter (fun st => with_inFlight (cs_inFlight st - 1) st) id (ls_heap s)) (ls_clock s) s.

(** [commitIfActive]: whether the commit runs. *)
Definition commitIfActive (id : nat) (s : mcpListenerClientStates) : bool :=
  match ls_heap s !! id with Some st => negb (cs_revoked st) | None => false end.

(** [newUnboundState] and [discardUnboundState]: outside the registry. *)
Definition newUnboundState (key : string) (fresh : nat) (s : mcpListenerClientStates) : mcpListenerClientStates :=
  let (recorder, s) := getRecorder key s in
  with_heap (<[fresh := with_recorder recorder (newMCPListenerClientState "" key "" false)]> (ls_heap s)) (ls_clock s) s.

Definition discardUnboundState (id : nat) (s : mcpListenerClientStates) : mcpListenerClientStates :=
  match ls_heap s !! id with
  | None => s
  | Some st => if decide (cs_token st <> "") then s else deleteRecorder (cs_key st) (revoke id s)
  end.

(** ** Keys *)

Definition principalPrefix : string := "mcp-http-listener-principal:".
Definition legacyPrefix : string := "mcp-http-listener:".
Definition billingPrefix : string := "mcp-http-listener-billing:".
Definition NUL : string := String "000" "".

Section keys.
(** SHA-256 in hexadecimal, the HMAC under the secret of the process in hexadecimal,
    and the bytes of a hexadecimal text. *)
Context (sha256hex mac : string -> string) (unhex : string -> string).

Definition mcpListenerStateKey (sessionID : string) : string := legacyPrefix +:+ sha256hex sessionID.

Definition principal (provider subject : string) (epoch : Z) : mcpListenerPrincipal :=
  if decide (provider = "" \/ subject = "") then noPrincipal
  else {| pr_key := principalPrefix +:+ mac (provider +:+ NUL +:+ subject +:+ NUL +:+ pretty epoch);
          pr_billingKey := billingPrefix +:+ mac ("listener-principal-billing-v1" +:+ NUL +:+ provider +:+ NUL +:+ subject);
          pr_exclusiveSet := ""; pr_trust := Some DoWTrustPrincipal |}.

(** A new bearer starts a generation. *)
Definition bearerPrincipal (subject : string) (s : mcpListenerClientStates) : mcpListenerPrincipal * mcpListenerClientStates :=
  let current := mac ("listener-bearer-fingerprint-v1" +:+ NUL +:+ subject) in
  let generation := if decide (ls_activeBearer s = Some current) then ls_bearerGeneration s else wrapu64 (ls_bearerGeneration s + 1) in
  let key := principalPrefix +:+ mac ("listener-bearer-principal-v1" +:+ NUL +:+ unhex current +:+ NUL +:+ pretty generation) in
  ({| pr_key := key; pr_billingKey := billingPrefix +:+ mac ("listener-bearer-billing-v1");
      pr_exclusiveSet := bearerSet; pr_trust := Some DoWTrustAgent |},
   with_bearer (Some current) key generation s).

(** ** Interleavings *)

Inductive event := Committed (id : nat) | Revoked (id : nat).

(** The registry, the states that were removed and not yet revoked, the setup states
    that wait for their admission, and what was committed and revoked. *)
Record Listener := { li_states : mcpListenerClientStates; li_removed : list nat; li_setup : gset nat; li_log : list event }.

(** A principal as authentication makes it. *)
Definition authentic (p : mcpListenerPrincipal) : Prop :=
  (exists rest, pr_key p = principalPrefix +:+ rest) /\ (pr_exclusiveSet p = "" \/ pr_exclusiveSet p = bearerSet).

(** One step at the time [now]. *)
Inductive listener_step (now : Z) : Listener -> Listener -> Prop :=
| lt_bearer subject p s s' removed setup log :
    bearerPrincipal subject s = (p, s') ->
    listener_step now {| li_states := s; li_removed := removed; li_setup := setup; li_log := log |}
                      {| li_states := s'; li_removed := removed; li_setup := setup; li_log := log |}
| lt_principal p fresh res gone s s' removed setup log :
    authentic p -> ls_heap s !! fresh = None -> stateForPrincipal now fresh p s = (res, gone, s') ->
    listener_step now {| li_states := s; li_removed := removed; li_setup := setup; li_log := log |}
                      {| li_states := s'; li_removed := removed ++ gone; li_setup := setup; li_log := log |}
| lt_legacy sessionID fresh res gone s s' removed setup log :
    ls_heap s !! fresh = None -> stateForLegacySession now fresh (mcpListenerStateKey sessionID) s = (res, gone, s') ->
    listener_step now {| li_states := s; li_removed := removed; li_setup := setup; li_log := log |}
                      {| li_states := s'; li_removed := removed ++ gone; li_setup := setup; li_log := log |}
| lt_token token res s s' removed setup log :
    stateForToken now (mcpListenerStateKey token) s = (res, s') ->
    listener_step now {| li_states := s; li_removed := removed; li_setup := setup; li_log := log |}
                      {| li_states := s'; li_removed := removed; li_setup := setup; li_log := log |}
| lt_setup token fresh s removed setup log :
    ls_heap s !! fresh = None ->
    listener_step now {| li_states := s; li_removed := removed; li_setup := setup; li_log := log |}
                      {| li_states := newSetupState token (mcpListenerStateKey token) fresh s; li_removed := removed; li_setup := {[fresh]} ∪ setup; li_log := log |}
| lt_admit id ok gone s s' removed setup log :
    id ∈ setup -> admitSetup now id s = (ok, gone, s') ->
    listener_step now {| li_states := s; li_removed := removed; li_setup := setup; li_log := log |}
                      {| li_states := s'; li_removed := removed ++ gone; li_setup := setup ∖ {[id]}; li_log := log |}
| lt_forget sessionID gone s s' removed setup log :
    forgetKey (mcpListenerStateKey sessionID) s = (gone, s') ->
    listener_step now {| li_states := s; li_removed := removed; li_setup := setup; li_log := log |}
                      {| li_states := s'; li_removed := removed ++ gone; li_setup := setup; li_log := log |}
| lt_revoke id r1 r2 s setup log :
    listener_step now {| li_states := s; li_removed := r1 ++ id :: r2; li_setup := setup; li_log := log |}
                      {| li_states := revokeRemovedOne id s; li_removed := r1 ++ r2; li_setup := setup; li_log := log ++ [Revoked id] |}
| lt_begin id s removed setup log :
    listener_step now {| li_states := s; li_removed := removed; li_setup := setup; li_log := log |}
                      {| li_states := beginRequest id s; li_removed := removed; li_setup := setup; li_log := log |}
| lt_end id s removed setup log :
    listener_step now {| li_states := s; li_removed := removed; li_setup := setup; li_log := log |}
                      {| li_states := endRequest id s; li_removed := removed; li_setup := setup; li_log := log |}
| lt_commit id s removed setup log :
    commitIfActive id s = true ->
    listener_step now {| li_states := s; li_removed := removed; li_setup := setup; li_log := log |}
                      {| li_states := s; li_removed := removed; li_setup := setup; li_log := log ++ [Committed id] |}.

Definition any_step (l l' : Listener) : Prop := exists now, listener_step now l l'.

Definition new_listener (store : option (gmap string nat)) : Listener :=
  {| li_states := newMCPListenerClientStates store; li_removed := []; li_setup := ∅; li_log := [] |}.

(** What is known of a registered state. *)
Definition entry_ok (admitted : string) (removed : list nat) (setup : gset nat) (key : string) (id : nat) (st : mcpListenerClientState) : Prop :=
  cs_key st = key /\ cs_revoked st = false /\ id ∉ removed /\ id ∉ setup /\
  (if cs_principal st then exists rest, key = principalPrefix +:+ rest else cs_principalSet st = "" /\ exists rest, key = legacyPrefix +:+ rest) /\
  (cs_principalSet st <> "" -> key = admitted).

Record listener_inv (l : Listener) : Prop := {
  iv_size : (size (ls_clients (li_states l)) <= maxMCPListenerClients)%nat;
  iv_entries : forall key id, ls_clients (li_states l) !! key = Some id ->
      exists st, ls_heap (li_states l) !! id = Some st /\ entry_ok (ls_admittedBearerPrincipal (li_states l)) (li_removed l) (li_setup l) key id st;
  iv_setup : forall id, id ∈ li_setup l -> id ∉ li_removed l /\ exists st, ls_heap (li_states l) !! id = Some st /\ cs_revoked st = false /\
      cs_principal st = false /\ cs_principalSet st = "" /\ exists rest, cs_key st = legacyPrefix +:+ rest;
  iv_removed : forall id, id ∈ li_removed l -> is_Some (ls_heap (li_states l) !! id);
  iv_log : forall id, Revoked id ∈ li_log l -> exists st, ls_heap (li_states l) !! id = Some st /\ cs_revoked st = true;
  iv_order : forall l1 id l2, li_log l = l1 ++ Revoked id :: l2 -> Committed id ∉ l2;
}.
End keys.

(** ** Removal *)

(** States leave the registry, for a reason [ok], and nothing else changes. *)
Record shrinks (ok : string -> mcpListenerClientState -> Prop) (s : mcpListenerClientStates) (gone : list nat) (s' : mcpListenerClientStates) : Prop := {
  sh_same : s' = with_clients (ls_clients s') (ls_admittedBearerPrincipal s') s;
  sh_sub : ls_clients s' ⊆ ls_clients s;
  sh_gone : forall key id st, ls_clients s !! key = Some id -> ls_clients s' !! key = None -> ls_heap s !! id = Some st -> ok key st;
  sh_removed : forall id, id ∈ gone -> exists key, ls_clients s !! key = Some id /\ ls_clients s' !! key = None;
  sh_admitted : ls_admittedBearerPrincipal s' = ls_admittedBearerPrincipal s \/
    ls_admittedBearerPrincipal s' = "" /\ ls_clients s' !! ls_admittedBearerPrincipal s = None;
}.

Lemma with_clients_same s : with_clients (ls_clients s) (ls_admittedBearerPrincipal s) s = s.
Proof. by destruct s. Qed.

Lemma shrinks_refl ok s : shrinks ok s [] s.
Proof. split; [by rewrite with_clients_same|done|intros; congruence|by intros ? ?%elem_of_nil|by left]. Qed.

Lemma shrinks_mono (ok ok' : string -> mcpListenerClientState -> Prop) s gone s' : (forall key st, ok key st -> ok' key st) -> shrinks ok s gone s' -> shrinks ok' s gone s'.
Proof. intros H [H1 H2 H3 H4 H5]. split; eauto. Qed.

Lemma shrinks_heap ok s gone s' : shrinks ok s gone s' -> ls_heap s' = ls_heap s.
Proof. intros [-> _ _ _ _]. done. Qed.

Lemma shrinks_trans ok s gone s1 gone' s' : shrinks ok s gone s1 -> shrinks ok s1 gone' s' -> shrinks ok s (gone ++ gone') s'.
Proof.
  intros H1 H2. pose proof (shrinks_heap _ _ _ _ H1) as Hh. destruct H1 as [E1 S1 G1 R1 A1], H2 as [E2 S2 G2 R2 A2]. split.
  - rewrite E2 at 1. by rewrite E1.
  - by etrans.
  - intros key id st Hk Hn Hst. destruct (ls_clients s1 !! key) as [id'|] eqn:Hk1; [|by eapply G1].
    pose proof (lookup_weaken _ _ _ _ Hk1 S1) as Hk'. rewrite Hk in Hk'. injection Hk' as <-. apply (G2 _ _ _ Hk1 Hn). by rewrite Hh.
  - intros id [(key & Hk & Hn)%R1|(key & Hk & Hn)%R2]%elem_of_app; exists key; (split; [|done]) || idtac.
    + split; [done|]. by eapply lookup_weaken_None.
    + by eapply lookup_weaken.
  - destruct A1 as [A1|[A1 N1]].
    + rewrite A1 in A2. destruct A2 as [A2|A2]; [left; congruence|by right].
    + right. split; [destruct A2 as [A2|[A2 _]]; congruence|by eapply lookup_weaken_None].
Qed.

Lemma shrinks_delete (ok : string -> mcpListenerClientState -> Prop) key admitted s :
  (forall id st, ls_clients s !! key = Some id -> ls_heap s !! id = Some st -> ok key st) ->
  admitted = ls_admittedBearerPrincipal s \/ admitted = "" /\ ls_admittedBearerPrincipal s = key ->
  shrinks ok s (match ls_clients s !! key with Some id => [id] | None => [] end) (with_clients (delete key (ls_clients s)) admitted s).
Proof.
  intros Hok Ha. split; cbn; [done|apply delete_subseteq| | |].
  - intros key' id' st Hk' Hn Hst. destruct (decide (key' = key)) as [->|Hne]; [by eapply Hok|]. rewrite lookup_delete_ne in Hn by done. congruence.
  - intros id' Hid. exists key. rewrite lookup_delete_eq. destruct (ls_clients s !! key) as [id|]; [|by apply elem_of_nil in Hid]. by apply list_elem_of_singleton in Hid as ->.
  - destruct Ha as [->|[-> <-]]; [by left|right]. by rewrite lookup_delete_eq.
Qed.

Lemma shrinks_filter (ok : string -> mcpListenerClientState -> Prop) test admitted s :
  (forall key st, test st = true -> ok key st) ->
  (admitted = ls_admittedBearerPrincipal s \/ admitted = "" /\ ls_admittedBearerPrincipal s ∈ (filter (entryIs test s) (map_to_list (ls_clients s))).*1) ->
  shrinks ok s (filter (entryIs test s) (map_to_list (ls_clients s))).*2 (with_clients (filter (fun e => ~ entryIs test s e) (ls_clients s)) admitted s).
Proof.
  intros Hok Ha.
  assert (forall key id, (key, id) ∈ filter (entryIs test s) (map_to_list (ls_clients s)) ->
    ls_clients s !! key = Some id /\ filter (fun e => ~ entryIs test s e) (ls_clients s) !! key = None) as Hin.
  { intros key id [He Hm%elem_of_map_to_list]%list_elem_of_filter. split; [done|]. apply map_lookup_filter_None. right. intros id' Hid' Hn. apply Hn. congruence. }
  split; cbn; [done|apply map_filter_subseteq| | |].
  - intros key id st Hk Hn Hst. apply map_lookup_filter_None in Hn as [Hn|Hn]; [congruence|]. specialize (Hn id Hk). apply dec_stable in Hn.
    unfold entryIs in Hn. cbn in Hn. rewrite Hst in Hn. by apply Hok.
  - intros id Hid. apply list_elem_of_fmap in Hid as ([key id'] & -> & Hid). exists key. by apply Hin.
  - destruct Ha as [->|[-> Ha]]; [by left|right]. split; [done|]. apply list_elem_of_fmap in Ha as ([key id] & E & Hid). cbn in E. rewrite E. by apply (Hin key id).
Qed.

Definition idle_or_legacy (now : Z) (key : string) (st : mcpListenerClientState) : Prop := cs_principal st = false \/ expiredPrincipal now st = true.

Lemma purgePrincipals_shrinks now s gone s' : purgeExpiredPrincipalsLocked now s = (gone, s') -> shrinks (idle_or_legacy now) s gone s'.
Proof. intros [= <- <-]. apply shrinks_filter; [by right|]. destruct (decide _); auto. Qed.

Lemma purgeLegacy_shrinks now s gone s' : purgeExpiredLegacyLocked now s = (gone, s') -> shrinks (idle_or_legacy now) s gone s'.
Proof. intros [= <- <-]. apply shrinks_filter; [|by left]. intros key st. unfold expiredLegacy, idle_or_legacy. destruct (cs_principal st); [done|by left]. Qed.

Lemma oldestLegacy_spec s entries oldestKey oldest :
  oldestLegacy s entries oldestKey oldest = oldestKey \/
  exists id st, (oldestLegacy s entries oldestKey oldest, id) ∈ entries /\ ls_heap s !! id = Some st /\ cs_principal st = false.
Proof.
  revert oldestKey oldest. induction entries as [|[key id] entries IH]; intros oldestKey oldest; cbn; [by left|].
  assert (forall k o, oldestLegacy s entries k o = k \/ exists i st, (oldestLegacy s entries k o, i) ∈ (key, id) :: entries /\ ls_heap s !! i = Some st /\ cs_principal st = false) as IH'.
  { intros k o. destruct (IH k o) as [?|(i & st & ? & ?)]; [by left|right]. exists i, st. split; [by apply list_elem_of_further|done]. }
  destruct (ls_heap s !! id) as [st|] eqn:E; [|apply IH']. destruct (cs_principal st) eqn:Ep; [apply IH'|]. destruct (decide _); [|apply IH'].
  destruct (IH' key (cs_lastAccessed st)) as [Ek|?]; [|by right]. right. exists id, st. split_and!; try done. rewrite Ek. apply list_elem_of_here.
Qed.

Lemma removeOldest_shrinks now s gone s' : removeOldestLegacyLocked s = (gone, s') -> shrinks (idle_or_legacy now) s gone s'.
Proof.
  unfold removeOldestLegacyLocked. destruct (decide _) as [|Hne]; [intros [= <- <-]; apply shrinks_refl|].
  destruct (oldestLegacy_spec s (map_to_list (ls_clients s)) "" 0) as [?|(id & st & Hin & Hst & Hp)]; [done|]. apply elem_of_map_to_list in Hin.
  intros [= <- <-]. apply shrinks_delete; [|by left]. intros id' st' Hid' Hst'. assert (st' = st) as -> by congruence. by left.
Qed.

Lemma roomForPrincipal_shrinks now s gone s' : roomForPrincipal now s = (gone, s') -> shrinks (idle_or_legacy now) s gone s'.
Proof.
  unfold roomForPrincipal. destruct (full s).
  - destruct (purgeExpiredPrincipalsLocked now s) as [a s1] eqn:E1. destruct (purgeExpiredLegacyLocked now s1) as [b s2] eqn:E2.
    assert (shrinks (idle_or_legacy now) s (a ++ b) s2) as H12 by (eapply shrinks_trans; [by apply purgePrincipals_shrinks|by apply purgeLegacy_shrinks]).
    destruct (full s2).
    + destruct (removeOldestLegacyLocked s2) as [c s3] eqn:E3. intros [= <- <-]. eapply shrinks_trans; [done|by apply removeOldest_shrinks].
    + intros [= <- <-]. by rewrite app_nil_r.
  - destruct (full s); [destruct (removeOldestLegacyLocked s) as [c s3] eqn:E3|]; intros [= <- <-]; [by apply removeOldest_shrinks|apply shrinks_refl].
Qed.

Lemma roomForLegacy_shrinks now s gone s' : roomForLegacy now s = (gone, s') -> shrinks (idle_or_legacy now) s gone s'.
Proof.
  unfold roomForLegacy. destruct (full s); [|intros [= <- <-]; apply shrinks_refl].
  destruct (purgeExpiredLegacyLocked now s) as [a s1] eqn:E1. apply purgeLegacy_shrinks in E1. destruct (full s1).
  - destruct (removeOldestLegacyLocked s1) as [b s2] eqn:E2. intros [= <- <-]. eapply shrinks_trans; [done|by apply removeOldest_shrinks].
  - intros [= <- <-]. by rewrite app_nil_r.
Qed.

Lemma shrinks_inv ok s removed setup log gone s' :
  shrinks ok s gone s' -> listener_inv {| li_states := s; li_removed := removed; li_setup := setup; li_log := log |} ->
  listener_inv {| li_states := s'; li_removed := removed ++ gone; li_setup := setup; li_log := log |}.
Proof.
  intros Hsh [I1 I2 I3 I4 I5 I6]. pose proof (shrinks_heap _ _ _ _ Hsh) as Hh. destruct Hsh as [_ Hsub _ Hrem Hadm].
  cbn [li_states li_removed li_setup li_log] in *. split; cbn [li_states li_removed li_setup li_log]; rewrite ?Hh.
  - etrans; [by apply map_subseteq_size|done].
  - intros key id Hk. destruct (I2 key id (lookup_weaken _ _ _ _ Hk Hsub)) as (st & Hst & Hkey & Hrev & Hnr & Hns & Hkind & Ha). exists st. split; [done|].
    split_and!; try done.
    + intros [?|Hg]%elem_of_app; [done|]. apply Hrem in Hg as (key' & Hk' & Hn'). destruct (I2 key' id Hk') as (st' & Hst' & Hkey' & _). congruence.
    + intros Hset. specialize (Ha Hset). destruct Hadm as [->|[_ Hn]]; [done|]. congruence.
  - intros id Hid. destruct (I3 id Hid) as (Hnr & st & Hst & Hrest). split; [|by exists st]. intros [?|Hg]%elem_of_app; [done|].
    apply Hrem in Hg as (key & Hk & _). by destruct (I2 key id Hk) as (_ & _ & _ & _ & _ & ? & _).
  - intros id [?|Hg]%elem_of_app; [by apply I4|]. apply Hrem in Hg as (key & Hk & _). destruct (I2 key id Hk) as (st & -> & _). by eexists.
  - done.
  - done.
Qed.

(** ** Admission *)

(** The fields that identify a state are kept, and it was active now. *)
Definition same_identity (st st' : mcpListenerClientState) : Prop :=
  cs_key st' = cs_key st /\ cs_principalSet st' = cs_principalSet st /\ cs_principal st' = cs_principal st /\ cs_revoked st' = cs_revoked st.

Lemma getRecorder_other key s : ls_clients (getRecorder key s).2 = ls_clients s /\ ls_heap (getRecorder key s).2 = ls_heap s.
Proof. unfold getRecorder. destruct (ls_store s) as [store|]; [|done]. by destruct (store !! key). Qed.

Lemma register_spec now id st admitted s :
  exists st', same_identity st st' /\ ls_heap (register now id st admitted s) = <[id := st']> (ls_heap s) /\
    ls_clients (register now id st admitted s) = <[cs_key st := id]> (ls_clients s) /\ ls_admittedBearerPrincipal (register now id st admitted s) = admitted.
Proof.
  unfold register. pose proof (getRecorder_other (cs_key st) s) as [Hc Hh]. destruct (getRecorder (cs_key st) s) as [r s1]. cbn in Hc, Hh.
  eexists. split; [|split; [|split]]; cycle 1.
  - cbn. rewrite alter_insert_eq, Hh. reflexivity.
  - destruct (ls_store s1); cbn; by rewrite Hc.
  - done.
  - destruct (ls_store s1); done.
Qed.

Lemma full_false s : full s = false -> (S (size (ls_clients s)) <= maxMCPListenerClients)%nat.
Proof. unfold full. generalize maxMCPListenerClients as n. intros n H%bool_decide_eq_false. lia. Qed.

Lemma register_inv now id st admitted s removed setup setup' log :
  listener_inv {| li_states := s; li_removed := removed; li_setup := setup; li_log := log |} ->
  full s = false -> ls_clients s !! cs_key st = None -> setup' = setup ∖ {[id]} ->
  (ls_heap s !! id = None \/ ls_heap s !! id = Some st /\ id ∈ setup) -> cs_revoked st = false ->
  (if cs_principal st then exists rest, cs_key st = principalPrefix +:+ rest else cs_principalSet st = "" /\ exists rest, cs_key st = legacyPrefix +:+ rest) ->
  (cs_principalSet st <> "" -> cs_key st = admitted) -> (is_Some (ls_clients s !! ls_admittedBearerPrincipal s) -> ls_admittedBearerPrincipal s = admitted) ->
  listener_inv {| li_states := register now id st admitted s; li_removed := removed; li_setup := setup'; li_log := log |}.
Proof.
  intros [I1 I2 I3 I4 I5 I6] Hroom Hkey -> Hid Hrev Hkind Hset Hadm. destruct (register_spec now id st admitted s) as (st' & (E1 & E2 & E3 & E4) & Hh & Hc & Ha).
  cbn [li_states li_removed li_setup li_log] in *.
  assert (id ∉ removed) as Hnr by (intros Hin; destruct Hid as [Hid|[_ Hs]]; [apply I4 in Hin as [? ?]; congruence|by apply I3 in Hs as [? _]]).
  assert (forall i x, ls_heap s !! i = Some x -> cs_revoked x = true -> i <> id) as Hrevne by (intros i x Hx Hr ->; destruct Hid as [Hid|[Hid _]]; congruence).
  split; cbn [li_states li_removed li_setup li_log]; rewrite ?Hh, ?Hc, ?Ha.
  - rewrite map_size_insert_None by done. by apply full_false.
  - intros key i. rewrite lookup_insert_Some. intros [[<- <-]|[Hne Hk]].
    + exists st'. rewrite lookup_insert_eq. split; [done|]. split_and!; [congruence|congruence|done|set_solver|by rewrite E3, E2|by rewrite E2].
    + destruct (I2 key i Hk) as (x & Hx & Hkx & Hrx & Hnx & Hsx & Hkindx & Hax). exists x. assert (i <> id) as Hne'.
      { intros ->. destruct Hid as [Hid|[Hid Hs]]; [congruence|done]. }
      rewrite lookup_insert_ne by done. split; [done|]. split_and!; try done; [set_solver|]. intros Hs. specialize (Hax Hs). rewrite Hax. apply Hadm. rewrite <- Hax. by eexists.
  - intros i [Hi Hne%not_elem_of_singleton]%elem_of_difference. rewrite lookup_insert_ne by done. by apply I3.
  - intros i Hi. destruct (decide (i = id)) as [->|Hne]; [done|]. rewrite lookup_insert_ne by done. by apply I4.
  - intros i Hi. destruct (I5 i Hi) as (x & Hx & Hr). exists x. rewrite lookup_insert_ne by (intros ->; by eapply Hrevne). done.
  - done.
Qed.

(** Changing the heap at addresses without touching identities. *)
Lemma heap_inv s s' removed setup log (f : mcpListenerClientState -> mcpListenerClientState) id :
  listener_inv {| li_states := s; li_removed := removed; li_setup := setup; li_log := log |} -> (forall st, same_identity st (f st)) ->
  ls_heap s' = alter f id (ls_heap s) -> ls_clients s' = ls_clients s -> ls_admittedBearerPrincipal s' = ls_admittedBearerPrincipal s ->
  listener_inv {| li_states := s'; li_removed := removed; li_setup := setup; li_log := log |}.
Proof.
  intros [I1 I2 I3 I4 I5 I6] Hf Hh Hc Ha. cbn [li_states li_removed li_setup li_log] in *.
  assert (forall i st, ls_heap s !! i = Some st -> exists st', ls_heap s' !! i = Some st' /\ same_identity st st') as Hlook.
  { intros i st Hi. rewrite Hh. destruct (decide (id = i)) as [->|Hne]; [rewrite lookup_alter_eq, Hi; by exists (f st)|].
    rewrite lookup_alter_ne, Hi by done. by exists st. }
  split; cbn [li_states li_removed li_setup li_log]; rewrite ?Hc, ?Ha.
  - done.
  - intros key i Hk. destruct (I2 key i Hk) as (st & Hst & Hk1 & Hk2 & Hk3 & Hk4 & Hk5 & Hk6). destruct (Hlook i st Hst) as (st' & Hst' & E1 & E2 & E3 & E4).
    exists st'. split; [done|]. unfold entry_ok. rewrite E1, E2, E3, E4. done.
  - intros i Hi. destruct (I3 i Hi) as (H1 & st & Hst & H2 & H3 & H4 & H5). split; [done|]. destruct (Hlook i st Hst) as (st' & Hst' & E1 & E2 & E3 & E4).
    exists st'. rewrite E1, E2, E3, E4. done.
  - intros i Hi. destruct (I4 i Hi) as [st Hst]. destruct (Hlook i st Hst) as (st' & Hst' & _). by eexists.
  - intros i Hi. destruct (I5 i Hi) as (st & Hst & Hr). destruct (Hlook i st Hst) as (st' & Hst' & _ & _ & _ & E4). exists st'. split; [done|congruence].
  - done.
Qed.

Lemma touch_inv now id s removed setup log :
  listener_inv {| li_states := s; li_removed := removed; li_setup := setup; li_log := log |} ->
  listener_inv {| li_states := touchLocked now id s; li_removed := removed; li_setup := setup; li_log := log |}.
Proof. intros H. by apply (heap_inv s _ _ _ _ (touched (wrapu64 (ls_clock s + 1)) now) id H). Qed.

Lemma registered_Some key s id st : registered key s = Some (id, st) -> ls_clients s !! key = Some id /\ ls_heap s !! id = Some st /\ cs_revoked st = false.
Proof. unfold registered. destruct (ls_clients s !! key) as [i|]; [|done]. cbn. destruct (ls_heap s !! i) as [x|] eqn:E; [|done]. cbn. destruct (cs_revoked x) eqn:Er; [done|]. by intros [= <- <-]. Qed.

Lemma registered_None s removed setup log key :
  listener_inv {| li_states := s; li_removed := removed; li_setup := setup; li_log := log |} -> registered key s = None -> ls_clients s !! key = None.
Proof.
  intros [_ I2 _ _ _ _] H. destruct (ls_clients s !! key) as [i|] eqn:E; [|done]. destruct (I2 key i E) as (st & Hst & _ & Hr & _). unfold registered in H.
  cbn [li_states] in Hst. rewrite E in H. cbn in H. rewrite Hst in H. cbn in H. by rewrite Hr in H.
Qed.

Lemma app_string_ne x y : x <> "" -> x +:+ y <> "".
Proof. by destruct x. Qed.

Lemma forgetKey_shrinks key s gone s' : forgetKey key s = (gone, s') -> shrinks (fun k _ => k = key) s gone s'.
Proof.
  unfold forgetKey. pose proof (shrinks_delete (fun k _ => k = key) key (if decide (ls_admittedBearerPrincipal s = key) then "" else ls_admittedBearerPrincipal s) s) as H.
  destruct (ls_clients s !! key) as [id|]; intros [= <- <-]; [|apply shrinks_refl]. apply H; [done|]. destruct (decide _); auto.
Qed.

(** Why a call for a principal removes states: idle or legacy states, or the bearer that
    was admitted before another one. *)
Definition superseded (now : Z) (p : mcpListenerPrincipal) (s : mcpListenerClientStates) (key : string) (st : mcpListenerClientState) : Prop :=
  idle_or_legacy now key st \/ (pr_exclusiveSet p = bearerSet /\ pr_key p = ls_activeBearerPrincipal s /\ key = ls_admittedBearerPrincipal s /\ key <> pr_key p).

Lemma stateForPrincipal_spec now fresh p s res gone s' removed setup log :
  stateForPrincipal now fresh p s = (res, gone, s') -> authentic p -> ls_heap s !! fresh = None ->
  listener_inv {| li_states := s; li_removed := removed; li_setup := setup; li_log := log |} ->
  listener_inv {| li_states := s'; li_removed := removed ++ gone; li_setup := setup; li_log := log |} /\
  exists s1, shrinks (superseded now p s) s gone s1 /\ ls_clients s1 ⊆ ls_clients s'.
Proof.
  unfold stateForPrincipal. intros E [[rest Hrest] Hset] Hfresh Hinv.
  assert (pr_key p <> "") as Hne by (rewrite Hrest; by apply app_string_ne). rewrite decide_False in E by done.
  destruct (decide (pr_exclusiveSet p = bearerSet /\ _)) as [|Hactive]; [injection E as <- <- <-; rewrite app_nil_r; split; [done|exists s; split; [apply shrinks_refl|done]]|].
  set (first := if decide (pr_exclusiveSet p <> "" /\ ls_admittedBearerPrincipal s <> "" /\ ls_admittedBearerPrincipal s <> pr_key p) then _ else _) in E.
  assert (shrinks (superseded now p s) s first.1 first.2 /\ (pr_exclusiveSet p = bearerSet -> ls_admittedBearerPrincipal first.2 = "" \/ ls_admittedBearerPrincipal first.2 = pr_key p)) as [Hfirst Hadm].
  { subst first. destruct (decide _) as [(H1 & H2 & H3)|Hno]; cbn [fst snd].
    - split; [|by left]. apply shrinks_delete; [|by right]. intros id st _ _. right. destruct Hset as [?|Hset]; [done|]. split_and!; try done.
      destruct (decide (pr_key p = ls_activeBearerPrincipal s)); [done|]. exfalso. by apply Hactive.
    - split; [apply shrinks_refl|]. intros Hb. rewrite Hb in Hno. destruct (decide (ls_admittedBearerPrincipal s = "")) as [?|Ha]; [by left|right].
      apply dec_stable. intros Hk. by apply Hno. }
  destruct first as [gone1 s1]. cbn [fst snd] in *.  pose proof (shrinks_inv _ _ _ _ _ _ _ Hfirst Hinv) as Hinv1.
  destruct (registered (pr_key p) s1) as [[id st]|] eqn:Er.
  - apply registered_Some in Er as (Hk & Hst & _). destruct (expiredPrincipal now st) eqn:Ee; injection E as <- <- <-.
    + assert (shrinks (superseded now p s) s (gone1 ++ [id]) (with_clients (delete (pr_key p) (ls_clients s1))
        (if decide (ls_admittedBearerPrincipal s1 = pr_key p) then "" else ls_admittedBearerPrincipal s1) s1)) as Hall.
      { eapply shrinks_trans; [done|]. assert ([id] = match ls_clients s1 !! pr_key p with Some id => [id] | None => [] end) as -> by by rewrite Hk.
        apply shrinks_delete; [|destruct (decide _); auto]. intros id' st' Hid' Hst'. left. right. congruence. }
      split; [by eapply shrinks_inv|by eexists].
    + split; [by apply touch_inv|]. exists s1. split; [done|]. done.
  - destruct (roomForPrincipal now s1) as [more s2] eqn:Eroom. apply roomForPrincipal_shrinks in Eroom.
    assert (shrinks (superseded now p s) s (gone1 ++ more) s2) as Hall.
    { eapply shrinks_trans; [done|]. eapply shrinks_mono; [|exact Eroom]. intros key st Hok. by left. }
    pose proof (shrinks_inv _ _ _ _ _ _ _ Hall Hinv) as Hinv2. pose proof (shrinks_heap _ _ _ _ Hall) as Hh2.
    assert (ls_clients s2 !! pr_key p = None) as Hnone by (eapply lookup_weaken_None; [exact (registered_None _ _ _ _ _ Hinv1 Er)|exact (sh_sub _ _ _ _ Eroom)]).
    destruct (full s2) eqn:Ef; injection E as <- <- <-; [split; [done|by exists s2]|]. split.
    + apply (register_inv now fresh _ _ s2 _ setup); cbn [newMCPListenerClientState cs_key cs_revoked cs_principal cs_principalSet]; try done.
      * apply set_eq. intros i. rewrite elem_of_difference, elem_of_singleton. split; [|by intros [? _]]. intros Hi. split; [done|]. intros ->.
        destruct Hinv as [_ _ I3 _ _ _]. apply I3 in Hi as (_ & x & Hx & _). cbn [li_states] in Hx. congruence.
      * left. by rewrite Hh2.
      * by exists rest.
      * intros Hs. destruct Hset as [?|Hset]; [done|]. by rewrite decide_True.
      * intros [i Hi]. destruct (decide (pr_exclusiveSet p = bearerSet)) as [Hb|]; [|done].
        destruct Eroom as [_ _ _ _ A]. assert (ls_admittedBearerPrincipal s2 = "" \/ ls_admittedBearerPrincipal s2 = pr_key p) as [A'|A'] by (destruct (Hadm Hb), A as [A|[A _]]; rewrite A; auto).
        { exfalso. rewrite A' in Hi. destruct Hinv2 as [_ I2 _ _ _ _]. destruct (I2 "" i Hi) as (x & _ & _ & _ & _ & _ & Hkind & _).
          destruct (cs_principal x); [destruct Hkind as [r Hr]|destruct Hkind as [_ [r Hr]]]; symmetry in Hr; revert Hr; by apply app_string_ne. }
        done.
    + exists s2. split; [done|]. destruct (register_spec now fresh (newMCPListenerClientState "" (pr_key p) (pr_exclusiveSet p) true)
        (if decide (pr_exclusiveSet p = bearerSet) then pr_key p else ls_admittedBearerPrincipal s2) s2) as (_ & _ & _ & -> & _). by apply insert_subseteq.
Qed.

Lemma stateForLegacySession_spec now fresh key rest s res gone s' removed setup log :
  stateForLegacySession now fresh key s = (res, gone, s') -> key = legacyPrefix +:+ rest -> ls_heap s !! fresh = None ->
  listener_inv {| li_states := s; li_removed := removed; li_setup := setup; li_log := log |} ->
  listener_inv {| li_states := s'; li_removed := removed ++ gone; li_setup := setup; li_log := log |} /\
  exists s1, shrinks (idle_or_legacy now) s gone s1 /\ ls_clients s1 ⊆ ls_clients s'.
Proof.
  unfold stateForLegacySession. intros E Hkey Hfresh Hinv. destruct (registered key s) as [[id st]|] eqn:Er.
  { injection E as <- <- <-. rewrite app_nil_r. split; [by apply touch_inv|]. exists s. split; [apply shrinks_refl|done]. }
  destruct (roomForLegacy now s) as [more s2] eqn:Eroom. apply roomForLegacy_shrinks in Eroom. pose proof (shrinks_inv _ _ _ _ _ _ _ Eroom Hinv) as Hinv2.
  destruct (full s2) eqn:Ef; injection E as <- <- <-; [split; [done|by exists s2]|].
  assert (ls_clients s2 !! key = None) as Hnone by (eapply lookup_weaken_None; [exact (registered_None _ _ _ _ _ Hinv Er)|exact (sh_sub _ _ _ _ Eroom)]).
  split.
  - apply (register_inv now fresh _ _ s2 _ setup); cbn [newMCPListenerClientState cs_key cs_revoked cs_principal cs_principalSet]; try done.
    + apply set_eq. intros i. rewrite elem_of_difference, elem_of_singleton. split; [|by intros [? _]]. intros Hi. split; [done|]. intros ->.
      destruct Hinv as [_ _ I3 _ _ _]. apply I3 in Hi as (_ & x & Hx & _). cbn [li_states] in Hx. congruence.
    + left. by rewrite (shrinks_heap _ _ _ _ Eroom).
    + split; [done|]. by exists rest.
  - exists s2. split; [done|]. destruct (register_spec now fresh (newMCPListenerClientState "" key "" false) (ls_admittedBearerPrincipal s2) s2) as (_ & _ & _ & -> & _).
    by apply insert_subseteq.
Qed.

Lemma admitSetup_spec now id s ok gone s' removed setup log :
  admitSetup now id s = (ok, gone, s') -> id ∈ setup ->
  listener_inv {| li_states := s; li_removed := removed; li_setup := setup; li_log := log |} ->
  listener_inv {| li_states := s'; li_removed := removed ++ gone; li_setup := setup ∖ {[id]}; li_log := log |} /\
  exists s1, shrinks (idle_or_legacy now) s gone s1 /\ ls_clients s1 ⊆ ls_clients s'.
Proof.
  unfold admitSetup. intros E Hid Hinv.
  assert (forall removed s, listener_inv {| li_states := s; li_removed := removed; li_setup := setup; li_log := log |} ->
    listener_inv {| li_states := s; li_removed := removed; li_setup := setup ∖ {[id]}; li_log := log |}) as Hless.
  { intros rem x [I1 I2 I3 I4 I5 I6]. split; try done; cbn [li_states li_removed li_setup li_log] in *.
    - intros key i Hk. destruct (I2 key i Hk) as (st & Hst & A & B & C & D & F). exists st. split; [done|]. split_and!; try done; [set_solver|by apply F..].
    - intros i [Hi _]%elem_of_difference. by apply I3. }
  pose proof Hinv as [_ _ I3 _ _ _]. cbn [li_states li_removed li_setup li_log] in I3. destruct (I3 id Hid) as (Hnr & st & Hst & Hrev & Hprin & Hset & rest & Hkey).
  rewrite Hst in E. destruct (decide (_ \/ _)); [injection E as <- <- <-; rewrite app_nil_r; split; [by apply Hless|exists s; split; [apply shrinks_refl|done]]|].
  destruct (decide (is_Some _)) as [|Hnone]; [injection E as <- <- <-; rewrite app_nil_r; split; [by apply Hless|exists s; split; [apply shrinks_refl|done]]|].
  apply eq_None_not_Some in Hnone. destruct (roomForLegacy now s) as [more s2] eqn:Eroom. apply roomForLegacy_shrinks in Eroom.
  pose proof (shrinks_inv _ _ _ _ _ _ _ Eroom Hinv) as Hinv2. destruct (full s2) eqn:Ef; injection E as <- <- <-; [split; [by apply Hless|by exists s2]|].
  split.
  - apply (register_inv now id st _ s2 _ setup); try done.
    + eapply lookup_weaken_None; [exact Hnone|exact (sh_sub _ _ _ _ Eroom)].
    + right. by rewrite (shrinks_heap _ _ _ _ Eroom).
    + rewrite Hprin. split; [done|]. by exists rest.
  - exists s2. split; [done|]. destruct (register_spec now id st (ls_admittedBearerPrincipal s2) s2) as (_ & _ & _ & -> & _).
    apply insert_subseteq. eapply lookup_weaken_None; [exact Hnone|exact (sh_sub _ _ _ _ Eroom)].
Qed.

(** The last element of a list that is split elsewhere. *)
Lemma snoc_split {A} (l l1 l2 : list A) (e x : A) : l ++ [e] = l1 ++ x :: l2 -> (e = x /\ l2 = []) \/ exists l2', l2 = l2' ++ [e] /\ l = l1 ++ x :: l2'.
Proof.
  destruct l2 as [|y l2 _] using rev_ind; intros E.
  - left. apply app_inj_tail in E as [_ E]. done.
  - right. exists l2. rewrite app_comm_cons, app_assoc in E. by apply app_inj_tail in E as [-> ->].
Qed.

Lemma revoke_inv id s r1 r2 setup log :
  listener_inv {| li_states := s; li_removed := r1 ++ id :: r2; li_setup := setup; li_log := log |} ->
  listener_inv {| li_states := revokeRemovedOne id s; li_removed := r1 ++ r2; li_setup := setup; li_log := log ++ [Revoked id] |}.
Proof.
  intros [I1 I2 I3 I4 I5 I6]. cbn [li_states li_removed li_setup li_log] in *.
  destruct (I4 id) as [st0 Hst0]; [set_solver|]. unfold revokeRemovedOne. rewrite Hst0.
  set (s' := deleteRecorder (cs_key st0) (revoke id s)).
  assert (ls_clients s' = ls_clients s /\ ls_heap s' = alter revokedState id (ls_heap s) /\ ls_admittedBearerPrincipal s' = ls_admittedBearerPrincipal s) as (Hc & Hh & Ha)
    by (subst s'; unfold deleteRecorder, revoke; cbn; by destruct (ls_store s)).
  clearbody s'. assert (forall i, i ∈ r1 ++ r2 -> i ∈ r1 ++ id :: r2) as Hsub by (intros i; rewrite !elem_of_app, elem_of_cons; tauto).
  split; cbn [li_states li_removed li_setup li_log]; rewrite ?Hc, ?Hh, ?Ha.
  - done.
  - intros key i Hk. destruct (I2 key i Hk) as (st & Hst & A & B & C & D). exists st. rewrite lookup_alter_ne by set_solver. split; [done|]. split_and!; try done; [|by apply D..]. by intros ?%Hsub.
  - intros i Hi. destruct (I3 i Hi) as (A & st & Hst & B). split; [by intros ?%Hsub|]. exists st. by rewrite lookup_alter_ne by set_solver.
  - intros i Hi. destruct (I4 i (Hsub i Hi)) as [st Hst]. destruct (decide (id = i)) as [->|Hne]; [rewrite lookup_alter_eq, Hst; by eexists|]. rewrite lookup_alter_ne, Hst by done. by eexists.
  - intros i [Hi|Hi]%elem_of_app.
    + destruct (I5 i Hi) as (st & Hst & Hr). destruct (decide (id = i)) as [->|Hne]; [rewrite lookup_alter_eq, Hst; by exists (revokedState st)|].
      rewrite lookup_alter_ne by done. by exists st.
    + apply list_elem_of_singleton in Hi as [= ->]. rewrite lookup_alter_eq, Hst0. by exists (revokedState st0).
  - intros l1 i l2 [[_ ->]|(l2' & -> & E)]%snoc_split; [by apply not_elem_of_nil|]. intros [Hi|Hi]%elem_of_app; [by eapply I6|]. by apply list_elem_of_singleton in Hi.
Qed.

Lemma commit_inv id s removed setup log :
  commitIfActive id s = true -> listener_inv {| li_states := s; li_removed := removed; li_setup := setup; li_log := log |} ->
  listener_inv {| li_states := s; li_removed := removed; li_setup := setup; li_log := log ++ [Committed id] |}.
Proof.
  intros Hact [I1 I2 I3 I4 I5 I6]. cbn [li_states li_removed li_setup li_log] in *. split; cbn [li_states li_removed li_setup li_log]; try done.
  - intros i [Hi|Hi]%elem_of_app; [by apply I5|]. by apply list_elem_of_singleton in Hi.
  - intros l1 i l2 [[? _]|(l2' & -> & E)]%snoc_split; [done|]. intros [Hi|Hi]%elem_of_app; [by eapply I6|]. apply list_elem_of_singleton in Hi as [= ->].
    destruct (I5 id) as (st & Hst & Hr); [rewrite E; set_solver|]. unfold commitIfActive in Hact. by rewrite Hst, Hr in Hact.
Qed.

Section runs.
Context (sha256hex mac : string -> string) (unhex : string -> string).

Lemma listener_step_inv now l l' : listener_step sha256hex mac unhex now l l' -> listener_inv l -> listener_inv l'.
Proof.
  intros Hstep Hinv. destruct Hstep as [subject p s s' removed setup log E|p fresh res gone s s' removed setup log Hp Hf E|sessionID fresh res gone s s' removed setup log Hf E
    |token res s s' removed setup log E|token fresh s removed setup log Hf|id ok gone s s' removed setup log Hid E|sessionID gone s s' removed setup log E|id r1 r2 s setup log
    |id s removed setup log|id s removed setup log|id s removed setup log Hact].
  - injection E as <- <-. by destruct Hinv as [I1 I2 I3 I4 I5 I6].
  - by eapply stateForPrincipal_spec in E as [? _].
  - by eapply stateForLegacySession_spec in E as [? _].
  - unfold stateForToken in E. destruct (registered _ s) as [[id st]|]; injection E as <- <-; [by apply touch_inv|done].
  - destruct Hinv as [I1 I2 I3 I4 I5 I6]. cbn [li_states li_removed li_setup li_log] in *.
    assert (forall i st, ls_heap s !! i = Some st -> i <> fresh) as Hne by (intros i st Hi ->; congruence).
    split; cbn [li_states li_removed li_setup li_log newSetupState with_heap ls_clients ls_heap ls_admittedBearerPrincipal]; try done.
    + intros key i Hk. destruct (I2 key i Hk) as (st & Hst & A & B & C & D & F). exists st. rewrite lookup_insert_ne by (intros ->; by eapply Hne). split; [done|].
      split_and!; try done; [|by apply F..]. intros [->%elem_of_singleton|?]%elem_of_union; [by eapply Hne|done].
    + intros i [->%elem_of_singleton|Hi]%elem_of_union.
      * split; [intros [st Hst]%I4; congruence|]. eexists. rewrite lookup_insert_eq. split; [done|]. cbn. split_and!; try done. by eexists.
      * destruct (I3 i Hi) as (A & st & Hst & B). split; [done|]. exists st. by rewrite lookup_insert_ne by (intros ->; by eapply Hne).
    + intros i Hi. destruct (I4 i Hi) as [st Hst]. rewrite lookup_insert_ne by (intros ->; by eapply Hne). by eexists.
    + intros i Hi. destruct (I5 i Hi) as (st & Hst & Hr). exists st. by rewrite lookup_insert_ne by (intros ->; by eapply Hne).
  - by eapply admitSetup_spec in E as [? _].
  - apply forgetKey_shrinks in E. by eapply shrinks_inv.
  - by apply revoke_inv.
  - by apply (heap_inv s _ _ _ _ (fun st => with_inFlight (cs_inFlight st + 1) st) id Hinv).
  - by apply (heap_inv s _ _ _ _ (fun st => with_inFlight (cs_inFlight st - 1) st) id Hinv).
  - by apply commit_inv.
Qed.

Lemma listener_reachable_inv store l : rtc (any_step sha256hex mac unhex) (new_listener store) l -> listener_inv l.
Proof.
  intros H. refine (rtc_ind_r listener_inv _ _ _ l H); [|intros x y _ [now Hxy]; by eapply listener_step_inv].
  split; cbn; try (intros *; by intros ?%elem_of_nil) || idtac.
  - rewrite map_size_empty. lia.
  - intros key id. by rewrite lookup_empty.
  - intros id ?%elem_of_empty. done.
  - by intros [] ? ?.
Qed.
(** C23: a removed client commits nothing. In every interleaving of the listener's requests:
    the registry holds at most its limit; every registered state has its key and
    may commit; of the states of the rotating bearer at most one is registered; and
    once a state has been revoked nothing is committed to it, although the requests that
    hold it go on. *)
Theorem revoked_commits_nothing store l :
  rtc (any_step sha256hex mac unhex) (new_listener store) l ->
  (size (ls_clients (li_states l)) <= maxMCPListenerClients)%nat /\
  (forall key id, ls_clients (li_states l) !! key = Some id ->
     exists st, ls_heap (li_states l) !! id = Some st /\ cs_key st = key /\ commitIfActive id (li_states l) = true) /\
  (forall k1 k2 id1 id2 st1 st2, ls_clients (li_states l) !! k1 = Some id1 -> ls_clients (li_states l) !! k2 = Some id2 ->
     ls_heap (li_states l) !! id1 = Some st1 -> ls_heap (li_states l) !! id2 = Some st2 -> cs_principalSet st1 <> "" -> cs_principalSet st2 <> "" -> k1 = k2) /\
  (forall l1 id l2, li_log l = l1 ++ Revoked id :: l2 -> Committed id ∉ l2).
Proof.
  intros H. destruct (listener_reachable_inv store l H) as [I1 I2 _ _ _ I6]. split_and!; [done| | |done].
  - intros key id Hk. destruct (I2 key id Hk) as (st & Hst & Hkey & Hrev & _). exists st. split_and!; [done|done|]. unfold commitIfActive. by rewrite Hst, Hrev.
  - intros k1 k2 id1 id2 st1 st2 H1 H2 S1 S2 N1 N2. destruct (I2 k1 id1 H1) as (x1 & E1 & _ & _ & _ & _ & _ & A1), (I2 k2 id2 H2) as (x2 & E2 & _ & _ & _ & _ & _ & A2).
    assert (x1 = st1) as -> by congruence. assert (x2 = st2) as -> by congruence. by rewrite (A1 N1), (A2 N2).
Qed.

Lemma principal_not_legacy r r' : principalPrefix +:+ r <> legacyPrefix +:+ r'.
Proof. cbn. discriminate. Qed.

End runs.

(** ** Examples *)

Definition demo_states : mcpListenerClientStates := newMCPListenerClientStates (Some ∅).
Definition demo_principal : mcpListenerPrincipal := principal id "mtls" "alice" 1.

Lemma demo_authentic : authentic demo_principal.
Proof. split; [by eexists|by left]. Qed.

Definition demo_listener : Listener :=
  {| li_states := (stateForPrincipal 1 0%nat demo_principal demo_states).2; li_removed := []; li_setup := ∅; li_log := [] |}.

Lemma demo_listener_reachable : rtc (any_step id id id) (new_listener (Some ∅)) demo_listener.
Proof.
  eapply rtc_l; [exists 1; eapply (lt_principal id id id 1 demo_principal 0%nat _ _ demo_states); [exact demo_authentic|done|vm_compute; reflexivity]|].
  match goal with |- rtc _ ?x ?y => assert (x = y) as -> by (vm_compute; reflexivity) end. apply rtc_refl.
Qed.

(** A principal, and a session that comes, is deleted and revoked. *)
Definition demo_legacy : mcpListenerClientStates := (stateForLegacySession 2 1%nat (mcpListenerStateKey id "s") (li_states demo_listener)).2.
Definition demo_forgotten : mcpListenerClientStates := (forgetKey (mcpListenerStateKey id "s") demo_legacy).2.
Definition demo_after : Listener :=
  {| li_states := revokeRemovedOne 1 demo_forgotten; li_removed := []; li_setup := ∅; li_log := [Committed 1; Revoked 1] |}.

Lemma demo_after_reachable : rtc (any_step id id id) (new_listener (Some ∅)) demo_after.
Proof.
  etrans; [exact demo_listener_reachable|].
  eapply rtc_l; [exists 2; eapply (lt_legacy id id id 2 "s" 1%nat _ _ (li_states demo_listener) demo_legacy); [vm_compute; reflexivity|vm_compute; reflexivity]|].
  eapply rtc_l; [exists 2; apply (lt_commit id id id 2 1%nat demo_legacy); vm_compute; reflexivity|].
  eapply rtc_l; [exists 3; eapply (lt_forget id id id 3 "s" _ demo_legacy demo_forgotten); vm_compute; reflexivity|].
  eapply rtc_l; [exists 4; apply (lt_revoke id id id 4 1%nat [] [] demo_forgotten)|].
  match goal with |- rtc _ ?x ?y => assert (x = y) as -> by (vm_compute; reflexivity) end. apply rtc_refl.
Qed.

Lemma revoked_commits_nothing_witness :
  rtc (any_step id id id) (new_listener (Some ∅)) demo_after /\ li_log demo_after = [Committed 1] ++ Revoked 1 :: [] /\ Committed 1 ∉ ([] : list event).
Proof.
  split; [exact demo_after_reachable|]. split; [reflexivity|].
  destruct (revoked_commits_nothing id id id (Some ∅) demo_after demo_after_reachable) as (_ & _ & _ & H). by apply (H [Committed 1]).
Defined.


(** A session identifier that returns while its state is being removed gets the recorder
    of the old state, which is then deleted from the store: the new state is
    registered and its recorder is not in the store. *)
Example recorder_orphaned :
  let back := (stateForLegacySession 5 2%nat (mcpListenerStateKey id "s") demo_forgotten).2 in
  let after := revokeRemovedOne 1 back in
  (x ← ls_heap demo_legacy !! 1%nat; cs_recorder x) = Some 1%nat /\
  ls_clients after !! mcpListenerStateKey id "s" = Some 2%nat /\ (x ← ls_heap after !! 2%nat; cs_recorder x) = Some 1%nat /\
  (m ← ls_store after; m !! mcpListenerStateKey id "s") = None.
Proof. by vm_compute. Qed.
