(* ===== verification/GraphQL.v ===== *)
(** * GraphQL documents

    [internal/reqpolicy/graphql.go]: the lexer, the parser and the resolution of root
    fields, from which the request policy learns which operations a request makes.

    A document is a list of bytes and the state of the parser the list of the tokens
    that are left; at the end of the tokens the code reads a zero token, which counts as
    a name without text. *)

From Stdlib Require Import Ascii.
From stdpp Require Import list gmap strings sorting.
From Equations Require Import Equations.
From S2P Require Import Prelude GoStrings.
Local Open Scope string_scope.
Local Open Scope list_scope.

Set Default Proof Using "Type".

Record RequestOperation := { op_Kind : string; op_Name : string; op_RootFields : list string; op_Aliased : bool }.

Definition gqlQuery : string := "query".
Definition gqlMutation : string := "mutation".
Definition gqlSubscription : string := "subscription".

Definition maxGraphQLTokens : N := 200000.
Definition maxSelectionDepth : nat := 64.
Definition maxFragmentExpansion : N := 5000.

(** [errGraphQLParse]; [outOfFuel] is not an error of the code and never the result. *)
Inductive gqlError := errGraphQLParse | outOfFuel.

(** ** Lexer *)

Inductive gqlTokKind := tkName | tkPunct | tkOther.
Record gqlToken := { tk_kind : gqlTokKind; tk_val : string }.

#[export] Instance gqlTokKind_eq_dec : EqDecision gqlTokKind.
Proof. solve_decision. Defined.
#[export] Instance gqlToken_eq_dec : EqDecision gqlToken.
Proof. solve_decision. Defined.

Definition name (n : string) : gqlToken := {| tk_kind := tkName; tk_val := n |}.
Definition punct (p : string) : gqlToken := {| tk_kind := tkPunct; tk_val := p |}.
Definition other : gqlToken := {| tk_kind := tkOther; tk_val := "" |}.

Definition quote : ascii := "034".
Definition backslash : ascii := "092".
Definition newline : ascii := "010".
Definition return_ : ascii := "013".

Definition in_range (lo hi : N) (c : ascii) : bool := bool_decide (lo <= N_of_ascii c <= hi)%N.
Definition isDigit (c : ascii) : bool := in_range 48 57 c.
Definition isPunctByte (c : ascii) : bool := bool_decide (c ∈ list_ascii_of_string "!$():=@[]{}|&").
Definition isNameStart (c : ascii) : bool := bool_decide (c = "_"%char) || in_range 65 90 c || in_range 97 122 c.
Definition isNameCont (c : ascii) : bool := isNameStart c || isDigit c.
Definition isNumberCont (c : ascii) : bool := isDigit c || bool_decide (c ∈ list_ascii_of_string ".eE+-").
Definition ignored (c : ascii) : bool := bool_decide (c ∈ [" "%char; "009"%char; newline; return_; ","%char]).

(** The number of leading bytes that satisfy a test. *)
Fixpoint spanLen (f : ascii -> bool) (s : list ascii) : nat :=
  match s with c :: s => if f c then S (spanLen f s) else 0 | [] => 0 end.

(** The loops of [indexStringEnd] after the opening quotes: how many bytes they consume,
    the closing quotes included. *)
Fixpoint stringEnd (s : list ascii) : option nat :=
  match s with
  | [] => None
  | c :: s =>
      if decide (c = backslash) then match s with _ :: s => n ← stringEnd s; Some (2 + n) | [] => None end
      else if decide (c = quote) then Some 1
      else if decide (c = newline \/ c = return_) then None
      else n ← stringEnd s; Some (1 + n)
  end.

Definition threeQuotes (a b c : ascii) : Prop := a = quote /\ b = quote /\ c = quote.
#[export] Instance threeQuotes_dec a b c : Decision (threeQuotes a b c).
Proof. unfold threeQuotes. apply _. Defined.

Fixpoint blockEnd (s : list ascii) : option nat :=
  match s with
  | [] => None
  | c :: s =>
      let next := n ← blockEnd s; Some (1 + n) in
      match s with
      | a :: b :: rest =>
          if decide (threeQuotes c a b) then Some 3
          else match rest with
               | d :: rest => if decide (c = backslash /\ threeQuotes a b d) then n ← blockEnd rest; Some (4 + n) else next
               | [] => next
               end
      | _ => next
      end
  end.

(** [indexStringEnd], after the first quote. *)
Definition indexStringEnd (s : list ascii) : option nat :=
  match s with
  | a :: b :: rest => if decide (a = quote /\ b = quote) then n ← blockEnd rest; Some (2 + n) else stringEnd s
  | _ => stringEnd s
  end.

(** The loop of [lexGraphQL]; [count] is the number of tokens so far. *)
Equations? lexLoop (count : N) (s : list ascii) : result (list gqlToken) gqlError by wf (length s) lt :=
  lexLoop count [] := Ok [];
  lexLoop count (c :: s) :=
    let token t k := match lexLoop (count + 1) (drop k s) with Ok ts => Ok (t :: ts) | Err e => Err e end in
    if decide (maxGraphQLTokens <= count)%N then Err errGraphQLParse
    else if ignored c then lexLoop count s
    else if decide (c = "#"%char) then lexLoop count (drop (spanLen (fun c => bool_decide (c <> newline)) s) s)
    else if decide (c = quote) then match indexStringEnd s with Some k => token other k | None => Err errGraphQLParse end
    else if decide (c = "."%char) then if decide (take 2 s = ["."%char; "."%char]) then token (punct "...") 2 else Err errGraphQLParse
    else if isPunctByte c then token (punct (String c "")) 0
    else if isNameStart c then let k := spanLen isNameCont s in token (name (String c (string_of_list_ascii (take k s)))) k
    else if decide (c = "-"%char \/ isDigit c = true) then token other (spanLen isNumberCont s)
    else Err errGraphQLParse.
Proof. all: rewrite ?length_drop; cbn; lia. Qed.

Definition trimBOM (s : list ascii) : list ascii :=
  match s with
  | a :: b :: c :: rest => if decide (a = "239"%char /\ b = "187"%char /\ c = "191"%char) then rest else s
  | _ => s
  end.

Definition lexGraphQL (src : string) : result (list gqlToken) gqlError := lexLoop 0 (trimBOM (list_ascii_of_string src)).

(** ** Parser *)

Inductive selItem := SField (field : string) (aliased : bool) | SSpread (spread : string) | SInline (inline : list selItem).

Notation tokens := (list gqlToken).

Definition peek (toks : tokens) : gqlToken := default (name "") (head toks).
Definition isName (t : gqlToken) : bool := bool_decide (tk_kind t = tkName).
Definition isPunct (v : string) (toks : tokens) : bool := bool_decide (peek toks = punct v).

Definition matchingCloser (opener : string) : option string :=
  if decide (opener = "(") then Some ")" else if decide (opener = "[") then Some "]" else if decide (opener = "{") then Some "}" else None.
Definition isCloser (v : string) : bool := bool_decide (v = ")" \/ v = "]" \/ v = "}").

Fixpoint skipBalanced (stack : list string) (toks : tokens) : result tokens gqlError :=
  match toks with
  | [] => Err errGraphQLParse
  | t :: toks =>
      if decide (tk_kind t <> tkPunct) then skipBalanced stack toks
      else match matchingCloser (tk_val t) with
           | Some closer => skipBalanced (closer :: stack) toks
           | None =>
               if isCloser (tk_val t) then
                 match stack with
                 | [] => Err errGraphQLParse
                 | top :: stack =>
                     if decide (top <> tk_val t) then Err errGraphQLParse
                     else if decide (stack = []) then Ok toks else skipBalanced stack toks
                 end
               else skipBalanced stack toks
           end
  end.

(** An optional group that begins with [opener]. *)
Definition skipGroup (opener : string) (toks : tokens) : result tokens gqlError :=
  if isPunct opener toks then skipBalanced [] toks else Ok toks.

(** A name that has to be there: its text. *)
Definition expectName (toks : tokens) : result (string * tokens) gqlError :=
  if isName (peek toks) then Ok (tk_val (peek toks), tail toks) else Err errGraphQLParse.

Fixpoint directives (fuel : nat) (toks : tokens) : result tokens gqlError :=
  if isPunct "@" toks then
    match fuel with
    | O => Err outOfFuel
    | S fuel => (p <-? expectName (tail toks); toks <-? skipGroup "(" p.2; directives fuel toks)%go
    end
  else Ok toks.

Definition skipDirectives (toks : tokens) : result tokens gqlError := directives (length toks) toks.

Definition parseField (toks : tokens) : result (selItem * tokens) gqlError :=
  let first := tk_val (peek toks) in
  let toks := tail toks in
  (p <-? (if isPunct ":" toks then q <-? expectName (tail toks); Ok (q.1, true, q.2) else Ok (first, false, toks));
   toks <-? skipGroup "(" p.2;
   toks <-? skipDirectives toks;
   toks <-? skipGroup "{" toks;
   Ok (SField p.1.1 p.1.2, toks))%go.

(** [parseFragment], after the dots. *)
Definition parseFragment (parseSelectionSet : tokens -> result (list selItem * tokens) gqlError) (toks : tokens) : result (selItem * tokens) gqlError :=
  let nt := peek toks in
  if isName nt && bool_decide (tk_val nt <> "on") then
    (toks <-? skipDirectives (tail toks); Ok (SSpread (tk_val nt), toks))%go
  else
    (toks <-? (if isName nt && bool_decide (tk_val nt = "on") then p <-? expectName (tail toks); Ok p.2 else Ok toks);
     toks <-? skipDirectives toks;
     p <-? parseSelectionSet toks;
     Ok (SInline p.1, p.2))%go.

(** The loop of [parseSelectionSet]. *)
Fixpoint selections (fuel : nat) (fragment : tokens -> result (selItem * tokens) gqlError) (items : list selItem) (toks : tokens) : result (list selItem * tokens) gqlError :=
  match toks with
  | [] => Err errGraphQLParse
  | t :: rest =>
      match fuel with
      | O => Err outOfFuel
      | S fuel =>
          if decide (t = punct "}") then if decide (items = []) then Err errGraphQLParse else Ok (items, rest)
          else if decide (t = punct "...") then (p <-? fragment rest; selections fuel fragment (items ++ [p.1]) p.2)%go
          else if isName t then (p <-? parseField toks; selections fuel fragment (items ++ [p.1]) p.2)%go
          else Err errGraphQLParse
      end
  end.

(** [room] is [maxSelectionDepth + 1] less the depth. *)
Fixpoint parseSelectionSet (room : nat) (toks : tokens) : result (list selItem * tokens) gqlError :=
  match room with
  | O => Err errGraphQLParse
  | S room =>
      if isPunct "{" toks then selections (length (tail toks)) (parseFragment (parseSelectionSet room)) [] (tail toks)
      else Err errGraphQLParse
  end.

Definition rootSelectionSet : tokens -> result (list selItem * tokens) gqlError := parseSelectionSet (S maxSelectionDepth).

Record rawOp := { ro_kind : string; ro_name : string; ro_items : list selItem }.
Definition fragmentMap : Type := gmap string (list selItem).

Definition isOperationKind (v : string) : bool := bool_decide (v = gqlQuery \/ v = gqlMutation \/ v = gqlSubscription).

(** One round of the loop of [parseGraphQLDocument]. *)
Definition parseOperation (toks : tokens) : result (rawOp * tokens) gqlError :=
  let kind := tk_val (peek toks) in
  let toks := tail toks in
  let (opName, toks) := if isName (peek toks) then (tk_val (peek toks), tail toks) else ("", toks) in
  (toks <-? skipGroup "(" toks;
   toks <-? skipDirectives toks;
   p <-? rootSelectionSet toks;
   Ok ({| ro_kind := kind; ro_name := opName; ro_items := p.1 |}, p.2))%go.

Definition parseFragmentDefinition (toks : tokens) : result (string * list selItem * tokens) gqlError :=
  (n <-? expectName (tail toks);
   if decide (peek n.2 = name "on") then
     ty <-? expectName (tail n.2);
     toks <-? skipDirectives ty.2;
     p <-? rootSelectionSet toks;
     Ok (n.1, p.1, p.2)
   else Err errGraphQLParse)%go.

Fixpoint definitions (fuel : nat) (fragments : fragmentMap) (raws : list rawOp) (toks : tokens) : result (fragmentMap * list rawOp) gqlError :=
  match toks with
  | [] => Ok (fragments, raws)
  | t :: _ =>
      match fuel with
      | O => Err outOfFuel
      | S fuel =>
          if decide (t = punct "{") then
            (p <-? rootSelectionSet toks; definitions fuel fragments (raws ++ [{| ro_kind := gqlQuery; ro_name := ""; ro_items := p.1 |}]) p.2)%go
          else if isName t then
            if isOperationKind (tk_val t) then (p <-? parseOperation toks; definitions fuel fragments (raws ++ [p.1]) p.2)%go
            else if decide (tk_val t = "fragment") then
              (p <-? parseFragmentDefinition toks;
               if decide (is_Some (fragments !! p.1.1)) then Err errGraphQLParse
               else definitions fuel (<[p.1.1 := p.1.2]> fragments) raws p.2)%go
            else Err errGraphQLParse
          else Err errGraphQLParse
      end
  end.

(** ** Root fields *)

Record walkState := { ws_fields : list string; ws_aliased : bool; ws_invalid : bool; ws_count : N; ws_seen : gset string }.

Definition invalid (st : walkState) : walkState :=
  {| ws_fields := ws_fields st; ws_aliased := ws_aliased st; ws_invalid := true; ws_count := ws_count st; ws_seen := ws_seen st |}.
Definition counted (st : walkState) : walkState :=
  {| ws_fields := ws_fields st; ws_aliased := ws_aliased st; ws_invalid := ws_invalid st; ws_count := ws_count st + 1; ws_seen := ws_seen st |}.
Definition with_field (f : string) (aliased : bool) (st : walkState) : walkState :=
  {| ws_fields := ws_fields st ++ [f]; ws_aliased := ws_aliased st || aliased; ws_invalid := ws_invalid st; ws_count := ws_count st; ws_seen := ws_seen st |}.
Definition with_seen (seen : gset string) (st : walkState) : walkState :=
  {| ws_fields := ws_fields st; ws_aliased := ws_aliased st; ws_invalid := ws_invalid st; ws_count := ws_count st; ws_seen := seen |}.

(** The closure [walk] of [resolveRootFields]. *)
Section walk.
Context (fragments : fragmentMap).

Definition walkItem (walk : list selItem -> walkState -> option walkState) (it : selItem) (st : walkState) : option walkState :=
  match it with
  | SField f aliased => Some (if decide (f = "") then st else with_field f aliased st)
  | SInline inner => walk inner st
  | SSpread n =>
      if decide (n = "") then Some st
      else if decide (n ∈ ws_seen st) then Some (invalid st)
      else match fragments !! n with
           | None => Some (invalid st)
           | Some frag => st ← walk frag (with_seen ({[n]} ∪ ws_seen st) st); Some (with_seen (ws_seen st ∖ {[n]}) st)
           end
  end.

Fixpoint walkItems (walk : list selItem -> walkState -> option walkState) (items : list selItem) (st : walkState) : option walkState :=
  match items with
  | [] => Some st
  | it :: items =>
      if ws_invalid st then Some st
      else if decide (maxFragmentExpansion <= ws_count st)%N then Some (invalid st)
      else st ← walkItem walk it (counted st); walkItems walk items st
  end.

Fixpoint walk (fuel : nat) (items : list selItem) (st : walkState) : option walkState :=
  match fuel with
  | O => None
  | S fuel => walkItems (walk fuel) items st
  end.

Definition walkStart : walkState := {| ws_fields := []; ws_aliased := false; ws_invalid := false; ws_count := 0; ws_seen := ∅ |}.

(** Each level of the walk has counted an item, so the budget bounds the levels. *)
Definition resolveRootFields (items : list selItem) : option walkState := walk (S (N.to_nat maxFragmentExpansion)) items walkStart.

Definition resolveOp (r : rawOp) : result RequestOperation gqlError :=
  match resolveRootFields (ro_items r) with
  | None => Err outOfFuel
  | Some st =>
      if ws_invalid st then Err errGraphQLParse
      else Ok {| op_Kind := ro_kind r; op_Name := ro_name r; op_RootFields := ws_fields st; op_Aliased := ws_aliased st |}
  end.

Fixpoint resolveOps (raws : list rawOp) : result (list RequestOperation) gqlError :=
  match raws with
  | [] => Ok []
  | r :: raws => (op <-? resolveOp r; ops <-? resolveOps raws; Ok (op :: ops))%go
  end.
End walk.

Definition parseTokens (toks : tokens) : result (list RequestOperation) gqlError :=
  (p <-? definitions (length toks) ∅ [] toks;
   if decide (p.2 = []) then Err errGraphQLParse else resolveOps p.1 p.2)%go.

Definition parseGraphQLDocument (src : string) : result (list RequestOperation) gqlError :=
  (toks <-? lexGraphQL src; parseTokens toks)%go.


(** ** The grammar that the parser accepts

    Arguments, directives and the selections below the root are skipped, so all that is
    asked of them is that their brackets balance. *)

Definition plain (t : gqlToken) : Prop := tk_kind t <> tkPunct \/ matchingCloser (tk_val t) = None /\ isCloser (tk_val t) = false.

Inductive balanced : tokens -> Prop :=
| bl_nil : balanced []
| bl_token t ts : plain t -> balanced ts -> balanced (t :: ts)
| bl_group o c inner ts : matchingCloser o = Some c -> balanced inner -> balanced ts -> balanced (punct o :: inner ++ punct c :: ts).

Inductive group (o : string) : tokens -> Prop :=
| gr_none : group o []
| gr_some c inner : matchingCloser o = Some c -> balanced inner -> group o (punct o :: inner ++ [punct c]).

Inductive dirs : tokens -> Prop :=
| dr_nil : dirs []
| dr_cons n args ds : group "(" args -> dirs ds -> dirs (punct "@" :: name n :: args ++ ds).

Inductive alias_name : tokens -> string -> bool -> Prop :=
| al_plain n : alias_name [name n] n false
| al_alias a n : alias_name [name a; punct ":"; name n] n true.

Inductive condition : tokens -> Prop :=
| cn_none : condition []
| cn_on ty : condition [name "on"; name ty].

(** One selection, a list of them, and a selection set whose fragments nest at most
    [room] deep. *)
Inductive item_tokens (set : tokens -> list selItem -> Prop) : tokens -> selItem -> Prop :=
| im_field nm n al args ds sub : alias_name nm n al -> group "(" args -> dirs ds -> group "{" sub ->
    item_tokens set (nm ++ args ++ ds ++ sub) (SField n al)
| im_spread n ds : n <> "on" -> dirs ds -> item_tokens set (punct "..." :: name n :: ds) (SSpread n)
| im_inline cond ds ts inner : condition cond -> dirs ds -> set ts inner -> item_tokens set (punct "..." :: cond ++ ds ++ ts) (SInline inner).

Inductive items_tokens (set : tokens -> list selItem -> Prop) : tokens -> list selItem -> Prop :=
| is_nil : items_tokens set [] []
| is_cons ts it rest items : item_tokens set ts it -> items_tokens set rest items -> items_tokens set (ts ++ rest) (it :: items).

Fixpoint set_tokens (room : nat) (toks : tokens) (items : list selItem) : Prop :=
  match room with
  | O => False
  | S room => items <> [] /\ exists mid, toks = punct "{" :: mid ++ [punct "}"] /\ items_tokens (set_tokens room) mid items
  end.

Definition root_set : tokens -> list selItem -> Prop := set_tokens (S maxSelectionDepth).

Inductive op_name : tokens -> string -> Prop :=
| on_none : op_name [] ""
| on_some n : op_name [name n] n.

Inductive gqlDefinition := DOperation (op : rawOp) | DFragment (n : string) (items : list selItem).

Inductive definition_tokens : tokens -> gqlDefinition -> Prop :=
| df_shorthand ts items : root_set ts items -> definition_tokens ts (DOperation {| ro_kind := gqlQuery; ro_name := ""; ro_items := items |})
| df_operation k nm n vars ds ts items : isOperationKind k = true -> op_name nm n -> group "(" vars -> dirs ds -> root_set ts items ->
    definition_tokens (name k :: nm ++ vars ++ ds ++ ts) (DOperation {| ro_kind := k; ro_name := n; ro_items := items |})
| df_fragment n ty ds ts items : dirs ds -> root_set ts items ->
    definition_tokens (name "fragment" :: name n :: name "on" :: name ty :: ds ++ ts) (DFragment n items).

Inductive document : tokens -> list gqlDefinition -> Prop :=
| dc_nil : document [] []
| dc_cons ts d rest ds : definition_tokens ts d -> document rest ds -> document (ts ++ rest) (d :: ds).

Definition opsOf (ds : list gqlDefinition) : list rawOp := omap (fun d => match d with DOperation op => Some op | DFragment _ _ => None end) ds.

(** The fragments by name; [None] if a name is defined twice. *)
Fixpoint fragmentsOf (fragments : fragmentMap) (ds : list gqlDefinition) : option fragmentMap :=
  match ds with
  | [] => Some fragments
  | DOperation _ :: ds => fragmentsOf fragments ds
  | DFragment n items :: ds => if decide (is_Some (fragments !! n)) then None else fragmentsOf (<[n := items]> fragments) ds
  end.

(** The fields that execute at the root of a selection set. *)
Inductive executes (fragments : fragmentMap) : list selItem -> string -> Prop :=
| ex_field items f al : SField f al ∈ items -> f <> "" -> executes fragments items f
| ex_inline items inner f : SInline inner ∈ items -> executes fragments inner f -> executes fragments items f
| ex_spread items n frag f : SSpread n ∈ items -> n <> "" -> fragments !! n = Some frag -> executes fragments frag f -> executes fragments items f.

(** ** Skipping *)

(** Concatenations, to the right. *)
Ltac app_norm := repeat progress (rewrite <- ?app_assoc; cbn [app]).

Lemma skipBalanced_plain stack t toks : plain t -> skipBalanced stack (t :: toks) = skipBalanced stack toks.
Proof. intros [H|[H1 H2]]; cbn; [by rewrite decide_True|]. destruct (decide _); [done|]. by rewrite H1, H2. Qed.

Lemma skipBalanced_open stack o c toks : matchingCloser o = Some c -> skipBalanced stack (punct o :: toks) = skipBalanced (c :: stack) toks.
Proof. intros H. cbn. rewrite decide_False by (intros ?; done). by rewrite H. Qed.

Lemma closer_is o c : matchingCloser o = Some c -> matchingCloser c = None /\ isCloser c = true.
Proof. unfold matchingCloser. repeat case_decide; intros [= <-]; by vm_compute. Qed.

Lemma skipBalanced_close stack o c toks :
  matchingCloser o = Some c -> skipBalanced (c :: stack) (punct c :: toks) = if decide (stack = []) then Ok toks else skipBalanced stack toks.
Proof. intros [H1 H2]%closer_is. cbn. rewrite decide_False by (intros ?; done). rewrite H1, H2. by rewrite decide_False by (intros ?; done). Qed.

Lemma skipBalanced_inner inner top stack toks : balanced inner -> skipBalanced (top :: stack) (inner ++ toks) = skipBalanced (top :: stack) toks.
Proof.
  intros H. revert top stack toks. induction H as [|t ts Ht _ IH|o c inner ts Ho _ IH1 _ IH2]; intros top stack toks; cbn [app]; [done|by rewrite skipBalanced_plain|].
  rewrite (skipBalanced_open _ _ c), <- app_assoc by done. cbn [app]. rewrite IH1, (skipBalanced_close _ o) by done. by rewrite decide_False.
Qed.

(** What closes the brackets of a stack. *)
Inductive closes : list string -> tokens -> Prop :=
| cl_nil : closes [] []
| cl_cons c stack inner mid : balanced inner -> closes stack mid -> closes (c :: stack) (inner ++ punct c :: mid).

Lemma skipBalanced_closes toks stack rest : stack <> [] -> skipBalanced stack toks = Ok rest -> exists mid, closes stack mid /\ toks = mid ++ rest.
Proof.
  revert stack. induction toks as [|t toks IH]; intros [|top stack] Hne; [done..|]. intros H.
  assert (plain t \/ exists v, t = punct v /\ ((exists c, matchingCloser v = Some c) \/ matchingCloser v = None /\ isCloser v = true)) as [Ht|(v & -> & Hv)].
  { destruct t as [k v]. unfold plain. cbn. destruct (decide (k = tkPunct)) as [->|?]; [|by auto]. destruct (matchingCloser v) eqn:E; [right; exists v; eauto|].
    destruct (isCloser v) eqn:E'; [right; exists v; auto|auto]. }
  - rewrite skipBalanced_plain in H by done. apply IH in H as (mid & Hc & ->); [|done]. inversion Hc; subst. exists (t :: inner ++ punct top :: mid0). split; [|done].
    apply (cl_cons _ _ (t :: inner)); [by constructor|done].
  - destruct Hv as [[c Hv]|[Hv Hc]].
    + rewrite (skipBalanced_open _ _ c) in H by done. apply IH in H as (mid & Hm & ->); [|done]. inversion Hm as [|? ? inner mid' Hi Hm']; subst. inversion Hm' as [|? ? inner2 mid2 Hi2 Hm2]; subst.
      exists ((punct v :: inner ++ punct c :: inner2) ++ punct top :: mid2). split; [apply cl_cons; [by apply bl_group|done]|]. by app_norm.
    + cbn in H. rewrite decide_False in H by (intros ?; done). rewrite Hv, Hc in H. destruct (decide (top <> v)) as [|E%dec_stable]; [done|]. subst top.
      destruct (decide (stack = [])) as [->|Hs].
      * injection H as ->. exists [punct v]. split; [|done]. apply (cl_cons _ _ []); constructor.
      * apply IH in H as (mid & Hm & ->); [|done]. exists (punct v :: mid). split; [|done]. apply (cl_cons _ _ []); [constructor|done].
Qed.

Lemma isPunct_true v toks : isPunct v toks = true -> exists rest, toks = punct v :: rest.
Proof. unfold isPunct. intros H%bool_decide_eq_true. destruct toks as [|t toks]; [done|]. cbn in H. subst. by eexists. Qed.

Lemma isPunct_cons v t toks : isPunct v (t :: toks) = bool_decide (t = punct v).
Proof. done. Qed.

Lemma skipGroup_sound o c toks rest : matchingCloser o = Some c -> skipGroup o toks = Ok rest -> exists g, group o g /\ toks = g ++ rest.
Proof.
  intros Ho. unfold skipGroup. destruct (isPunct o toks) eqn:E.
  - apply isPunct_true in E as [ts ->]. rewrite (skipBalanced_open _ _ c) by done. intros (mid & Hm & ->)%skipBalanced_closes; [|done].
    inversion Hm as [|? ? inner mid' Hi Hm']; subst. inversion Hm'; subst. exists (punct o :: inner ++ [punct c]). split; [by constructor|]. by app_norm.
  - intros [= ->]. exists []. split; [constructor|done].
Qed.

Lemma skipGroup_complete o g rest : group o g -> isPunct o rest = false -> skipGroup o (g ++ rest) = Ok rest.
Proof.
  unfold skipGroup. intros [|c inner Ho Hi] Hr; cbn [app]; [by rewrite Hr|]. rewrite isPunct_cons, bool_decide_true by done.
  rewrite (skipBalanced_open _ _ c), <- app_assoc, skipBalanced_inner by done. cbn [app]. by rewrite (skipBalanced_close _ o) by done.
Qed.

Lemma isName_is t : isName t = true -> t = name (tk_val t).
Proof. unfold isName. intros H%bool_decide_eq_true. destruct t. cbn in *. by subst. Qed.

Lemma expectName_sound toks p : expectName toks = Ok p -> (toks = [] /\ p = ("", [])) \/ exists n, toks = name n :: p.2 /\ p.1 = n.
Proof.
  unfold expectName. destruct toks as [|t toks]; cbn; [intros [= <-]; by left|]. destruct (isName t) eqn:E; [|done]. intros [= <-]. right. eexists. split; [|done]. cbn. f_equal. by apply isName_is.
Qed.

Lemma expectName_pair toks n r : expectName toks = Ok (n, r) -> (toks = [] /\ n = "" /\ r = []) \/ toks = name n :: r.
Proof. intros [[-> [= -> ->]]|(n' & -> & <-)]%expectName_sound; auto. Qed.

Lemma dirs_isPunct v ds rest : dirs ds -> v <> "@" -> isPunct v rest = false -> isPunct v (ds ++ rest) = false.
Proof. intros [|n args ds' _ _] Hv Hr; [done|]. cbn [app]. rewrite isPunct_cons. apply bool_decide_eq_false. by intros [= <-]. Qed.

Lemma group_isPunct v o g rest : group o g -> v <> o -> isPunct v rest = false -> isPunct v (g ++ rest) = false.
Proof. intros [|c inner _ _] Hv Hr; [done|]. cbn [app]. rewrite isPunct_cons. apply bool_decide_eq_false. by intros [= ->]. Qed.

Lemma directives_nil fuel : directives fuel [] = Ok [].
Proof. by destruct fuel. Qed.

Lemma directives_sound fuel toks rest : directives fuel toks = Ok rest -> rest <> [] -> exists ds, dirs ds /\ toks = ds ++ rest.
Proof.
  revert toks. induction fuel as [|fuel IH]; intros toks; cbn [directives]; destruct (isPunct "@" toks) eqn:E; try done.
  1,3: intros [= ->] _; exists []; split; [constructor|done].
  apply isPunct_true in E as [ts ->]. cbn [tail]. intros ([n r] & Hn & (r' & Hg & Hd)%bind_Ok)%bind_Ok Hne. cbn [snd] in Hg.
  apply expectName_sound in Hn as [[-> [= -> ->]]|(n' & -> & _)].
  - change (skipGroup "(" []) with (@Ok tokens gqlError []) in Hg. injection Hg as <-. rewrite directives_nil in Hd. by injection Hd as <-.
  - cbn [snd]. apply (skipGroup_sound "(" ")") in Hg as (g & Hg & ->); [|done]. apply IH in Hd as (ds & Hds & ->); [|done].
    exists (punct "@" :: name n' :: g ++ ds). split; [by constructor|]. by app_norm.
Qed.

Lemma directives_complete fuel ds rest :
  dirs ds -> length ds <= fuel -> isPunct "@" rest = false -> isPunct "(" rest = false -> directives fuel (ds ++ rest) = Ok rest.
Proof.
  intros H. revert fuel. induction H as [|n args ds Hg Hd IH]; intros fuel Hf Ha Hp.
  - cbn [app]. destruct fuel; cbn; by rewrite Ha.
  - destruct fuel as [|fuel]; [by cbn in Hf; lia|]. cbn in Hf. rewrite length_app in Hf. cbn [directives app tail]. rewrite isPunct_cons, bool_decide_true by done.
    change (expectName (name n :: (args ++ ds) ++ rest)) with (@Ok (string * tokens) gqlError (n, (args ++ ds) ++ rest)). cbn [snd].
    rewrite <- app_assoc, skipGroup_complete by (done || by apply dirs_isPunct). apply IH; [lia|done|done].
Qed.

Lemma skipDirectives_sound toks rest : skipDirectives toks = Ok rest -> rest <> [] -> exists ds, dirs ds /\ toks = ds ++ rest.
Proof. apply directives_sound. Qed.

Lemma skipDirectives_complete ds rest : dirs ds -> isPunct "@" rest = false -> isPunct "(" rest = false -> skipDirectives (ds ++ rest) = Ok rest.
Proof. intros. apply directives_complete; [done| |done|done]. rewrite length_app. lia. Qed.

(** ** Selections *)

Lemma parseField_sound set first toks it rest :
  parseField (name first :: toks) = Ok (it, rest) -> rest <> [] -> exists ts, item_tokens set ts it /\ name first :: toks = ts ++ rest.
Proof.
  unfold parseField. cbn [peek head default tk_val name tail].
  intros ([[n al] r] & Hn & (r1 & Hg & (r2 & Hd & (r3 & Hs & [= <- ->])%bind_Ok)%bind_Ok)%bind_Ok)%bind_Ok Hne. cbn [fst snd] in *.
  apply (skipGroup_sound "(" ")") in Hg as (g & Hg & ->); [|done]. apply (skipGroup_sound "{" "}") in Hs as (sub & Hs & ->); [|done].
  apply skipDirectives_sound in Hd as (ds & Hd & ->); [|by destruct sub].
  assert (exists nm, alias_name nm n al /\ name first :: toks = nm ++ g ++ ds ++ sub ++ rest) as (nm & Ha & ->).
  { destruct (isPunct ":" toks) eqn:E; [|injection Hn as <- <- <-; exists [name first]; split; [constructor|done]].
    apply isPunct_true in E as [ts ->]. cbn [tail] in Hn. apply bind_Ok in Hn as ([n' q] & Hn & [= -> <- Hr]). cbn [fst snd] in Hr. subst q.
    apply expectName_sound in Hn as [[-> [= _ Hr]]|(n' & Hts & Hn)]; cbn [fst snd] in *; [by destruct g, ds, sub|]. subst.
    exists [name first; punct ":"; name n']. split; [constructor|done]. }
  exists (nm ++ g ++ ds ++ sub). split; [by constructor|]. by app_norm.
Qed.

Definition ends_item (rest : tokens) : Prop := isPunct ":" rest = false /\ isPunct "(" rest = false /\ isPunct "@" rest = false /\ isPunct "{" rest = false.

Lemma parseField_complete nm n al args ds sub rest :
  alias_name nm n al -> group "(" args -> dirs ds -> group "{" sub -> ends_item rest -> parseField ((nm ++ args ++ ds ++ sub) ++ rest) = Ok (SField n al, rest).
Proof.
  intros Ha Hg Hd Hs (H1 & H2 & H3 & H4). unfold parseField. app_norm.
  assert (isPunct ":" (args ++ ds ++ sub ++ rest) = false) as Hc by (apply (group_isPunct _ "("); [done|done|]; apply dirs_isPunct; [done|done|]; by apply (group_isPunct _ "{")).
  assert (skipGroup "(" (args ++ ds ++ sub ++ rest) = Ok (ds ++ sub ++ rest)) as Eg.
  { apply skipGroup_complete; [done|]. apply dirs_isPunct; [done|done|]. by apply (group_isPunct _ "{"). }
  assert (skipDirectives (ds ++ sub ++ rest) = Ok (sub ++ rest)) as Ed by (apply skipDirectives_complete; [done|by apply (group_isPunct _ "{")..]).
  destruct Ha as [n|a n]; cbn [app peek head default tk_val name tail].
  - rewrite Hc. cbn [fst snd]. by rewrite Eg, Ed, skipGroup_complete.
  - rewrite isPunct_cons, bool_decide_true by done. change (expectName (name n :: args ++ ds ++ sub ++ rest)) with (@Ok (string * tokens) gqlError (n, args ++ ds ++ sub ++ rest)).
    cbn [fst snd]. by rewrite Eg, Ed, skipGroup_complete.
Qed.

(** What the parser of fragments has to be, for the selections to be those of [set]. *)
Definition reads_sets (set : tokens -> list selItem -> Prop) (parse : tokens -> result (list selItem * tokens) gqlError) : Prop :=
  (forall toks items rest, parse toks = Ok (items, rest) -> exists ts, set ts items /\ toks = ts ++ rest) /\
  (forall ts items rest, set ts items -> parse (ts ++ rest) = Ok (items, rest)).

Lemma set_tokens_open room ts items : set_tokens room ts items -> exists mid, ts = punct "{" :: mid ++ [punct "}"].
Proof. destruct room; [done|]. intros (_ & mid & -> & _). by exists mid. Qed.

Definition opens (set : tokens -> list selItem -> Prop) : Prop := forall ts items, set ts items -> exists mid, ts = punct "{" :: mid.

Lemma set_opens room : opens (set_tokens room).
Proof. intros ts items [mid ->]%set_tokens_open. by eexists. Qed.

Lemma parseFragment_sound set parse toks it rest :
  reads_sets set parse -> opens set -> parseFragment parse toks = Ok (it, rest) -> rest <> [] -> exists ts, item_tokens set (punct "..." :: ts) it /\ toks = ts ++ rest.
Proof.
  intros [Hs _] Ho. unfold parseFragment. destruct (isName (peek toks)) eqn:En; cbn [andb].
  - apply isName_is in En. destruct (bool_decide_reflect (tk_val (peek toks) <> "on")) as [Hn|Hn].
    + intros (r & Hd & [= <- ->])%bind_Ok Hne. destruct toks as [|t toks]; [cbn in Hd; by injection Hd as <-|]. change (peek (t :: toks)) with t in *. cbn [tail] in *.
      apply skipDirectives_sound in Hd as (ds & Hd & ->); [|done]. exists (name (tk_val t) :: ds). split; [by constructor|]. by rewrite En at 1.
    + apply dec_stable in Hn. rewrite bool_decide_true by done. destruct toks as [|t toks]; [done|]. change (peek (t :: toks)) with t in *. cbn [tail] in *.
      intros (r & (p & Hp & [= <-])%bind_Ok & (r2 & Hd & ([inner r3] & Hi & [= <- ->])%bind_Ok)%bind_Ok)%bind_Ok Hne. cbn [fst snd] in *.
      apply Hs in Hi as (ts & Hset & ->). apply skipDirectives_sound in Hd as (ds & Hd & Hp2); [|destruct (Ho _ _ Hset) as [? ->]; done].
      apply expectName_sound in Hp as [[-> ->]|(ty & -> & _)]; [destruct (Ho _ _ Hset) as [? ->]; by destruct ds|].
      exists ([name "on"; name ty] ++ ds ++ ts). split; [by apply im_inline; [constructor|..]|]. rewrite En, Hn, Hp2. by app_norm.
  - intros (r2 & Hd & ([inner r3] & Hi & [= <- ->])%bind_Ok)%bind_Ok Hne. cbn [fst snd] in *.
    apply Hs in Hi as (ts & Hset & ->). apply skipDirectives_sound in Hd as (ds & Hd & ->); [|destruct (Ho _ _ Hset) as [? ->]; done].
    exists ([] ++ ds ++ ts). split; [by apply im_inline; [constructor|..]|]. by app_norm.
Qed.

Lemma parseFragment_complete set parse ts it rest :
  reads_sets set parse -> opens set -> item_tokens set (punct "..." :: ts) it -> ends_item rest -> parseFragment parse (ts ++ rest) = Ok (it, rest).
Proof.
  intros [_ Hc] Ho H (_ & Hp & Ha & _). inversion H as [nm n al args ds sub Hnm Hg Hd Hsub E|n ds Hn Hd|cond ds set_ts inner Hcond Hd Hset]; subst.
  - by inversion Hnm; subst.
  - unfold parseFragment. cbn [app peek head default name tail]. change (isName _) with true. cbn [andb tk_val].
    rewrite bool_decide_true by done. by rewrite skipDirectives_complete.
  - destruct (Ho _ _ Hset) as [mid Emid]. assert (skipDirectives (ds ++ set_ts ++ rest) = Ok (set_ts ++ rest)) as Ed by (apply skipDirectives_complete; [done|by rewrite Emid..]).
    unfold parseFragment. destruct Hcond as [|ty]; app_norm.
    + assert (isName (peek (ds ++ set_ts ++ rest)) = false) as -> by (destruct Hd; [by rewrite Emid|done]). cbn [andb]. by rewrite Ed, (Hc _ inner _ Hset).
    + change (peek (name "on" :: name ty :: ds ++ set_ts ++ rest)) with (name "on"). cbn [tail]. change (isName (name "on")) with true. change (tk_val (name "on")) with "on". cbn [andb]. change (bool_decide ("on" <> "on")) with false. change (bool_decide ("on" = "on")) with true. cbv iota.
      change (expectName (name ty :: ds ++ set_ts ++ rest)) with (@Ok (string * tokens) gqlError (ty, ds ++ set_ts ++ rest)). cbn [snd]. by rewrite Ed, (Hc _ inner _ Hset).
Qed.

Lemma selections_sound set parse fuel items toks out rest :
  reads_sets set parse -> opens set -> selections fuel (parseFragment parse) items toks = Ok (out, rest) ->
  exists mid more, items_tokens set mid more /\ out = items ++ more /\ out <> [] /\ toks = mid ++ punct "}" :: rest.
Proof.
  intros Hr Ho. revert items toks. induction fuel as [|fuel IH]; intros items [|t toks]; cbn [selections]; try done.
  assert (forall p k, selections fuel (parseFragment parse) k (@snd selItem tokens p) = Ok (out, rest) -> p.2 <> []) as Hne.
  { intros [it [|]] k; [by destruct fuel|done]. }
  destruct (decide (t = punct "}")) as [->|_].
  { destruct (decide (items = [])); [done|]. intros [= <- <-]. exists [], []. split_and!; [constructor|by rewrite app_nil_r|done|done]. }
  destruct (decide (t = punct "...")) as [->|_].
  - intros ([it r] & Hf & Hs)%bind_Ok. pose proof (Hne _ _ Hs) as Hr'. apply parseFragment_sound with (set := set) in Hf as (ts & Hit & ->); [|done..].
    apply IH in Hs as (mid & more & Hm & -> & Hout & Hr2). cbn [fst snd] in *. subst r.
    exists ((punct "..." :: ts) ++ mid), (it :: more). split_and!; [by constructor|by app_norm|done|by app_norm].
  - destruct (isName t) eqn:En; [|done]. apply isName_is in En. rewrite En. intros ([it r] & Hf & Hs)%bind_Ok. pose proof (Hne _ _ Hs) as Hr'.
    apply (parseField_sound set) in Hf as (ts & Hit & Ets); [|done]. apply IH in Hs as (mid & more & Hm & -> & Hout & Hr2). cbn [fst snd] in *. subst r.
    exists (ts ++ mid), (it :: more). split_and!; [by constructor|by app_norm|done|rewrite Ets; by app_norm].
Qed.

Lemma item_first set ts it : item_tokens set ts it -> exists t ts', ts = t :: ts' /\ (t = punct "..." \/ exists n, t = name n).
Proof. intros [nm n al args ds sub Ha _ _ _|n ds _ _|cond ds ts' inner _ _ _]; [destruct Ha|..]; cbn; do 2 eexists; split; eauto. Qed.

Lemma ends_item_cons t ts : t = punct "}" \/ t = punct "..." \/ (exists n, t = name n) -> ends_item (t :: ts).
Proof. unfold ends_item. rewrite !isPunct_cons. intros [->|[->|[n ->]]]; split_and!; by apply bool_decide_eq_false. Qed.

Lemma items_ends set ts items rest : items_tokens set ts items -> ends_item (ts ++ punct "}" :: rest).
Proof.
  intros [|ts' it r its Hi _]; [apply ends_item_cons; auto|]. apply item_first in Hi as (t & us & -> & Ht). cbn [app]. apply ends_item_cons. tauto.
Qed.

Lemma selections_complete set parse fuel items mid more rest :
  reads_sets set parse -> opens set -> items_tokens set mid more -> items ++ more <> [] -> length mid < fuel ->
  selections fuel (parseFragment parse) items (mid ++ punct "}" :: rest) = Ok (items ++ more, rest).
Proof.
  intros Hr Ho H. revert fuel items. induction H as [|ts it r its Hi Hits IH]; intros fuel items Hne Hf.
  - destruct fuel as [|fuel]; [cbn in Hf; lia|]. rewrite app_nil_r in *. cbn [app selections]. rewrite decide_True by done. by rewrite decide_False.
  - pose proof (items_ends set r its rest Hits) as Hends. pose proof (item_first _ _ _ Hi) as (t & ts' & -> & Ht). destruct fuel as [|fuel]; [cbn in Hf; lia|].
    rewrite <- app_assoc. cbn [app selections]. rewrite decide_False by (destruct Ht as [->|[n ->]]; by intros [=]).
    assert (selections fuel (parseFragment parse) (items ++ [it]) (r ++ punct "}" :: rest) = Ok (items ++ it :: its, rest)) as Hnext.
    { cbn in Hf. rewrite length_app in Hf. rewrite IH; [by app_norm|by destruct items|lia]. }
    destruct Ht as [->|[n ->]].
    + rewrite decide_True by done. rewrite (parseFragment_complete set) with (it := it) by done. cbn [fst snd]. done.
    + rewrite decide_False by done. change (isName (name n)) with true. cbv iota.
      assert (parseField ((name n :: ts') ++ r ++ punct "}" :: rest) = Ok (it, r ++ punct "}" :: rest)) as Ef.
      { inversion Hi as [nm n' al args ds sub Hnm Hg Hd Hs E| |]; subst. etrans; [|by eapply parseField_complete; [exact Hnm|exact Hg|exact Hd|exact Hs|exact Hends]]. by rewrite E. }
      cbn [app] in Ef. rewrite Ef. cbn [fst snd]. done.
Qed.

Lemma set_reads room : reads_sets (set_tokens room) (parseSelectionSet room).
Proof.
  induction room as [|room IH]; [by split|]. split; cbn [parseSelectionSet].
  - intros toks items rest. destruct (isPunct "{" toks) eqn:E; [|done]. apply isPunct_true in E as [ts ->]. cbn [tail].
    intros (mid & more & Hm & -> & Hne & ->)%(selections_sound (set_tokens room)); [|done|apply set_opens].
    exists (punct "{" :: mid ++ [punct "}"]). split; [|by app_norm]. split; [done|]. by exists mid.
  - intros ts items rest (Hne & mid & -> & Hm). app_norm. rewrite isPunct_cons, bool_decide_true by done. cbn [tail].
    apply (selections_complete (set_tokens room)) with (items := []); [done|apply set_opens|done|done|]. rewrite length_app. cbn. lia.
Qed.

(** ** Documents *)

Lemma root_reads : reads_sets root_set rootSelectionSet.
Proof. apply set_reads. Qed.

Lemma root_opens ts items rest v : root_set ts items -> v <> "{" -> isPunct v (ts ++ rest) = false.
Proof. intros [mid ->]%set_tokens_open Hv. app_norm. rewrite isPunct_cons. apply bool_decide_eq_false. by intros [= <-]. Qed.

Lemma root_not_name ts items rest : root_set ts items -> isName (peek (ts ++ rest)) = false.
Proof. by intros [mid ->]%set_tokens_open. Qed.

Lemma root_nonempty ts items rest : root_set ts items -> ts ++ rest <> [].
Proof. by intros [mid ->]%set_tokens_open. Qed.

Lemma parseOperation_sound k toks op rest :
  isOperationKind k = true -> parseOperation (name k :: toks) = Ok (op, rest) -> exists ts, definition_tokens ts (DOperation op) /\ name k :: toks = ts ++ rest.
Proof.
  intros Hk. unfold parseOperation. change (peek (name k :: toks)) with (name k). cbn [tail].
  assert (exists nm n us, (if isName (peek toks) then (tk_val (peek toks), tail toks) else ("", toks)) = (n, us) /\ (us <> [] -> op_name nm n /\ toks = nm ++ us)) as (nm & n & us & -> & Hnm).
  { destruct (isName (peek toks)) eqn:E; [|exists [], "", toks; split; [done|]; split; [constructor|done]]. apply isName_is in E.
    destruct toks as [|t toks]; [by exists [], "", []|]. exists [name (tk_val t)], (tk_val t), toks. split; [done|]. split; [constructor|]. cbn. f_equal. exact E. }
  intros (r1 & Hg & (r2 & Hd & ([items r3] & Hs & [= <- ->])%bind_Ok)%bind_Ok)%bind_Ok. cbn [fst snd] in *.
  apply root_reads in Hs as (ts & Hset & ->). apply skipDirectives_sound in Hd as (ds & Hd & ->); [|by eapply root_nonempty].
  apply (skipGroup_sound "(" ")") in Hg as (g & Hg & ->); [|done]. destruct Hnm as [Hnm ->].
  { intros [_ [_ E]%app_eq_nil]%app_eq_nil. by eapply root_nonempty. }
  exists (name k :: nm ++ g ++ ds ++ ts). split; [by constructor|]. by app_norm.
Qed.

Lemma parseOperation_complete k nm n vars ds ts items rest :
  isOperationKind k = true -> op_name nm n -> group "(" vars -> dirs ds -> root_set ts items ->
  parseOperation ((name k :: nm ++ vars ++ ds ++ ts) ++ rest) = Ok ({| ro_kind := k; ro_name := n; ro_items := items |}, rest).
Proof.
  intros Hk Hnm Hg Hd Hs. unfold parseOperation. app_norm. change (peek (name k :: nm ++ vars ++ ds ++ ts ++ rest)) with (name k). cbn [tail].
  assert ((if isName (peek (nm ++ vars ++ ds ++ ts ++ rest)) then (tk_val (peek (nm ++ vars ++ ds ++ ts ++ rest)), tail (nm ++ vars ++ ds ++ ts ++ rest)) else ("", nm ++ vars ++ ds ++ ts ++ rest))
    = (n, vars ++ ds ++ ts ++ rest)) as ->.
  { destruct Hnm; [|done]. cbn [app]. assert (isName (peek (vars ++ ds ++ ts ++ rest)) = false) as ->; [|done].
    destruct Hg; [|done]. destruct Hd; [|done]. cbn [app]. by eapply root_not_name. }
  rewrite skipGroup_complete by (done || by apply dirs_isPunct; [..|eapply root_opens]).
  rewrite skipDirectives_complete by (done || by eapply root_opens). destruct root_reads as [_ Hc]. by rewrite (Hc _ items _ Hs).
Qed.

Lemma parseFragmentDefinition_sound toks n items rest :
  parseFragmentDefinition (name "fragment" :: toks) = Ok (n, items, rest) -> exists ts, definition_tokens ts (DFragment n items) /\ name "fragment" :: toks = ts ++ rest.
Proof.
  unfold parseFragmentDefinition. cbn [tail]. intros ([n' r1] & Hn & H)%bind_Ok. cbn [fst snd] in H. destruct (decide (peek r1 = name "on")) as [E|]; [|done].
  apply bind_Ok in H as ([ty r2] & Hty & (r3 & Hd & ([its r4] & Hs & [= -> -> ->])%bind_Ok)%bind_Ok). cbn [fst snd] in *.
  apply root_reads in Hs as (ts & Hset & ->). apply skipDirectives_sound in Hd as (ds & Hd & ->); [|by eapply root_nonempty].
  apply expectName_pair in Hn as [(-> & -> & ->)| ->]; [done|]. destruct r1 as [|t r1]; [done|]. change (peek (t :: r1)) with t in E. subst t. cbn [tail] in Hty.
  apply expectName_pair in Hty as [(_ & -> & E)| ->].
  { apply app_eq_nil in E as [_ E]. exfalso. by eapply root_nonempty. }
  exists (name "fragment" :: name n :: name "on" :: name ty :: ds ++ ts). split; [by constructor|]. by app_norm.
Qed.

Lemma parseFragmentDefinition_complete n ty ds ts items rest :
  dirs ds -> root_set ts items -> parseFragmentDefinition ((name "fragment" :: name n :: name "on" :: name ty :: ds ++ ts) ++ rest) = Ok (n, items, rest).
Proof.
  intros Hd Hs. unfold parseFragmentDefinition. app_norm. cbn [tail].
  change (expectName (name n :: name "on" :: name ty :: ds ++ ts ++ rest)) with (@Ok (string * tokens) gqlError (n, name "on" :: name ty :: ds ++ ts ++ rest)). cbn [fst snd].
  rewrite decide_True by done. cbn [tail]. change (expectName (name ty :: ds ++ ts ++ rest)) with (@Ok (string * tokens) gqlError (ty, ds ++ ts ++ rest)). cbn [fst snd].
  rewrite skipDirectives_complete by (done || by eapply root_opens). destruct root_reads as [_ Hc]. by rewrite (Hc _ items _ Hs).
Qed.

Lemma definitions_sound fuel fragments raws toks out :
  definitions fuel fragments raws toks = Ok out -> exists ds, document toks ds /\ fragmentsOf fragments ds = Some out.1 /\ out.2 = raws ++ opsOf ds.
Proof.
  revert fragments raws toks. induction fuel as [|fuel IH]; intros fragments raws [|t toks]; cbn [definitions]; try done.
  1,2: intros [= <-]; exists []; split_and!; [constructor|done|by rewrite app_nil_r].
  assert (forall d ts rest raws', definition_tokens ts d -> t :: toks = ts ++ rest -> raws' = raws ++ opsOf [d] ->
    forall frags', (forall ds, fragmentsOf frags' ds = fragmentsOf fragments (d :: ds)) -> definitions fuel frags' raws' rest = Ok out ->
    exists ds, document (t :: toks) ds /\ fragmentsOf fragments ds = Some out.1 /\ out.2 = raws ++ opsOf ds) as Hnext.
  { intros d ts rest raws' Hd -> -> frags' Hf (ds & Hdoc & E1 & E2)%IH. exists (d :: ds). split_and!; [by constructor|by rewrite <- Hf|]. rewrite E2, <- app_assoc. f_equal. by destruct d. }
  destruct (decide (t = punct "{")) as [->|_].
  { intros ([items rest] & (ts & Hs & E)%root_reads & H)%bind_Ok. eapply (Hnext (DOperation _)); [by constructor|exact E|done|done|exact H]. }
  destruct (isName t) eqn:En; [|done]. apply isName_is in En. rewrite En in *. cbn [tk_val name]. destruct (isOperationKind (tk_val t)) eqn:Ek.
  - intros ([op rest] & (ts & Hs & E)%parseOperation_sound & H)%bind_Ok; [|done]. by eapply Hnext.
  - destruct (decide (tk_val t = "fragment")) as [Ef|]; [|done]. rewrite Ef in *. intros ([[n items] rest] & (ts & Hs & E)%parseFragmentDefinition_sound & H)%bind_Ok. cbn [fst snd] in H.
    destruct (decide (is_Some (fragments !! n))) as [|Hn]; [done|]. eapply Hnext; [exact Hs|exact E|by rewrite app_nil_r| |exact H]. intros ds. cbn. by rewrite decide_False.
Qed.

Lemma definition_first ts d : definition_tokens ts d -> exists t ts', ts = t :: ts'.
Proof. intros [ts' items [mid ->]%set_tokens_open|k nm n vars ds ts' items _ _ _ _ _|n ty ds ts' items _ _]; by do 2 eexists. Qed.

Lemma definitions_complete fuel fragments raws toks ds :
  document toks ds -> length toks <= fuel ->
  definitions fuel fragments raws toks = match fragmentsOf fragments ds with Some frags => Ok (frags, raws ++ opsOf ds) | None => Err errGraphQLParse end.
Proof.
  intros H. revert fuel fragments raws. induction H as [|ts d rest ds Hd Hdoc IH]; intros fuel fragments raws Hf.
  { destruct fuel; cbn; by rewrite app_nil_r. }
  destruct (definition_first _ _ Hd) as (t & ts' & ->). destruct fuel as [|fuel]; [cbn in Hf; lia|]. cbn in Hf. rewrite length_app in Hf.
  assert (raws ++ opsOf (d :: ds) = (raws ++ opsOf [d]) ++ opsOf ds) as -> by (rewrite <- app_assoc; by destruct d).
  assert (forall frags', definitions fuel frags' (raws ++ opsOf [d]) rest =
    match fragmentsOf frags' ds with Some frags => Ok (frags, (raws ++ opsOf [d]) ++ opsOf ds) | None => Err errGraphQLParse end) as Hnext by (intros; apply IH; lia).
  inversion Hd as [us items Hs|k nm n vars dirs_ us items Hk Hnm Hg Hdi Hs|n ty dirs_ us items Hdi Hs]; subst; cbn [definitions app].
  - destruct root_reads as [_ Hc]. pose proof (Hc _ _ rest Hs) as E. destruct (set_tokens_open _ _ _ Hs) as [mid Em]. injection Em as -> Em. rewrite decide_True by done.
    cbn [app] in E. rewrite E. cbn [fst snd]. by apply Hnext.
  - rewrite decide_False by (by intros [=]). change (isName (name k)) with true. cbn [tk_val name]. rewrite Hk.
    pose proof (parseOperation_complete k nm n vars dirs_ us items rest Hk Hnm Hg Hdi Hs) as E. cbn [app] in E. rewrite E. cbn [fst snd]. by apply Hnext.
  - rewrite decide_False by (by intros [=]). change (isName (name "fragment")) with true. cbn [tk_val name]. change (isOperationKind "fragment") with false. rewrite decide_True by done.
    pose proof (parseFragmentDefinition_complete n ty dirs_ us items rest Hdi Hs) as E. cbn [app] in E. rewrite E. cbn [fst snd].
    cbn [fragmentsOf]. destruct (decide (is_Some (fragments !! n))); [done|]. cbn [opsOf omap list_omap] in *. rewrite app_nil_r in *. by apply Hnext.
Qed.

(** ** The fuel is enough *)

Lemma bind_Err {A B} (e : result A gqlError) (k : A -> result B gqlError) err :
  match e with Ok x => k x | Err err => Err err end = Err err <-> e = Err err \/ exists x, e = Ok x /\ k x = Err err.
Proof. destruct e; naive_solver. Qed.

Lemma skipBalanced_fuel stack toks : skipBalanced stack toks <> Err outOfFuel.
Proof.
  revert stack. induction toks as [|t toks IH]; intros stack; [done|]. cbn [skipBalanced]. destruct (decide _); [done|]. destruct (matchingCloser _); [done|].
  destruct (isCloser _); [|done]. destruct stack as [|top stack]; [done|]. destruct (decide _); [done|]. by destruct (decide _).
Qed.

Lemma skipGroup_fuel o toks : skipGroup o toks <> Err outOfFuel.
Proof. unfold skipGroup. destruct (isPunct o toks); [apply skipBalanced_fuel|done]. Qed.

Lemma expectName_fuel toks : expectName toks <> Err outOfFuel.
Proof. unfold expectName. by destruct (isName _). Qed.

Lemma rest_shorter {A} (rest toks : list A) : (rest <> [] -> exists ts, toks = ts ++ rest) -> length rest <= length toks.
Proof. intros H. destruct rest as [|t rest]; [cbn; lia|]. destruct H as [ts ->]; [done|]. rewrite length_app. lia. Qed.

Lemma directives_fuel fuel toks : length toks <= fuel -> directives fuel toks <> Err outOfFuel.
Proof.
  revert toks. induction fuel as [|fuel IH]; intros toks Hf; cbn [directives]; destruct (isPunct "@" toks) eqn:E; try done.
  { apply isPunct_true in E as [ts ->]. cbn in Hf. lia. }
  apply isPunct_true in E as [ts ->]. cbn [tail]. rewrite bind_Err. intros [H|([n r] & Hn & H)]; [by apply expectName_fuel in H|].
  cbn [snd] in H. apply bind_Err in H as [H|(r' & Hg & H)]; [by apply skipGroup_fuel in H|]. revert H. apply IH. cbn in Hf.
  assert (length r' <= length r) by (apply rest_shorter; intros _; apply (skipGroup_sound "(" ")") in Hg as (g & _ & ->); by eauto).
  apply expectName_pair in Hn as [(-> & _ & ->)| ->]; cbn in *; lia.
Qed.

Lemma skipDirectives_fuel toks : skipDirectives toks <> Err outOfFuel.
Proof. by apply directives_fuel. Qed.

Lemma parseField_fuel toks : parseField toks <> Err outOfFuel.
Proof.
  unfold parseField. rewrite bind_Err. intros [H|(p & _ & H)].
  - destruct (isPunct ":" _); [|done]. apply bind_Err in H as [H|(? & _ & H)]; [by apply expectName_fuel in H|done].
  - apply bind_Err in H as [H|(r1 & _ & H)]; [by apply skipGroup_fuel in H|]. apply bind_Err in H as [H|(r2 & _ & H)]; [by apply skipDirectives_fuel in H|].
    apply bind_Err in H as [H|(r3 & _ & H)]; [by apply skipGroup_fuel in H|done].
Qed.

Lemma parseFragment_fuel parse toks : (forall toks, parse toks <> Err outOfFuel) -> parseFragment parse toks <> Err outOfFuel.
Proof.
  intros Hp. unfold parseFragment. destruct (isName (peek toks) && _).
  - rewrite bind_Err. intros [H|(? & _ & H)]; [by apply skipDirectives_fuel in H|done].
  - rewrite bind_Err. intros [H|(r & _ & H)].
    + destruct (isName (peek toks) && _); [|done]. apply bind_Err in H as [H|(? & _ & H)]; [by apply expectName_fuel in H|done].
    + apply bind_Err in H as [H|(r2 & _ & H)]; [by apply skipDirectives_fuel in H|]. apply bind_Err in H as [H|(r3 & _ & H)]; [by apply Hp in H|done].
Qed.

Lemma selections_fuel set parse fuel items toks :
  reads_sets set parse -> opens set -> (forall toks, parse toks <> Err outOfFuel) -> length toks <= fuel -> selections fuel (parseFragment parse) items toks <> Err outOfFuel.
Proof.
  intros Hr Ho Hp. revert items toks. induction fuel as [|fuel IH]; intros items [|t toks] Hf; try done; [cbn in Hf; lia|]. cbn [selections]. cbn in Hf.
  destruct (decide (t = punct "}")) as [->|_]; [by destruct (decide _)|]. destruct (decide (t = punct "...")) as [->|_].
  - rewrite bind_Err. intros [H|([it r] & Hi & H)]; [by apply parseFragment_fuel in H|]. cbn [fst snd] in H. revert H. apply IH.
    assert (length r <= length toks); [|lia]. apply rest_shorter. intros Hne. apply (parseFragment_sound set) in Hi as (ts & _ & ->); eauto.
  - destruct (isName t) eqn:En; [|done]. apply isName_is in En. rewrite bind_Err. intros [H|([it r] & Hi & H)]; [by apply parseField_fuel in H|]. cbn [fst snd] in H. revert H. apply IH.
    destruct r as [|t' r]; [cbn; lia|]. rewrite En in Hi. apply (parseField_sound set) in Hi as (ts & Hit & E); [|done].
    apply item_first in Hit as (t1 & ts' & -> & _). apply (f_equal length) in E. cbn in E. rewrite length_app in E. cbn in *. lia.
Qed.

Lemma parseSelectionSet_fuel room toks : parseSelectionSet room toks <> Err outOfFuel.
Proof.
  revert toks. induction room as [|room IH]; intros toks; [done|]. cbn [parseSelectionSet]. destruct (isPunct "{" toks); [|done].
  apply (selections_fuel (set_tokens room)); [apply set_reads|apply set_opens|done|done].
Qed.

Lemma definitions_fuel fuel fragments raws toks : length toks <= fuel -> definitions fuel fragments raws toks <> Err outOfFuel.
Proof.
  revert fragments raws toks. induction fuel as [|fuel IH]; intros fragments raws [|t toks] Hf; try done; [cbn in Hf; lia|]. cbn [definitions].
  assert (forall ts d rest, definition_tokens ts d -> t :: toks = ts ++ rest -> length rest <= fuel) as Hshort.
  { intros ts d rest Hd E. apply definition_first in Hd as (t' & ts' & ->). apply (f_equal length) in E. cbn in *. rewrite length_app in E. lia. }
  destruct (decide (t = punct "{")) as [->|_].
  { rewrite bind_Err. intros [H|([items r] & (ts & Hs & E)%root_reads & H)]; [by apply parseSelectionSet_fuel in H|]. revert H. apply IH. by eapply Hshort; [by constructor|]. }
  destruct (isName t) eqn:En; [|done]. apply isName_is in En. destruct (isOperationKind (tk_val t)) eqn:Ek.
  - rewrite bind_Err. intros [H|([op r] & Ho & H)].
    + revert H. unfold parseOperation. destruct (if isName _ then _ else _) as [n us]. rewrite bind_Err. intros [H|(r1 & _ & H)]; [by apply skipGroup_fuel in H|].
      apply bind_Err in H as [H|(r2 & _ & H)]; [by apply skipDirectives_fuel in H|]. apply bind_Err in H as [H|(r3 & _ & H)]; [by apply parseSelectionSet_fuel in H|done].
    + revert H. apply IH. rewrite En in Ho. apply parseOperation_sound in Ho as (ts & Hd & E); [|done]. eapply Hshort; [exact Hd|]. by rewrite En.
  - destruct (decide (tk_val t = "fragment")) as [Ef|]; [|done]. rewrite bind_Err. intros [H|([[n items] r] & Ho & H)].
    + revert H. unfold parseFragmentDefinition. rewrite bind_Err. intros [H|(r1 & _ & H)]; [by apply expectName_fuel in H|]. destruct (decide _); [|done].
      apply bind_Err in H as [H|(r2 & _ & H)]; [by apply expectName_fuel in H|]. apply bind_Err in H as [H|(r3 & _ & H)]; [by apply skipDirectives_fuel in H|].
      apply bind_Err in H as [H|(r4 & _ & H)]; [by apply parseSelectionSet_fuel in H|done].
    + cbn [fst snd] in H. destruct (decide _); [done|]. revert H. apply IH. rewrite En, Ef in Ho. apply parseFragmentDefinition_sound in Ho as (ts & Hd & E). eapply Hshort; [exact Hd|]. by rewrite En, Ef.
Qed.

Section resolution.
Context (fragments : fragmentMap).

Lemma walkItems_total rec items st (bound : N) :
  (forall items st, (bound <= ws_count st)%N -> exists st', rec items st = Some st' /\ (ws_count st <= ws_count st')%N) ->
  (maxFragmentExpansion <= ws_count st \/ bound <= ws_count st + 1)%N -> exists st', walkItems fragments rec items st = Some st' /\ (ws_count st <= ws_count st')%N.
Proof.
  intros Hrec. revert st. induction items as [|it items IH]; intros st Hb; cbn [walkItems]; [by exists st|].
  destruct (ws_invalid st); [by exists st|]. destruct (decide _) as [|Hroom]; [by exists (invalid st)|]. destruct Hb as [|Hb]; [done|].
  assert (exists st', walkItem fragments rec it (counted st) = Some st' /\ (ws_count st + 1 <= ws_count st')%N) as (st1 & -> & H1).
  { destruct it as [f al|n|inner]; cbn [walkItem].
    - eexists. split; [done|]. destruct (decide _); cbn; lia.
    - destruct (decide _); [by eexists|]. destruct (decide _); [by eexists|]. destruct (fragments !! n) as [frag|]; [|by eexists].
      destruct (Hrec frag (with_seen ({[n]} ∪ ws_seen (counted st)) (counted st))) as (st' & -> & H); [done|]. eexists. split; [done|]. done.
    - destruct (Hrec inner (counted st)) as (st' & -> & H); [done|]. by eexists. }
  cbn. destruct (IH st1) as (st' & -> & H2); [lia|]. exists st'. split; [done|lia].
Qed.

Lemma walk_total fuel items st : (maxFragmentExpansion <= ws_count st + N.of_nat fuel)%N -> exists st', walk fragments (S fuel) items st = Some st' /\ (ws_count st <= ws_count st')%N.
Proof.
  revert items st. induction fuel as [|fuel IH]; intros items st Hf.
  - cbn [walk]. rewrite N.add_0_r in Hf. induction items as [|it items _]; cbn [walkItems]; [by exists st|]. destruct (ws_invalid st); [by exists st|].
    rewrite decide_True by done. by exists (invalid st).
  - change (walk fragments (S (S fuel)) items st) with (walkItems fragments (walk fragments (S fuel)) items st).
    apply (walkItems_total _ _ _ (maxFragmentExpansion - N.of_nat fuel)%N); [|lia]. intros its st' Hb. apply IH. lia.
Qed.

(** What a walk that stays valid adds: exactly the fields that execute. *)
Definition walks (items : list selItem) (st st' : walkState) : Prop :=
  ws_invalid st' = false -> ws_invalid st = false /\ exists more, ws_fields st' = ws_fields st ++ more /\ forall f, f ∈ more <-> executes fragments items f.

Lemma executes_nil f : ~ executes fragments [] f.
Proof. intros H. inversion H as [? ? ? Hin|? ? ? Hin|? ? ? ? Hin]; subst; by apply elem_of_nil in Hin. Qed.

Ltac in_items := first [eassumption | by apply list_elem_of_singleton | by apply list_elem_of_here | by apply list_elem_of_further].
Ltac by_executes := first [solve [eapply ex_field; [in_items|done]] | solve [eapply ex_inline; [in_items|done]] | solve [eapply ex_spread; [in_items|done|done|done]]].

Lemma executes_cons it items f : executes fragments (it :: items) f <-> executes fragments [it] f \/ executes fragments items f.
Proof.
  split.
  - intros H. inversion H as [? ? al Hin Hf|? inner ? Hin Hf|? n frag ? Hin Hn Hl Hf]; subst; apply elem_of_cons in Hin as [Hin|Hin]; subst; first [by left; by_executes|by right; by_executes].
  - intros [H|H]; inversion H as [? ? al Hin Hf|? inner ? Hin Hf|? n frag ? Hin Hn Hl Hf]; subst; try (apply list_elem_of_singleton in Hin; subst); by_executes.
Qed.

Lemma executes_one it f : executes fragments [it] f <->
  match it with
  | SField f' _ => f = f' /\ f <> ""
  | SInline inner => executes fragments inner f
  | SSpread n => n <> "" /\ exists frag, fragments !! n = Some frag /\ executes fragments frag f
  end.
Proof.
  split.
  - intros H. inversion H as [? ? al Hin Hf|? inner ? Hin Hf|? n frag ? Hin Hn Hl Hf]; subst; apply list_elem_of_singleton in Hin; subst; eauto.
  - destruct it as [f' al|n|inner].
    + intros [-> Hf]. eapply ex_field; [by apply list_elem_of_singleton|done].
    + intros (Hn & frag & Hl & Hf). eapply ex_spread; [by apply list_elem_of_singleton|done..].
    + intros Hf. eapply ex_inline; [by apply list_elem_of_singleton|done].
Qed.

Lemma walkItems_exact rec items st st' :
  (forall items st st', rec items st = Some st' -> walks items st st') -> walkItems fragments rec items st = Some st' -> walks items st st'.
Proof.
  intros Hrec. revert st. induction items as [|it items IH]; intros st; cbn [walkItems].
  { intros [= ->] Hv. split; [done|]. exists []. split; [by rewrite app_nil_r|]. intros f. split; [by intros ?%elem_of_nil|by intros ?%executes_nil]. }
  destruct (ws_invalid st) eqn:Ev; [intros [= ->] Hv; congruence|]. destruct (decide _); [intros [= <-]; by intros [=]|].
  destruct (walkItem fragments rec it (counted st)) as [st1|] eqn:E1; cbn; [|done]. intros H Hv. apply IH in H. destruct (H Hv) as (Hv1 & more & Ef & Hm). split; [done|].
  assert (exists one, ws_fields st1 = ws_fields st ++ one /\ forall f, f ∈ one <-> executes fragments [it] f) as (one & E & Hone).
  { setoid_rewrite executes_one. destruct it as [fname al|sp|inner]; cbn [walkItem] in E1.
    - injection E1 as <-. destruct (decide (fname = "")) as [->|Hne].
      + exists []. split; [by rewrite app_nil_r|]. intros g. split; [by intros ?%elem_of_nil|by intros [-> ?]].
      + exists [fname]. split; [done|]. intros g. rewrite list_elem_of_singleton. naive_solver.
    - destruct (decide (sp = "")) as [->|Hn].
      { injection E1 as <-. exists []. split; [by rewrite app_nil_r|]. intros g. split; [by intros ?%elem_of_nil|by intros [? _]]. }
      destruct (decide (sp ∈ ws_seen _)); [injection E1 as <-; done|]. destruct (fragments !! sp) as [frag|]; [|injection E1 as <-; done].
      destruct (rec frag _) as [st2|] eqn:E2; cbn in E1; [|done]. injection E1 as <-. apply Hrec in E2. destruct (E2 Hv1) as (_ & more' & E & Hm').
      exists more'. split; [done|]. intros g. rewrite Hm'. naive_solver.
    - apply Hrec in E1. destruct (E1 Hv1) as (_ & more' & E & Hm'). exists more'. split; [done|]. intros g. by rewrite Hm'. }
  exists (one ++ more). split; [by rewrite Ef, E, app_assoc|]. intros f. by rewrite elem_of_app, executes_cons, Hm, Hone.
Qed.

Lemma walk_exact fuel items st st' : walk fragments fuel items st = Some st' -> walks items st st'.
Proof. revert items st st'. induction fuel as [|fuel IH]; intros items st st'; cbn [walk]; [done|]. by apply walkItems_exact. Qed.

(** What is known of an operation that was resolved. *)
Definition resolved (r : rawOp) (op : RequestOperation) : Prop :=
  op_Kind op = ro_kind r /\ op_Name op = ro_name r /\ forall f, f ∈ op_RootFields op <-> executes fragments (ro_items r) f.

Lemma resolveOp_spec r : resolveOp fragments r <> Err outOfFuel /\ forall op, resolveOp fragments r = Ok op -> resolved r op.
Proof.
  unfold resolveOp, resolveRootFields. generalize (walk_total (N.to_nat maxFragmentExpansion) (ro_items r) walkStart).
  generalize (walk_exact (S (N.to_nat maxFragmentExpansion)) (ro_items r) walkStart). destruct (walk fragments _ _ _) as [st|].
  - intros Hw _. destruct (ws_invalid st) eqn:Ev; [done|]. split; [done|]. intros op [= <-]. destruct (Hw st eq_refl Ev) as (_ & more & E & Hm). cbn in E.
    split_and!; [done|done|]. cbn. by rewrite E.
  - intros _ [st [[=] _]]. rewrite N2Nat.id. apply N.le_add_l.
Qed.

Lemma resolveOps_spec raws : resolveOps fragments raws <> Err outOfFuel /\ forall ops, resolveOps fragments raws = Ok ops -> Forall2 resolved raws ops.
Proof.
  induction raws as [|r raws [IH1 IH2]]; cbn [resolveOps]; [split; [done|]; intros ops [= <-]; constructor|]. destruct (resolveOp_spec r) as [H1 H2]. split.
  - rewrite bind_Err. intros [H|(op & _ & [H|(ops & _ & H)]%bind_Err)]; done.
  - intros ops (op & Hop & (ops' & Hops & [= <-])%bind_Ok)%bind_Ok. constructor; auto.
Qed.
End resolution.

(** What the code makes of a document of the grammar. *)
Definition meaning (ds : list gqlDefinition) : result (list RequestOperation) gqlError :=
  match fragmentsOf ∅ ds with
  | Some frags => if decide (opsOf ds = []) then Err errGraphQLParse else resolveOps frags (opsOf ds)
  | None => Err errGraphQLParse
  end.

Lemma parseTokens_document toks ds : document toks ds -> parseTokens toks = meaning ds.
Proof. intros Hd. unfold parseTokens, meaning. rewrite (definitions_complete _ _ _ _ ds) by done. by destruct (fragmentsOf ∅ ds). Qed.

Lemma meaning_spec ds ops : meaning ds = Ok ops -> exists frags, fragmentsOf ∅ ds = Some frags /\ Forall2 (resolved frags) (opsOf ds) ops.
Proof. unfold meaning. destruct (fragmentsOf ∅ ds) as [frags|]; [|done]. destruct (decide _); [done|]. intros H. exists frags. split; [done|]. by apply resolveOps_spec. Qed.

Lemma parseTokens_sound toks ops : parseTokens toks = Ok ops -> exists ds, document toks ds /\ meaning ds = Ok ops.
Proof.
  intros H. pose proof H as H'. unfold parseTokens in H'. apply bind_Ok in H' as ([frags raws] & (ds & Hd & _)%definitions_sound & _). exists ds. split; [done|]. by rewrite <- (parseTokens_document toks).
Qed.

Lemma parseTokens_fuel toks : parseTokens toks <> Err outOfFuel.
Proof.
  unfold parseTokens. rewrite bind_Err. intros [H|(p & _ & H)]; [by apply definitions_fuel in H|]. destruct (decide _); [done|]. by apply resolveOps_spec in H.
Qed.

(** ** The spelling of tokens *)

Definition stops (f : ascii -> bool) (s : list ascii) : Prop := match s with c :: _ => f c = false | [] => True end.

(** The inside of a string, and of a block string with its closing quotes. *)
Inductive string_text : list ascii -> Prop :=
| tx_nil : string_text []
| tx_escape d s : string_text s -> string_text (backslash :: d :: s)
| tx_char c s : c ∉ [backslash; quote; newline; return_] -> string_text s -> string_text (c :: s).

Inductive block_text : list ascii -> Prop :=
| bt_end : block_text [quote; quote; quote]
| bt_escape s : block_text s -> block_text (backslash :: quote :: quote :: quote :: s)
| bt_char c s : take 3 (c :: s) <> [quote; quote; quote] -> take 4 (c :: s) <> [backslash; quote; quote; quote] -> block_text s -> block_text (c :: s).

(** A token and its text, before the text [s]. *)
Inductive lexeme (s : list ascii) : list ascii -> gqlToken -> Prop :=
| lx_punct c : isPunctByte c = true -> lexeme s [c] (punct (String c ""))
| lx_dots : lexeme s ["."%char; "."%char; "."%char] (punct "...")
| lx_name c cs : isNameStart c = true -> Forall (fun c => isNameCont c = true) cs -> stops isNameCont s -> lexeme s (c :: cs) (name (String c (string_of_list_ascii cs)))
| lx_number c cs : c = "-"%char \/ isDigit c = true -> Forall (fun c => isNumberCont c = true) cs -> stops isNumberCont s -> lexeme s (c :: cs) other
| lx_string cs : string_text cs -> (cs = [] -> stops (fun c => bool_decide (c = quote)) s) -> lexeme s (quote :: cs ++ [quote]) other
| lx_block cs : block_text cs -> lexeme s (quote :: quote :: quote :: cs) other.

Inductive spelled : list ascii -> tokens -> Prop :=
| sp_end : spelled [] []
| sp_ignored c s ts : ignored c = true -> spelled s ts -> spelled (c :: s) ts
| sp_comment body s ts : Forall (fun c => c <> newline) body -> stops (fun c => bool_decide (c <> newline)) s -> spelled s ts -> spelled ("#"%char :: body ++ s) ts
| sp_token l t s ts : lexeme s l t -> spelled s ts -> spelled (l ++ s) (t :: ts).

Lemma spanLen_app f cs s : Forall (fun c => f c = true) cs -> stops f s -> spanLen f (cs ++ s) = length cs.
Proof. induction 1 as [|c cs Hc _ IH]; intros Hs; cbn; [destruct s as [|c s]; [done|]; cbn in *; by rewrite Hs|]. rewrite Hc. by rewrite IH. Qed.

Lemma spanLen_split f s : Forall (fun c => f c = true) (take (spanLen f s) s) /\ stops f (drop (spanLen f s) s).
Proof. induction s as [|c s [IH1 IH2]]; cbn; [by split; [constructor|]|]. destruct (f c) eqn:E; cbn; [split; [by constructor|done]|by split; [constructor|]]. Qed.

Lemma stringEnd_app cs s : string_text cs -> stringEnd (cs ++ quote :: s) = Some (S (length cs)).
Proof.
  induction 1 as [|d cs _ IH|c cs Hc _ IH]; cbn [app stringEnd length]; [done|by rewrite decide_True, IH|]. rewrite !not_elem_of_cons in Hc. destruct Hc as (H1 & H2 & H3 & H4 & _).
  rewrite !decide_False by naive_solver. by rewrite IH.
Qed.

Lemma stringEnd_sound n s k : length s <= n -> stringEnd s = Some k -> exists cs, string_text cs /\ s = cs ++ quote :: drop k s /\ k = S (length cs).
Proof.
  revert s k. induction n as [|n IH]; intros [|c s] k Hn; cbn [stringEnd]; try done; [cbn in Hn; lia|]. cbn in Hn.
  destruct (decide (c = backslash)) as [->|H1].
  - destruct s as [|d s]; [done|]. destruct (stringEnd s) as [k'|] eqn:E; cbn; [|done]. intros [= <-]. apply IH in E as (cs & Hcs & Es & ->); [|cbn in Hn; lia].
    exists (backslash :: d :: cs). split_and!; [by constructor|cbn in *; by do 2 f_equal|done].
  - destruct (decide (c = quote)) as [->|H2]; [intros [= <-]; by exists []; split; [constructor|]|]. destruct (decide _) as [|H3]; [done|].
    destruct (stringEnd s) as [k'|] eqn:E; cbn; [|done]. intros [= <-]. apply IH in E as (cs & Hcs & Es & ->); [|lia].
    exists (c :: cs). split_and!; [constructor; [|done]|cbn in *; by f_equal|done].
    rewrite !not_elem_of_cons. split_and!; [done|done|intros ->; apply H3; auto|intros ->; apply H3; auto|apply not_elem_of_nil].
Qed.

Lemma block_text_long s : block_text s -> exists a b c r, s = a :: b :: c :: r.
Proof. induction 1 as [|s _ (a & b & c & r & ->)|x s _ _ _ (a & b & c & r & ->)]; by do 4 eexists. Qed.

Lemma blockEnd_app t s : block_text t -> blockEnd (t ++ s) = Some (length t).
Proof.
  induction 1 as [|t Ht IH|c t H3 H4 Ht IH]; [done|..].
  - cbn [app length blockEnd]. rewrite decide_False by (by intros [[=] _]). rewrite decide_True by done. by rewrite IH.
  - destruct (block_text_long _ Ht) as (a & b & d & r & ->). cbn [app length] in *. cbn [blockEnd] in *. cbn [app take] in *.
    rewrite decide_False by (intros (-> & -> & ->); done). rewrite decide_False by (intros (-> & -> & -> & ->); done). by rewrite IH.
Qed.

Lemma blockEnd_sound n s k : length s <= n -> blockEnd s = Some k -> exists t, block_text t /\ s = t ++ drop k s /\ k = length t.
Proof.
  revert s k. induction n as [|n IH]; intros [|c s] k Hn; cbn [blockEnd]; try done; [cbn in Hn; lia|]. cbn in Hn.
  assert (forall k', blockEnd s = Some k' -> (forall t, s = t ++ drop k' s -> block_text t -> take 3 (c :: t) <> [quote; quote; quote] /\ take 4 (c :: t) <> [backslash; quote; quote; quote]) ->
    k = S k' -> exists t, block_text t /\ c :: s = t ++ drop k (c :: s) /\ k = length t) as Hnext.
  { intros k' E Hc ->. apply IH in E as (t & Ht & Es & Ek); [|lia]. destruct (Hc t Es Ht). exists (c :: t). split_and!; [by constructor|cbn; by f_equal|cbn; by f_equal]. }
  destruct s as [|a [|b s]]; [cbn; done|cbn; by repeat case_decide|].
  destruct (decide (threeQuotes c a b)) as [(-> & -> & ->)|Hq].
  { intros [= <-]. exists [quote; quote; quote]. split_and!; [constructor|done|done]. }
  destruct s as [|d s].
  { destruct (blockEnd (a :: b :: [])) as [k'|] eqn:E; cbn; [|done]. intros [= <-]. eapply Hnext; [done| |done]. intros t Et Ht. apply block_text_long in Ht as (x & y & z & r & ->). apply (f_equal length) in Et. cbn in Et. lia. }
  destruct (decide (c = backslash /\ threeQuotes a b d)) as [(-> & -> & -> & ->)|Hb].
  { destruct (blockEnd s) as [k'|] eqn:E; cbn; [|done]. intros [= <-]. apply IH in E as (t & Ht & Es & ->); [|cbn in Hn; lia]. exists (backslash :: quote :: quote :: quote :: t).
    split_and!; [by constructor|cbn; by do 4 f_equal|done]. }
  destruct (blockEnd (a :: b :: d :: s)) as [k'|] eqn:E; cbn [mbind option_bind]; [|done]. intros [= <-]. eapply Hnext; [done| |done].
  intros t Et Ht. apply block_text_long in Ht as (x & y & z & r & ->). injection Et as <- <- <- _. cbn [take]. split; intros [=]; subst; [by apply Hq|by apply Hb].
Qed.

Definition token_then (count : N) (s : list ascii) (t : gqlToken) (k : nat) : result (list gqlToken) gqlError :=
  match lexLoop (count + 1) (drop k s) with Ok ts => Ok (t :: ts) | Err e => Err e end.

Lemma lexLoop_cons count c s :
  lexLoop count (c :: s) =
    if decide (maxGraphQLTokens <= count)%N then Err errGraphQLParse
    else if ignored c then lexLoop count s
    else if decide (c = "#"%char) then lexLoop count (drop (spanLen (fun c => bool_decide (c <> newline)) s) s)
    else if decide (c = quote) then match indexStringEnd s with Some k => token_then count s other k | None => Err errGraphQLParse end
    else if decide (c = "."%char) then if decide (take 2 s = ["."%char; "."%char]) then token_then count s (punct "...") 2 else Err errGraphQLParse
    else if isPunctByte c then token_then count s (punct (String c "")) 0
    else if isNameStart c then token_then count s (name (String c (string_of_list_ascii (take (spanLen isNameCont s) s)))) (spanLen isNameCont s)
    else if decide (c = "-"%char \/ isDigit c = true) then token_then count s other (spanLen isNumberCont s)
    else Err errGraphQLParse.
Proof. by rewrite lexLoop_equation_2. Qed.

Lemma lexLoop_nil count : lexLoop count [] = Ok [].
Proof. by rewrite lexLoop_equation_1. Qed.

(** The tests that come before the one for a byte. *)
Definition free (c : ascii) : Prop := ignored c = false /\ c <> "#"%char /\ c <> quote /\ c <> "."%char.

Lemma byte_classes c :
  (isPunctByte c = true -> free c) /\ (isNameStart c = true -> free c /\ isPunctByte c = false) /\
  (c = "-"%char \/ isDigit c = true -> free c /\ isPunctByte c = false /\ isNameStart c = false).
Proof.
  unfold free. destruct c as [[] [] [] [] [] [] [] []]; vm_compute; (split_and!; [by intros [=] || by intros _|by intros [=] || by intros _|intros [?|?]; (done || by split_and!)]).
Qed.

Lemma free_lex count c s :
  free c -> (count < maxGraphQLTokens)%N ->
  lexLoop count (c :: s) =
    if isPunctByte c then token_then count s (punct (String c "")) 0
    else if isNameStart c then token_then count s (name (String c (string_of_list_ascii (take (spanLen isNameCont s) s)))) (spanLen isNameCont s)
    else if decide (c = "-"%char \/ isDigit c = true) then token_then count s other (spanLen isNumberCont s)
    else Err errGraphQLParse.
Proof. intros (H1 & H2 & H3 & H4) Hc. rewrite lexLoop_cons, decide_False by lia. rewrite H1. by rewrite (decide_False (P := c = "#"%char)), (decide_False (P := c = quote)), (decide_False (P := c = "."%char)). Qed.

Lemma indexStringEnd_string cs s : string_text cs -> (cs = [] -> stops (fun c => bool_decide (c = quote)) s) -> indexStringEnd (cs ++ quote :: s) = Some (S (length cs)).
Proof.
  intros Ht Hs. pose proof (stringEnd_app cs s Ht) as E. destruct Ht as [|d cs Ht|c cs Hc Ht]; cbn [app] in *; unfold indexStringEnd.
  - destruct s as [|b s]; [exact E|]. specialize (Hs eq_refl). cbn in Hs. apply bool_decide_eq_false in Hs. rewrite decide_False; [exact E|]. by intros [_ ?].
  - rewrite decide_False; [exact E|]. by intros [[=] _].
  - destruct (cs ++ quote :: s) as [|b r]; [exact E|]. rewrite decide_False; [exact E|]. intros [-> _]. apply Hc. by apply elem_of_cons; right; apply list_elem_of_here.
Qed.

Lemma indexStringEnd_sound s k :
  indexStringEnd s = Some k -> exists l, lexeme (drop k s) l other /\ quote :: s = l ++ drop k s.
Proof.
  assert (forall s k, stringEnd s = Some k -> (forall a b r, s = a :: b :: r -> ~ (a = quote /\ b = quote)) -> exists l, lexeme (drop k s) l other /\ quote :: s = l ++ drop k s) as Hstr.
  { clear s k. intros s k H Hab. apply (stringEnd_sound (length s)) in H as (cs & Hcs & Es & ->); [|done]. exists (quote :: cs ++ [quote]). split; [|rewrite Es at 1; by app_norm].
    apply lx_string; [done|]. intros ->. cbn [app length drop] in *. destruct s as [|x s]; [done|]. cbn in *. injection Es as ->. destruct s as [|b r]; [done|]. cbn. apply bool_decide_eq_false. intros ->. by eapply Hab. }
  unfold indexStringEnd. destruct s as [|a [|b s]]; [done|by intros H; apply Hstr|].
  destruct (decide (a = quote /\ b = quote)) as [[-> ->]|Hn]; [|intros H; apply Hstr; [done|]; by intros ? ? ? [= <- <- _]].
  destruct (blockEnd s) as [n|] eqn:E; cbn; [|done]. intros [= <-]. apply (blockEnd_sound (length s)) in E as (t & Ht & Es & ->); [|done].
  exists (quote :: quote :: quote :: t). cbn [drop]. split; [by constructor|]. cbn. by do 3 f_equal.
Qed.

Lemma lexLoop_sound n count s ts : length s <= n -> lexLoop count s = Ok ts -> spelled s ts.
Proof.
  revert count s ts. induction n as [|n IH]; intros count [|c s] ts Hn; try (cbn in Hn; lia); [rewrite lexLoop_nil; intros [= <-]; constructor..|]. cbn in Hn.
  assert (forall t k l, token_then count s t k = Ok ts -> lexeme (drop k s) l t -> c :: s = l ++ drop k s -> spelled (c :: s) ts) as Hnext.
  { unfold token_then. intros t k l H Hl ->. destruct (lexLoop _ (drop k s)) as [ts'|] eqn:E; [|done]. injection H as <-. constructor; [done|]. eapply IH; [|exact E]. rewrite length_drop. lia. }
  rewrite lexLoop_cons. destruct (decide _); [done|]. destruct (ignored c) eqn:Ei; [intros H; constructor; [done|]; eapply IH; [lia|exact H]|].
  destruct (decide (c = "#"%char)) as [->|_].
  { intros H. destruct (spanLen_split (fun c => bool_decide (c <> newline)) s) as [H1 H2]. rewrite <- (take_drop (spanLen (fun c => bool_decide (c <> newline)) s) s) at 1.
    apply sp_comment; [|done|eapply IH; [|exact H]; rewrite length_drop; lia]. eapply Forall_impl; [exact H1|]. intros x. apply bool_decide_eq_true. }
  destruct (decide (c = quote)) as [->|_].
  { destruct (indexStringEnd s) as [k|] eqn:Ek; [|done]. intros H. apply indexStringEnd_sound in Ek as (l & Hl & E). by eapply Hnext. }
  destruct (decide (c = "."%char)) as [->|_].
  { destruct (decide (take 2 s = _)) as [E|]; [|done]. intros H. eapply Hnext; [exact H|constructor|]. rewrite <- (take_drop 2 s) at 1. by rewrite E. }
  destruct (isPunctByte c) eqn:Ep; [intros H; eapply Hnext; [exact H|by constructor|done]|].
  destruct (isNameStart c) eqn:Es.
  { intros H. destruct (spanLen_split isNameCont s) as [H1 H2]. eapply Hnext; [exact H|by constructor|]. cbn. f_equal. by rewrite take_drop. }
  destruct (decide _) as [Hd|]; [|done]. intros H. destruct (spanLen_split isNumberCont s) as [H1 H2].
  eapply Hnext; [exact H|apply (lx_number _ c (take (spanLen isNumberCont s) s)); done|]. cbn. f_equal. by rewrite take_drop.
Qed.

Lemma lexLoop_complete count s ts : spelled s ts -> (count + N.of_nat (length ts) < maxGraphQLTokens)%N -> lexLoop count s = Ok ts.
Proof.
  intros H. revert count. induction H as [|c s ts Hc _ IH|body s ts Hb Hs _ IH|l t s ts Hl _ IH]; intros count Hn.
  - by rewrite lexLoop_nil.
  - rewrite lexLoop_cons, decide_False by lia. rewrite Hc. by apply IH.
  - rewrite lexLoop_cons, decide_False by lia. change (ignored "#") with false. cbv iota. rewrite decide_True by done.
    rewrite spanLen_app by (done || by eapply Forall_impl; [exact Hb|intros x; apply bool_decide_eq_true_2]). rewrite drop_app_length. by apply IH.
  - cbn [length] in Hn. assert (forall s' k, drop k s' = s -> token_then count s' t k = Ok (t :: ts)) as Hnext by (intros s' k E; unfold token_then; rewrite E, IH; [done|lia]).
    assert (count < maxGraphQLTokens)%N as Hc by lia.
    destruct Hl as [c Hp| |c cs Hc1 Hcs Hs|c cs Hc1 Hcs Hs|cs Ht Hs|cs Ht]; cbn [app].
    + pose proof (proj1 (byte_classes c) Hp) as Hfree. rewrite free_lex by done. rewrite Hp. by apply Hnext.
    + rewrite lexLoop_cons, decide_False by lia. change (ignored ".") with false. cbv iota. rewrite (decide_False (P := "."%char = "#"%char)), (decide_False (P := "."%char = quote)) by done.
      rewrite decide_True by done. cbn [take]. rewrite decide_True by done. by apply Hnext.
    + destruct (proj1 (proj2 (byte_classes c)) Hc1) as [Hfree Hp]. rewrite free_lex by done. rewrite Hp, Hc1, spanLen_app, take_app_length by done. apply Hnext. by rewrite drop_app_length.
    + destruct (proj2 (proj2 (byte_classes c)) Hc1) as (Hfree & Hp & Hnm). rewrite free_lex by done. rewrite Hp, Hnm, decide_True, spanLen_app by done. apply Hnext. by rewrite drop_app_length.
    + rewrite lexLoop_cons, decide_False by lia. change (ignored quote) with false. cbv iota. rewrite (decide_False (P := quote = "#"%char)), decide_True by done.
      rewrite <- app_assoc. cbn [app]. rewrite indexStringEnd_string by done. apply Hnext. cbn [drop]. change (cs ++ quote :: s) with (cs ++ [quote] ++ s).
      rewrite app_assoc. replace (S (length cs)) with (length (cs ++ [quote])) by (rewrite length_app; cbn; lia). by rewrite drop_app_length.
    + rewrite lexLoop_cons, decide_False by lia. change (ignored quote) with false. cbv iota. rewrite (decide_False (P := quote = "#"%char)), decide_True by done.
      unfold indexStringEnd. rewrite decide_True by done. rewrite blockEnd_app by done. cbn. apply Hnext. cbn [drop]. by rewrite drop_app_length.
Qed.

Lemma lexLoop_fuel n count s : length s <= n -> lexLoop count s <> Err outOfFuel.
Proof.
  revert count s. induction n as [|n IH]; intros count [|c s] Hn; try (cbn in Hn; lia); [by rewrite lexLoop_nil..|]. cbn in Hn.
  assert (forall t k, token_then count s t k <> Err outOfFuel) as Htok.
  { intros t k. unfold token_then. pose proof (IH (count + 1)%N (drop k s)) as H. rewrite length_drop in H. destruct (lexLoop _ _); [done|]. intros [= ->]. apply H; [lia|done]. }
  rewrite lexLoop_cons. repeat (case_decide || case_match); try done; apply IH; rewrite ?length_drop; lia.
Qed.

(** The lexer reads exactly the spellings of a list of tokens. *)
Lemma lexer_exact src toks :
  (lexGraphQL src = Ok toks -> spelled (trimBOM (list_ascii_of_string src)) toks) /\
  (spelled (trimBOM (list_ascii_of_string src)) toks -> (N.of_nat (length toks) < maxGraphQLTokens)%N -> lexGraphQL src = Ok toks).
Proof. split; [intros H; eapply lexLoop_sound; [reflexivity|exact H]|]. intros H Hl. by apply lexLoop_complete. Qed.

(** C9: no operation and no field hides from the policy. The result of
    [parseGraphQLDocument] depends on nothing but the structure of the document: a text
    is accepted only if it spells a document of the grammar, and whatever its
    white space, comments, strings, arguments, directives, aliases and nesting, the result is
    the meaning of that document, which is an error or has one entry for each operation, with its kind,
    its name and exactly the fields that execute at its root, in fragments
    and inline fragments too. The bound on nesting is part of the grammar; a document with
    too many tokens is refused. *)
Theorem fields_exact src :
  parseGraphQLDocument src <> Err outOfFuel /\
  (forall ops, parseGraphQLDocument src = Ok ops ->
     exists toks ds, spelled (trimBOM (list_ascii_of_string src)) toks /\ document toks ds /\ meaning ds = Ok ops) /\
  (forall toks ds, spelled (trimBOM (list_ascii_of_string src)) toks -> document toks ds -> (N.of_nat (length toks) < maxGraphQLTokens)%N ->
     parseGraphQLDocument src = meaning ds) /\
  (forall ds ops, meaning ds = Ok ops -> exists frags, fragmentsOf ∅ ds = Some frags /\ Forall2 (resolved frags) (opsOf ds) ops).
Proof.
  unfold parseGraphQLDocument. split_and!.
  - rewrite bind_Err. intros [H|(toks & _ & H)]; [by eapply lexLoop_fuel in H|by apply parseTokens_fuel in H].
  - intros ops (toks & Hl & (ds & Hd & Hm)%parseTokens_sound)%bind_Ok. exists toks, ds. split; [by apply lexer_exact|done].
  - intros toks ds Hs Hd Hl. apply lexer_exact in Hs as ->; [|done]. by apply parseTokens_document.
  - apply meaning_spec.
Qed.

(** ** Examples *)

(** A string that looks like the end of the selection, an alias, and a field in a
    fragment. *)
Definition demo_document : string :=
  "mutation Pay($x: [Int!] = [1, 2]) { ok: safe(a: '} drop {') @skip(if: $x) { deep { er } } ...F } fragment F on M { wipe } # end".
Definition quoted (s : string) : string := string_of_list_ascii ((fun c => if decide (c = "'"%char) then quote else c) <$> list_ascii_of_string s).
Definition demo_op : RequestOperation := {| op_Kind := "mutation"; op_Name := "Pay"; op_RootFields := ["safe"; "wipe"]; op_Aliased := true |}.

Lemma fields_exact_witness :
  parseGraphQLDocument (quoted demo_document) = Ok [demo_op] /\
  exists toks ds, spelled (trimBOM (list_ascii_of_string (quoted demo_document))) toks /\ document toks ds /\ meaning ds = Ok [demo_op].
Proof.
  assert (parseGraphQLDocument (quoted demo_document) = Ok [demo_op]) as E by (vm_compute; reflexivity). split; [exact E|].
  exact (proj1 (proj2 (fields_exact (quoted demo_document))) [demo_op] E).
Defined.

(** A fragment that spreads itself, one that is not defined and one that is defined twice
    are refused. *)
Example unclassifiable :
  parseGraphQLDocument "{ ...F } fragment F on Q { ...F }" = Err errGraphQLParse /\
  parseGraphQLDocument "{ a ...G }" = Err errGraphQLParse /\
  parseGraphQLDocument "{ ...F } fragment F on Q { a } fragment F on Q { b }" = Err errGraphQLParse.
Proof. vm_compute. repeat split. Qed.
