(* ===== verification/ReqPolicy.v ===== *)
(** * The request policy

    [internal/reqpolicy] and the part of the proxy that applies it
    ([internal/proxy/requestpolicy.go], [requestpolicy_operations.go]): operator rules
    that block or warn about API operations, by route, by the GraphQL operations in the
    body (GraphQL.v), by a discriminator field, and inside batches.

    Regular expressions, the parsers of URLs, of JSON and of MIME bodies, and the case
    mappings of non-ASCII text are arguments. A JSON text is known by its shape: the
    members of an object in the order of the text, with repetitions and the texts of
    their values. *)

From Stdlib Require Import Ascii.
From stdpp Require Import list gmap strings sorting.
From S2P Require Import Prelude GoStrings GoUrl Config Destination GraphQL.
Local Open Scope string_scope.
Local Open Scope list_scope.

Set Default Proof Using "Type".

(** ** Paths *)

(** [url.PathUnescape]: like [url.QueryUnescape], but a plus sign is one. *)
Fixpoint PathUnescape (s : string) : option string :=
  match s with
  | EmptyString => Some EmptyString
  | String "%" (String a (String b s)) =>
      match Url.hex_value a, Url.hex_value b with
      | Some x, Some y => String (Url.byte_of (16 * x + y)) <$> PathUnescape s
      | _, _ => None
      end
  | String "%" _ => None
  | String c s => String c <$> PathUnescape s
  end.

(** [path.Clean]: the segments, with a stack for the dot-dot segments. *)
Definition cleanStep (rooted : bool) (stack : list string) (seg : string) : list string :=
  if decide (seg = "" \/ seg = ".") then stack
  else if decide (seg = "..") then
    match stack with
    | [] => if rooted then [] else [".."]
    | top :: rest => if decide (top = "..") then if rooted then stack else ".." :: stack else rest
    end
  else seg :: stack.

Definition Clean (p : string) : string :=
  let rooted := Strings.HasPrefix p "/" in
  let out := Strings.Join (reverse (foldl (cleanStep rooted) [] (Strings.Split p "/"))) "/" in
  if rooted then "/" +:+ out else if decide (out = "") then "." else out.

Definition maxUnescapeRounds : nat := 5.

Fixpoint unescapeRounds (rounds : nat) (raw : string) : string :=
  match rounds with
  | O => raw
  | S rounds => match PathUnescape raw with Some dec => if decide (dec = raw) then raw else unescapeRounds rounds dec | None => raw end
  end.

(** What stands before the first byte of a set. *)
Fixpoint cutAny (cut : list ascii) (s : string) : string :=
  match s with
  | EmptyString => EmptyString
  | String c s => if decide (c ∈ cut) then EmptyString else String c (cutAny cut s)
  end.

Definition NormalizePath (raw : string) : string :=
  if decide (raw = "") then "/"
  else
    let raw := unescapeRounds maxUnescapeRounds (cutAny ["?"; "#"]%char raw) in
    let raw := Strings.Join (cutAny [";"%char] <$> Strings.Split raw "/") "/" in
    let hadTrailingSlash := negb (bool_decide (raw = "/")) && Strings.HasSuffix raw "/" in
    let cleaned := Clean raw in
    let cleaned := if Strings.HasPrefix cleaned "/" then cleaned else "/" +:+ cleaned in
    if hadTrailingSlash && negb (bool_decide (cleaned = "/")) then cleaned +:+ "/" else cleaned.

(** ** Configuration *)

Record RequestPolicyRoute := { rt_Hosts : list string; rt_Methods : list string; rt_PathPrefixes : list string; rt_PathPatterns : list string; rt_ContentTypes : list string }.
Record RequestPolicyGraphQL := { gq_OperationTypes : list string; gq_RootFieldPatterns : list string }.
Record RequestPolicyDiscriminator := { dc_Field : string; dc_ValuePatterns : list string }.
Record RequestPolicyRule := {
  rl_Name : string; rl_Action : string; rl_Shadow : bool; rl_Route : RequestPolicyRoute;
  rl_GraphQL : option RequestPolicyGraphQL; rl_Discriminator : option RequestPolicyDiscriminator; rl_Reason : string;
}.
Record RequestPolicyBatch := { bt_Route : RequestPolicyRoute; bt_RequestsField : string; bt_MethodField : string; bt_URLField : string; bt_BodyField : string; bt_MaxSubRequests : Z }.
Record RequestPolicy := { rp_Enabled : bool; rp_OnParseError : string; rp_OnOpaqueOperation : string; rp_Rules : list RequestPolicyRule; rp_Batch : list RequestPolicyBatch }.

(** ** Decisions *)

Record PolicyDecision := { de_Action : string; de_RuleName : string; de_Reason : string; de_Shadow : bool }.
Definition allow : PolicyDecision := {| de_Action := ""; de_RuleName := ""; de_Reason := ""; de_Shadow := false |}.

Definition Matched (d : PolicyDecision) : bool := negb (bool_decide (de_Action d = "")).
Definition Enforced (d : PolicyDecision) : bool := negb (bool_decide (de_Action d = "")) && negb (de_Shadow d).

Definition actionRank (a : string) : nat := if decide (a = ActionBlock) then 2 else if decide (a = ActionWarn) then 1 else 0.

Definition betterDecision (cand cur : PolicyDecision) : bool :=
  if decide (actionRank (de_Action cand) <> actionRank (de_Action cur)) then bool_decide (actionRank (de_Action cur) < actionRank (de_Action cand))
  else if decide (de_Action cand = "") then false
  else negb (de_Shadow cand) && de_Shadow cur.

Definition Stricter (a b : PolicyDecision) : PolicyDecision := if betterDecision a b then a else b.

(** A decision that stops the request. *)
Definition blocks (d : PolicyDecision) : bool := Enforced d && bool_decide (de_Action d = ActionBlock).

(** ** Requests *)

(** The shape of a JSON text. *)
Inductive jsonShape :=
| ShObject (members : list (string * string))
| ShArray (elements : list string)
| ShString (s : string)
| ShNull
| ShOther.

Record RequestMeta := {
  me_Host : string; me_Method : string; me_Path : string; me_ContentType : string;
  me_Operations : list RequestOperation;
  me_JSONBody : option jsonShape;
  me_JSONDupKeys : gset string;
}.

(** The last value of a key, as a map keeps it. *)
Definition member (key : string) (members : list (string * string)) : option string :=
  snd <$> last (filter (fun kv => kv.1 = key) members).

Inductive discOutcome := discNoMatch | discMatch | discOpaque.
#[export] Instance discOutcome_eq_dec : EqDecision discOutcome.
Proof. solve_decision. Defined.

Inductive BodyPredicateKind := PredAnyBody | PredGraphQL | PredDiscriminator.

(** ** Strings and headers *)

Definition ascii_upper (c : ascii) : ascii :=
  let n := N_of_ascii c in if decide (97 <= n <= 122)%N then ascii_of_N (n - 32) else c.

Definition map_string (f : ascii -> ascii) (s : string) : string := string_of_list_ascii (f <$> list_ascii_of_string s).

(** [strings.Trim] for a set of bytes. *)
Fixpoint drop_in (cut l : list ascii) : list ascii :=
  match l with c :: l' => if decide (c ∈ cut) then drop_in cut l' else l | [] => [] end.
Definition TrimSet (cut : list ascii) (s : string) : string :=
  string_of_list_ascii (reverse (drop_in cut (reverse (drop_in cut (list_ascii_of_string s))))).

(** [http.Header.Get]: headers are kept under their canonical names. *)
Notation Header := (gmap string (list string)).

Fixpoint canonicalKey (upper : bool) (s : string) : string :=
  match s with
  | EmptyString => EmptyString
  | String c s => String (if upper then ascii_upper c else Strings.ascii_lower c) (canonicalKey (bool_decide (c = "-"%char)) s)
  end.

Definition HeaderGet (h : Header) (key : string) : string := default "" (head (default [] (h !! canonicalKey true key))).

(** [url.ParseQuery]: the pairs in order; [None] if any of them is malformed. *)
Definition queryPair (piece : string) : option (string * string) :=
  if Strings.ContainsByte piece ";" then None
  else
    let (k, v) := default (piece, "") (Strings.Cut piece "=") in
    k ← Url.QueryUnescape k; v ← Url.QueryUnescape v; Some (k, v).

Definition ParseQuery (q : string) : option (list (string * string)) :=
  mapM queryPair (filter (fun piece => piece <> "") (Strings.Split q "&")).

Definition ValuesGet (vals : list (string * string)) (key : string) : string :=
  default "" (snd <$> head (filter (fun kv => kv.1 = key) vals)).

Definition methodOverrideHeaders : list string := ["X-HTTP-Method-Override"; "X-Method-Override"; "X-HTTP-Method"].

Definition isStandardMethod (m : string) : bool :=
  bool_decide (m ∈ ["GET"; "HEAD"; "POST"; "PUT"; "PATCH"; "DELETE"; "CONNECT"; "OPTIONS"; "TRACE"; "QUERY"]).

(** Equal but for the case of ASCII letters: how [encoding/json] finds the field of a key, and
    [strings.EqualFold], for an ASCII text without the letters k and s. *)
Definition foldEqual (key field : string) : bool := bool_decide (map_string Strings.ascii_lower key = map_string Strings.ascii_lower field).

Definition maxBatchDepth : nat := 4.
Definition batchRuleName : string := "batch".
Definition jsonContentType : string := "application/json".

(** What the package takes from the standard library's parsers. *)
Section policy.
Context (unicode_lower unicode_upper : string -> string).
Context (ParseURL : string -> option Url.URL) (EscapedPath : Url.URL -> string).
Context (Compile : string -> option (string -> bool)).
Context (shape : string -> option jsonShape) (Marshal : list (string * string) -> string).

Definition ToLower (s : string) : string := Strings.ToLower unicode_lower s.
Definition ToUpper (s : string) : string := if Strings.is_ascii s then map_string ascii_upper s else unicode_upper s.

Definition normalizeMethod (m : string) : string := ToUpper (Strings.TrimSpace m).

Definition EffectiveMethod (m : string) (headers : Header) : string :=
  default (normalizeMethod m) (find isStandardMethod ((fun h => normalizeMethod (HeaderGet headers h)) <$> methodOverrideHeaders)).

Definition NormalizeHost (raw : string) : string :=
  let raw := Strings.TrimSpace (ToLower raw) in
  if decide (raw = "") then ""
  else
    let raw := match ParseURL raw with Some u => if decide (Url.u_Host u <> "") then Url.u_Host u else raw | None => raw end in
    let raw := match SplitHostPort raw with Some (h, _) => h | None => raw end in
    Strings.TrimSuffix (TrimSet ["["; "]"]%char raw) ".".

Definition NormalizeContentType (ct : string) : string := ToLower (Strings.TrimSpace (cutAny [";"%char] ct)).

Definition hostMatches (host : string) (patterns : list string) : bool :=
  let host := NormalizeHost host in
  existsb (fun p =>
    bool_decide (p = host) ||
    match Strings.CutPrefix p "*" with
    | Some suffix => Strings.HasPrefix suffix "." && (bool_decide (Some host = Strings.CutPrefix suffix ".") || Strings.HasSuffix host suffix)
    | None => false
    end) patterns.

(** ** The compiled rules *)

Record compiledRoute := {
  cr_hosts : list string; cr_methods : option (gset string); cr_pathPrefixes : list string;
  cr_pathPatterns : list (string -> bool); cr_contentTypes : option (gset string);
}.
Record gqlPredicate := { gp_opTypes : gset string; gp_rootFieldRes : list (string -> bool) }.
Record discPredicate := { dp_field : string; dp_valueRes : list (string -> bool) }.
Record compiledRule := {
  cl_name : string; cl_action : string; cl_reason : string; cl_shadow : bool; cl_route : compiledRoute;
  cl_graphql : option gqlPredicate; cl_disc : option discPredicate;
}.
Record compiledBatch := {
  cb_route : compiledRoute; cb_requestsField : string; cb_methodField : string; cb_urlField : string; cb_bodyField : string; cb_maxSubRequests : Z;
}.
Record Matcher := { ma_enabled : bool; ma_onParseError : string; ma_onOpaqueOperation : string; ma_rules : list compiledRule; ma_batches : list compiledBatch }.

Definition nonempty_set (l : list string) : option (gset string) := if decide (l = []) then None else Some (list_to_set l).

(** [None]: a pattern that does not compile. *)
Definition compileRoute (route : RequestPolicyRoute) : option compiledRoute :=
  res ← mapM Compile (rt_PathPatterns route);
  Some {| cr_hosts := NormalizeHost <$> rt_Hosts route;
          cr_methods := nonempty_set (normalizeMethod <$> rt_Methods route);
          cr_pathPrefixes := (fun p => NormalizePath (Strings.TrimSpace p)) <$> rt_PathPrefixes route;
          cr_pathPatterns := res;
          cr_contentTypes := nonempty_set (NormalizeContentType <$> rt_ContentTypes route) |}.

Definition compileGraphQLPredicate (g : option RequestPolicyGraphQL) : option (option gqlPredicate) :=
  match g with
  | None => Some None
  | Some g =>
      res ← mapM Compile (gq_RootFieldPatterns g);
      Some (Some {| gp_opTypes := list_to_set ((fun t => ToLower (Strings.TrimSpace t)) <$> gq_OperationTypes g); gp_rootFieldRes := res |})
  end.

Definition compileDiscriminatorPredicate (d : option RequestPolicyDiscriminator) : option (option discPredicate) :=
  match d with
  | None => Some None
  | Some d =>
      res ← mapM (fun p => Compile (Strings.TrimSpace p)) (dc_ValuePatterns d);
      Some (Some {| dp_field := Strings.TrimSpace (dc_Field d); dp_valueRes := res |})
  end.

Definition compileRule (r : RequestPolicyRule) : option compiledRule :=
  route ← compileRoute (rl_Route r);
  pred ← compileGraphQLPredicate (rl_GraphQL r);
  disc ← compileDiscriminatorPredicate (rl_Discriminator r);
  Some {| cl_name := rl_Name r; cl_action := rl_Action r; cl_reason := rl_Reason r; cl_shadow := rl_Shadow r; cl_route := route;
          cl_graphql := pred; cl_disc := disc |}.

Definition compileBatch (b : RequestPolicyBatch) : option compiledBatch :=
  route ← compileRoute (bt_Route b);
  Some {| cb_route := route; cb_requestsField := bt_RequestsField b; cb_methodField := bt_MethodField b; cb_urlField := bt_URLField b;
          cb_bodyField := bt_BodyField b; cb_maxSubRequests := bt_MaxSubRequests b |}.

Definition disabledMatcher : Matcher := {| ma_enabled := false; ma_onParseError := ""; ma_onOpaqueOperation := ""; ma_rules := []; ma_batches := [] |}.
Definition or_block (a : string) : string := if decide (a = "") then ActionBlock else a.

Definition NewMatcher (cfg : option RequestPolicy) : option Matcher :=
  match cfg with
  | None => Some disabledMatcher
  | Some cfg =>
      if rp_Enabled cfg then
        rules ← mapM compileRule (rp_Rules cfg);
        batches ← mapM compileBatch (rp_Batch cfg);
        Some {| ma_enabled := true; ma_onParseError := or_block (rp_OnParseError cfg); ma_onOpaqueOperation := or_block (rp_OnOpaqueOperation cfg);
                ma_rules := rules; ma_batches := batches |}
      else Some disabledMatcher
  end.

(** ** Matching *)

Definition pathMatches (cr : compiledRoute) (p : string) : bool :=
  (bool_decide (cr_pathPrefixes cr = []) && bool_decide (length (cr_pathPatterns cr) = 0)) ||
  existsb (Strings.HasPrefix p) (cr_pathPrefixes cr) || existsb (fun re => re p) (cr_pathPatterns cr).

Definition in_set (s : option (gset string)) (x : string) : bool := match s with Some s => bool_decide (x ∈ s) | None => true end.

Definition routeMatches (cr : compiledRoute) (meta : RequestMeta) : bool :=
  (bool_decide (cr_hosts cr = []) || hostMatches (NormalizeHost (me_Host meta)) (cr_hosts cr)) &&
  in_set (cr_methods cr) (normalizeMethod (me_Method meta)) &&
  pathMatches cr (NormalizePath (me_Path meta)) &&
  in_set (cr_contentTypes cr) (NormalizeContentType (me_ContentType meta)).

Definition opMatches (g : gqlPredicate) (op : RequestOperation) : bool :=
  (bool_decide (gp_opTypes g = ∅) || bool_decide (op_Kind op ∈ gp_opTypes g)) &&
  (bool_decide (length (gp_rootFieldRes g) = 0) || existsb (fun f => existsb (fun re => re f) (gp_rootFieldRes g)) (op_RootFields op)).

Definition gqlMatches (g : gqlPredicate) (ops : list RequestOperation) : bool := existsb (opMatches g) ops.

Definition discEval (d : discPredicate) (meta : RequestMeta) : discOutcome :=
  match me_JSONBody meta with
  | None => discNoMatch
  | Some (ShObject members) =>
      if decide (dp_field d ∈ me_JSONDupKeys meta) then discOpaque
      else match member (dp_field d) members with
           | None => discNoMatch
           | Some v => match shape v with
                       | Some (ShString s) => if existsb (fun re => re s) (dp_valueRes d) then discMatch else discNoMatch
                       | _ => discOpaque
                       end
           end
  | Some _ => discOpaque
  end.

Definition ruleDecision (m : Matcher) (cr : compiledRule) (meta : RequestMeta) : option string :=
  if negb (routeMatches (cl_route cr) meta) then None
  else if match cl_graphql cr with Some g => negb (gqlMatches g (me_Operations meta)) | None => false end then None
  else match cl_disc cr with
       | None => Some (cl_action cr)
       | Some d =>
           match discEval d meta with
           | discNoMatch => None
           | discOpaque => if decide (ma_onOpaqueOperation m = "" \/ ma_onOpaqueOperation m = ActionAllow) then None else Some (ma_onOpaqueOperation m)
           | discMatch => Some (cl_action cr)
           end
       end.

Definition candidate (action : string) (cr : compiledRule) : PolicyDecision :=
  {| de_Action := action; de_RuleName := cl_name cr; de_Reason := cl_reason cr; de_Shadow := cl_shadow cr |}.

(** The loops that keep the strictest candidate. *)
Definition strictest {A} (decide_one : A -> option PolicyDecision) (l : list A) : PolicyDecision :=
  foldl (fun best x => match decide_one x with Some cand => Stricter cand best | None => best end) allow l.

Definition Evaluate (m : Matcher) (meta : RequestMeta) : PolicyDecision :=
  if negb (ma_enabled m) then allow
  else strictest (fun cr => action ← ruleDecision m cr meta; Some (candidate action cr)) (ma_rules m).

Definition hasBodyPredicate (kind : BodyPredicateKind) (cr : compiledRule) : bool :=
  match kind with
  | PredGraphQL => bool_decide (is_Some (cl_graphql cr))
  | PredDiscriminator => bool_decide (is_Some (cl_disc cr))
  | PredAnyBody => bool_decide (is_Some (cl_graphql cr)) || bool_decide (is_Some (cl_disc cr))
  end.

Definition NeedsBodyPredicate (m : Matcher) (meta : RequestMeta) : bool :=
  ma_enabled m && existsb (fun cr => hasBodyPredicate PredAnyBody cr && routeMatches (cl_route cr) meta) (ma_rules m).

Definition EvaluateUninspectable (m : Matcher) (meta : RequestMeta) (action : string) (kind : BodyPredicateKind) : PolicyDecision :=
  if negb (ma_enabled m) || bool_decide (action = "" \/ action = ActionAllow) then allow
  else strictest (fun cr => if hasBodyPredicate kind cr && routeMatches (cl_route cr) meta then Some (candidate action cr) else None) (ma_rules m).

Definition exemptsPathEntropy (cr : compiledRoute) (host path : string) : bool :=
  negb (bool_decide (cr_hosts cr = [])) &&
  negb (bool_decide (cr_pathPrefixes cr = []) && bool_decide (length (cr_pathPatterns cr) = 0)) &&
  hostMatches (NormalizeHost host) (cr_hosts cr) && pathMatches cr (NormalizePath path).

Definition PathEntropyExempt (m : Matcher) (host path : string) : bool :=
  ma_enabled m &&
  (existsb (fun cr => negb (cl_shadow cr) && exemptsPathEntropy (cl_route cr) host path) (ma_rules m) ||
   existsb (fun b => exemptsPathEntropy (cb_route b) host path) (ma_batches m)).

(** ** Operations in a body or in a query *)

Record gqlRequest := { rq_Query : option string; rq_OperationName : string }.
Definition gqlRequest_zero : gqlRequest := {| rq_Query := None; rq_OperationName := "" |}.

(** One member of an object decoded into the request; [None] if the type is wrong. *)
Definition decodeMember (req : gqlRequest) (kv : string * string) : option gqlRequest :=
  if foldEqual kv.1 "query" then
    match shape kv.2 with
    | Some (ShString s) => Some {| rq_Query := Some s; rq_OperationName := rq_OperationName req |}
    | Some ShNull => Some {| rq_Query := None; rq_OperationName := rq_OperationName req |}
    | _ => None
    end
  else if foldEqual kv.1 "operationName" then
    match shape kv.2 with
    | Some (ShString s) => Some {| rq_Query := rq_Query req; rq_OperationName := s |}
    | Some ShNull => Some req
    | _ => None
    end
  else Some req.

Definition decodeMembers (req : gqlRequest) (members : list (string * string)) : option gqlRequest :=
  foldl (fun acc kv => req ← acc; decodeMember req kv) (Some req) members.

(** [json.Unmarshal] into a [gqlRequest]. *)
Definition decodeRequest (text : string) : option gqlRequest :=
  match shape text with
  | Some (ShObject members) => decodeMembers gqlRequest_zero members
  | Some ShNull => Some gqlRequest_zero
  | _ => None
  end.

(** The operations, [parseOK] and [opaque]. *)
Record extraction := { ex_ops : list RequestOperation; ex_parseOK : bool; ex_opaque : bool }.
Definition unparsed : extraction := {| ex_ops := []; ex_parseOK := false; ex_opaque := false |}.
Definition opaque : extraction := {| ex_ops := []; ex_parseOK := true; ex_opaque := true |}.
Definition parsed (ops : list RequestOperation) : extraction := {| ex_ops := ops; ex_parseOK := true; ex_opaque := false |}.

Definition extractOne (req : gqlRequest) : extraction :=
  match rq_Query req with
  | None => opaque
  | Some q => if decide (Strings.TrimSpace q = "") then opaque else match parseGraphQLDocument q with Ok ops => parsed ops | Err _ => unparsed end
  end.

(** The loop over the elements of a batch. *)
Fixpoint extractAll (batch : list gqlRequest) : extraction :=
  match batch with
  | [] => parsed []
  | req :: batch =>
      let e := extractOne req in
      let rest := extractAll batch in
      if ex_parseOK e && ex_parseOK rest
      then {| ex_ops := ex_ops e ++ ex_ops rest; ex_parseOK := true; ex_opaque := ex_opaque e || ex_opaque rest |}
      else unparsed
  end.

Definition ExtractGraphQL (body : string) : extraction :=
  let trimmed := Strings.TrimSpace body in
  match trimmed with
  | String "[" _ =>
      match shape trimmed with
      | Some (ShArray els) =>
          match mapM decodeRequest els with
          | Some batch => if decide (length batch = 0) then unparsed else extractAll batch
          | None => unparsed
          end
      | _ => unparsed
      end
  | String "{" _ => match decodeRequest trimmed with Some req => extractOne req | None => unparsed end
  | _ => unparsed
  end.

Definition ExtractGraphQLFromQuery (rawQuery : string) : option extraction :=
  if decide (rawQuery = "") then None
  else
    vals ← ParseQuery rawQuery;
    let q := ValuesGet vals "query" in
    if decide (q = "") then None
    else
      let opName := ValuesGet vals "operationName" in
      Some (ExtractGraphQL (Marshal (("query", q) :: (if decide (opName = "") then [] else [("operationName", opName)])))).

(** ** Batches *)

Record batchSubRequest := { sb_method : string; sb_path : string; sb_query : string; sb_body : string }.

Definition MatchesBatch (m : Matcher) (meta : RequestMeta) : bool :=
  ma_enabled m && existsb (fun b => routeMatches (cb_route b) meta) (ma_batches m).

Definition batchDecision (action reason : string) : PolicyDecision :=
  {| de_Action := action; de_RuleName := batchRuleName; de_Reason := reason; de_Shadow := false |}.

Definition UninspectableBatch (m : Matcher) (meta : RequestMeta) (action : string) : PolicyDecision :=
  if negb (ma_enabled m) || bool_decide (action = "" \/ action = ActionAllow) || negb (MatchesBatch m meta) then allow
  else batchDecision action "batch body could not be inspected".

(** [json.Unmarshal] into a map, and into a slice: null leaves them empty. *)
Definition objectMembers (text : string) : option (list (string * string)) :=
  match shape text with Some (ShObject members) => Some members | Some ShNull => Some [] | _ => None end.
Definition arrayElements (text : string) : option (list string) :=
  match shape text with Some (ShArray els) => Some els | Some ShNull => Some [] | _ => None end.

Definition requiredStringField (item : list (string * string)) (field : string) : option string :=
  raw ← member field item;
  s ← match shape raw with Some (ShString s) => Some (Strings.TrimSpace s) | Some ShNull => Some "" | _ => None end;
  if decide (s = "") then None else Some s.

Definition splitBatchSubRequestURL (raw : string) : option (string * string) :=
  u ← ParseURL raw;
  let subPath := EscapedPath u in
  let subPath := if decide (subPath = "") then Url.u_Path u else subPath in
  Some (if decide (subPath = "") then "/" else subPath, Url.u_RawQuery u).

Definition subRequest (b : compiledBatch) (item : list (string * string)) : option batchSubRequest :=
  meth ← requiredStringField item (cb_methodField b);
  rawURL ← requiredStringField item (cb_urlField b);
  '(subPath, subQuery) ← splitBatchSubRequestURL rawURL;
  let body := match member (cb_bodyField b) item with Some raw => if decide (raw = "null") then "" else raw | None => "" end in
  Some {| sb_method := meth; sb_path := subPath; sb_query := subQuery; sb_body := body |}.

Definition parseSubRequests (b : compiledBatch) (body : string) : option (list batchSubRequest) :=
  if decide (body = "") then None
  else
    envelope ← objectMembers body;
    rawReqs ← member (cb_requestsField b) envelope;
    items ← arrayElements rawReqs;
    items ← mapM objectMembers items;
    if decide (cb_maxSubRequests b < Z.of_nat (length items))%Z then None else mapM (subRequest b) items.

Definition extractSubRequestGraphQL (sub : batchSubRequest) : extraction :=
  match if bool_decide (sb_body sub = "") && foldEqual (Strings.TrimSpace (sb_method sub)) "GET" then ExtractGraphQLFromQuery (sb_query sub) else None with
  | Some e => e
  | None => ExtractGraphQL (sb_body sub)
  end.

Definition metaOf (host meth path contentType : string) : RequestMeta :=
  {| me_Host := host; me_Method := meth; me_Path := path; me_ContentType := contentType; me_Operations := []; me_JSONBody := None; me_JSONDupKeys := ∅ |}.
Definition with_Operations (ops : list RequestOperation) (meta : RequestMeta) : RequestMeta :=
  {| me_Host := me_Host meta; me_Method := me_Method meta; me_Path := me_Path meta; me_ContentType := me_ContentType meta;
     me_Operations := ops; me_JSONBody := me_JSONBody meta; me_JSONDupKeys := me_JSONDupKeys meta |}.

Definition subMeta (host : string) (sub : batchSubRequest) : RequestMeta :=
  metaOf host (sb_method sub) (sb_path sub) (if decide (sb_body sub = "") then "" else jsonContentType).

(** [evaluateBatch], given how a sub-request is evaluated. *)
Definition evaluateBatch (evaluateSub : string -> batchSubRequest -> PolicyDecision) (m : Matcher) (meta : RequestMeta) (body : string) : PolicyDecision * bool :=
  if negb (ma_enabled m) then (allow, true)
  else
    foldl (fun acc b =>
      if routeMatches (cb_route b) meta then
        match parseSubRequests b body with
        | None => (acc.1, false)
        | Some subs => (foldl (fun best sub => Stricter best (evaluateSub (me_Host meta) sub)) acc.1 subs, acc.2)
        end
      else acc) (allow, true) (ma_batches m).

(** A sub-request that no batch endpoint receives. *)
Definition evaluateLeaf (m : Matcher) (meta : RequestMeta) (e : extraction) : PolicyDecision :=
  let d := Evaluate m (with_Operations (ex_ops e) meta) in
  if negb (ex_parseOK e) then Stricter d (EvaluateUninspectable m meta (ma_onParseError m) PredGraphQL)
  else if ex_opaque e then Stricter d (EvaluateUninspectable m meta (ma_onOpaqueOperation m) PredGraphQL)
  else d.

(** [room] is [maxBatchDepth - 1] less the depth. *)
Fixpoint evaluateSubRequest (room : nat) (m : Matcher) (host : string) (sub : batchSubRequest) : PolicyDecision :=
  let meta := subMeta host sub in
  if MatchesBatch m meta then
    match room with
    | O => batchDecision ActionBlock "nested batch exceeds inspection depth"
    | S room =>
        let (d, parseOK) := evaluateBatch (evaluateSubRequest room m) m meta (sb_body sub) in
        if parseOK then d else Stricter d (UninspectableBatch m meta (ma_onParseError m))
    end
  else evaluateLeaf m meta (extractSubRequestGraphQL sub).

Definition EvaluateBatch (m : Matcher) (meta : RequestMeta) (body : string) : PolicyDecision * bool :=
  evaluateBatch (evaluateSubRequest (maxBatchDepth - 1) m) m meta body.

(** ** The proxy *)

(** A body that can be read once: what it holds, and whether reading fails after that. *)
Record stream := { st_content : string; st_fails : bool }.
#[export] Instance stream_eq_dec : EqDecision stream.
Proof. solve_decision. Defined.

(** [io.ReadAll] of a reader limited to one byte more than the limit. *)
Definition readLimited (limit : Z) (s : stream) : option string :=
  if decide (limit < Z.of_nat (String.length (st_content s)))%Z then Some (String.substring 0 (Z.to_nat (limit + 1)) (st_content s))
  else if st_fails s then None
  else Some (st_content s).

Record requestPolicyInput := {
  in_Host : string; in_Method : string; in_Path : string; in_Query : string; in_ContentType : string; in_Headers : Header;
  in_Body : string; in_BodyRead : bool; in_DeferBodyPredicate : bool;
}.
Definition with_Body (body : string) (read : bool) (i : requestPolicyInput) : requestPolicyInput :=
  {| in_Host := in_Host i; in_Method := in_Method i; in_Path := in_Path i; in_Query := in_Query i; in_ContentType := in_ContentType i;
     in_Headers := in_Headers i; in_Body := body; in_BodyRead := read; in_DeferBodyPredicate := in_DeferBodyPredicate i |}.

Record requestPolicyResult := { rr_Block : bool; rr_Receipt : string; rr_Reason : string }.
Definition forwards : requestPolicyResult := {| rr_Block := false; rr_Receipt := ""; rr_Reason := "" |}.

Record requestPolicyBody := { rb_ops : list RequestOperation; rb_json : option jsonShape; rb_dupKeys : gset string }.
Definition noBody : requestPolicyBody := {| rb_ops := []; rb_json := None; rb_dupKeys := ∅ |}.

Definition requestPolicyMeta (host meth path contentType : string) (body : requestPolicyBody) : RequestMeta :=
  {| me_Host := host; me_Method := meth; me_Path := path; me_ContentType := contentType; me_Operations := rb_ops body;
     me_JSONBody := rb_json body; me_JSONDupKeys := rb_dupKeys body |}.

(** MIME: the media type with its parameters, and the parts of a multipart body with their
    form names up to the point where reading the next one fails. *)
Context (ParseMediaType : string -> option (string * gmap string string)).
Context (Parts : string -> string -> list (string * stream)).
Context (validReceipt : string -> bool).

(** What the functions of the proxy compute under the effective method is joined with
    what they compute under the method on the wire. *)
Definition underMethods {A} (join : A -> A -> A) (meth : string) (headers : Header) (f : string -> A) : A :=
  let eff := EffectiveMethod meth headers in
  let base := normalizeMethod meth in
  if decide (eff <> base) then join (f eff) (f base) else f eff.

Definition inputMeta (i : requestPolicyInput) (body : requestPolicyBody) (meth : string) : RequestMeta :=
  requestPolicyMeta (in_Host i) meth (in_Path i) (in_ContentType i) body.

(** The matcher is [None] before it has been stored. *)
Definition evaluateRequestPolicy (m : option Matcher) (i : requestPolicyInput) (body : requestPolicyBody) : PolicyDecision :=
  match m with
  | None => allow
  | Some m => underMethods Stricter (in_Method i) (in_Headers i) (fun meth => Evaluate m (inputMeta i body meth))
  end.

Definition requestPolicyNeedsBodyPredicate (m : option Matcher) (i : requestPolicyInput) : bool :=
  match m with
  | None => false
  | Some m => underMethods orb (in_Method i) (in_Headers i) (fun meth => NeedsBodyPredicate m (inputMeta i noBody meth))
  end.

Definition evaluateRequestPolicyUninspectable (m : option Matcher) (i : requestPolicyInput) (action : string) (kind : BodyPredicateKind) : PolicyDecision :=
  match m with
  | None => allow
  | Some m => underMethods Stricter (in_Method i) (in_Headers i) (fun meth => EvaluateUninspectable m (inputMeta i noBody meth) action kind)
  end.

Definition requestPolicyMatchesBatch (m : option Matcher) (i : requestPolicyInput) : bool :=
  match m with
  | None => false
  | Some m => underMethods orb (in_Method i) (in_Headers i) (fun meth => MatchesBatch m (inputMeta i noBody meth))
  end.

Definition evaluateRequestPolicyBatch (m : option Matcher) (i : requestPolicyInput) : PolicyDecision * bool :=
  match m with
  | None => (allow, true)
  | Some m =>
      underMethods (fun x y => (Stricter x.1 y.1, x.2 && y.2)) (in_Method i) (in_Headers i) (fun meth => EvaluateBatch m (inputMeta i noBody meth) (in_Body i))
  end.

Definition evaluateRequestPolicyUninspectableBatch (m : option Matcher) (i : requestPolicyInput) (action : string) : PolicyDecision :=
  match m with
  | None => allow
  | Some m => underMethods Stricter (in_Method i) (in_Headers i) (fun meth => UninspectableBatch m (inputMeta i noBody meth) action)
  end.

Definition OnParseError (m : option Matcher) : string := match m with Some m => or_block (ma_onParseError m) | None => ActionBlock end.
Definition OnOpaqueOperation (m : option Matcher) : string := match m with Some m => or_block (ma_onOpaqueOperation m) | None => ActionBlock end.

(** [recorded] is the identifier of the receipt for the block, when there is an emitter and
    it has recorded one. *)
Definition finalizeRequestPolicyDecision (recorded : option string) (d : PolicyDecision) : requestPolicyResult :=
  if negb (Matched d) then forwards
  else if negb (Enforced d) || bool_decide (de_Action d <> ActionBlock) then forwards
  else
    let actionID := default "" recorded in
    {| rr_Block := true;
       rr_Receipt := if decide (actionID = "") then "" else if validReceipt actionID then actionID else "";
       rr_Reason := if decide (de_Reason d = "") then de_RuleName d else de_Reason d |}.

(** *** Reading the body *)

Definition multipartOperationsMaxBytes : Z := 1024 * 1024.

Definition isMultipartFormData (ct : string) : bool :=
  match ParseMediaType ct with Some (mt, _) => bool_decide (mt = "multipart/form-data") | None => false end.

Definition multipartOperationsField (ct body : string) : option string :=
  '(_, params) ← ParseMediaType ct;
  let boundary := default "" (params !! "boundary") in
  if decide (boundary = "") then None
  else
    '(_, part) ← head (filter (fun part => part.1 = "operations") (Parts boundary body));
    data ← readLimited multipartOperationsMaxBytes part;
    if decide (multipartOperationsMaxBytes < Z.of_nat (String.length data))%Z then None else Some data.

Definition extractRequestPolicyOperations (i : requestPolicyInput) : extraction :=
  if isMultipartFormData (in_ContentType i) then
    match multipartOperationsField (in_ContentType i) (in_Body i) with Some opsJSON => ExtractGraphQL opsJSON | None => unparsed end
  else
    match if decide (in_Body i = "") then ExtractGraphQLFromQuery (in_Query i) else None with
    | Some e => e
    | None => ExtractGraphQL (in_Body i)
    end.

Definition topLevelDuplicateJSONKeys (members : list (string * string)) : gset string :=
  list_to_set (filter (fun k => 1 < length (filter (fun kv => kv.1 = k) members)) members.*1).

Definition parseRequestPolicyJSONBody (i : requestPolicyInput) : option (jsonShape * gset string) :=
  let body := Strings.TrimSpace (in_Body i) in
  if decide (body = "") then None
  else
    v ← shape body;
    Some (v, match v with ShObject members => topLevelDuplicateJSONKeys members | _ => ∅ end).

Definition bodyOf (i : requestPolicyInput) : requestPolicyBody :=
  {| rb_ops := ex_ops (extractRequestPolicyOperations i); rb_json := fst <$> parseRequestPolicyJSONBody i; rb_dupKeys := default ∅ (snd <$> parseRequestPolicyJSONBody i) |}.

(** *** Applying the policy *)

Definition evaluateRequestPolicyBodyPredicates (m : option Matcher) (i : requestPolicyInput) : PolicyDecision :=
  if negb (requestPolicyNeedsBodyPredicate m i) then allow
  else if negb (in_BodyRead i) then evaluateRequestPolicyUninspectable m i (OnOpaqueOperation m) PredAnyBody
  else
    let e := extractRequestPolicyOperations i in
    let d := evaluateRequestPolicy m i (bodyOf i) in
    let d := if negb (ex_parseOK e) then Stricter d (evaluateRequestPolicyUninspectable m i (OnParseError m) PredGraphQL)
             else if ex_opaque e then Stricter d (evaluateRequestPolicyUninspectable m i (OnOpaqueOperation m) PredGraphQL)
             else d in
    if decide (parseRequestPolicyJSONBody i = None) then Stricter d (evaluateRequestPolicyUninspectable m i (OnParseError m) PredDiscriminator) else d.

Definition batchPart (m : option Matcher) (i : requestPolicyInput) (d : PolicyDecision) : PolicyDecision :=
  if requestPolicyMatchesBatch m i then
    if negb (in_BodyRead i) then Stricter d (evaluateRequestPolicyUninspectableBatch m i (OnOpaqueOperation m))
    else
      let (bd, parseOK) := evaluateRequestPolicyBatch m i in
      let d := Stricter d bd in
      if parseOK then d else Stricter d (evaluateRequestPolicyUninspectableBatch m i (OnParseError m))
  else d.

Definition requestPolicyDecision (m : option Matcher) (i : requestPolicyInput) : PolicyDecision :=
  let d := evaluateRequestPolicy m i noBody in
  let d := if in_DeferBodyPredicate i then d else Stricter d (evaluateRequestPolicyBodyPredicates m i) in
  batchPart m i d.

Definition applyRequestPolicy (recorded : option string) (m : option Matcher) (i : requestPolicyInput) : requestPolicyResult :=
  finalizeRequestPolicyDecision recorded (requestPolicyDecision m i).

(** *** The gate of a forwarded request *)

Definition defaultRequestPolicyMaxBodyBytes : Z := 5 * 1024 * 1024.

(** [MaxBodyBytes] is [None] when there is no configuration. *)
Definition requestPolicyBodyLimit (MaxBodyBytes : option Z) : Z :=
  match MaxBodyBytes with Some n => if decide (0 < n)%Z then n else defaultRequestPolicyMaxBodyBytes | None => defaultRequestPolicyMaxBodyBytes end.

Definition requestPolicyReadBlocked (recorded : option string) (m : option Matcher) (i : requestPolicyInput) : requestPolicyResult :=
  match m with
  | None => forwards
  | Some _ =>
      finalizeRequestPolicyDecision recorded
        (Stricter (evaluateRequestPolicyUninspectable m i ActionBlock PredAnyBody) (evaluateRequestPolicyUninspectableBatch m i ActionBlock))
  end.

(** The result, the input and the body of the request afterwards. *)
Definition prepareRequestPolicyBody (recorded : option string) (limit : Z) (m : option Matcher) (body : option stream) (i : requestPolicyInput) :
    requestPolicyResult * requestPolicyInput * option stream :=
  if in_BodyRead i || (negb (requestPolicyNeedsBodyPredicate m i) && negb (requestPolicyMatchesBatch m i)) then (forwards, i, body)
  else
    match body with
    | None => (forwards, with_Body (in_Body i) true i, None)
    | Some s =>
        match readLimited limit s with
        | None => (requestPolicyReadBlocked recorded m i, i, Some {| st_content := ""; st_fails := true |})
        | Some buf =>
            if decide (limit < Z.of_nat (String.length buf))%Z
            then (requestPolicyReadBlocked recorded m i, i,
                  Some {| st_content := String.substring (String.length buf) (String.length (st_content s) - String.length buf) (st_content s); st_fails := st_fails s |})
            else (forwards, with_Body buf true i, Some {| st_content := buf; st_fails := false |})
        end
    end.

(** A request in the forward handler: its body, [None] for no body, and a copy of it when
    a scanner has already read it and put it back. *)
Record forwardRequest := {
  fr_Hostname : string; fr_Method : string; fr_EscapedPath : string; fr_RawQuery : string; fr_Headers : Header;
  fr_Body : option stream; fr_buffered : option string;
}.

Definition rpInput (r : forwardRequest) : requestPolicyInput :=
  {| in_Host := fr_Hostname r; in_Method := fr_Method r; in_Path := fr_EscapedPath r; in_Query := fr_RawQuery r;
     in_ContentType := HeaderGet (fr_Headers r) "Content-Type"; in_Headers := fr_Headers r; in_Body := default "" (fr_buffered r);
     in_BodyRead := bool_decide (is_Some (fr_buffered r)) || bool_decide (fr_Body r = None); in_DeferBodyPredicate := false |}.

(** The result and the body that is left to forward. *)
Definition requestPolicyGate (recorded : option string) (limit : Z) (m : option Matcher) (r : forwardRequest) : requestPolicyResult * option stream :=
  let '(rp, i, body) := prepareRequestPolicyBody recorded limit m (fr_Body r) (rpInput r) in
  if rr_Block rp then (rp, body) else (applyRequestPolicy recorded m i, body).

(** ** Decisions *)

(** Blocking is the highest rank; within a rank an enforced decision wins. *)
Lemma rank_block a : actionRank a = 2 <-> a = ActionBlock.
Proof. unfold actionRank. repeat case_decide; split; intros; subst; (done || lia). Qed.

Lemma rank_le a : actionRank a <= 2.
Proof. unfold actionRank. repeat case_decide; lia. Qed.

Lemma blocks_spec d : blocks d = true <-> actionRank (de_Action d) = 2 /\ de_Shadow d = false.
Proof.
  unfold blocks, Enforced. rewrite rank_block, !andb_true_iff, !negb_true_iff, bool_decide_eq_true, bool_decide_eq_false. split; [tauto|]. intros [-> ->]. done.
Qed.

Lemma better_spec cand cur :
  actionRank (de_Action cand) = 2 \/ actionRank (de_Action cur) = 2 ->
  betterDecision cand cur = true <-> actionRank (de_Action cur) < actionRank (de_Action cand) \/
    actionRank (de_Action cur) = actionRank (de_Action cand) /\ de_Shadow cand = false /\ de_Shadow cur = true.
Proof.
  intros H. unfold betterDecision. destruct (decide (actionRank (de_Action cand) <> actionRank (de_Action cur))) as [Hr|Hr]; [rewrite bool_decide_eq_true; split; [by left|intros [?|[? _]]; [done|lia]]|].
  apply dec_stable in Hr. rewrite decide_False; [rewrite andb_true_iff, negb_true_iff; split; [by right|intros [?|[_ ?]]; [lia|done]]|].
  intros E. rewrite E in *. change (actionRank "") with 0 in *. lia.
Qed.

Lemma blocks_Stricter a b : blocks (Stricter a b) = blocks a || blocks b.
Proof.
  apply eq_bool_prop_intro. rewrite !Is_true_true, orb_true_iff, !blocks_spec. unfold Stricter. pose proof (rank_le (de_Action a)). pose proof (rank_le (de_Action b)).
  destruct (decide (actionRank (de_Action a) = 2 \/ actionRank (de_Action b) = 2)) as [H2|H2]; [|destruct (betterDecision a b); intuition].
  pose proof (better_spec a b H2) as Hb. destruct (betterDecision a b), (de_Shadow a), (de_Shadow b); intuition (done || lia).
Qed.

Lemma blocks_allow : blocks allow = false.
Proof. done. Qed.

(** [strictest] blocks exactly if one of the candidates does. *)
Lemma blocks_strictest {A} (f : A -> option PolicyDecision) l :
  blocks (strictest f l) = existsb (fun x => match f x with Some d => blocks d | None => false end) l.
Proof.
  unfold strictest. enough (forall best, blocks (foldl (fun best x => match f x with Some cand => Stricter cand best | None => best end) best l) =
    blocks best || existsb (fun x => match f x with Some d => blocks d | None => false end) l) as -> by done.
  induction l as [|x l IH]; intros best; cbn; [by rewrite orb_false_r|]. rewrite IH. destruct (f x) as [d|]; [|done].
  rewrite blocks_Stricter. by destruct (blocks d), (blocks best).
Qed.

Lemma existsb_none {A} (f : A -> bool) l x : existsb f l = false -> x ∈ l -> f x = false.
Proof. intros H Hx. apply existsb_false in H. by eapply Forall_forall in H. Qed.

Lemma existsb_elem {A} (f : A -> bool) l : existsb f l = true <-> exists x, x ∈ l /\ f x = true.
Proof. rewrite existsb_exists. by setoid_rewrite list_elem_of_In. Qed.

(** An enforced rule that blocks. *)
Definition deny_rule (r : RequestPolicyRule) : Prop := rl_Action r = ActionBlock /\ rl_Shadow r = false.
Definition deny_compiled (cr : compiledRule) : Prop := cl_action cr = ActionBlock /\ cl_shadow cr = false.

Lemma blocks_candidate cr : deny_compiled cr -> blocks (candidate ActionBlock cr) = true.
Proof. intros [_ H]. unfold blocks, Enforced. cbn. by rewrite H. Qed.

Lemma Evaluate_allowed m meta cr :
  ma_enabled m = true -> blocks (Evaluate m meta) = false -> cr ∈ ma_rules m -> deny_compiled cr -> routeMatches (cl_route cr) meta = true -> cl_disc cr = None ->
  exists g, cl_graphql cr = Some g /\ gqlMatches g (me_Operations meta) = false.
Proof.
  intros He Hb Hcr Hd Hr Hdisc. unfold Evaluate in Hb. rewrite He in Hb. cbn [negb] in Hb. rewrite blocks_strictest in Hb. apply (existsb_none _ _ cr) in Hb; [|done].
  unfold ruleDecision in Hb. rewrite Hr, Hdisc in Hb. cbn [negb] in Hb. destruct (cl_graphql cr) as [g|]; cycle 1.
  - cbn in Hb. rewrite (proj1 Hd) in Hb. by rewrite blocks_candidate in Hb.
  - exists g. split; [done|]. destruct (gqlMatches g _); [|done]. cbn in Hb. rewrite (proj1 Hd) in Hb. by rewrite blocks_candidate in Hb.
Qed.

Lemma EvaluateUninspectable_blocks m meta kind cr :
  ma_enabled m = true -> cr ∈ ma_rules m -> deny_compiled cr -> routeMatches (cl_route cr) meta = true -> hasBodyPredicate kind cr = true ->
  blocks (EvaluateUninspectable m meta ActionBlock kind) = true.
Proof.
  intros He Hcr Hd Hr Hk. unfold EvaluateUninspectable. rewrite He. cbn [negb orb]. rewrite bool_decide_eq_false_2 by (intros [?|?]; done).
  rewrite blocks_strictest. apply existsb_elem. exists cr. split; [done|]. rewrite Hk, Hr. by apply blocks_candidate.
Qed.

Lemma UninspectableBatch_blocks m meta : ma_enabled m = true -> MatchesBatch m meta = true -> blocks (UninspectableBatch m meta ActionBlock) = true.
Proof. intros He Hm. unfold UninspectableBatch. rewrite He, Hm. cbn [negb orb]. by rewrite bool_decide_eq_false_2 by (intros [?|?]; done). Qed.

(** Both methods of a request. *)
Definition methods (i : requestPolicyInput) : list string := [EffectiveMethod (in_Method i) (in_Headers i); normalizeMethod (in_Method i)].

Lemma underMethods_Stricter i (f : string -> PolicyDecision) : blocks (underMethods Stricter (in_Method i) (in_Headers i) f) = existsb (fun meth => blocks (f meth)) (methods i).
Proof.
  unfold underMethods, methods. generalize (EffectiveMethod (in_Method i) (in_Headers i)). intros eff. cbn.
  case_decide as H; [by rewrite blocks_Stricter, orb_false_r|]. rewrite H. by destruct (blocks _).
Qed.

Lemma underMethods_orb i (f : string -> bool) : underMethods orb (in_Method i) (in_Headers i) f = existsb f (methods i).
Proof.
  unfold underMethods, methods. generalize (EffectiveMethod (in_Method i) (in_Headers i)). intros eff. cbn.
  case_decide as H; [by rewrite orb_false_r|]. rewrite H. by destruct (f _).
Qed.

Lemma finalize_blocks recorded d : rr_Block (finalizeRequestPolicyDecision recorded d) = blocks d.
Proof.
  unfold finalizeRequestPolicyDecision, blocks, Matched, Enforced. case_bool_decide as E; [done|]. cbn. destruct (de_Shadow d); [done|]. cbn.
  case_bool_decide as E1; case_bool_decide as E2; done.
Qed.

(** ** The documents of a request *)

Lemma mapM_elem {A B} (f : A -> option B) l k x : mapM f l = Some k -> x ∈ l -> exists y, f x = Some y /\ y ∈ k.
Proof.
  intros H%mapM_Some_1 Hx. induction H as [|a b l k Hab _ IH]; [by apply not_elem_of_nil in Hx|].
  apply elem_of_cons in Hx as [->|Hx]; [exists b; split; [done|apply list_elem_of_here]|]. destruct (IH Hx) as (y & Hy & Hk). exists y. split; [done|]. by apply list_elem_of_further.
Qed.

(** A field that the predicate of a rule names, in an operation of a kind. *)
Definition denies (g : RequestPolicyGraphQL) (kind f : string) : Prop :=
  (gq_OperationTypes g = [] \/ exists t, t ∈ gq_OperationTypes g /\ ToLower (Strings.TrimSpace t) = kind) /\
  (gq_RootFieldPatterns g = [] \/ exists p re, p ∈ gq_RootFieldPatterns g /\ Compile p = Some re /\ re f = true).

(** A text that spells a GraphQL document, and however it is read, no operation of it executes a
    denied field. *)
Definition harmless (g : RequestPolicyGraphQL) (q : string) : Prop :=
  (exists toks ds, spelled (trimBOM (list_ascii_of_string q)) toks /\ document toks ds) /\
  forall toks ds, spelled (trimBOM (list_ascii_of_string q)) toks -> document toks ds -> (N.of_nat (length toks) < maxGraphQLTokens)%N ->
    exists frags, fragmentsOf ∅ ds = Some frags /\ forall op f, op ∈ opsOf ds -> executes frags (ro_items op) f -> ~ denies g (ro_kind op) f.

Lemma denies_matches g gp kind f op :
  compileGraphQLPredicate (Some g) = Some (Some gp) -> denies g kind f -> op_Kind op = kind -> f ∈ op_RootFields op -> opMatches gp op = true.
Proof.
  unfold compileGraphQLPredicate. destruct (mapM Compile _) as [res|] eqn:E; [|done]. cbn. intros [= <-] [Ht Hp] <- Hf. unfold opMatches. cbn. apply andb_true_iff. split; apply orb_true_iff.
  - destruct Ht as [->|(t & Ht & <-)]; [left; by apply bool_decide_eq_true|right]. apply bool_decide_eq_true, elem_of_list_to_set. apply list_elem_of_fmap. by exists t.
  - destruct Hp as [Hp|(p & re & Hp & Hre & Hm)]; [left; rewrite Hp in E; injection E as <-; by apply bool_decide_eq_true|right].
    apply existsb_elem. exists f. split; [done|]. apply existsb_elem. destruct (mapM_elem _ _ _ _ E Hp) as (re' & Hre' & Hin). exists re'. split; [done|]. congruence.
Qed.

Lemma Forall2_elem {A B} (R : A -> B -> Prop) l k x : Forall2 R l k -> x ∈ l -> exists y, y ∈ k /\ R x y.
Proof. intros H. induction H as [|a b l k Hab _ IH]; intros Hx; [by apply not_elem_of_nil in Hx|]. set_solver. Qed.

Lemma parse_spelled q ops : parseGraphQLDocument q = Ok ops -> exists toks ds, spelled (trimBOM (list_ascii_of_string q)) toks /\ document toks ds.
Proof. unfold parseGraphQLDocument. intros (toks & Hl & (ds & Hd & _)%parseTokens_sound)%bind_Ok. exists toks, ds. split; [by apply lexer_exact|done]. Qed.

Lemma parse_meaning q ops toks ds :
  parseGraphQLDocument q = Ok ops -> spelled (trimBOM (list_ascii_of_string q)) toks -> document toks ds -> (N.of_nat (length toks) < maxGraphQLTokens)%N -> meaning ds = Ok ops.
Proof. unfold parseGraphQLDocument. intros H Hs Hd Hl. apply lexer_exact in Hs as E; [|done]. rewrite E in H. by rewrite <- (parseTokens_document toks). Qed.

Lemma unmatched_harmless g gp q ops all :
  compileGraphQLPredicate (Some g) = Some (Some gp) -> parseGraphQLDocument q = Ok ops -> ops ⊆ all -> gqlMatches gp all = false -> harmless g q.
Proof.
  intros Hc Hp Hops Hm. split; [by eapply parse_spelled|]. intros toks ds Hs Hd Hl. destruct (meaning_spec ds ops) as (frags & Hf & Hr); [by eapply parse_meaning|].
  exists frags. split; [done|]. intros op f Hop Hex Hden. eapply Forall2_elem in Hr as (op' & Hop' & Hk & _ & Hfs); [|done].
  unfold gqlMatches in Hm. apply (existsb_none _ _ op') in Hm; [|by apply Hops]. rewrite (denies_matches g gp (ro_kind op) f op') in Hm; [done..|]. by apply Hfs.
Qed.

(** A JSON object with one member for the query, whose value is a text. *)
Definition holds_query (text q : string) : Prop :=
  exists members k v, shape text = Some (ShObject members) /\ filter (fun kv => foldEqual kv.1 "query" = true) members = [(k, v)] /\ shape v = Some (ShString q).

(** The text inlines a document, in an object or in an element of an array. *)
Definition inlines (json q : string) : Prop :=
  holds_query (Strings.TrimSpace json) q \/ exists els el, shape (Strings.TrimSpace json) = Some (ShArray els) /\ el ∈ els /\ holds_query el q.

(** Of the members that name the query, the last one counts. *)
Lemma decodeMembers_query req members req' :
  decodeMembers req members = Some req' ->
  rq_Query req' = match last (filter (fun kv => foldEqual kv.1 "query" = true) members) with
                  | Some kv => match shape kv.2 with Some (ShString s) => Some s | _ => None end
                  | None => rq_Query req
                  end.
Proof.
  unfold decodeMembers. revert req req'. induction members as [|kv members IH] using rev_ind; intros req req'; cbn; [by intros [= ->]|].
  rewrite foldl_app. cbn. destruct (foldl _ (Some req) members) as [r|] eqn:E; [|done]. cbn. apply IH in E. rewrite filter_app, filter_cons, filter_nil. unfold decodeMember.
  destruct (foldEqual kv.1 "query") eqn:Ek.
  - rewrite decide_True, last_snoc by done. by repeat case_match; intros [= <-].
  - rewrite decide_False, app_nil_r by done. rewrite <- E. by repeat case_match; intros [= <-].
Qed.

Lemma decodeRequest_query text q req : holds_query text q -> decodeRequest text = Some req -> rq_Query req = Some q.
Proof. intros (members & k & v & E & Hf & Hv). unfold decodeRequest. rewrite E. intros H%decodeMembers_query. rewrite Hf in H. cbn in H. by rewrite Hv in H. Qed.

Lemma extractOne_query req q :
  rq_Query req = Some q -> ex_parseOK (extractOne req) = true -> ex_opaque (extractOne req) = false -> parseGraphQLDocument q = Ok (ex_ops (extractOne req)).
Proof. intros E. unfold extractOne. rewrite E. case_decide; [done|]. by destruct (parseGraphQLDocument q). Qed.

Lemma extractAll_elem batch req :
  ex_parseOK (extractAll batch) = true -> ex_opaque (extractAll batch) = false -> req ∈ batch ->
  ex_parseOK (extractOne req) = true /\ ex_opaque (extractOne req) = false /\ ex_ops (extractOne req) ⊆ ex_ops (extractAll batch).
Proof.
  induction batch as [|r batch IH]; intros H1 H2 Hreq; [by apply not_elem_of_nil in Hreq|]. cbn [extractAll] in *.
  destruct (ex_parseOK (extractOne r)) eqn:E1, (ex_parseOK (extractAll batch)) eqn:E2; cbn in *; try done. apply orb_false_iff in H2 as [H2 H3].
  apply elem_of_cons in Hreq as [->|Hreq]; [split_and!; [done|done|set_solver]|]. destruct (IH eq_refl H3 Hreq) as (? & ? & ?). split_and!; [done|done|set_solver].
Qed.

Lemma ExtractGraphQL_cases json :
  ex_parseOK (ExtractGraphQL json) = true ->
  (exists els batch, shape (Strings.TrimSpace json) = Some (ShArray els) /\ mapM decodeRequest els = Some batch /\ ExtractGraphQL json = extractAll batch) \/
  (exists req, decodeRequest (Strings.TrimSpace json) = Some req /\ ExtractGraphQL json = extractOne req).
Proof. unfold ExtractGraphQL. generalize (Strings.TrimSpace json). intros t. repeat case_match; intros H'; try done; [right|left]; subst; eauto 6. Qed.

Lemma ExtractGraphQL_inlines json q :
  ex_parseOK (ExtractGraphQL json) = true -> ex_opaque (ExtractGraphQL json) = false -> inlines json q ->
  exists ops, parseGraphQLDocument q = Ok ops /\ ops ⊆ ex_ops (ExtractGraphQL json).
Proof.
  intros H1 H2 Hq. destruct (ExtractGraphQL_cases json H1) as [(els & batch & Es & Eb & E)|(req & Er & E)]; rewrite E in *.
  - destruct Hq as [(members & k & v & E' & _)|(els' & el & E' & Hel & Hq)]; [congruence|]. assert (els' = els) as -> by congruence.
    destruct (mapM_elem _ _ _ _ Eb Hel) as (req & Hreq & Hin). destruct (extractAll_elem batch req H1 H2 Hin) as (H3 & H4 & H5).
    exists (ex_ops (extractOne req)). split; [|done]. apply extractOne_query; [|done|done]. by eapply decodeRequest_query.
  - destruct Hq as [Hq|(els' & el & E' & _)]; [|unfold decodeRequest in Er; by rewrite E' in Er].
    exists (ex_ops (extractOne req)). split; [|done]. apply extractOne_query; [|done|done]. by eapply decodeRequest_query.
Qed.

(** The JSON text that stands for a GraphQL document in a URL query. *)
Definition query_json (query json : string) : Prop :=
  exists vals, ParseQuery query = Some vals /\ ValuesGet vals "query" <> "" /\
    json = Marshal (("query", ValuesGet vals "query") :: (if decide (ValuesGet vals "operationName" = "") then [] else [("operationName", ValuesGet vals "operationName")])).

Lemma FromQuery_json query json : query_json query json -> ExtractGraphQLFromQuery query = Some (ExtractGraphQL json).
Proof.
  intros (vals & Ev & Hq & ->). unfold ExtractGraphQLFromQuery. destruct (decide (query = "")) as [->|_].
  - injection Ev as <-. done.
  - rewrite Ev. cbn. by rewrite decide_False.
Qed.

(** The text that carries the operations of a request, and of a sub-request of a batch. *)
Inductive carries (ct query body : string) : string -> Prop :=
| ca_multipart json : isMultipartFormData ct = true -> multipartOperationsField ct body = Some json -> carries ct query body json
| ca_body : isMultipartFormData ct = false -> body <> "" -> carries ct query body body
| ca_query json : isMultipartFormData ct = false -> body = "" -> query_json query json -> carries ct query body json.

Inductive sub_carries (sub : batchSubRequest) : string -> Prop :=
| sc_body : sb_body sub <> "" -> sub_carries sub (sb_body sub)
| sc_query json : sb_body sub = "" -> foldEqual (Strings.TrimSpace (sb_method sub)) "GET" = true -> query_json (sb_query sub) json -> sub_carries sub json.

Lemma extract_carried i json : carries (in_ContentType i) (in_Query i) (in_Body i) json -> extractRequestPolicyOperations i = ExtractGraphQL json.
Proof.
  unfold extractRequestPolicyOperations. intros [json' Hct Hj|Hct Hb|json' Hct Hb Hq]; rewrite Hct; [by rewrite Hj|by rewrite decide_False|].
  by rewrite decide_True, (FromQuery_json _ json').
Qed.

Lemma extract_sub_carried sub json : sub_carries sub json -> extractSubRequestGraphQL sub = ExtractGraphQL json.
Proof.
  unfold extractSubRequestGraphQL. intros [Hb|json' Hb Hm Hq]; [by rewrite bool_decide_eq_false_2|]. by rewrite bool_decide_eq_true_2, Hm, (FromQuery_json _ json').
Qed.

Lemma classified_harmless g gp json q :
  compileGraphQLPredicate (Some g) = Some (Some gp) -> ex_parseOK (ExtractGraphQL json) = true -> ex_opaque (ExtractGraphQL json) = false ->
  gqlMatches gp (ex_ops (ExtractGraphQL json)) = false -> inlines json q -> harmless g q.
Proof. intros Hc H1 H2 Hm Hq. destruct (ExtractGraphQL_inlines json q H1 H2 Hq) as (ops & Hp & Hops). by eapply unmatched_harmless. Qed.

(** ** Installed policies *)

(** An enabled policy that fails closed. *)
Definition strict (cfg : RequestPolicy) : Prop :=
  rp_Enabled cfg = true /\ or_block (rp_OnParseError cfg) = ActionBlock /\ or_block (rp_OnOpaqueOperation cfg) = ActionBlock.

Definition strict_matcher (m : Matcher) : Prop := ma_enabled m = true /\ ma_onParseError m = ActionBlock /\ ma_onOpaqueOperation m = ActionBlock.

Lemma NewMatcher_strict cfg m : NewMatcher (Some cfg) = Some m -> strict cfg -> strict_matcher m.
Proof. unfold NewMatcher. intros H (He & Hp & Ho). rewrite He in H. destruct (mapM compileRule _), (mapM compileBatch _); try done. injection H as <-. by split_and!. Qed.

Lemma NewMatcher_rule cfg m r : NewMatcher (Some cfg) = Some m -> rp_Enabled cfg = true -> r ∈ rp_Rules cfg -> exists cr, compileRule r = Some cr /\ cr ∈ ma_rules m.
Proof.
  unfold NewMatcher. intros H He Hr. rewrite He in H. destruct (mapM compileRule _) as [rules|] eqn:E; [|done]. destruct (mapM compileBatch _); [|done].
  injection H as <-. by eapply mapM_elem.
Qed.

(** A rule of the configuration whose route a request matches. *)
Definition routed (r : RequestPolicyRule) (meta : RequestMeta) : Prop := exists cr, compileRoute (rl_Route r) = Some cr /\ routeMatches cr meta = true.

Lemma compileRule_fields r cr meta :
  compileRule r = Some cr -> deny_rule r -> rl_Discriminator r = None -> routed r meta ->
  deny_compiled cr /\ cl_disc cr = None /\ routeMatches (cl_route cr) meta = true /\ compileGraphQLPredicate (rl_GraphQL r) = Some (cl_graphql cr).
Proof.
  unfold compileRule. intros H [Ha Hs] Hd (route & Hroute & Hm). rewrite Hroute, Hd in H. cbn in H. destruct (compileGraphQLPredicate _) as [gp|]; [|done]. by injection H as <-.
Qed.

(** The rules that a request meets: none without a predicate, and those with a GraphQL
    predicate find nothing in the documents it carries. *)
Definition passes (cfg : RequestPolicy) (meta : RequestMeta) (carried : string -> Prop) : Prop :=
  forall r, r ∈ rp_Rules cfg -> deny_rule r -> rl_Discriminator r = None -> routed r meta ->
    exists g, rl_GraphQL r = Some g /\ forall json q, carried json -> inlines json q -> harmless g q.

Lemma evaluateLeaf_passes cfg m meta e (carried : string -> Prop) :
  NewMatcher (Some cfg) = Some m -> strict cfg -> blocks (evaluateLeaf m meta e) = false -> (forall json, carried json -> e = ExtractGraphQL json) -> passes cfg meta carried.
Proof.
  intros Hm Hcfg Hb He r Hr Hdeny Hdisc Hroute. destruct (NewMatcher_strict cfg m Hm Hcfg) as (Hen & Hpe & Hop).
  destruct (NewMatcher_rule cfg m r Hm (proj1 Hcfg) Hr) as (cr & Hcr & Hin). destruct (compileRule_fields r cr meta Hcr Hdeny Hdisc Hroute) as (Hd & Hnd & Hmt & Hg).
  assert (blocks (Evaluate m (with_Operations (ex_ops e) meta)) = false) as Hev.
  { unfold evaluateLeaf in Hb. repeat case_match; try done; rewrite blocks_Stricter in Hb; by apply orb_false_iff in Hb as [? _]. }
  destruct (Evaluate_allowed m _ cr Hen Hev Hin Hd Hmt Hnd) as (gp & Egp & Hgm). rewrite Egp in Hg.
  destruct (rl_GraphQL r) as [g|]; [|done]. exists g. split; [done|]. intros json q Hj Hq. specialize (He json Hj). subst e.
  assert (forall action, action = ActionBlock -> blocks (EvaluateUninspectable m meta action PredGraphQL) = true) as Hun.
  { intros ? ->. eapply EvaluateUninspectable_blocks; [done|exact Hin|done|done|]. cbn. apply bool_decide_eq_true. by rewrite Egp. }
  unfold evaluateLeaf in Hb. apply (classified_harmless g gp json q); [done|..|done|done].
  - destruct (ex_parseOK _); [done|]. cbn in Hb. by rewrite blocks_Stricter, (Hun _ Hpe), orb_true_r in Hb.
  - destruct (ex_parseOK _); cbn in Hb; [|by rewrite blocks_Stricter, (Hun _ Hpe), orb_true_r in Hb]. destruct (ex_opaque _); [|done].
    by rewrite blocks_Stricter, (Hun _ Hop), orb_true_r in Hb.
Qed.

(** ** Batches *)

Lemma subs_blocks (f : batchSubRequest -> PolicyDecision) best subs : blocks (foldl (fun best sub => Stricter best (f sub)) best subs) = blocks best || existsb (fun sub => blocks (f sub)) subs.
Proof. revert best. induction subs as [|sub subs IH]; intros best; cbn; [by rewrite orb_false_r|]. by rewrite IH, blocks_Stricter, orb_assoc. Qed.

Lemma evaluateBatch_clean evaluateSub m meta body d :
  ma_enabled m = true -> evaluateBatch evaluateSub m meta body = (d, true) -> blocks d = false ->
  forall b, b ∈ ma_batches m -> routeMatches (cb_route b) meta = true ->
    exists subs, parseSubRequests b body = Some subs /\ forall sub, sub ∈ subs -> blocks (evaluateSub (me_Host meta) sub) = false.
Proof.
  intros He. unfold evaluateBatch. rewrite He. cbn [negb]. generalize (allow, true). generalize (ma_batches m). intros batches acc H Hd. revert acc H.
  enough (forall acc, (foldl (fun acc b => if routeMatches (cb_route b) meta then match parseSubRequests b body with None => (acc.1, false) | Some subs =>
      (foldl (fun best sub => Stricter best (evaluateSub (me_Host meta) sub)) acc.1 subs, acc.2) end else acc) acc batches) = (d, true) ->
      blocks acc.1 = false /\ acc.2 = true /\ forall b, b ∈ batches -> routeMatches (cb_route b) meta = true ->
      exists subs, parseSubRequests b body = Some subs /\ forall sub, sub ∈ subs -> blocks (evaluateSub (me_Host meta) sub) = false) as Hall.
  { intros acc H. by apply Hall in H as (_ & _ & H). }
  induction batches as [|b batches IH]; intros acc; cbn; [intros ->; split_and!; [done|done|]; by intros b ?%not_elem_of_nil|].
  intros (H1 & H2 & H3)%IH. destruct (routeMatches (cb_route b) meta) eqn:Er; cycle 1.
  { split_and!; [done|done|]. intros b' [->|Hb']%elem_of_cons Hr; [congruence|by apply H3]. }
  destruct (parseSubRequests b body) as [subs|] eqn:Ep; cbn in H1, H2; [|done]. rewrite subs_blocks in H1. apply orb_false_iff in H1 as [H1 Hsubs].
  split_and!; [done|done|]. intros b' [->|Hb']%elem_of_cons Hr; [|by apply H3]. exists subs. split; [done|]. intros sub Hsub. by apply (existsb_none _ _ sub) in Hsubs.
Qed.

(** The sub-requests in a batch body, and in the batches among them. *)
Inductive wraps (m : Matcher) : RequestMeta -> string -> batchSubRequest -> Prop :=
| wr_sub meta text b subs sub : b ∈ ma_batches m -> routeMatches (cb_route b) meta = true -> parseSubRequests b text = Some subs -> sub ∈ subs -> wraps m meta text sub
| wr_nested meta text sub sub' : wraps m meta text sub -> wraps m (subMeta (me_Host meta) sub) (sb_body sub) sub' -> wraps m meta text sub'.

(** Every batch endpoint that the request matches reads its body as a batch. *)
Definition well_formed (m : Matcher) (meta : RequestMeta) (text : string) : Prop :=
  forall b, b ∈ ma_batches m -> routeMatches (cb_route b) meta = true -> is_Some (parseSubRequests b text).

Lemma MatchesBatch_intro m meta b : ma_enabled m = true -> b ∈ ma_batches m -> routeMatches (cb_route b) meta = true -> MatchesBatch m meta = true.
Proof. intros He Hb Hr. unfold MatchesBatch. rewrite He. apply existsb_elem. eauto. Qed.

Lemma wraps_MatchesBatch m meta text sub : ma_enabled m = true -> wraps m meta text sub -> MatchesBatch m meta = true.
Proof. intros He. induction 1; [by eapply MatchesBatch_intro|done]. Qed.

(** A batch sub-request that does not block was read, and nothing in it blocks. *)
Lemma evaluateSubRequest_nested room m host sub :
  strict_matcher m -> MatchesBatch m (subMeta host sub) = true -> blocks (evaluateSubRequest room m host sub) = false ->
  exists room' d, room = S room' /\ evaluateBatch (evaluateSubRequest room' m) m (subMeta host sub) (sb_body sub) = (d, true) /\ blocks d = false.
Proof.
  intros (He & Hp & _) Hm. destruct room as [|room]; cbn [evaluateSubRequest]; rewrite Hm; [done|]. destruct (evaluateBatch _ _ _ _) as [d ok] eqn:E. intros Hb.
  assert (ok = true /\ blocks d = false) as [-> Hd]; [|by exists room, d]. destruct ok; [done|].
  by rewrite blocks_Stricter, Hp, UninspectableBatch_blocks, orb_true_r in Hb.
Qed.

Lemma wraps_clean m meta text sub :
  strict_matcher m -> wraps m meta text sub -> forall room d, evaluateBatch (evaluateSubRequest room m) m meta text = (d, true) -> blocks d = false ->
  exists room', blocks (evaluateSubRequest room' m (me_Host meta) sub) = false.
Proof.
  intros Hs. induction 1 as [meta text b subs sub Hb Hr Hp Hsub|meta text sub sub' H1 IH1 H2 IH2]; intros room d E Hd.
  - destruct (evaluateBatch_clean _ m meta text d (proj1 Hs) E Hd b Hb Hr) as (subs' & Hp' & Hall). exists room. apply Hall. congruence.
  - destruct (IH1 room d E Hd) as (room1 & Hb1). apply wraps_MatchesBatch in H2 as Hm; [|by destruct Hs].
    destruct (evaluateSubRequest_nested room1 m _ sub Hs Hm Hb1) as (room2 & d2 & _ & E2 & Hd2). by eapply IH2.
Qed.

(** A sub-request that no batch endpoint receives meets the rules; one that is itself a batch is
    read. *)
Definition sub_passes (cfg : RequestPolicy) (m : Matcher) (host : string) (sub : batchSubRequest) : Prop :=
  if MatchesBatch m (subMeta host sub) then well_formed m (subMeta host sub) (sb_body sub) else passes cfg (subMeta host sub) (sub_carries sub).

Lemma EvaluateBatch_passes cfg m meta text d :
  NewMatcher (Some cfg) = Some m -> strict cfg -> EvaluateBatch m meta text = (d, true) -> blocks d = false ->
  well_formed m meta text /\ forall sub, wraps m meta text sub -> sub_passes cfg m (me_Host meta) sub.
Proof.
  intros Hm Hcfg E Hd. pose proof (NewMatcher_strict cfg m Hm Hcfg) as Hs. pose proof (proj1 Hs) as He. split.
  - intros b Hb Hr. destruct (evaluateBatch_clean _ m meta text d He E Hd b Hb Hr) as (subs & Hp & _). by exists subs.
  - intros sub Hw. destruct (wraps_clean m meta text sub Hs Hw _ d E Hd) as (room & Hb). unfold sub_passes. destruct (MatchesBatch m (subMeta (me_Host meta) sub)) eqn:Em.
    + destruct (evaluateSubRequest_nested room m _ sub Hs Em Hb) as (room' & d' & _ & E' & Hd'). intros b Hbm Hr.
      destruct (evaluateBatch_clean _ m _ _ d' He E' Hd' b Hbm Hr) as (subs & Hp & _). by exists subs.
    + apply (evaluateLeaf_passes cfg m _ (extractSubRequestGraphQL sub)); [done|done| |by apply extract_sub_carried]. destruct room; cbn [evaluateSubRequest] in Hb; by rewrite Em in Hb.
Qed.

(** ** The gate *)

Lemma underMethods_batch i (f : string -> PolicyDecision * bool) d ok :
  underMethods (fun x y => (Stricter x.1 y.1, x.2 && y.2)) (in_Method i) (in_Headers i) f = (d, ok) ->
  forall meth, meth ∈ methods i -> (blocks d = false -> blocks (f meth).1 = false) /\ (ok = true -> (f meth).2 = true).
Proof.
  unfold underMethods, methods. generalize (EffectiveMethod (in_Method i) (in_Headers i)). intros eff. case_decide as H.
  - intros [= <- <-] meth Hm. rewrite blocks_Stricter, orb_false_iff, andb_true_iff. apply elem_of_cons in Hm as [->|[->| []%elem_of_nil]%elem_of_cons]; split; by intros [].
  - intros E meth Hm. apply elem_of_cons in Hm as [->|[->| []%elem_of_nil]%elem_of_cons]; [|rewrite <- H]; by rewrite E.
Qed.

(** What the functions of the proxy say, by the methods. *)
Lemma needs_any m i : requestPolicyNeedsBodyPredicate (Some m) i = existsb (fun meth => NeedsBodyPredicate m (inputMeta i noBody meth)) (methods i).
Proof. apply underMethods_orb. Qed.

Lemma batch_any m i : requestPolicyMatchesBatch (Some m) i = existsb (fun meth => MatchesBatch m (inputMeta i noBody meth)) (methods i).
Proof. apply underMethods_orb. Qed.

Lemma evaluate_any m i body : blocks (evaluateRequestPolicy (Some m) i body) = existsb (fun meth => blocks (Evaluate m (inputMeta i body meth))) (methods i).
Proof. apply underMethods_Stricter. Qed.

Lemma uninspectable_any m i action kind :
  blocks (evaluateRequestPolicyUninspectable (Some m) i action kind) = existsb (fun meth => blocks (EvaluateUninspectable m (inputMeta i noBody meth) action kind)) (methods i).
Proof. apply underMethods_Stricter. Qed.

Lemma uninspectableBatch_any m i action :
  blocks (evaluateRequestPolicyUninspectableBatch (Some m) i action) = existsb (fun meth => blocks (UninspectableBatch m (inputMeta i noBody meth) action)) (methods i).
Proof. apply underMethods_Stricter. Qed.

Lemma existsb_at {A} (f : A -> bool) l x : x ∈ l -> f x = true -> existsb f l = true.
Proof. intros. apply existsb_elem. eauto. Qed.

Lemma strict_actions m : strict_matcher m -> OnParseError (Some m) = ActionBlock /\ OnOpaqueOperation (Some m) = ActionBlock.
Proof. intros (_ & Hp & Ho). unfold OnParseError, OnOpaqueOperation. by rewrite Hp, Ho. Qed.

Lemma unreadable_batch m i meth :
  ma_enabled m = true -> meth ∈ methods i -> MatchesBatch m (inputMeta i noBody meth) = true -> blocks (evaluateRequestPolicyUninspectableBatch (Some m) i ActionBlock) = true.
Proof. intros He Hmeth Hm. rewrite uninspectableBatch_any. by apply (existsb_at _ _ meth), UninspectableBatch_blocks. Qed.

Lemma unreadable_rule m i meth cr kind :
  ma_enabled m = true -> meth ∈ methods i -> cr ∈ ma_rules m -> deny_compiled cr -> routeMatches (cl_route cr) (inputMeta i noBody meth) = true -> hasBodyPredicate kind cr = true ->
  blocks (evaluateRequestPolicyUninspectable (Some m) i ActionBlock kind) = true.
Proof. intros He Hmeth Hin Hd Hr Hk. rewrite uninspectable_any. apply (existsb_at _ _ meth); [done|]. by apply (EvaluateUninspectable_blocks m _ kind cr). Qed.

Lemma needs_rule m i meth cr :
  ma_enabled m = true -> meth ∈ methods i -> cr ∈ ma_rules m -> routeMatches (cl_route cr) (inputMeta i noBody meth) = true -> hasBodyPredicate PredAnyBody cr = true ->
  requestPolicyNeedsBodyPredicate (Some m) i = true.
Proof.
  intros He Hmeth Hin Hr Hk. rewrite needs_any. apply (existsb_at _ _ meth); [done|]. unfold NeedsBodyPredicate. rewrite He. apply (existsb_at _ _ cr); [done|]. by rewrite Hk, Hr.
Qed.

(** An allowed request finds nothing for a rule on its route. *)
Lemma evaluate_allowed m i body meth cr :
  ma_enabled m = true -> blocks (evaluateRequestPolicy (Some m) i body) = false -> meth ∈ methods i -> cr ∈ ma_rules m -> deny_compiled cr ->
  routeMatches (cl_route cr) (inputMeta i noBody meth) = true -> cl_disc cr = None ->
  exists gp, cl_graphql cr = Some gp /\ gqlMatches gp (rb_ops body) = false.
Proof.
  intros He Hb Hmeth Hin Hd Hr Hdisc. rewrite evaluate_any in Hb. apply (existsb_none _ _ meth) in Hb; [|done].
  change (rb_ops body) with (me_Operations (inputMeta i body meth)). by apply (Evaluate_allowed m _ cr).
Qed.

Lemma batchPart_clean m i d meth :
  strict_matcher m -> blocks (batchPart (Some m) i d) = false -> meth ∈ methods i -> MatchesBatch m (inputMeta i noBody meth) = true ->
  in_BodyRead i = true /\ exists d', EvaluateBatch m (inputMeta i noBody meth) (in_Body i) = (d', true) /\ blocks d' = false.
Proof.
  intros Hs Hb Hmeth Hmb. pose proof (unreadable_batch m i meth (proj1 Hs) Hmeth Hmb) as Hun. destruct (strict_actions m Hs) as [Hp Ho]. unfold batchPart in Hb.
  rewrite batch_any, (existsb_at _ _ meth Hmeth Hmb), Hp, Ho in Hb. destruct (in_BodyRead i); cbn [negb] in Hb; [|by rewrite blocks_Stricter, Hun, orb_true_r in Hb].
  split; [done|]. destruct (evaluateRequestPolicyBatch (Some m) i) as [bd ok] eqn:E.
  destruct (underMethods_batch i _ bd ok E meth Hmeth) as [H1 H2]. destruct (EvaluateBatch m (inputMeta i noBody meth) (in_Body i)) as [d' ok']. cbn [fst snd] in *.
  exists d'. assert (ok = true /\ blocks bd = false) as [Hok Hbd]; [|by rewrite (H2 Hok), (H1 Hbd)].
  destruct ok; rewrite blocks_Stricter in Hb; [by apply orb_false_iff in Hb as [_ Hb]|]. by rewrite Hun, orb_true_r in Hb.
Qed.

Lemma decision_batch m i b meth :
  strict_matcher m -> blocks (requestPolicyDecision (Some m) (with_Body b true i)) = false -> meth ∈ methods i -> MatchesBatch m (inputMeta i noBody meth) = true ->
  exists d, EvaluateBatch m (inputMeta i noBody meth) b = (d, true) /\ blocks d = false.
Proof.
  intros Hs Hb Hmeth Hm. unfold requestPolicyDecision in Hb. apply (batchPart_clean m _ _ meth Hs) in Hb as [_ H]; [exact H|exact Hmeth|exact Hm].
Qed.

Lemma batchPart_base m i d : blocks (batchPart m i d) = false -> blocks d = false.
Proof.
  unfold batchPart. destruct (requestPolicyMatchesBatch m i); [|done].
  destruct (in_BodyRead i); cbn [negb]; [destruct (evaluateRequestPolicyBatch m i) as [bd []]|]; rewrite ?blocks_Stricter, ?orb_false_iff; tauto.
Qed.

Lemma classified m i :
  strict_matcher m -> blocks (evaluateRequestPolicyUninspectable (Some m) i ActionBlock PredGraphQL) = true -> requestPolicyNeedsBodyPredicate (Some m) i = true ->
  blocks (evaluateRequestPolicyUninspectable (Some m) i ActionBlock PredAnyBody) = true -> blocks (evaluateRequestPolicyBodyPredicates (Some m) i) = false ->
  blocks (evaluateRequestPolicy (Some m) i (bodyOf i)) = false /\
  ex_parseOK (extractRequestPolicyOperations i) = true /\ ex_opaque (extractRequestPolicyOperations i) = false.
Proof.
  intros Hs Hun Hneed Hany. unfold evaluateRequestPolicyBodyPredicates. destruct (strict_actions m Hs) as [-> ->]. rewrite Hneed. cbn [negb].
  destruct (in_BodyRead i); cbn [negb]; [|by rewrite Hany].
  generalize (evaluateRequestPolicyUninspectable (Some m) i ActionBlock PredDiscriminator), (evaluateRequestPolicy (Some m) i (bodyOf i)). intros dd d.
  destruct (ex_parseOK _), (ex_opaque _), (decide _); cbn [negb]; rewrite ?blocks_Stricter, ?Hun, ?orb_true_r; cbn; rewrite ?orb_false_iff; (done || by intros []).
Qed.

Lemma request_passes cfg m i meth :
  NewMatcher (Some cfg) = Some m -> strict cfg -> blocks (requestPolicyDecision (Some m) i) = false -> in_DeferBodyPredicate i = false -> meth ∈ methods i ->
  passes cfg (inputMeta i noBody meth) (carries (in_ContentType i) (in_Query i) (in_Body i)).
Proof.
  intros Hm Hcfg Hb Hdef Hmeth r Hr Hdeny Hdisc Hroute. pose proof (NewMatcher_strict cfg m Hm Hcfg) as Hs. pose proof (proj1 Hs) as He.
  destruct (NewMatcher_rule cfg m r Hm (proj1 Hcfg) Hr) as (cr & Hcr & Hin). destruct (compileRule_fields r cr _ Hcr Hdeny Hdisc Hroute) as (Hd & Hnd & Hmt & Hg).
  unfold requestPolicyDecision in Hb. apply batchPart_base in Hb. rewrite Hdef, blocks_Stricter in Hb. apply orb_false_iff in Hb as [Hroute_only Hbody].
  destruct (evaluate_allowed m i noBody meth cr He Hroute_only Hmeth Hin Hd Hmt Hnd) as (gp & Egp & _).
  assert (hasBodyPredicate PredGraphQL cr = true /\ hasBodyPredicate PredAnyBody cr = true) as [Hk1 Hk2] by (cbn; by rewrite Egp).
  destruct (classified m i Hs) as (Hev & Hok & Hop); [by eapply unreadable_rule|by eapply needs_rule|by eapply unreadable_rule|done|].
  destruct (evaluate_allowed m i (bodyOf i) meth cr He Hev Hmeth Hin Hd Hmt Hnd) as (gp' & Egp' & Hgm). assert (gp' = gp) as -> by congruence.
  rewrite Egp in Hg. destruct (rl_GraphQL r) as [g|]; [|done]. exists g. split; [done|]. intros json q Hj Hq. apply extract_carried in Hj as Ej.
  change (rb_ops (bodyOf i)) with (ex_ops (extractRequestPolicyOperations i)) in Hgm. rewrite Ej in *. by apply (classified_harmless g gp json q).
Qed.

Definition sentText (body : option stream) : string := match body with Some s => st_content s | None => "" end.
Definition intact (body : option stream) : Prop := match body with Some s => st_fails s = false | None => True end.

(** A copy that a scanner made is what it put back. *)
Definition buffered_ok (req : forwardRequest) : Prop := forall b, fr_buffered req = Some b -> fr_Body req = Some {| st_content := b; st_fails := false |}.

(** What the policy was applied to is what is sent, if it needed the body and would have
    stopped the request for a body that it cannot read. *)
Lemma gate_reads recorded limit m req :
  buffered_ok req -> rr_Block (requestPolicyReadBlocked recorded (Some m) (rpInput req)) = true ->
  requestPolicyNeedsBodyPredicate (Some m) (rpInput req) || requestPolicyMatchesBatch (Some m) (rpInput req) = true ->
  rr_Block (requestPolicyGate recorded limit (Some m) req).1 = false ->
  let sent := (requestPolicyGate recorded limit (Some m) req).2 in
  intact sent /\ blocks (requestPolicyDecision (Some m) (with_Body (sentText sent) true (rpInput req))) = false.
Proof.
  intros Hbuf Hrb Hneed. unfold requestPolicyGate, prepareRequestPolicyBody. rewrite <- negb_orb, Hneed. cbn [negb]. rewrite orb_false_r. unfold applyRequestPolicy.
  destruct (in_BodyRead (rpInput req)) eqn:Er.
  - cbn [rr_Block forwards fst snd]. rewrite finalize_blocks. intros Hb. cbn in Er. unfold buffered_ok in Hbuf.
    assert (intact (fr_Body req) /\ rpInput req = with_Body (sentText (fr_Body req)) true (rpInput req)) as [Hi <-]; [|done].
    unfold rpInput, with_Body. cbn. destruct (fr_buffered req) as [b|]; [by rewrite (Hbuf b eq_refl)|]. cbn in Er. apply bool_decide_eq_true in Er. by rewrite Er.
  - cbn in Er. apply orb_false_iff in Er as [Er1 Er2]. destruct (fr_Body req) as [s|]; [|done]. destruct (readLimited limit s) as [buf|]; [|cbv beta iota; rewrite Hrb; cbn [fst]; by rewrite Hrb].
    destruct (decide _); [cbv beta iota; rewrite Hrb; cbn [fst]; by rewrite Hrb|]. cbn [rr_Block forwards fst snd sentText st_content]. rewrite finalize_blocks. done.
Qed.

Lemma gate_route_only recorded limit m req :
  rr_Block (requestPolicyGate recorded limit (Some m) req).1 = false -> blocks (evaluateRequestPolicy (Some m) (rpInput req) noBody) = false.
Proof.
  assert (forall i, in_DeferBodyPredicate i = false -> rr_Block (applyRequestPolicy recorded (Some m) i) = false -> blocks (evaluateRequestPolicy (Some m) i noBody) = false) as Ha.
  { intros i Hd. unfold applyRequestPolicy, requestPolicyDecision. rewrite finalize_blocks, Hd. intros H%batchPart_base. rewrite blocks_Stricter in H. by apply orb_false_iff in H as [? _]. }
  unfold requestPolicyGate. destruct (prepareRequestPolicyBody _ _ _ _ _) as [[rp i] body] eqn:E. destruct (rr_Block rp) eqn:Er; cbn [fst]; [congruence|]. intros H.
  assert (i = rpInput req \/ exists b, i = with_Body b true (rpInput req)) as [->|[b ->]]; [|by apply Ha in H..].
  apply (f_equal (fun p => p.1.2)) in E. cbn [fst snd] in E. rewrite <- E. clear. generalize (rpInput req). intros i. unfold prepareRequestPolicyBody.
  destruct (_ || _); [by left|]. destruct (fr_Body req) as [s|]; [|right; by eexists]. destruct (readLimited limit s) as [buf|]; [|by left].
  destruct (decide _); [by left|right; by eexists].
Qed.



End policy.

(** ** Paths *)

(** A segment that names one level of a path. *)
Definition segment (s : string) : Prop :=
  s <> "" /\ s <> "." /\ s <> ".." /\ Strings.ContainsByte s "/" = false /\ Strings.ContainsByte s ";" = false.

Definition canonical (p : string) : Prop :=
  exists segs slash, p = ("/" +:+ Strings.Join segs "/") +:+ (if slash : bool then "/" else "") /\ Forall segment segs /\ (segs = [] -> slash = false).

(** Nothing is left to decode. *)
Definition decoded (s : string) : Prop := PathUnescape s = None \/ PathUnescape s = Some s.

Lemma cutAny_free cut s c : c ∈ cut -> Strings.ContainsByte (cutAny cut s) c = false.
Proof. intros Hc. induction s as [|a s IH]; cbn; [done|]. destruct (decide (a ∈ cut)); cbn; [done|]. rewrite decide_False; [done|]. by intros ->. Qed.

Lemma cutAny_part cut s c : Strings.ContainsByte s c = false -> Strings.ContainsByte (cutAny cut s) c = false.
Proof. induction s as [|a s IH]; cbn; [done|]. destruct (decide (a = c)) as [|Hac] eqn:E; [done|]. intros H. destruct (decide (a ∈ cut)); cbn; [done|]. rewrite E. auto. Qed.

Lemma unescapeRounds_rooted n s : Strings.HasPrefix s "/" = true -> Strings.HasPrefix (unescapeRounds n s) "/" = true.
Proof.
  revert s. induction n as [|n IH]; intros s Hs; cbn; [done|]. destruct (PathUnescape s) as [dec|] eqn:E; [|done]. destruct (decide (dec = s)); [done|]. apply IH.
  destruct s as [|a s]; [done|]. cbn in Hs. destruct (decide ("/"%char = a)) as [<-|]; [|done]. cbn in E. destruct (PathUnescape s); [|done]. cbn in E. injection E as <-. cbn. by destruct s0.
Qed.

Lemma unescapeRounds_decoded n s : decoded (unescapeRounds n s) -> unescapeRounds (S n) s = unescapeRounds n s.
Proof.
  revert s. induction n as [|n IH]; intros s H.
  - cbn in *. destruct H as [->| ->]; [done|]. by rewrite decide_True.
  - change (unescapeRounds (S (S n)) s) with (match PathUnescape s with Some dec => if decide (dec = s) then s else unescapeRounds (S n) dec | None => s end).
    change (unescapeRounds (S n) s) with (match PathUnescape s with Some dec => if decide (dec = s) then s else unescapeRounds n dec | None => s end) in *.
    destruct (PathUnescape s) as [dec|] eqn:E; [|done]. destruct (decide (dec = s)); [done|]. by apply IH.
Qed.

Lemma cleanStep_segments stack seg :
  Forall segment stack -> Strings.ContainsByte seg "/" = false -> Strings.ContainsByte seg ";" = false -> Forall segment (cleanStep true stack seg).
Proof.
  intros Hs H1 H2. unfold cleanStep. destruct (decide (seg = "" \/ seg = ".")); [done|]. destruct (decide (seg = "..")).
  - destruct Hs as [|top rest Ht Hr]; [done|]. destruct (decide (top = "..")); [by constructor|done].
  - constructor; [|done]. split_and!; [tauto|tauto|done|done|done].
Qed.

Lemma cleanSteps_segments segs stack :
  Forall segment stack -> Forall (fun s => Strings.ContainsByte s "/" = false /\ Strings.ContainsByte s ";" = false) segs -> Forall segment (foldl (cleanStep true) stack segs).
Proof. intros Hs H. revert stack Hs. induction H as [|seg segs [H1 H2] _ IH]; intros stack Hs; cbn; [done|]. apply IH. by apply cleanStep_segments. Qed.

Lemma Split_root s c : Strings.Split (String c s) c = "" :: Strings.Split s c.
Proof. cbn. by rewrite decide_True. Qed.

(** The segments without their parameters, put together again. *)
Definition stripped (s : string) : string := Strings.Join (cutAny [";"%char] <$> Strings.Split s "/") "/".

Lemma stripped_pieces s :
  Strings.Split (stripped s) "/" = (cutAny [";"%char] <$> Strings.Split s "/") /\
  Forall (fun s => Strings.ContainsByte s "/" = false /\ Strings.ContainsByte s ";" = false) (cutAny [";"%char] <$> Strings.Split s "/").
Proof.
  assert (Forall (fun s => Strings.ContainsByte s "/" = false /\ Strings.ContainsByte s ";" = false) (cutAny [";"%char] <$> Strings.Split s "/")) as H.
  { apply Forall_fmap, Forall_forall. intros x Hx%Strings.Split_pieces. split; [by apply cutAny_part|]. apply cutAny_free. apply list_elem_of_here. }
  split; [|done]. apply Strings.Split_Join; [|eapply Forall_impl; [exact H|by intros x [? _]]]. intros E%(f_equal length). rewrite length_fmap in E. by destruct (Strings.Split s "/") eqn:E'; [apply Strings.Split_nonempty in E'|].
Qed.

Lemma stripped_rooted s : Strings.HasPrefix s "/" = true -> Strings.HasPrefix (stripped s) "/" = true.
Proof.
  destruct s as [|a s]; [done|]. cbn [Strings.HasPrefix]. destruct (decide ("/"%char = a)) as [<-|]; [|done]. intros _. unfold stripped. rewrite Split_root.
  destruct (Strings.Split s "/") as [|x xs] eqn:E; [by apply Strings.Split_nonempty in E|].
  exact (Strings.HasPrefix_app "/" (Strings.Join (cutAny [";"%char] <$> (x :: xs) : list string) "/")).
Qed.

Lemma Clean_rooted p segs :
  Strings.HasPrefix p "/" = true -> Strings.Split p "/" = segs -> Forall (fun s => Strings.ContainsByte s "/" = false /\ Strings.ContainsByte s ";" = false) segs ->
  exists out, Clean p = "/" +:+ Strings.Join out "/" /\ Forall segment out.
Proof. intros Hp <- Hs. unfold Clean. rewrite Hp. eexists. split; [done|]. by apply Forall_reverse, cleanSteps_segments. Qed.

Lemma PathUnescape_empty s : PathUnescape s = Some "" -> s = "".
Proof.
  destruct s as [|c s]; [done|]. intros H. exfalso. destruct (decide (c = "%"%char)) as [->|Hc].
  - cbn in H. repeat case_match; try done; by destruct (PathUnescape _).
  - assert (PathUnescape (String c s) = String c <$> PathUnescape s) as E by (destruct c as [[] [] [] [] [] [] [] []]; done). rewrite E in H. by destruct (PathUnescape s).
Qed.


(** ** Examples

    A reader of compact JSON without escapes, and patterns that match one text. *)

Fixpoint demo_pieces (depth : nat) (inside : bool) (s : string) : list string :=
  match s with
  | EmptyString => [""]
  | String c s =>
      let cons l := match l with x :: xs => String c x :: xs | [] => [String c ""] end in
      if decide (c = quote) then cons (demo_pieces depth (negb inside) s)
      else if inside then cons (demo_pieces depth inside s)
      else if decide (c ∈ ["{"; "["]%char) then cons (demo_pieces (S depth) inside s)
      else if decide (c ∈ ["}"; "]"]%char) then cons (demo_pieces (pred depth) inside s)
      else if decide (c = ","%char /\ depth = 0) then "" :: demo_pieces depth inside s
      else cons (demo_pieces depth inside s)
  end.

Definition demo_inner (s : string) : string := String.substring 1 (String.length s - 2) s.
Definition demo_items (s : string) : list string := if decide (demo_inner s = "") then [] else demo_pieces 0 false (demo_inner s).

Definition demo_shape (s : string) : option jsonShape :=
  match s with
  | EmptyString => None
  | String c _ =>
      if decide (c = "{"%char) then ShObject <$> mapM (fun m => '(k, v) ← Strings.Cut m ":"; Some (demo_inner k, v)) (demo_items s)
      else if decide (c = "["%char) then Some (ShArray (demo_items s))
      else if decide (c = quote) then Some (ShString (demo_inner s))
      else Some (if decide (s = "null") then ShNull else ShOther)
  end.

Definition demo_URL (s : string) : option Url.URL :=
  Some {| Url.u_Scheme := ""; Url.u_Opaque := ""; Url.u_User := ""; Url.u_Host := ""; Url.u_Path := s; Url.u_RawPath := ""; Url.u_RawQuery := ""; Url.u_Fragment := "" |}.
Definition demo_Compile (p : string) : option (string -> bool) := Some (fun s => bool_decide (s = p)).

Definition demo_route (prefix : string) : RequestPolicyRoute :=
  {| rt_Hosts := ["*.example.com"]; rt_Methods := ["post"]; rt_PathPrefixes := [prefix]; rt_PathPatterns := []; rt_ContentTypes := [] |}.
Definition demo_rule (prefix : string) (shadow : bool) (g : option RequestPolicyGraphQL) (d : option RequestPolicyDiscriminator) : RequestPolicyRule :=
  {| rl_Name := "rule"; rl_Action := ActionBlock; rl_Shadow := shadow; rl_Route := demo_route prefix; rl_GraphQL := g; rl_Discriminator := d; rl_Reason := "" |}.
Definition demo_graphql : RequestPolicyGraphQL := {| gq_OperationTypes := ["Mutation"]; gq_RootFieldPatterns := ["drop"] |}.
Definition demo_disc : RequestPolicyDiscriminator := {| dc_Field := "op"; dc_ValuePatterns := ["delete"] |}.
Definition demo_batch (prefix : string) : RequestPolicyBatch :=
  {| bt_Route := demo_route prefix; bt_RequestsField := "requests"; bt_MethodField := "method"; bt_URLField := "url"; bt_BodyField := "body"; bt_MaxSubRequests := 64 |}.

Definition demo_policy : RequestPolicy :=
  {| rp_Enabled := true; rp_OnParseError := ""; rp_OnOpaqueOperation := "block";
     rp_Rules := [demo_rule "/graphql" false (Some demo_graphql) None; demo_rule "/admin" false None None; demo_rule "/ops" false None (Some demo_disc)];
     rp_Batch := [demo_batch "/batch"; demo_batch "/admin/batch"] |}.

Definition demo_matcher (p : RequestPolicy) : Matcher := default disabledMatcher (NewMatcher id id demo_URL demo_Compile (Some p)).

Definition demo_request (path body : string) : forwardRequest :=
  {| fr_Hostname := "api.example.com"; fr_Method := "POST"; fr_EscapedPath := path; fr_RawQuery := ""; fr_Headers := ∅;
     fr_Body := Some {| st_content := quoted body; st_fails := false |}; fr_buffered := None |}.

Definition demo_gate (p : RequestPolicy) (limit : Z) (r : forwardRequest) : bool * option stream :=
  let res := requestPolicyGate id id demo_URL Url.u_Path demo_shape (fun _ => "") (fun s => Some (s, ∅)) (fun _ _ => []) (fun _ => true) None limit (Some (demo_matcher p)) r in
  (rr_Block res.1, res.2).

(** Whether a request with a path and a body is stopped. *)
Definition demo_stops (path body : string) : bool := (demo_gate demo_policy 1000 (demo_request path body)).1.

Example rules_at_work :
  demo_stops "/graphql" "{'query':'mutation { a: drop }'}" = true /\ demo_stops "/graphql" "[{'query':'{ ok }'},{'query':'{ ok } mutation { ...F } fragment F on M { drop }'}]" = true /\
  demo_stops "/graphql" "{'query':'{ drop }'}" = false /\ demo_stops "/x/%252e%252e/admin;v=1/users" "{}" = true /\
  demo_stops "/ops" "{'op':'delete'}" = true /\ demo_stops "/ops" "{'op':'get','op':'list'}" = true /\ demo_stops "/ops" "{'op':'get'}" = false /\
  demo_stops "/batch" "{'requests':[{'method':'POST','url':'/safe'},{'method':'POST','url':'/admin'}]}" = true.
Proof. vm_compute. repeat split. Qed.

(** A server that looks for the key [query] executes [drop]; the policy reads the last member whose
    key is equal up to case. *)
Example hidden_query : demo_stops "/graphql" "{'query':'mutation { drop }','Query':'{ ok }'}" = false.
Proof. vm_compute. reflexivity. Qed.

(** The dot segments of a path without a leading slash stay. *)
Example relative_path_kept :
  NormalizePath "../admin" = "/../admin" /\
  demo_stops "/batch" "{'requests':[{'method':'POST','url':'../admin'}]}" = false /\ demo_stops "/batch" "{'requests':[{'method':'POST','url':'/x/../admin'}]}" = true.
Proof. vm_compute. repeat split. Qed.

(** The operation that the discriminator stops passes inside a batch. *)
Example discriminator_lost_in_batch :
  demo_stops "/ops" "{'op':'delete'}" = true /\ demo_stops "/batch" "{'requests':[{'method':'POST','url':'/ops','body':{'op':'delete'}}]}" = false.
Proof. vm_compute. repeat split. Qed.

(** A sub-request to a batch endpoint is not held against the rules on its own route. *)
Example nested_batch_skips_rules :
  demo_stops "/admin/batch" "{'requests':[]}" = true /\ demo_stops "/batch" "{'requests':[{'method':'POST','url':'/admin/batch','body':{'requests':[]}}]}" = false.
Proof. vm_compute. repeat split. Qed.

(** A body over the limit on the route of a shadow rule: the request goes on without the bytes that
    were read. *)
Definition demo_shadow : RequestPolicy :=
  {| rp_Enabled := true; rp_OnParseError := ""; rp_OnOpaqueOperation := ""; rp_Rules := [demo_rule "/graphql" true (Some demo_graphql) None]; rp_Batch := [] |}.

Example shadow_rule_loses_body : demo_gate demo_shadow 4 (demo_request "/graphql" "0123456789") = (false, Some {| st_content := "56789"; st_fails := false |}).
Proof. vm_compute. reflexivity. Qed.

(** ** Witnesses *)

Definition demo_safe : forwardRequest := demo_request "/graphql" "{'query':'{ drop }'}".


Definition demo_batch_text : string := "{'requests':[{'method':'POST','url':'/safe'},{'method':'POST','url':'/batch','body':{'requests':[{'method':'POST','url':'/ok'}]}}]}".


